(* ===== verification/_CoqProject ===== *)
-Q . S2P
Prelude.v
Primality.v
Elements.v
Crypto.v
Security.v
Frames.v
Channels.v
DataProt.v
Roaming.v
Kde.v
Rsn.v
Advert.v
Mlo.v
Eapol.v
Sae.v
Failures.v
Ap.v
ApConfig.v
ApEapol.v
Demo.v
Handshake.v
FourWay.v
ApData.v
ApMgmt.v
ApKeys.v
ApBeacon.v
ApRates.v
ApAdmit.v
ApSae.v
ApExchange.v
ApTimers.v
ApEffects.v
ApSystem.v
ApSession.v
Client.v
ClientKeys.v
ClientRx.v
ClientOk.v
ClientSafe.v
ClientRun.v
Station.v
Bss.v
