(* ===== verification/Prelude.v ===== *)
(** * oxwifid: a verification library

    oxwifid ("barely-ap") is a user-space 802.11 access point and supplicant in
    Rust.  Raw 802.11 frames come in, are parsed, and drive a set of state
    machines (authentication, SAE, association, the four-way and group key
    handshakes, protected data and management frames, timers); the answers go
    out as frames with a radiotap header, or as Ethernet frames to the network.
    This library translates that core into Gallina, function by function and
    under the source's names, and proves what makes it correct.

    ** How the code is represented

    - An octet is a [Z] in 0..255 ([is_byte]); a [Vec<u8>] or slice is a
      [list Z] ([bytes], [wf_bytes]); an array [[u8; n]] is a list with
      [arr n].  Integers are [Z]; where a Rust operation wraps or truncates the
      wrap-around is written out ([u8], [u16], [u32], [u64]).
    - A Rust expression is an outcome [res A]: a value, a panic (slice or index
      out of range, failed [expect]) or a loop that has used its fuel.  A
      theorem [f x = Val y] therefore excludes panics and divergence.  Loops
      over byte strings are [loop step fuel] with fuel one more than the length
      of the string; each iteration consumes at least one octet
      (Prelude, [loop_spec]), so the fuel is never used up.
    - The [&mut self] methods of [Ap], [Sae] and [FailureLog] thread their state
      explicitly.  A [HashMap] is a [gmap]; where the code iterates over one, in
      an order that Rust leaves open, the order is an argument of the model.
    - The cryptographic crates (AES, SHA-1/256/384, HMAC, PBKDF2, GCM, AES-CMAC's
      block cipher, P-256) are not part of the repository: they are the classes
      [Primitives] (Crypto) and [P256] (Sae), with the documented laws that are
      used (lengths, decryption inverts encryption, group laws) in
      [PrimitivesOk] and [P256Ok], both with concrete instances, so no theorem is
      vacuous.  Randomness (src/ap/mod.rs, [random_bytes]) is the class
      [Entropy].  No unforgeability is assumed anywhere: the security theorems
      say which key and which octets a MIC was verified for.

    ** Files

    - Prelude: outcomes, octets, little- and big-endian codecs, record update,
      loops over tagged fields, the tactics [len], [rust_steps], [fields].
    - Primality: the order of the P-256 group is a prime, by Pocklington's
      criterion on a certificate; Sae's instance of the group needs it.
    - Elements: src/frames/information_elements/common.rs.
    - Crypto: src/auth/crypto.rs (PRFs, CMAC, CCM, GCM framing, key wrap).
    - Security: src/structures/security.rs (ciphers, EAPOL-Key parsing).
    - Frames: src/structures/common.rs, src/frames/management.rs and the action
      frames.  Channels: src/frames/channels.rs, radiotap, operating classes.
    - DataProt: src/frames/data.rs (CCMP and GCMP).  Roaming: src/roaming/.
    - Kde: src/group_keys/, src/mlo/keys.rs (KDEs, BIP).  Rsn: src/auth/rsn.rs.
    - Eapol: src/auth/eapol.rs and the group and multi-link builders.
    - Sae: src/auth/wpa3/ (group 19, SAE, OWE).  Failures: src/failures.rs.
    - Ap: the [Ap] and [Station] records of src/ap/ with every field, the helpers
      the handlers share, and the well-formedness invariant [ap_ok].
      ApConfig: src/ap/configuration.rs.  ApEapol: [handle_eapol] of
      src/ap/handshake.rs, one definition per message.
    - Demo: concrete access points, stations and frames for the witnesses.
    - Handshake: [eapol_step], the abstract step relation of the key handshakes,
      its refinement by [handle_eapol], and the safety theorems.
    - FourWay: the authenticator's half of a complete four-way handshake; Bss has
      the whole.
    - ApData: src/ap/data.rs, the protected data path.  ApMgmt: src/ap/management.rs
      and src/ap/roaming.rs, SA Query and robust management frames, kick and idle
      pruning.  ApKeys: src/ap/group_keys.rs, both group rekeys and the group
      deauthentication.
    - Advert: the capability and operation elements of
      src/frames/information_elements/ and the beacon and response builders of
      src/frames/management.rs.  Mlo: src/mlo/elements.rs.  ApBeacon:
      src/ap/beacon.rs, the advertisement half of src/ap/mlo.rs and the probe
      response of src/ap/receive.rs.
    - ApRates and ApAdmit: src/ap/association.rs, the request rates of
      src/ap/runtime.rs, the multi-link validation of src/ap/mlo.rs and the PMKSA
      cache of src/ap/lifecycle.rs.  [handle_assoc_req] is one function from the
      request to message 1.
    - ApSae and ApExchange: src/ap/sae_auth.rs and the authentication half of
      src/ap/receive.rs.  The worker thread and its two channels are lists in the
      state; its moves are events of a run.
    - ApTimers: src/ap/lifecycle.rs, [tick], the heap of handshake timers (a bag of
      which the least entry is taken), the maintenance deadline.  ApEffects: what
      each handler leaves alone, one relation and a lemma for each.
    - ApSystem: [handle_incoming] of src/ap/receive.rs, from the radiotap header to
      the handlers, and the runs of the whole access point: frames, ticks,
      deliveries, worker moves, reports and administrative actions in any order.
      ApSession: runs of frames against one protected session.
    - Client, ClientKeys and ClientRx: src/client/, the station.  [Client] is its
      record, ClientKeys the supplicant (src/client/handshake.rs, group_keys.rs and
      [handle_eapol_key]), ClientRx the rest of [handle_incoming]: joining, SAE,
      association, robust management, downlink.  [client_step] is one event: a
      received octet string, a packet to send, a tick of src/client/session.rs.
      ClientOk, ClientSafe and ClientRun hold its invariant and the effect of each
      handler, Station the theorems on its runs.  Bss lets the station and the
      access point talk to each other through their frames.

    ** What the theorems show

    - Handshakes: [handle_eapol] always returns, refines [eapol_step], preserves
      [ap_ok]; keys change only by an authenticated message 4; packet numbers
      and replay windows never restart under a kept temporal key; every
      candidate comes from an authenticated message 2 and an allowed PMK; a
      frame moves only its sender's state; the exchange completes against the
      supplicant's own frames, and both ends then hold the same keys (for two
      ends that are not multi-link, without operating channel validation).
    - SAE and OWE: two ends with the same password derive the same keys and accept
      each other's confirms; two OWE ends derive the same PMK and PMKID from any
      acceptable scalars; commit parsing is total; the constant-time
      hunting-and-pecking loop equals the early-exit search.
    - Wire formats and protection: round trips and exactness of the parsers
      (802.11 header, RSNE, elements, KDEs, EAPOL-Key), CCM, key wrap, BIP and
      CCMP/GCMP; soundness of decryption; injectivity of the associated data.
    - Data structures: the failure log's bound, eviction and counts, as long as its
      64-bit counters, which wrap in the release profile, have not run out;
      credential reload; RSN negotiation.
    - Data and management of an associated station: what reaches the network or ends
      an association is authentic and fresh; a packet number is never used or
      accepted twice; SA Query protects a contested session; a group rekey
      reaches every associated station with exactly the new keys, those of the BSS
      or its own.  The packet number is the one [Dot11::ccmp_pn] reads, which from
      2^16 on is not the one sent ([ccmp_pn_reversed]); the theorems that decrypt
      what was just sent say so.
    - Advertisement: beacons and probe responses are total and contain exactly the
      configured elements in order; protected beacons verify and never repeat a
      packet number; a channel switch counts down to its end; element
      fragmentation and the multi-link profiles, as the code writes them, survive
      the round trip.
    - Admission: a request is ignored, refused with the status of what it fails, or
      admitted, and each outcome says exactly what becomes of the station's record
      and where its key is from (the record, the PMKSA cache, the OWE exchange); an
      admitted station waits for message 2 of the four-way handshake; a forged
      authentication or association never disturbs a protected session; the SAE exchange of an honest station completes with one key at
      both ends, with the commit computed in place or by the worker thread;
      unfinished exchanges stay within their bounds however the frames and the
      worker interleave, and only a verified confirm authenticates.
    - Time: a silent station gets its handshake frame again as often as the limit
      says and is then dropped; maintenance removes exactly what has run out and
      is set for what runs out next.
    - The whole: no run of events makes the access point panic or loop, or breaks
      its invariant, unless it hears or works on a commit for an exchange of its own
      whose password element is the point at infinity; only a verified
      message 4 associates a station; frames from the air leave a protected
      session, its keys and its windows alone, unless one is a deauthentication
      that verifies under that session's key.
    - The station: no run of events stops it, except at the two holes that
      [station_hole] names by the frame that is heard and the state it is heard in:
      its own password element at infinity, and a confirm without a key, which two
      forged frames bring about ([reflected_commit_panics]); in a session no packet
      number or replay window goes back under a key, keys change by authenticated messages only, the
      session ends by silence or a believed farewell, and a downlink frame reaches
      the network once.  Station and access point complete the four-way handshake
      with each other and hold the same keys.

    ** Not modelled

    The configuration files of src/config/ are the part with some logic that is
    left out; the reasons for the rest are system calls (src/netlink/,
    src/raw_frames/), process set-up and text output.
    Timing side channels and the operating-system interface (sockets, netlink,
    packet capture, process set-up, text control protocol) have no definitions
    here: their effects are kernel calls.  Logging is left out. *)

From stdpp Require Export base list gmap.
From Stdlib Require Export ZArith Lia.

Global Open Scope Z_scope.

#[global] Arguments Nat.leb : simpl nomatch.
#[global] Arguments Nat.ltb : simpl nomatch.
#[global] Arguments Nat.modulo : simpl never.
#[global] Arguments Nat.div : simpl never.
#[global] Arguments Z.eqb : simpl nomatch.
#[global] Arguments Z.ltb : simpl nomatch.
#[global] Arguments Z.leb : simpl nomatch.

(** * Outcomes

    [res] is the outcome of a Rust expression: a value, a panic (an index or
    slice out of range, a failed [assert!], an [expect] on [None]) or a loop
    that has used its fuel.  A theorem that the code returns is therefore a
    theorem that the outcome is a [Val]: it excludes panics and divergence. *)
Inductive res (A : Type) : Type :=
| Val (a : A)
| Panic
| OutOfFuel.
Arguments Val {A} a.
Arguments Panic {A}.
Arguments OutOfFuel {A}.

Definition rbind {A B} (m : res A) (k : A -> res B) : res B :=
  match m with
  | Val a => k a
  | Panic => Panic
  | OutOfFuel => OutOfFuel
  end.

Definition rmap {A B} (f : A -> B) (m : res A) : res B :=
  rbind m (fun a => Val (f a)).

(** Rust's [?] on an [Option] inside a function that returns [Option]. *)
Definition obind {A B} (m : res (option A)) (k : A -> res (option B)) : res (option B) :=
  rbind m (fun o => match o with Some a => k a | None => Val None end).

(** [Option::expect] and [Option::unwrap]. *)
Definition expect {A} (o : option A) : res A :=
  match o with Some a => Val a | None => Panic end.

Declare Scope rust_scope.
Delimit Scope rust_scope with rust.
Notation "'let!' x ':=' m 'in' k" := (rbind m (fun x => k))
  (at level 10, x binder, m at level 100, k at level 200) : rust_scope.
Notation "'let?' x ':=' m 'in' k" := (obind m (fun x => k))
  (at level 10, x binder, m at level 100, k at level 200) : rust_scope.
Global Open Scope rust_scope.

Definition returns {A} (m : res A) : Prop := exists a, m = Val a.

Lemma rbind_assoc {A B C} (m : res A) (f : A -> res B) (g : B -> res C) :
  rbind (rbind m f) g = rbind m (fun a => rbind (f a) g).
Proof. by destruct m. Qed.

Lemma rbind_val_inv {A B} (m : res A) (k : A -> res B) b :
  rbind m k = Val b -> exists a, m = Val a /\ k a = Val b.
Proof. destruct m; simpl; [eauto | done | done]. Qed.

Lemma returns_bind {A B} (m : res A) (k : A -> res B) :
  returns m -> (forall a, m = Val a -> returns (k a)) -> returns (rbind m k).
Proof. intros [a ->] H. simpl. by apply H. Qed.

Lemma returns_obind {A B} (m : res (option A)) (k : A -> res (option B)) :
  returns m -> (forall a, m = Val (Some a) -> returns (k a)) -> returns (obind m k).
Proof. intros [[a|] ->] H; simpl; [by apply H | by eexists]. Qed.

(** The value of a computation that returns, and of one that returns something. *)
Definition returned {A} (r : res A) : match r with Val _ => A | _ => unit end :=
  match r with Val a => a | _ => tt end.
Definition returned_some {A} (r : res (option A)) : match r with Val (Some _) => A | _ => unit end :=
  match r with Val (Some a) => a | _ => tt end.


(** Rust's [Result]. *)
Inductive result (A E : Type) : Type :=
| Ok (a : A)
| Err (e : E).
Arguments Ok {A E} a.
Arguments Err {A E} e.

(** * Record fields

    Rust's [self.field = value].  [Eta] gives a record rebuilt from its
    projections; the setter of a field replaces that field's projection. *)
Class Eta (R : Type) := eta : R -> R.
Class Setter {R A : Type} (field : R -> A) := set_field : A -> R -> R.
Arguments set_field {R A} field {_} v r : simpl never.

Ltac make_setter :=
  lazymatch goal with
  | |- Setter (R := ?R) ?field =>
      let v := fresh "v" in
      let r := fresh "r" in
      intros v r;
      lazymatch constr:(@eta R _) with
      | @eta _ ?i =>
          let t := eval cbv beta delta [i] in (i r) in
          let t := eval pattern (field r) in t in
          lazymatch t with ?f _ => let u := eval cbv beta in (f v) in exact u end
      end
  end.
#[export] Hint Extern 0 (Setter _) => make_setter : typeclass_instances.

Notation "r <| field := v |>" := (set_field field v r)
  (at level 1, left associativity, field at level 99, v at level 99,
   format "r <| field  :=  v |>") : rust_scope.

(** Reduce a projection of an updated record.  The equation is proved for an
    arbitrary record, so that nested updates are never unfolded. *)
Ltac field_equation p f v r tac :=
  lazymatch p with
  | set_field _ _ => fail
  | _ =>
      let H := fresh "Hfield" in
      let R := type of r in
      let A := type of v in
      first [assert (H : forall (v' : A) (r' : R), p (set_field f v' r') = v')
               by (intros; reflexivity)
            |assert (H : forall (v' : A) (r' : R), p (set_field f v' r') = p r')
               by (intros; reflexivity)];
      tac H; clear H
  end.
Ltac fields_in H :=
  repeat match type of H with
  | context [?p (set_field ?f ?v ?r)] =>
      field_equation p f v r ltac:(fun E => rewrite (E v r) in H)
  end.
Ltac fields :=
  repeat match goal with
  | |- context [?p (set_field ?f ?v ?r)] =>
      field_equation p f v r ltac:(fun E => rewrite (E v r))
  end.

(** * Loops

    [loop fuel step s] iterates a loop body; [inl] continues with a new loop
    state, [inr] leaves the loop.  [loop_spec] is the one rule used for every
    loop: an invariant, a measure that decreases and is below the fuel. *)
Fixpoint loop {S R : Type} (fuel : nat) (step : S -> res (S + R)) (s : S) : res R :=
  match fuel with
  | O => OutOfFuel
  | S fuel' =>
      let! r := step s in
      match r with
      | inl s' => loop fuel' step s'
      | inr v => Val v
      end
  end.

Lemma loop_spec {S R : Type} (I : S -> Prop) (Q : R -> Prop) (m : S -> nat)
    (step : S -> res (S + R)) :
  (forall s, I s -> exists r, step s = Val r /\
     match r with inl s' => I s' /\ (m s' < m s)%nat | inr v => Q v end) ->
  forall fuel s, I s -> (m s < fuel)%nat -> exists v, loop fuel step s = Val v /\ Q v.
Proof.
  intros Hstep fuel. induction fuel as [|fuel IH]; intros s Hs Hm; [lia|].
  destruct (Hstep s Hs) as [r [Hr Hpost]]. simpl. rewrite Hr. simpl.
  destruct r as [s'|v]; [|eauto].
  destruct Hpost as [HI Hlt]. apply IH; [done|lia].
Qed.

(** A loop that has an answer keeps it under more fuel. *)
Lemma loop_mono {S R : Type} (step : S -> res (S + R)) fuel fuel' s v :
  (fuel <= fuel')%nat -> loop fuel step s = Val v -> loop fuel' step s = Val v.
Proof.
  revert fuel' s. induction fuel as [|fuel IH]; intros fuel' s Hle H; [done|].
  destruct fuel' as [|fuel']; [lia|]. simpl in *.
  destruct (step s) as [[s'|w]| |]; simpl in *; try done.
  apply IH; [lia|done].
Qed.

(** [for x in l] with early exit by panic only. *)
Fixpoint rfold {A B} (f : B -> A -> res B) (b : B) (l : list A) : res B :=
  match l with
  | [] => Val b
  | a :: l' => let! b' := f b a in rfold f b' l'
  end.

Fixpoint rmapM {A B} (f : A -> res B) (l : list A) : res (list B) :=
  match l with
  | [] => Val []
  | a :: l' => let! b := f a in let! bs := rmapM f l' in Val (b :: bs)
  end.

Lemma rfold_inv {A B} (I : B -> Prop) (f : B -> A -> res B) l :
  (forall b a, I b -> a ∈ l -> exists b', f b a = Val b' /\ I b') ->
  forall b, I b -> exists b', rfold f b l = Val b' /\ I b'.
Proof.
  induction l as [|a l IH]; intros Hf b Hb; simpl; [eauto|].
  destruct (Hf b a Hb) as [b' [-> Hb']]; [set_solver|]. simpl.
  apply IH; [|done]. intros; apply Hf; set_solver.
Qed.

(** * Bytes and machine integers

    A [u8] is an integer of [0, 256); [wf_bytes] is the range of a byte string
    and [arr n] the value of a [[u8; n]].  The wider integers are [Z] with the
    wrap-around of their width written out. *)
Abbreviation bytes := (list Z).

Definition is_byte (b : Z) : Prop := 0 <= b < 256.
Definition wf_bytes (l : bytes) : Prop := Forall is_byte l.
Definition arr (n : nat) (l : bytes) : Prop := length l = n /\ wf_bytes l.

Definition u8 (z : Z) : Z := z mod 2 ^ 8.
Definition u16 (z : Z) : Z := z mod 2 ^ 16.
Definition u32 (z : Z) : Z := z mod 2 ^ 32.
Definition u64 (z : Z) : Z := z mod 2 ^ 64.

Global Instance is_byte_dec b : Decision (is_byte b).
Proof. unfold is_byte. apply _. Defined.
Global Instance wf_bytes_dec l : Decision (wf_bytes l).
Proof. unfold wf_bytes. apply _. Defined.
Global Instance arr_dec n l : Decision (arr n l).
Proof. unfold arr. apply _. Defined.

Create HintDb bytes discriminated.

Lemma wf_bytes_nil : wf_bytes [].
Proof. constructor. Qed.
Lemma wf_bytes_cons b l : is_byte b -> wf_bytes l -> wf_bytes (b :: l).
Proof. by constructor. Qed.
Lemma wf_bytes_app l k : wf_bytes l -> wf_bytes k -> wf_bytes (l ++ k).
Proof. apply Forall_app_2. Qed.
Lemma wf_bytes_app_iff l k : wf_bytes (l ++ k) <-> wf_bytes l /\ wf_bytes k.
Proof. apply Forall_app. Qed.
Lemma wf_bytes_take n l : wf_bytes l -> wf_bytes (take n l).
Proof. apply Forall_take. Qed.
Lemma wf_bytes_drop n l : wf_bytes l -> wf_bytes (drop n l).
Proof. apply Forall_drop. Qed.
Lemma wf_bytes_replicate n b : is_byte b -> wf_bytes (replicate n b).
Proof. intros. by apply Forall_replicate. Qed.
Lemma wf_bytes_rev l : wf_bytes l -> wf_bytes (reverse l).
Proof. apply Forall_reverse. Qed.
Lemma u8_byte z : is_byte (u8 z).
Proof. unfold is_byte, u8. apply Z.mod_pos_bound. lia. Qed.
Lemma u8_small b : is_byte b -> u8 b = b.
Proof. intros. apply Z.mod_small. done. Qed.
Lemma arr_wf n l : arr n l -> wf_bytes l.
Proof. by intros []. Qed.
Lemma arr_length n l : arr n l -> length l = n.
Proof. by intros []. Qed.

#[export] Hint Resolve wf_bytes_nil wf_bytes_cons wf_bytes_app wf_bytes_take
  wf_bytes_drop wf_bytes_rev u8_byte arr_wf : bytes.
#[export] Hint Extern 1 (is_byte _) => (unfold is_byte; lia) : bytes.
#[export] Hint Extern 1 (wf_bytes (replicate _ _)) =>
  (apply wf_bytes_replicate) : bytes.

Lemma wf_bytes_nth l i : wf_bytes l -> is_byte (nth i l 0).
Proof.
  intros Hl. rewrite nth_lookup. destruct (l !! i) as [b|] eqn:E; simpl.
  - by apply (Forall_lookup_1 _ _ _ _ Hl E).
  - unfold is_byte. lia.
Qed.
#[export] Hint Resolve wf_bytes_nth : bytes.

(** A property of every byte is decided on the 256 bytes. *)
Definition all_bytes : bytes := seqZ 0 256.

Lemma byte_forall (P : Z -> bool) :
  forallb P all_bytes = true -> forall b, is_byte b -> P b = true.
Proof.
  intros H b Hb. rewrite forallb_forall in H. apply H.
  apply list_elem_of_In, elem_of_seqZ. unfold is_byte in Hb. lia.
Qed.

(** * Indexing and slicing

    [idx] is [l[i]], [slice] is [&l[i..j]], [slice_from] is [&l[i..]]; each
    panics out of range as Rust does.  [get] and [get_range] are the checked
    [l.get(i)] and [l.get(i..j)]. *)
Abbreviation byte_at l i := (nth i%nat l 0%Z).

Definition sub (l : bytes) (i j : nat) : bytes := take (j - i) (drop i l).

Definition idx (l : bytes) (i : nat) : res Z :=
  match l !! i with Some b => Val b | None => Panic end.

Definition slice (l : bytes) (i j : nat) : res bytes :=
  if ((i <=? j) && (j <=? length l))%nat then Val (sub l i j) else Panic.

Definition slice_from (l : bytes) (i : nat) : res bytes := slice l i (length l).

Definition get (l : bytes) (i : nat) : option Z := l !! i.

Definition get_range (l : bytes) (i j : nat) : option bytes :=
  if ((i <=? j) && (j <=? length l))%nat then Some (sub l i j) else None.

Lemma idx_ok l i : (i < length l)%nat -> idx l i = Val (nth i l 0).
Proof.
  intros H. unfold idx. destruct (lookup_lt_is_Some_2 l i H) as [b Hb].
  by rewrite Hb, (nth_lookup_Some _ _ _ _ Hb).
Qed.

Lemma slice_ok l i j : (i <= j)%nat -> (j <= length l)%nat -> slice l i j = Val (sub l i j).
Proof.
  intros H1 H2. unfold slice.
  by rewrite (proj2 (Nat.leb_le _ _) H1), (proj2 (Nat.leb_le _ _) H2).
Qed.

Lemma slice_prefix l n : (n <= length l)%nat -> slice l 0 n = Val (take n l).
Proof. intros H. rewrite slice_ok by lia. unfold sub. by rewrite Nat.sub_0_r. Qed.

Lemma slice_from_ok l i : (i <= length l)%nat -> slice_from l i = Val (drop i l).
Proof.
  intros H. unfold slice_from. rewrite slice_ok by lia. unfold sub.
  rewrite take_ge; [done|]. rewrite length_drop. lia.
Qed.

Lemma get_range_ok l i j :
  (i <= j)%nat -> (j <= length l)%nat -> get_range l i j = Some (sub l i j).
Proof.
  intros H1 H2. unfold get_range.
  by rewrite (proj2 (Nat.leb_le _ _) H1), (proj2 (Nat.leb_le _ _) H2).
Qed.

Lemma get_range_None l i j :
  (length l < j)%nat -> get_range l i j = None.
Proof.
  intros H. unfold get_range.
  rewrite (proj2 (Nat.leb_gt j (length l))) by lia. by rewrite andb_false_r.
Qed.

Lemma get_range_Some l i j s :
  get_range l i j = Some s -> (i <= j)%nat /\ (j <= length l)%nat /\ s = sub l i j.
Proof.
  unfold get_range. destruct (Nat.leb_spec i j), (Nat.leb_spec j (length l)); simpl;
    intros; simplify_eq; auto with lia.
Qed.

Lemma length_sub l i j : (j <= length l)%nat -> length (sub l i j) = (j - i)%nat.
Proof. intros. unfold sub. rewrite length_take, length_drop. lia. Qed.

Lemma wf_sub l i j : wf_bytes l -> wf_bytes (sub l i j).
Proof. intros. unfold sub. auto with bytes. Qed.
#[export] Hint Resolve wf_sub : bytes.

Lemma arr_sub l i j n :
  wf_bytes l -> (j <= length l)%nat -> n = (j - i)%nat -> arr n (sub l i j).
Proof. intros ?? ->. split; [by apply length_sub | auto with bytes]. Qed.
#[export] Hint Extern 3 (arr _ (sub _ _ _)) => (apply arr_sub; [|lia|lia]) : bytes.

Lemma sub_app_r (a b : bytes) i j :
  (length a <= i)%nat -> sub (a ++ b) i j = sub b (i - length a) (j - length a).
Proof.
  intros H. unfold sub. rewrite drop_app_ge by lia. f_equal. lia.
Qed.

Lemma sub_app_l (a b : bytes) i j :
  (i <= j)%nat -> (j <= length a)%nat -> sub (a ++ b) i j = sub a i j.
Proof.
  intros H1 H2. unfold sub. rewrite drop_app_le by lia.
  rewrite take_app_le; [done|]. rewrite length_drop. lia.
Qed.

Lemma sub_all (a : bytes) n : n = length a -> sub a 0 n = a.
Proof. intros ->. unfold sub. rewrite drop_0. rewrite take_ge; [done|lia]. Qed.

Lemma sub_whole (a : bytes) i n : i = O -> n = length a -> sub a i n = a.
Proof. intros ->. apply sub_all. Qed.

Lemma sub_exact (a b c : bytes) i j :
  i = length a -> j = (length a + length b)%nat -> sub (a ++ b ++ c) i j = b.
Proof.
  intros -> ->. rewrite sub_app_r by lia. rewrite Nat.sub_diag.
  rewrite sub_app_l by lia. apply sub_all. lia.
Qed.

Lemma take_sub l i j k : (k <= j - i)%nat -> take k (sub l i j) = sub l i (i + k).
Proof. intros. unfold sub. rewrite take_take. f_equal. lia. Qed.

Lemma drop_sub l i j k : drop k (sub l i j) = sub l (i + k) j.
Proof. unfold sub. rewrite skipn_firstn_comm, drop_drop. f_equal. lia. Qed.

Lemma sub_cat l i j k : (i <= j)%nat -> (j <= k)%nat -> sub l i j ++ sub l j k = sub l i k.
Proof.
  intros Hi Hj. unfold sub. replace (k - i)%nat with ((j - i) + (k - j))%nat by lia.
  rewrite <- take_take_drop. f_equal. f_equal. rewrite drop_drop. f_equal. lia.
Qed.

Lemma sub_cat_drop l i j : (i <= j)%nat -> sub l i j ++ drop j l = drop i l.
Proof.
  intros Hi. unfold sub. rewrite <- (take_drop (j - i) (drop i l)) at 2.
  f_equal. rewrite drop_drop. f_equal. lia.
Qed.

Lemma sub_cons_S (b : Z) l i j : sub (b :: l) (S i) (S j) = sub l i j.
Proof. done. Qed.

Lemma nth_sub l i j k : (k < j - i)%nat -> nth k (sub l i j) 0 = nth (i + k) l 0.
Proof.
  intros H. unfold sub. rewrite !nth_lookup.
  rewrite lookup_take_lt by lia. by rewrite lookup_drop.
Qed.

Lemma drop_nth l i : (i < length l)%nat -> drop i l = nth i l 0 :: drop (S i) l.
Proof.
  intros H. destruct (lookup_lt_is_Some_2 l i H) as [b Hb].
  by rewrite (drop_S _ _ _ Hb), (nth_lookup_Some _ _ _ _ Hb).
Qed.

(** A list of known length is the list of its elements. *)
Ltac explode l :=
  match goal with
  | H : length l = ?n |- _ =>
      let n' := eval vm_compute in n in change n with n' in H
  | _ => idtac
  end;
  repeat (let b := fresh "b" in destruct l as [|b l]; [discriminate|]);
  match goal with
  | H : length l = O |- _ => destruct l; [clear H|discriminate]
  | H : _ = O |- _ => destruct l; [clear H|discriminate]
  | _ => idtac
  end.

(** * Fixed-width encodings

    [le_val] is [from_le_bytes], [le_bytes n] is [to_le_bytes] of an [8n]-bit
    integer; the big-endian forms reverse the octets. *)
Fixpoint le_val (l : bytes) : Z :=
  match l with
  | [] => 0
  | b :: l' => b + 256 * le_val l'
  end.

Fixpoint le_bytes (n : nat) (z : Z) : bytes :=
  match n with
  | O => []
  | S n' => z mod 256 :: le_bytes n' (z / 256)
  end.

Definition be_val (l : bytes) : Z := le_val (reverse l).
Definition be_bytes (n : nat) (z : Z) : bytes := reverse (le_bytes n z).

Lemma length_le_bytes n z : length (le_bytes n z) = n.
Proof. revert z. induction n; intros; simpl; auto. Qed.

Lemma length_be_bytes n z : length (be_bytes n z) = n.
Proof. unfold be_bytes. by rewrite length_reverse, length_le_bytes. Qed.

Lemma wf_le_bytes n z : wf_bytes (le_bytes n z).
Proof.
  revert z. induction n as [|n IH]; intros z; simpl; [constructor|].
  constructor; [|apply IH]. apply Z.mod_pos_bound. lia.
Qed.

Lemma wf_be_bytes n z : wf_bytes (be_bytes n z).
Proof. apply wf_bytes_rev, wf_le_bytes. Qed.
#[export] Hint Resolve wf_le_bytes wf_be_bytes : bytes.

Lemma pow256_S n : 256 ^ Z.of_nat (S n) = 256 * 256 ^ Z.of_nat n.
Proof. rewrite Nat2Z.inj_succ, Z.pow_succ_r; lia. Qed.

Lemma pow256_pos n : 0 < 256 ^ Z.of_nat n.
Proof. apply Z.pow_pos_nonneg; lia. Qed.

Lemma le_val_bound l : wf_bytes l -> 0 <= le_val l < 256 ^ Z.of_nat (length l).
Proof.
  induction 1 as [|b l Hb Hl IH]; simpl length; [simpl; lia|].
  rewrite pow256_S. simpl. unfold is_byte in Hb. lia.
Qed.

Lemma le_val_bytes n z : le_val (le_bytes n z) = z mod 256 ^ Z.of_nat n.
Proof.
  revert z. induction n as [|n IH]; intros z.
  - simpl. by rewrite Z.mod_1_r.
  - rewrite pow256_S. simpl. rewrite IH.
    pose proof (pow256_pos n). rewrite (Z.rem_mul_r z 256); lia.
Qed.

Lemma le_bytes_val l : wf_bytes l -> le_bytes (length l) (le_val l) = l.
Proof.
  induction 1 as [|b l Hb Hl IH]; simpl; [done|].
  unfold is_byte in Hb. f_equal.
  - rewrite (Z.mul_comm 256), Z_mod_plus_full, Z.mod_small; lia.
  - rewrite (Z.mul_comm 256), Z.div_add, Z.div_small by lia. done.
Qed.

Lemma le_val_inj l k :
  length l = length k -> wf_bytes l -> wf_bytes k -> le_val l = le_val k -> l = k.
Proof.
  intros Hlen Hl Hk H. rewrite <- (le_bytes_val l Hl), <- (le_bytes_val k Hk).
  by rewrite Hlen, H.
Qed.

Lemma be_val_bytes n z : be_val (be_bytes n z) = z mod 256 ^ Z.of_nat n.
Proof. unfold be_val, be_bytes. by rewrite reverse_involutive, le_val_bytes. Qed.

Lemma be_bytes_val l : wf_bytes l -> be_bytes (length l) (be_val l) = l.
Proof.
  intros. unfold be_val, be_bytes. rewrite <- (length_reverse l).
  rewrite le_bytes_val by auto with bytes. apply reverse_involutive.
Qed.

Lemma be_val_bound l : wf_bytes l -> 0 <= be_val l < 256 ^ Z.of_nat (length l).
Proof.
  intros. unfold be_val. rewrite <- (length_reverse l).
  apply le_val_bound. auto with bytes.
Qed.

Lemma le_bytes_app n m z : le_bytes (n + m) z = le_bytes n z ++ le_bytes m (z / 256 ^ Z.of_nat n).
Proof.
  revert z. induction n as [|n IH]; intros z.
  - simpl. by rewrite Z.div_1_r.
  - pose proof (pow256_pos n). rewrite pow256_S. simpl.
    by rewrite IH, Z.div_div by lia.
Qed.

Lemma le_val_app l k : le_val (l ++ k) = le_val l + 256 ^ Z.of_nat (length l) * le_val k.
Proof.
  induction l as [|b l IH]; simpl length; [simpl; lia|].
  rewrite pow256_S. simpl app. cbn [le_val]. rewrite IH. lia.
Qed.

Lemma le_val_app_zero l n : le_val (l ++ replicate n 0) = le_val l.
Proof.
  rewrite le_val_app. assert (le_val (replicate n 0) = 0) as ->; [|lia].
  induction n as [|n IH]; [done|]. simpl replicate. cbn [le_val]. lia.
Qed.

Lemma be_bytes_app n m z : be_bytes (n + m) z = be_bytes m (z / 256 ^ Z.of_nat n) ++ be_bytes n z.
Proof. unfold be_bytes. by rewrite le_bytes_app, reverse_app. Qed.

Lemma le_bytes_small n z : 0 <= z < 256 ^ Z.of_nat n -> le_val (le_bytes n z) = z.
Proof. intros. rewrite le_val_bytes. by apply Z.mod_small. Qed.

Lemma be_bytes_small n z : 0 <= z < 256 ^ Z.of_nat n -> be_val (be_bytes n z) = z.
Proof. intros. rewrite be_val_bytes. by apply Z.mod_small. Qed.

Lemma be_val_of n l z : l = be_bytes n z -> 0 <= z < 256 ^ Z.of_nat n -> be_val l = z.
Proof. intros ->. apply be_bytes_small. Qed.

Lemma le_val_of_n n l z : l = le_bytes n z -> 0 <= z < 256 ^ Z.of_nat n -> le_val l = z.
Proof. intros ->. apply le_bytes_small. Qed.

Lemma arr_be_bytes n z : arr n (be_bytes n z).
Proof. split; [apply length_be_bytes|apply wf_be_bytes]. Qed.

Lemma arr_le_bytes n z : arr n (le_bytes n z).
Proof. split; [apply length_le_bytes|apply wf_le_bytes]. Qed.
#[export] Hint Resolve arr_be_bytes arr_le_bytes : bytes.

Lemma be_bytes_arr n l : arr n l -> be_bytes n (be_val l) = l.
Proof. intros [<- Hw]. by apply be_bytes_val. Qed.

Lemma le_bytes_arr n l : arr n l -> le_bytes n (le_val l) = l.
Proof. intros [<- Hw]. by apply le_bytes_val. Qed.

(** * Bit operations on machine integers *)

Lemma range_land n a : 0 <= n -> 0 <= a < 2 ^ n <-> 0 <= a /\ Z.land a (Z.ones n) = a.
Proof.
  intros Hn. rewrite Z.land_ones by lia. split; intros [Ha H].
  - split; [lia|]. apply Z.mod_small. lia.
  - rewrite <- H. apply Z.mod_pos_bound. lia.
Qed.

Lemma lxor_range n a b :
  0 <= n -> 0 <= a < 2 ^ n -> 0 <= b < 2 ^ n -> 0 <= Z.lxor a b < 2 ^ n.
Proof.
  intros Hn Ha Hb. apply range_land in Ha as [Ha0 Ha], Hb as [Hb0 Hb]; [|done..].
  apply range_land; [done|]. split.
  - apply Z.lxor_nonneg. lia.
  - rewrite <- Ha at 2. rewrite <- Hb at 2. apply Z.bits_inj'. intros i Hi.
    rewrite !Z.land_spec, !Z.lxor_spec, !Z.land_spec.
    by destruct (Z.testbit a i), (Z.testbit b i), (Z.testbit (Z.ones n) i).
Qed.

Lemma lor_range n a b :
  0 <= n -> 0 <= a < 2 ^ n -> 0 <= b < 2 ^ n -> 0 <= Z.lor a b < 2 ^ n.
Proof.
  intros Hn Ha Hb. apply range_land in Ha as [Ha0 Ha], Hb as [Hb0 Hb]; [|done..].
  apply range_land; [done|]. split.
  - apply Z.lor_nonneg. lia.
  - rewrite <- Ha at 2. rewrite <- Hb at 2. apply Z.bits_inj'. intros i Hi.
    rewrite !Z.land_spec, !Z.lor_spec, !Z.land_spec.
    by destruct (Z.testbit a i), (Z.testbit b i), (Z.testbit (Z.ones n) i).
Qed.

Lemma land_range n a b : 0 <= n -> 0 <= a < 2 ^ n -> 0 <= b -> 0 <= Z.land a b < 2 ^ n.
Proof.
  intros Hn Ha Hb. apply range_land in Ha as [Ha0 Ha]; [|done].
  apply range_land; [done|]. split; [apply Z.land_nonneg; lia|].
  by rewrite <- Z.land_assoc, (Z.land_comm b), Z.land_assoc, Ha.
Qed.

Lemma testbit_high n a i : 0 <= a < 2 ^ n -> n <= i -> Z.testbit a i = false.
Proof.
  intros Ha Hi. destruct (decide (a = 0)) as [->|]; [apply Z.bits_0|].
  apply Z.bits_above_log2; [lia|]. apply Z.log2_lt_pow2; [lia|].
  apply Z.lt_le_trans with (2 ^ n); [lia|]. apply Z.pow_le_mono_r; lia.
Qed.

(** Disjoint bit fields add up. *)
Lemma lor_shiftl n a b : 0 <= n -> 0 <= a < 2 ^ n -> Z.lor a (Z.shiftl b n) = a + b * 2 ^ n.
Proof.
  intros Hn Ha. rewrite <- Z.shiftl_mul_pow2 by done.
  rewrite <- Z.add_lor_land. assert (Z.land a (Z.shiftl b n) = 0) as ->; [|lia].
  apply Z.bits_inj'. intros i Hi. rewrite Z.land_spec, Z.bits_0.
  destruct (Z.ltb_spec i n).
  - by rewrite Z.shiftl_spec_low, andb_false_r.
  - by rewrite (testbit_high n a).
Qed.

Lemma lxor_byte a b : is_byte a -> is_byte b -> is_byte (Z.lxor a b).
Proof. apply (lxor_range 8). lia. Qed.
Lemma lor_byte a b : is_byte a -> is_byte b -> is_byte (Z.lor a b).
Proof. apply (lor_range 8). lia. Qed.
Lemma lxor_twice a b : Z.lxor (Z.lxor a b) b = a.
Proof. by rewrite Z.lxor_assoc, Z.lxor_nilpotent, Z.lxor_0_r. Qed.
#[export] Hint Resolve lxor_byte lor_byte : bytes.

(** Octet-wise exclusive or. *)
Definition xor_bytes (l k : bytes) : bytes := zip_with Z.lxor l k.

Lemma length_xor_bytes l k : length (xor_bytes l k) = (length l `min` length k)%nat.
Proof. apply length_zip_with. Qed.

Lemma wf_xor_bytes l k : wf_bytes l -> wf_bytes k -> wf_bytes (xor_bytes l k).
Proof.
  intros Hl. revert k. induction Hl as [|a l Ha Hl IH]; intros k Hk; [constructor|].
  destruct Hk; simpl; [constructor|]. constructor; auto with bytes. by apply IH.
Qed.
#[export] Hint Resolve wf_xor_bytes : bytes.

Lemma xor_bytes_twice l k : (length l <= length k)%nat -> xor_bytes (xor_bytes l k) k = l.
Proof.
  revert k. induction l as [|a l IH]; intros [|b k] H; simpl in *; try done; [lia|].
  f_equal; [apply lxor_twice|apply IH; lia].
Qed.

(** The lexicographic order of byte arrays ([<=] on [[u8; n]]). *)
Fixpoint lex_leb (l k : bytes) : bool :=
  match l, k with
  | [], _ => true
  | _ :: _, [] => false
  | a :: l', b :: k' => if a <? b then true else if b <? a then false else lex_leb l' k'
  end.

Lemma lex_leb_total l k : lex_leb l k = true \/ lex_leb k l = true.
Proof.
  revert k. induction l as [|a l IH]; intros [|b k]; simpl; auto.
  destruct (Z.ltb_spec a b), (Z.ltb_spec b a); auto; lia.
Qed.

Lemma lex_leb_antisym l k : lex_leb l k = true -> lex_leb k l = true -> l = k.
Proof.
  revert k. induction l as [|a l IH]; intros [|b k]; simpl; try done.
  destruct (Z.ltb_spec a b), (Z.ltb_spec b a); intros; try done; try lia.
  f_equal; [lia|]. by apply IH.
Qed.

(** Decidable equality of byte strings as a Boolean, for guards. *)
Definition beq (l k : bytes) : bool := bool_decide (l = k).

Lemma beq_true l k : beq l k = true <-> l = k.
Proof. apply bool_decide_eq_true. Qed.
Lemma beq_refl l : beq l l = true.
Proof. by apply beq_true. Qed.

(** * Tactics *)

(** Lengths of the list expressions the builders produce. *)
Create Rewrite HintDb len.
#[export] Hint Rewrite @length_app @length_cons @length_nil @length_replicate
  length_le_bytes length_be_bytes length_xor_bytes @length_take @length_drop @length_reverse : len.

Ltac len := autorewrite with len in *; simpl length in *; lia.

(** Discharge the bounds of the index or slice at the head of the goal. *)
Ltac rust_step :=
  first
    [ rewrite idx_ok by len
    | rewrite slice_ok by len
    | rewrite slice_from_ok by len
    | rewrite get_range_ok by len ];
  cbn [rbind obind rmap].
Ltac rust_steps := cbn [rbind obind rmap]; repeat rust_step.

(** Solve [sub (x1 ++ x2 ++ ...) i j = xk] by peeling the pieces off. *)
Ltac peel :=
  repeat first
    [ rewrite sub_app_r by len
    | rewrite sub_app_l by len ];
  try (apply sub_whole; len).

#[global] Arguments le_bytes : simpl never.
#[global] Arguments le_val : simpl never.
#[global] Arguments be_bytes : simpl never.
#[global] Arguments be_val : simpl never.
#[global] Arguments sub : simpl never.
#[global] Arguments Z.modulo : simpl never.
#[global] Arguments Z.div : simpl never.
#[global] Opaque le_bytes be_bytes le_val be_val.
