(* ===== verification/Primality.v ===== *)
(** The order of P-256 is prime.  The group has prime order by its definition
    (SEC 2, NIST SP 800-186), which is what makes a non-zero scalar take no point
    but the identity to the identity; the concrete group of the witnesses has the
    same order, and its law needs a proof.  Fermat's theorem, Pocklington's
    criterion with a base and some large prime divisors of [n - 1], and trial
    division for the small primes the certificates end in. *)
From Stdlib Require Import ZArith Znumtheory Lia.
From stdpp Require Import base list numbers.
From S2P Require Import Prelude.

(** [a ^ e mod n], by squaring. *)
Fixpoint pow_mod (a : Z) (e : positive) (n : Z) : Z :=
  match e with
  | xH => a mod n
  | xO e => let r := pow_mod a e n in r * r mod n
  | xI e => let r := pow_mod a e n in (r * r mod n) * a mod n
  end.

Definition trial_division (bound n : Z) : bool := forallb (fun d => negb (n mod d =? 0)) (seqZ 2 bound).

(** [q] divides [n - 1], and [a] has an order modulo every divisor of [n] that
    [q] divides. *)
Definition certifies (n a q : Z) : bool :=
  ((n - 1) mod q =? 0) && (pow_mod a (Z.to_pos (n - 1)) n =? 1)
  && (Z.gcd (pow_mod a (Z.to_pos ((n - 1) / q)) n - 1) n =? 1).

Lemma pow_mod_spec a e n : pow_mod a e n = a ^ (Zpos e) mod n.
Proof.
  induction e as [e IH|e IH|]; cbn [pow_mod]; rewrite ?IH.
  - rewrite <- Zmult_mod, Zmult_mod_idemp_l. f_equal. rewrite Pos2Z.inj_xI, Z.pow_add_r, Z.pow_mul_r by lia.
    rewrite Z.pow_1_r, <- Z.pow_mul_r by lia. rewrite <- Z.pow_add_r by lia. by replace (Zpos e + Zpos e) with (2 * Zpos e) by lia.
  - rewrite <- Zmult_mod. f_equal. rewrite <- Z.pow_add_r by lia. f_equal. lia.
  - by rewrite Z.pow_1_r.
Qed.

(** ** Fermat's theorem *)

Definition product (l : list Z) : Z := foldr Z.mul 1 l.

Lemma product_perm l k : l ≡ₚ k -> product l = product k.
Proof. induction 1; cbn [product foldr] in *; unfold product in *; nia. Qed.

Lemma product_scaled a p l : product (map (fun k => a * k mod p) l) mod p = a ^ Z.of_nat (length l) * product l mod p.
Proof.
  induction l as [|k l IH]; [done|]. cbn [map length]. unfold product in *. cbn [foldr].
  rewrite Zmult_mod_idemp_l, <- Zmult_mod_idemp_r, IH, Zmult_mod_idemp_r. f_equal.
  rewrite Nat2Z.inj_succ, Z.pow_succ_r by lia. ring.
Qed.

Lemma product_coprime p l : prime p -> Forall (fun k => ~ (p | k)) l -> ~ (p | product l).
Proof.
  intros Hp. induction 1 as [|k l Hk _ IH]; unfold product in *; cbn [foldr].
  - intros H%Z.divide_1_r_nonneg; [|destruct Hp; lia]. destruct Hp; lia.
  - intros [H|H]%(prime_mult p Hp); auto.
Qed.

Lemma residues_perm p a : prime p -> ~ (p | a) -> map (fun k => a * k mod p) (seqZ 1 (p - 1)) ≡ₚ seqZ 1 (p - 1).
Proof.
  intros Hp Ha. assert (H1 : 1 < p) by apply Hp.
  assert (Hdiv : forall k, 1 <= k < p -> ~ (p | k)) by (intros k Hk H%Z.divide_pos_le; lia).
  change (map (fun k => a * k mod p) (seqZ 1 (p - 1))) with ((fun k => a * k mod p) <$> seqZ 1 (p - 1)).
  apply submseteq_length_Permutation; [|by rewrite length_fmap].
  apply NoDup_submseteq.
  - apply NoDup_fmap_2_strong; [|apply NoDup_seqZ]. intros i j Hi%elem_of_seqZ Hj%elem_of_seqZ E.
    assert (Hd : (p | a * (i - j))).
    { apply Z.mod_divide; [lia|]. rewrite Z.mul_sub_distr_l, Zminus_mod, E, Z.sub_diag. apply Z.mod_0_l. lia. }
    apply (prime_mult p Hp) in Hd as [Hd|Hd]; [done|]. destruct (decide (i = j)) as [|Hne]; [done|exfalso].
    destruct (decide (i < j)); [apply (Hdiv (j - i)); [lia|]|apply (Hdiv (i - j)); [lia|done]].
    apply Z.divide_opp_r in Hd. by replace (- (i - j)) with (j - i) in Hd by lia.
  - intros x Hx. apply list_elem_of_fmap in Hx as (k & -> & Hk%elem_of_seqZ).
    apply elem_of_seqZ. pose proof (Z.mod_pos_bound (a * k) p ltac:(lia)).
    assert (a * k mod p <> 0); [|lia]. intros H0%Z.mod_divide; [|lia].
    apply (prime_mult p Hp) in H0 as [H0|H0]; [done|]. apply (Hdiv k); [lia|done].
Qed.

Lemma fermat p a : prime p -> ~ (p | a) -> a ^ (p - 1) mod p = 1.
Proof.
  intros Hp Ha. assert (H1 : 1 < p) by apply Hp. pose proof (product_scaled a p (seqZ 1 (p - 1))) as E.
  rewrite (product_perm _ _ (residues_perm p a Hp Ha)), length_seqZ, Z2Nat.id in E by lia.
  assert (Hd : (p | (a ^ (p - 1) - 1) * product (seqZ 1 (p - 1)))).
  { apply Z.mod_divide; [lia|]. rewrite Z.mul_sub_distr_r, Z.mul_1_l, Zminus_mod, <- E, Z.sub_diag. apply Z.mod_0_l. lia. }
  apply (prime_mult p Hp) in Hd as [Hd|Hd].
  - apply Z.mod_divide in Hd; [|lia]. replace (a ^ (p - 1)) with (a ^ (p - 1) - 1 + 1) by lia.
    rewrite Zplus_mod, Hd, Z.add_0_l, Z.mod_mod by lia. apply Z.mod_small. lia.
  - exfalso. revert Hd. apply product_coprime; [done|]. apply Forall_forall. intros k Hk%elem_of_seqZ H%Z.divide_pos_le; lia.
Qed.

(** ** Divisors *)

Lemma prime_divisor n : 1 < n -> exists p, prime p /\ (p | n).
Proof.
  intros Hn. assert (H0 : 0 <= n) by lia. revert Hn. pattern n. apply Z_lt_induction; [|done]. clear n H0. intros n IH Hn.
  destruct (prime_dec n) as [Hp|Hp]; [by exists n|].
  destruct (not_prime_divide n Hn Hp) as (d & Hd & Hdn). destruct (IH d) as (p & Hpp & Hpd); [lia..|].
  exists p. split; [done|]. by apply (Z.divide_trans _ d).
Qed.

(** A number whose prime divisors all exceed its square root is prime. *)
Lemma prime_by_divisors n : 1 < n -> (forall p, prime p -> (p | n) -> n < p * p) -> prime n.
Proof.
  intros Hn H. destruct (prime_dec n) as [|Hp]; [done|exfalso].
  destruct (not_prime_divide n Hn Hp) as (d & Hd & [e He]).
  assert (He1 : 1 < e) by nia.
  destruct (prime_divisor d) as (p & Hpp & Hpd); [lia|]. destruct (prime_divisor e) as (r & Hrp & Hre); [lia|].
  assert (p <= d) by (apply Z.divide_pos_le; [lia|done]). assert (r <= e) by (apply Z.divide_pos_le; [lia|done]).
  assert (n < p * p) by (apply H; [done|]; rewrite He; by apply Z.divide_mul_r).
  assert (n < r * r) by (apply H; [done|]; rewrite He; by apply Z.divide_mul_l).
  assert (1 < p) by apply Hpp. assert (1 < r) by apply Hrp.
  destruct (decide (e <= d)); [assert (r * r <= e * d)|assert (p * p <= e * d)]; try lia; apply Z.mul_le_mono_nonneg; lia.
Qed.

Lemma trial_prime n bound : 1 < n -> n < (bound + 2) * (bound + 2) -> 0 <= bound -> trial_division bound n = true -> prime n.
Proof.
  intros Hn Hb H0 Ht. apply prime_by_divisors; [done|]. intros p Hp Hd. assert (H1 : 1 < p) by apply Hp.
  destruct (decide (p < bound + 2)) as [Hlt|]; [exfalso|nia].
  unfold trial_division in Ht. rewrite forallb_forall in Ht. specialize (Ht p).
  rewrite <- list_elem_of_In, elem_of_seqZ in Ht. specialize (Ht ltac:(lia)).
  apply negb_true_iff, Z.eqb_neq in Ht. apply Ht. apply Z.mod_divide; [lia|done].
Qed.

(** ** Pocklington's criterion *)

Lemma power_of_one x k p : 1 < p -> 0 <= k -> x mod p = 1 -> x ^ k mod p = 1.
Proof.
  intros Hp Hk Hx. revert k Hk. apply natlike_ind; [by rewrite Z.pow_0_r, Z.mod_small by lia|].
  intros k Hk IH. by rewrite Z.pow_succ_r, Zmult_mod, Hx, IH, Z.mod_small by lia.
Qed.

(** A prime divisor of a certified number is 1 modulo [q]. *)
Lemma certified_divisor n a q p : 1 < n -> prime q -> certifies n a q = true -> prime p -> (p | n) -> (q | p - 1).
Proof.
  intros Hn Hq Hc Hp Hpn. unfold certifies in Hc. rewrite !andb_true_iff, !Z.eqb_eq in Hc. destruct Hc as [[Hqn Hone] Hgcd].
  assert (H1 : 1 < p) by apply Hp. assert (Hq1 : 1 < q) by apply Hq.
  apply Z.mod_divide in Hqn as [m Hm]; [|lia]. assert (Hm0 : 0 < m) by nia. rewrite Hm, Z.div_mul in Hgcd by lia.
  rewrite pow_mod_spec, Z2Pos.id in Hone, Hgcd by lia.
  assert (Hmod : forall x, x mod n mod p = x mod p) by (intros x; symmetry; apply Zmod_div_mod; [lia|lia|done]).
  assert (Ha1 : a ^ (n - 1) mod p = 1) by (rewrite <- Hmod, Hone; apply Z.mod_small; lia).
  assert (Hpa : ~ (p | a)).
  { intros Hd. assert (H0 : (p | a ^ (n - 1))) by (replace (n - 1) with (Z.succ (n - 2)) by lia; rewrite Z.pow_succ_r by lia; by apply Z.divide_mul_l).
    apply Z.mod_divide in H0; lia. }
  destruct (Zdivide_dec q (p - 1)) as [|Hnd]; [done|exfalso].
  assert (Hrel : rel_prime q (p - 1)) by (by apply prime_rel_prime).
  apply rel_prime_bezout in Hrel as [u v Huv].
  set (t := Z.abs u + Z.abs v). set (u1 := u + t * (p - 1)). set (v1 := t * q - v).
  assert (Ht : 0 <= t /\ - t <= u /\ v <= t) by (unfold t; lia).
  assert (Hu1 : 0 <= u1) by (pose proof (Z.mul_nonneg_nonneg t (p - 2)); unfold u1; lia).
  assert (Hv1 : 0 <= v1) by (pose proof (Z.mul_nonneg_nonneg t (q - 1)); unfold v1; lia).
  assert (Em : m * q * u1 = m + (p - 1) * (v1 * m)).
  { transitivity (m * (u * q + v * (p - 1)) + (p - 1) * (v1 * m)); [unfold u1, v1; ring|rewrite Huv; ring]. }
  assert (Ham : a ^ m mod p = 1).
  { assert (E1 : a ^ (m * q * u1) mod p = 1) by (rewrite <- Hm, Z.pow_mul_r by lia; by apply power_of_one).
    assert (Hk : 0 <= v1 * m) by (apply Z.mul_nonneg_nonneg; lia).
    rewrite Em, Z.pow_add_r, Z.pow_mul_r in E1 by (try apply Z.mul_nonneg_nonneg; lia).
    rewrite <- Zmult_mod_idemp_r, (power_of_one (a ^ (p - 1)) (v1 * m) p H1 Hk (fermat p a Hp Hpa)), Z.mul_1_r in E1. done. }
  assert (Hg : (p | Z.gcd (a ^ m mod n - 1) n)).
  { apply Z.gcd_greatest; [|done]. apply Z.mod_divide; [lia|]. rewrite Zminus_mod, Hmod, Ham, (Z.mod_small 1 p) by lia.
    apply Z.mod_0_l. lia. }
  rewrite Hgcd in Hg. apply Z.divide_pos_le in Hg; lia.
Qed.

(** A number with certified divisors [q] and [r] of [n - 1] whose product exceeds
    its square root. *)
Lemma certified_prime n a q r : 1 < n -> prime q -> prime r -> q <> r -> n < (q * r + 1) * (q * r + 1) ->
  certifies n a q = true -> certifies n a r = true -> prime n.
Proof.
  intros Hn Hq Hr Hne Hsq Cq Cr. apply prime_by_divisors; [done|]. intros p Hp Hd. assert (H1 : 1 < p) by apply Hp.
  assert (Hqr : (q * r | p - 1)).
  { pose proof (certified_divisor n a q p Hn Hq Cq Hp Hd) as [x Hx]. pose proof (certified_divisor n a r p Hn Hr Cr Hp Hd) as D.
    rewrite Hx in D |- *. apply (prime_mult r Hr) in D as [[y ->]|D]; [exists y; ring|exfalso].
    apply prime_div_prime in D; [by symmetry in D|done|done]. }
  apply Z.divide_pos_le in Hqr; [|lia]. assert (1 < q) by apply Hq. assert (1 < r) by apply Hr. nia.
Qed.

(** * The order of the group *)

Definition P256_ORDER : Z := 0xffffffff00000000ffffffffffffffffbce6faada7179e84f3b9cac2fc632551.

Lemma prime_small bound n : ((1 <? n) && (n <? (bound + 2) * (bound + 2)) && (0 <=? bound) && trial_division bound n) = true -> prime n.
Proof.
  intros H. apply andb_true_iff in H as [H Ht]. rewrite !andb_true_iff in H. destruct H as [[H1 H2] H3].
  apply (trial_prime n bound); [lia|lia|lia|done].
Qed.

Lemma prime_certified n a q r : prime q -> prime r ->
  ((1 <? n) && negb (q =? r) && (n <? (q * r + 1) * (q * r + 1)) && certifies n a q && certifies n a r) = true -> prime n.
Proof.
  intros Hq Hr H. rewrite !andb_true_iff in H. destruct H as [[[[H1 H2] H3] Cq] Cr].
  apply (certified_prime n a q r); try done; [lia|by apply negb_true_iff, Z.eqb_neq in H2|lia].
Qed.

Lemma prime_208150935158385979 : prime 208150935158385979.
Proof.
  apply (prime_certified _ 2 191039911 3023); [apply (prime_small 14000)|apply (prime_small 60)|]; vm_compute; reflexivity.
Qed.

Lemma prime_1002328039319 : prime 1002328039319.
Proof.
  apply (prime_certified _ 2 3969899 126241); [apply (prime_small 2000)|apply (prime_small 400)|]; vm_compute; reflexivity.
Qed.

Lemma prime_2624747550333869278416773953 : prime 2624747550333869278416773953.
Proof.
  apply (prime_certified _ 2 208150935158385979 16879); [apply prime_208150935158385979|apply (prime_small 200)|]; vm_compute; reflexivity.
Qed.

Theorem P256_ORDER_prime : prime P256_ORDER.
Proof.
  apply (prime_certified _ 2 2624747550333869278416773953 1002328039319);
    [apply prime_2624747550333869278416773953|apply prime_1002328039319|vm_compute; reflexivity].
Qed.

Lemma order_no_zero_divisors x y : 0 <= x < P256_ORDER -> 0 <= y < P256_ORDER -> x * y mod P256_ORDER = 0 -> x = 0 \/ y = 0.
Proof.
  intros Hx Hy E. assert (H0 : 1 < P256_ORDER) by apply P256_ORDER_prime.
  assert (Hz : forall z, 0 <= z < P256_ORDER -> (P256_ORDER | z) -> z = 0).
  { intros z Hz Hd. apply Z.mod_divide in Hd; [|lia]. by rewrite Z.mod_small in Hd. }
  apply Z.mod_divide in E; [|lia]. apply (prime_mult _ P256_ORDER_prime) in E as [E|E]; auto.
Qed.
