(* ===== verification/Elements.v ===== *)
(** Information-element streams: the walkers of
    src/frames/information_elements/common.rs (and the element constructor
    [ie]) with their functional specification.

    Every walker is a [while] loop on an index into the buffer.  The reference
    is [split_elements], the list of the complete elements of a buffer with
    the tail at which the stream stops. *)
From S2P Require Import Prelude.

(** * The loops, as the code has them *)

(** [ie(id, info)]: [info.len() as u8] truncates. *)
Definition ie (id : Z) (info : bytes) : bytes :=
  id :: u8 (Z.of_nat (length info)) :: info.

Definition find_ie_step (ies : bytes) (id : Z) (i : nat) : res (nat + option bytes) :=
  if (i + 2 <=? length ies)%nat then
    let! eid := idx ies i in
    let! l := idx ies (i + 1) in
    let len := Z.to_nat l in
    if (length ies <? i + 2 + len)%nat then Val (inr None)
    else if eid =? id then
      let! body := slice ies (i + 2) (i + 2 + len) in Val (inr (Some body))
    else Val (inl (i + 2 + len)%nat)
  else Val (inr None).

Definition find_ie (ies : bytes) (id : Z) : res (option bytes) :=
  loop (S (length ies)) (find_ie_step ies id) 0%nat.

(** [find_ssid] is [find_ie] at id 0, returning an owned copy. *)
Definition find_ssid_step (ies : bytes) (i : nat) : res (nat + option bytes) :=
  if (i + 2 <=? length ies)%nat then
    let! id := idx ies i in
    let! l := idx ies (i + 1) in
    let len := Z.to_nat l in
    if (length ies <? i + 2 + len)%nat then Val (inr None)
    else if id =? 0 then
      let! body := slice ies (i + 2) (i + 2 + len) in Val (inr (Some body))
    else Val (inl (i + 2 + len)%nat)
  else Val (inr None).

Definition find_ssid (ies : bytes) : res (option bytes) :=
  loop (S (length ies)) (find_ssid_step ies) 0%nat.

(** The unit error of the strict walkers. *)
Inductive IeParseError := IeParseError_.

Abbreviation ie_result := (result (option bytes) IeParseError).

Definition find_ie_strict_step (ies : bytes) (id : Z) (st : nat * option bytes) :
    res (nat * option bytes + ie_result) :=
  let (i, found) := st in
  if (i <? length ies)%nat then
    if (length ies <? i + 2)%nat then Val (inr (Err IeParseError_))
    else
      let! l := idx ies (i + 1) in
      let e := (i + 2 + Z.to_nat l)%nat in
      if (length ies <? e)%nat then Val (inr (Err IeParseError_))
      else
        let! eid := idx ies i in
        if eid =? id then
          match found with
          | Some _ => Val (inr (Err IeParseError_))
          | None => let! body := slice ies (i + 2) e in Val (inl (e, Some body))
          end
        else Val (inl (e, found))
  else Val (inr (Ok found)).

Definition find_ie_strict (ies : bytes) (id : Z) : res ie_result :=
  loop (S (length ies)) (find_ie_strict_step ies id) (0%nat, None).

Definition find_ie_consistent_step (ies : bytes) (id : Z) (st : nat * option bytes) :
    res (nat * option bytes + ie_result) :=
  let (i, found) := st in
  if (i <? length ies)%nat then
    if (length ies <? i + 2)%nat then Val (inr (Err IeParseError_))
    else
      let! l := idx ies (i + 1) in
      let e := (i + 2 + Z.to_nat l)%nat in
      if (length ies <? e)%nat then Val (inr (Err IeParseError_))
      else
        let! eid := idx ies i in
        if eid =? id then
          let! value := slice ies (i + 2) e in
          match found with
          | Some previous =>
              if beq previous value then Val (inl (e, Some value))
              else Val (inr (Err IeParseError_))
          | None => Val (inl (e, Some value))
          end
        else Val (inl (e, found))
  else Val (inr (Ok found)).

Definition find_ie_consistent (ies : bytes) (id : Z) : res ie_result :=
  loop (S (length ies)) (find_ie_consistent_step ies id) (0%nat, None).

Definition WMM_OUI : bytes := [0x00; 0x50; 0xf2; 0x02].

Definition has_wmm_ie_step (ies : bytes) (i : nat) : res (nat + bool) :=
  if (i + 2 <=? length ies)%nat then
    let! l := idx ies (i + 1) in
    let len := Z.to_nat l in
    if (length ies <? i + 2 + len)%nat then Val (inr false)
    else
      let! id := idx ies i in
      if (id =? 221) && (4 <=? len)%nat then
        let! oui := slice ies (i + 2) (i + 6) in
        if beq oui WMM_OUI then Val (inr true) else Val (inl (i + 2 + len)%nat)
      else Val (inl (i + 2 + len)%nat)
  else Val (inr false).

Definition has_wmm_ie (ies : bytes) : res bool :=
  loop (S (length ies)) (has_wmm_ie_step ies) 0%nat.

(** [trim_key_data_padding]: cut the stream at a zero-length 0xdd element
    that is followed only by zero octets. *)
Definition trim_key_data_padding_step (data : bytes) (i : nat) : res (nat + bytes) :=
  if (i + 2 <=? length data)%nat then
    let! l := idx data (i + 1) in
    let len := Z.to_nat l in
    let e := (i + 2 + len)%nat in
    if (length data <? e)%nat then Val (inr data)
    else
      let! id := idx data i in
      if (id =? 0xdd) && (l =? 0) && forallb (fun b => b =? 0) (drop (i + 2) data)
      then Val (inr (take i data))
      else Val (inl e)
  else Val (inr data).

Definition trim_key_data_padding (data : bytes) : res bytes :=
  loop (S (length data)) (trim_key_data_padding_step data) 0%nat.

(** [enable_beacon_protection_capability]: set Extended Capability bit 84 of
    the first element 127 that is long enough. *)
Definition enable_beacon_protection_step (ies : bytes) (pos : nat) :
    res (nat + (bool * bytes)) :=
  if (pos + 2 <=? length ies)%nat then
    let! l := idx ies (pos + 1) in
    let len := Z.to_nat l in
    let e := (pos + 2 + len)%nat in
    if (length ies <? e)%nat then Val (inr (false, ies))
    else
      let! id := idx ies pos in
      if (id =? 127) && (11 <=? len)%nat then
        let! b := idx ies (pos + 2 + 10) in
        Val (inr (true, <[(pos + 2 + 10)%nat := Z.lor b 0x10]> ies))
      else Val (inl e)
  else Val (inr (false, ies)).

Definition enable_beacon_protection_capability (ies : bytes) : res (bool * bytes) :=
  loop (S (length ies)) (enable_beacon_protection_step ies) 0%nat.

(** [replace_ie_payload]: splice a new payload over the first matching
    element from [start]. *)
Definition replace_ie_payload_step (data : bytes) (id : Z) (ext_id : option Z)
    (body : bytes) (start : nat) : res (nat + (bool * bytes)) :=
  if (start + 2 <=? length data)%nat then
    let! l := idx data (start + 1) in
    let len := Z.to_nat l in
    let e := (start + 2 + len)%nat in
    if (length data <? e)%nat then Val (inr (false, data))
    else
      let! eid := idx data start in
      let! matches :=
        match ext_id with
        | Some ext =>
            if (eid =? id) && (1 <=? len)%nat then
              let! b := idx data (start + 2) in Val (b =? ext)
            else Val false
        | None => Val (eid =? id)
        end in
      if (matches : bool) then
        let extra := match ext_id with Some _ => 1%nat | None => 0%nat end in
        if (255 <? length body + extra)%nat then Val (inr (false, data))
        else
          let replacement :=
            id :: u8 (Z.of_nat (extra + length body))
               :: (match ext_id with Some ext => [ext] | None => [] end) ++ body in
          Val (inr (true, take start data ++ replacement ++ drop e data))
      else Val (inl e)
  else Val (inr (false, data)).

Definition replace_ie_payload (data : bytes) (start : nat) (id : Z)
    (ext_id : option Z) (body : bytes) : res (bool * bytes) :=
  loop (S (length data)) (replace_ie_payload_step data id ext_id body) start.

(** * The reference: a buffer as a list of elements *)

Fixpoint split_fuel (n : nat) (l : bytes) : list (Z * bytes) * bytes :=
  match n, l with
  | S n', id :: len :: rest =>
      if (length rest <? Z.to_nat len)%nat then ([], l)
      else
        let (ts, tail) := split_fuel n' (drop (Z.to_nat len) rest) in
        ((id, take (Z.to_nat len) rest) :: ts, tail)
  | _, _ => ([], l)
  end.

Definition split_elements (l : bytes) : list (Z * bytes) * bytes :=
  split_fuel (length l) l.

Definition elements (l : bytes) : list (Z * bytes) := fst (split_elements l).
Definition stream_tail (l : bytes) : bytes := snd (split_elements l).

Definition encode_elements (ts : list (Z * bytes)) : bytes :=
  concat (map (fun t => ie (fst t) (snd t)) ts).

Arguments encode_elements : simpl never.

Definition short_element (t : Z * bytes) : Prop := (length (snd t) <= 255)%nat.

Definition bodies (id : Z) (ts : list (Z * bytes)) : list bytes :=
  map snd (filter (fun t => fst t = id) ts).

Lemma split_fuel_enough n m l :
  (length l <= n)%nat -> (length l <= m)%nat -> split_fuel n l = split_fuel m l.
Proof.
  revert m l. induction n as [|n IH]; intros m l Hn Hm.
  - destruct l; [|simpl in Hn; lia]. by destruct m.
  - destruct m as [|m]; [destruct l; [done|simpl in Hm; lia]|].
    destruct l as [|id [|len rest]]; simpl; try done.
    destruct (length rest <? Z.to_nat len)%nat; [done|].
    rewrite (IH m); [done| |]; rewrite length_drop; simpl in Hn, Hm; lia.
Qed.

Lemma split_elements_nil : split_elements [] = ([], []).
Proof. done. Qed.

Lemma split_elements_cons id len rest :
  split_elements (id :: len :: rest) =
    if (length rest <? Z.to_nat len)%nat then ([], id :: len :: rest)
    else
      let (ts, tail) := split_elements (drop (Z.to_nat len) rest) in
      ((id, take (Z.to_nat len) rest) :: ts, tail).
Proof.
  unfold split_elements. change (length (id :: len :: rest)) with (S (S (length rest))).
  remember (S (length rest)) as n eqn:Hn. simpl.
  destruct (length rest <? Z.to_nat len)%nat; [done|].
  rewrite (split_fuel_enough n (length (drop (Z.to_nat len) rest))); [done| |];
    rewrite ?length_drop; lia.
Qed.

Lemma split_elements_short l : (length l < 2)%nat -> split_elements l = ([], l).
Proof. destruct l as [|a [|b l]]; simpl; try done; lia. Qed.

(** The stream at an offset: what a walker sees there. *)
Lemma split_elements_at l i :
  (i + 2 <= length l)%nat ->
  split_elements (drop i l) =
    let e := (i + 2 + Z.to_nat (nth (i + 1) l 0%Z))%nat in
    if (length l <? e)%nat then ([], drop i l)
    else
      let (ts, tail) := split_elements (drop e l) in
      ((nth i l 0, sub l (i + 2) e) :: ts, tail).
Proof.
  intros Hi.
  assert (Hd : drop i l = nth i l 0 :: nth (i + 1) l 0 :: drop (i + 2) l).
  { rewrite (drop_nth l i), (drop_nth l (S i)) by lia.
    by rewrite !Nat.add_1_r, !Nat.add_succ_r, Nat.add_0_r. }
  rewrite Hd, split_elements_cons, length_drop. simpl.
  set (n := Z.to_nat (nth (i + 1) l 0)).
  destruct (Nat.ltb_spec (length l - (i + 2)) n), (Nat.ltb_spec (length l) (i + 2 + n));
    try lia; [by rewrite <- Hd|].
  rewrite drop_drop. unfold sub. by replace (i + 2 + n - (i + 2))%nat with n by lia.
Qed.

Lemma split_elements_at_short l i :
  (length l < i + 2)%nat -> split_elements (drop i l) = ([], drop i l).
Proof. intros. apply split_elements_short. rewrite length_drop. lia. Qed.

(** Encoding and splitting are inverse. *)
Lemma split_encode ts tail :
  Forall short_element ts -> split_elements tail = ([], tail) ->
  split_elements (encode_elements ts ++ tail) = (ts, tail).
Proof.
  intros Hts Htail. induction Hts as [|[id body] ts Hb Hts IH]; [done|].
  unfold short_element in Hb. unfold encode_elements. simpl in Hb |- *.
  rewrite <- app_assoc, split_elements_cons, length_app. unfold u8.
  rewrite Z.mod_small, Nat2Z.id by lia.
  rewrite (proj2 (Nat.ltb_ge _ _)) by lia.
  rewrite drop_app_length. fold (encode_elements ts). rewrite IH.
  by rewrite take_app_length.
Qed.

Lemma encode_split l :
  wf_bytes l -> encode_elements (elements l) ++ stream_tail l = l.
Proof.
  unfold elements, stream_tail.
  remember (length l) as n eqn:Hn. revert l Hn.
  induction n as [n IH] using lt_wf_ind. intros l -> Hl.
  destruct l as [|id [|len rest]]; try done.
  rewrite split_elements_cons.
  destruct (Nat.ltb_spec (length rest) (Z.to_nat len)) as [|Hlen]; [done|].
  apply Forall_cons_1 in Hl as [_ Hl]. apply Forall_cons_1 in Hl as [Hlen' Hrest].
  unfold is_byte in Hlen'.
  unfold encode_elements in *.
  specialize (IH (length (drop (Z.to_nat len) rest)) ltac:(rewrite length_drop; simpl; lia)
    _ eq_refl ltac:(auto with bytes)).
  destruct (split_elements (drop (Z.to_nat len) rest)) as [ts tail]. simpl in *.
  rewrite <- app_assoc. rewrite IH, take_drop.
  repeat f_equal. unfold u8. rewrite length_take, Nat.min_l, Z2Nat.id, Z.mod_small; lia.
Qed.

(** What a walker that stands at offset [i] still has in front of it. *)
Definition next_end (l : bytes) (i : nat) : nat :=
  (i + 2 + Z.to_nat (nth (i + 1) l 0%Z))%nat.

Lemma elements_at l i :
  elements (drop i l) =
    if ((i + 2 <=? length l) && (next_end l i <=? length l))%nat
    then (nth i l 0, sub l (i + 2) (next_end l i)) :: elements (drop (next_end l i) l)
    else [].
Proof.
  unfold elements, next_end. destruct (Nat.leb_spec (i + 2) (length l)); simpl.
  - rewrite split_elements_at by lia. simpl.
    destruct (Nat.ltb_spec (length l) (i + 2 + Z.to_nat (nth (i + 1) l 0))),
      (Nat.leb_spec (i + 2 + Z.to_nat (nth (i + 1) l 0)) (length l)); try lia; [done|].
    by destruct (split_elements (drop _ l)).
  - by rewrite split_elements_at_short by lia.
Qed.

Lemma stream_tail_at l i :
  stream_tail (drop i l) =
    if ((i + 2 <=? length l) && (next_end l i <=? length l))%nat
    then stream_tail (drop (next_end l i) l)
    else drop i l.
Proof.
  unfold stream_tail, next_end. destruct (Nat.leb_spec (i + 2) (length l)); simpl.
  - rewrite split_elements_at by lia. simpl.
    destruct (Nat.ltb_spec (length l) (i + 2 + Z.to_nat (nth (i + 1) l 0))),
      (Nat.leb_spec (i + 2 + Z.to_nat (nth (i + 1) l 0)) (length l)); try lia; [done|].
    by destruct (split_elements (drop _ l)).
  - by rewrite split_elements_at_short by lia.
Qed.

Lemma bodies_cons id t ts :
  bodies id (t :: ts) = if t.1 =? id then t.2 :: bodies id ts else bodies id ts.
Proof.
  unfold bodies. rewrite filter_cons. case_decide as H; destruct (Z.eqb_spec t.1 id);
    simpl; done.
Qed.

(** Every walker is one use of [loop_spec]: the answer is a function of the
    loop state that an iteration leaves unchanged. *)
Lemma walker_spec {S R : Type} (l : bytes) (pos : S -> nat) (step : S -> res (S + R))
    (answer : S -> R) (s0 : S) :
  (forall s, (pos s <= length l)%nat ->
     exists r, step s = Val r /\
       match r with
       | inl s' => (pos s < pos s' <= length l)%nat /\ answer s' = answer s
       | inr v => v = answer s
       end) ->
  (pos s0 <= length l)%nat ->
  loop (Datatypes.S (length l)) step s0 = Val (answer s0).
Proof.
  intros Hstep H0.
  destruct (loop_spec
    (fun s => (pos s <= length l)%nat /\ answer s = answer s0)
    (fun v => v = answer s0)
    (fun s => length l - pos s)%nat step) with (fuel := Datatypes.S (length l)) (s := s0)
    as [v [Hv ->]]; [| auto | lia | done].
  intros s [Hs Ha]. destruct (Hstep s Hs) as [r [Hr Hpost]]. exists r. split; [done|].
  destruct r as [s'|v]; [|congruence].
  destruct Hpost as [Hj Hans]. split; [split; [lia|congruence]|lia].
Qed.

(** Unfold what lies ahead of the index [i] and follow the loop's guards. *)
Ltac walk i :=
  rewrite ?(elements_at _ i), ?(stream_tail_at _ i); unfold next_end;
  match goal with
  | |- context [ (i + 2 <=? length ?l)%nat ] =>
      destruct (Nat.leb_spec (i + 2) (length l));
      [ rust_steps;
        let e := fresh "e" in
        set (e := (i + 2 + Z.to_nat (nth (i + 1) l 0%Z))%nat) in *;
        destruct (Nat.ltb_spec (length l) e);
        [ rewrite (proj2 (Nat.leb_gt e (length l))) by lia
        | rewrite (proj2 (Nat.leb_le e (length l))) by lia ]
      | ]
  end; cbn [andb].
Ltac leave := eexists; split; [reflexivity|try reflexivity].
Ltac next := eexists; split; [reflexivity|split; [simpl; lia|try reflexivity]].

Theorem find_ie_spec ies id :
  find_ie ies id = Val (head (bodies id (elements ies))).
Proof.
  apply (walker_spec ies (fun i => i) _ (fun i => head (bodies id (elements (drop i ies)))));
    [|lia]. intros i Hi. unfold find_ie_step. walk i.
  - leave.
  - rewrite bodies_cons. simpl. destruct (nth i ies 0 =? id); [rust_steps; leave|next].
  - leave.
Qed.

Theorem find_ssid_spec ies : find_ssid ies = find_ie ies 0.
Proof.
  rewrite find_ie_spec.
  apply (walker_spec ies (fun i => i) _ (fun i => head (bodies 0 (elements (drop i ies)))));
    [|lia]. intros i Hi. unfold find_ssid_step. walk i.
  - leave.
  - rewrite bodies_cons. simpl. destruct (nth i ies 0 =? 0); [rust_steps; leave|next].
  - leave.
Qed.

(** ** The strict walkers *)

(** The references: an error on a truncated stream, then on the multiplicity
    of the requested element ([found] is what the walker already holds). *)
Definition strict_answer (found : option bytes) (bs : list bytes) (tail : bytes) : ie_result :=
  match tail, option_list found ++ bs with
  | [], [] => Ok None
  | [], [b] => Ok (Some b)
  | _, _ => Err IeParseError_
  end.

Definition consistent_answer (found : option bytes) (bs : list bytes) (tail : bytes) : ie_result :=
  match tail, option_list found ++ bs with
  | [], [] => Ok None
  | [], b :: bs' => if forallb (beq b) bs' then Ok (Some b) else Err IeParseError_
  | _, _ => Err IeParseError_
  end.

Lemma drop_not_nil (l : bytes) i : (i < length l)%nat -> exists b k, drop i l = b :: k.
Proof. intros. rewrite drop_nth by lia. eauto. Qed.

Lemma elements_end l : elements (drop (length l) l) = [] /\ stream_tail (drop (length l) l) = [].
Proof. by rewrite drop_all. Qed.

(** The guard structure the two strict walkers share. *)
Ltac walk_strict i ies :=
  destruct (Nat.ltb_spec i (length ies));
  [ destruct (Nat.ltb_spec (length ies) (i + 2));
    [ rewrite (elements_at _ i), (stream_tail_at _ i),
        (proj2 (Nat.leb_gt (i + 2) (length ies))) by lia; cbn [andb]
    | walk i; try lia ]
  | replace i with (length ies) by lia;
    destruct (elements_end ies) as [-> ->] ].

Theorem find_ie_strict_spec ies id :
  find_ie_strict ies id =
    Val (strict_answer None (bodies id (elements ies)) (stream_tail ies)).
Proof.
  apply (walker_spec ies fst _ (fun '(i, found) =>
    strict_answer found (bodies id (elements (drop i ies))) (stream_tail (drop i ies))));
    [|simpl; lia]. intros [i found] Hi. simpl in Hi. unfold find_ie_strict_step.
  walk_strict i ies.
  - destruct (drop_not_nil ies i) as [b [k ->]]; [done|]. leave.
  - destruct (drop_not_nil ies i) as [b [k ->]]; [done|]. leave.
  - rust_steps. rewrite bodies_cons. simpl.
    destruct (nth i ies 0 =? id); [|next].
    destruct found as [b|]; [leave|]; [|rust_steps; next].
    unfold strict_answer. simpl. by destruct (stream_tail _).
  - leave. by destruct found.
Qed.

Theorem find_ie_consistent_spec ies id :
  find_ie_consistent ies id =
    Val (consistent_answer None (bodies id (elements ies)) (stream_tail ies)).
Proof.
  apply (walker_spec ies fst _ (fun '(i, found) =>
    consistent_answer found (bodies id (elements (drop i ies))) (stream_tail (drop i ies))));
    [|simpl; lia]. intros [i found] Hi. simpl in Hi. unfold find_ie_consistent_step.
  walk_strict i ies.
  - destruct (drop_not_nil ies i) as [b [k ->]]; [done|]. leave.
  - destruct (drop_not_nil ies i) as [b [k ->]]; [done|]. leave.
  - rust_steps. rewrite bodies_cons. simpl.
    destruct (nth i ies 0 =? id); [|next]. rust_steps.
    destruct found as [b|]; [|next].
    destruct (beq b (sub ies (i + 2) e)) eqn:Hb.
    + apply beq_true in Hb. subst b. next.
      unfold consistent_answer. simpl. by rewrite beq_refl.
    + leave. unfold consistent_answer. simpl. rewrite Hb. by destruct (stream_tail _).
  - leave. by destruct found.
Qed.

(** ** The walkers that act on the first matching element *)

Definition is_wmm (t : Z * bytes) : bool :=
  (t.1 =? 221) && (4 <=? length t.2)%nat && beq (take 4 t.2) WMM_OUI.

Theorem has_wmm_ie_spec ies : has_wmm_ie ies = Val (existsb is_wmm (elements ies)).
Proof.
  apply (walker_spec ies (fun i => i) _ (fun i => existsb is_wmm (elements (drop i ies))));
    [|lia]. intros i Hi. unfold has_wmm_ie_step. walk i.
  - leave.
  - set (n := Z.to_nat (nth (i + 1) ies 0)) in *. cbn [existsb].
    replace (is_wmm (nth i ies 0, sub ies (i + 2) e))
      with ((nth i ies 0 =? 221) && (4 <=? n)%nat && beq (sub ies (i + 2) (i + 6)) WMM_OUI).
    2: { unfold is_wmm. cbn [fst snd]. rewrite length_sub by lia.
         replace (e - (i + 2))%nat with n by lia.
         destruct (Nat.leb_spec 4 n); [|by rewrite !andb_false_r].
         rewrite take_sub by lia. by rewrite <- Nat.add_assoc. }
    destruct ((nth i ies 0 =? 221) && (4 <=? n)%nat) eqn:Hc; cbn [andb]; [|next].
    apply andb_true_iff in Hc as [_ Hc%Nat.leb_le]. rust_steps.
    destruct (beq _ WMM_OUI); [leave|next].
  - leave.
Qed.

(** Byte offsets of the first element that satisfies [p]: its start and end. *)
Fixpoint element_offset (p : Z * bytes -> bool) (ts : list (Z * bytes)) : option (nat * nat) :=
  match ts with
  | [] => None
  | t :: ts' =>
      let n := (2 + length t.2)%nat in
      if p t then Some (0%nat, n)
      else
        match element_offset p ts' with
        | Some (a, b) => Some (n + a, n + b)%nat
        | None => None
        end
  end.

Lemma encode_elements_cons t ts :
  encode_elements (t :: ts) = ie t.1 t.2 ++ encode_elements ts.
Proof. done. Qed.

Lemma encode_elements_app ts us :
  encode_elements (ts ++ us) = encode_elements ts ++ encode_elements us.
Proof. unfold encode_elements. by rewrite map_app, concat_app. Qed.

Lemma wf_encode ts :
  Forall (fun t => is_byte t.1 /\ wf_bytes t.2) ts -> wf_bytes (encode_elements ts).
Proof.
  induction 1 as [|[id b] ts [Hi Hb] Hts IH]; [constructor|].
  rewrite encode_elements_cons. unfold ie. repeat apply wf_bytes_cons; auto using u8_byte, wf_bytes_app.
Qed.

Lemma element_offset_split p ts t us :
  Forall (fun t => p t = false) ts -> p t = true ->
  element_offset p (ts ++ t :: us) =
    Some (length (encode_elements ts), length (encode_elements ts) + (2 + length t.2))%nat.
Proof.
  intros Hts Ht. induction Hts as [|x ts Hx Hts IH]; cbn [app element_offset].
  - by rewrite Ht.
  - rewrite Hx, IH, encode_elements_cons, length_app. simpl (length (ie _ _)).
    do 2 f_equal; lia.
Qed.

Definition ie_matches (id : Z) (ext_id : option Z) (t : Z * bytes) : bool :=
  (t.1 =? id) &&
  match ext_id with Some ext => (1 <=? length t.2)%nat && (nth 0 t.2 0 =? ext) | None => true end.

Definition ie_replacement (id : Z) (ext_id : option Z) (body : bytes) : bytes :=
  ie id ((match ext_id with Some ext => [ext] | None => [] end) ++ body).

Lemma replacement_eq id ext_id body :
  id :: u8 (Z.of_nat ((match ext_id with Some _ => 1 | None => 0 end) + length body)%nat)
     :: (match ext_id with Some ext => [ext] | None => [] end) ++ body
  = ie_replacement id ext_id body.
Proof. unfold ie_replacement, ie. rewrite length_app. by destruct ext_id. Qed.

Theorem replace_ie_payload_spec data start id ext_id body :
  (start <= length data)%nat ->
  replace_ie_payload data start id ext_id body =
    Val (match element_offset (ie_matches id ext_id) (elements (drop start data)) with
         | Some (a, b) =>
             if (255 <? length body + match ext_id with Some _ => 1 | None => 0 end)%nat
             then (false, data)
             else (true, take (start + a) data ++ ie_replacement id ext_id body
                           ++ drop (start + b) data)
         | None => (false, data)
         end).
Proof.
  apply (walker_spec data (fun i => i) _ (fun i =>
    match element_offset (ie_matches id ext_id) (elements (drop i data)) with
    | Some (a, b) =>
        if (255 <? length body + match ext_id with Some _ => 1 | None => 0 end)%nat
        then (false, data)
        else (true, take (i + a) data ++ ie_replacement id ext_id body ++ drop (i + b) data)
    | None => (false, data)
    end)).
  intros i Hi. unfold replace_ie_payload_step. walk i; [leave| |leave].
  set (n := Z.to_nat (nth (i + 1) data 0)) in *.
  assert (Hm : (match ext_id with
                | Some ext => if (nth i data 0 =? id) && (1 <=? n)%nat
                    then let! b := idx data (i + 2) in Val (b =? ext) else Val false
                | None => Val (nth i data 0 =? id)
                end) = Val (ie_matches id ext_id (nth i data 0, sub data (i + 2) e))).
  { unfold ie_matches. simpl. rewrite length_sub by lia.
    replace (e - (i + 2))%nat with n by lia.
    destruct (nth i data 0 =? id); simpl; [|by destruct ext_id].
    destruct ext_id; simpl; [|done].
    destruct (Nat.leb_spec 1 n); simpl; [|done]. rust_steps.
    rewrite nth_sub by lia. by rewrite Nat.add_0_r. }
  rewrite Hm. cbn [rbind element_offset snd]. rewrite length_sub by lia.
  destruct (ie_matches id ext_id _).
  - destruct (Nat.ltb_spec 255 (length body + match ext_id with Some _ => 1 | None => 0 end));
      leave. rewrite replacement_eq, Nat.add_0_r.
    by replace (i + (2 + (e - (i + 2))))%nat with e by lia.
  - next. destruct (element_offset _ _) as [[a b]|]; [|done].
    replace (i + (2 + (e - (i + 2)) + a))%nat with (e + a)%nat by lia.
    by replace (i + (2 + (e - (i + 2)) + b))%nat with (e + b)%nat by lia.
Qed.

(** Replacing the payload of an element in a well-formed stream, at whatever
    offset the stream starts and whatever truncated tail follows it: exactly the
    first matching element (by id, or by id and extension) gets the new body and a
    length octet that fits it; every other octet is preserved. *)
Lemma replace_ie_payload_encoded pre ts id0 body0 us tail id ext_id body :
  Forall short_element (ts ++ (id0, body0) :: us) -> split_elements tail = ([], tail) ->
  Forall (fun t => ie_matches id ext_id t = false) ts ->
  ie_matches id ext_id (id0, body0) = true ->
  (length body + match ext_id with Some _ => 1 | None => 0 end <= 255)%nat ->
  replace_ie_payload (pre ++ encode_elements (ts ++ (id0, body0) :: us) ++ tail)
      (length pre) id ext_id body =
    Val (true, pre ++ encode_elements
           (ts ++ (id, (match ext_id with Some ext => [ext] | None => [] end) ++ body) :: us)
         ++ tail).
Proof.
  intros Hs Htail Hts Ht Hlen.
  rewrite replace_ie_payload_spec by len.
  rewrite drop_app_length. unfold elements. rewrite split_encode by done. simpl.
  rewrite element_offset_split by done.
  rewrite (proj2 (Nat.ltb_ge 255 _)) by done.
  rewrite !encode_elements_app, !encode_elements_cons. unfold ie_replacement. cbn [fst snd].
  rewrite <- !app_assoc. rewrite take_app_add', take_app_length by done.
  rewrite drop_app_add', drop_app_add' by done.
  change (2 + length body0)%nat with (length (ie id0 body0)).
  rewrite drop_app_length.
  unfold ie. cbn [app]. by rewrite <- !app_assoc.
Qed.

(** ** Key-data padding *)

(** A KDE stream has no empty 0xdd element: that is the padding mark. *)
Definition not_padding (t : Z * bytes) : Prop := ~ (t.1 = 0xdd /\ t.2 = []).

Lemma read_element (pre : bytes) id body rest :
  (length body <= 255)%nat ->
  let l := pre ++ ie id body ++ rest in
  idx l (length pre) = Val id /\
  idx l (length pre + 1) = Val (Z.of_nat (length body)) /\
  (length pre + 2 + length body <= length l)%nat.
Proof.
  intros Hb l. unfold l, ie, u8. rewrite Z.mod_small by lia.
  split; [|split].
  - unfold idx. rewrite lookup_app_r, Nat.sub_diag by lia. done.
  - unfold idx. rewrite lookup_app_r by lia.
    by replace (length pre + 1 - length pre)%nat with 1%nat by lia.
  - len.
Qed.

(** The walk reaches the end of the elements. *)
Lemma trim_reaches ts pad v :
  Forall short_element ts -> Forall not_padding ts ->
  let data := encode_elements ts ++ pad in
  trim_key_data_padding_step data (length (encode_elements ts)) = Val (inr v) ->
  trim_key_data_padding data = Val v.
Proof.
  intros Hs Hp data Hend. unfold trim_key_data_padding.
  destruct (loop_spec
    (fun i => exists us ws, ts = us ++ ws /\ i = length (encode_elements us))
    (fun w => w = v) (fun i => length data - i)%nat
    (trim_key_data_padding_step data)) with (fuel := S (length data)) (s := 0%nat)
    as [w [Hw ->]]; [ | by exists [], ts | lia | done].
  intros i (us & ws & -> & ->).
  destruct ws as [|[id body] ws].
  { rewrite app_nil_r in Hend. by exists (inr v). }
  apply Forall_app in Hs as [_ Hs%Forall_inv]. apply Forall_app in Hp as [_ Hp%Forall_inv].
  assert (Hdata : data = encode_elements us ++ ie id body ++ (encode_elements ws ++ pad)).
  { unfold data. by rewrite encode_elements_app, encode_elements_cons, <- !app_assoc. }
  destruct (read_element (encode_elements us) id body (encode_elements ws ++ pad) Hs)
    as (Hi & Hl & He). rewrite <- Hdata in Hi, Hl, He.
  unfold trim_key_data_padding_step.
  rewrite (proj2 (Nat.leb_le _ _)) by lia. rewrite Hl. cbn [rbind]. rewrite Nat2Z.id.
  rewrite (proj2 (Nat.ltb_ge _ _)) by lia. rewrite Hi. cbn [rbind].
  replace ((id =? 221) && (Z.of_nat (length body) =? 0)) with false; cbn [andb].
  - eexists. split; [done|]. split; [|lia].
    exists (us ++ [(id, body)]), ws. rewrite <- app_assoc. split; [done|].
    rewrite encode_elements_app, length_app. unfold encode_elements at 3.
    simpl. rewrite app_nil_r. lia.
  - unfold not_padding in Hp. simpl in Hp.
    destruct (Z.eqb_spec id 221), (Z.eqb_spec (Z.of_nat (length body)) 0); try done.
    destruct Hp. split; [done|]. apply nil_length_inv. lia.
Qed.

Lemma forallb_zeros k : forallb (fun b => b =? 0) (replicate k 0) = true.
Proof. by induction k. Qed.

Theorem trim_padded ts k :
  Forall short_element ts -> Forall not_padding ts ->
  trim_key_data_padding (encode_elements ts ++ 0xdd :: replicate (S k) 0) =
    Val (encode_elements ts).
Proof.
  intros Hs Hp. apply trim_reaches; [done|done|].
  destruct (read_element (encode_elements ts) 0xdd [] (replicate k 0)) as (Hi & Hl & He);
    [simpl; lia|]. change (ie 221 [] ++ replicate k 0) with (0xdd :: replicate (S k) 0) in *.
  unfold trim_key_data_padding_step.
  rewrite (proj2 (Nat.leb_le _ _)) by len. rewrite Hl. cbn [rbind].
  rewrite (proj2 (Nat.ltb_ge _ _)) by len. rewrite Hi. cbn [rbind].
  rewrite drop_app_add' by done. simpl.
  by rewrite drop_0, forallb_zeros, take_app_length.
Qed.

Lemma trim_unchanged ts pad :
  Forall short_element ts -> Forall not_padding ts -> (length pad < 2)%nat ->
  trim_key_data_padding (encode_elements ts ++ pad) = Val (encode_elements ts ++ pad).
Proof.
  intros Hs Hp Hpad. apply trim_reaches; [done|done|].
  unfold trim_key_data_padding_step.
  by rewrite (proj2 (Nat.leb_gt _ _)) by len.
Qed.

(** ** Beacon protection *)

Definition is_extended_caps (t : Z * bytes) : bool := (t.1 =? 127) && (11 <=? length t.2)%nat.

Theorem enable_beacon_protection_spec ies :
  enable_beacon_protection_capability ies =
    Val (match element_offset is_extended_caps (elements ies) with
         | Some (a, _) => (true, <[(a + 12)%nat := Z.lor (nth (a + 12) ies 0) 0x10]> ies)
         | None => (false, ies)
         end).
Proof.
  apply (walker_spec ies (fun i => i) _ (fun i =>
    match element_offset is_extended_caps (elements (drop i ies)) with
    | Some (a, _) =>
        (true, <[(i + a + 12)%nat := Z.lor (nth (i + a + 12) ies 0) 0x10]> ies)
    | None => (false, ies)
    end)); [|lia].
  intros i Hi. unfold enable_beacon_protection_step. walk i; [leave| |leave].
  cbn [element_offset]. unfold is_extended_caps at 2 4. cbn [fst snd].
  rewrite length_sub by lia.
  replace (e - (i + 2))%nat with (Z.to_nat (nth (i + 1) ies 0%Z)) by lia.
  destruct ((nth i ies 0 =? 127) && (11 <=? Z.to_nat (nth (i + 1) ies 0%Z))%nat) eqn:Hc.
  - apply andb_true_iff in Hc as [_ Hc%Nat.leb_le]. rust_steps. leave.
    by replace (i + 0 + 12)%nat with (i + 2 + 10)%nat by lia.
  - next. destruct (element_offset _ _) as [[a b]|]; [|done].
    by replace (i + (2 + Z.to_nat (nth (i + 1) ies 0%Z) + a) + 12)%nat with (e + a + 12)%nat
      by lia.
Qed.

(** Trimming always answers with a prefix. *)
Lemma trim_total data : exists n, trim_key_data_padding data = Val (take n data).
Proof.
  unfold trim_key_data_padding.
  destruct (loop_spec (fun i => True) (fun v => exists n, v = take n data)
              (fun i => length data - i)%nat (trim_key_data_padding_step data))
    with (fuel := S (length data)) (s := 0%nat) as (v & -> & n & ->); [|done|lia|by exists n].
  intros i _. unfold trim_key_data_padding_step.
  assert (Hall : exists n, data = take n data) by (exists (length data); by rewrite take_ge).
  destruct (Nat.leb_spec (i + 2) (length data)); [|eexists; split; [done|exact Hall]].
  rust_steps. set (len := Z.to_nat _). clearbody len.
  destruct (Nat.ltb_spec (length data) (i + 2 + len)); [eexists; split; [done|exact Hall]|].
  rust_steps. destruct (_ && _); eexists; (split; [done|]); [by exists i|].
  split; [done|lia].
Qed.

(** Element lookup.  On every octet string, well-formed or not, the lenient
    lookup returns the body of the first element with the id; the strict one
    returns it only when the stream is complete and the element unique; the
    consistent one accepts repetitions when all bodies agree; and the WMM test is
    the existence of a WMM element.  None of them reads out of range or loops. *)
Lemma element_lookups ies id :
  find_ie ies id = Val (head (bodies id (elements ies))) /\
  find_ssid ies = Val (head (bodies 0 (elements ies))) /\
  find_ie_strict ies id = Val (strict_answer None (bodies id (elements ies)) (stream_tail ies)) /\
  find_ie_consistent ies id =
    Val (consistent_answer None (bodies id (elements ies)) (stream_tail ies)) /\
  has_wmm_ie ies = Val (existsb is_wmm (elements ies)).
Proof.
  rewrite find_ssid_spec, !find_ie_spec, find_ie_strict_spec, find_ie_consistent_spec, has_wmm_ie_spec.
  done.
Qed.

(** Trimming key data: the padding of two or more octets (0xdd and zeros) is
    removed and the elements are returned as they were; with less than two
    octets behind the elements nothing is removed, so a padding of the single
    octet 0xdd stays in the result. *)
Lemma key_data_trimmed ts :
  Forall short_element ts -> Forall not_padding ts ->
  (forall k, trim_key_data_padding (encode_elements ts ++ 0xdd :: replicate (S k) 0) =
     Val (encode_elements ts)) /\
  trim_key_data_padding (encode_elements ts) = Val (encode_elements ts) /\
  trim_key_data_padding (encode_elements ts ++ [0xdd]) = Val (encode_elements ts ++ [0xdd]).
Proof.
  intros Hs Hp. split; [intros k; by apply trim_padded|]. split.
  - pose proof (trim_unchanged ts [] Hs Hp ltac:(cbn; lia)) as H. by rewrite app_nil_r in H.
  - by apply trim_unchanged; [| |cbn; lia].
Qed.
