(* ===== verification/Crypto.v ===== *)
(** The constructions of src/auth/crypto.rs over the block cipher and hash
    primitives of the crates it uses.

    AES, HMAC, SHA-256, PBKDF2 and AES-GCM are code of external crates: they
    are the operations of [Primitives], with the documented behaviour the code
    relies on in [PrimitivesOk].  CCM, CMAC, key wrap, the two PRFs and the
    padding are written in the repository and are defined here. *)
From S2P Require Import Prelude.

(** * External primitives *)

(** Keys and blocks as byte strings; a key of the wrong size never reaches the
    cipher ([GenericArray::from_slice] panics first, see below). *)
Class Primitives := {
  aes128_encrypt : bytes -> bytes -> bytes;
  aes128_decrypt : bytes -> bytes -> bytes;
  aes256_encrypt : bytes -> bytes -> bytes;
  hmac_sha1 : bytes -> bytes -> bytes;
  hmac_sha256 : bytes -> bytes -> bytes;
  sha256 : bytes -> bytes;
  pbkdf2_hmac_sha1 : bytes -> bytes -> Z -> nat -> bytes;
  (** key, nonce, associated data, text; [None] is the crate's [Err] *)
  aes_gcm_seal : bytes -> bytes -> bytes -> bytes -> option (bytes * bytes);
  aes_gcm_open : bytes -> bytes -> bytes -> bytes -> bytes -> option bytes
}.

Class PrimitivesOk (P : Primitives) : Prop := {
  aes128_encrypt_arr k b : arr 16 k -> arr 16 b -> arr 16 (aes128_encrypt k b);
  aes128_decrypt_arr k b : arr 16 k -> arr 16 b -> arr 16 (aes128_decrypt k b);
  aes256_encrypt_arr k b : arr 32 k -> arr 16 b -> arr 16 (aes256_encrypt k b);
  aes128_decrypt_encrypt k b :
    arr 16 k -> arr 16 b -> aes128_decrypt k (aes128_encrypt k b) = b;
  hmac_sha1_arr k m : wf_bytes k -> wf_bytes m -> arr 20 (hmac_sha1 k m);
  hmac_sha256_arr k m : wf_bytes k -> wf_bytes m -> arr 32 (hmac_sha256 k m);
  sha256_arr m : wf_bytes m -> arr 32 (sha256 m);
  pbkdf2_hmac_sha1_arr p s i n :
    wf_bytes p -> wf_bytes s -> arr n (pbkdf2_hmac_sha1 p s i n);
  gcm_open_seal k n a m c t :
    aes_gcm_seal k n a m = Some (c, t) -> aes_gcm_open k n a c t = Some m;
  (** the crate refuses messages of more than 2^36 octets *)
  gcm_seal_some k n a m :
    (arr 16 k \/ arr 32 k) -> arr 12 n -> Z.of_nat (length a) <= 2 ^ 36 ->
    Z.of_nat (length m) <= 2 ^ 36 -> exists c t, aes_gcm_seal k n a m = Some (c, t);
  gcm_seal_tag k n a m c t :
    wf_bytes m -> aes_gcm_seal k n a m = Some (c, t) -> arr (length m) c /\ arr 16 t;
  gcm_open_wf k n a c t m :
    wf_bytes c -> aes_gcm_open k n a c t = Some m -> wf_bytes m
}.

(** A concrete instance for the witnesses: "encryption" is an exclusive or
    with the key, the hashes mix position-weighted sums of key and message. *)
Definition toy_pad (n : nat) (l : bytes) : bytes := take n (l ++ replicate n 0).

Definition toy_hash (n : nat) (seed : Z) (m : bytes) : bytes :=
  let h := foldl (fun acc b => (acc * 31 + b + 7) mod 65521) seed m in
  map (fun i => (h * (i + 3) + i) mod 251) (seqZ 0 (Z.of_nat n)).

#[export] Instance toy_primitives : Primitives := {|
  aes128_encrypt k b := xor_bytes b k;
  aes128_decrypt k b := xor_bytes b k;
  aes256_encrypt k b := xor_bytes b (take 16 k);
  hmac_sha1 k m := toy_hash 20 1 (k ++ m);
  hmac_sha256 k m := toy_hash 32 2 (k ++ m);
  sha256 m := toy_hash 32 3 m;
  pbkdf2_hmac_sha1 p s i n := toy_hash n i (p ++ s);
  aes_gcm_seal k n a m := Some (m, toy_hash 16 4 (k ++ n ++ a ++ m));
  aes_gcm_open k n a c t :=
    if beq t (toy_hash 16 4 (k ++ n ++ a ++ c)) then Some c else None
|}.

Lemma toy_hash_arr n s m : arr n (toy_hash n s m).
Proof.
  unfold toy_hash. split; [by rewrite length_map, length_seqZ, Nat2Z.id|].
  apply Forall_forall. intros b Hb. apply list_elem_of_fmap in Hb as (i & -> & _).
  pose proof (Z.mod_pos_bound (foldl (fun acc b => (acc * 31 + b + 7) mod 65521) s m * (i + 3) + i) 251).
  unfold is_byte. lia.
Qed.

#[export] Instance toy_primitives_ok : PrimitivesOk toy_primitives.
Proof.
  constructor; simpl; intros; auto using toy_hash_arr.
  - destruct H, H0. split; [rewrite length_xor_bytes; lia|auto with bytes].
  - destruct H, H0. split; [rewrite length_xor_bytes; lia|auto with bytes].
  - destruct H, H0. split; [rewrite length_xor_bytes, length_take; lia|auto with bytes].
  - destruct H, H0. apply xor_bytes_twice. lia.
  - simplify_eq. by rewrite beq_refl.
  - eauto.
  - simplify_eq. split; [done|]. apply toy_hash_arr.
  - case_match; by simplify_eq.
Qed.

Section Crypto.
Context {P : Primitives}.

(** * Block cipher wrappers *)

Definition aes128_ecb_encrypt_block (key block : bytes) : res bytes :=
  if (length key =? 16)%nat then Val (aes128_encrypt key block) else Panic.

Definition aes_ecb_encrypt_block (key block : bytes) : res bytes :=
  if (length key =? 16)%nat then Val (aes128_encrypt key block)
  else if (length key =? 32)%nat then Val (aes256_encrypt key block)
  else Panic.

Definition aes128_ecb_decrypt_block (key block : bytes) : res bytes :=
  if (length key =? 16)%nat then Val (aes128_decrypt key block) else Panic.

(** * Key derivation *)

(** [sha256_prf]: one HMAC block per iteration, the last one truncated. *)
Definition sha256_prf_step (key label context : bytes) (out_len : nat)
    (st : bytes * Z) : res (bytes * Z + bytes) :=
  let (out, counter) := st in
  if (length out <? out_len)%nat then
    let bits_le := le_bytes 2 (u16 (Z.of_nat (out_len * 8))) in
    let block := hmac_sha256 key (le_bytes 2 counter ++ label ++ context ++ bits_le) in
    let n := Nat.min (out_len - length out) 32 in
    let! piece := slice block 0 n in
    Val (inl (out ++ piece, u16 (counter + 1)))
  else Val (inr out).

Definition sha256_prf (key label context : bytes) (out_len : nat) : res bytes :=
  loop (S out_len) (sha256_prf_step key label context out_len) ([], 1).

(** "Pairwise key expansion" *)
Definition PAIRWISE_LABEL : bytes :=
  [0x50; 0x61; 0x69; 0x72; 0x77; 0x69; 0x73; 0x65; 0x20; 0x6b; 0x65; 0x79; 0x20;
   0x65; 0x78; 0x70; 0x61; 0x6e; 0x73; 0x69; 0x6f; 0x6e].

Definition derive_ptk_sha256_len (pmk aa spa anonce snonce : bytes) (out_len : nat) : res bytes :=
  if negb ((out_len =? 48) || (out_len =? 64))%nat then Panic
  else
    let (mac_lo, mac_hi) := if lex_leb aa spa then (aa, spa) else (spa, aa) in
    let (n_lo, n_hi) := if lex_leb anonce snonce then (anonce, snonce) else (snonce, anonce) in
    sha256_prf pmk PAIRWISE_LABEL (mac_lo ++ mac_hi ++ n_lo ++ n_hi) out_len.

Definition custom_prf512 (key amac smac anonce snonce : bytes) : res bytes :=
  let (mac_lo, mac_hi) := if lex_leb amac smac then (amac, smac) else (smac, amac) in
  let (nonce_lo, nonce_hi) :=
    if lex_leb anonce snonce then (anonce, snonce) else (snonce, anonce) in
  let b := mac_lo ++ mac_hi ++ nonce_lo ++ nonce_hi in
  let r := concat (map (fun i => hmac_sha1 key (PAIRWISE_LABEL ++ [0x00] ++ b ++ [i]))
                       (seqZ 0 4)) in
  slice r 0 64.

Definition pbkdf2_pmk (psk ssid : bytes) : bytes := pbkdf2_hmac_sha1 psk ssid 4096 32.

(** * AES-128-CMAC *)

Definition RB : Z := 0x87.

(** [shl1]: shift a block left by one bit, from the last octet to the first. *)
Definition shl1 (b : bytes) : bytes * Z :=
  foldr (fun x '(out, carry) => (Z.lor (u8 (Z.shiftl x 1)) carry :: out, Z.shiftr x 7))
        ([], 0) b.

Definition cmac_subkey (b : bytes) : bytes :=
  let (k, c) := shl1 b in
  if c =? 0 then k else <[15%nat := Z.lxor (nth 15 k 0) RB]> k.

Definition aes_cmac (key msg : bytes) : res bytes :=
  let! l := aes128_ecb_encrypt_block key (replicate 16 0) in
  let k1 := cmac_subkey l in
  let k2 := cmac_subkey k1 in
  let n := Nat.max ((length msg + 15) / 16) 1 in
  let complete := negb (length msg =? 0)%nat && (length msg mod 16 =? 0)%nat in
  let last_start := ((n - 1) * 16)%nat in
  let! last :=
    (if complete then
       let! block := slice_from msg last_start in Val (xor_bytes block k1)
     else
       let! rem := slice_from msg last_start in
       if (length rem <? 16)%nat
       then Val (xor_bytes (rem ++ 0x80 :: replicate (15 - length rem) 0) k2)
       else Panic) in
  let! x := rfold (fun x i =>
      let! block := slice msg (i * 16) (i * 16 + 16) in
      aes128_ecb_encrypt_block key (xor_bytes x block))
    (replicate 16 0) (seq 0 (n - 1)) in
  aes128_ecb_encrypt_block key (xor_bytes x last).

(** * Constant-time comparison *)

Definition constant_time_eq (a b : bytes) : bool :=
  if negb (length a =? length b)%nat then false
  else foldl (fun diff '(x, y) => Z.lor diff (Z.lxor x y)) 0 (zip a b) =? 0.

(** * CCM *)

Definition ctr_keystream_block (key a0 : bytes) (j : Z) : res bytes :=
  let c := (be_val a0 + j) mod 2 ^ 128 in
  aes_ecb_encrypt_block key (be_bytes 16 c).

Definition a0_block (nonce : bytes) : bytes := [0x01] ++ nonce ++ [0x00; 0x00].

(** [for (i, chunk) in data.chunks(16).enumerate()] *)
Fixpoint ctr_chunks (fuel : nat) (key a0 : bytes) (i : Z) (data : bytes) : res bytes :=
  match fuel with
  | O => OutOfFuel
  | S fuel' =>
      match data with
      | [] => Val []
      | _ =>
          let! ks := ctr_keystream_block key a0 (i + 1) in
          let! rest := ctr_chunks fuel' key a0 (i + 1) (drop 16 data) in
          Val (xor_bytes (take 16 data) ks ++ rest)
      end
  end.

Definition ctr_encrypt (key nonce data : bytes) : res bytes :=
  ctr_chunks (S (length data)) key (a0_block nonce) 0 data.

(** [while !v.len().is_multiple_of(m) { v.push(b) }] *)
Definition push_until (m : nat) (b : Z) (l : bytes) : res bytes :=
  loop (S m) (fun v => if (length v mod m =? 0)%nat then Val (inr v) else Val (inl (v ++ [b]))) l.

(** [for chunk in blocks.chunks(16)] of the CBC-MAC *)
Fixpoint cbc_chunks (fuel : nat) (key prev blocks : bytes) : res bytes :=
  match fuel with
  | O => OutOfFuel
  | S fuel' =>
      match blocks with
      | [] => Val prev
      | _ =>
          let! chunk := slice blocks 0 16 in
          let! prev' := aes_ecb_encrypt_block key (xor_bytes chunk prev) in
          cbc_chunks fuel' key prev' (drop 16 blocks)
      end
  end.

Definition valid_tag_len (n : nat) : bool :=
  ((4 <=? n) && (n <=? 16) && (n mod 2 =? 0))%nat.

Definition cbc_mac (key plaintext aad nonce : bytes) (mac_len : nat) : res bytes :=
  if negb (valid_tag_len mac_len) then Val []
  else
    let has_aad := negb (length aad =? 0)%nat in
    let mp := Z.of_nat ((mac_len - 2) / 2) in
    let flags := 64 * (if has_aad then 1 else 0) + 8 * mp + 1 in
    let b0 := [u8 flags] ++ nonce ++ be_bytes 2 (u16 (Z.of_nat (length plaintext))) in
    let! a := push_until 16 0 (be_bytes 2 (u16 (Z.of_nat (length aad))) ++ aad) in
    let! blocks := push_until 16 0 (b0 ++ a ++ plaintext) in
    let! prev := cbc_chunks (S (length blocks)) key (replicate 16 0) blocks in
    let! s0 := aes_ecb_encrypt_block key (a0_block nonce) in
    slice (xor_bytes s0 prev) 0 mac_len.

Definition run_ccmp_encrypt_with_tag (key nonce aad plaintext : bytes) (tag_len : nat) :
    res (bytes * bytes) :=
  if negb (valid_tag_len tag_len) then Val ([], [])
  else
    let! tag := cbc_mac key plaintext aad nonce tag_len in
    let! encrypted := ctr_encrypt key nonce plaintext in
    Val (encrypted, tag).

Definition run_ccmp_encrypt (key nonce aad plaintext : bytes) : res (bytes * bytes) :=
  run_ccmp_encrypt_with_tag key nonce aad plaintext 8.

Definition run_ccmp_decrypt_with_tag (key nonce aad ciphertext known_tag : bytes)
    (tag_len : nat) : res (bytes * bool) :=
  let! plaintext := ctr_encrypt key nonce ciphertext in
  if negb (valid_tag_len tag_len) || negb (length known_tag =? tag_len)%nat
  then Val (plaintext, false)
  else
    let! tag := cbc_mac key plaintext aad nonce tag_len in
    Val (plaintext, constant_time_eq tag known_tag).

Definition run_ccmp_decrypt (key nonce aad ciphertext known_tag : bytes) : res (bytes * bool) :=
  run_ccmp_decrypt_with_tag key nonce aad ciphertext known_tag 8.

(** * GCM *)

Definition run_gcmp_encrypt (key nonce aad plaintext : bytes) : option (bytes * bytes) :=
  if ((length key =? 16) || (length key =? 32))%nat
  then aes_gcm_seal key nonce aad plaintext else None.

Definition run_gcmp_decrypt (key nonce aad ciphertext tag : bytes) : option bytes :=
  if negb (length tag =? 16)%nat then None
  else if ((length key =? 16) || (length key =? 32))%nat
  then aes_gcm_open key nonce aad ciphertext tag else None.

(** * AES key wrap (RFC 3394) *)

Definition KEY_WRAP_IV : Z := 0xA6A6A6A6A6A6A6A6.

(** The iteration space of [for j in 0..6 { for i in 1..=n }]. *)
Definition wrap_indices (n : nat) : list (Z * nat) :=
  concat (map (fun j => map (fun i => (j, i)) (seq 1 n)) (seqZ 0 6)).

Definition wrap_t (n : nat) (j : Z) (i : nat) : Z := u64 (u64 (Z.of_nat n * j) + Z.of_nat i).

Definition aes_wrap_step (kek : bytes) (n : nat) (st : Z * list bytes) (ji : Z * nat) :
    res (Z * list bytes) :=
  let (a, r) := st in
  let (j, i) := ji in
  match r !! (i - 1)%nat with
  | None => Panic
  | Some ri =>
      let! b := aes128_ecb_encrypt_block kek (be_bytes 8 a ++ ri) in
      let! hi := slice b 0 8 in
      let! lo := slice b 8 16 in
      Val (Z.lxor (be_val hi) (wrap_t n j i), <[(i - 1)%nat := lo]> r)
  end.

Definition aes_wrap (kek plain : bytes) : res bytes :=
  let n := (length plain / 8)%nat in
  let! r := rmapM (fun i => slice plain (i * 8) (i * 8 + 8)) (seq 0 n) in
  let! st := rfold (aes_wrap_step kek n) (KEY_WRAP_IV, r) (wrap_indices n) in
  Val (be_bytes 8 (fst st) ++ concat (snd st)).

(** [r] is one-indexed here, as in the code: slot 0 is unused. *)
Definition aes_unwrap_step (kek : bytes) (n : nat) (st : Z * list bytes) (ji : Z * nat) :
    res (Z * list bytes) :=
  let (a, r) := st in
  let (j, i) := ji in
  match r !! i with
  | None => Panic
  | Some ri =>
      let! b := aes128_ecb_decrypt_block kek (be_bytes 8 (Z.lxor a (wrap_t n j i)) ++ ri) in
      let! hi := slice b 0 8 in
      let! lo := slice b 8 16 in
      Val (be_val hi, <[i := lo]> r)
  end.

Definition aes_unwrap (kek wrapped : bytes) : res (option bytes) :=
  if (length wrapped <? 16)%nat || negb (Z.land (Z.of_nat (length wrapped)) 7 =? 0)
  then Val None
  else
    let n := (length wrapped / 8 - 1)%nat in
    let! hi := slice wrapped 0 8 in
    let! r := rmapM (fun i => slice wrapped (i * 8) (i * 8 + 8)) (seq 1 n) in
    let! st := rfold (aes_unwrap_step kek n) (be_val hi, replicate 8 0 :: r)
                     (reverse (wrap_indices n)) in
    if negb (fst st =? KEY_WRAP_IV) then Val None
    else Val (Some (concat (drop 1 (snd st)))).

(** [pad_key_data]: one 0xdd, then zeros to the 8-octet boundary. *)
Definition pad_key_data (plain : bytes) : res bytes :=
  if (length plain mod 8 =? 0)%nat then Val plain
  else push_until 8 0 (plain ++ [0xdd]).

End Crypto.

(** * Padding loops *)

Definition pad_count (m n : nat) : nat := ((m - n mod m) mod m)%nat.
Arguments pad_count : simpl never.

Lemma push_until_loop m (b : Z) k (l : bytes) fuel :
  (k < fuel)%nat -> ((length l + k) mod m = 0)%nat ->
  (forall j, (j < k)%nat -> ((length l + j) mod m <> 0)%nat) ->
  loop fuel (fun v => if (length v mod m =? 0)%nat then Val (inr v) else Val (inl (v ++ [b]))) l
    = Val (l ++ replicate k b).
Proof.
  revert l fuel. induction k as [|k IH]; intros l [|fuel] Hf H0 Hj; try lia; cbn [loop].
  - rewrite Nat.add_0_r in H0. by rewrite H0, app_nil_r.
  - specialize (Hj 0%nat ltac:(lia)) as H1. rewrite Nat.add_0_r in H1.
    rewrite (proj2 (Nat.eqb_neq _ _)) by done. cbn [rbind].
    rewrite IH; [by rewrite <- app_assoc|lia| |];
      rewrite length_app; cbn [length]; rewrite ?Nat.add_1_r.
    + by rewrite Nat.add_succ_l, <- Nat.add_succ_r.
    + intros j Hjk. rewrite Nat.add_succ_l, <- Nat.add_succ_r. apply Hj. lia.
Qed.

Lemma pad_count_lt m n : (0 < m)%nat -> (pad_count m n < m)%nat.
Proof. intros. apply Nat.mod_upper_bound. lia. Qed.

Lemma pad_count_mod m n : (0 < m)%nat -> ((n + pad_count m n) mod m = 0)%nat.
Proof.
  intros Hm. unfold pad_count. rewrite Nat.Div0.add_mod_idemp_r, <- Nat.Div0.add_mod_idemp_l.
  pose proof (Nat.mod_upper_bound n m ltac:(lia)).
  replace (n mod m + (m - n mod m))%nat with m by lia. apply Nat.Div0.mod_same.
Qed.

Lemma pad_count_least m n j :
  (0 < m)%nat -> (j < pad_count m n)%nat -> ((n + j) mod m <> 0)%nat.
Proof.
  intros Hm Hj H0. unfold pad_count in Hj.
  pose proof (Nat.mod_upper_bound n m ltac:(lia)) as Hn.
  destruct (decide (n mod m = 0)%nat) as [E|E].
  - rewrite E, Nat.sub_0_r, Nat.Div0.mod_same in Hj. lia.
  - rewrite (Nat.mod_small (m - n mod m)) in Hj by lia.
    rewrite <- Nat.Div0.add_mod_idemp_l, Nat.mod_small in H0 by lia. lia.
Qed.

Lemma push_until_spec m b l :
  (0 < m)%nat -> push_until m b l = Val (l ++ replicate (pad_count m (length l)) b).
Proof.
  intros Hm. apply push_until_loop; [pose proof (pad_count_lt m (length l) Hm); lia| |].
  - by apply pad_count_mod.
  - intros. by apply pad_count_least.
Qed.

Lemma pad_key_data_spec plain :
  pad_key_data plain = Val
    (if (length plain mod 8 =? 0)%nat then plain
     else plain ++ 0xdd :: replicate (pad_count 8 (S (length plain))) 0).
Proof.
  unfold pad_key_data. destruct (Nat.eqb_spec (length plain mod 8) 0); [done|].
  rewrite push_until_spec by lia. rewrite length_app, <- app_assoc. simpl.
  by rewrite Nat.add_1_r.
Qed.

Lemma pad_key_data_mult8 plain padded :
  pad_key_data plain = Val padded -> (length padded mod 8 = 0)%nat.
Proof.
  rewrite pad_key_data_spec. intros [= <-].
  destruct (Nat.eqb_spec (length plain mod 8) 0) as [|H]; [done|].
  rewrite length_app. cbn [length]. rewrite length_replicate, <- Nat.add_succ_comm.
  apply pad_count_mod. lia.
Qed.

(** * Exclusive or of equal blocks and the constant-time comparison *)

Lemma fold_lor_zero (l : list (Z * Z)) (d : Z) :
  Forall (fun p => is_byte p.1 /\ is_byte p.2) l -> 0 <= d ->
  foldl (fun diff '(x, y) => Z.lor diff (Z.lxor x y)) d l = 0 <->
  d = 0 /\ Forall (fun p => p.1 = p.2) l.
Proof.
  intros Hl. revert d. induction Hl as [|[x y] l [Hx Hy] Hl IH]; intros d Hd; simpl.
  - split; [by intros ->|by intros [-> _]].
  - simpl in Hx, Hy. rewrite IH by (apply Z.lor_nonneg; split; [done|];
      apply Z.lxor_nonneg; unfold is_byte in *; lia).
    rewrite Z.lor_eq_0_iff, Z.lxor_eq_0_iff, Forall_cons. simpl. tauto.
Qed.

(** The comparison that guards every MIC and every tag is equality. *)
Lemma constant_time_eq_spec a b :
  wf_bytes a -> wf_bytes b -> constant_time_eq a b = beq a b.
Proof.
  intros Ha Hb. apply eq_true_iff_eq. rewrite beq_true. unfold constant_time_eq.
  destruct (Nat.eqb_spec (length a) (length b)) as [Hlen|Hlen]; simpl;
    [|split; [done|by intros ->]].
  rewrite Z.eqb_eq, fold_lor_zero; [|clear Hlen|lia].
  - split; [|intros ->; split; [done|]].
    + intros [_ H]. revert b Hlen Hb H. induction a as [|x a IH]; intros [|y b]; simpl;
        try done. intros [=] [_ Hb]%Forall_cons [H1 H2]%Forall_cons. simpl in H1. subst.
      apply Forall_cons in Ha as [_ Ha]. f_equal. by apply IH.
    + clear. induction b; simpl; constructor; auto.
  - revert b Hb. induction Ha as [|x a Hx Ha IH]; intros b Hb; [constructor|].
    destruct Hb; simpl; constructor; auto.
Qed.

(** * Key wrap *)

Lemma rfold_app {A B} (f : B -> A -> res B) b l k :
  rfold f b (l ++ k) = let! b' := rfold f b l in rfold f b' k.
Proof.
  revert b. induction l as [|a l IH]; intros b; simpl; [done|].
  destruct (f b a); simpl; auto.
Qed.

Section KeyWrap.
Context {P : Primitives} {POk : PrimitivesOk P}.

Definition wrap_inv (n : nat) (st : Z * list bytes) : Prop :=
  0 <= st.1 < 2 ^ 64 /\ length st.2 = n /\ Forall (arr 8) st.2.

Lemma wrap_t_range n j i : 0 <= wrap_t n j i < 2 ^ 64.
Proof. apply Z.mod_pos_bound. lia. Qed.

Lemma be_bytes_8_val l : arr 8 l -> be_bytes 8 (be_val l) = l.
Proof. intros [Hl Hw]. rewrite <- Hl. by apply be_bytes_val. Qed.

Lemma be_val_8_range l : arr 8 l -> 0 <= be_val l < 2 ^ 64.
Proof. intros [Hl Hw]. pose proof (be_val_bound l Hw) as Hb. by rewrite Hl in Hb. Qed.

Lemma split_block b : arr 16 b -> sub b 0 8 ++ sub b 8 16 = b.
Proof.
  intros [Hl _]. unfold sub. rewrite drop_0. simpl.
  rewrite (take_ge (drop 8 b)) by len. apply take_drop.
Qed.

(** One unwrap step undoes the corresponding wrap step. *)
Lemma wrap_step_inverse kek n st z j i :
  arr 16 kek -> wrap_inv n st -> (1 <= i <= n)%nat ->
  exists st', aes_wrap_step kek n st (j, i) = Val st' /\ wrap_inv n st' /\
    aes_unwrap_step kek n (st'.1, z :: st'.2) (j, i) = Val (st.1, z :: st.2).
Proof.
  destruct st as [a r]. intros Hk (Ha & Hn & Hr) Hi. simpl in *.
  destruct (lookup_lt_is_Some_2 r (i - 1)) as [ri Hri]; [lia|].
  pose proof (Forall_lookup_1 _ _ _ _ Hr Hri) as [Hri8 Hriw].
  assert (Hblk : arr 16 (be_bytes 8 a ++ ri)) by (split; [len|auto with bytes]).
  pose proof (aes128_encrypt_arr kek _ Hk Hblk) as Hb.
  set (b := aes128_encrypt kek (be_bytes 8 a ++ ri)) in *. destruct Hb as [Hbl Hbw].
  assert (Hhi : arr 8 (sub b 0 8)) by auto with bytes.
  assert (Hlo : arr 8 (sub b 8 16)) by auto with bytes.
  rewrite Hri. unfold aes128_ecb_encrypt_block, aes128_ecb_decrypt_block.
  rewrite (proj2 (Nat.eqb_eq _ _)) by apply Hk. cbn [rbind]. fold b. rust_steps.
  eexists. split; [done|]. split.
  - split; [|split]; simpl.
    + apply lxor_range; [lia|by apply be_val_8_range|apply wrap_t_range].
    + by rewrite length_insert.
    + by apply Forall_insert.
  - cbn [fst snd]. destruct i as [|i]; [lia|]. rewrite Nat.sub_succ, Nat.sub_0_r in *.
    rewrite lookup_cons_ne_0 by lia. cbn [Nat.pred].
    rewrite list_lookup_insert_eq by lia.
    rewrite lxor_twice, be_bytes_8_val, split_block by done.
    unfold b. rewrite aes128_decrypt_encrypt by done. cbn [rbind].
    destruct Hblk as [Hbll _]. rust_steps.
    rewrite sub_app_l, sub_app_r, !sub_all by len.
    rewrite be_bytes_small by (simpl; lia).
    do 3 f_equal. change (<[S i:=ri]> (z :: ?l)) with (z :: <[i:=ri]> l). f_equal.
    rewrite list_insert_insert_eq. by apply list_insert_id.
Qed.

Lemma wrap_fold_inverse kek n z l :
  arr 16 kek -> Forall (fun ji => 1 <= ji.2 <= n)%nat l -> forall st, wrap_inv n st ->
  exists st', rfold (aes_wrap_step kek n) st l = Val st' /\ wrap_inv n st' /\
    rfold (aes_unwrap_step kek n) (st'.1, z :: st'.2) (reverse l) = Val (st.1, z :: st.2).
Proof.
  intros Hk Hl. induction Hl as [|[j i] l Hi Hl IH]; intros st Hst; [by exists st|].
  destruct (wrap_step_inverse kek n st z j i Hk Hst Hi) as (st1 & H1 & Hst1 & Hu1).
  destruct (IH st1 Hst1) as (st2 & H2 & Hst2 & Hu2).
  exists st2. split; [|split; [done|]].
  - cbn [rfold]. by rewrite H1.
  - rewrite reverse_cons, rfold_app, Hu2. cbn [rbind rfold]. by rewrite Hu1.
Qed.

Lemma wrap_indices_range n : Forall (fun ji => 1 <= ji.2 <= n)%nat (wrap_indices n).
Proof.
  apply Forall_concat, Forall_fmap, Forall_forall. intros j _. unfold compose.
  apply Forall_forall. intros ji Hji. apply list_elem_of_fmap in Hji as (i & -> & Hi).
  apply elem_of_seq in Hi. simpl. lia.
Qed.

(** Cutting a buffer of [8n] octets into blocks of 8. *)
Lemma blocks8 (l : bytes) n :
  length l = (8 * n)%nat -> wf_bytes l ->
  exists r, l = concat r /\ length r = n /\ Forall (arr 8) r.
Proof.
  revert l. induction n as [|n IH]; intros l Hl Hw.
  - exists []. by destruct l; [|simpl in Hl; lia].
  - destruct (IH (drop 8 l)) as (r & Hr & Hn & Hrs); [rewrite length_drop; lia|auto with bytes|].
    exists (take 8 l :: r). simpl. rewrite <- Hr, take_drop, Hn. split; [done|]. split; [done|].
    constructor; [|done]. split; [rewrite length_take; lia|auto with bytes].
Qed.

Lemma rmapM_blocks8 (pre : bytes) r k :
  length pre = (8 * k)%nat -> Forall (arr 8) r ->
  rmapM (fun i => slice (pre ++ concat r) (i * 8) (i * 8 + 8)) (seq k (length r)) = Val r.
Proof.
  intros Hpre Hr. revert pre k Hpre.
  induction Hr as [|b r [Hb _] Hr IH]; intros pre k Hpre; [done|].
  cbn [length seq rmapM concat]. rewrite slice_ok by len. cbn [rbind].
  rewrite sub_exact by lia.
  specialize (IH (pre ++ b) (S k)). rewrite <- app_assoc in IH.
  rewrite IH by len. done.
Qed.

Lemma length_concat_blocks8 r : Forall (arr 8) r -> length (concat r) = (8 * length r)%nat.
Proof. induction 1 as [|b r [Hb _] Hr IH]; simpl; [done|]. rewrite length_app. lia. Qed.

Lemma land7 n : Z.land (8 * n) 7 = 0.
Proof.
  change 7 with (Z.ones 3). rewrite Z.land_ones by lia. change (2 ^ 3) with 8.
  rewrite Z.mul_comm. apply Z.mod_mul. lia.
Qed.

Theorem aes_unwrap_wrap kek plain n :
  arr 16 kek -> wf_bytes plain -> length plain = (8 * n)%nat -> (0 < n)%nat ->
  exists wrapped, aes_wrap kek plain = Val wrapped /\
    length wrapped = (8 * S n)%nat /\ wf_bytes wrapped /\
    aes_unwrap kek wrapped = Val (Some plain).
Proof.
  intros Hk Hw Hlen Hn. destruct (blocks8 plain n Hlen Hw) as (r & -> & Hr & Hrs).
  unfold aes_wrap. replace (length (concat r) / 8)%nat with n
    by (rewrite Hlen, Nat.mul_comm, Nat.div_mul; lia).
  pose proof (rmapM_blocks8 [] r 0 eq_refl Hrs) as Hcut. rewrite Hr in Hcut. cbn [app] in Hcut.
  rewrite Hcut. cbn [rbind].
  destruct (wrap_fold_inverse kek n (replicate 8 0) (wrap_indices n) Hk
    (wrap_indices_range n) (KEY_WRAP_IV, r)) as ([a' r'] & Hf & (Ha' & Hn' & Hr') & Hu).
  { split; [by vm_compute|done]. }
  rewrite Hf. cbn [rbind fst snd] in *.
  assert (Hwl : length (be_bytes 8 a' ++ concat r') = (8 * S n)%nat).
  { rewrite length_app, length_be_bytes, length_concat_blocks8, Hn' by done. lia. }
  eexists. split; [done|]. split; [done|]. split.
  { apply wf_bytes_app; [auto with bytes|]. apply Forall_concat.
    eapply Forall_impl; [exact Hr'|]. by intros b []. }
  unfold aes_unwrap. rewrite Hwl.
  replace (Z.land (Z.of_nat (8 * S n)) 7) with 0 by (rewrite Nat2Z.inj_mul; symmetry; apply land7).
  rewrite (proj2 (Nat.ltb_ge (8 * S n) 16)) by lia. cbn [orb negb Z.eqb].
  replace (8 * S n / 8 - 1)%nat with n by (rewrite Nat.mul_comm, Nat.div_mul; lia).
  rust_step. rewrite sub_app_l, sub_all by len.
  pose proof (rmapM_blocks8 (be_bytes 8 a') r' 1) as Hcut'. rewrite Hn' in Hcut'.
  rewrite Hcut' by (done || len). cbn [rbind].
  rewrite be_bytes_small by (simpl; lia). rewrite Hu. cbn [rbind fst snd].
  by rewrite Z.eqb_refl.
Qed.

End KeyWrap.

Section Modes.
Context {P : Primitives} {POk : PrimitivesOk P}.

(** A data-protection key: 16 or 32 octets. *)
Definition tk_ok (key : bytes) : Prop := arr 16 key \/ arr 32 key.

Lemma aes_ecb_block key b :
  tk_ok key -> arr 16 b -> exists c, aes_ecb_encrypt_block key b = Val c /\ arr 16 c.
Proof.
  intros [Hk|Hk] Hb; unfold aes_ecb_encrypt_block; rewrite (proj1 Hk); simpl;
    eexists; split; eauto using aes128_encrypt_arr, aes256_encrypt_arr.
Qed.

(** ** Key unwrap on hostile input *)

Lemma unwrap_fold_returns kek n l :
  arr 16 kek -> Forall (fun ji => 1 <= ji.2 <= n)%nat l ->
  forall a r, length r = S n -> Forall (arr 8) r -> 0 <= a < 2 ^ 64 ->
  exists a' r', rfold (aes_unwrap_step kek n) (a, r) l = Val (a', r') /\
    length r' = S n /\ Forall (arr 8) r' /\ 0 <= a' < 2 ^ 64.
Proof.
  intros Hk Hl. induction Hl as [|[j i] l Hi Hl IH]; intros a r Hr Hrs Ha.
  { exists a, r. by split. }
  simpl in Hi. destruct (lookup_lt_is_Some_2 r i) as [ri Hri]; [lia|].
  destruct (Forall_lookup_1 _ _ _ _ Hrs Hri) as [Hril Hriw].
  cbn [rfold aes_unwrap_step]. rewrite Hri. unfold aes128_ecb_decrypt_block.
  rewrite (proj1 Hk). cbn [Nat.eqb rbind].
  set (b := aes128_decrypt _ _).
  assert (Hb : arr 16 b).
  { apply aes128_decrypt_arr; [done|]. split; [len|auto with bytes]. }
  destruct Hb as [Hbl Hbw]. rust_steps.
  apply IH; [by rewrite length_insert| |].
  - apply Forall_insert; [done|]. auto with bytes.
  - apply be_val_8_range. auto with bytes.
Qed.

Lemma rmapM_slices (l : bytes) k n :
  (8 * (k + n) <= length l)%nat -> wf_bytes l ->
  exists r, rmapM (fun i => slice l (i * 8) (i * 8 + 8)) (seq k n) = Val r /\
    length r = n /\ Forall (arr 8) r.
Proof.
  intros Hl Hw. revert k Hl. induction n as [|n IH]; intros k Hl; [by exists []|].
  destruct (IH (S k)) as (r & Hr & Hn & Hrs); [lia|].
  exists (sub l (k * 8) (k * 8 + 8) :: r). cbn [seq rmapM]. rust_step. rewrite Hr. cbn [rbind].
  split; [done|]. split; [simpl; lia|]. constructor; [|done]. auto with bytes.
Qed.

(** Key data of any length, also from a peer that knows the MIC key, is
    unwrapped or refused: no input panics. *)
Lemma aes_unwrap_total kek wrapped :
  arr 16 kek -> wf_bytes wrapped ->
  exists o, aes_unwrap kek wrapped = Val o /\
    forall plain, o = Some plain ->
      (length plain + 8)%nat = length wrapped /\ wf_bytes plain.
Proof.
  intros Hk Hw. unfold aes_unwrap.
  destruct (Nat.ltb_spec (length wrapped) 16) as [|Hlen]; [by eexists|]. cbn [orb].
  destruct (Z.eqb_spec (Z.land (Z.of_nat (length wrapped)) 7) 0) as [H7|]; [|by eexists].
  cbn [negb].
  assert (Hmod : (length wrapped mod 8 = 0)%nat).
  { change 7 with (Z.ones 3) in H7. rewrite Z.land_ones in H7 by lia.
    change (2 ^ 3) with (Z.of_nat 8) in H7. rewrite <- Nat2Z.inj_mod in H7. lia. }
  pose proof (Nat.div_mod_eq (length wrapped) 8) as Hdiv.
  set (n := (length wrapped / 8 - 1)%nat) in *. rust_step.
  destruct (rmapM_slices wrapped 1 n) as (r & Hr & Hn & Hrs); [lia|done|].
  rewrite Hr. cbn [rbind].
  destruct (unwrap_fold_returns kek n (reverse (wrap_indices n)) Hk
    (proj2 (Forall_reverse _ _) (wrap_indices_range n)) (be_val (sub wrapped 0 8))
    (replicate 8 0 :: r)) as (a' & r' & Hf & Hn' & Hr' & _).
  { simpl. lia. }
  { constructor; [split; [done|auto with bytes]|done]. }
  { apply be_val_8_range. auto with bytes. }
  rewrite Hf. cbn [rbind fst snd]. destruct (a' =? KEY_WRAP_IV); [|by eexists].
  eexists. split; [done|]. intros plain [= <-].
  destruct r' as [|z r']; [done|]. apply Forall_cons in Hr' as [_ Hr']. cbn [drop].
  rewrite drop_0. simpl in Hn'. rewrite length_concat_blocks8 by done. split; [lia|].
  apply Forall_concat. eapply Forall_impl; [exact Hr'|]. by intros b [].
Qed.

(** ** CMAC *)

Lemma shl1_arr b : wf_bytes b -> arr (length b) (shl1 b).1 /\ 0 <= (shl1 b).2 < 2.
Proof.
  induction 1 as [|x b Hx Hb IH]; [split; [by split; [|constructor]|simpl; lia]|].
  unfold shl1 in *. cbn [foldr]. destruct (foldr _ _ b) as [out c]. simpl in *.
  destruct IH as [[IHl IHw] IHc]. unfold is_byte in Hx. split; [split|].
  - simpl. lia.
  - constructor; [|done]. apply lor_byte; [apply u8_byte|unfold is_byte; lia].
  - rewrite Z.shiftr_div_pow2 by lia. change (2 ^ 7) with 128.
    split; [apply Z.div_pos; lia|]. apply Z.div_lt_upper_bound; lia.
Qed.

Lemma cmac_subkey_arr b : arr 16 b -> arr 16 (cmac_subkey b).
Proof.
  intros [Hl Hw]. unfold cmac_subkey. destruct (shl1_arr b Hw) as [[Hkl Hkw] _].
  destruct (shl1 b) as [k c]. simpl in *. destruct (c =? 0); [split; congruence|].
  split; [rewrite length_insert; congruence|]. apply Forall_insert; [done|].
  apply lxor_byte; [auto with bytes|]. unfold is_byte, RB. lia.
Qed.

Lemma cmac_last_block (msg : bytes) :
  let n := Nat.max ((length msg + 15) / 16) 1 in
  ((n - 1) * 16 <= length msg)%nat /\
  (length msg - (n - 1) * 16 <= 16)%nat /\
  (negb (length msg =? 0)%nat && (length msg mod 16 =? 0)%nat = false ->
     (length msg - (n - 1) * 16 < 16)%nat) /\
  (negb (length msg =? 0)%nat && (length msg mod 16 =? 0)%nat = true ->
     (length msg - (n - 1) * 16 = 16)%nat).
Proof.
  intros n. subst n.
  pose proof (Nat.div_mod_eq (length msg + 15) 16) as Hd.
  pose proof (Nat.mod_upper_bound (length msg + 15) 16 ltac:(lia)).
  pose proof (Nat.div_mod_eq (length msg) 16) as Hd'.
  pose proof (Nat.mod_upper_bound (length msg) 16 ltac:(lia)).
  destruct (Nat.eqb_spec (length msg) 0), (Nat.eqb_spec (length msg mod 16) 0);
    cbn [negb andb]; lia.
Qed.

Lemma aes_cmac_ok key msg :
  arr 16 key -> wf_bytes msg -> exists mac, aes_cmac key msg = Val mac /\ arr 16 mac.
Proof.
  intros Hk Hw. destruct (cmac_last_block msg) as (Hs & Hle & Hlt & Heq).
  assert (Henc : forall b, arr 16 b -> exists c, aes128_ecb_encrypt_block key b = Val c /\ arr 16 c).
  { intros b Hb. unfold aes128_ecb_encrypt_block. rewrite (proj1 Hk). cbn [Nat.eqb].
    eexists. split; [done|]. by apply aes128_encrypt_arr. }
  unfold aes_cmac. destruct (Henc (replicate 16 0)) as (l & -> & Hl).
  { split; [done|auto with bytes]. }
  cbn [rbind]. set (n := Nat.max ((length msg + 15) / 16) 1) in *.
  pose proof (cmac_subkey_arr l Hl) as Hk1. pose proof (cmac_subkey_arr _ Hk1) as Hk2.
  set (k1 := cmac_subkey l) in *. set (k2 := cmac_subkey k1) in *. clearbody k1 k2.
  assert (exists last, (if negb (length msg =? 0)%nat && (length msg mod 16 =? 0)%nat
     then let! block := slice_from msg ((n - 1) * 16) in Val (xor_bytes block k1)
     else let! rem := slice_from msg ((n - 1) * 16) in
       if (length rem <? 16)%nat
       then Val (xor_bytes (rem ++ 0x80 :: replicate (15 - length rem) 0) k2)
       else Panic) = Val last /\ arr 16 last) as (last & -> & Hlast).
  { destruct Hk1, Hk2. rewrite slice_from_ok by lia. cbn [rbind].
    destruct (negb _ && _); [|rewrite (proj2 (Nat.ltb_lt _ _)) by (rewrite length_drop; auto)];
      eexists; (split; [done|]); (split; [|auto 10 with bytes]).
    - specialize (Heq eq_refl). len.
    - specialize (Hlt eq_refl). rewrite length_xor_bytes, length_app. cbn [length].
      rewrite length_replicate, length_drop. lia. }
  cbn [rbind].
  destruct (rfold_inv (arr 16) (fun x i => let! block := slice msg (i * 16) (i * 16 + 16) in
      aes128_ecb_encrypt_block key (xor_bytes x block)) (seq 0 (n - 1)))
    with (b := replicate 16 0) as (x & -> & Hx).
  { intros x i [Hxl Hxw] Hi%elem_of_seq. rust_step. apply Henc.
    split; [rewrite length_xor_bytes, length_sub; lia|auto with bytes]. }
  { split; [done|auto with bytes]. }
  cbn [rbind]. apply Henc. destruct Hx, Hlast. split; [len|auto with bytes].
Qed.

(** ** Counter mode *)

Lemma ctr_keystream_ok key a0 j :
  tk_ok key -> exists ks, ctr_keystream_block key a0 j = Val ks /\ arr 16 ks.
Proof. intros Hk. apply aes_ecb_block; [done|]. split; [len|auto with bytes]. Qed.

Lemma ctr_chunks_involutive key a0 fuel i data :
  tk_ok key -> (length data < fuel)%nat ->
  exists enc, ctr_chunks fuel key a0 i data = Val enc /\
    length enc = length data /\ (wf_bytes data -> wf_bytes enc) /\
    ctr_chunks fuel key a0 i enc = Val data.
Proof.
  intros Hk. revert i data. induction fuel as [|fuel IH]; intros i data Hf; [lia|].
  destruct data as [|d data]; [by exists []|].
  set (l := d :: data) in *. assert (Hl : l <> []) by done. clearbody l.
  destruct (ctr_keystream_ok key a0 (i + 1) Hk) as (ks & Hks & Hksl & Hksw).
  destruct (IH (i + 1) (drop 16 l)) as (rest & Hrest & Hlen & Hw & Hinv).
  { rewrite length_drop. destruct l; simpl in *; [done|lia]. }
  exists (xor_bytes (take 16 l) ks ++ rest). cbn [ctr_chunks].
  rewrite Hks, Hrest. rewrite length_drop in Hlen.
  assert (Hx : length (xor_bytes (take 16 l) ks) = (16 `min` length l)%nat) by len.
  split; [by destruct l|]. split; [len|]. split; [auto with bytes|].
  assert (Hl0 : (0 < length l)%nat) by (destruct l; [done|simpl; lia]).
  assert (Htake : take 16 (xor_bytes (take 16 l) ks ++ rest) = xor_bytes (take 16 l) ks).
  { destruct (decide (16 <= length l)%nat).
    - by rewrite take_app_length' by lia.
    - destruct rest; [|simpl in Hlen; lia]. rewrite app_nil_r. apply take_ge. lia. }
  assert (Hdrop : drop 16 (xor_bytes (take 16 l) ks ++ rest) = rest).
  { destruct (decide (16 <= length l)%nat).
    - by rewrite drop_app_length' by lia.
    - destruct rest; [|simpl in Hlen; lia]. rewrite app_nil_r. apply drop_ge. lia. }
  destruct (xor_bytes (take 16 l) ks ++ rest) as [|e enc] eqn:E.
  { apply (f_equal length) in E. rewrite length_app in E. simpl in E. lia. }
  rewrite Htake, Hdrop, Hinv. cbn [rbind].
  rewrite xor_bytes_twice by len. by rewrite take_drop.
Qed.

(** Encrypting twice with the same key and nonce is the identity. *)
Lemma ctr_encrypt_involutive key nonce data :
  tk_ok key ->
  exists enc, ctr_encrypt key nonce data = Val enc /\ length enc = length data /\
    (wf_bytes data -> wf_bytes enc) /\ ctr_encrypt key nonce enc = Val data.
Proof.
  intros Hk. destruct (ctr_chunks_involutive key (a0_block nonce) (S (length data)) 0 data Hk)
    as (enc & He & Hl & Hw & Hd); [lia|].
  exists enc. unfold ctr_encrypt. rewrite Hl. auto.
Qed.

(** ** CBC-MAC *)

Lemma cbc_chunks_ok key fuel n prev blocks :
  tk_ok key -> arr 16 prev -> wf_bytes blocks -> length blocks = (16 * n)%nat ->
  (length blocks < fuel)%nat ->
  exists t, cbc_chunks fuel key prev blocks = Val t /\ arr 16 t.
Proof.
  intros Hk. revert n prev blocks.
  induction fuel as [|fuel IH]; intros n prev blocks Hp Hw Hlen Hf; [lia|].
  destruct blocks as [|b blocks]; [by exists prev|].
  destruct n as [|n]; [done|].
  cbn [cbc_chunks]. set (l := b :: blocks) in *. clearbody l. rust_step.
  destruct (aes_ecb_block key (xor_bytes (sub l 0 16) prev) Hk) as (c & Hc & Hcarr).
  { destruct Hp. split; [rewrite length_xor_bytes, length_sub; lia|auto with bytes]. }
  rewrite Hc. cbn [rbind]. apply (IH n); auto with bytes; rewrite length_drop; lia.
Qed.

Lemma valid_tag_len_le n : valid_tag_len n = true -> (n <= 16)%nat.
Proof.
  unfold valid_tag_len. rewrite !andb_true_iff, !Nat.leb_le. lia.
Qed.

(** For a key of 16 or 32 octets and a 13-octet nonce the tag is computed
    without a panic and has the requested length. *)
Lemma cbc_mac_ok key plaintext aad nonce n :
  tk_ok key -> wf_bytes plaintext -> wf_bytes aad -> arr 13 nonce -> valid_tag_len n = true ->
  exists tag, cbc_mac key plaintext aad nonce n = Val tag /\ arr n tag.
Proof.
  intros Hk Hp Ha [Hnl Hnw] Hn. unfold cbc_mac. rewrite Hn. cbn [negb].
  rewrite !push_until_spec by lia. cbn [rbind].
  rewrite !push_until_spec by lia. cbn [rbind].
  set (blocks := (_ ++ _ ++ plaintext) ++ _).
  assert (Hlen : exists m, length blocks = (16 * m)%nat).
  { assert (length blocks mod 16 = 0)%nat as Hmod.
    { subst blocks. rewrite length_app, length_replicate. apply pad_count_mod. lia. }
    exists (length blocks / 16)%nat. pose proof (Nat.div_mod_eq (length blocks) 16). lia. }
  destruct Hlen as [m Hm].
  assert (Hbw : wf_bytes blocks).
  { subst blocks. auto 20 with bytes. }
  destruct (cbc_chunks_ok key (S (length blocks)) m (replicate 16 0) blocks)
    as (t & Ht & Htl & Htw); auto with bytes.
  { split; [done|auto with bytes]. }
  rewrite Ht. cbn [rbind].
  destruct (aes_ecb_block key (a0_block nonce) Hk) as (s0 & Hs0 & Hs0l & Hs0w).
  { unfold a0_block. split; [len|]. auto 10 with bytes. }
  rewrite Hs0. cbn [rbind]. pose proof (valid_tag_len_le n Hn).
  rewrite slice_ok by len.
  eexists. split; [done|]. split; [rewrite length_sub by len; lia|auto with bytes].
Qed.

(** ** CCM *)

(** Decryption inverts encryption and accepts its tag ... *)
Theorem ccmp_decrypt_encrypt key nonce aad plaintext n :
  tk_ok key -> wf_bytes plaintext -> wf_bytes aad -> arr 13 nonce -> valid_tag_len n = true ->
  exists enc tag, run_ccmp_encrypt_with_tag key nonce aad plaintext n = Val (enc, tag) /\
    length enc = length plaintext /\ arr n tag /\ wf_bytes enc /\
    run_ccmp_decrypt_with_tag key nonce aad enc tag n = Val (plaintext, true).
Proof.
  intros Hk Hp Ha Hnc Hn.
  destruct (ctr_encrypt_involutive key nonce plaintext Hk) as (enc & He & Hl & Hw & Hd).
  destruct (cbc_mac_ok key plaintext aad nonce n Hk Hp Ha Hnc Hn) as (tag & Ht & Htl & Htw).
  exists enc, tag. unfold run_ccmp_encrypt_with_tag, run_ccmp_decrypt_with_tag.
  rewrite Hn, Ht, He, Hd. cbn [negb rbind orb]. rewrite (proj2 (Nat.eqb_eq _ _)) by done.
  cbn [negb]. rewrite Ht. cbn [rbind].
  rewrite constant_time_eq_spec, beq_refl by done.
  by repeat split; auto.
Qed.

(** ... and accepts nothing but the tag of the plaintext it returns. *)
Theorem ccmp_decrypt_accepts key nonce aad c tag n p :
  tk_ok key -> wf_bytes c -> wf_bytes aad -> wf_bytes tag -> arr 13 nonce ->
  run_ccmp_decrypt_with_tag key nonce aad c tag n = Val (p, true) ->
  ctr_encrypt key nonce c = Val p /\ cbc_mac key p aad nonce n = Val tag.
Proof.
  intros Hk Hc Ha Ht Hnc.
  destruct (ctr_encrypt_involutive key nonce c Hk) as (m & Hm & _ & Hw & _).
  unfold run_ccmp_decrypt_with_tag. rewrite Hm. cbn [rbind].
  destruct (valid_tag_len n) eqn:Hn; cbn [negb orb]; [|done].
  destruct (length tag =? n)%nat; cbn [negb]; [|done].
  destruct (cbc_mac_ok key m aad nonce n Hk (Hw Hc) Ha Hnc Hn) as (t & Hmt & _ & Htw).
  rewrite Hmt. cbn [rbind]. intros [= -> Heq].
  rewrite constant_time_eq_spec, beq_true in Heq by done. by subst.
Qed.

(** ** The PRFs *)

Definition prf_block (key label context : bytes) (out_len : nat) (c : Z) : bytes :=
  hmac_sha256 key (le_bytes 2 c ++ label ++ context ++ le_bytes 2 (u16 (Z.of_nat (out_len * 8)))).

Lemma sha256_prf_length key label context out_len :
  wf_bytes key -> wf_bytes label -> wf_bytes context ->
  exists out, sha256_prf key label context out_len = Val out /\ arr out_len out.
Proof.
  intros Hk Hl Hc. unfold sha256_prf.
  apply (loop_spec (fun st => (length st.1 <= out_len)%nat /\ wf_bytes st.1)
    (arr out_len) (fun st => out_len - length st.1)%nat); simpl; [|split; [lia|constructor]|lia].
  intros [out c] [Hle Hw]. simpl in *. unfold sha256_prf_step.
  destruct (Nat.ltb_spec (length out) out_len).
  - destruct (hmac_sha256_arr key (le_bytes 2 c ++ label ++ context ++
      le_bytes 2 (u16 (Z.of_nat (out_len * 8))))) as [Hbl Hbw]; [done|auto with bytes|].
    rewrite slice_ok by lia. cbn [rbind]. eexists. split; [done|]. cbn [fst].
    rewrite length_app, length_sub by lia. split; [split; [lia|auto with bytes]|lia].
  - eexists. split; [done|]. split; [lia|done].
Qed.

(** Both ends of the handshake feed the same octets to the PRF. *)
Lemma lex_sort_sym a b :
  (if lex_leb a b then (a, b) else (b, a)) = (if lex_leb b a then (b, a) else (a, b)).
Proof.
  destruct (lex_leb a b) eqn:E1, (lex_leb b a) eqn:E2; try done.
  - by rewrite (lex_leb_antisym a b).
  - destruct (lex_leb_total a b); congruence.
Qed.

Theorem ptk_sha256_symmetric pmk aa spa an sn n :
  derive_ptk_sha256_len pmk aa spa an sn n = derive_ptk_sha256_len pmk spa aa sn an n.
Proof. unfold derive_ptk_sha256_len. by rewrite (lex_sort_sym aa), (lex_sort_sym an). Qed.

Theorem prf512_symmetric pmk aa spa an sn :
  custom_prf512 pmk aa spa an sn = custom_prf512 pmk spa aa sn an.
Proof. unfold custom_prf512. by rewrite (lex_sort_sym aa), (lex_sort_sym an). Qed.

Lemma derive_ptk_sha256_ok pmk aa spa an sn n :
  wf_bytes pmk -> wf_bytes aa -> wf_bytes spa -> wf_bytes an -> wf_bytes sn ->
  n = 48%nat \/ n = 64%nat ->
  exists ptk, derive_ptk_sha256_len pmk aa spa an sn n = Val ptk /\ arr n ptk.
Proof.
  intros Hp Ha Hs Han Hsn Hn. unfold derive_ptk_sha256_len.
  replace ((n =? 48) || (n =? 64))%nat with true by (by destruct Hn; subst). cbn [negb].
  destruct (lex_leb aa spa), (lex_leb an sn); apply sha256_prf_length; auto with bytes;
    by apply (bool_decide_unpack _).
Qed.

Lemma custom_prf512_ok pmk aa spa an sn :
  wf_bytes pmk -> wf_bytes aa -> wf_bytes spa -> wf_bytes an -> wf_bytes sn ->
  exists ptk, custom_prf512 pmk aa spa an sn = Val ptk /\ arr 64 ptk.
Proof.
  intros Hp Ha Hs Han Hsn. unfold custom_prf512.
  assert (forall b, wf_bytes b -> exists ptk, slice (concat (map (fun i =>
    hmac_sha1 pmk (PAIRWISE_LABEL ++ [0x00] ++ b ++ [i])) (seqZ 0 4))) 0 64 = Val ptk /\ arr 64 ptk)
    as Hb.
  { intros b Hb.
    assert (Hm : forall i, is_byte i -> arr 20 (hmac_sha1 pmk (PAIRWISE_LABEL ++ [0x00] ++ b ++ [i]))).
    { intros i Hi. apply hmac_sha1_arr; [done|]. repeat apply wf_bytes_app; auto with bytes.
      by apply (bool_decide_unpack _). }
    destruct (Hm 0) as [H0 H0w], (Hm 1) as [H1 H1w], (Hm 2) as [H2 H2w], (Hm 3) as [H3 H3w];
      try (unfold is_byte; lia).
    change (seqZ 0 4) with [0; 1; 2; 3]. cbn [map concat].
    rewrite slice_ok by (rewrite ?length_app, ?H0, ?H1, ?H2, ?H3; simpl; lia).
    eexists. split; [done|]. apply arr_sub; [auto 10 with bytes| |done].
    rewrite !length_app, H0, H1, H2, H3. simpl. lia. }
  destruct (lex_leb aa spa), (lex_leb an sn); apply Hb; auto with bytes.
Qed.

End Modes.

(** * Properties of the primitives as the handshakes use them *)

Section Properties.
Context {P : Primitives} {Pok : PrimitivesOk P}.

(** C37: AES key wrap (RFC 3394, with the 64-bit counter folded into A): wrapping
    any positive number of 8-octet blocks succeeds, is one block longer, and
    unwraps to what was wrapped; and unwrapping answers on every octet string,
    an accepted one being one block longer than its plaintext. *)
Theorem key_wrap_correct kek :
  arr 16 kek ->
  (forall plain n, wf_bytes plain -> length plain = (8 * n)%nat -> (0 < n)%nat ->
     exists wrapped, aes_wrap kek plain = Val wrapped /\ length wrapped = (8 * S n)%nat /\
       wf_bytes wrapped /\ aes_unwrap kek wrapped = Val (Some plain)) /\
  (forall wrapped, wf_bytes wrapped ->
     exists o, aes_unwrap kek wrapped = Val o /\
       forall plain, o = Some plain -> (length plain + 8)%nat = length wrapped /\ wf_bytes plain).
Proof. intros Hk. split; intros; [by apply aes_unwrap_wrap|by apply aes_unwrap_total]. Qed.

(** CCM: decryption inverts encryption and accepts its tag, for every tag
    length the code allows; and whatever it accepts carries the CBC-MAC of the
    plaintext it returns under the same key, nonce and associated data. *)
Lemma ccm_correct key nonce aad n :
  tk_ok key -> wf_bytes aad -> arr 13 nonce -> valid_tag_len n = true ->
  (forall plaintext, wf_bytes plaintext ->
     exists enc tag, run_ccmp_encrypt_with_tag key nonce aad plaintext n = Val (enc, tag) /\
       length enc = length plaintext /\ arr n tag /\
       run_ccmp_decrypt_with_tag key nonce aad enc tag n = Val (plaintext, true)) /\
  (forall c tag p, wf_bytes c -> wf_bytes tag ->
     run_ccmp_decrypt_with_tag key nonce aad c tag n = Val (p, true) ->
     ctr_encrypt key nonce c = Val p /\ cbc_mac key p aad nonce n = Val tag).
Proof.
  intros Hk Ha Hn Hv. split.
  - intros plaintext Hp.
    destruct (ccmp_decrypt_encrypt key nonce aad plaintext n) as (enc & tag & H1 & H2 & H3 & _ & H4);
      try done. by exists enc, tag.
  - intros c tag p Hc Ht. by apply ccmp_decrypt_accepts.
Qed.

End Properties.

Lemma key_wrap_correct_witness :
  (forall plain n, wf_bytes plain -> length plain = (8 * n)%nat -> (0 < n)%nat ->
     exists wrapped, aes_wrap (replicate 16 7) plain = Val wrapped /\ length wrapped = (8 * S n)%nat /\
       wf_bytes wrapped /\ aes_unwrap (replicate 16 7) wrapped = Val (Some plain)) /\
  (forall wrapped, wf_bytes wrapped ->
     exists o, aes_unwrap (replicate 16 7) wrapped = Val o /\
       forall plain, o = Some plain -> (length plain + 8)%nat = length wrapped /\ wf_bytes plain).
Proof. apply key_wrap_correct. by apply (bool_decide_unpack _). Defined.
