(* ===== verification/Security.v ===== *)
(** Authentication and key-handshake structures: src/structures/security.rs.

    The pairwise suites, the security modes, the Key Information field with its
    accessors, the MIC algorithm an AKM selects and the EAPOL-Key body parser. *)
From S2P Require Import Prelude Crypto.

(** * Pairwise suites *)

Inductive DataCipher := Ccmp128 | Gcmp128 | Ccmp256 | Gcmp256.
Global Instance DataCipher_eq_dec : EqDecision DataCipher.
Proof. solve_decision. Defined.

Definition from_suite_type (suite_type : Z) : option DataCipher :=
  if suite_type =? 4 then Some Ccmp128
  else if suite_type =? 8 then Some Gcmp128
  else if suite_type =? 9 then Some Gcmp256
  else if suite_type =? 10 then Some Ccmp256
  else None.

Definition suite_type (c : DataCipher) : Z :=
  match c with Ccmp128 => 4 | Gcmp128 => 8 | Gcmp256 => 9 | Ccmp256 => 10 end.

Definition suite_selector (c : DataCipher) : Z := Z.lor 0x000fac00 (suite_type c).

Definition key_len (c : DataCipher) : nat :=
  match c with Ccmp128 | Gcmp128 => 16 | Ccmp256 | Gcmp256 => 32 end.

Lemma from_suite_type_spec t c : from_suite_type t = Some c <-> suite_type c = t.
Proof.
  unfold from_suite_type. split.
  - repeat case_match; intros; simplify_eq; simpl; lia.
  - by destruct c; intros <-.
Qed.

Inductive SecurityMode := Wpa2 | Wpa2PskSha256 | Wpa3Sae | Transition | Owe.
Global Instance SecurityMode_eq_dec : EqDecision SecurityMode.
Proof. solve_decision. Defined.

(** * Key Information *)

Record KeyInfo := {
  ki_encrypted_key_data : bool;
  ki_secure : bool;
  ki_has_key_mic : bool;
  ki_key_ack : bool;
  ki_install : bool;
  ki_key_type : bool;
  ki_descriptor_version : Z
}.

Definition key_info_to_u16 (k : KeyInfo) : Z :=
  let ki := 0 in
  let ki := Z.lor ki (Z.shiftl (Z.b2z (ki_encrypted_key_data k)) 12) in
  let ki := Z.lor ki (Z.shiftl (Z.b2z (ki_secure k)) 9) in
  let ki := Z.lor ki (Z.shiftl (Z.b2z (ki_has_key_mic k)) 8) in
  let ki := Z.lor ki (Z.shiftl (Z.b2z (ki_key_ack k)) 7) in
  let ki := Z.lor ki (Z.shiftl (Z.b2z (ki_install k)) 6) in
  let ki := Z.lor ki (Z.shiftl (Z.b2z (ki_key_type k)) 3) in
  Z.lor ki (Z.land (ki_descriptor_version k) 0x7).

(** * Key MIC *)

Inductive KeyMic := HmacSha1 | AesCmac | HmacSha256 | AesCmacV3.
Global Instance KeyMic_eq_dec : EqDecision KeyMic.
Proof. solve_decision. Defined.

Definition key_mic_select (sha256 owe : bool) : KeyMic :=
  if negb sha256 then HmacSha1 else if owe then HmacSha256 else AesCmac.

Definition mic_version (m : KeyMic) : Z :=
  match m with HmacSha1 => 2 | AesCmacV3 => 3 | _ => 0 end.

Section Mic.
Context {P : Primitives}.

Definition mic_compute (m : KeyMic) (kck data : bytes) : res bytes :=
  match m with
  | HmacSha1 => slice (hmac_sha1 kck data) 0 16
  | AesCmac | AesCmacV3 => aes_cmac kck data
  | HmacSha256 => slice (hmac_sha256 kck data) 0 16
  end.

Context {POk : PrimitivesOk P}.

Lemma mic_compute_ok m kck data :
  arr 16 kck -> wf_bytes data -> exists mic, mic_compute m kck data = Val mic /\ arr 16 mic.
Proof.
  intros Hk Hd. pose proof (proj2 Hk).
  destruct m; simpl; try by apply aes_cmac_ok.
  - destruct (hmac_sha1_arr kck data) as [Hl Hw]; [done|done|].
    rust_steps. eexists. split; [done|]. auto with bytes.
  - destruct (hmac_sha256_arr kck data) as [Hl Hw]; [done|done|].
    rust_steps. eexists. split; [done|]. auto with bytes.
Qed.
End Mic.

(** * EAPOL-Key bodies *)

Record EapolKey := {
  ek_key_info : Z;
  ek_key_length : Z;
  ek_replay_counter : Z;
  ek_nonce : bytes;
  ek_rsc : Z;
  ek_mic : bytes;
  ek_key_data : bytes;
  ek_mic_offset : nat
}.

Definition ek_flag (bit : Z) (e : EapolKey) : bool :=
  negb (Z.land (Z.shiftr (ek_key_info e) bit) 1 =? 0).

Definition ek_descriptor_version (e : EapolKey) : Z := u8 (Z.land (ek_key_info e) 0x0007).
Definition ek_is_pairwise (e : EapolKey) : bool := ek_flag 3 e.
Definition ek_install (e : EapolKey) : bool := ek_flag 6 e.
Definition ek_key_ack (e : EapolKey) : bool := ek_flag 7 e.
Definition ek_has_key_mic (e : EapolKey) : bool := ek_flag 8 e.
Definition ek_secure (e : EapolKey) : bool := ek_flag 9 e.
Definition ek_error (e : EapolKey) : bool := ek_flag 10 e.
Definition ek_request (e : EapolKey) : bool := ek_flag 11 e.
Definition ek_encrypted_key_data (e : EapolKey) : bool := ek_flag 12 e.

(** [EapolKey::parse]: 95 octets of header, then exactly the declared data. *)
Definition parse_eapol_key (body : bytes) : res (option EapolKey) :=
  if (length body <? 95)%nat then Val None
  else
    let! t := idx body 0 in
    if negb (t =? 2) then Val None
    else
      let! ki := slice body 1 3 in
      let! kl := slice body 3 5 in
      let! rc := slice body 5 13 in
      let! nonce := slice body 13 45 in
      let! rsc := slice body 61 69 in
      let mic_offset := 77%nat in
      let! mic := slice body mic_offset (mic_offset + 16) in
      let! kdl := slice body 93 95 in
      let e := (95 + Z.to_nat (be_val kdl))%nat in
      if negb (e =? length body)%nat then Val None
      else
        let! key_data := slice body 95 e in
        Val (Some {| ek_key_info := be_val ki; ek_key_length := be_val kl;
                     ek_replay_counter := be_val rc; ek_nonce := nonce;
                     ek_rsc := le_val rsc; ek_mic := mic; ek_key_data := key_data;
                     ek_mic_offset := mic_offset |}).

Definition eapol_key_ok (e : EapolKey) : Prop :=
  0 <= ek_key_info e < 2 ^ 16 /\ 0 <= ek_key_length e < 2 ^ 16 /\
  0 <= ek_replay_counter e < 2 ^ 64 /\ arr 32 (ek_nonce e) /\
  0 <= ek_rsc e < 2 ^ 64 /\ arr 16 (ek_mic e) /\ wf_bytes (ek_key_data e) /\
  Z.of_nat (length (ek_key_data e)) < 2 ^ 16 /\ ek_mic_offset e = 77%nat.

Lemma be_val_sub_range l i j n :
  wf_bytes l -> (i <= j)%nat -> (j <= length l)%nat -> n = 256 ^ Z.of_nat (j - i) ->
  0 <= be_val (sub l i j) < n.
Proof.
  intros Hw Hij Hj ->. pose proof (be_val_bound (sub l i j) ltac:(auto with bytes)) as Hb.
  by rewrite length_sub in Hb.
Qed.

Lemma le_val_sub_range l i j n :
  wf_bytes l -> (i <= j)%nat -> (j <= length l)%nat -> n = 256 ^ Z.of_nat (j - i) ->
  0 <= le_val (sub l i j) < n.
Proof.
  intros Hw Hij Hj ->. pose proof (le_val_bound (sub l i j) ltac:(auto with bytes)) as Hb.
  by rewrite length_sub in Hb.
Qed.

(** The parser returns on every input; what it accepts is in range, starts
    with the RSN descriptor and leaves no octet unaccounted for. *)
Lemma parse_eapol_key_total body :
  wf_bytes body ->
  exists o, parse_eapol_key body = Val o /\
    forall e, o = Some e ->
      eapol_key_ok e /\ nth 0 body 0 = 2 /\
      length body = (95 + length (ek_key_data e))%nat /\
      ek_mic e = sub body 77 93 /\ ek_nonce e = sub body 13 45 /\
      ek_key_data e = drop 95 body.
Proof.
  intros Hw. unfold parse_eapol_key.
  destruct (Nat.ltb_spec (length body) 95) as [|Hl]; [by eexists|]. rust_steps.
  destruct (Z.eqb_spec (nth 0 body 0) 2) as [H2|]; [|by eexists]. cbn [negb]. rust_steps.
  set (n := Z.to_nat (be_val (sub body 93 95))) in *.
  assert (Hn : 0 <= be_val (sub body 93 95) < 2 ^ 16)
    by (apply be_val_sub_range; auto with lia).
  destruct (Nat.eqb_spec (95 + n) (length body)) as [He|]; [|by eexists]. cbn [negb].
  rust_steps. replace (sub body 95 (95 + n)) with (drop 95 body)
    by (unfold sub; rewrite take_ge; [done|rewrite length_drop; lia]).
  eexists. split; [done|]. intros e [= <-]. cbn [ek_key_data ek_mic ek_nonce].
  split; [|split_and!; try done; rewrite length_drop; lia].
  assert (Z.of_nat (length (drop 95 body)) < 2 ^ 16) by (rewrite length_drop; lia).
  unfold eapol_key_ok; simpl.
  do 3 (split; [apply be_val_sub_range; auto with lia|]).
  split; [auto with bytes|]. split; [apply le_val_sub_range; auto with lia|].
  auto with bytes.
Qed.

(** Building a Key Information field and reading it back. *)
Definition ek_with_info (ki : Z) : EapolKey :=
  {| ek_key_info := ki; ek_key_length := 0; ek_replay_counter := 0; ek_nonce := [];
     ek_rsc := 0; ek_mic := []; ek_key_data := []; ek_mic_offset := 77 |}.

Lemma key_info_bits_all :
  forallb (fun v => forallb (fun b1 => forallb (fun b2 => forallb (fun b3 => forallb (fun b4 =>
    forallb (fun b5 => forallb (fun b6 =>
      let k := {| ki_encrypted_key_data := b1; ki_secure := b2; ki_has_key_mic := b3;
                  ki_key_ack := b4; ki_install := b5; ki_key_type := b6;
                  ki_descriptor_version := v |} in
      let e := ek_with_info (key_info_to_u16 k) in
      eqb (ek_encrypted_key_data e) b1 && eqb (ek_secure e) b2 && eqb (ek_has_key_mic e) b3 &&
      eqb (ek_key_ack e) b4 && eqb (ek_install e) b5 && eqb (ek_is_pairwise e) b6 &&
      (ek_descriptor_version e =? v) && negb (ek_error e) && negb (ek_request e) &&
      (0 <=? key_info_to_u16 k) && (key_info_to_u16 k <? 2 ^ 13))
    [true; false]) [true; false]) [true; false]) [true; false]) [true; false]) [true; false])
  (seqZ 0 8) = true.
Proof. by vm_compute. Qed.


Lemma key_info_roundtrip k :
  0 <= ki_descriptor_version k < 8 ->
  let e := ek_with_info (key_info_to_u16 k) in
  ek_encrypted_key_data e = ki_encrypted_key_data k /\ ek_secure e = ki_secure k /\
  ek_has_key_mic e = ki_has_key_mic k /\ ek_key_ack e = ki_key_ack k /\
  ek_install e = ki_install k /\ ek_is_pairwise e = ki_key_type k /\
  ek_descriptor_version e = ki_descriptor_version k /\ ek_error e = false /\ ek_request e = false /\
  0 <= key_info_to_u16 k < 2 ^ 13.
Proof.
  intros Hv e. subst e. pose proof key_info_bits_all as H.
  destruct k as [b1 b2 b3 b4 b5 b6 v]. cbn [ki_descriptor_version] in Hv.
  assert (Hb : forall b : bool, In b [true; false]) by (intros []; simpl; auto).
  rewrite forallb_forall in H. specialize (H v ltac:(apply list_elem_of_In, elem_of_seqZ; lia)).
  rewrite forallb_forall in H. specialize (H b1 (Hb b1)).
  rewrite forallb_forall in H. specialize (H b2 (Hb b2)).
  rewrite forallb_forall in H. specialize (H b3 (Hb b3)).
  rewrite forallb_forall in H. specialize (H b4 (Hb b4)).
  rewrite forallb_forall in H. specialize (H b5 (Hb b5)).
  rewrite forallb_forall in H. specialize (H b6 (Hb b6)).
  cbn zeta in H. set (k := Build_KeyInfo _ _ _ _ _ _ _) in *.
  rewrite !andb_true_iff, !eqb_true_iff, !negb_true_iff, !Z.eqb_eq, Z.leb_le, Z.ltb_lt in H.
  cbn [ki_encrypted_key_data ki_secure ki_has_key_mic ki_key_ack ki_install ki_key_type
       ki_descriptor_version]. tauto.
Qed.

Lemma mic_version_range m : 0 <= mic_version m < 8.
Proof. destruct m; simpl; lia. Qed.

Lemma key_info_range k : 0 <= ki_descriptor_version k < 8 -> 0 <= key_info_to_u16 k < 2 ^ 16.
Proof. intros H. destruct (key_info_roundtrip k H) as (_ & _ & _ & _ & _ & _ & _ & _ & _ & ?). lia. Qed.
