(* ===== verification/Frames.v ===== *)
(** IEEE 802.11 MAC frames: src/structures/common.rs (the parsed frame and its
    accessors), the header and fixed-field builders of
    src/frames/management.rs, the Authentication frames of src/auth/frames.rs
    and the Action frames of src/action_frames/. *)
From S2P Require Import Prelude Elements.

(** * Constants *)

Definition TYPE_MGMT : Z := 0.
Definition TYPE_DATA : Z := 2.
Definition SUBTYPE_ASSOC_REQ : Z := 0x00.
Definition SUBTYPE_ASSOC_RESP : Z := 0x01.
Definition SUBTYPE_REASSOC_REQ : Z := 0x02.
Definition SUBTYPE_REASSOC_RESP : Z := 0x03.
Definition SUBTYPE_PROBE_REQ : Z := 0x04.
Definition SUBTYPE_DISASSOC : Z := 0x0A.
Definition SUBTYPE_AUTH : Z := 0x0B.
Definition SUBTYPE_DEAUTH : Z := 0x0C.
Definition SUBTYPE_ACTION : Z := 0x0D.
Definition SUBTYPE_QOS_DATA : Z := 0x08.
Definition STATUS_ASSOC_REJECTED_TEMP : Z := 30.
Definition FC_TODS : Z := 0x01.
Definition FC_FROMDS : Z := 0x02.
Definition FC_PROTECTED : Z := 0x40.
Definition ETHERTYPE_EAPOL : Z := 0x888E.
Definition AUTH_ALG_OPEN : Z := 0.
Definition AUTH_ALG_SAE : Z := 3.
Definition CAP_3101 : bytes := [0x31; 0x01].

(** * The parsed frame *)

Record Dot11 := {
  fc0 : Z;
  fc1 : Z;
  addr1 : bytes;
  addr2 : bytes;
  addr3 : bytes;
  sc : Z;
  qos : option Z;
  body : bytes
}.
Global Instance Dot11_eq_dec : EqDecision Dot11.
Proof. solve_decision. Defined.

Definition fc_type (b : Z) : Z := Z.land (Z.shiftr b 2) 0x3.
Definition fc_subtype (b : Z) : Z := Z.land (Z.shiftr b 4) 0xF.
Definition has_bit (b m : Z) : bool := negb (Z.land b m =? 0).

Definition frame_type (d : Dot11) : Z := fc_type (fc0 d).
Definition subtype (d : Dot11) : Z := fc_subtype (fc0 d).
Definition to_ds (d : Dot11) : bool := has_bit (fc1 d) FC_TODS.
Definition from_ds (d : Dot11) : bool := has_bit (fc1 d) FC_FROMDS.
Definition protected (d : Dot11) : bool := has_bit (fc1 d) FC_PROTECTED.

(** [Dot11::parse]. *)
Definition parse (buf : bytes) : res (option Dot11) :=
  if (length buf <? 24)%nat then Val None
  else
    let! fc0 := idx buf 0 in
    let! fc1 := idx buf 1 in
    let frame_type := fc_type fc0 in
    let subtype := fc_subtype fc0 in
    let! a1 := slice buf 4 10 in
    let! a2 := slice buf 10 16 in
    let! a3 := slice buf 16 22 in
    let! sc := slice buf 22 24 in
    let off := 24%nat in
    let off := if has_bit fc1 FC_TODS && has_bit fc1 FC_FROMDS then (off + 6)%nat else off in
    let rest qos off :=
      if (length buf <? off)%nat then Val None
      else
        let! body := slice_from buf off in
        Val (Some {| fc0 := fc0; fc1 := fc1; addr1 := a1; addr2 := a2; addr3 := a3;
                     sc := le_val sc; qos := qos; body := body |}) in
    if (frame_type =? TYPE_DATA) && has_bit subtype 0x08 then
      if (length buf <? off + 2)%nat then Val None
      else let! q := slice buf off (off + 2) in rest (Some (le_val q)) (off + 2)%nat
    else rest None off.

Definition priority (d : Dot11) : Z :=
  match qos d with Some q => Z.land q 0x000F | None => 0 end.
Definition is_amsdu (d : Dot11) : bool :=
  match qos d with Some q => has_bit q 0x0080 | None => false end.
Definition is_fragment (d : Dot11) : bool :=
  has_bit (fc1 d) 0x04 || has_bit (sc d) 0x000F.

Definition SNAP_PREFIX : bytes := [0xAA; 0xAA; 0x03; 0x00; 0x00; 0x00].

(** The conjunction is lazy: the slices are only taken of a long enough body. *)
Definition is_eapol (d : Dot11) : res bool :=
  if (frame_type d =? TYPE_DATA) && negb (protected d) && (8 <=? length (body d))%nat then
    let! p := slice (body d) 0 6 in
    let! e := slice (body d) 6 8 in
    Val (beq p SNAP_PREFIX && beq e (be_bytes 2 ETHERTYPE_EAPOL))
  else Val false.

Definition eapol_frame (d : Dot11) : res (option bytes) :=
  let! e := is_eapol d in
  if negb e || (length (body d) <? 12)%nat then Val None
  else
    let! declared := slice (body d) 10 12 in
    let e := (12 + Z.to_nat (be_val declared))%nat in
    if (length (body d) <? e)%nat then Val None
    else let! f := slice (body d) 8 e in Val (Some f).

Definition eapol_key_body (d : Dot11) : res (option bytes) :=
  let? eapol := eapol_frame d in
  match get eapol 1 with
  | Some 3 => Val (get_range eapol 4 (length eapol))
  | _ => Val None
  end.

(** PN0 PN1 rsvd flags PN2 PN3 PN4 PN5, as the code numbers the octets. *)
Definition ccmp_pn (d : Dot11) : res (option Z) :=
  let b := body d in
  if (length b <? 8)%nat then Val None
  else
    let! b0 := idx b 0 in let! b1 := idx b 1 in let! b7 := idx b 7 in
    let! b6 := idx b 6 in let! b5 := idx b 5 in let! b4 := idx b 4 in
    Val (Some (Z.lor (Z.lor (Z.lor (Z.lor (Z.lor b0 (Z.shiftl b1 8)) (Z.shiftl b7 16))
                       (Z.shiftl b6 24)) (Z.shiftl b5 32)) (Z.shiftl b4 40))).

Definition ccmp_key_id (d : Dot11) : res Z :=
  if (length (body d) <? 4)%nat then Val 0
  else let! b := idx (body d) 3 in Val (Z.land (Z.shiftr b 6) 0x3).

Definition ccmp_data (d : Dot11) : res (option bytes) :=
  if (length (body d) <? 8)%nat then Val None
  else let! c := slice_from (body d) 8 in Val (Some c).

(** * Builders *)

Definition build_fc0 (frame_type subtype : Z) : Z :=
  Z.lor (u8 (Z.shiftl subtype 4)) (u8 (Z.shiftl frame_type 2)).

Definition dot11_header (frame_type subtype flags : Z) (a1 a2 a3 : bytes) (sc : Z) : bytes :=
  [build_fc0 frame_type subtype; flags; 0; 0] ++ a1 ++ a2 ++ a3 ++ le_bytes 2 sc.

Definition llc_snap (ethertype : Z) : bytes := SNAP_PREFIX ++ be_bytes 2 ethertype.

Definition build_auth (bssid dst : bytes) (sc : Z) : bytes :=
  dot11_header TYPE_MGMT SUBTYPE_AUTH 0 dst bssid bssid sc
  ++ le_bytes 2 0 ++ le_bytes 2 2 ++ le_bytes 2 0.

Definition build_auth_reject (bssid dst : bytes) (sc status : Z) : bytes :=
  dot11_header TYPE_MGMT SUBTYPE_AUTH 0 dst bssid bssid sc
  ++ le_bytes 2 AUTH_ALG_OPEN ++ le_bytes 2 2 ++ le_bytes 2 status.

Definition build_sae_auth (a1 a2 a3 : bytes) (flags sc seq status : Z) (payload : bytes) : bytes :=
  dot11_header TYPE_MGMT SUBTYPE_AUTH flags a1 a2 a3 sc
  ++ le_bytes 2 AUTH_ALG_SAE ++ le_bytes 2 seq ++ le_bytes 2 status ++ payload.

Definition build_auth_req (bssid sta : bytes) (sc : Z) : bytes :=
  dot11_header TYPE_MGMT SUBTYPE_AUTH 0 bssid sta bssid sc
  ++ le_bytes 2 0 ++ le_bytes 2 1 ++ le_bytes 2 0.

Definition build_deauth (bssid dst : bytes) (reason : Z) : bytes :=
  dot11_header TYPE_MGMT SUBTYPE_DEAUTH 0 dst bssid bssid 0 ++ le_bytes 2 reason.

Definition build_assoc_resp_comeback (bssid sta : bytes) (comeback_ms sc : Z) : bytes :=
  dot11_header TYPE_MGMT SUBTYPE_ASSOC_RESP 0 sta bssid bssid sc
  ++ CAP_3101 ++ le_bytes 2 STATUS_ASSOC_REJECTED_TEMP ++ le_bytes 2 0
  ++ [56; 5; 3] ++ le_bytes 4 comeback_ms.

Definition build_assoc_resp_reject (bssid sta : bytes) (status resp_subtype sc : Z) : bytes :=
  dot11_header TYPE_MGMT resp_subtype 0 sta bssid bssid sc
  ++ CAP_3101 ++ le_bytes 2 status ++ le_bytes 2 0.

(** The plaintext MPDU handed to the kernel: [!FC_PROTECTED] clears the bit. *)
Definition rebuild_plaintext_mgmt (frame : Dot11) (addresses : option (bytes * bytes * bytes))
    (b : bytes) : bytes :=
  let '(a1, a2, a3) :=
    match addresses with Some a => a | None => (addr1 frame, addr2 frame, addr3 frame) end in
  dot11_header TYPE_MGMT (subtype frame) (Z.land (fc1 frame) (Z.lxor FC_PROTECTED 0xff))
    a1 a2 a3 (sc frame) ++ b.

Definition parse_deauth_reason (b : bytes) : res (option Z) :=
  if (2 <=? length b)%nat then
    let! r := slice b 0 2 in Val (Some (le_val r))
  else Val None.

Record AuthBody := { auth_algo : Z; auth_seq : Z; auth_status : Z; auth_payload : bytes }.

Definition parse_auth (b : bytes) : res (option AuthBody) :=
  if (length b <? 6)%nat then Val None
  else
    let! a := slice b 0 2 in
    let! s := slice b 2 4 in
    let! st := slice b 4 6 in
    let! p := slice_from b 6 in
    Val (Some {| auth_algo := le_val a; auth_seq := le_val s; auth_status := le_val st;
                auth_payload := p |}).

(** ** Action frames *)

Definition build_action_frame (a1 a2 a3 : bytes) (sc : Z) (b : bytes) : bytes :=
  [Z.lor (u8 (Z.shiftl SUBTYPE_ACTION 4)) (u8 (Z.shiftl TYPE_MGMT 2)); 0; 0; 0]
  ++ a1 ++ a2 ++ a3 ++ le_bytes 2 sc ++ b.

Definition ACTION_CATEGORY_SA_QUERY : Z := 8.
Definition SA_QUERY_REQUEST : Z := 0.
Definition SA_QUERY_RESPONSE : Z := 1.

(** The body built in [build_protected_sa_query_for_cipher_sec]. *)
Definition sa_query_body (response : bool) (transaction_id : Z) : bytes :=
  [ACTION_CATEGORY_SA_QUERY; if response then SA_QUERY_RESPONSE else SA_QUERY_REQUEST]
  ++ le_bytes 2 transaction_id.

Definition parse_sa_query (b : bytes) : res (option (Z * Z)) :=
  if (4 <=? length b)%nat then
    let! c := idx b 0 in
    if c =? ACTION_CATEGORY_SA_QUERY then
      let! a := idx b 1 in
      let! t := slice b 2 4 in
      Val (Some (a, le_val t))
    else Val None
  else Val None.

Definition ACTION_CATEGORY_S1G : Z := 23.
Definition S1G_ACT_TWT_SETUP : Z := 6.
Definition EID_TWT : Z := 216.
Definition TWT_SETUP_CMD_ACCEPT : Z := 4.

Definition parse_twt_setup (b : bytes) : res (option (Z * bytes)) :=
  if (length b <? 4)%nat then Val None
  else
    let! c := idx b 0 in
    if negb (c =? ACTION_CATEGORY_S1G) then Val None
    else
      let! a := idx b 1 in
      if negb (a =? S1G_ACT_TWT_SETUP) then Val None
      else
        let! dialog := idx b 2 in
        let! twt := slice_from b 3 in
        if (length twt <? 2)%nat then Val None
        else
          let! id := idx twt 0 in
          if negb (id =? EID_TWT) then Val None
          else
            let! l := idx twt 1 in
            let element_len := Z.to_nat l in
            if (length twt <? 2 + element_len)%nat || (element_len <? 15)%nat then Val None
            else
              let! rt := slice twt 3 5 in
              if Z.land (le_val rt) 0x0001 =? 0 then Val None
              else let! e := slice twt 0 (2 + element_len) in Val (Some (dialog, e)).

Definition build_twt_setup_response (bssid sta : bytes) (dialog : Z) (requested_twt : bytes)
    (sc : Z) : res bytes :=
  let! twt :=
    if (5 <=? length requested_twt)%nat then
      let! rt := slice requested_twt 3 5 in
      let request_type := Z.land (le_val rt) (Z.lxor 0x000F 0xffff) in
      let request_type := Z.lor request_type (u16 (Z.shiftl TWT_SETUP_CMD_ACCEPT 1)) in
      let encoded := le_bytes 2 request_type in
      let! e0 := idx encoded 0 in
      let! e1 := idx encoded 1 in
      Val (<[4%nat := e1]> (<[3%nat := e0]> requested_twt))
    else Val requested_twt in
  Val (build_action_frame sta bssid bssid sc
         ([ACTION_CATEGORY_S1G; S1G_ACT_TWT_SETUP; dialog] ++ twt)).

(** * The wire format of a frame

    [wire d dur a4] are the octets of the frame [d] with the duration field
    [dur] and the fourth address [a4], which the parser skips. *)
Definition wire (d : Dot11) (dur a4 : bytes) : bytes :=
  [fc0 d; fc1 d] ++ dur ++ addr1 d ++ addr2 d ++ addr3 d ++ le_bytes 2 (sc d)
  ++ a4 ++ match qos d with Some q => le_bytes 2 q | None => [] end ++ body d.

Definition a4_len (d : Dot11) : nat := if to_ds d && from_ds d then 6 else 0.
Definition is_qos (d : Dot11) : bool :=
  (frame_type d =? TYPE_DATA) && has_bit (subtype d) 0x08.

Definition dot11_ok (d : Dot11) : Prop :=
  is_byte (fc0 d) /\ is_byte (fc1 d) /\ arr 6 (addr1 d) /\ arr 6 (addr2 d) /\ arr 6 (addr3 d) /\
  0 <= sc d < 2 ^ 16 /\ wf_bytes (body d) /\
  match qos d with Some q => 0 <= q < 2 ^ 16 /\ is_qos d = true | None => is_qos d = false end.

Lemma le_val_le_bytes2 z : 0 <= z < 2 ^ 16 -> le_val (le_bytes 2 z) = z.
Proof. intros. apply le_bytes_small. done. Qed.

Lemma le_val_of l z : l = le_bytes 2 z -> 0 <= z < 2 ^ 16 -> le_val l = z.
Proof. intros ->. apply le_val_le_bytes2. Qed.

Lemma parse_wire d dur a4 :
  dot11_ok d -> arr 2 dur -> arr (a4_len d) a4 -> parse (wire d dur a4) = Val (Some d).
Proof.
  intros (H0 & H1 & [Ha1 _] & [Ha2 _] & [Ha3 _] & Hsc & Hb & Hq) [Hd _] [H4 _].
  unfold parse. set (w := wire d dur a4).
  set (ql := match qos d with Some q => le_bytes 2 q | None => [] end).
  assert (Hlen : length w = (24 + length a4 + length ql + length (body d))%nat)
    by (unfold w, wire, ql; len).
  rewrite (proj2 (Nat.ltb_ge _ _)) by lia. rust_steps.
  change (nth 0 w 0) with (fc0 d). change (nth 1 w 0) with (fc1 d).
  replace (sub w 4 10) with (addr1 d) by (unfold w, wire; symmetry; peel).
  replace (sub w 10 16) with (addr2 d) by (unfold w, wire; symmetry; peel).
  replace (sub w 16 22) with (addr3 d) by (unfold w, wire; symmetry; peel).
  replace (sub w 22 24) with (le_bytes 2 (sc d)) by (unfold w, wire; symmetry; peel).
  rewrite le_val_le_bytes2 by done.
  fold (frame_type d) (subtype d) (to_ds d) (from_ds d) (is_qos d).
  replace (if to_ds d && from_ds d then (24 + 6)%nat else 24%nat) with (24 + length a4)%nat
    by (rewrite H4; unfold a4_len; by destruct (to_ds d && from_ds d)).
  assert (Hbody : drop (24 + length a4 + length ql) w = body d).
  { unfold w, wire. fold ql. rewrite !app_assoc. apply drop_app_length'. len. }
  destruct (qos d) as [q|] eqn:Eq.
  - destruct Hq as [Hq ->].
    assert (length ql = 2%nat) by (unfold ql; len).
    rewrite (proj2 (Nat.ltb_ge _ _)) by lia.
    rewrite slice_ok by lia.
    replace (sub w (24 + length a4) (24 + length a4 + 2)) with (le_bytes 2 q)
      by (unfold w, wire; rewrite Eq; symmetry; peel). cbn [rbind].
    rewrite slice_from_ok by lia. cbn [rbind]. rewrite le_val_le_bytes2 by done.
    replace (24 + length a4 + 2)%nat with (24 + length a4 + length ql)%nat by lia.
    rewrite Hbody, <- Eq. by destruct d.
  - rewrite Hq. rewrite (proj2 (Nat.ltb_ge _ _)) by lia.
    rewrite slice_from_ok by lia. cbn [rbind].
    replace (24 + length a4)%nat with (24 + length a4 + length ql)%nat by (unfold ql; len).
    rewrite Hbody, <- Eq. by destruct d.
Qed.


(** Every octet string is parsed or rejected, and what is accepted is the wire
    format of the frame that is returned. *)
Lemma parse_sound buf :
  wf_bytes buf ->
  exists o, parse buf = Val o /\
    forall d, o = Some d ->
      exists dur a4, dot11_ok d /\ arr 2 dur /\ arr (a4_len d) a4 /\ buf = wire d dur a4.
Proof.
  intros Hw. unfold parse.
  destruct (Nat.ltb_spec (length buf) 24) as [|Hl]; [by eexists|]. rust_steps.
  set (f0 := nth 0 buf 0). set (f1 := nth 1 buf 0).
  set (off := if has_bit f1 FC_TODS && has_bit f1 FC_FROMDS then (24 + 6)%nat else 24%nat).
  assert (Hoff : (24 <= off)%nat) by (unfold off; destruct (_ && _); lia).
  assert (Hhdr : forall k, (24 <= k)%nat -> buf = [f0; f1] ++ sub buf 2 4 ++ sub buf 4 10 ++
            sub buf 10 16 ++ sub buf 16 22 ++ sub buf 22 24 ++ sub buf 24 k ++ drop k buf).
  { intros k Hk. rewrite !sub_cat_drop by lia.
    unfold f0, f1. rewrite <- (drop_0 buf) at 1. rewrite !drop_nth by lia. done. }
  assert (Hscv : 0 <= le_val (sub buf 22 24) < 2 ^ 16).
  { pose proof (le_val_bound (sub buf 22 24) ltac:(auto with bytes)) as H.
    rewrite length_sub in H by lia. done. }
  assert (Hsc : le_bytes 2 (le_val (sub buf 22 24)) = sub buf 22 24).
  { rewrite <- (le_bytes_val (sub buf 22 24)) at 2 by auto with bytes.
    by rewrite length_sub by lia. }
  destruct (_ && has_bit (fc_subtype f0) 8) eqn:Eqos.
  - destruct (Nat.ltb_spec (length buf) (off + 2)) as [|Hl2]; [by eexists|]. rust_steps.
    eexists. split; [done|]. intros d [= <-]. exists (sub buf 2 4), (sub buf 24 off).
    assert (Hq : 0 <= le_val (sub buf off (off + 2)) < 2 ^ 16).
    { pose proof (le_val_bound (sub buf off (off + 2)) ltac:(auto with bytes)) as H.
      rewrite length_sub in H by lia. by replace (off + 2 - off)%nat with 2%nat in H by lia. }
    split; [|split; [|split]].
    + unfold dot11_ok; cbn. repeat (split; [subst f0 f1; auto with bytes|]); done.
    + auto with bytes.
    + apply arr_sub; [done|lia|]. unfold a4_len, to_ds, from_ds; cbn. fold f1.
      unfold off. by destruct (_ && _).
    + unfold wire; cbn. rewrite Hsc, (Hhdr off) at 1 by lia.
      assert (Hqb : le_bytes 2 (le_val (sub buf off (off + 2))) = sub buf off (off + 2)).
      { rewrite <- (le_bytes_val (sub buf off (off + 2))) at 2 by auto with bytes.
        rewrite length_sub by lia. f_equal. lia. }
      rewrite Hqb, (sub_cat_drop buf off) by lia. done.
  - destruct (Nat.ltb_spec (length buf) off) as [|Hl2]; [by eexists|]. rust_steps.
    eexists. split; [done|]. intros d [= <-]. exists (sub buf 2 4), (sub buf 24 off).
    split; [|split; [|split]].
    + unfold dot11_ok; cbn. repeat (split; [subst f0 f1; auto with bytes|]); done.
    + auto with bytes.
    + apply arr_sub; [done|lia|]. unfold a4_len, to_ds, from_ds; cbn. fold f1.
      unfold off. by destruct (_ && _).
    + unfold wire; cbn. rewrite Hsc, (Hhdr off) at 1 by lia. done.
Qed.

(** * Frames the builders make *)

Lemma fc0_fields_all :
  forallb (fun ft => forallb (fun st =>
    (fc_type (build_fc0 ft st) =? ft) && (fc_subtype (build_fc0 ft st) =? st)
    && bool_decide (is_byte (build_fc0 ft st))) (seqZ 0 16)) (seqZ 0 4) = true.
Proof. by vm_compute. Qed.

Lemma fc0_fields ft st :
  0 <= ft < 4 -> 0 <= st < 16 ->
  fc_type (build_fc0 ft st) = ft /\ fc_subtype (build_fc0 ft st) = st /\ is_byte (build_fc0 ft st).
Proof.
  intros Hft Hst. pose proof fc0_fields_all as H.
  rewrite forallb_forall in H. specialize (H ft).
  rewrite forallb_forall in H. specialize (H ltac:(apply list_elem_of_In, elem_of_seqZ; lia) st).
  specialize (H ltac:(apply list_elem_of_In, elem_of_seqZ; lia)).
  rewrite !andb_true_iff, !Z.eqb_eq, bool_decide_eq_true in H. tauto.
Qed.

Lemma length_dot11_header ft st fl a1 a2 a3 s :
  arr 6 a1 -> arr 6 a2 -> arr 6 a3 -> length (dot11_header ft st fl a1 a2 a3 s) = 24%nat.
Proof. intros [] [] []. unfold dot11_header. len. Qed.

(** A header with at most one DS bit, for a subtype without QoS Control. *)
Lemma parse_header ft st fl a1 a2 a3 s b :
  0 <= ft < 4 -> 0 <= st < 16 -> is_byte fl ->
  has_bit fl FC_TODS && has_bit fl FC_FROMDS = false ->
  (ft =? TYPE_DATA) && has_bit st 0x08 = false ->
  arr 6 a1 -> arr 6 a2 -> arr 6 a3 -> 0 <= s < 2 ^ 16 -> wf_bytes b ->
  parse (dot11_header ft st fl a1 a2 a3 s ++ b)
    = Val (Some {| fc0 := build_fc0 ft st; fc1 := fl; addr1 := a1; addr2 := a2; addr3 := a3;
                   sc := s; qos := None; body := b |}).
Proof.
  intros Hft Hst Hfl Hds Hqos H1 H2 H3 Hs Hb.
  destruct (fc0_fields ft st Hft Hst) as (Et & Es & Hf0).
  set (d := Build_Dot11 _ _ _ _ _ _ _ _).
  replace (dot11_header ft st fl a1 a2 a3 s ++ b) with (wire d [0; 0] [])
    by (unfold wire, dot11_header; cbn; by rewrite <- !app_assoc).
  apply parse_wire.
  - unfold dot11_ok, is_qos, frame_type, subtype; cbn.
    rewrite Et, Es. do 7 (split; [done|]). done.
  - split; [done|]. auto with bytes.
  - unfold a4_len, to_ds, from_ds; cbn. rewrite Hds. split; [done|constructor].
Qed.

(** A QoS Data header. *)
Lemma parse_header_qos fl a1 a2 a3 s q b :
  is_byte fl -> has_bit fl FC_TODS && has_bit fl FC_FROMDS = false ->
  arr 6 a1 -> arr 6 a2 -> arr 6 a3 -> 0 <= s < 2 ^ 16 -> 0 <= q < 2 ^ 16 -> wf_bytes b ->
  parse (dot11_header TYPE_DATA SUBTYPE_QOS_DATA fl a1 a2 a3 s ++ le_bytes 2 q ++ b)
    = Val (Some {| fc0 := 0x88; fc1 := fl; addr1 := a1; addr2 := a2; addr3 := a3;
                   sc := s; qos := Some q; body := b |}).
Proof.
  intros Hfl Hds H1 H2 H3 Hs Hq Hb.
  set (d := Build_Dot11 _ _ _ _ _ _ _ _).
  replace (dot11_header TYPE_DATA SUBTYPE_QOS_DATA fl a1 a2 a3 s ++ le_bytes 2 q ++ b)
    with (wire d [0; 0] []) by (unfold wire, dot11_header; cbn; by rewrite <- !app_assoc).
  apply parse_wire.
  - unfold dot11_ok; cbn. split; [unfold is_byte; lia|]. do 6 (split; [done|]). done.
  - split; [done|]. auto with bytes.
  - unfold a4_len, to_ds, from_ds; cbn. rewrite Hds. split; [done|constructor].
Qed.

(** ** EAPOL framing *)

Lemma snap_slices e b :
  sub (llc_snap e ++ b) 0 6 = SNAP_PREFIX /\ sub (llc_snap e ++ b) 6 8 = be_bytes 2 e.
Proof. unfold llc_snap. rewrite <- app_assoc. split; peel. Qed.

Lemma length_llc_snap e : length (llc_snap e) = 8%nat.
Proof. unfold llc_snap. len. Qed.
#[export] Hint Rewrite length_llc_snap : len.

(** The EAPOL PDU of an unprotected Data frame is what the header declares;
    link-layer padding after it is dropped. *)
Lemma eapol_frame_spec d v t (b pad : bytes) :
  frame_type d = TYPE_DATA -> protected d = false -> Z.of_nat (length b) < 2 ^ 16 ->
  body d = llc_snap ETHERTYPE_EAPOL ++ ([v; t] ++ be_bytes 2 (Z.of_nat (length b)) ++ b) ++ pad ->
  eapol_frame d = Val (Some ([v; t] ++ be_bytes 2 (Z.of_nat (length b)) ++ b)).
Proof.
  intros Hft Hp Hlen Hb. unfold eapol_frame, is_eapol. rewrite Hft, Hp. cbn [andb negb Z.eqb].
  set (p := [v; t] ++ be_bytes 2 (Z.of_nat (length b)) ++ b) in *.
  assert (Hpl : length p = (4 + length b)%nat) by (unfold p; len).
  assert (Hbl : length (body d) = (12 + length b + length pad)%nat) by (rewrite Hb; len).
  rewrite Hbl. change (TYPE_DATA =? TYPE_DATA) with true.
  rewrite (proj2 (Nat.leb_le 8 _)) by lia. cbn [andb].
  rewrite (slice_ok _ 0 6), (slice_ok _ 6 8) by lia. cbn [rbind].
  destruct (snap_slices ETHERTYPE_EAPOL (p ++ pad)) as [E1 E2]. rewrite Hb, E1, E2, !beq_refl.
  cbn [andb negb orb]. rewrite (proj2 (Nat.ltb_ge _ 12)) by lia.
  rewrite slice_ok by len.
  replace (sub _ 10 12) with (be_bytes 2 (Z.of_nat (length b)))
    by (symmetry; unfold p; peel).
  cbn [rbind]. rewrite be_bytes_small by (simpl; lia). rewrite Nat2Z.id.
  rewrite (proj2 (Nat.ltb_ge _ _)) by lia. rewrite slice_ok by len. cbn [rbind].
  do 2 f_equal. peel.
Qed.

Lemma eapol_key_body_spec d v (b pad : bytes) :
  frame_type d = TYPE_DATA -> protected d = false -> Z.of_nat (length b) < 2 ^ 16 ->
  body d = llc_snap ETHERTYPE_EAPOL ++ ([v; 3] ++ be_bytes 2 (Z.of_nat (length b)) ++ b) ++ pad ->
  eapol_key_body d = Val (Some b).
Proof.
  intros Hft Hp Hlen Hb. unfold eapol_key_body.
  rewrite (eapol_frame_spec d v 3 b pad Hft Hp Hlen Hb). cbn [obind rbind].
  change (get ([v; 3] ++ be_bytes 2 (Z.of_nat (length b)) ++ b) 1) with (Some 3). cbn [Z.eqb].
  rewrite get_range_ok by len. do 2 f_equal. peel.
Qed.

(** ** No accessor panics *)

Lemma is_eapol_total d : exists b, is_eapol d = Val b /\
  (b = true -> frame_type d = TYPE_DATA /\ protected d = false /\ (8 <= length (body d))%nat /\
     sub (body d) 0 6 = SNAP_PREFIX /\ sub (body d) 6 8 = be_bytes 2 ETHERTYPE_EAPOL).
Proof.
  unfold is_eapol. destruct (Z.eqb_spec (frame_type d) TYPE_DATA) as [Ht|]; cbn [andb];
    [|by eexists]. destruct (protected d) eqn:Hp; cbn [andb negb]; [by eexists|].
  destruct (Nat.leb_spec 8 (length (body d))); [|by eexists]. rust_steps.
  eexists. split; [done|]. rewrite andb_true_iff, !beq_true. tauto.
Qed.

Lemma eapol_frame_total d : wf_bytes (body d) ->
  exists o, eapol_frame d = Val o /\
    forall f, o = Some f ->
      frame_type d = TYPE_DATA /\ protected d = false /\ wf_bytes f /\ (4 <= length f)%nat /\
      f = sub (body d) 8 (8 + length f) /\ be_val (sub f 2 4) = Z.of_nat (length f) - 4.
Proof.
  intros Hw. unfold eapol_frame. destruct (is_eapol_total d) as (b & -> & Hb). cbn [rbind].
  destruct b; cbn [negb orb]; [|by eexists].
  destruct (Hb eq_refl) as (Ht & Hp & _).
  destruct (Nat.ltb_spec (length (body d)) 12); [by eexists|]. rust_steps.
  assert (Hr : 0 <= be_val (sub (body d) 10 12) < 2 ^ 16).
  { pose proof (be_val_bound (sub (body d) 10 12) ltac:(auto with bytes)) as H'.
    by rewrite length_sub in H' by lia. }
  set (n := Z.to_nat (be_val (sub (body d) 10 12))) in *.
  destruct (Nat.ltb_spec (length (body d)) (12 + n)); [by eexists|]. rust_steps.
  eexists. split; [done|]. intros f [= <-].
  rewrite length_sub by lia.
  split; [done|]. split; [done|]. split; [auto with bytes|]. split; [lia|].
  split; [f_equal; lia|].
  unfold sub at 1. rewrite drop_sub, take_sub by lia. cbn [Nat.add].
  change (8 + 2)%nat with 10%nat. cbn [Nat.sub Nat.add]. lia.
Qed.

Lemma eapol_key_body_total d : wf_bytes (body d) ->
  exists o, eapol_key_body d = Val o /\
    forall b, o = Some b -> wf_bytes b /\ frame_type d = TYPE_DATA /\ protected d = false /\
      exists f, eapol_frame d = Val (Some f) /\ nth 1 f 0 = 3 /\ b = drop 4 f.
Proof.
  intros Hw. unfold eapol_key_body.
  destruct (eapol_frame_total d Hw) as ([f|] & -> & Hf); cbn [obind rbind]; [|by eexists].
  destruct (Hf f eq_refl) as (Ht & Hp & Hwf & Hlen & _ & _).
  unfold get. destruct (f !! 1%nat) as [k|] eqn:Ek; [|by eexists].
  assert (Hk : nth 1 f 0 = k) by (by apply nth_lookup_Some).
  destruct (decide (k = 3)) as [->|Hne].
  - rewrite get_range_ok by lia. eexists. split; [done|]. intros b [= <-].
    split; [auto with bytes|]. do 2 (split; [done|]). exists f.
    split; [done|]. split; [done|]. unfold sub. rewrite take_ge; [done|]. rewrite length_drop. lia.
  - exists None. split; [|done]. destruct k as [|[[p|p|]|p|]|p]; try done.
Qed.

Lemma ccmp_pn_total d : wf_bytes (body d) ->
  exists o, ccmp_pn d = Val o /\
    (o = None <-> (length (body d) < 8)%nat) /\ (forall pn, o = Some pn -> 0 <= pn < 2 ^ 48).
Proof.
  intros Hw. unfold ccmp_pn. destruct (Nat.ltb_spec (length (body d)) 8) as [Hl|Hl].
  { eexists. split; [done|]. by split. }
  rust_steps. eexists. split; [done|]. split; [split; [done|lia]|]. intros pn [= <-].
  assert (Hsh : forall i k, 0 <= k <= 40 -> 0 <= Z.shiftl (nth i (body d) 0) k < 2 ^ 48).
  { intros i k Hk. pose proof (wf_bytes_nth _ i Hw) as Hb. unfold is_byte in Hb.
    rewrite Z.shiftl_mul_pow2 by lia.
    assert (0 < 2 ^ k <= 2 ^ 40) by (split; [lia|apply Z.pow_le_mono_r; lia]). nia. }
  pose proof (Hsh 0%nat 0 ltac:(lia)) as H0. rewrite Z.shiftl_0_r in H0.
  repeat apply lor_range; try lia; apply Hsh; lia.
Qed.

Lemma ccmp_data_total d : exists o, ccmp_data d = Val o /\
  forall c, o = Some c -> c = drop 8 (body d) /\ (8 <= length (body d))%nat.
Proof.
  unfold ccmp_data. destruct (Nat.ltb_spec (length (body d)) 8); [by eexists|]. rust_steps.
  eexists. split; [done|]. by intros c [= <-].
Qed.

Lemma ccmp_key_id_total d : wf_bytes (body d) ->
  exists k, ccmp_key_id d = Val k /\ 0 <= k < 4.
Proof.
  intros Hw. unfold ccmp_key_id. destruct (Nat.ltb_spec (length (body d)) 4); [by eexists|].
  rust_steps. eexists. split; [done|]. change 0x3 with (Z.ones 2).
  rewrite Z.land_ones by lia. apply Z.mod_pos_bound. lia.
Qed.

Lemma parse_auth_total b : wf_bytes b -> exists o, parse_auth b = Val o /\
  (o = None <-> (length b < 6)%nat) /\
  forall a, o = Some a -> b = le_bytes 2 (auth_algo a) ++ le_bytes 2 (auth_seq a)
                              ++ le_bytes 2 (auth_status a) ++ auth_payload a.
Proof.
  intros Hw. unfold parse_auth. destruct (Nat.ltb_spec (length b) 6); [by eexists|].
  rust_steps. eexists. split; [done|]. split; [split; [done|lia]|].
  intros a [= <-]. cbn.
  assert (Hle : forall i, (i + 2 <= length b)%nat -> le_bytes 2 (le_val (sub b i (i + 2))) = sub b i (i + 2)).
  { intros i Hi. rewrite <- (le_bytes_val (sub b i (i + 2))) at 2 by auto with bytes.
    rewrite length_sub by lia. f_equal. lia. }
  pose proof (Hle 0%nat) as E0. pose proof (Hle 2%nat) as E2. pose proof (Hle 4%nat) as E4.
  cbn [Nat.add] in *. rewrite E0, E2, E4 by lia.
  by rewrite !sub_cat_drop by lia.
Qed.

Lemma parse_auth_build al s st p :
  0 <= al < 2 ^ 16 -> 0 <= s < 2 ^ 16 -> 0 <= st < 2 ^ 16 ->
  parse_auth (le_bytes 2 al ++ le_bytes 2 s ++ le_bytes 2 st ++ p)
    = Val (Some {| auth_algo := al; auth_seq := s; auth_status := st; auth_payload := p |}).
Proof.
  intros. unfold parse_auth.
  rewrite (proj2 (Nat.ltb_ge _ _)) by len. rust_steps.
  do 3 f_equal.
  - apply le_val_of; [peel|done].
  - apply le_val_of; [peel|done].
  - apply le_val_of; [peel|done].
Qed.

Lemma parse_sa_query_build r t :
  0 <= t < 2 ^ 16 ->
  parse_sa_query (sa_query_body r t)
    = Val (Some (if r then SA_QUERY_RESPONSE else SA_QUERY_REQUEST, t)).
Proof.
  intros. unfold parse_sa_query, sa_query_body.
  rewrite (proj2 (Nat.leb_le _ _)) by len. rust_steps. cbn [nth app].
  rewrite Z.eqb_refl. do 3 f_equal. apply le_val_of; [|done].
  unfold sub. cbn [drop]. apply take_ge. len.
Qed.

(** ** Target wake time

    An accepted set-up request is one whole element 216 with the Request bit;
    the response echoes it with the setup command Accept and the Request bit
    clear, every other octet as requested. *)
Lemma parse_twt_setup_total b : wf_bytes b ->
  exists o, parse_twt_setup b = Val o /\
    forall dialog e, o = Some (dialog, e) ->
      exists rest, b = [ACTION_CATEGORY_S1G; S1G_ACT_TWT_SETUP; dialog] ++ e ++ rest /\
        nth 0 e 0 = EID_TWT /\ Z.of_nat (length e) = 2 + nth 1 e 0 /\ (17 <= length e)%nat /\
        Z.land (le_val (sub e 3 5)) 1 <> 0.
Proof.
  intros Hw. unfold parse_twt_setup.
  destruct (Nat.ltb_spec (length b) 4); [by eexists|]. rust_steps.
  destruct (Z.eqb_spec (nth 0 b 0) ACTION_CATEGORY_S1G) as [E0|]; cbn [negb]; [|by eexists].
  rust_steps. destruct (Z.eqb_spec (nth 1 b 0) S1G_ACT_TWT_SETUP) as [E1|]; cbn [negb]; [|by eexists].
  rust_steps. set (twt := drop 3 b).
  assert (Hwt : wf_bytes twt) by (unfold twt; auto with bytes).
  destruct (Nat.ltb_spec (length twt) 2); [by eexists|]. rust_steps.
  destruct (Z.eqb_spec (nth 0 twt 0) EID_TWT) as [E2|]; cbn [negb]; [|by eexists]. rust_steps.
  set (n := Z.to_nat (nth 1 twt 0)).
  destruct (Nat.ltb_spec (length twt) (2 + n)); cbn [orb]; [by eexists|].
  destruct (Nat.ltb_spec n 15); [by eexists|]. rust_steps.
  destruct (Z.eqb_spec (Z.land (le_val (sub twt 3 5)) 1) 0) as [|E3]; [by eexists|].
  rust_steps. eexists. split; [done|]. remember (2 + n)%nat as m eqn:Em.
  intros dialog e [= <- <-].
  assert (Hl : length (sub twt 0 m) = m) by (rewrite length_sub; lia).
  assert (Hn1 : nth 1 (sub twt 0 m) 0 = nth 1 twt 0) by (rewrite nth_sub; [done|lia]).
  exists (drop m twt). split; [|split; [|split; [|split]]].
  - rewrite sub_cat_drop, drop_0 by lia. unfold twt.
    rewrite <- E0, <- E1. rewrite <- (drop_0 b) at 1. rewrite !drop_nth by lia. done.
  - rewrite nth_sub by lia. done.
  - rewrite Hl, Hn1. pose proof (wf_bytes_nth twt 1 Hwt) as Hb. unfold is_byte in Hb. lia.
  - lia.
  - unfold sub at 1. rewrite drop_sub, take_sub by lia. done.
Qed.

Lemma twt_accept_all :
  forallb (fun lo => Z.land (Z.lor (Z.land lo (Z.lxor 0x000F 0xffff)) 8) 0xF =? 8) all_bytes = true.
Proof. by vm_compute. Qed.

Lemma twt_request_type rt :
  0 <= rt < 2 ^ 16 ->
  let rt' := Z.lor (Z.land rt (Z.lxor 0x000F 0xffff)) (u16 (Z.shiftl TWT_SETUP_CMD_ACCEPT 1)) in
  0 <= rt' < 2 ^ 16 /\ Z.land rt' 0xF = 8 /\ Z.shiftr rt' 4 = Z.shiftr rt 4.
Proof.
  intros Hr. cbn zeta. change (u16 (Z.shiftl TWT_SETUP_CMD_ACCEPT 1)) with 8.
  change (Z.lxor 0x000F 0xffff) with 0xfff0. split; [|split].
  - apply lor_range; [lia| |lia]. apply land_range; lia.
  - apply Z.bits_inj'. intros i Hi. rewrite Z.land_spec, Z.lor_spec, Z.land_spec.
    destruct (decide (i < 4)).
    + assert (i = 0 \/ i = 1 \/ i = 2 \/ i = 3) as [->|[->|[->| ->]]] by lia;
        rewrite andb_true_r; change (Z.testbit 0xfff0 _) with false; by rewrite andb_false_r.
    + rewrite (testbit_high 4 0xF), (testbit_high 4 8) by lia. apply andb_false_r.
  - apply Z.bits_inj'. intros i Hi. rewrite !Z.shiftr_spec by lia.
    rewrite Z.lor_spec, Z.land_spec, (testbit_high 4 8), orb_false_r by lia.
    destruct (decide (i + 4 < 16)).
    + assert (Z.testbit 0xfff0 (i + 4) = true) as ->; [|by rewrite andb_true_r].
      assert (i = 0 \/ i = 1 \/ i = 2 \/ i = 3 \/ i = 4 \/ i = 5 \/ i = 6 \/ i = 7 \/ i = 8 \/
              i = 9 \/ i = 10 \/ i = 11) as Hc by lia.
      repeat (destruct Hc as [->|Hc]; [done|]). by subst i.
    + by rewrite (testbit_high 16 rt) by lia.
Qed.

Lemma build_twt_setup_response_spec bssid sta dialog e s :
  wf_bytes e -> (5 <= length e)%nat ->
  exists rt', build_twt_setup_response bssid sta dialog e s =
    Val (build_action_frame sta bssid bssid s
           ([ACTION_CATEGORY_S1G; S1G_ACT_TWT_SETUP; dialog]
            ++ take 3 e ++ le_bytes 2 rt' ++ drop 5 e)) /\
    0 <= rt' < 2 ^ 16 /\ Z.land rt' 0xF = 8 /\ Z.shiftr rt' 4 = Z.shiftr (le_val (sub e 3 5)) 4.
Proof.
  intros Hw Hl. unfold build_twt_setup_response.
  rewrite (proj2 (Nat.leb_le _ _)) by lia. rust_steps.
  assert (Hr : 0 <= le_val (sub e 3 5) < 2 ^ 16).
  { pose proof (le_val_bound (sub e 3 5) ltac:(auto with bytes)) as H.
    by rewrite length_sub in H by lia. }
  eexists. split; [|apply (twt_request_type _ Hr)]. do 4 f_equal.
  set (enc := le_bytes 2 _). assert (He : length enc = 2%nat) by (unfold enc; len).
  destruct enc as [|x [|y [|]]]; try done. cbn [nth].
  destruct e as [|b0 [|b1 [|b2 [|b3 [|b4 e]]]]]; simpl in Hl; try lia. done.
Qed.

(** C39: The 802.11 header parser is exact.  It answers on every octet string, and
    the frames it accepts are precisely the wire encodings of well-formed frames
    (with any duration, and a fourth address when both DS bits are set): parsing
    loses nothing but those two fields and invents nothing. *)
Theorem frame_parse_exact buf :
  wf_bytes buf ->
  exists o, parse buf = Val o /\
    forall d, o = Some d <->
      exists dur a4, dot11_ok d /\ arr 2 dur /\ arr (a4_len d) a4 /\ buf = wire d dur a4.
Proof.
  intros Hw. destruct (parse_sound buf Hw) as (o & Ho & Hs). exists o. split; [done|].
  intros d. split; [apply Hs|]. intros (dur & a4 & Hd & Hdur & Ha4 & ->).
  rewrite (parse_wire d dur a4 Hd Hdur Ha4) in Ho. by injection Ho.
Qed.

Lemma frame_parse_exact_witness :
  exists o, parse (replicate 30 2) = Val o /\
    forall d, o = Some d <->
      exists dur a4, dot11_ok d /\ arr 2 dur /\ arr (a4_len d) a4 /\ replicate 30 2 = wire d dur a4.
Proof. apply frame_parse_exact. by apply (bool_decide_unpack _). Defined.
