(* ===== verification/Channels.v ===== *)
(** Channels, operating classes and radiotap headers:
    src/frames/channels.rs, with [operating_class] and
    [oci_class_matches_band] of src/auth/rsn.rs. *)
From S2P Require Import Prelude Frames.

(** * Channels and frequencies *)

Definition is_5ghz (channel : Z) : bool := 14 <? channel.

Definition channel_to_freq (channel : Z) : Z :=
  if channel =? 14 then 2484
  else if channel <=? 13 then u16 (2407 + 5 * channel)
  else u16 (5000 + 5 * channel).

(** [rem_euclid] and [div_euclid] by a positive constant are [mod] and [/]. *)
Definition center_channel (channel width_mhz : Z) (band6 : bool) : Z :=
  let p := channel in
  let base := if band6 then 1 else if 149 <=? channel then 149
              else if 100 <=? channel then 100 else 36 in
  let c :=
    if width_mhz =? 40 then (if (p - base) mod 8 =? 0 then p + 2 else p - 2)
    else if width_mhz =? 80 then base + (p - base) / 16 * 16 + 6
    else if width_mhz =? 160 then base + (p - base) / 32 * 32 + 14
    else if width_mhz =? 320 then base + (p - base) / 64 * 64 + 30
    else p in
  u8 c.

Definition channel_to_center_freq (center_chan : Z) (band6 : bool) : Z :=
  if band6 then 5950 + 5 * center_chan else 5000 + 5 * center_chan.

Definition channel_to_freq_6ghz (channel : Z) : Z := u16 (5950 + 5 * channel).

Definition operating_class (channel width : Z) (band6 : bool) : Z :=
  let within a b := (a <=? channel) && (channel <=? b) in
  if band6 then
    if width =? 320 then 137 else if width =? 160 then 134
    else if width =? 80 then 133 else if width =? 40 then 132 else 131
  else if is_5ghz channel then
    if width =? 160 then 129
    else if width =? 80 then 128
    else if width =? 40 then
      let lower := (channel - 36) mod 8 =? 0 in
      if within 36 48 then (if lower then 116 else 117)
      else if within 52 64 then (if lower then 119 else 120)
      else if within 100 144 then (if lower then 122 else 123)
      else if lower then 126 else 127
    else if within 36 48 then 115 else if within 52 64 then 118
    else if within 100 144 then 121 else 124
  else if width =? 40 then 83 else 81.

Definition oci_class_matches_band (op_class channel : Z) (band6 : bool) : bool :=
  if band6 then (131 <=? op_class) && (op_class <=? 137)
  else if is_5ghz channel then (115 <=? op_class) && (op_class <=? 130)
  else (81 <=? op_class) && (op_class <=? 84).

(** * Radiotap *)

Definition RADIOTAP_TX : bytes := [0x00; 0x00; 0x08; 0x00; 0x00; 0x00; 0x00; 0x00].
Definition RT_PRESENT_RATE : Z := Z.shiftl 1 2.
Definition RT_PRESENT_CHANNEL : Z := Z.shiftl 1 3.
Definition CHAN_CCK : Z := 0x0020.
Definition CHAN_OFDM : Z := 0x0040.
Definition CHAN_2GHZ : Z := 0x0080.
Definition CHAN_5GHZ : Z := 0x0100.

(** The placeholder of the length field is overwritten at the end. *)
Definition radiotap_tx (freq chan_flags rate_500k : Z) : bytes :=
  let v := [0; 0; 0; 0] ++ le_bytes 4 (Z.lor RT_PRESENT_RATE RT_PRESENT_CHANNEL)
    ++ [rate_500k; 0] ++ le_bytes 2 freq ++ le_bytes 2 chan_flags in
  take 2 v ++ le_bytes 2 (u16 (Z.of_nat (length v))) ++ drop 4 v.

Definition build_radiotap_tx (channel : Z) : bytes :=
  let (chan_flags, rate_500k) :=
    if is_5ghz channel then (Z.lor CHAN_5GHZ CHAN_OFDM, 12) else (Z.lor CHAN_2GHZ CHAN_CCK, 2) in
  radiotap_tx (channel_to_freq channel) chan_flags rate_500k.

Definition build_radiotap_tx_6ghz (channel : Z) : bytes :=
  radiotap_tx (channel_to_freq_6ghz channel) CHAN_OFDM 12.

Definition strip_radiotap (buf : bytes) : res (option bytes) :=
  if (length buf <? 4)%nat then Val None
  else
    let! l := slice buf 2 4 in
    let it_len := Z.to_nat (le_val l) in
    if (length buf <? it_len)%nat then Val None
    else let! f := slice_from buf it_len in Val (Some f).

(** The loop over the present words: [inr None] is the function's [return
    false], [inr (Some (off, first_present))] leaves the loop. *)
Definition present_words_step (buf : bytes) (st : nat * Z * nat) :
    res (nat * Z * nat + option (nat * Z)) :=
  let '(off, first_present, i) := st in
  if (length buf <? off + 4)%nat then Val (inr None)
  else
    let! ws := slice buf off (off + 4) in
    let w := le_val ws in
    let first_present := if (i =? 0)%nat then w else first_present in
    let off := (off + 4)%nat in
    let i := S i in
    if negb (has_bit w 0x80000000) then Val (inr (Some (off, first_present)))
    else if (8 <? i)%nat then Val (inr None)
    else Val (inl (off, first_present, i)).

Definition radiotap_bad_fcs (buf : bytes) : res bool :=
  if (length buf <? 8)%nat then Val false
  else
    let! version := idx buf 0 in
    if negb (version =? 0) then Val false
    else
      let! l := slice buf 2 4 in
      let it_len := Z.to_nat (le_val l) in
      let! r := loop (S (length buf)) (present_words_step buf) (4%nat, 0, 0%nat) in
      match r with
      | None => Val false
      | Some (off, first_present) =>
          if negb (has_bit first_present (Z.shiftl 1 1)) then Val false
          else
            let p :=
              if has_bit first_present (Z.shiftl 1 0) then
                let rem := (off mod 8)%nat in
                let p := if negb (rem =? 0)%nat then (off + (8 - rem))%nat else off in
                (p + 8)%nat
              else off in
            if (it_len <=? p)%nat || (length buf <=? p)%nat then Val false
            else let! f := idx buf p in Val (has_bit f 0x40)
      end.

(** * Properties *)

(** The walk of the present words terminates on every buffer. *)
Lemma radiotap_bad_fcs_total buf : exists b, radiotap_bad_fcs buf = Val b.
Proof.
  unfold radiotap_bad_fcs.
  destruct (Nat.ltb_spec (length buf) 8); [by eexists|]. rust_steps.
  destruct (nth 0 buf 0 =? 0); cbn [negb]; [|by eexists]. rust_steps.
  destruct (loop_spec (fun st : nat * Z * nat => True)
    (fun _ : option (nat * Z) => True)
    (fun st => length buf - st.1.1)%nat (present_words_step buf)) with
    (fuel := S (length buf)) (s := (4%nat, 0, 0%nat)) as (r & -> & _); try done.
  - intros [[off fp] i] _. unfold present_words_step.
    destruct (Nat.ltb_spec (length buf) (off + 4)); [by eexists|]. rust_steps.
    destruct (negb _); [by eexists|]. destruct (8 <? S i)%nat; [by eexists|].
    eexists. split; [done|]. cbn [fst]. split; [done|lia].
  - cbn [fst]. lia.
  - cbn [rbind]. destruct r as [[off fp]|]; [|by eexists].
    destruct (negb (has_bit fp _)); [by eexists|].
    set (p := if has_bit fp _ then _ else _).
    destruct (Nat.leb_spec (Z.to_nat (le_val (sub buf 2 4))) p); cbn [orb]; [by eexists|].
    destruct (Nat.leb_spec (length buf) p); [by eexists|]. rust_steps. by eexists.
Qed.

Lemma strip_radiotap_total buf : exists o, strip_radiotap buf = Val o /\
  forall f, o = Some f -> exists h, buf = h ++ f.
Proof.
  unfold strip_radiotap. destruct (Nat.ltb_spec (length buf) 4); [by eexists|]. rust_steps.
  destruct (Nat.ltb_spec (length buf) (Z.to_nat (le_val (sub buf 2 4)))); [by eexists|]. rust_steps.
  eexists. split; [done|]. intros f [= <-].
  exists (take (Z.to_nat (le_val (sub buf 2 4))) buf). by rewrite take_drop.
Qed.

Lemma length_radiotap_tx f c r : length (radiotap_tx f c r) = 14%nat.
Proof. done. Qed.
Lemma length_RADIOTAP_TX : length RADIOTAP_TX = 8%nat.
Proof. done. Qed.
#[export] Hint Rewrite length_radiotap_tx length_RADIOTAP_TX : len.

(** What this code transmits is never taken for a frame with a bad checksum. *)
Lemma transmitted_fcs f : radiotap_bad_fcs (RADIOTAP_TX ++ f) = Val false.
Proof.
  assert (Hl : length (RADIOTAP_TX ++ f) = (8 + length f)%nat) by (rewrite length_app; done).
  unfold radiotap_bad_fcs. rewrite Hl, (proj2 (Nat.ltb_ge _ _)) by lia. cbn [loop].
  rewrite idx_ok, slice_ok by (rewrite ?Hl; lia). cbn [rbind].
  change (nth 0 (RADIOTAP_TX ++ f) 0) with 0. cbn [Z.eqb negb].
  unfold present_words_step at 1. rewrite Hl, (proj2 (Nat.ltb_ge _ _)) by lia.
  rewrite slice_ok by (rewrite ?Hl; lia). cbn [rbind]. reflexivity.
Qed.

(** Radiotap headers: the header the transmit path prepends (the fixed one or
    the one with rate and retry fields) is exactly what the receive path
    strips. *)
Lemma strip_prepended h frame :
  h = RADIOTAP_TX \/ (exists f c r, h = radiotap_tx f c r) ->
  strip_radiotap (h ++ frame) = Val (Some frame).
Proof.
  intros [->|(f & c & r & ->)]; unfold strip_radiotap.
  - rewrite (proj2 (Nat.ltb_ge _ _)) by len.
    rewrite slice_ok by len. cbn [rbind].
    change (le_val (sub (RADIOTAP_TX ++ frame) 2 4)) with 8.
    rewrite (proj2 (Nat.ltb_ge _ _)) by len.
    rewrite slice_from_ok by len. done.
  - rewrite (proj2 (Nat.ltb_ge _ _)) by len.
    rewrite slice_ok by len. cbn [rbind].
    change (le_val (sub (radiotap_tx f c r ++ frame) 2 4)) with 14.
    rewrite (proj2 (Nat.ltb_ge _ _)) by len.
    rewrite slice_from_ok by len. cbn [rbind].
    done.
Qed.

(** The centre of a wide block is within half the block of every primary
    channel, and all primary channels of a block share it. *)
Definition block_span (width : Z) : Z :=
  if width =? 40 then 8 else if width =? 80 then 16 else if width =? 160 then 32 else 64.

Definition band_base (channel : Z) (band6 : bool) : Z :=
  if band6 then 1 else if 149 <=? channel then 149 else if 100 <=? channel then 100 else 36.

(** The centre channel is the centre of the operating channel's block of
    [width] MHz, counted from the base of its band (1 on 6 GHz, 149, 100 or 36 on
    5 GHz): the channel lies in that block. *)
Lemma center_channel_block channel width band6 :
  (width = 80 \/ width = 160 \/ width = 320) -> 0 <= channel < 256 ->
  band_base channel band6 <= channel ->
  let base := band_base channel band6 in
  let n := (channel - base) / block_span width in
  base + n * block_span width <= channel < base + (n + 1) * block_span width /\
  center_channel channel width band6 = u8 (base + n * block_span width + block_span width / 2 - 2).
Proof.
  intros Hw Hc Hb. cbn zeta. set (base := band_base channel band6) in *.
  assert (Hs : 0 < block_span width) by (destruct Hw as [->|[->| ->]]; done).
  pose proof (Z.div_mod (channel - base) (block_span width) ltac:(lia)) as Hdm.
  pose proof (Z.mod_pos_bound (channel - base) (block_span width) Hs). split; [nia|].
  unfold center_channel. fold (band_base channel band6). fold base.
  destruct Hw as [->|[->| ->]]; cbn [Z.eqb Pos.eqb]; f_equal.
  - change (block_span 80) with 16. change (16 / 2) with 8. lia.
  - change (block_span 160) with 32. change (32 / 2) with 16. lia.
  - change (block_span 320) with 64. change (64 / 2) with 32. lia.
Qed.

Lemma operating_class_byte channel width band6 : is_byte (operating_class channel width band6).
Proof. unfold operating_class. repeat case_match; by apply (bool_decide_unpack _). Qed.
