(* ===== verification/DataProt.v ===== *)
(** Protection of data and robust management frames: src/frames/data.rs, with
    the protected SA Query of src/action_frames/sa_query.rs.

    The packet number has two directions: [ccmp_header] writes it and
    [Frames.ccmp_pn] reads it; [pn_read_back] is the composition of both. *)
From S2P Require Import Prelude Crypto Security Elements Frames.

(** * Packet numbers, nonces and associated data *)

Definition pn2bin (pn : Z) : bytes := drop 2 (be_bytes 8 pn).

Fixpoint pn_octets (n : nat) (v : Z) : bytes :=
  match n with
  | O => []
  | S n' => Z.land v 0xFF :: pn_octets n' (Z.shiftr v 8)
  end.
Definition pn2bytes (pn : Z) : bytes := pn_octets 6 pn.

Definition ccmp_get_nonce (priority : Z) (addr : bytes) (pn : Z) : bytes :=
  [priority] ++ addr ++ pn2bin pn.
Definition gcmp_get_nonce (addr : bytes) (pn : Z) : bytes := addr ++ pn2bin pn.

Definition ccmp_get_aad (fc0 fc1 : Z) (a1 a2 a3 : bytes) (sc : Z) (qos_tid : option Z) : bytes :=
  let is_data := Z.land (Z.shiftr fc0 2) 0x03 =? TYPE_DATA in
  [if is_data then Z.land fc0 0x8F else fc0; Z.land fc1 0xC7]
  ++ a1 ++ a2 ++ a3 ++ le_bytes 2 (Z.land sc 0xF)
  ++ match qos_tid with Some tid => le_bytes 2 tid | None => [] end.

Definition ccmp_header (pn key_id : Z) : bytes :=
  let p := pn2bytes pn in
  [byte_at p 0; byte_at p 1; 0x00; Z.lor (u8 (Z.shiftl key_id 6)) 0x20;
   byte_at p 2; byte_at p 3; byte_at p 4; byte_at p 5].

(** * Payload protection *)

(** The three addresses of a header. *)
Abbreviation addrs := (bytes * bytes * bytes)%type.

Section Protection.
Context {P : Primitives}.

Definition encrypt_data_payload (cipher : DataCipher) (tk : bytes) (priority : Z)
    (transmitter : bytes) (pn : Z) (aad plaintext : bytes) : res (option (bytes * bytes)) :=
  if negb (length tk =? key_len cipher)%nat then Val None
  else
    match cipher with
    | Ccmp128 | Ccmp256 =>
        let nonce := ccmp_get_nonce priority transmitter pn in
        let tag_len := if decide (cipher = Ccmp128) then 8%nat else 16%nat in
        rmap Some (run_ccmp_encrypt_with_tag tk nonce aad plaintext tag_len)
    | Gcmp128 | Gcmp256 =>
        let nonce := gcmp_get_nonce transmitter pn in
        Val (run_gcmp_encrypt tk nonce aad plaintext)
    end.

Definition decrypt_data_payload (cipher : DataCipher) (tk : bytes) (priority : Z)
    (transmitter : bytes) (pn : Z) (aad ciphertext tag : bytes) : res (option bytes) :=
  if negb (length tk =? key_len cipher)%nat then Val None
  else
    match cipher with
    | Ccmp128 | Ccmp256 =>
        let nonce := ccmp_get_nonce priority transmitter pn in
        let tag_len := if decide (cipher = Ccmp128) then 8%nat else 16%nat in
        let! r := run_ccmp_decrypt_with_tag tk nonce aad ciphertext tag tag_len in
        Val (if r.2 then Some r.1 else None)
    | Gcmp128 | Gcmp256 =>
        let nonce := gcmp_get_nonce transmitter pn in
        Val (run_gcmp_decrypt tk nonce aad ciphertext tag)
    end.

(** * Data frames *)

Definition build_protected_data_sec (data_cipher : DataCipher) (a1 a2 a3 sec_a1 sec_a2 sec_a3 : bytes)
    (flags sc pn key_id : Z) (tk : bytes) (ethertype : Z) (inner_payload : bytes)
    (qos_tid : option Z) : res bytes :=
  let subtype := match qos_tid with Some _ => SUBTYPE_QOS_DATA | None => 0 end in
  let frame := dot11_header TYPE_DATA subtype flags a1 a2 a3 sc in
  let frame := match qos_tid with
               | Some tid => frame ++ [Z.land tid 0x0F; 0x00]
               | None => frame
               end in
  let! fc0 := idx frame 0 in
  let! fc1 := idx frame 1 in
  let prio := default 0 qos_tid in
  let aad := ccmp_get_aad fc0 fc1 sec_a1 sec_a2 sec_a3 sc
               (option_map (fun t => Z.land t 0x0F) qos_tid) in
  let plaintext := llc_snap ethertype ++ inner_payload in
  let! o := encrypt_data_payload data_cipher tk prio sec_a2 pn aad plaintext in
  let! '(encrypted, tag) := expect o in
  Val (frame ++ ccmp_header pn key_id ++ encrypted ++ tag).

Definition build_ccmp_data_sec := build_protected_data_sec Ccmp128.

Definition build_ccmp_data (a1 a2 a3 : bytes) (flags sc pn key_id : Z) (tk : bytes)
    (ethertype : Z) (inner_payload : bytes) (qos_tid : option Z) : res bytes :=
  build_ccmp_data_sec a1 a2 a3 a1 a2 a3 flags sc pn key_id tk ethertype inner_payload qos_tid.

(** [split_at(data.len() - tag_len)], then the payload is opened. *)
Definition open_payload (data_cipher : DataCipher) (frame : Dot11) (tk : bytes)
    (sec_addrs : option addrs) : res (option bytes) :=
  let? pn := ccmp_pn frame in
  let qos_tid := match qos frame with Some _ => Some (priority frame) | None => None end in
  let '(sa1, sa2, sa3) :=
    match sec_addrs with Some a => a | None => (addr1 frame, addr2 frame, addr3 frame) end in
  let aad := ccmp_get_aad (fc0 frame) (fc1 frame) sa1 sa2 sa3 (sc frame) qos_tid in
  let? data := ccmp_data frame in
  let tag_len := match data_cipher with Ccmp128 => 8%nat | _ => 16%nat end in
  if (length data <? tag_len)%nat then Val None
  else
    let! payload := slice data 0 (length data - tag_len) in
    let! tag := slice_from data (length data - tag_len) in
    decrypt_data_payload data_cipher tk (u8 (priority frame)) sa2 pn aad payload tag.

Definition decrypt_protected_data_sec (data_cipher : DataCipher) (frame : Dot11) (tk : bytes)
    (from_ap : bool) (sec_addrs : option addrs) : res (option bytes) :=
  let? plaintext := open_payload data_cipher frame tk sec_addrs in
  if (length plaintext <? 8)%nat then Val None
  else
    let! p := slice plaintext 0 6 in
    if negb (beq p SNAP_PREFIX) then Val None
    else
      let! ethertype := slice plaintext 6 8 in
      let! l3 := slice_from plaintext 8 in
      let (da, sa) := if from_ap then (addr1 frame, addr3 frame) else (addr3 frame, addr2 frame) in
      Val (Some (da ++ sa ++ ethertype ++ l3)).

Definition decrypt_ccmp_sec := decrypt_protected_data_sec Ccmp128.
Definition decrypt_ccmp (frame : Dot11) (tk : bytes) (from_ap : bool) : res (option bytes) :=
  decrypt_ccmp_sec frame tk from_ap None.

(** * Robust management frames *)

Definition build_protected_mgmt_sec (data_cipher : DataCipher) (subtype : Z) (a1 a2 a3 : bytes)
    (sec_addrs : option addrs) (extra_flags sc pn key_id : Z) (tk b : bytes) : res bytes :=
  let frame := dot11_header TYPE_MGMT subtype (Z.lor extra_flags FC_PROTECTED) a1 a2 a3 sc in
  let! fc0 := idx frame 0 in
  let! fc1 := idx frame 1 in
  let '(sa1, sa2, sa3) := default (a1, a2, a3) sec_addrs in
  let aad := ccmp_get_aad fc0 fc1 sa1 sa2 sa3 sc None in
  let! o := encrypt_data_payload data_cipher tk 0 sa2 pn aad b in
  let! '(encrypted, tag) := expect o in
  Val (frame ++ ccmp_header pn key_id ++ encrypted ++ tag).

Definition build_ccmp_mgmt_sec := build_protected_mgmt_sec Ccmp128.
Definition build_ccmp_mgmt (subtype : Z) (a1 a2 a3 : bytes) (sc pn key_id : Z) (tk b : bytes) :
    res bytes :=
  build_ccmp_mgmt_sec subtype a1 a2 a3 None 0 sc pn key_id tk b.

(** The management receiver is the same opening without the SNAP check. *)
Definition decrypt_protected_mgmt_sec (data_cipher : DataCipher) (frame : Dot11) (tk : bytes)
    (sec_addrs : option addrs) : res (option bytes) :=
  open_payload data_cipher frame tk sec_addrs.

Definition decrypt_ccmp_mgmt_sec := decrypt_protected_mgmt_sec Ccmp128.
Definition decrypt_ccmp_mgmt (frame : Dot11) (tk : bytes) : res (option bytes) :=
  decrypt_ccmp_mgmt_sec frame tk None.

Definition build_protected_deauth_for_cipher_sec (cipher : DataCipher) (bssid sta : bytes)
    (reason sc pn : Z) (tk : bytes) (sec_addrs : option addrs) : res bytes :=
  build_protected_mgmt_sec cipher SUBTYPE_DEAUTH sta bssid bssid sec_addrs 0 sc pn 0 tk
    (le_bytes 2 reason).

Definition build_protected_sa_query_for_cipher_sec (cipher : DataCipher) (bssid peer : bytes)
    (to_ds response : bool) (transaction_id sc pn : Z) (tk : bytes)
    (security_addresses : option addrs) : res bytes :=
  let b := sa_query_body response transaction_id in
  let '(a1, a2, a3) := if to_ds then (bssid, peer, bssid) else (peer, bssid, bssid) in
  build_protected_mgmt_sec cipher SUBTYPE_ACTION a1 a2 a3 security_addresses
    (if to_ds then FC_TODS else 0) sc pn 0 tk b.

End Protection.

(** * The packet number on the wire *)

Lemma pn_octets_le n v : pn_octets n v = le_bytes n v.
Proof.
  revert v. induction n as [|n IH]; intros v; [done|]. cbn [pn_octets].
  rewrite IH. rewrite Z.shiftr_div_pow2 by lia.
  change (Z.land v 255) with (Z.land v (Z.ones 8)). by rewrite Z.land_ones by lia.
Qed.

Lemma pn2bytes_le pn : pn2bytes pn = le_bytes 6 pn.
Proof. apply pn_octets_le. Qed.

Lemma pn2bin_be pn : pn2bin pn = be_bytes 6 pn.
Proof.
  unfold pn2bin. change 8%nat with (6 + 2)%nat. rewrite be_bytes_app. apply drop_app_length'. len.
Qed.

Lemma pn2bin_arr pn : arr 6 (pn2bin pn).
Proof. rewrite pn2bin_be. split; [len|auto with bytes]. Qed.

Lemma pn2bin_inj pn pn' :
  0 <= pn < 2 ^ 48 -> 0 <= pn' < 2 ^ 48 -> pn2bin pn = pn2bin pn' -> pn = pn'.
Proof.
  intros H H'. rewrite !pn2bin_be. intros E.
  rewrite <- (be_bytes_small 6 pn), <- (be_bytes_small 6 pn') by done. by rewrite E.
Qed.

(** What [ccmp_pn] reads from the header [ccmp_header] wrote: octets 2 to 5 of
    the packet number in the reverse order. *)
Definition pn_read_back (pn : Z) : Z :=
  let p := le_bytes 6 pn in
  le_val [byte_at p 0; byte_at p 1; byte_at p 5; byte_at p 4; byte_at p 3; byte_at p 2].

Lemma length_ccmp_header pn kid : length (ccmp_header pn kid) = 8%nat.
Proof. done. Qed.
#[export] Hint Rewrite length_ccmp_header : len.

Lemma wf_ccmp_header pn kid : wf_bytes (ccmp_header pn kid).
Proof.
  unfold ccmp_header. rewrite pn2bytes_le.
  assert (wf_bytes (le_bytes 6 pn)) by auto with bytes.
  repeat (apply wf_bytes_cons; [auto with bytes|]). constructor.
Qed.

Lemma le_val_6 a b c d e f :
  is_byte a -> is_byte b -> is_byte c -> is_byte d -> is_byte e -> is_byte f ->
  Z.lor (Z.lor (Z.lor (Z.lor (Z.lor a (Z.shiftl b 8)) (Z.shiftl c 16)) (Z.shiftl d 24))
    (Z.shiftl e 32)) (Z.shiftl f 40) = le_val [a; b; c; d; e; f].
Proof.
  unfold is_byte. intros. rewrite (lor_shiftl 8), (lor_shiftl 16), (lor_shiftl 24),
    (lor_shiftl 32), (lor_shiftl 40) by lia.
  change (le_val [a; b; c; d; e; f])
    with (a + 256 * (b + 256 * (c + 256 * (d + 256 * (e + 256 * (f + 256 * 0)))))). lia.
Qed.

Lemma ccmp_pn_header d pn kid rest :
  body d = ccmp_header pn kid ++ rest -> ccmp_pn d = Val (Some (pn_read_back pn)).
Proof.
  intros Hb. unfold ccmp_pn. rewrite Hb, (proj2 (Nat.ltb_ge _ 8)) by len. rust_steps.
  unfold ccmp_header. rewrite pn2bytes_le. cbn [app nth].
  rewrite le_val_6 by auto with bytes. done.
Qed.

Lemma pn_octets_split pn : 0 <= pn < 2 ^ 48 ->
  exists a b c d e f, le_bytes 6 pn = [a; b; c; d; e; f] /\ pn = le_val [a; b; c; d; e; f] /\
    wf_bytes [a; b; c; d; e; f].
Proof.
  intros H. pose proof (length_le_bytes 6 pn) as Hl. pose proof (wf_le_bytes 6 pn) as Hw.
  pose proof (le_bytes_small 6 pn H) as Hv.
  destruct (le_bytes 6 pn) as [|a [|b [|c [|d [|e [|f [|]]]]]]]; try done.
  by exists a, b, c, d, e, f.
Qed.

Lemma pn_read_back_fixed pn : 0 <= pn < 2 ^ 48 ->
  pn_read_back pn = pn <->
  byte_at (le_bytes 6 pn) 2 = byte_at (le_bytes 6 pn) 5 /\
  byte_at (le_bytes 6 pn) 3 = byte_at (le_bytes 6 pn) 4.
Proof.
  intros H. destruct (pn_octets_split pn H) as (a & b & c & d & e & f & E & Hv & Hw).
  unfold pn_read_back. rewrite E. cbn [nth]. rewrite Hv. split.
  - intros Hi. apply le_val_inj in Hi; [by simplify_eq|done| |done].
    unfold wf_bytes in *. rewrite !Forall_cons in *. tauto.
  - by intros [-> ->].
Qed.

Lemma pn_read_back_small pn : 0 <= pn < 2 ^ 16 -> pn_read_back pn = pn.
Proof.
  intros H. apply pn_read_back_fixed; [lia|].
  assert (E : le_bytes 6 pn = le_bytes 2 pn ++ le_bytes 4 0).
  { change 6%nat with (2 + 4)%nat. rewrite le_bytes_app. f_equal. f_equal.
    apply Z.div_small. simpl. lia. }
  pose proof (length_le_bytes 2 pn) as Hl. rewrite E.
  by destruct (le_bytes 2 pn) as [|a [|b [|]]].
Qed.

Lemma pn_read_back_range pn : 0 <= pn_read_back pn < 2 ^ 48.
Proof.
  unfold pn_read_back. apply (le_val_bound [_; _; _; _; _; _]).
  assert (wf_bytes (le_bytes 6 pn)) by auto with bytes.
  repeat (apply wf_bytes_cons; [auto with bytes|]). constructor.
Qed.

Lemma pn_read_back_involutive pn : 0 <= pn < 2 ^ 48 -> pn_read_back (pn_read_back pn) = pn.
Proof.
  intros H. destruct (pn_octets_split pn H) as (a & b & c & d & e & f & E & Hv & Hw).
  unfold pn_read_back at 2. rewrite E. cbn [nth]. unfold pn_read_back.
  assert (Hw' : wf_bytes [a; b; f; e; d; c])
    by (unfold wf_bytes in *; rewrite !Forall_cons in *; tauto).
  pose proof (le_bytes_val _ Hw') as E'. simpl length in E'. rewrite E'. cbn [nth]. done.
Qed.

(** The packet numbers of the first 2^16 frames survive the two directions;
    the next one does not. *)
Lemma pn_read_back_65536 : pn_read_back 0x10000 = 2 ^ 40.
Proof. by vm_compute. Qed.

(** * Round trips *)

Section RoundTrip.
Context {P : Primitives} {POk : PrimitivesOk P}.

Definition tag_len (c : DataCipher) : nat := match c with Ccmp128 => 8 | _ => 16 end.

Lemma ccmp_nonce_arr p a pn : is_byte p -> arr 6 a -> arr 13 (ccmp_get_nonce p a pn).
Proof.
  intros Hp [Ha Haw]. destruct (pn2bin_arr pn) as [Hl Hw]. unfold ccmp_get_nonce.
  split; [len|]. auto with bytes.
Qed.

Lemma gcmp_nonce_arr a pn : arr 6 a -> arr 12 (gcmp_get_nonce a pn).
Proof.
  intros [Ha Haw]. destruct (pn2bin_arr pn) as [Hl Hw]. unfold gcmp_get_nonce.
  split; [len|]. auto with bytes.
Qed.

Lemma length_ccmp_aad f0 f1 a1 a2 a3 s q :
  arr 6 a1 -> arr 6 a2 -> arr 6 a3 ->
  length (ccmp_get_aad f0 f1 a1 a2 a3 s q) = (22 + match q with Some _ => 2 | None => 0 end)%nat.
Proof. intros [] [] []. unfold ccmp_get_aad. destruct q; len. Qed.

Lemma wf_ccmp_aad f0 f1 a1 a2 a3 s q :
  is_byte f0 -> is_byte f1 -> arr 6 a1 -> arr 6 a2 -> arr 6 a3 ->
  wf_bytes (ccmp_get_aad f0 f1 a1 a2 a3 s q).
Proof.
  intros H0 H1 [_ Ha1] [_ Ha2] [_ Ha3]. unfold ccmp_get_aad. unfold is_byte in H0, H1.
  apply wf_bytes_app; [|destruct q; auto 10 with bytes].
  apply wf_bytes_cons; [|apply wf_bytes_cons; [|constructor]].
  - destruct (_ =? _); [|done]. apply (land_range 8); lia.
  - apply (land_range 8); lia.
Qed.

(** Sealing a payload succeeds and opening with the same parameters inverts it. *)
Lemma payload_roundtrip c tk prio ta pn aad plain :
  arr (key_len c) tk -> is_byte prio -> arr 6 ta -> wf_bytes aad -> wf_bytes plain ->
  Z.of_nat (length aad) <= 2 ^ 36 -> Z.of_nat (length plain) <= 2 ^ 36 ->
  exists enc tag, encrypt_data_payload c tk prio ta pn aad plain = Val (Some (enc, tag)) /\
    arr (length plain) enc /\ arr (tag_len c) tag /\
    decrypt_data_payload c tk prio ta pn aad enc tag = Val (Some plain).
Proof.
  intros Hk Hp Ha Haad Hpl Hla Hlp. pose proof (arr_length _ _ Hk) as Hkl.
  unfold encrypt_data_payload, decrypt_data_payload. rewrite Hkl, Nat.eqb_refl. cbn [negb].
  assert (HC : forall n, valid_tag_len n = true -> tk_ok tk -> exists enc tag,
    rmap Some (run_ccmp_encrypt_with_tag tk (ccmp_get_nonce prio ta pn) aad plain n)
      = Val (Some (enc, tag)) /\ arr (length plain) enc /\ arr n tag /\
    rbind (run_ccmp_decrypt_with_tag tk (ccmp_get_nonce prio ta pn) aad enc tag n)
      (fun r => Val (if r.2 then Some r.1 else None)) = Val (Some plain)).
  { intros n Hn Htk.
    destruct (ccmp_decrypt_encrypt tk (ccmp_get_nonce prio ta pn) aad plain n)
      as (enc & tag & He & Hl & Ht & Hw & Hd); auto using ccmp_nonce_arr.
    exists enc, tag. rewrite He, Hd. cbn [rmap rbind fst snd]. do 3 (split; [done|]). done. }
  assert (HG : tk_ok tk -> exists enc tag,
    run_gcmp_encrypt tk (gcmp_get_nonce ta pn) aad plain = Some (enc, tag) /\
    arr (length plain) enc /\ arr 16 tag /\
    run_gcmp_decrypt tk (gcmp_get_nonce ta pn) aad enc tag = Some plain).
  { intros Htk. unfold run_gcmp_encrypt, run_gcmp_decrypt.
    assert (((length tk =? 16) || (length tk =? 32))%nat = true) as ->
      by (by destruct Htk as [[-> _]|[-> _]]).
    destruct (gcm_seal_some tk (gcmp_get_nonce ta pn) aad plain) as (enc & tag & He);
      auto using gcmp_nonce_arr.
    exists enc, tag. destruct (gcm_seal_tag _ _ _ _ _ _ Hpl He) as [Henc Htag].
    rewrite (proj1 Htag). cbn [Nat.eqb negb]. rewrite (gcm_open_seal _ _ _ _ _ _ He). done. }
  destruct c; cbn [key_len tag_len] in *.
  - apply HC; [done|by left].
  - destruct HG as (enc & tag & He & ? & ? & Hd); [by left|].
    exists enc, tag. by rewrite He, Hd.
  - apply HC; [done|by right].
  - destruct HG as (enc & tag & He & ? & ? & Hd); [by right|].
    exists enc, tag. by rewrite He, Hd.
Qed.

(** A frame whose body is a CCMP header, a sealed payload and its tag opens to
    the payload, when the two ends agree on the security addresses and the
    packet number reads back. *)
Lemma open_payload_sealed c d tk sec pn kid aad enc tag plain sa1 sa2 sa3 :
  arr (key_len c) tk ->
  (sa1, sa2, sa3) = default (addr1 d, addr2 d, addr3 d) sec ->
  aad = ccmp_get_aad (fc0 d) (fc1 d) sa1 sa2 sa3 (sc d) (option_map (fun _ => priority d) (qos d)) ->
  pn_read_back pn = pn -> body d = ccmp_header pn kid ++ enc ++ tag ->
  length tag = tag_len c ->
  decrypt_data_payload c tk (u8 (priority d)) sa2 pn aad enc tag = Val (Some plain) ->
  open_payload c d tk sec = Val (Some plain).
Proof.
  intros Hk Hsec Haad Hpn Hb Htl Hd. unfold open_payload.
  rewrite (ccmp_pn_header d pn kid (enc ++ tag) Hb), Hpn. cbn [obind rbind].
  replace (match sec with Some a => a | None => (addr1 d, addr2 d, addr3 d) end)
    with (sa1, sa2, sa3) by (rewrite Hsec; by destruct sec).
  unfold ccmp_data. rewrite Hb, (proj2 (Nat.ltb_ge _ 8)) by len.
  rewrite slice_from_ok by len. cbn [rbind obind].
  change (drop 8 (ccmp_header pn kid ++ enc ++ tag)) with (enc ++ tag).
  change (match c with Ccmp128 => 8%nat | _ => 16%nat end) with (tag_len c). rewrite <- Htl.
  rewrite (proj2 (Nat.ltb_ge _ _)) by len.
  rewrite slice_ok, slice_from_ok by len. cbn [rbind].
  replace (length (enc ++ tag) - length tag)%nat with (length enc) by len.
  rewrite sub_app_l, sub_all, drop_app_length by lia.
  rewrite <- Hd, Haad. by destruct (qos d).
Qed.

Lemma wf_llc_snap e : wf_bytes (llc_snap e).
Proof.
  unfold llc_snap. apply wf_bytes_app; [|auto with bytes]. by apply (bool_decide_unpack _).
Qed.

Lemma length_snap_plain et (l : bytes) : length (llc_snap et ++ l) = (8 + length l)%nat.
Proof. len. Qed.

Definition tid_ok (t : option Z) : Prop := match t with Some t => 0 <= t < 16 | None => True end.

Lemma tid_land t : 0 <= t < 16 -> Z.land t 0xF = t.
Proof. intros. change 0xF with (Z.ones 4). rewrite Z.land_ones by lia. by apply Z.mod_small. Qed.

Lemma tid_le_bytes t : 0 <= t < 16 -> [t; 0] = le_bytes 2 t.
Proof.
  intros. change (le_bytes 2 t) with [t mod 256; t / 256 mod 256].
  by rewrite Z.mod_small, Z.div_small by lia.
Qed.

(** The parsed form of a protected data frame. *)
Definition data_dot11 (flags : Z) (a1 a2 a3 : bytes) (sc : Z) (tid : option Z) (b : bytes) : Dot11 :=
  {| fc0 := build_fc0 TYPE_DATA (match tid with Some _ => SUBTYPE_QOS_DATA | None => 0 end);
     fc1 := flags; addr1 := a1; addr2 := a2; addr3 := a3; sc := sc; qos := tid; body := b |}.

Lemma data_dot11_parse flags a1 a2 a3 s tid b :
  is_byte flags -> has_bit flags FC_TODS && has_bit flags FC_FROMDS = false ->
  arr 6 a1 -> arr 6 a2 -> arr 6 a3 -> 0 <= s < 2 ^ 16 -> tid_ok tid -> wf_bytes b ->
  let st := match tid with Some _ => SUBTYPE_QOS_DATA | None => 0 end in
  parse ((dot11_header TYPE_DATA st flags a1 a2 a3 s
          ++ match tid with Some t => le_bytes 2 t | None => [] end) ++ b)
    = Val (Some (data_dot11 flags a1 a2 a3 s tid b)).
Proof.
  intros. rewrite <- app_assoc. destruct tid as [t|]; cbn [tid_ok] in *.
  - apply parse_header_qos; auto; lia.
  - cbn [app]. by apply parse_header.
Qed.

Lemma data_dot11_ok flags a1 a2 a3 s tid b :
  is_byte flags -> arr 6 a1 -> arr 6 a2 -> arr 6 a3 -> 0 <= s < 2 ^ 16 -> tid_ok tid -> wf_bytes b ->
  dot11_ok (data_dot11 flags a1 a2 a3 s tid b).
Proof.
  intros. unfold dot11_ok, data_dot11. cbn.
  split; [destruct tid; by vm_compute|]. do 6 (split; [done|]).
  destruct tid; cbn in *; [split; [lia|by vm_compute]|by vm_compute].
Qed.

Lemma ccmp_key_id_header d pn kid rest :
  0 <= kid < 4 -> body d = ccmp_header pn kid ++ rest -> ccmp_key_id d = Val kid.
Proof.
  intros Hk Hb. unfold ccmp_key_id. rewrite Hb, (proj2 (Nat.ltb_ge _ 4)) by len. rust_steps.
  unfold ccmp_header. cbn [app nth]. f_equal.
  assert (kid = 0 \/ kid = 1 \/ kid = 2 \/ kid = 3) as [->|[->|[->|]]] by lia; [done..|by subst].
Qed.

Lemma priority_tid flags a1 a2 a3 s tid b :
  tid_ok tid -> priority (data_dot11 flags a1 a2 a3 s tid b) = default 0 tid.
Proof. destruct tid; cbn; [apply tid_land|done]. Qed.

Lemma decrypt_snap_payload c d tk from_ap sec et l3 :
  open_payload c d tk sec = Val (Some (llc_snap et ++ l3)) ->
  decrypt_protected_data_sec c d tk from_ap sec =
    Val (Some ((if from_ap then addr1 d ++ addr3 d else addr3 d ++ addr2 d)
               ++ be_bytes 2 et ++ l3)).
Proof.
  intros H. unfold decrypt_protected_data_sec. rewrite H. cbn [obind rbind].
  rewrite length_snap_plain, (proj2 (Nat.ltb_ge _ _)) by lia.
  destruct (snap_slices et l3) as [E1 E2].
  rewrite !slice_ok by len. rewrite E1, E2. cbn [rbind]. rewrite beq_refl. cbn [negb].
  rewrite slice_from_ok by len. cbn [rbind].
  change (drop 8 (llc_snap et ++ l3)) with l3.
  by destruct from_ap; rewrite <- !app_assoc.
Qed.

(** The frame carries [plain] under the packet number [pn]: its body is the CCMP
    header of that number, and what follows opens to [plain] under it.  This is
    what a receiver does that takes the number from the header as it was put
    there. *)
Definition sealed_under (c : DataCipher) (d : Dot11) (tk : bytes) (sec : option addrs) (pn kid : Z) (plain : bytes) : Prop :=
  exists enc tag s1 s2 s3, (s1, s2, s3) = default (addr1 d, addr2 d, addr3 d) sec /\
    body d = ccmp_header pn kid ++ enc ++ tag /\ length tag = tag_len c /\
    decrypt_data_payload c tk (u8 (priority d)) s2 pn
      (ccmp_get_aad (fc0 d) (fc1 d) s1 s2 s3 (sc d) (option_map (fun _ => priority d) (qos d))) enc tag = Val (Some plain).

Lemma sealed_header c d tk sec pn kid plain : sealed_under c d tk sec pn kid plain ->
  exists rest, body d = ccmp_header pn kid ++ rest.
Proof. intros (enc & tag & s1 & s2 & s3 & _ & Hb & _). by exists (enc ++ tag). Qed.

Lemma sealed_opens c d tk sec pn kid plain : arr (key_len c) tk -> pn_read_back pn = pn ->
  sealed_under c d tk sec pn kid plain -> open_payload c d tk sec = Val (Some plain).
Proof.
  intros Hk Hpn (enc & tag & s1 & s2 & s3 & Hsec & Hb & Hl & Hd).
  eapply (open_payload_sealed c d tk sec pn kid _ enc tag plain s1 s2 s3); done.
Qed.

(** Data protection, sending and receiving: for every suite, direction, QoS
    marking and multi-link address mapping, a data frame that is built, parsed and
    decrypted under the same temporal key yields the Ethernet frame that went in,
    and its header fields read back, provided the receiver's reading of the packet
    number is the packet number itself. *)
Lemma protected_data_roundtrip c a1 a2 a3 s1 s2 s3 sec flags s pn kid tk et l3 tid :
  arr 6 a1 -> arr 6 a2 -> arr 6 a3 -> arr 6 s1 -> arr 6 s2 -> arr 6 s3 ->
  default (a1, a2, a3) sec = (s1, s2, s3) ->
  is_byte flags -> has_bit flags FC_TODS && has_bit flags FC_FROMDS = false ->
  0 <= s < 2 ^ 16 -> arr (key_len c) tk -> wf_bytes l3 ->
  tid_ok tid -> Z.of_nat (length l3) < 2 ^ 16 ->
  exists f d,
    build_protected_data_sec c a1 a2 a3 s1 s2 s3 flags s pn kid tk et l3 tid = Val f /\
    parse f = Val (Some d) /\ frame_type d = TYPE_DATA /\ fc1 d = flags /\
    addr1 d = a1 /\ addr2 d = a2 /\ addr3 d = a3 /\ sc d = s /\ qos d = tid /\
    dot11_ok d /\ sealed_under c d tk sec pn kid (llc_snap et ++ l3) /\
    ccmp_pn d = Val (Some (pn_read_back pn)) /\
    (pn_read_back pn = pn -> forall from_ap, decrypt_protected_data_sec c d tk from_ap sec =
      Val (Some ((if from_ap then a1 ++ a3 else a3 ++ a2) ++ be_bytes 2 et ++ l3))).
Proof.
  intros Ha1 Ha2 Ha3 Hs1 Hs2 Hs3 Hsec Hfl Hds Hs Hk Hl3 Ht Hlen.
  set (st := match tid with Some _ => SUBTYPE_QOS_DATA | None => 0 end).
  set (f0 := build_fc0 TYPE_DATA st).
  set (aad := ccmp_get_aad f0 flags s1 s2 s3 s tid).
  assert (Hf0 : is_byte f0) by (unfold f0, st; destruct tid; by vm_compute).
  destruct (payload_roundtrip c tk (default 0 tid) s2 pn aad (llc_snap et ++ l3))
    as (enc & tag & He & Henc & [Htl Htw] & Hd); auto.
  { unfold is_byte. destruct tid; simpl in *; lia. }
  { by apply wf_ccmp_aad. }
  { apply wf_bytes_app; [apply wf_llc_snap|done]. }
  { unfold aad. rewrite length_ccmp_aad by done. destruct tid; lia. }
  { rewrite length_snap_plain. lia. }
  set (b := ccmp_header pn kid ++ enc ++ tag).
  assert (Hb : wf_bytes b).
  { unfold b. destruct Henc. auto using wf_ccmp_header with bytes. }
  set (d := data_dot11 flags a1 a2 a3 s tid b).
  pose proof (data_dot11_parse flags a1 a2 a3 s tid b Hfl Hds Ha1 Ha2 Ha3 Hs Ht Hb) as Hparse.
  cbn zeta in Hparse. fold st d in Hparse.
  exists ((dot11_header TYPE_DATA st flags a1 a2 a3 s
          ++ match tid with Some t => le_bytes 2 t | None => [] end) ++ b), d.
  assert (Hseal : sealed_under c d tk sec pn kid (llc_snap et ++ l3)).
  { exists enc, tag, s1, s2, s3. split; [done|]. split; [done|]. split; [done|]. rewrite <- Hd. f_equal.
    - unfold d. rewrite priority_tid by done. apply u8_small. unfold is_byte. destruct tid; simpl in *; lia.
    - unfold aad, d. cbn [fc0 fc1 sc qos data_dot11]. f_equal.
      destruct tid as [t|]; [|done]. cbn [option_map]. by rewrite priority_tid. }
  assert (Hopen : pn_read_back pn = pn -> open_payload c d tk sec = Val (Some (llc_snap et ++ l3)))
    by (intros Hpn; by apply (sealed_opens c d tk sec pn kid)).
  split; [|split_and!; try done].
  - unfold build_protected_data_sec. fold st.
    replace (match tid with Some t => dot11_header TYPE_DATA st flags a1 a2 a3 s ++ [Z.land t 0x0F; 0x00]
             | None => dot11_header TYPE_DATA st flags a1 a2 a3 s end)
      with (dot11_header TYPE_DATA st flags a1 a2 a3 s
            ++ match tid with Some t => le_bytes 2 t | None => [] end).
    2: { destruct tid as [t|]; [|by rewrite app_nil_r].
         cbn [tid_ok] in Ht. by rewrite tid_land, tid_le_bytes. }
    rewrite !idx_ok by (rewrite length_app, length_dot11_header by done; lia). cbn [rbind].
    change (nth 0 _ 0) with f0. change (nth 1 _ 0) with flags.
    replace (option_map (fun t => Z.land t 0x0F) tid) with tid
      by (destruct tid; [|done]; cbn [option_map tid_ok] in *; by rewrite tid_land).
    fold aad. rewrite He. done.
  - apply fc0_fields; [by vm_compute|]. unfold st. destruct tid; by vm_compute.
  - by apply data_dot11_ok.
  - by rewrite (ccmp_pn_header d pn kid (enc ++ tag)).
  - intros Hpn from_ap. apply decrypt_snap_payload; auto.
Qed.

(** The same for individually addressed protected management frames. *)
Lemma protected_mgmt_roundtrip c subtype a1 a2 a3 s1 s2 s3 sec extra s pn kid tk b :
  arr 6 a1 -> arr 6 a2 -> arr 6 a3 -> arr 6 s1 -> arr 6 s2 -> arr 6 s3 ->
  default (a1, a2, a3) sec = (s1, s2, s3) -> 0 <= subtype < 16 ->
  extra = 0 \/ extra = FC_TODS -> 0 <= s < 2 ^ 16 ->
  arr (key_len c) tk -> wf_bytes b -> Z.of_nat (length b) < 2 ^ 16 ->
  exists f d,
    build_protected_mgmt_sec c subtype a1 a2 a3 sec extra s pn kid tk b = Val f /\
    parse f = Val (Some d) /\ frame_type d = TYPE_MGMT /\ Frames.subtype d = subtype /\
    protected d = true /\ addr1 d = a1 /\ addr2 d = a2 /\ addr3 d = a3 /\
    ccmp_pn d = Val (Some (pn_read_back pn)) /\
    (pn_read_back pn = pn -> decrypt_protected_mgmt_sec c d tk sec = Val (Some b)).
Proof.
  intros Ha1 Ha2 Ha3 Hs1 Hs2 Hs3 Hsec Hst Hex Hs Hk Hb Hlen.
  set (fl := Z.lor extra FC_PROTECTED).
  assert (Hfl : is_byte fl /\ has_bit fl FC_TODS && has_bit fl FC_FROMDS = false /\
    has_bit fl FC_PROTECTED = true) by (unfold fl; by destruct Hex as [->| ->]).
  destruct Hfl as (Hfl & Hds & Hpr).
  destruct (fc0_fields TYPE_MGMT subtype ltac:(done) Hst) as (Eft & Est & Hf0).
  set (f0 := build_fc0 TYPE_MGMT subtype) in *.
  set (aad := ccmp_get_aad f0 fl s1 s2 s3 s None).
  destruct (payload_roundtrip c tk 0 s2 pn aad b)
    as (enc & tag & He & [_ Henc] & [Htl Htw] & Hd); auto; try lia.
  { done. }
  { by apply wf_ccmp_aad. }
  { unfold aad. rewrite length_ccmp_aad by done. lia. }
  set (bd := ccmp_header pn kid ++ enc ++ tag).
  assert (Hbd : wf_bytes bd) by (unfold bd; auto using wf_ccmp_header with bytes).
  exists (dot11_header TYPE_MGMT subtype fl a1 a2 a3 s ++ bd).
  set (d := Build_Dot11 f0 fl a1 a2 a3 s None bd). exists d.
  split; [|split_and!; try done].
  - unfold build_protected_mgmt_sec. fold fl.
    rewrite !idx_ok by (rewrite length_dot11_header by done; lia). cbn [rbind].
    change (nth 0 _ 0) with f0. change (nth 1 _ 0) with fl. rewrite Hsec. fold aad. by rewrite He.
  - by apply parse_header.
  - by rewrite (ccmp_pn_header d pn kid (enc ++ tag)).
  - intros Hpn. by apply (open_payload_sealed c d tk sec pn kid aad enc tag _ s1 s2 s3).
Qed.
End RoundTrip.

(** * What a receiver accepts *)

Section Receive.
Context {P : Primitives} {POk : PrimitivesOk P}.

(** [authentic c tk prio ta pn aad ct tag plain]: the tag is the one the
    cipher computes for the plaintext under this nonce and associated data. *)
Definition authentic (c : DataCipher) (tk : bytes) (prio : Z) (ta : bytes) (pn : Z)
    (aad ct tag plain : bytes) : Prop :=
  match c with
  | Ccmp128 | Ccmp256 =>
      ctr_encrypt tk (ccmp_get_nonce prio ta pn) ct = Val plain /\
      cbc_mac tk plain aad (ccmp_get_nonce prio ta pn) (tag_len c) = Val tag
  | Gcmp128 | Gcmp256 => aes_gcm_open tk (gcmp_get_nonce ta pn) aad ct tag = Some plain
  end.

Lemma decrypt_data_payload_total c tk prio ta pn aad ct tag :
  wf_bytes tk -> is_byte prio -> arr 6 ta -> wf_bytes aad -> wf_bytes ct -> wf_bytes tag ->
  exists o, decrypt_data_payload c tk prio ta pn aad ct tag = Val o /\
    forall plain, o = Some plain ->
      length tk = key_len c /\ wf_bytes plain /\ authentic c tk prio ta pn aad ct tag plain.
Proof.
  intros Htk Hp Hta Haad Hct Htag. unfold decrypt_data_payload.
  destruct (Nat.eqb_spec (length tk) (key_len c)) as [Hk|]; cbn [negb]; [|by eexists].
  assert (Hkk : tk_ok tk).
  { destruct c; cbn [key_len] in Hk; [left|left|right|right]; by split. }
  assert (HC : forall n, valid_tag_len n = true -> exists o,
    rbind (run_ccmp_decrypt_with_tag tk (ccmp_get_nonce prio ta pn) aad ct tag n)
      (fun r => Val (if r.2 then Some r.1 else None)) = Val o /\
    forall plain, o = Some plain -> wf_bytes plain /\
      ctr_encrypt tk (ccmp_get_nonce prio ta pn) ct = Val plain /\
      cbc_mac tk plain aad (ccmp_get_nonce prio ta pn) n = Val tag).
  { intros n Hn.
    destruct (ctr_encrypt_involutive tk (ccmp_get_nonce prio ta pn) ct Hkk) as (m & Hm & _ & Hw & _).
    assert (exists b, run_ccmp_decrypt_with_tag tk (ccmp_get_nonce prio ta pn) aad ct tag n = Val (m, b))
      as [b Hr].
    { unfold run_ccmp_decrypt_with_tag. rewrite Hm. cbn [rbind].
      destruct (negb (valid_tag_len n) || _); [by eexists|].
      destruct (cbc_mac_ok tk m aad (ccmp_get_nonce prio ta pn) n) as (t & Ht & _);
        auto using ccmp_nonce_arr. rewrite Ht. by eexists. }
    rewrite Hr. cbn [rbind fst snd]. eexists. split; [done|].
    destruct b; [|done]. intros plain [= <-]. split; [auto|].
    apply (ccmp_decrypt_accepts tk _ aad ct tag n m); auto using ccmp_nonce_arr. }
  assert (HG : exists o, Val (run_gcmp_decrypt tk (gcmp_get_nonce ta pn) aad ct tag) = Val o /\
    forall plain, o = Some plain -> wf_bytes plain /\
      aes_gcm_open tk (gcmp_get_nonce ta pn) aad ct tag = Some plain).
  { eexists. split; [done|]. unfold run_gcmp_decrypt. intros plain H.
    destruct (negb (length tag =? 16)%nat); [done|]. destruct (_ || _); [|done].
    split; [|done]. by apply (gcm_open_wf _ _ _ _ _ _ Hct H). }
  destruct c; unfold authentic; cbn [tag_len].
  - destruct (HC 8%nat) as (o & E & Ho); [done|]. exists o. split; [exact E|].
    intros plain Hpl. destruct (Ho plain Hpl). tauto.
  - destruct HG as (o & -> & Ho). exists o. split; [done|].
    intros plain Hpl. destruct (Ho plain Hpl). tauto.
  - destruct (HC 16%nat) as (o & E & Ho); [done|]. exists o. split; [exact E|].
    intros plain Hpl. destruct (Ho plain Hpl). tauto.
  - destruct HG as (o & -> & Ho). exists o. split; [done|].
    intros plain Hpl. destruct (Ho plain Hpl). tauto.
Qed.

Definition sec_addrs_ok (sec : option addrs) : Prop :=
  match sec with Some (s1, s2, s3) => arr 6 s1 /\ arr 6 s2 /\ arr 6 s3 | None => True end.

Lemma priority_range d : match qos d with Some q => 0 <= q < 2 ^ 16 | None => True end ->
  0 <= priority d < 16.
Proof.
  intros H. unfold priority. destruct (qos d); [|lia]. change 0x000F with (Z.ones 4).
  rewrite Z.land_ones by lia. apply Z.mod_pos_bound. lia.
Qed.

(** The parameters under which [open_payload] opens the frame [d]. *)
Definition frame_aad (d : Dot11) (s1 s2 s3 : bytes) : bytes :=
  ccmp_get_aad (fc0 d) (fc1 d) s1 s2 s3 (sc d) (option_map (fun _ => priority d) (qos d)).

Lemma open_payload_total c d tk sec :
  dot11_ok d -> wf_bytes tk -> sec_addrs_ok sec ->
  exists o, open_payload c d tk sec = Val o /\
    forall plain, o = Some plain ->
      exists s1 s2 s3 pn ct tag,
        (s1, s2, s3) = default (addr1 d, addr2 d, addr3 d) sec /\
        ccmp_pn d = Val (Some pn) /\ 0 <= pn < 2 ^ 48 /\
        body d = take 8 (body d) ++ ct ++ tag /\
        length tk = key_len c /\ length tag = tag_len c /\ wf_bytes plain /\
        authentic c tk (priority d) s2 pn (frame_aad d s1 s2 s3) ct tag plain.
Proof.
  intros (H0 & H1 & Ha1 & Ha2 & Ha3 & Hsc & Hb & Hq) Htk Hsec.
  assert (Hpr : 0 <= priority d < 16) by (apply priority_range; destruct (qos d); tauto).
  unfold open_payload.
  destruct (ccmp_pn_total d Hb) as (o & Epn & Hnone & Hrng). rewrite Epn.
  destruct o as [pn|]; cbn [obind rbind]; [|by eexists].
  destruct (match sec with Some a => a | None => (addr1 d, addr2 d, addr3 d) end)
    as [[s1 s2] s3] eqn:Esec.
  assert (Hs : arr 6 s1 /\ arr 6 s2 /\ arr 6 s3).
  { destruct sec as [[[x1 x2] x3]|]; simplify_eq; auto. }
  destruct Hs as (Hs1 & Hs2 & Hs3).
  destruct (ccmp_data_total d) as ([data|] & -> & Hdata); cbn [obind rbind]; [|by eexists].
  destruct (Hdata data eq_refl) as [-> Hl8].
  set (n := match c with Ccmp128 => 8%nat | _ => 16%nat end).
  destruct (Nat.ltb_spec (length (drop 8 (body d))) n) as [|Hl]; [by eexists|].
  rewrite slice_ok, slice_from_ok by lia. cbn [rbind].
  set (k := (length (drop 8 (body d)) - n)%nat).
  replace (match qos d with Some _ => Some (priority d) | None => None end)
    with (option_map (fun _ => priority d) (qos d)) by (by destruct (qos d)).
  fold (frame_aad d s1 s2 s3).
  rewrite u8_small by (unfold is_byte; lia).
  destruct (decrypt_data_payload_total c tk (priority d) s2 pn (frame_aad d s1 s2 s3)
    (sub (drop 8 (body d)) 0 k) (drop k (drop 8 (body d)))) as (o & Eo & Ho);
    try solve [auto with bytes].
  { by apply wf_ccmp_aad. }
  rewrite Eo. exists o. split; [done|]. intros plain ->.
  destruct (Ho plain eq_refl) as (Hk & Hw & Hau).
  exists s1, s2, s3, pn, (sub (drop 8 (body d)) 0 k), (drop k (drop 8 (body d))).
  split; [by destruct sec; simpl; simplify_eq|]. split; [done|]. split; [by apply Hrng|].
  split; [|split; [done|split; [|by split]]].
  - rewrite sub_cat_drop, drop_0, take_drop by lia. done.
  - rewrite length_drop. unfold k. rewrite length_drop in *.
    change (tag_len c) with n. lia.
Qed.

(** Data protection, receiving: decryption answers on every well-formed frame
    and key; what it delivers is authentic: the tag verifies for the key, the
    nonce made of the packet number and transmitter, and the associated data of the
    header, and the Ethernet frame consists of the header's addresses and the
    decrypted SNAP payload. *)
Lemma decrypt_protected_data_sound c d tk from_ap sec :
  dot11_ok d -> wf_bytes tk -> sec_addrs_ok sec ->
  exists o, decrypt_protected_data_sec c d tk from_ap sec = Val o /\
    forall eth, o = Some eth ->
      exists s1 s2 s3 pn ct tag et l3,
        (s1, s2, s3) = default (addr1 d, addr2 d, addr3 d) sec /\
        ccmp_pn d = Val (Some pn) /\ 0 <= pn < 2 ^ 48 /\
        body d = take 8 (body d) ++ ct ++ tag /\ length tk = key_len c /\
        authentic c tk (priority d) s2 pn (frame_aad d s1 s2 s3) ct tag (SNAP_PREFIX ++ et ++ l3) /\
        length et = 2%nat /\ wf_bytes eth /\
        eth = (if from_ap then addr1 d ++ addr3 d else addr3 d ++ addr2 d) ++ et ++ l3.
Proof.
  intros Hd Htk Hsec. unfold decrypt_protected_data_sec.
  destruct (open_payload_total c d tk sec Hd Htk Hsec) as ([plain|] & -> & Ho);
    cbn [obind rbind]; [|by eexists].
  destruct (Ho plain eq_refl) as (s1 & s2 & s3 & pn & ct & tag & Es & Epn & Hpn & Hb & Hk & _ & Hw & Hau).
  destruct (Nat.ltb_spec (length plain) 8); [by eexists|]. rust_steps.
  destruct (beq (sub plain 0 6) SNAP_PREFIX) eqn:Esn; cbn [negb]; [|by eexists]. rust_steps.
  apply beq_true in Esn.
  assert (Epl : plain = SNAP_PREFIX ++ sub plain 6 8 ++ drop 8 plain).
  { rewrite <- Esn. by rewrite !sub_cat_drop, drop_0 by lia. }
  exists (Some ((if from_ap then addr1 d ++ addr3 d else addr3 d ++ addr2 d)
                ++ sub plain 6 8 ++ drop 8 plain)).
  split; [by destruct from_ap; rewrite <- !app_assoc|]. intros eth [= <-].
  exists s1, s2, s3, pn, ct, tag, (sub plain 6 8), (drop 8 plain).
  rewrite <- Epl. split_and!; try done; try lia.
  - rewrite length_sub; lia.
  - destruct Hd as (_ & _ & [_ A1] & [_ A2] & [_ A3] & _).
    apply wf_bytes_app; [destruct from_ap|]; auto with bytes.
Qed.
End Receive.

(** C35: The associated data of CCMP/GCMP determines every header field it
    protects: two headers with the same associated data agree on the three
    addresses, the fragment number, the TID, the protected bits of the frame
    control field. *)
Theorem aad_injective f0 f1 a1 a2 a3 s t f0' f1' a1' a2' a3' s' t' :
  arr 6 a1 -> arr 6 a2 -> arr 6 a3 -> arr 6 a1' -> arr 6 a2' -> arr 6 a3' ->
  match t with Some x => 0 <= x < 16 | None => True end ->
  match t' with Some x => 0 <= x < 16 | None => True end ->
  ccmp_get_aad f0 f1 a1 a2 a3 s t = ccmp_get_aad f0' f1' a1' a2' a3' s' t' ->
  Z.land f1 0xC7 = Z.land f1' 0xC7 /\ a1 = a1' /\ a2 = a2' /\ a3 = a3' /\
  Z.land s 0xF = Z.land s' 0xF /\ t = t' /\
  (if fc_type f0 =? TYPE_DATA then Z.land f0 0x8F else f0)
    = (if fc_type f0' =? TYPE_DATA then Z.land f0' 0x8F else f0').
Proof.
  intros [H1 _] [H2 _] [H3 _] [H1' _] [H2' _] [H3' _] Ht Ht'. unfold ccmp_get_aad.
  fold (fc_type f0) (fc_type f0').
  cbn [app]. intros E. injection E as E0 E1 E.
  apply app_inj_1 in E as [-> E]; [|lia]. apply app_inj_1 in E as [-> E]; [|lia].
  apply app_inj_1 in E as [-> E]; [|lia]. apply app_inj_1 in E as [Es E]; [|len].
  assert (Hnib : forall z, 0 <= Z.land z 0xF < 16).
  { intros z. change 0xF with (Z.ones 4). rewrite Z.land_ones by lia. apply Z.mod_pos_bound. lia. }
  split_and!; try done.
  - rewrite <- (le_bytes_small 2 (Z.land s 0xF)), <- (le_bytes_small 2 (Z.land s' 0xF)).
    + by rewrite Es.
    + pose proof (Hnib s'). simpl. lia.
    + pose proof (Hnib s). simpl. lia.
  - destruct t as [x|], t' as [x'|]; try done.
    + f_equal. rewrite <- (le_bytes_small 2 x), <- (le_bytes_small 2 x') by (simpl; lia).
      by rewrite E.
Qed.

(** C36: Reading the packet number back from a CCMP header: the code reverses the
    octets PN2..PN5, so the result is the packet number exactly when those octets
    form a palindrome; below 2^16 it always is, and the first packet number
    that is misread is 2^16, which is read as 2^40. *)
Theorem ccmp_pn_reversed d pn kid rest :
  body d = ccmp_header pn kid ++ rest -> 0 <= pn < 2 ^ 48 ->
  exists v, ccmp_pn d = Val (Some v) /\ 0 <= v < 2 ^ 48 /\
    (v = pn <-> byte_at (le_bytes 6 pn) 2 = byte_at (le_bytes 6 pn) 5 /\
                byte_at (le_bytes 6 pn) 3 = byte_at (le_bytes 6 pn) 4) /\
    (pn < 2 ^ 16 -> v = pn) /\ (pn = 2 ^ 16 -> v = 2 ^ 40).
Proof.
  intros Hb Hp. exists (pn_read_back pn). split; [by eapply ccmp_pn_header|].
  split; [apply pn_read_back_range|]. split; [by apply pn_read_back_fixed|].
  split; [intros; apply pn_read_back_small; lia|]. intros ->. apply pn_read_back_65536.
Qed.

Lemma ccmp_pn_reversed_witness :
  exists v, ccmp_pn {| fc0 := 8; fc1 := 1; addr1 := []; addr2 := []; addr3 := []; sc := 0; qos := None;
                       body := ccmp_header (2 ^ 16) 0 ++ [1; 2] |} = Val (Some v) /\ 0 <= v < 2 ^ 48 /\
    (v = 2 ^ 16 <-> byte_at (le_bytes 6 (2 ^ 16)) 2 = byte_at (le_bytes 6 (2 ^ 16)) 5 /\
                byte_at (le_bytes 6 (2 ^ 16)) 3 = byte_at (le_bytes 6 (2 ^ 16)) 4) /\
    (2 ^ 16 < 2 ^ 16 -> v = 2 ^ 16) /\ (2 ^ 16 = 2 ^ 16 -> v = 2 ^ 40).
Proof. apply (ccmp_pn_reversed _ (2 ^ 16) 0 [1; 2]); [reflexivity|lia]. Defined.

Lemma aad_injective_witness :
  Z.land 0x41 0xC7 = Z.land 0x49 0xC7 /\ replicate 6 2 = replicate 6 2 /\ replicate 6 4 = replicate 6 4 /\
  replicate 6 6 = replicate 6 6 /\ Z.land 16 0xF = Z.land 32 0xF /\ Some 3 = Some 3 /\
  (if fc_type 0x88 =? TYPE_DATA then Z.land 0x88 0x8F else 0x88)
    = (if fc_type 0x88 =? TYPE_DATA then Z.land 0x88 0x8F else 0x88).
Proof.
  apply (aad_injective 0x88 0x41 (replicate 6 2) (replicate 6 4) (replicate 6 6) 16 (Some 3)
    0x88 0x49 (replicate 6 2) (replicate 6 4) (replicate 6 6) 32 (Some 3));
    [by apply (bool_decide_unpack _)..|split; [discriminate|reflexivity]|split; [discriminate|reflexivity]
    |vm_compute; reflexivity].
Defined.
