(* ===== verification/Roaming.v ===== *)
(** 802.11v/k steering frames: src/roaming/{btm,neighbor_report}.rs. *)
From S2P Require Import Prelude Elements Crypto Security Frames DataProt.

Definition ACTION_CATEGORY_WNM : Z := 10.
Definition WNM_BTM_REQUEST : Z := 7.
Definition WNM_BTM_RESPONSE : Z := 8.
Definition BTM_REQ_PREF_CAND_LIST : Z := 0x01.
Definition ACTION_CATEGORY_RADIO_MEAS : Z := 5.
Definition RADIO_MEAS_NEIGHBOR_REPORT_RESP : Z := 5.

Definition btm_request_body (dialog_token request_mode disassociation_timer validity : Z)
    (candidates : bytes) : bytes :=
  [ACTION_CATEGORY_WNM; WNM_BTM_REQUEST; dialog_token; request_mode]
  ++ le_bytes 2 disassociation_timer ++ [validity] ++ candidates.

Definition parse_btm_response (b : bytes) : res (option (Z * Z)) :=
  if (4 <=? length b)%nat then
    let! c := idx b 0 in
    let! a := idx b 1 in
    if (c =? ACTION_CATEGORY_WNM) && (a =? WNM_BTM_RESPONSE) then
      let! token := idx b 2 in
      let! status := idx b 3 in
      Val (Some (token, status))
    else Val None
  else Val None.

Definition neighbor_report_element (bssid : bytes) (op_class channel : Z) : bytes :=
  ie 52 (bssid ++ le_bytes 4 0 ++ [op_class; channel; 0x09]).

Definition reduced_neighbor_report (neighbor_bssid : bytes) (op_class channel : Z) : bytes :=
  ie 201 ([0x00; 13; op_class; channel; 0xff] ++ neighbor_bssid ++ [0; 0; 0; 0] ++ [0x00; 0x00]).

(** [short_ssid]: the bitwise CRC-32, one octet at a time. *)
Definition crc_bit (crc : Z) : Z :=
  Z.lxor (Z.shiftr crc 1) (Z.land 0xedb88320 (u32 (0 - Z.land crc 1))).
Definition crc_byte (crc b : Z) : Z := Nat.iter 8 crc_bit (Z.lxor crc b).
Definition short_ssid (ssid : bytes) : Z := Z.lxor (foldl crc_byte 0xffffffff ssid) 0xffffffff.

Definition mld_reduced_neighbor_report_with_disabled (neighbor_bssid ssid : bytes)
    (op_class channel mld_id link_id bss_change_count : Z) (disabled : bool) : bytes :=
  let param2 := Z.land (Z.shiftr bss_change_count 4) 0x0f in
  let param2 := if disabled then Z.lor param2 0x20 else param2 in
  ie 201 ([0x00; 16; op_class; channel; 0xff] ++ neighbor_bssid ++ le_bytes 4 (short_ssid ssid)
    ++ [Z.lor (Z.shiftl 1 1) (Z.shiftl 1 6); 127; mld_id;
        Z.lor (Z.land link_id 0x0f) (u8 (Z.shiftl (Z.land bss_change_count 0x0f) 4)); param2]).

Definition mld_reduced_neighbor_report (neighbor_bssid ssid : bytes)
    (op_class channel mld_id link_id bss_change_count : Z) : bytes :=
  mld_reduced_neighbor_report_with_disabled neighbor_bssid ssid op_class channel mld_id link_id
    bss_change_count false.

Section Protected.
Context {P : Primitives}.

Definition build_protected_btm_request_for_cipher_sec (cipher : DataCipher) (bssid sta : bytes)
    (dialog : Z) (disassoc_imminent : bool) (disassoc_timer sc pn : Z) (tk : bytes)
    (security_addresses : option addrs) : res bytes :=
  let mode := if disassoc_imminent then 0x04 else 0x00 in
  let b := [ACTION_CATEGORY_WNM; WNM_BTM_REQUEST; dialog; mode]
             ++ le_bytes 2 disassoc_timer ++ [0] in
  build_protected_mgmt_sec cipher SUBTYPE_ACTION sta bssid bssid security_addresses 0 sc pn 0 tk b.

Definition build_protected_neighbor_report_for_cipher_sec (cipher : DataCipher) (bssid sta : bytes)
    (dialog : Z) (neighbors : bytes) (sc pn : Z) (tk : bytes) (security_addresses : option addrs) :
    res bytes :=
  build_protected_mgmt_sec cipher SUBTYPE_ACTION sta bssid bssid security_addresses 0 sc pn 0 tk
    ([ACTION_CATEGORY_RADIO_MEAS; RADIO_MEAS_NEIGHBOR_REPORT_RESP; dialog] ++ neighbors).

End Protected.

(** The standard check value of CRC-32. *)
Example short_ssid_check : short_ssid [49; 50; 51; 52; 53; 54; 55; 56; 57] = 0xcbf43926.
Proof. by vm_compute. Qed.

Lemma parse_btm_response_total b :
  exists o, parse_btm_response b = Val o /\
    forall t s, o = Some (t, s) -> take 4 b = [ACTION_CATEGORY_WNM; WNM_BTM_RESPONSE; t; s].
Proof.
  unfold parse_btm_response. destruct b as [|c [|a [|t [|s rest]]]];
    try (eexists; split; [done|congruence]).
  rewrite (proj2 (Nat.leb_le 4 _)) by (simpl; lia). cbn [idx lookup list_lookup rbind].
  destruct (Z.eqb_spec c ACTION_CATEGORY_WNM) as [->|], (Z.eqb_spec a WNM_BTM_RESPONSE) as [->|];
    cbn [andb]; (eexists; split; [done|]); intros t' s'; try done.
  by intros [= -> ->].
Qed.
