(* ===== verification/Kde.v ===== *)
(** Group-key encapsulation: src/group_keys/kde.rs and
    src/group_keys/management.rs, the GTK, IGTK and BIGTK key-data elements of
    the EAPOL handshakes, the OCI element of src/auth/rsn.rs and the multi-link
    elements of src/mlo/keys.rs that travel with them, and BIP protection of
    group-addressed management frames. *)
From S2P Require Import Prelude Crypto Elements Frames.

(** * Finding a key-data element *)

Definition RSN_OUI : bytes := [0x00; 0x0f; 0xac].

Definition find_vendor_kde_step (key_data : bytes) (kde_type : Z) (offset : nat) :
    res (nat + option bytes) :=
  if (offset + 2 <=? length key_data)%nat then
    let! id := idx key_data offset in
    let! l := idx key_data (offset + 1) in
    let len := Z.to_nat l in
    let e := (offset + 2 + len)%nat in
    if (length key_data <? e)%nat then Val (inr None)
    else
      let! body := slice key_data (offset + 2) e in
      let! here :=
        if (id =? 0xdd) && (4 <=? length body)%nat then
          let! oui := slice body 0 3 in
          let! t := idx body 3 in
          Val (beq oui RSN_OUI && (t =? kde_type))
        else Val false in
      if (here : bool) then Val (inr (Some body)) else Val (inl e)
  else Val (inr None).

Definition find_vendor_kde (key_data : bytes) (kde_type : Z) : res (option bytes) :=
  loop (S (length key_data)) (find_vendor_kde_step key_data kde_type) 0%nat.

(** * GTK elements *)

Definition gtk_kde (key_id : Z) (gtk : bytes) : bytes :=
  [0xdd; u8 (Z.of_nat (length gtk + 6))] ++ RSN_OUI ++ [0x01]
  ++ [Z.land key_id 0x03; 0x00] ++ gtk.

Definition mlo_gtk_kde_with_pn (link_id key_id : Z) (pn gtk : bytes) : bytes :=
  [0xdd; u8 (Z.of_nat (11 + length gtk))] ++ RSN_OUI ++ [0x10]
  ++ [Z.lor (Z.land key_id 0x03) (u8 (Z.shiftl (Z.land link_id 0x0f) 4))] ++ pn ++ gtk.

Definition mlo_gtk_kde (link_id key_id : Z) (gtk : bytes) : bytes :=
  mlo_gtk_kde_with_pn link_id key_id (replicate 6 0) gtk.

Definition parse_gtk_kde_full (key_data : bytes) : res (option (Z * bytes)) :=
  let? body := find_vendor_kde key_data 0x01 in
  if (length body <? 22)%nat then Val None
  else
    let! k := idx body 4 in
    let! g := slice_from body 6 in
    Val (Some (Z.land k 0x03, g)).

Definition parse_gtk_kde (key_data : bytes) : res (option bytes) :=
  rmap (option_map snd) (parse_gtk_kde_full key_data).

Definition parse_mlo_gtk_kde_full (key_data : bytes) : res (option (Z * Z * bytes * bytes)) :=
  let? body := find_vendor_kde key_data 0x10 in
  if (length body <? 12)%nat then Val None
  else
    let! pn := slice body 5 11 in
    let! f := idx body 4 in
    let! g := slice_from body 11 in
    Val (Some (Z.land (Z.shiftr f 4) 0x0f, Z.land f 0x03, pn, g)).

(** * IGTK and BIGTK elements *)

Definition management_key_kde (kde_type key_id : Z) (ipn : bytes) (link_id : option Z)
    (key : bytes) : bytes :=
  let body := RSN_OUI ++ [kde_type] ++ le_bytes 2 key_id ++ ipn
    ++ match link_id with Some l => [u8 (Z.shiftl (Z.land l 0x0f) 4)] | None => [] end ++ key in
  [0xdd; u8 (Z.of_nat (length body))] ++ body.

Definition igtk_kde (key_id : Z) (ipn igtk : bytes) : bytes :=
  management_key_kde 0x09 key_id ipn None igtk.
Definition bigtk_kde (key_id : Z) (ipn bigtk : bytes) : bytes :=
  management_key_kde 0x0e key_id ipn None bigtk.
Definition mlo_igtk_kde (link_id key_id : Z) (ipn igtk : bytes) : bytes :=
  management_key_kde 0x11 key_id ipn (Some link_id) igtk.
Definition mlo_bigtk_kde (link_id key_id : Z) (ipn bigtk : bytes) : bytes :=
  management_key_kde 0x12 key_id ipn (Some link_id) bigtk.

Definition parse_management_key_kde (key_data : bytes) (kde_type : Z) (mlo : bool) :
    res (option (Z * Z * bytes * bytes)) :=
  let? body := find_vendor_kde key_data kde_type in
  let minimum := (4 + 2 + 6 + (if mlo then 1 else 0) + 16)%nat in
  if (length body <? minimum)%nat then Val None
  else
    let! kid := slice body 4 6 in
    let! ipn := slice body 6 12 in
    let! (lo : Z * nat) :=
      if mlo then let! b := idx body 12 in Val (Z.land (Z.shiftr b 4) 0x0f, 13%nat)
      else Val (0, 12%nat) in
    let (link_id, key_offset) := lo in
    let! key := slice body key_offset (key_offset + 16) in
    Val (Some (link_id, le_val kid, ipn, key)).

Definition drop_link (r : Z * Z * bytes * bytes) : Z * bytes * bytes :=
  let '(_, key_id, ipn, key) := r in (key_id, ipn, key).

Definition parse_igtk_kde (key_data : bytes) : res (option (Z * bytes * bytes)) :=
  rmap (option_map drop_link) (parse_management_key_kde key_data 0x09 false).
Definition parse_bigtk_kde (key_data : bytes) : res (option (Z * bytes * bytes)) :=
  rmap (option_map drop_link) (parse_management_key_kde key_data 0x0e false).
Definition parse_mlo_igtk_kde (key_data : bytes) := parse_management_key_kde key_data 0x11 true.
Definition parse_mlo_bigtk_kde (key_data : bytes) := parse_management_key_kde key_data 0x12 true.

(** * Operating Channel Information *)

Definition oci_kde (op_class channel : Z) : bytes :=
  [0xDD; 7; 0x00; 0x0f; 0xac; 0x0d; op_class; channel; 0x00].

Definition parse_oci_kde_step (key_data : bytes) (i : nat) : res (nat + option (Z * Z)) :=
  if (i + 2 <=? length key_data)%nat then
    let! id := idx key_data i in
    let! l := idx key_data (i + 1) in
    let len := Z.to_nat l in
    if (length key_data <? i + 2 + len)%nat then Val (inr None)
    else
      let! body := slice key_data (i + 2) (i + 2 + len) in
      let! here :=
        if (id =? 0xDD) && (7 <=? len)%nat then
          let! oui := slice body 0 3 in
          let! t := idx body 3 in
          Val (beq oui RSN_OUI && (t =? 0x0d))
        else Val false in
      if (here : bool) then
        let! oc := idx body 4 in
        let! ch := idx body 5 in
        Val (inr (Some (oc, ch)))
      else Val (inl (i + 2 + len)%nat)
  else Val (inr None).

Definition parse_oci_kde (key_data : bytes) : res (option (Z * Z)) :=
  loop (S (length key_data)) (parse_oci_kde_step key_data) 0%nat.

(** * Multi-link elements: src/mlo/keys.rs *)

Definition mac_addr_kde (mac : bytes) : bytes := [0xdd; 10; 0x00; 0x0f; 0xac; 0x03] ++ mac.

Definition parse_mac_addr_kde_step (key_data : bytes) (i : nat) : res (nat + option bytes) :=
  if (i + 2 <=? length key_data)%nat then
    let! id := idx key_data i in
    let! l := idx key_data (i + 1) in
    let len := Z.to_nat l in
    if (length key_data <? i + 2 + len)%nat then Val (inr None)
    else
      let! body := slice key_data (i + 2) (i + 2 + len) in
      let! here :=
        if (id =? 0xdd) && (10 <=? len)%nat then
          let! oui := slice body 0 3 in
          let! t := idx body 3 in
          Val (beq oui RSN_OUI && (t =? 0x03))
        else Val false in
      if (here : bool) then let! mac := slice body 4 10 in Val (inr (Some mac))
      else Val (inl (i + 2 + len)%nat)
  else Val (inr None).

Definition parse_mac_addr_kde (key_data : bytes) : res (option bytes) :=
  loop (S (length key_data)) (parse_mac_addr_kde_step key_data) 0%nat.

(** Which of the RSNE (48) and the RSNXE (244) a tail of elements holds. *)
Definition has_rsn_elements_step (link_rsne : bytes) (st : nat * bool * bool) :
    res (nat * bool * bool + bool * bool) :=
  let '(i, has_rsne, has_rsnxe) := st in
  if (i + 2 <=? length link_rsne)%nat then
    let! id := idx link_rsne i in
    let! l := idx link_rsne (i + 1) in
    let len := Z.to_nat l in
    if (length link_rsne <? i + 2 + len)%nat then Val (inr (has_rsne, has_rsnxe))
    else Val (inl ((i + 2 + len)%nat, has_rsne || (id =? 48), has_rsnxe || (id =? 0xf4)))
  else Val (inr (has_rsne, has_rsnxe)).

Definition mlo_link_kde (link_id : Z) (link_mac link_rsne : bytes) : res bytes :=
  let! '(has_rsne, has_rsnxe) :=
    loop (S (length link_rsne)) (has_rsn_elements_step link_rsne) (0%nat, false, false) in
  let link_info := Z.land link_id 0x0f in
  let link_info := if has_rsne : bool then Z.lor link_info 0x10 else link_info in
  let link_info := if has_rsnxe : bool then Z.lor link_info 0x20 else link_info in
  Val ([0xdd; u8 (Z.of_nat (4 + 1 + 6 + length link_rsne))] ++ RSN_OUI ++ [0x13]
       ++ [link_info] ++ link_mac ++ link_rsne).

(** * BIP-CMAC-128 *)

Definition EID_MME : Z := 76.

Definition bip_aad (fc0 fc1 : Z) (a1 a2 a3 : bytes) : bytes :=
  [fc0; Z.land fc1 0xc7] ++ a1 ++ a2 ++ a3.

(** [copy_from_slice] into / [fill(0)] of octets [off, off + n). *)
Definition splice (l : bytes) (off : nat) (v : bytes) : bytes :=
  take off l ++ v ++ drop (off + length v) l.

Section Bip.
Context {P : Primitives}.

Definition bip_protect (igtk : bytes) (key_id : Z) (ipn : bytes) (fc0 fc1 : Z)
    (a1 a2 a3 body : bytes) : res bytes :=
  let mme_offset := length body in
  let protected := body ++ [EID_MME; 16] ++ le_bytes 2 key_id ++ ipn ++ replicate 8 0 in
  let! mic := aes_cmac igtk (bip_aad fc0 fc1 a1 a2 a3 ++ protected) in
  let! m8 := slice mic 0 8 in
  let! _ := slice protected (mme_offset + 10) (mme_offset + 18) in
  Val (splice protected (mme_offset + 10) m8).

Definition bip_verify (igtk : bytes) (fc0 fc1 : Z) (a1 a2 a3 body_with_mme : bytes) : res bool :=
  if (length body_with_mme <? 18)%nat then Val false
  else
    let mme_offset := (length body_with_mme - 18)%nat in
    let! hd := slice body_with_mme mme_offset (mme_offset + 2) in
    if negb (beq hd [EID_MME; 16]) then Val false
    else
      let! given := slice body_with_mme (mme_offset + 10) (mme_offset + 18) in
      let protected := splice body_with_mme (mme_offset + 10) (replicate 8 0) in
      let! mic := aes_cmac igtk (bip_aad fc0 fc1 a1 a2 a3 ++ protected) in
      let! m8 := slice mic 0 8 in
      Val (constant_time_eq m8 given).

Definition bip_ipn (body_with_mme : bytes) : res (option Z) :=
  if (length body_with_mme <? 18)%nat then Val None
  else
    let mme_offset := (length body_with_mme - 18)%nat in
    let! hd := slice body_with_mme mme_offset (mme_offset + 2) in
    if negb (beq hd [EID_MME; 16]) then Val None
    else
      let! ipn := slice body_with_mme (mme_offset + 4) (mme_offset + 10) in
      Val (Some (le_val (ipn ++ [0; 0]))).

(** [build_group_deauth_bip] of src/group_keys/handshake.rs. *)
Definition build_group_deauth_bip (bssid igtk : bytes) (key_id : Z) (ipn : bytes) (reason sc : Z) :
    res bytes :=
  let bcast := replicate 6 0xff in
  let hdr := dot11_header TYPE_MGMT SUBTYPE_DEAUTH 0 bcast bssid bssid sc in
  let! fc0 := idx hdr 0 in
  let! fc1 := idx hdr 1 in
  let! b := bip_protect igtk key_id ipn fc0 fc1 bcast bssid bssid (le_bytes 2 reason) in
  Val (hdr ++ b).
End Bip.

(** * Parsing what the encoders produce *)

(** The key-data element of type [ty] with the given payload. *)
Definition kde (ty : Z) (payload : bytes) : Z * bytes := (0xdd, RSN_OUI ++ [ty] ++ payload).

Definition is_kde (ty : Z) (t : Z * bytes) : bool :=
  (t.1 =? 0xdd) && (4 <=? length t.2)%nat && beq (sub t.2 0 3) RSN_OUI && (nth 3 t.2 0 =? ty).

Definition is_oci (t : Z * bytes) : bool :=
  (t.1 =? 0xdd) && (7 <=? length t.2)%nat && (beq (sub t.2 0 3) RSN_OUI && (nth 3 t.2 0 =? 0x0d)).

Lemma is_kde_kde ty ty' p : is_kde ty (kde ty' p) = (ty' =? ty).
Proof. done. Qed.

Lemma find_vendor_kde_spec key_data ty :
  find_vendor_kde key_data ty
    = Val (option_map snd (List.find (is_kde ty) (elements key_data))).
Proof.
  apply (walker_spec key_data (fun i => i) _
    (fun i => option_map snd (List.find (is_kde ty) (elements (drop i key_data))))); [|lia].
  intros i Hi. unfold find_vendor_kde_step. walk i.
  - leave.
  - rust_steps. cbn [List.find].
    set (t := (nth i key_data 0, sub key_data (i + 2) e)).
    assert (Hk : is_kde ty t = (nth i key_data 0 =? 221) && (4 <=? length (sub key_data (i + 2) e))%nat
      && beq (sub (sub key_data (i + 2) e) 0 3) RSN_OUI && (nth 3 (sub key_data (i + 2) e) 0 =? ty))
      by done. rewrite Hk. clear Hk.
    destruct ((nth i key_data 0 =? 221) && (4 <=? length (sub key_data (i + 2) e))%nat) eqn:Hg;
      cbn [andb].
    + apply andb_true_iff in Hg as [_ Hg]. apply Nat.leb_le in Hg.
      rewrite slice_ok, idx_ok by lia. cbn [rbind].
      destruct (_ && _); [leave|next].
    + cbn [rbind]. next.
  - leave.
Qed.

Lemma find_vendor_kde_encoded ts tail ty :
  Forall short_element ts -> split_elements tail = ([], tail) ->
  find_vendor_kde (encode_elements ts ++ tail) ty
    = Val (option_map snd (List.find (is_kde ty) ts)).
Proof.
  intros Hts Ht. rewrite find_vendor_kde_spec. unfold elements. by rewrite split_encode.
Qed.

Lemma encode_kde ty p : encode_elements [kde ty p] = ie 0xdd (RSN_OUI ++ [ty] ++ p).
Proof. unfold encode_elements, kde. cbn [map concat fst snd]. apply app_nil_r. Qed.

Lemma gtk_kde_element k g : gtk_kde k g = encode_elements [kde 0x01 ([Z.land k 3; 0] ++ g)].
Proof.
  rewrite encode_kde. unfold gtk_kde. by rewrite (Nat.add_comm (length g) 6).
Qed.

Lemma mlo_gtk_kde_element lk k pn g : length pn = 6%nat ->
  mlo_gtk_kde_with_pn lk k pn g =
    encode_elements [kde 0x10 ([Z.lor (Z.land k 3) (u8 (Z.shiftl (Z.land lk 0xf) 4))] ++ pn ++ g)].
Proof.
  intros Hp. rewrite encode_kde. unfold mlo_gtk_kde_with_pn, ie.
  rewrite !length_app, Hp. done.
Qed.

Lemma management_key_kde_element ty k ipn lk key :
  management_key_kde ty k ipn lk key =
    encode_elements [kde ty (le_bytes 2 k ++ ipn
      ++ match lk with Some l => [u8 (Z.shiftl (Z.land l 0x0f) 4)] | None => [] end ++ key)].
Proof. by rewrite encode_kde. Qed.

Lemma oci_kde_element oc ch : oci_kde oc ch = encode_elements [kde 0x0d [oc; ch; 0]].
Proof. by rewrite encode_kde. Qed.

(** Elements in front of any tail; the padding of key data holds none of
    interest. *)
Lemma elements_encode_app ts rest :
  Forall short_element ts -> elements (encode_elements ts ++ rest) = ts ++ elements rest.
Proof.
  intros Hts. unfold elements. induction Hts as [|[id b] ts Hb Hts IH]; [done|].
  unfold short_element in Hb. cbn [snd] in Hb.
  rewrite encode_elements_cons, <- app_assoc. cbn [fst snd]. unfold ie. cbn [app].
  rewrite split_elements_cons, length_app. unfold u8.
  rewrite Z.mod_small, Nat2Z.id by lia. rewrite (proj2 (Nat.ltb_ge _ _)) by lia.
  rewrite drop_app_length, take_app_length.
  destruct (split_elements (encode_elements ts ++ rest)). cbn [fst] in *. by rewrite IH.
Qed.

Lemma elements_zeros n : Forall (fun t => t.1 = 0) (elements (replicate n 0)).
Proof.
  induction n as [n IH] using lt_wf_ind. destruct n as [|[|n]]; [constructor|constructor|].
  unfold elements. cbn [replicate]. rewrite split_elements_cons.
  change (Z.to_nat 0) with 0%nat. cbn [Nat.ltb Nat.leb]. rewrite drop_0, take_0.
  specialize (IH n ltac:(lia)). unfold elements in IH.
  destruct (split_elements (replicate n 0)). cbn [fst] in *. by constructor.
Qed.

Lemma elements_padding n :
  Forall (fun t => t.1 = 0 \/ t.2 = []) (elements (0xdd :: replicate n 0)).
Proof.
  destruct n as [|n]; [constructor|]. unfold elements. cbn [replicate].
  rewrite split_elements_cons. change (Z.to_nat 0) with 0%nat. cbn [Nat.ltb Nat.leb]. rewrite drop_0, take_0.
  pose proof (elements_zeros n) as H. unfold elements in H.
  destruct (split_elements (replicate n 0)). cbn [fst] in *. constructor; [by right|].
  eapply Forall_impl; [exact H|]. auto.
Qed.

(** A predicate on elements that no padding satisfies is decided on the
    elements before the padding. *)
Lemma find_padded (f : Z * bytes -> bool) ts padded :
  Forall short_element ts -> (forall b, f (0, b) = false) -> (forall id, f (id, []) = false) ->
  pad_key_data (encode_elements ts) = Val padded ->
  List.find f (elements padded) = List.find f ts.
Proof.
  intros Hts H0 Hnil. rewrite pad_key_data_spec.
  assert (Hpad : forall us, Forall (fun t => t.1 = 0 \/ t.2 = []) us ->
    List.find f (ts ++ us) = List.find f ts).
  { intros us Hus. induction ts as [|t ts IH]; cbn [app List.find].
    - clear -Hus H0 Hnil. induction Hus as [|[id b] us [Hi|Hi] Hus IH]; [done|..];
        cbn [fst snd] in Hi; subst; cbn [List.find]; by rewrite ?H0, ?Hnil.
    - apply Forall_cons in Hts as [_ Hts]. rewrite IH by done. done. }
  intros [= <-]. destruct (_ =? _)%nat.
  - rewrite <- (app_nil_r (encode_elements ts)), elements_encode_app by done. by apply Hpad.
  - rewrite elements_encode_app by done. apply Hpad, elements_padding.
Qed.

Lemma is_kde_not_padding ty : (forall b, is_kde ty (0, b) = false) /\ (forall id, is_kde ty (id, []) = false).
Proof. split; [done|]. intros id. unfold is_kde. cbn [fst snd length]. by rewrite andb_false_r. Qed.

Lemma is_oci_not_padding : (forall b, is_oci (0, b) = false) /\ (forall id, is_oci (id, []) = false).
Proof. split; [done|]. intros id. unfold is_oci. cbn [fst snd length]. by rewrite andb_false_r. Qed.

Lemma find_vendor_kde_padded ts padded ty :
  Forall short_element ts -> pad_key_data (encode_elements ts) = Val padded ->
  find_vendor_kde padded ty = Val (option_map snd (List.find (is_kde ty) ts)).
Proof.
  intros Hts Hp. rewrite find_vendor_kde_spec. destruct (is_kde_not_padding ty).
  by rewrite (find_padded _ ts).
Qed.

(** Each parser reads the payload of the first element of its type. *)
Lemma parse_gtk_kde_full_found kd k g :
  find_vendor_kde kd 0x01 = Val (Some (RSN_OUI ++ [0x01] ++ [k; 0] ++ g)) ->
  (16 <= length g)%nat -> parse_gtk_kde_full kd = Val (Some (Z.land k 3, g)).
Proof.
  intros H Hg. unfold parse_gtk_kde_full. rewrite H. cbn [obind rbind].
  rewrite (proj2 (Nat.ltb_ge _ _)) by len. rust_steps. done.
Qed.

Lemma parse_mlo_gtk_kde_full_found kd f pn g :
  find_vendor_kde kd 0x10 = Val (Some (RSN_OUI ++ [0x10] ++ [f] ++ pn ++ g)) ->
  length pn = 6%nat -> (1 <= length g)%nat ->
  parse_mlo_gtk_kde_full kd = Val (Some (Z.land (Z.shiftr f 4) 0xf, Z.land f 3, pn, g)).
Proof.
  intros H Hp Hg. unfold parse_mlo_gtk_kde_full. rewrite H. cbn [obind rbind].
  rewrite (proj2 (Nat.ltb_ge _ _)) by len. rust_steps. do 3 f_equal.
  - f_equal. peel.
  - rewrite !app_assoc. apply drop_app_length'. len.
Qed.

Lemma parse_management_key_kde_found kd ty (mlo : bool) k ipn lk key :
  find_vendor_kde kd ty = Val (Some (RSN_OUI ++ [ty] ++ le_bytes 2 k ++ ipn
      ++ (if mlo then [u8 (Z.shiftl (Z.land lk 0xf) 4)] else []) ++ key)) ->
  length ipn = 6%nat -> length key = 16%nat -> 0 <= k < 2 ^ 16 ->
  parse_management_key_kde kd ty mlo
    = Val (Some (if mlo then Z.land (Z.shiftr (u8 (Z.shiftl (Z.land lk 0xf) 4)) 4) 0xf else 0,
                 k, ipn, key)).
Proof.
  intros H Hi Hk Hr. unfold parse_management_key_kde. rewrite H. cbn [obind rbind].
  set (b := RSN_OUI ++ _).
  assert (Hlen : length b = (4 + 2 + 6 + (if mlo then 1 else 0) + 16)%nat)
    by (unfold b; destruct mlo; len).
  rewrite Hlen, Nat.ltb_irrefl. destruct mlo.
  - rust_steps. replace (nth 12 b 0) with (u8 (Z.shiftl (Z.land lk 0xf) 4)).
    2: { unfold b. rewrite !app_assoc, <- (app_assoc _ [_]). rewrite app_nth2 by len.
         rewrite !length_app, length_le_bytes, Hi. done. }
    do 3 f_equal; [f_equal; [f_equal|]|].
    + apply le_val_of; [unfold b; peel|done].
    + unfold b. peel.
    + unfold b. peel.
  - rust_steps. do 3 f_equal; [f_equal; [f_equal|]|].
    + apply le_val_of; [unfold b; peel|done].
    + unfold b. peel.
    + unfold b. peel.
Qed.

Lemma link_nibble lk : 0 <= lk < 16 ->
  Z.land (Z.shiftr (u8 (Z.shiftl (Z.land lk 0xf) 4)) 4) 0xf = lk.
Proof.
  intros H. assert (Hc : lk ∈ seqZ 0 16) by (apply elem_of_seqZ; lia).
  change (seqZ 0 16) with [0;1;2;3;4;5;6;7;8;9;10;11;12;13;14;15] in Hc.
  repeat (apply elem_of_cons in Hc as [->|Hc]; [done|]). by apply elem_of_nil in Hc.
Qed.

Lemma parse_oci_kde_spec key_data :
  parse_oci_kde key_data =
    Val (option_map (fun t => (nth 4 t.2 0, nth 5 t.2 0)) (List.find is_oci (elements key_data))).
Proof.
  apply (walker_spec key_data (fun i => i) _
    (fun i => option_map (fun t => (nth 4 t.2 0, nth 5 t.2 0))
                (List.find is_oci (elements (drop i key_data))))); [|lia].
  intros i Hi. unfold parse_oci_kde_step. walk i.
  - leave.
  - rust_steps. cbn [List.find].
    set (t := (nth i key_data 0, sub key_data (i + 2) e)).
    assert (Hl : length (sub key_data (i + 2) e) = Z.to_nat (nth (i + 1) key_data 0))
      by (rewrite length_sub by lia; unfold e; lia).
    assert (Hk : is_oci t = (nth i key_data 0%Z =? 221)%Z && (7 <=? Z.to_nat (byte_at key_data (i + 1)))%nat
      && (beq (sub (sub key_data (i + 2) e) 0 3) RSN_OUI && (nth 3 (sub key_data (i + 2) e) 0%Z =? 0x0d)%Z))
      by (rewrite <- Hl; done). rewrite Hk. clear Hk.
    destruct ((nth i key_data 0 =? 221) && (7 <=? Z.to_nat (byte_at key_data (i + 1)))%nat) eqn:Hg;
      cbn [andb].
    + apply andb_true_iff in Hg as [_ Hg]. apply Nat.leb_le in Hg.
      rewrite slice_ok, idx_ok by lia. cbn [rbind].
      destruct (_ && _); [rewrite !idx_ok by lia; leave|next].
    + cbn [rbind]. next.
  - leave.
Qed.

(** The MAC Address element, and the presence bits of a link element. *)
Definition is_mac_kde (t : Z * bytes) : bool :=
  (t.1 =? 0xdd) && (10 <=? length t.2)%nat && (beq (sub t.2 0 3) RSN_OUI && (nth 3 t.2 0 =? 3)).

Lemma parse_mac_addr_kde_spec key_data :
  parse_mac_addr_kde key_data =
    Val (option_map (fun t => sub t.2 4 10) (List.find is_mac_kde (elements key_data))).
Proof.
  apply (walker_spec key_data (fun i => i) _
    (fun i => option_map (fun t => sub t.2 4 10)
                (List.find is_mac_kde (elements (drop i key_data))))); [|lia].
  intros i Hi. unfold parse_mac_addr_kde_step. walk i.
  - leave.
  - rust_steps. cbn [List.find].
    set (t := (nth i key_data 0, sub key_data (i + 2) e)).
    assert (Hl : length (sub key_data (i + 2) e) = Z.to_nat (nth (i + 1) key_data 0))
      by (rewrite length_sub by lia; unfold e; lia).
    assert (Hk : is_mac_kde t = (nth i key_data 0%Z =? 221)%Z && (10 <=? Z.to_nat (byte_at key_data (i + 1)))%nat
      && (beq (sub (sub key_data (i + 2) e) 0 3) RSN_OUI && (nth 3 (sub key_data (i + 2) e) 0%Z =? 3)%Z))
      by (rewrite <- Hl; done). rewrite Hk. clear Hk.
    destruct ((nth i key_data 0 =? 221) && (10 <=? Z.to_nat (byte_at key_data (i + 1)))%nat) eqn:Hg;
      cbn [andb].
    + apply andb_true_iff in Hg as [_ Hg]. apply Nat.leb_le in Hg.
      rewrite (slice_ok _ 0 3), idx_ok by lia. cbn [rbind].
      destruct (_ && _); [rewrite slice_ok by lia; leave|next].
    + cbn [rbind]. next.
  - leave.
Qed.

Lemma parse_mac_addr_kde_encoded mac rest :
  arr 6 mac -> parse_mac_addr_kde (mac_addr_kde mac ++ rest) = Val (Some mac).
Proof.
  intros [Hm _]. rewrite parse_mac_addr_kde_spec. unfold elements.
  change (mac_addr_kde mac ++ rest) with (0xdd :: 10 :: ([0x00; 0x0f; 0xac; 0x03] ++ mac) ++ rest).
  rewrite split_elements_cons. rewrite (proj2 (Nat.ltb_ge _ _)) by len.
  set (b := [0x00; 0x0f; 0xac; 0x03] ++ mac).
  change (Z.to_nat 10) with 10%nat.
  rewrite take_app_le by (unfold b; len). rewrite take_ge by (unfold b; len).
  destruct (split_elements _). cbn [fst List.find].
  assert (is_mac_kde (0xdd, b) = true) as ->.
  { unfold is_mac_kde. cbn [fst snd]. replace (length b) with 10%nat by (unfold b; len). done. }
  cbn [option_map snd]. do 2 f_equal. unfold b. peel.
Qed.

Lemma mlo_link_kde_spec link_id link_mac rsne :
  exists info, mlo_link_kde link_id link_mac rsne =
    Val ([0xdd; u8 (Z.of_nat (4 + 1 + 6 + length rsne))] ++ RSN_OUI ++ [0x13]
         ++ [info] ++ link_mac ++ rsne) /\
    info = Z.lor (Z.lor (Z.land link_id 0x0f)
                    (if existsb (fun t => t.1 =? 48) (elements rsne) then 0x10 else 0))
              (if existsb (fun t => t.1 =? 0xf4) (elements rsne) then 0x20 else 0).
Proof.
  unfold mlo_link_kde.
  rewrite (walker_spec rsne (fun st => st.1.1) (has_rsn_elements_step rsne)
    (fun st => (st.1.2 || existsb (fun t => t.1 =? 48) (elements (drop st.1.1 rsne)),
                st.2 || existsb (fun t => t.1 =? 0xf4) (elements (drop st.1.1 rsne))))
    (0%nat, false, false)); [|intros [[i h1] h2] Hi; cbn [fst snd] in *|cbn; lia].
  - cbn [rbind fst snd]. rewrite drop_0. cbn [orb]. eexists. split; [done|].
    do 2 case_match; by rewrite ?Z.lor_0_r.
  - unfold has_rsn_elements_step. walk i.
    + eexists. split; [done|]. cbn. by rewrite !orb_false_r.
    + eexists. split; [done|]. cbn [fst snd existsb]. split; [lia|].
      by rewrite !orb_assoc.
    + eexists. split; [done|]. cbn. by rewrite !orb_false_r.
Qed.

(** * BIP *)

Lemma splice_middle (a b c v : bytes) off :
  off = length a -> length v = length b -> splice (a ++ b ++ c) off v = a ++ v ++ c.
Proof.
  intros -> Hv. unfold splice. rewrite take_app_length, Hv.
  by rewrite <- length_app, (app_assoc a b c), drop_app_length.
Qed.

Lemma splice_end (a b v : bytes) off :
  off = length a -> length v = length b -> splice (a ++ b) off v = a ++ v.
Proof.
  intros H1 H2. pose proof (splice_middle a b [] v off H1 H2) as H. by rewrite !app_nil_r in H.
Qed.

Section BipProofs.
Context {P : Primitives} {POk : PrimitivesOk P}.

Definition mme_head (key_id : Z) (ipn : bytes) : bytes := [EID_MME; 16] ++ le_bytes 2 key_id ++ ipn.

Lemma bip_mic igtk f0 f1 a1 a2 a3 p :
  arr 16 igtk -> is_byte f0 -> is_byte f1 -> arr 6 a1 -> arr 6 a2 -> arr 6 a3 -> wf_bytes p ->
  exists mic, aes_cmac igtk (bip_aad f0 f1 a1 a2 a3 ++ p) = Val mic /\ arr 16 mic.
Proof.
  intros Hk H0 H1 [_ Ha1] [_ Ha2] [_ Ha3] Hp. apply aes_cmac_ok; [done|].
  unfold bip_aad. assert (is_byte (Z.land f1 0xc7)) by (apply (land_range 8); unfold is_byte in *; lia).
  auto 10 with bytes.
Qed.

(** BIP, sending: a group-addressed management frame gets a management MIC
    element whose MIC is the AES-CMAC of the addresses and the body with a zeroed
    MIC; the receiver verifies it under the same IGTK and reads back the packet
    number. *)
Lemma bip_protect_verify igtk kid ipn f0 f1 a1 a2 a3 b :
  arr 16 igtk -> arr 6 ipn -> is_byte f0 -> is_byte f1 ->
  arr 6 a1 -> arr 6 a2 -> arr 6 a3 -> wf_bytes b ->
  exists mic p, aes_cmac igtk (bip_aad f0 f1 a1 a2 a3 ++ b ++ mme_head kid ipn ++ replicate 8 0) = Val mic /\
    bip_protect igtk kid ipn f0 f1 a1 a2 a3 b = Val p /\
    p = b ++ mme_head kid ipn ++ sub mic 0 8 /\ wf_bytes p /\
    bip_verify igtk f0 f1 a1 a2 a3 p = Val true /\ bip_ipn p = Val (Some (le_val ipn)).
Proof.
  intros Hk Hipn H0 H1 Ha1 Ha2 Ha3 Hb. pose proof (arr_length _ _ Hipn) as Hil.
  assert (Hhd : length (mme_head kid ipn) = 10%nat) by (unfold mme_head; len).
  assert (Hhw : wf_bytes (mme_head kid ipn)).
  { unfold mme_head, EID_MME. destruct Hipn. auto 10 with bytes. }
  set (p0 := b ++ mme_head kid ipn ++ replicate 8 0).
  assert (Hp0 : wf_bytes p0) by (unfold p0; auto with bytes).
  destruct (bip_mic igtk f0 f1 a1 a2 a3 p0) as (mic & Hmic & Hml & Hmw); [done..|].
  exists mic, (b ++ mme_head kid ipn ++ sub mic 0 8). split; [done|].
  assert (H8 : length (sub mic 0 8) = 8%nat) by (rewrite length_sub; lia).
  assert (Hp : length (b ++ mme_head kid ipn ++ sub mic 0 8) = (length b + 18)%nat)
    by (rewrite !length_app; lia).
  split; [|split; [done|split; [auto with bytes|]]].
  - unfold bip_protect.
    replace (b ++ [EID_MME; 16] ++ le_bytes 2 kid ++ ipn ++ replicate 8 0) with p0
      by (unfold p0, mme_head; by rewrite <- !app_assoc).
    rewrite Hmic. cbn [rbind]. rewrite (slice_ok mic) by lia. cbn [rbind].
    assert (Hl0 : length p0 = (length b + 18)%nat) by (unfold p0; rewrite !length_app, length_replicate; lia).
    rewrite slice_ok by lia. cbn [rbind]. do 2 f_equal.
    unfold p0. rewrite !app_assoc. apply splice_end; [len|len].
  - assert (Hoff : (length (b ++ mme_head kid ipn ++ sub mic 0 8) - 18)%nat = length b) by lia.
    assert (Ehd : sub (b ++ mme_head kid ipn ++ sub mic 0 8) (length b) (length b + 2) = [EID_MME; 16]).
    { rewrite sub_app_r by lia. rewrite Nat.sub_diag, sub_app_l by lia.
      replace (length b + 2 - length b)%nat with 2%nat by lia. done. }
    split.
    + unfold bip_verify. rewrite Hoff. rewrite (proj2 (Nat.ltb_ge _ 18)) by lia.
      rewrite !slice_ok by lia. cbn [rbind]. rewrite Ehd, beq_refl. cbn [negb].
      replace (splice _ _ _) with p0.
      2: { unfold p0. symmetry. rewrite !app_assoc. apply splice_end; [len|len]. }
      rewrite Hmic. cbn [rbind]. rewrite slice_ok by lia. cbn [rbind].
      replace (sub _ (length b + 10) (length b + 18)) with (sub mic 0 8).
      2: { symmetry. rewrite !sub_app_r by lia. unfold sub at 1. rewrite Hhd.
           replace (length b + 10 - length b - 10)%nat with 0%nat by lia.
           rewrite drop_0. apply take_ge. lia. }
      by rewrite constant_time_eq_spec, beq_refl by auto with bytes.
    + unfold bip_ipn. rewrite Hoff. rewrite (proj2 (Nat.ltb_ge _ 18)) by lia.
      rewrite !slice_ok by lia. cbn [rbind]. rewrite Ehd, beq_refl. cbn [negb].
      replace (sub _ (length b + 4) (length b + 10)) with ipn
        by (symmetry; unfold mme_head; peel).
      do 2 f_equal. apply (le_val_app_zero ipn 2).
Qed.

(** BIP, receiving: verification answers on every body, and succeeds exactly
    when the body ends in a management MIC element whose last eight octets are
    the AES-CMAC of everything before them. *)
Lemma bip_verify_sound igtk f0 f1 a1 a2 a3 p :
  arr 16 igtk -> is_byte f0 -> is_byte f1 -> arr 6 a1 -> arr 6 a2 -> arr 6 a3 -> wf_bytes p ->
  exists v, bip_verify igtk f0 f1 a1 a2 a3 p = Val v /\
    (v = true <-> exists b rest tag mic,
       p = b ++ [EID_MME; 16] ++ rest ++ tag /\ length rest = 8%nat /\ length tag = 8%nat /\
       aes_cmac igtk (bip_aad f0 f1 a1 a2 a3 ++ b ++ [EID_MME; 16] ++ rest ++ replicate 8 0) = Val mic /\
       tag = sub mic 0 8).
Proof.
  intros Hk H0 H1 Ha1 Ha2 Ha3 Hp. unfold bip_verify.
  destruct (Nat.ltb_spec (length p) 18) as [Hl|Hl].
  { exists false. split; [done|]. split; [done|]. intros (b & rest & tag & mic & -> & Hr & Ht & _).
    rewrite !length_app in Hl. simpl in Hl. lia. }
  set (n := (length p - 18)%nat). rewrite !slice_ok by lia. cbn [rbind].
  assert (Esplit : p = take n p ++ sub p n (n + 2) ++ sub p (n + 2) (n + 10) ++ sub p (n + 10) (n + 18)).
  { replace (sub p (n + 10) (n + 18)) with (drop (n + 10) p).
    2: { unfold sub. rewrite take_ge; [done|]. rewrite length_drop. lia. }
    rewrite !sub_cat_drop by lia. by rewrite take_drop. }
  destruct (beq (sub p n (n + 2)) [EID_MME; 16]) eqn:Eh; cbn [negb].
  2: { exists false. split; [done|]. split; [done|].
       intros (b & rest & tag & mic & -> & Hr & Ht & _). exfalso.
       assert (n = length b) as Hn by (unfold n; rewrite !length_app; simpl; lia).
       rewrite Hn in Eh. revert Eh. rewrite sub_app_r by lia. rewrite Nat.sub_diag.
       replace (length b + 2 - length b)%nat with 2%nat by lia. done. }
  apply beq_true in Eh. rewrite Eh in Esplit.
  assert (Esp : splice p (n + 10) (replicate 8 0) =
    take n p ++ [EID_MME; 16] ++ sub p (n + 2) (n + 10) ++ replicate 8 0).
  { rewrite Esplit at 1. rewrite !app_assoc. apply splice_end.
    - rewrite !length_app, length_take, length_sub by lia. simpl. lia.
    - rewrite length_replicate, length_sub by lia. lia. }
  rewrite Esp. destruct (bip_mic igtk f0 f1 a1 a2 a3
    (take n p ++ [EID_MME; 16] ++ sub p (n + 2) (n + 10) ++ replicate 8 0))
    as (mic & Hmic & Hml & Hmw); [done..| |].
  { unfold EID_MME. auto 10 with bytes. }
  rewrite Hmic. cbn [rbind]. rewrite slice_ok by lia. cbn [rbind].
  rewrite constant_time_eq_spec by auto with bytes. eexists. split; [done|].
  rewrite beq_true. split.
  - intros E. exists (take n p), (sub p (n + 2) (n + 10)), (sub p (n + 10) (n + 18)), mic.
    split; [done|]. rewrite !length_sub by lia. split; [lia|]. split; [lia|]. done.
  - intros (b & rest & tag & mic' & Ep & Hr & Ht & Hm & ->).
    assert (n = length b) as Hn by (unfold n; rewrite Ep, !length_app; simpl; lia).
    assert (take n p = b) as Eb by (rewrite Ep, Hn; apply take_app_length).
    assert (sub p (n + 2) (n + 10) = rest) as Er by (rewrite Ep, Hn; peel).
    assert (sub p (n + 10) (n + 18) = sub mic' 0 8) as Et by (rewrite Ep, Hn; peel).
    rewrite Eb, Er in Hmic. rewrite Hmic in Hm. injection Hm as <-. done.
Qed.
End BipProofs.
