(* ===== verification/Rsn.v ===== *)
(** RSN negotiation: src/auth/rsn.rs, with the OWE elements of
    src/auth/wpa3/owe.rs that need no curve arithmetic, the RSN part of the
    association requests of src/auth/frames.rs and the comparison of message 2
    with the association request of src/ap/mod.rs. *)
From S2P Require Import Prelude Crypto Security Elements Frames Kde.

(** * Advertised elements *)

Definition RSN : bytes :=
  [0x30; 0x14; 0x01; 0x00; 0x00; 0x0f; 0xac; 0x04; 0x01; 0x00; 0x00; 0x0f; 0xac; 0x04; 0x01; 0x00;
   0x00; 0x0f; 0xac; 0x02; 0x00; 0x00].
Definition RSN_PSK_SHA256 : bytes :=
  [0x30; 0x14; 0x01; 0x00; 0x00; 0x0f; 0xac; 0x04; 0x01; 0x00; 0x00; 0x0f; 0xac; 0x04; 0x01; 0x00;
   0x00; 0x0f; 0xac; 0x06; 0x00; 0x00].
Definition RSN_PSK_SHA256_MIXED : bytes :=
  [0x30; 0x18; 0x01; 0x00; 0x00; 0x0f; 0xac; 0x04; 0x01; 0x00; 0x00; 0x0f; 0xac; 0x04;
   0x02; 0x00; 0x00; 0x0f; 0xac; 0x02; 0x00; 0x0f; 0xac; 0x06; 0x00; 0x00].
Definition RSN_WPA3 : bytes :=
  [0x30; 0x1a; 0x01; 0x00; 0x00; 0x0f; 0xac; 0x04; 0x01; 0x00; 0x00; 0x0f; 0xac; 0x04;
   0x01; 0x00; 0x00; 0x0f; 0xac; 0x08; 0xc0; 0x00; 0x00; 0x00; 0x00; 0x0f; 0xac; 0x06].
Definition RSNXE_H2E : bytes := [0xf4; 0x01; 0x20].
Definition RSN_TRANSITION : bytes :=
  [0x30; 0x1e; 0x01; 0x00; 0x00; 0x0f; 0xac; 0x04; 0x01; 0x00; 0x00; 0x0f; 0xac; 0x04;
   0x02; 0x00; 0x00; 0x0f; 0xac; 0x08; 0x00; 0x0f; 0xac; 0x02; 0x80; 0x00; 0x00; 0x00;
   0x00; 0x0f; 0xac; 0x06].
Definition RSN_OWE : bytes :=
  [0x30; 0x14; 0x01; 0x00; 0x00; 0x0f; 0xac; 0x04; 0x01; 0x00; 0x00; 0x0f; 0xac; 0x04;
   0x01; 0x00; 0x00; 0x0f; 0xac; 0x12; 0xc0; 0x00].

(** [v[13] = cipher.suite_type()]: every canonical element is long enough. *)
Definition security_tail_for_cipher (mode : SecurityMode) (cipher : DataCipher) : bytes :=
  let v := match mode with
           | Wpa2 => RSN
           | Wpa2PskSha256 => RSN_PSK_SHA256_MIXED
           | Wpa3Sae => RSN_WPA3 ++ RSNXE_H2E
           | Transition => RSN_TRANSITION ++ RSNXE_H2E
           | Owe => RSN_OWE
           end in
  <[13%nat := suite_type cipher]> v.

Definition security_tail (mode : SecurityMode) : bytes := security_tail_for_cipher mode Ccmp128.

Definition rsn_suite (suite_type : Z) : bytes := [0x00; 0x0f; 0xac; suite_type].

(** The loop that splices the further pairwise suites in front of the AKMs. *)
Fixpoint splice_suites (index : nat) (ciphers : list DataCipher) (tail : bytes) : bytes :=
  match ciphers with
  | [] => tail
  | c :: cs =>
      let offset := (14 + (index - 1) * 4)%nat in
      let tail := take offset tail ++ rsn_suite (suite_type c) ++ drop offset tail in
      let tail := <[1%nat := Z.min 255 (byte_at tail 1 + 4)]> tail in
      splice_suites (S index) cs tail
  end.

Definition security_tail_for_ciphers (mode : SecurityMode) (ciphers : list DataCipher) : bytes :=
  if bool_decide (mode = Transition) && bool_decide (ciphers = [Ccmp256; Ccmp128]) then
    [0x30; 0x20; 0x01; 0x00; 0x00; 0x0f; 0xac; 0x04; 0x02; 0x00; 0x00; 0x0f; 0xac; 0x0a;
     0x00; 0x0f; 0xac; 0x04; 0x03; 0x00; 0x00; 0x0f; 0xac; 0x02; 0x00; 0x0f; 0xac; 0x06;
     0x00; 0x0f; 0xac; 0x08; 0x8c; 0x00; 0xf4; 0x01; 0x20]
  else
    match ciphers with
    | [] => security_tail_for_cipher mode Ccmp128
    | first :: more =>
        let tail := splice_suites 1 more (security_tail_for_cipher mode first) in
        splice tail 8 (le_bytes 2 (u16 (Z.of_nat (length ciphers))))
    end.

(** * Parsing an RSNE body *)

Record RsnInfo := {
  group : bytes;
  pairwise : list bytes;
  akms : list bytes;
  capabilities : option Z;
  group_mgmt : option bytes
}.

Definition take_u16 (data : bytes) (off : nat) : option (Z * nat) :=
  b ← get_range data off (off + 2); Some (le_val b, (off + 2)%nat).
Definition take_suite (data : bytes) (off : nat) : option (bytes * nat) :=
  b ← get_range data off (off + 4); Some (b, (off + 4)%nat).

Fixpoint take_suites (n : nat) (data : bytes) (off : nat) : option (list bytes * nat) :=
  match n with
  | O => Some ([], off)
  | S n' =>
      '(s, off) ← take_suite data off;
      '(ss, off) ← take_suites n' data off;
      Some (s :: ss, off)
  end.

Fixpoint skip_pmkids (n : nat) (data : bytes) (off : nat) : option nat :=
  match n with
  | O => Some off
  | S n' => _ ← get_range data off (off + 16); skip_pmkids n' data (off + 16)
  end.

Definition parse_rsn (rsn : bytes) : option RsnInfo :=
  '(version, off) ← take_u16 rsn 0;
  if negb (version =? 1) then None
  else
    '(group, off) ← take_suite rsn off;
    '(pairwise_count, off) ← take_u16 rsn off;
    if pairwise_count =? 0 then None
    else
      '(pairwise, off) ← take_suites (Z.to_nat pairwise_count) rsn off;
      '(akm_count, off) ← take_u16 rsn off;
      if akm_count =? 0 then None
      else
        '(akms, off) ← take_suites (Z.to_nat akm_count) rsn off;
        '(capabilities, off) ←
          (if (off =? length rsn)%nat then Some (None, off)
           else '(c, off) ← take_u16 rsn off; Some (Some c, off));
        '(group_mgmt, off) ←
          (if (off <? length rsn)%nat then
             '(pmkid_count, off) ← take_u16 rsn off;
             off ← skip_pmkids (Z.to_nat pmkid_count) rsn off;
             if (off <? length rsn)%nat then
               '(g, off) ← take_suite rsn off; Some (Some g, off)
             else Some (None, off)
           else Some (None, off));
        if negb (off =? length rsn)%nat then None
        else Some {| group := group; pairwise := pairwise; akms := akms;
                     capabilities := capabilities; group_mgmt := group_mgmt |}.

(** * Negotiation *)

Definition STATUS_INVALID_IE : Z := 40.
Definition STATUS_INVALID_AKMP : Z := 43.

Definition contains (l : list bytes) (s : bytes) : bool := existsb (beq s) l.

Definition pmf_required (mode : SecurityMode) (has_sae has_psk : bool) : bool :=
  match mode with
  | Wpa3Sae | Owe => true
  | Transition => has_sae && negb has_psk
  | _ => false
  end.

Definition negotiate_assoc_pairwise_cipher (rsn : bytes) (mode : SecurityMode)
    (supported : list DataCipher) : result DataCipher Z :=
  if beq rsn [1; 0] then Err STATUS_INVALID_AKMP
  else
    match parse_rsn rsn with
    | None => Err STATUS_INVALID_IE
    | Some info =>
        match List.find (fun c => contains (pairwise info) (rsn_suite (suite_type c))) supported with
        | None => Err STATUS_INVALID_IE
        | Some selected =>
            if negb (beq (group info) (rsn_suite 4)) then Err STATUS_INVALID_IE
            else
              let has_psk := contains (akms info) (rsn_suite 2) in
              let has_psk_sha256 := contains (akms info) (rsn_suite 6) in
              let has_sae := contains (akms info) (rsn_suite 8) in
              let has_owe := contains (akms info) (rsn_suite 18) in
              let supported :=
                match mode with
                | Wpa2 => has_psk
                | Wpa2PskSha256 => has_psk || has_psk_sha256
                | Wpa3Sae => has_sae
                | Transition => has_psk || has_psk_sha256 || has_sae
                | Owe => has_owe
                end in
              if negb supported then Err STATUS_INVALID_AKMP
              else if pmf_required mode has_sae has_psk then
                match capabilities info with
                | None => Err STATUS_INVALID_IE
                | Some caps =>
                    if negb (Z.land caps 0x00c0 =? 0x00c0) then Err STATUS_INVALID_IE
                    else Ok selected
                end
              else Ok selected
        end
    end.

Definition validate_assoc_rsn_for_cipher (rsn : bytes) (mode : SecurityMode) (cipher : DataCipher) :
    result unit Z :=
  match negotiate_assoc_pairwise_cipher rsn mode [cipher] with Ok _ => Ok tt | Err e => Err e end.

Definition validate_assoc_rsn (rsn : bytes) (mode : SecurityMode) : result unit Z :=
  validate_assoc_rsn_for_cipher rsn mode Ccmp128.

Definition validate_psk_sha256_rsn_for_cipher (rsn : bytes) (cipher : DataCipher) : result unit Z :=
  match parse_rsn rsn with
  | None => Err STATUS_INVALID_IE
  | Some info =>
      if negb (beq (group info) (rsn_suite 4))
         || negb (contains (pairwise info) (rsn_suite (suite_type cipher)))
      then Err STATUS_INVALID_IE
      else if negb (contains (akms info) (rsn_suite 6)) then Err STATUS_INVALID_AKMP
      else Ok tt
  end.

Definition rsnxe_has_sae_h2e (rsnxe : bytes) : bool :=
  match rsnxe with c :: _ => has_bit c 0x20 | [] => false end.

Definition rsn_negotiation_matches (association message_2 : bytes) : bool :=
  match parse_rsn association, parse_rsn message_2 with
  | Some a, Some m2 =>
      beq (group a) (group m2) && bool_decide (pairwise a = pairwise m2)
      && bool_decide (akms a = akms m2) && bool_decide (capabilities a = capabilities m2)
      && bool_decide (group_mgmt a = group_mgmt m2)
  | _, _ => false
  end.

(** [message_2_security_matches] of src/ap/mod.rs. *)
Definition message_2_security_matches (assoc_ies key_data : bytes) : res bool :=
  let! a := find_ie_strict assoc_ies 48 in
  match a with
  | Ok (Some assoc_rsn) =>
      let! m := find_ie_strict key_data 48 in
      match m with
      | Ok (Some m2_rsn) =>
          if negb (rsn_negotiation_matches assoc_rsn m2_rsn) then Val false
          else
            let! ax := find_ie_consistent assoc_ies 0xf4 in
            match ax with
            | Err _ => Val false
            | Ok assoc_rsnxe =>
                let! mx := find_ie_consistent key_data 0xf4 in
                match mx with
                | Err _ => Val false
                | Ok m2_rsnxe => Val (bool_decide (assoc_rsnxe = m2_rsnxe))
                end
            end
      | _ => Val false
      end
  | _ => Val false
  end.

(** * PMKIDs, AKMs and capabilities of an element body *)

(** The loop [chunks_exact(16)] over a slice of a multiple of 16 octets. *)
Fixpoint chunks16 (n : nat) (l : bytes) : list bytes :=
  match n with O => [] | S n' => take 16 l :: chunks16 n' (drop 16 l) end.

Definition get_u16 (l : bytes) (off : nat) : option Z :=
  a ← get l off; b ← get l (off + 1); Some (le_val [a; b]).

Definition parse_rsn_pmkids (rsn_body : bytes) : option (list bytes) :=
  let off := (2 + 4)%nat in
  pw_count ← get_u16 rsn_body off;
  let off := (off + 2 + 4 * Z.to_nat pw_count)%nat in
  akm_count ← get_u16 rsn_body off;
  let off := (off + 2 + 4 * Z.to_nat akm_count)%nat in
  let off := (off + 2)%nat in
  pmkid_count ← get_u16 rsn_body off;
  let off := (off + 2)%nat in
  let e := (off + Z.to_nat pmkid_count * 16)%nat in
  bs ← get_range rsn_body off e;
  Some (chunks16 (Z.to_nat pmkid_count) bs).

Definition parse_rsn_pmkid (rsn_body : bytes) : option bytes :=
  l ← parse_rsn_pmkids rsn_body; head l.

Definition rsn_has_akm (rsn_body : bytes) (suite_type : Z) : bool :=
  let off := (2 + 4)%nat in
  match get_range rsn_body off (off + 2) with
  | None => false
  | Some b =>
      let off := (off + 2 + 4 * Z.to_nat (le_val b))%nat in
      match get_range rsn_body off (off + 2) with
      | None => false
      | Some b =>
          let off := (off + 2)%nat in
          existsb (fun i =>
            match get_range rsn_body (off + 4 * i) (off + 4 * (i + 1)) with
            | Some s => beq s (rsn_suite suite_type)
            | None => false
            end) (List.seq 0 (Z.to_nat (le_val b)))
      end
  end.

Definition rsn_has_mfpc (rsn_body : bytes) : bool :=
  match parse_rsn rsn_body with
  | Some {| capabilities := Some caps |} => has_bit caps 0x0080
  | _ => false
  end.

(** * Association requests and OWE elements *)

Definition STA_LISTEN_INTERVAL : Z := 0x00c8.

Definition rsn_with_pmkid (pmkid : bytes) : bytes :=
  ie 48 ([0x01; 0x00] ++ [0x00; 0x0f; 0xac; 0x04] ++ [0x01; 0x00; 0x00; 0x0f; 0xac; 0x04]
         ++ [0x01; 0x00; 0x00; 0x0f; 0xac; 0x08] ++ [0xc0; 0x00] ++ [0x01; 0x00] ++ pmkid
         ++ [0x00; 0x0f; 0xac; 0x06]).

Definition build_dh_param_element (grp : Z) (pubkey : bytes) : bytes :=
  ie 255 ([32] ++ le_bytes 2 grp ++ pubkey).

Definition parse_dh_param_step (ies : bytes) (i : nat) : res (nat + option (Z * bytes)) :=
  if (i + 2 <=? length ies)%nat then
    let! id := idx ies i in
    let! l := idx ies (i + 1) in
    let len := Z.to_nat l in
    if (length ies <? i + 2 + len)%nat then Val (inr None)
    else
      let! body := slice ies (i + 2) (i + 2 + len) in
      let! here := if (id =? 255) && (3 <=? len)%nat
                   then let! x := idx body 0 in Val (x =? 32) else Val false in
      if (here : bool) then
        let! g := slice body 1 3 in
        let! k := slice_from body 3 in
        Val (inr (Some (le_val g, k)))
      else Val (inl (i + 2 + len)%nat)
  else Val (inr None).

Definition parse_dh_param (ies : bytes) : res (option (Z * bytes)) :=
  loop (S (length ies)) (parse_dh_param_step ies) 0%nat.

(** The fixed fields and the first two elements of the requests. *)
Definition assoc_req_head (bssid sta ssid : bytes) (sc : Z) : bytes :=
  dot11_header TYPE_MGMT SUBTYPE_ASSOC_REQ 0 bssid sta bssid sc
  ++ CAP_3101 ++ le_bytes 2 STA_LISTEN_INTERVAL ++ ie 0 ssid ++ ie 1 [0x0c].

Definition build_assoc_req_for_cipher (bssid sta ssid : bytes) (sc : Z) (cipher : DataCipher) : bytes :=
  assoc_req_head bssid sta ssid sc ++ security_tail_for_cipher Wpa2 cipher.

Definition build_assoc_req_psk_sha256_for_cipher (bssid sta ssid : bytes) (sc : Z)
    (cipher : DataCipher) : bytes :=
  assoc_req_head bssid sta ssid sc ++ <[13%nat := suite_type cipher]> RSN_PSK_SHA256.

Definition build_assoc_req_sae_for_cipher (bssid sta ssid : bytes) (sc : Z) (cipher : DataCipher) :
    bytes :=
  assoc_req_head bssid sta ssid sc ++ security_tail_for_cipher Wpa3Sae cipher.

Definition build_assoc_req_owe (bssid sta ssid dh_element : bytes) (sc : Z) : bytes :=
  assoc_req_head bssid sta ssid sc ++ RSN_OWE ++ dh_element.

Definition build_assoc_req_pmkid (bssid sta ssid pmkid : bytes) (sc : Z) : bytes :=
  assoc_req_head bssid sta ssid sc ++ rsn_with_pmkid pmkid ++ RSNXE_H2E.

(** * The format of an RSNE body

    [rsn_bytes i pmks] is the body that says [i] and lists the PMKIDs [pmks];
    every optional field needs the ones before it. *)
Definition rsn_bytes (i : RsnInfo) (pmks : option (list bytes)) : bytes :=
  [1; 0] ++ group i
  ++ le_bytes 2 (Z.of_nat (length (pairwise i))) ++ concat (pairwise i)
  ++ le_bytes 2 (Z.of_nat (length (akms i))) ++ concat (akms i)
  ++ match capabilities i with
     | None => []
     | Some c =>
         le_bytes 2 c
         ++ match pmks with
            | None => []
            | Some l => le_bytes 2 (Z.of_nat (length l)) ++ concat l ++ default [] (group_mgmt i)
            end
     end.

Definition count_ok {A} (l : list A) : Prop := 0 < Z.of_nat (length l) < 2 ^ 16.

Definition rsn_ok (i : RsnInfo) (pmks : option (list bytes)) : Prop :=
  length (group i) = 4%nat /\
  count_ok (pairwise i) /\ Forall (fun s => length s = 4%nat) (pairwise i) /\
  count_ok (akms i) /\ Forall (fun s => length s = 4%nat) (akms i) /\
  match capabilities i with
  | None => pmks = None /\ group_mgmt i = None
  | Some c => 0 <= c < 2 ^ 16 /\
      match pmks with
      | None => group_mgmt i = None
      | Some l => Z.of_nat (length l) < 2 ^ 16 /\ Forall (fun p => length p = 16%nat) l /\
          match group_mgmt i with Some g => length g = 4%nat | None => True end
      end
  end.

(** ** The cursor, forwards *)

Lemma sub_prefix (l a r : bytes) off :
  drop off l = a ++ r -> (off <= length l)%nat ->
  get_range l off (off + length a) = Some a /\ drop (off + length a) l = r /\
  (off + length a <= length l)%nat.
Proof.
  intros Hd Ho. assert (Hl : (length l - off = length a + length r)%nat)
    by (rewrite <- length_drop, Hd, length_app; done).
  split; [|split; [|lia]].
  - rewrite get_range_ok by lia. f_equal. unfold sub. rewrite Hd.
    replace (off + length a - off)%nat with (length a) by lia. apply take_app_length.
  - rewrite <- drop_drop, Hd. apply drop_app_length.
Qed.

Lemma take_u16_at l v r off :
  drop off l = le_bytes 2 v ++ r -> (off <= length l)%nat -> 0 <= v < 2 ^ 16 ->
  take_u16 l off = Some (v, (off + 2)%nat) /\ drop (off + 2) l = r /\ (off + 2 <= length l)%nat.
Proof.
  intros Hd Ho Hv. destruct (sub_prefix l (le_bytes 2 v) r off Hd Ho) as (Hg & Hr & Hle).
  rewrite length_le_bytes in *. unfold take_u16. rewrite Hg. cbn.
  by rewrite le_val_le_bytes2.
Qed.

Lemma take_suite_at l s r off :
  drop off l = s ++ r -> (off <= length l)%nat -> length s = 4%nat ->
  take_suite l off = Some (s, (off + 4)%nat) /\ drop (off + 4) l = r /\ (off + 4 <= length l)%nat.
Proof.
  intros Hd Ho Hs. destruct (sub_prefix l s r off Hd Ho) as (Hg & Hr & Hle).
  rewrite Hs in *. unfold take_suite. by rewrite Hg.
Qed.

Lemma take_suites_at l ss r off :
  drop off l = concat ss ++ r -> (off <= length l)%nat -> Forall (fun s => length s = 4%nat) ss ->
  exists off', take_suites (length ss) l off = Some (ss, off') /\ drop off' l = r /\
    (off' <= length l)%nat.
Proof.
  intros Hd Ho Hs. revert off Hd Ho. induction Hs as [|s ss Hs Hss IH]; intros off Hd Ho.
  - by exists off.
  - cbn [concat] in Hd. rewrite <- app_assoc in Hd.
    destruct (take_suite_at l s _ off Hd Ho Hs) as (H1 & H2 & H3).
    destruct (IH (off + 4)%nat H2 H3) as (off' & H4 & H5 & H6).
    exists off'. cbn [length take_suites]. rewrite H1. cbn [mbind option_bind].
    rewrite H4. done.
Qed.

Lemma skip_pmkids_at l ps r off :
  drop off l = concat ps ++ r -> (off <= length l)%nat -> Forall (fun s => length s = 16%nat) ps ->
  exists off', skip_pmkids (length ps) l off = Some off' /\ drop off' l = r /\
    (off' <= length l)%nat.
Proof.
  intros Hd Ho Hs. revert off Hd Ho. induction Hs as [|s ss Hs Hss IH]; intros off Hd Ho.
  - by exists off.
  - cbn [concat] in Hd. rewrite <- app_assoc in Hd.
    destruct (sub_prefix l s _ off Hd Ho) as (Hg & Hr & Hle). rewrite Hs in *.
    destruct (IH (off + 16)%nat Hr Hle) as (off' & H4 & H5 & H6).
    exists off'. cbn [length skip_pmkids]. rewrite Hg. cbn [mbind option_bind]. done.
Qed.

Lemma drop_nil_end (l : bytes) off : drop off l = [] -> (off <= length l)%nat -> off = length l.
Proof. intros H Ho. apply (f_equal length) in H. rewrite length_drop in H. simpl in H. lia. Qed.

Lemma drop_cons_before (l r : bytes) off : drop off l = r -> (0 < length r)%nat -> (off < length l)%nat.
Proof. intros <-. rewrite length_drop. lia. Qed.

Lemma parse_rsn_bytes i pmks : rsn_ok i pmks -> parse_rsn (rsn_bytes i pmks) = Some i.
Proof.
  intros (Hg & Hpc & Hp & Hac & Ha & Hc). unfold count_ok in *. unfold parse_rsn.
  remember (rsn_bytes i pmks) as l eqn:El. unfold rsn_bytes in El.
  assert (D0 : drop 0 l = le_bytes 2 1 ++ drop 2 l) by (subst l; done).
  destruct (take_u16_at l 1 _ 0 D0 ltac:(lia) ltac:(lia)) as (-> & _ & L2). cbn [mbind option_bind Nat.add].
  assert (D2 : drop 2 l = group i ++ drop 6 l).
  { subst l. change (drop 2 ([1; 0] ++ ?x)) with x. cbn [app drop]. f_equal.
    symmetry. by apply (drop_app_length' (group i) _ 4). }
  cbn [Z.eqb negb Pos.eqb].
  destruct (take_suite_at l _ _ 2 D2 L2 Hg) as (-> & D6 & L6). cbn [mbind option_bind Nat.add] in *.
  assert (E6 : drop 6 l = le_bytes 2 (Z.of_nat (length (pairwise i))) ++ concat (pairwise i)
    ++ le_bytes 2 (Z.of_nat (length (akms i))) ++ concat (akms i)
    ++ match capabilities i with
       | None => []
       | Some c => le_bytes 2 c ++ match pmks with
            | None => []
            | Some l => le_bytes 2 (Z.of_nat (length l)) ++ concat l ++ default [] (group_mgmt i)
            end
       end).
  { subst l. cbn [app drop]. by apply (drop_app_length' (group i) _ 4). }
  clear El D0 D2 D6. set (tail := match capabilities i with None => [] | _ => _ end) in E6.
  destruct (take_u16_at l _ _ 6 E6 L6 ltac:(lia)) as (-> & D8 & L8). cbn [mbind option_bind].
  rewrite (proj2 (Z.eqb_neq _ 0)) by lia. rewrite Nat2Z.id.
  destruct (take_suites_at l _ _ _ D8 L8 Hp) as (o1 & -> & D9 & L9). cbn [mbind option_bind].
  destruct (take_u16_at l _ _ _ D9 L9 ltac:(lia)) as (-> & D10 & L10). cbn [mbind option_bind].
  rewrite (proj2 (Z.eqb_neq _ 0)) by lia. rewrite Nat2Z.id.
  destruct (take_suites_at l _ _ _ D10 L10 Ha) as (o2 & -> & D11 & L11). cbn [mbind option_bind].
  unfold tail in D11. destruct i as [g pw ak [c|] gm]; cbn [capabilities group_mgmt group pairwise akms] in *.
  - destruct Hc as [Hc Hpm]. pose proof (drop_cons_before l _ _ D11 ltac:(len)) as Hlt.
    rewrite (proj2 (Nat.eqb_neq o2 _)) by lia.
    destruct (take_u16_at l _ _ _ D11 L11 Hc) as (-> & D12 & L12). cbn [mbind option_bind].
    destruct pmks as [ps|].
    + destruct Hpm as (Hpl & Hps & Hgm).
      pose proof (drop_cons_before l _ _ D12 ltac:(len)) as Hlt2.
      rewrite (proj2 (Nat.ltb_lt _ _)) by lia.
      destruct (take_u16_at l _ _ _ D12 L12 ltac:(lia)) as (-> & D13 & L13). cbn [mbind option_bind].
      rewrite Nat2Z.id. destruct (skip_pmkids_at l _ _ _ D13 L13 Hps) as (o3 & -> & D14 & L14).
      cbn [mbind option_bind]. destruct gm as [gm|].
      * change (default [] (Some gm)) with gm in D14. rewrite <- (app_nil_r gm) in D14.
        pose proof (drop_cons_before l _ _ D14 ltac:(rewrite length_app; lia)) as Hlt3.
        rewrite (proj2 (Nat.ltb_lt _ _)) by lia.
        destruct (take_suite_at l _ _ _ D14 L14 Hgm) as (-> & D15 & L15). cbn [mbind option_bind].
        rewrite (drop_nil_end l _ D15 L15), Nat.eqb_refl. done.
      * change (default [] None) with (@nil Z) in D14.
        rewrite (drop_nil_end l _ D14 L14), Nat.ltb_irrefl. cbn [mbind option_bind].
        by rewrite Nat.eqb_refl.
    + subst gm. rewrite (drop_nil_end l _ D12 L12), Nat.ltb_irrefl. cbn [mbind option_bind].
      by rewrite Nat.eqb_refl.
  - destruct Hc as [-> ->]. rewrite (drop_nil_end l _ D11 L11), Nat.eqb_refl. cbn [mbind option_bind].
    rewrite Nat.ltb_irrefl. cbn [mbind option_bind]. by rewrite Nat.eqb_refl.
Qed.

(** ** The cursor, backwards *)

Lemma take_u16_inv l off v off' :
  wf_bytes l -> take_u16 l off = Some (v, off') ->
  off' = (off + 2)%nat /\ (off' <= length l)%nat /\ drop off l = le_bytes 2 v ++ drop off' l /\
  0 <= v < 2 ^ 16.
Proof.
  intros Hw. unfold take_u16. destruct (get_range l off (off + 2)) as [b|] eqn:E; [|done].
  apply get_range_Some in E as (_ & Hl & ->). intros [= <- <-].
  pose proof (le_bytes_val (sub l off (off + 2)) ltac:(auto with bytes)) as Hb.
  pose proof (le_val_bound (sub l off (off + 2)) ltac:(auto with bytes)) as Hv.
  rewrite length_sub in Hb, Hv by lia. replace (off + 2 - off)%nat with 2%nat in * by lia.
  split; [done|]. split; [done|]. split; [|done]. rewrite Hb. by rewrite sub_cat_drop by lia.
Qed.

Lemma take_suite_inv l off s off' :
  take_suite l off = Some (s, off') ->
  off' = (off + 4)%nat /\ (off' <= length l)%nat /\ drop off l = s ++ drop off' l /\
  length s = 4%nat.
Proof.
  unfold take_suite. destruct (get_range l off (off + 4)) as [b|] eqn:E; [|done].
  apply get_range_Some in E as (_ & Hl & ->). intros [= <- <-].
  split; [done|]. split; [done|]. rewrite sub_cat_drop, length_sub by lia. split; [done|lia].
Qed.

Lemma take_suites_inv n l off ss off' :
  take_suites n l off = Some (ss, off') -> (off <= length l)%nat ->
  length ss = n /\ (off' <= length l)%nat /\ drop off l = concat ss ++ drop off' l /\
  Forall (fun s => length s = 4%nat) ss.
Proof.
  revert off ss off'. induction n as [|n IH]; intros off ss off'; cbn [take_suites].
  - intros [= <- <-] Ho. split; [done|]. split; [done|]. split; [done|constructor].
  - destruct (take_suite l off) as [[s o1]|] eqn:E1; [|done]. cbn [mbind option_bind].
    destruct (take_suites n l o1) as [[ss' o2]|] eqn:E2; [|done]. cbn [mbind option_bind].
    intros [= <- <-] Ho. apply take_suite_inv in E1 as (-> & H1 & H2 & H3).
    apply IH in E2 as (<- & H5 & H6 & H7); [|done].
    split; [done|]. split; [done|]. split; [|by constructor].
    cbn [concat]. by rewrite <- app_assoc, <- H6, <- H2.
Qed.

Lemma skip_pmkids_inv n l off off' :
  skip_pmkids n l off = Some off' -> (off <= length l)%nat ->
  exists ps, length ps = n /\ (off' <= length l)%nat /\ drop off l = concat ps ++ drop off' l /\
  Forall (fun s => length s = 16%nat) ps.
Proof.
  revert off. induction n as [|n IH]; intros off; cbn [skip_pmkids].
  - intros [= <-] Ho. exists []. split; [done|]. split; [done|]. split; [done|constructor].
  - destruct (get_range l off (off + 16)) as [b|] eqn:E; [|done]. cbn [mbind option_bind].
    apply get_range_Some in E as (_ & Hl & ->). intros H Ho.
    destruct (IH _ H Hl) as (ps & <- & H5 & H6 & H7).
    exists (sub l off (off + 16) :: ps). split; [done|]. split; [done|]. split.
    + cbn [concat]. rewrite <- app_assoc, <- H6. by rewrite sub_cat_drop by lia.
    + constructor; [rewrite length_sub; lia|done].
Qed.

Lemma parse_rsn_sound rsn i :
  wf_bytes rsn -> parse_rsn rsn = Some i ->
  exists pmks, rsn_ok i pmks /\ rsn = rsn_bytes i pmks.
Proof.
  intros Hw. unfold parse_rsn.
  destruct (take_u16 rsn 0) as [[v o]|] eqn:E0; [|done]. cbn [mbind option_bind].
  apply take_u16_inv in E0 as (-> & L0 & D0 & _); [|done]. rewrite drop_0 in D0.
  destruct (Z.eqb_spec v 1) as [->|]; [|done]. cbn [negb].
  destruct (take_suite rsn _) as [[g o]|] eqn:E1; [|done]. cbn [mbind option_bind].
  apply take_suite_inv in E1 as (-> & L1 & D1 & Hg).
  destruct (take_u16 rsn _) as [[pc o]|] eqn:E2; [|done]. cbn [mbind option_bind].
  apply take_u16_inv in E2 as (-> & L2 & D2 & Hpc); [|done].
  destruct (Z.eqb_spec pc 0) as [|Hpc0]; [done|].
  destruct (take_suites _ rsn _) as [[pw o1]|] eqn:E3; [|done]. cbn [mbind option_bind].
  apply take_suites_inv in E3 as (Hpl & L3 & D3 & Hpw); [|done].
  destruct (take_u16 rsn o1) as [[ac o]|] eqn:E4; [|done]. cbn [mbind option_bind].
  apply take_u16_inv in E4 as (-> & L4 & D4 & Hac); [|done].
  destruct (Z.eqb_spec ac 0) as [|Hac0]; [done|].
  destruct (take_suites _ rsn _) as [[ak o2]|] eqn:E5; [|done]. cbn [mbind option_bind].
  apply take_suites_inv in E5 as (Hal & L5 & D5 & Hak); [|done].
  assert (Hhead : rsn = [1; 0] ++ g ++ le_bytes 2 (Z.of_nat (length pw)) ++ concat pw
    ++ le_bytes 2 (Z.of_nat (length ak)) ++ concat ak ++ drop o2 rsn).
  { rewrite Hpl, Hal, !Z2Nat.id by lia. rewrite <- D5, <- D4, <- D3, <- D2, <- D1.
    exact D0. }
  assert (Hpc' : count_ok pw) by (unfold count_ok; lia).
  assert (Hac' : count_ok ak) by (unfold count_ok; lia).
  destruct (Nat.eqb_spec o2 (length rsn)) as [Heq|Hne]; cbn [mbind option_bind].
  - rewrite Heq, Nat.ltb_irrefl. cbn [mbind option_bind]. rewrite Nat.eqb_refl. cbn [negb].
    intros [= <-]. exists None. split; [done|].
    rewrite Heq, drop_all in Hhead. exact Hhead.
  - destruct (take_u16 rsn o2) as [[c o]|] eqn:E6; [|done]. cbn [mbind option_bind].
    apply take_u16_inv in E6 as (-> & L6 & D6 & Hc); [|done].
    destruct (Nat.ltb_spec (o2 + 2) (length rsn)) as [Hlt|Hge]; cbn [mbind option_bind].
    + destruct (take_u16 rsn (o2 + 2)) as [[np o]|] eqn:E7; [|done]. cbn [mbind option_bind].
      apply take_u16_inv in E7 as (-> & L7 & D7 & Hnp); [|done].
      destruct (skip_pmkids _ rsn _) as [o3|] eqn:E8; [|done]. cbn [mbind option_bind].
      destruct (skip_pmkids_inv _ _ _ _ E8 L7) as (ps & Hpsl & L8 & D8 & Hps).
      destruct (Nat.ltb_spec o3 (length rsn)) as [Hlt3|Hge3].
      * destruct (take_suite rsn o3) as [[gm o]|] eqn:E9; [|done]. cbn [mbind option_bind].
        apply take_suite_inv in E9 as (-> & L9 & D9 & Hgm).
        destruct (Nat.eqb_spec (o3 + 4) (length rsn)) as [He|]; [|done]. intros [= <-].
        exists (Some ps). rewrite He, drop_all, app_nil_r in D9. split.
        { unfold rsn_ok. cbn. do 5 (split; [done|]). split; [done|]. split; [lia|]. done. }
        unfold rsn_bytes. cbn. rewrite Hpsl, Z2Nat.id by lia.
        rewrite <- D9, <- D8, <- D7, <- D6. exact Hhead.
      * cbn [mbind option_bind]. destruct (Nat.eqb_spec o3 (length rsn)) as [He|]; [|done].
        intros [= <-]. exists (Some ps). split.
        { unfold rsn_ok. cbn. do 5 (split; [done|]). split; [done|]. split; [lia|]. done. }
        unfold rsn_bytes. cbn. rewrite Hpsl, Z2Nat.id by lia.
        rewrite He, drop_all in D8. rewrite <- D8, <- D7, <- D6. exact Hhead.
    + destruct (Nat.eqb_spec (o2 + 2) (length rsn)) as [He|]; [|done].
      intros [= <-]. exists None. split; [done|].
      unfold rsn_bytes. cbn. rewrite He, drop_all in D6. rewrite <- D6. exact Hhead.
Qed.

(** The octets of an accepted element are its fields and nothing else, so two
    elements that compare equal differ at most in their PMKID lists. *)
Lemma rsn_negotiation_matches_spec a m :
  wf_bytes a -> wf_bytes m ->
  rsn_negotiation_matches a m = true <->
  exists i pa pm, rsn_ok i pa /\ rsn_ok i pm /\ a = rsn_bytes i pa /\ m = rsn_bytes i pm.
Proof.
  intros Ha Hm. unfold rsn_negotiation_matches. split.
  - destruct (parse_rsn a) as [ia|] eqn:Ea; [|done]. destruct (parse_rsn m) as [im|] eqn:Em; [|done].
    rewrite !andb_true_iff, beq_true, !bool_decide_eq_true. intros ((((H1 & H2) & H3) & H4) & H5).
    destruct (parse_rsn_sound a ia Ha Ea) as (pa & Hoka & Hea).
    destruct (parse_rsn_sound m im Hm Em) as (pm & Hokm & Hem).
    assert (ia = im) as -> by (destruct ia, im; cbn in *; by subst).
    by exists im, pa, pm.
  - intros (i & pa & pm & Hoa & Hom & -> & ->). rewrite !parse_rsn_bytes by done.
    by rewrite beq_refl, !bool_decide_eq_true_2.
Qed.

(** ** The other readers of an element body agree with the parser *)

Lemma length_concat_fixed n (ss : list bytes) :
  Forall (fun s => length s = n) ss -> length (concat ss) = (n * length ss)%nat.
Proof. induction 1 as [|s ss Hs _ IH]; cbn [concat length]; [lia|]. rewrite length_app. lia. Qed.

Lemma nth_concat_fixed n (ss : list bytes) r i s :
  Forall (fun s => length s = n) ss -> ss !! i = Some s ->
  sub (concat ss ++ r) (n * i) (n * (i + 1)) = s.
Proof.
  intros Hs. revert i. induction Hs as [|t ss Ht _ IH]; intros [|i] Hi; simplify_eq/=.
  - rewrite <- app_assoc. replace (length s * 0)%nat with 0%nat by lia.
    replace (length s * 1)%nat with (length s) by lia.
    rewrite sub_app_l by lia. apply sub_all. lia.
  - rewrite <- app_assoc, sub_app_r by lia.
    replace (length t * S i - length t)%nat with (length t * i)%nat by lia.
    replace (length t * S (i + 1) - length t)%nat with (length t * (i + 1))%nat by lia.
    by apply IH.
Qed.

Lemma drop_group i pmks k : rsn_ok i pmks ->
  drop (6 + k) (rsn_bytes i pmks) = drop k (le_bytes 2 (Z.of_nat (length (pairwise i)))
    ++ concat (pairwise i) ++ le_bytes 2 (Z.of_nat (length (akms i))) ++ concat (akms i)
  ++ match capabilities i with
     | None => []
     | Some c =>
         le_bytes 2 c
         ++ match pmks with
            | None => []
            | Some l => le_bytes 2 (Z.of_nat (length l)) ++ concat l ++ default [] (group_mgmt i)
            end
     end).
Proof.
  intros (Hg & _). unfold rsn_bytes. rewrite <- drop_drop. f_equal.
  rewrite (app_assoc [1; 0]). apply drop_app_length'. rewrite length_app, Hg. done.
Qed.

Lemma rsn_has_akm_parsed rsn i t :
  wf_bytes rsn -> parse_rsn rsn = Some i -> rsn_has_akm rsn t = contains (akms i) (rsn_suite t).
Proof.
  intros Hw Hp. destruct (parse_rsn_sound rsn i Hw Hp) as (pmks & Hok & ->).
  pose proof (drop_group i pmks 0 Hok) as D6. rewrite drop_0 in D6. cbn [Nat.add] in D6.
  destruct Hok as (Hg & Hpc & Hpw & Hac & Hak & _). unfold count_ok in *.
  set (tl := match capabilities i with None => [] | _ => _ end) in D6.
  set (l := rsn_bytes i pmks) in *.
  assert (L6 : (6 <= length l)%nat).
  { unfold l, rsn_bytes. rewrite !length_app, Hg. simpl. lia. }
  unfold rsn_has_akm. change (2 + 4)%nat with 6%nat.
  destruct (sub_prefix l _ _ 6 D6 L6) as (G1 & D8 & L8). rewrite length_le_bytes in *. rewrite G1.
  rewrite le_val_le_bytes2, Nat2Z.id by lia.
  destruct (sub_prefix l _ _ _ D8 L8) as (_ & D9 & L9).
  rewrite (length_concat_fixed 4) in * by done.
  destruct (sub_prefix l _ _ _ D9 L9) as (G2 & D10 & L10). rewrite length_le_bytes in *. rewrite G2.
  rewrite le_val_le_bytes2, Nat2Z.id by lia.
  set (off := (6 + 2 + 4 * length (pairwise i) + 2)%nat) in *.
  destruct (sub_prefix l _ _ _ D10 L10) as (_ & _ & L11).
  rewrite (length_concat_fixed 4) in L11 by done.
  unfold contains. apply eq_true_iff_eq. rewrite !existsb_exists. split.
  - intros (k & Hk & Hs). apply in_seq in Hk. rewrite get_range_ok in Hs by lia.
    apply beq_true in Hs. destruct (lookup_lt_is_Some_2 (akms i) k) as [s Es]; [lia|].
    exists s. split; [by eapply list_elem_of_In, list_elem_of_lookup_2|].
    apply beq_true. rewrite <- Hs.
    rewrite <- (nth_concat_fixed 4 _ tl _ _ Hak Es), <- D10. unfold sub. rewrite drop_drop.
    f_equal. lia.
  - intros (s & Hs & E). apply beq_true in E. subst s.
    apply list_elem_of_In, list_elem_of_lookup in Hs as [k Es].
    pose proof (lookup_lt_Some _ _ _ Es) as Hk.
    exists k. split; [apply in_seq; lia|]. rewrite get_range_ok by lia. apply beq_true.
    rewrite <- (nth_concat_fixed 4 _ tl _ _ Hak Es), <- D10. unfold sub. rewrite drop_drop.
    f_equal. lia.
Qed.

Lemma get_u16_at l v r off :
  drop off l = le_bytes 2 v ++ r -> (off <= length l)%nat -> 0 <= v < 2 ^ 16 ->
  get_u16 l off = Some v.
Proof.
  intros Hd Ho Hv.
  assert (H0 : forall k, (k < 2)%nat -> get l (off + k) = le_bytes 2 v !! k).
  { intros k Hk. unfold get. rewrite <- lookup_drop, Hd.
    rewrite lookup_app_l; [done|len]. }
  unfold get_u16. rewrite <- (Nat.add_0_r off) at 1. rewrite !H0 by lia.
  pose proof (le_val_le_bytes2 v Hv) as E. pose proof (length_le_bytes 2 v) as El.
  destruct (le_bytes 2 v) as [|a [|b [|]]]; try done. cbn. by rewrite E.
Qed.

Lemma chunks16_concat (ps : list bytes) :
  Forall (fun p => length p = 16%nat) ps -> chunks16 (length ps) (concat ps) = ps.
Proof.
  induction 1 as [|p ps Hp _ IH]; [done|]. cbn [length chunks16 concat].
  rewrite take_app_length', drop_app_length' by done. by rewrite IH.
Qed.

Lemma parse_rsn_pmkids_bytes i ps :
  rsn_ok i (Some ps) -> parse_rsn_pmkids (rsn_bytes i (Some ps)) = Some ps.
Proof.
  intros Hok. pose proof (drop_group i (Some ps) 0 Hok) as D6. rewrite drop_0 in D6. cbn [Nat.add] in D6.
  destruct Hok as (Hg & Hpc & Hpw & Hac & Hak & Hc). unfold count_ok in *.
  set (l := rsn_bytes i (Some ps)) in *.
  assert (L6 : (6 <= length l)%nat).
  { unfold l, rsn_bytes. rewrite !length_app, Hg. simpl. lia. }
  destruct (capabilities i) as [c|]; [|by destruct Hc]. destruct Hc as (Hcr & Hpl & Hps & _).
  unfold parse_rsn_pmkids. change (2 + 4)%nat with 6%nat.
  rewrite (get_u16_at l _ _ 6 D6 L6) by lia. cbn [mbind option_bind]. rewrite Nat2Z.id.
  destruct (sub_prefix l _ _ 6 D6 L6) as (_ & D8 & L8). rewrite length_le_bytes in *.
  destruct (sub_prefix l _ _ _ D8 L8) as (_ & D9 & L9). rewrite (length_concat_fixed 4) in * by done.
  rewrite (get_u16_at l _ _ _ D9 L9) by lia. cbn [mbind option_bind]. rewrite Nat2Z.id.
  destruct (sub_prefix l _ _ _ D9 L9) as (_ & D10 & L10). rewrite length_le_bytes in *.
  destruct (sub_prefix l _ _ _ D10 L10) as (_ & D11 & L11). rewrite (length_concat_fixed 4) in * by done.
  destruct (sub_prefix l _ _ _ D11 L11) as (_ & D12 & L12). rewrite length_le_bytes in *.
  rewrite (get_u16_at l _ _ _ D12 L12) by lia. cbn [mbind option_bind]. rewrite Nat2Z.id.
  destruct (sub_prefix l _ _ _ D12 L12) as (_ & D13 & L13). rewrite length_le_bytes in *.
  destruct (sub_prefix l _ _ _ D13 L13) as (G & _ & _). rewrite (length_concat_fixed 16) in G by done.
  rewrite (Nat.mul_comm _ 16), G. cbn [mbind option_bind]. by rewrite chunks16_concat.
Qed.

(** ** Negotiation *)

Definition akm_allowed (mode : SecurityMode) (l : list bytes) : bool :=
  match mode with
  | Wpa2 => contains l (rsn_suite 2)
  | Wpa2PskSha256 => contains l (rsn_suite 2) || contains l (rsn_suite 6)
  | Wpa3Sae => contains l (rsn_suite 8)
  | Transition => contains l (rsn_suite 2) || contains l (rsn_suite 6) || contains l (rsn_suite 8)
  | Owe => contains l (rsn_suite 18)
  end.

Definition mfp_required_and_capable (i : RsnInfo) : Prop :=
  exists caps, capabilities i = Some caps /\ Z.land caps 0x00c0 = 0x00c0.

(** The suites before the selected one are not offered by the station. *)
Definition first_common (i : RsnInfo) (supported : list DataCipher) (c : DataCipher) : Prop :=
  exists before after, supported = before ++ c :: after /\
    contains (pairwise i) (rsn_suite (suite_type c)) = true /\
    Forall (fun c' => contains (pairwise i) (rsn_suite (suite_type c')) = false) before.

Lemma find_first {A} (f : A -> bool) l x :
  List.find f l = Some x <->
  exists before after, l = before ++ x :: after /\ f x = true /\ Forall (fun y => f y = false) before.
Proof.
  split.
  - induction l as [|a l IH]; [done|]. cbn [List.find]. destruct (f a) eqn:Ea.
    + intros [= ->]. exists [], l. done.
    + intros H. destruct (IH H) as (b & af & -> & Hx & Hb). exists (a :: b), af. auto.
  - intros (b & af & -> & Hx & Hb). induction Hb as [|y b Hy _ IH]; cbn [app List.find].
    + by rewrite Hx.
    + by rewrite Hy.
Qed.

Lemma first_common_find i supported c :
  List.find (fun c => contains (pairwise i) (rsn_suite (suite_type c))) supported = Some c <->
  first_common i supported c.
Proof. apply (find_first (fun c => contains (pairwise i) (rsn_suite (suite_type c)))). Qed.

(** Association accepts an RSNE exactly when it parses, offers a pairwise suite
    the AP supports (the first common one, in the AP's order, is chosen), asks for
    CCMP-128 as group suite, offers an AKM the security mode allows, and, where
    the mode demands management-frame protection, requires and supports it. *)
Lemma negotiate_ok_iff rsn mode supported c :
  negotiate_assoc_pairwise_cipher rsn mode supported = Ok c <->
  exists i, parse_rsn rsn = Some i /\ first_common i supported c /\ group i = rsn_suite 4 /\
    akm_allowed mode (akms i) = true /\
    (pmf_required mode (contains (akms i) (rsn_suite 8)) (contains (akms i) (rsn_suite 2)) = true ->
     mfp_required_and_capable i).
Proof.
  unfold negotiate_assoc_pairwise_cipher.
  destruct (beq rsn [1; 0]) eqn:E10.
  { apply beq_true in E10. subst rsn. split; [done|]. by intros (i & Hi & _). }
  destruct (parse_rsn rsn) as [i|]; [|split; [done|by intros (? & ? & _)]].
  destruct (List.find _ supported) as [s|] eqn:Ef.
  2: { split; [done|]. intros (i' & [= <-] & Hfc & _). apply first_common_find in Hfc. congruence. }
  destruct (beq (group i) (rsn_suite 4)) eqn:Eg; cbn [negb].
  2: { split; [done|]. intros (i' & [= <-] & _ & Hg & _). rewrite Hg in Eg. done. }
  apply beq_true in Eg. change (match mode with Wpa2 => _ | _ => _ end) with (akm_allowed mode (akms i)).
  destruct (akm_allowed mode (akms i)) eqn:Ea; cbn [negb].
  2: { split; [done|]. intros (i' & [= <-] & _ & _ & Ha & _). congruence. }
  apply first_common_find in Ef.
  destruct (pmf_required _ _ _) eqn:Ep.
  - destruct (capabilities i) as [caps|] eqn:Ec.
    + destruct (Z.eqb_spec (Z.land caps 0xc0) 0xc0) as [Em|Em]; cbn [negb].
      * split.
        -- intros [= <-]. exists i. split; [done|]. split; [done|]. split; [done|]. split; [done|].
           intros _. by exists caps.
        -- intros (i' & [= <-] & Hfc & _). f_equal. apply first_common_find in Ef, Hfc. congruence.
      * split; [done|]. intros (i' & [= <-] & _ & _ & _ & Hp).
        destruct (Hp Ep) as (caps' & Hc & Hm). congruence.
    + split; [done|]. intros (i' & [= <-] & _ & _ & _ & Hp).
      destruct (Hp Ep) as (caps' & Hc & Hm). congruence.
  - split.
    + intros [= <-]. exists i. split; [done|]. split; [done|]. split; [done|]. split; [done|].
      congruence.
    + intros (i' & [= <-] & Hfc & _). f_equal. apply first_common_find in Ef, Hfc. congruence.
Qed.

(** Every element the program advertises or sends is accepted by the same
    program in the matching mode, with the suite it was built for. *)
Definition element_body (e : bytes) : bytes := sub e 2 (2 + Z.to_nat (byte_at e 1)).

(** The AP accepts what it advertises: for every security mode and pairwise
    suite, its own element, echoed by a station, negotiates that suite, and the
    PSK-SHA256 element passes the PSK-SHA256 validation. *)
Lemma own_elements_accepted mode c :
  negotiate_assoc_pairwise_cipher (element_body (security_tail_for_cipher mode c)) mode [c] = Ok c /\
  validate_psk_sha256_rsn_for_cipher (element_body (<[13%nat := suite_type c]> RSN_PSK_SHA256)) c = Ok tt /\
  negotiate_assoc_pairwise_cipher (element_body (<[13%nat := suite_type c]> RSN_PSK_SHA256))
    Wpa2PskSha256 [c] = Ok c.
Proof. destruct mode, c; by vm_compute. Qed.

(** The element a BSS advertises for an ordered set of suites selects the
    first suite a one-suite station offers. *)
Lemma advertised_pairs_accepted mode c1 c2 :
  c1 <> c2 ->
  match parse_rsn (element_body (security_tail_for_ciphers mode [c1; c2])) with
  | Some i => pairwise i = [rsn_suite (suite_type c1); rsn_suite (suite_type c2)] /\
      group i = rsn_suite 4 /\ akm_allowed mode (akms i) = true
  | None => False
  end.
Proof. intros Hne. destruct mode, c1, c2; try (exfalso; by apply Hne); vm_compute; auto. Qed.

Lemma message_2_total assoc_ies key_data :
  exists b, message_2_security_matches assoc_ies key_data = Val b.
Proof.
  unfold message_2_security_matches.
  rewrite !find_ie_strict_spec, !find_ie_consistent_spec. cbn [rbind].
  repeat (case_match; cbn [rbind]); try by eexists.
Qed.

(** The RSNE parser is exact: it accepts precisely the bodies that encode some
    well-formed element (counts in range, every optional field preceded by the
    ones before it, no trailing octets), and returns what was encoded. *)
Lemma rsn_parse_exact rsn i :
  wf_bytes rsn ->
  parse_rsn rsn = Some i <-> exists pmks, rsn_ok i pmks /\ rsn = rsn_bytes i pmks.
Proof.
  intros Hw. split; [by apply parse_rsn_sound|]. intros (pmks & Hi & ->). by apply parse_rsn_bytes.
Qed.
