(* ===== verification/Advert.v ===== *)
(** What an access point advertises: the element constructors of
    src/frames/information_elements/ (common, wifi4, wifi5, wifi6, wifi7) and
    the beacon, probe response and association response builders of
    src/frames/management.rs, with the reference list of elements they encode. *)
From S2P Require Import Prelude Elements Frames Channels Rsn.

Inductive PhyMode := Ht | Vht | He | Eht.

(** The derived order: each generation includes the earlier ones. *)
Definition phy_rank (p : PhyMode) : Z :=
  match p with Ht => 0 | Vht => 1 | He => 2 | Eht => 3 end.
Definition phy_geb (p q : PhyMode) : bool := phy_rank q <=? phy_rank p.

Record PhyCapabilities := {
  pc_ht : option bytes;
  pc_vht : option bytes;
  pc_he : option bytes;
  pc_eht : option bytes
}.

(** * Element bodies and elements *)

Definition RATES_2GHZ : bytes := [0x82; 0x84; 0x8b; 0x96; 0x0c; 0x12; 0x18; 0x24].
Definition EXT_RATES_2GHZ : bytes := [0x30; 0x48; 0x60; 0x6c].
Definition RATES_5GHZ : bytes := [0x8c; 0x12; 0x98; 0x24; 0xb0; 0x48; 0x60; 0x6c].
Definition BEACON_INTERVAL_TU : Z := 0x0064.

(** The octet arithmetic of the triplet wraps, as Rust's does in a release
    build; for the widths in use nothing wraps ([country_covers]). *)
Definition country_triplet (channel width : Z) (band6 : bool) : bytes :=
  if band6 || is_5ghz channel then
    let n := u8 (Z.max (width / 20) 1) in
    let first := if 20 <? width
                 then u8 (center_channel channel width band6 - u8 (2 * u8 (n - 1)))
                 else channel in
    [first; n; 23]
  else [1; 11; 30].

Definition country_ie (country : bytes) (channel width : Z) (band6 : bool) : bytes :=
  ie 7 ([byte_at country 0; byte_at country 1; 0x20] ++ country_triplet channel width band6).

Definition ap_capability (channel : Z) (band6 : bool) : bytes :=
  if band6 then le_bytes 2 0x0011
  else if is_5ghz channel then le_bytes 2 0x1031
  else CAP_3101.

(** [fragmented_element] (src/mlo/elements.rs): element fragmentation.  The
    loop emits one Fragment element per iteration. *)
Definition fragment_step (st : bytes * bytes) : res (bytes * bytes + bytes) :=
  let (v, rest) := st in
  let n := Nat.min (length rest) 255 in
  let! chunk := slice rest 0 n in
  let! rest' := slice_from rest n in
  let v := v ++ [254; u8 (Z.of_nat n)] ++ chunk in
  if (n <? 255)%nat then Val (inr v)
  else if (length rest' =? 0)%nat then Val (inr (v ++ [254; 0]))
  else Val (inl (v, rest')).

Definition fragmented_element (id : Z) (body : bytes) : res bytes :=
  if (length body <=? 255)%nat then Val (ie id body)
  else
    let! head := slice body 0 255 in
    let! rest := slice_from body 255 in
    loop (S (length rest)) fragment_step ([id; 255] ++ head, rest).

Definition ext_ie (ext_id : Z) (data : bytes) : res bytes := fragmented_element 255 (ext_id :: data).

Definition wmm_body : bytes :=
  [0x00; 0x50; 0xf2; 0x02; 0x01; 0x01; 0x00; 0x00; 0x03; 0xa4; 0x00; 0x00; 0x27; 0xa4; 0x00; 0x00;
   0x42; 0x43; 0x5e; 0x00; 0x62; 0x32; 0x2f; 0x00].
Definition wmm_parameter : bytes := ie 221 wmm_body.
Definition wmm_information : bytes := ie 221 [0x00; 0x50; 0xf2; 0x02; 0x00; 0x01; 0x00].

Definition tim_element : bytes := ie 5 [0x00; 0x01; 0x00; 0x00].
Definition csa_element (new_channel count : Z) : bytes := ie 37 [0x01; new_channel; count].
Definition multiple_bssid_element (max_bssid_indicator : Z) : bytes := ie 71 [max_bssid_indicator].
Definition bss_max_idle_element (period_1000tu : Z) : bytes := ie 90 (le_bytes 2 period_1000tu ++ [0x00]).

Definition supported_operating_classes_6ghz (channel width : Z) : bytes :=
  ie 59 [operating_class channel width true; 0].
Definition supported_operating_classes (channel width : Z) : bytes :=
  ie 59 [operating_class channel width false; 0].
Definition extended_capabilities : bytes := ie 127 [0; 0; 0x08; 0; 0; 0; 0; 0; 0; 0; 0].
Definition rrm_enabled_capabilities : bytes := ie 70 [0x02; 0x00; 0x00; 0x00; 0x00].

(** ** wifi4.rs *)

Definition ht_capabilities_body : bytes :=
  [0x6e; 0x00] ++ [0x17] ++ [0xff; 0xff] ++ replicate 14 0 ++ [0x00; 0x00] ++
  [0x00; 0x00; 0x00; 0x00] ++ [0x00].
Definition ht_capabilities : bytes := ie 45 ht_capabilities_body.

Definition ht_operation_body (channel width : Z) (band6 : bool) : bytes :=
  let op0 := if 40 <=? width then
      let base := if band6 then 1 else 36 in
      Z.lor (if (channel - base) mod 8 =? 0 then 0x01 else 0x03) 0x04
    else 0 in
  [channel] ++ [op0; 0; 0; 0; 0] ++ replicate 16 0.
Definition ht_operation (channel width : Z) (band6 : bool) : bytes :=
  ie 61 (ht_operation_body channel width band6).

(** ** wifi5.rs *)

Definition vht_capabilities (width : Z) : bytes :=
  ie 191 ([if 160 <=? width then 0xb6 else 0xb2; 0x01; 0x80; 0x33] ++
          [0xea; 0xff; 0x00; 0x00; 0xea; 0xff; 0x00; 0x00]).

Definition vht_operation (channel width : Z) : bytes :=
  let '(cw, seg0, seg1) :=
    if width =? 80 then (1, center_channel channel 80 false, 0)
    else if width =? 160 then (1, center_channel channel 80 false, center_channel channel 160 false)
    else (0, 0, 0) in
  ie 192 [cw; seg0; seg1; 0xfc; 0xff].

(** ** wifi6.rs *)

Definition he_capabilities_data : bytes :=
  [0x05; 0x78; 0xc8; 0x1a; 0x40; 0x00; 0x1c; 0xbf; 0xce; 0x00; 0x00; 0x00; 0x00; 0x00; 0x00; 0x00; 0x00;
   0xfa; 0xff; 0xfa; 0xff; 0xfa; 0xff; 0xfa; 0xff; 0xfa; 0xff; 0xfa; 0xff].
Definition he_capabilities : res bytes := ext_ie 35 he_capabilities_data.

Definition he_operation_5ghz : res bytes := ext_ie 36 [0xf0; 0x3f; 0x00; 0x98; 0xfc; 0xff].

Definition he_operation_6ghz_data (channel width : Z) : bytes :=
  let '(cw, seg0, seg1) :=
    if width =? 40 then (1, center_channel channel 40 true, 0)
    else if width =? 80 then (2, center_channel channel 80 true, 0)
    else if (width =? 160) || (width =? 320)
    then (3, center_channel channel 80 true, center_channel channel 160 true)
    else (0, channel, 0) in
  [0xf0; 0x3f; 0x02; 0x98; 0xfc; 0xff; channel; cw; seg0; seg1; 0x06].
Definition he_operation_6ghz (channel width : Z) : res bytes :=
  ext_ie 36 (he_operation_6ghz_data channel width).

Definition eht_operation_data (channel width : Z) (band6 : bool) (punct : Z) : bytes :=
  if negb band6 && (punct =? 0) then [0x40; 0x11; 0x00; 0x00; 0x00]
  else
    let '(cw, ccfs0, ccfs1) :=
      if width =? 320 then (4, center_channel channel 160 band6, center_channel channel 320 band6)
      else if width =? 160 then (3, center_channel channel 80 band6, center_channel channel 160 band6)
      else if width =? 80 then (2, center_channel channel 80 band6, 0)
      else if width =? 40 then (1, center_channel channel 40 band6, 0)
      else (0, channel, 0) in
    [if negb (punct =? 0) then 0x03 else 0x01; 0x11; 0x00; 0x00; 0x00; cw; ccfs0; ccfs1] ++
    (if negb (punct =? 0) then le_bytes 2 punct else []).
Definition eht_operation (channel width : Z) (band6 : bool) (punct : Z) : res bytes :=
  ext_ie 106 (eht_operation_data channel width band6 punct).

Definition he_6ghz_band_capabilities : res bytes := ext_ie 59 [0x00; 0x00].
Definition mu_edca_parameter : res bytes :=
  ext_ie 38 [0x20; 0x08; 0xa9; 0xff; 0x2f; 0xa9; 0xff; 0x45; 0x75; 0xff; 0x65; 0x75; 0xff].
Definition spatial_reuse_parameter : res bytes := ext_ie 39 [0x03].

(** ** wifi7.rs *)

Definition eht_capabilities_data (width : Z) : bytes :=
  let map := [0x22; 0x22; 0x22] in
  [0x00; 0x00] ++ [if 320 <=? width then 0x02 else 0; 0; 0; 0; 0; 0; 0; 0; 0] ++ map ++ map ++
  (if 320 <=? width then map else []).
Definition eht_capabilities (width : Z) : res bytes := ext_ie 108 (eht_capabilities_data width).

(** * Element blocks *)

Definition make_beacon_ies_6ghz (ssid : bytes) (channel : Z) (country : bytes) (width : Z) (wmm : bool)
    (phy : PhyMode) (rsn : bytes) (tim : option bytes) (punct : Z) : res bytes :=
  let v := ie 0 ssid ++ ie 1 RATES_5GHZ ++ country_ie country channel width true ++
           default [] tim ++ rsn in
  let! hc := he_capabilities in
  let! ho := he_operation_6ghz channel width in
  let! mu := mu_edca_parameter in
  let! sr := spatial_reuse_parameter in
  let! h6 := he_6ghz_band_capabilities in
  let v := v ++ hc ++ ho ++ mu ++ sr ++ h6 in
  let! eht := (if phy_geb phy Eht then
      let! ec := eht_capabilities width in
      let! eo := eht_operation channel width true punct in
      Val (ec ++ eo)
    else Val []) in
  Val (v ++ eht ++ extended_capabilities ++ supported_operating_classes_6ghz channel width ++
       rrm_enabled_capabilities ++ (if wmm then wmm_parameter else [])).

Definition make_beacon_ies (ssid : bytes) (channel : Z) (country : bytes) (width : Z) (wmm : bool)
    (phy : PhyMode) (rsn : bytes) (tim : option bytes) (punct : Z) : res bytes :=
  let v := ie 0 ssid ++
    (if is_5ghz channel
     then ie 1 RATES_5GHZ ++ country_ie country channel width false
     else ie 1 RATES_2GHZ ++ ie 3 [channel] ++ country_ie country channel width false ++
          ie 50 EXT_RATES_2GHZ) ++
    default [] tim ++ rsn ++ ht_capabilities ++ ht_operation channel width false ++
    (if is_5ghz channel && phy_geb phy Vht
     then vht_capabilities width ++ vht_operation channel width else []) in
  let! he := (if phy_geb phy He then
      let! hc := he_capabilities in
      let! ho := he_operation_5ghz in
      Val (hc ++ ho)
    else Val []) in
  let! eht := (if phy_geb phy Eht then
      let! ec := eht_capabilities width in
      let! eo := eht_operation channel width false punct in
      Val (ec ++ eo)
    else Val []) in
  Val (v ++ he ++ eht ++ extended_capabilities ++ supported_operating_classes channel width ++
       rrm_enabled_capabilities ++ (if wmm then wmm_parameter else [])).

(** [apply_phy_capabilities]: the radio's own payloads replace the defaults. *)
Definition apply_phy_capabilities (data : bytes) (start : nat) (caps : PhyCapabilities) : res bytes :=
  let put (b : bytes) (id : Z) (ext : option Z) (o : option bytes) : res bytes :=
    match o with Some body => rmap snd (replace_ie_payload b start id ext body) | None => Val b end in
  let! b := put data 45 None (pc_ht caps) in
  let! b := put b 191 None (pc_vht caps) in
  let! b := put b 255 (Some 35) (pc_he caps) in
  put b 255 (Some 108) (pc_eht caps).

(** * Frames of src/frames/management.rs *)

Definition SUBTYPE_BEACON : Z := 0x08.
Definition SUBTYPE_PROBE_RESP : Z := 0x05.

Definition resp_ies (ssid : bytes) (channel : Z) (country : bytes) (width : Z) (band6 wmm : bool)
    (phy : PhyMode) (rsn : bytes) (punct : Z) : res bytes :=
  if band6 then make_beacon_ies_6ghz ssid channel country width wmm phy rsn None punct
  else make_beacon_ies ssid channel country width wmm phy rsn None punct.

Definition build_beacon (bssid ssid : bytes) (channel timestamp : Z) (tail_ies country : bytes)
    (width : Z) (wmm : bool) (phy : PhyMode) (punct : Z) : res bytes :=
  let! ies := make_beacon_ies ssid channel country width wmm phy tail_ies (Some tim_element) punct in
  Val (dot11_header TYPE_MGMT SUBTYPE_BEACON 0 (replicate 6 0xff) bssid bssid 0 ++
       le_bytes 8 timestamp ++ le_bytes 2 BEACON_INTERVAL_TU ++ ap_capability channel false ++ ies).

Definition build_beacon_6ghz (bssid ssid : bytes) (channel timestamp : Z) (tail_ies country : bytes)
    (width : Z) (wmm : bool) (phy : PhyMode) (punct : Z) : res bytes :=
  let! ies := make_beacon_ies_6ghz ssid channel country width wmm phy tail_ies (Some tim_element) punct in
  Val (dot11_header TYPE_MGMT SUBTYPE_BEACON 0 (replicate 6 0xff) bssid bssid 0 ++
       le_bytes 8 timestamp ++ le_bytes 2 BEACON_INTERVAL_TU ++ ap_capability channel true ++ ies).

Definition build_probe_resp (bssid dst ssid : bytes) (channel timestamp sc : Z) (tail_ies country : bytes)
    (width : Z) (band6 wmm : bool) (phy : PhyMode) (punct : Z) : res bytes :=
  let! ies := resp_ies ssid channel country width band6 wmm phy tail_ies punct in
  Val (dot11_header TYPE_MGMT SUBTYPE_PROBE_RESP 0 dst bssid bssid sc ++
       le_bytes 8 timestamp ++ le_bytes 2 BEACON_INTERVAL_TU ++ ap_capability channel band6 ++ ies).

Definition build_assoc_resp (bssid dst ssid : bytes) (channel aid sc resp_subtype : Z) (country : bytes)
    (width : Z) (band6 wmm : bool) (phy : PhyMode) (punct : Z) : res bytes :=
  let! ies := resp_ies ssid channel country width band6 wmm phy [] punct in
  Val (dot11_header TYPE_MGMT resp_subtype 0 dst bssid bssid sc ++ ap_capability channel band6 ++
       le_bytes 2 0 ++ le_bytes 2 (Z.lor (Z.land aid 0x3fff) 0xc000) ++ ies).

(** * Fragmentation and its inverse *)

(** What a receiver does with the Fragment elements after an element. *)
Fixpoint take_fragments (ts : list (Z * bytes)) : bytes * list (Z * bytes) :=
  match ts with
  | (id, b) :: ts' =>
      if id =? 254 then let (x, rest) := take_fragments ts' in (b ++ x, rest) else ([], ts)
  | [] => ([], [])
  end.

Definition fragment (b : bytes) : Z * bytes := (254, b).

(** The elements an element with a long body is written as. *)
Definition fragmented_as (id : Z) (body : bytes) (ts : list (Z * bytes)) : Prop :=
  exists head chunks, ts = (id, head) :: map fragment chunks /\ head = take 255 body /\
    head ++ concat chunks = body /\ Forall short_element ts.

Lemma encode_elements_snoc ts t : encode_elements (ts ++ [t]) = encode_elements ts ++ ie t.1 t.2.
Proof. rewrite encode_elements_app, encode_elements_cons. by rewrite app_nil_r. Qed.

Lemma fragmented_element_spec id body :
  exists ts, fragmented_element id body = Val (encode_elements ts) /\ fragmented_as id body ts.
Proof.
  unfold fragmented_element. destruct (Nat.leb_spec (length body) 255) as [Hs|Hs].
  { exists [(id, body)]. split; [by rewrite encode_elements_cons, app_nil_r|].
    exists body, []. split; [done|]. rewrite app_nil_r, firstn_all2 by lia. by repeat split; constructor. }
  rewrite slice_prefix, slice_from_ok by lia. cbn [rbind].
  set (I := fun st : bytes * bytes => exists chunks,
    st.1 = encode_elements ((id, take 255 body) :: map fragment chunks) /\
    take 255 body ++ concat chunks ++ st.2 = body /\
    Forall short_element ((id, take 255 body) :: map fragment chunks)).
  destruct (loop_spec I (fun v => exists ts, v = encode_elements ts /\ fragmented_as id body ts)
    (fun st => length st.2) fragment_step) with (fuel := S (length (drop 255 body)))
    (s := ([id; 255] ++ take 255 body, drop 255 body)) as (v & -> & ts & -> & Hts);
    [| |simpl; lia|by exists ts].
  2:{ exists []. cbn [map fst snd concat]. rewrite encode_elements_cons. cbn [fst snd].
      change (encode_elements []) with (@nil Z). rewrite app_nil_r. unfold ie.
      rewrite length_take, Nat.min_l by lia. split; [done|].
      rewrite app_nil_l, take_drop. split; [done|].
      constructor; [|constructor]. unfold short_element. cbn [snd]. rewrite length_take. lia. }
  intros [v rest] (chunks & Hv & Hb & Hf). cbn [fst snd] in *. unfold fragment_step.
  set (n := Nat.min (length rest) 255).
  rewrite slice_prefix, slice_from_ok by lia. cbn [rbind].
  assert (Hnext : v ++ [254; u8 (Z.of_nat n)] ++ take n rest =
      encode_elements ((id, take 255 body) :: map fragment (chunks ++ [take n rest]))).
  { rewrite map_app, app_comm_cons. cbn [map]. rewrite encode_elements_snoc, Hv. f_equal.
    unfold fragment, ie. cbn [fst snd]. rewrite length_take, Nat.min_l by lia. done. }
  assert (Hf' : Forall short_element ((id, take 255 body) :: map fragment (chunks ++ [take n rest]))).
  { rewrite map_app, app_comm_cons. apply Forall_app. split; [done|]. constructor; [|constructor].
    unfold short_element. cbn [snd fragment]. rewrite length_take. lia. }
  assert (Hb' : take 255 body ++ concat (chunks ++ [take n rest]) ++ drop n rest = body).
  { rewrite concat_app. cbn [concat]. rewrite app_nil_r, <- app_assoc, take_drop. done. }
  destruct (Nat.ltb_spec n 255).
  { eexists. split; [reflexivity|]. eexists. split; [exact Hnext|].
    exists (take 255 body), (chunks ++ [take n rest]). split; [done|]. split; [done|]. split; [|done].
    rewrite drop_ge, app_nil_r in Hb' by lia. done. }
  destruct (Nat.eqb_spec (length (drop n rest)) 0) as [He|He].
  - eexists. split; [reflexivity|].
    exists (((id, take 255 body) :: map fragment (chunks ++ [take n rest])) ++ [fragment []]). split.
    { rewrite Hnext, encode_elements_snoc. done. }
    exists (take 255 body), ((chunks ++ [take n rest]) ++ [[]]). split; [by rewrite !map_app|].
    split; [done|].
    apply nil_length_inv in He. rewrite He, app_nil_r in Hb'. rewrite concat_app. cbn [concat].
    rewrite !app_nil_r. split; [done|]. apply Forall_app. split; [done|].
    constructor; [unfold short_element; simpl; lia|constructor].
  - eexists. split; [reflexivity|]. split; [|cbn [snd]; rewrite length_drop in *; lia].
    exists (chunks ++ [take n rest]). done.
Qed.

Lemma take_fragments_map chunks ts :
  (forall t ts', ts = t :: ts' -> t.1 <> 254) ->
  take_fragments (map fragment chunks ++ ts) = (concat chunks, ts).
Proof.
  intros Hts. induction chunks as [|c chunks IH]; cbn [map app concat].
  - destruct ts as [|[id b] ts]; [done|]. cbn [take_fragments].
    destruct (Z.eqb_spec id 254) as [->|]; [by destruct (Hts _ _ eq_refl)|done].
  - cbn [take_fragments fragment]. rewrite Z.eqb_refl, IH. done.
Qed.

Lemma elements_encode ts : Forall short_element ts -> elements (encode_elements ts) = ts.
Proof.
  intros Hts. rewrite <- (app_nil_r (encode_elements ts)). unfold elements.
  by rewrite split_encode.
Qed.

Lemma fragmented_elements id body ts more :
  fragmented_as id body ts -> (forall t ts', more = t :: ts' -> t.1 <> 254) ->
  exists b us, ts ++ more = (id, b) :: us /\ b ++ (take_fragments us).1 = body /\
    (take_fragments us).2 = more.
Proof.
  intros (head & chunks & -> & _ & <- & _) Hm. exists head, (map fragment chunks ++ more).
  rewrite take_fragments_map by done. done.
Qed.

(** Element fragmentation is total and inverted by a receiver: whatever the
    length of the body, the octets emitted split into well-formed elements, and
    reassembling the element with the Fragment elements after it gives the body
    back and leaves the elements that follow. *)
Lemma fragmentation_roundtrip id body more :
  Forall short_element more -> (forall t ts', more = t :: ts' -> t.1 <> 254) ->
  exists out b us, fragmented_element id body = Val out /\
    elements (out ++ encode_elements more) = (id, b) :: us /\
    b ++ (take_fragments us).1 = body /\ (take_fragments us).2 = more.
Proof.
  intros Hs Hm. destruct (fragmented_element_spec id body) as (ts & E & Hts).
  destruct (fragmented_elements id body ts more Hts Hm) as (b & us & Hu & Hb & Hr).
  exists (encode_elements ts), b, us. split; [done|]. rewrite <- encode_elements_app.
  destruct Hts as (? & ? & -> & _ & _ & Hf). rewrite elements_encode by (by apply Forall_app).
  rewrite Hu. done.
Qed.

(** * The reference: a block as its list of elements *)

Definition ext (x : Z) (data : bytes) : Z * bytes := (255, x :: data).

Lemma ext_ie_short x data : (length data <= 254)%nat -> ext_ie x data = Val (ie 255 (x :: data)).
Proof.
  intros H. unfold ext_ie, fragmented_element. cbn [length].
  by rewrite (proj2 (Nat.leb_le _ _)) by lia.
Qed.

Definition country_element (country : bytes) (channel width : Z) (band6 : bool) : Z * bytes :=
  (7, [byte_at country 0; byte_at country 1; 0x20] ++ country_triplet channel width band6).

(** Rates, DS Parameter Set, Country: what precedes the TIM. *)
Definition band_elements (country : bytes) (channel width : Z) (band6 : bool) : list (Z * bytes) :=
  if band6 || is_5ghz channel
  then [(1, RATES_5GHZ); country_element country channel width band6]
  else [(1, RATES_2GHZ); (3, [channel]); country_element country channel width band6;
        (50, EXT_RATES_2GHZ)].

Definition vht_elements (channel width : Z) : list (Z * bytes) :=
  [(191, [if 160 <=? width then 0xb6 else 0xb2; 0x01; 0x80; 0x33] ++
         [0xea; 0xff; 0x00; 0x00; 0xea; 0xff; 0x00; 0x00]);
   (192, drop 2 (vht_operation channel width))].

Definition eht_elements (channel width : Z) (band6 : bool) (punct : Z) : list (Z * bytes) :=
  [ext 108 (eht_capabilities_data width); ext 106 (eht_operation_data channel width band6 punct)].

(** The PHY block: HE is mandatory on 6 GHz, and there is no HT or VHT there. *)
Definition phy_elements (channel width : Z) (band6 : bool) (phy : PhyMode) (punct : Z) :
    list (Z * bytes) :=
  (if band6 then
     [ext 35 he_capabilities_data; ext 36 (he_operation_6ghz_data channel width);
      ext 38 [0x20; 0x08; 0xa9; 0xff; 0x2f; 0xa9; 0xff; 0x45; 0x75; 0xff; 0x65; 0x75; 0xff];
      ext 39 [0x03]; ext 59 [0x00; 0x00]]
   else
     [(45, ht_capabilities_body); (61, ht_operation_body channel width false)] ++
     (if is_5ghz channel && phy_geb phy Vht then vht_elements channel width else []) ++
     (if phy_geb phy He
      then [ext 35 he_capabilities_data; ext 36 [0xf0; 0x3f; 0x00; 0x98; 0xfc; 0xff]] else [])) ++
  (if phy_geb phy Eht then eht_elements channel width band6 punct else []).

Definition closing_elements (channel width : Z) (band6 wmm : bool) : list (Z * bytes) :=
  [(127, [0; 0; 0x08; 0; 0; 0; 0; 0; 0; 0; 0]); (59, [operating_class channel width band6; 0]);
   (70, [0x02; 0x00; 0x00; 0x00; 0x00])] ++ (if wmm then [(221, wmm_body)] else []).

Definition bss_elements (ssid : bytes) (channel : Z) (country : bytes) (width : Z) (band6 wmm : bool)
    (phy : PhyMode) (rsn tim : list (Z * bytes)) (punct : Z) : list (Z * bytes) :=
  (0, ssid) :: band_elements country channel width band6 ++ tim ++ rsn ++
  phy_elements channel width band6 phy punct ++ closing_elements channel width band6 wmm.

Lemma length_eht_capabilities_data width : (length (eht_capabilities_data width) <= 254)%nat.
Proof. unfold eht_capabilities_data. destruct (320 <=? width); simpl; lia. Qed.
Lemma length_eht_operation_data channel width band6 punct :
  (length (eht_operation_data channel width band6 punct) <= 254)%nat.
Proof.
  unfold eht_operation_data. destruct (negb band6 && (punct =? 0)); [simpl; lia|].
  destruct (width =? 320), (width =? 160), (width =? 80), (width =? 40), (punct =? 0);
    cbn [app length negb]; rewrite ?length_le_bytes; lia.
Qed.
Lemma length_he_operation_6ghz_data channel width :
  (length (he_operation_6ghz_data channel width) <= 254)%nat.
Proof.
  unfold he_operation_6ghz_data.
  destruct (width =? 40), (width =? 80), ((width =? 160) || (width =? 320)); simpl; lia.
Qed.

Lemma vht_operation_element channel width :
  vht_operation channel width = ie 192 (drop 2 (vht_operation channel width)).
Proof. unfold vht_operation. by destruct (width =? 80), (width =? 160). Qed.

Lemma eht_block channel width band6 punct :
  (let! ec := eht_capabilities width in
   let! eo := eht_operation channel width band6 punct in Val (ec ++ eo)) =
  Val (encode_elements (eht_elements channel width band6 punct)).
Proof.
  unfold eht_capabilities, eht_operation.
  rewrite !ext_ie_short by first [apply length_eht_capabilities_data|apply length_eht_operation_data].
  cbn [rbind]. unfold eht_elements, ext. rewrite !encode_elements_cons. cbn [fst snd].
  by rewrite app_nil_r.
Qed.

Ltac encode_block :=
  repeat (rewrite encode_elements_app || rewrite encode_elements_cons || rewrite <- app_assoc);
  change (encode_elements []) with (@nil Z); cbn [fst snd app]; rewrite ?app_nil_r.

Lemma encode_if (b : bool) ts us :
  encode_elements (if b then ts else us) = if b then encode_elements ts else encode_elements us.
Proof. by destruct b. Qed.
Lemma encode_default (o : option (list (Z * bytes))) :
  default [] (encode_elements <$> o) = encode_elements (default [] o).
Proof. by destruct o. Qed.
Lemma rbind_if {A B} (b : bool) (m : res A) (k : A -> res B) d v :
  m = Val v -> (let! x := if b then m else Val d in k x) = k (if b then v else d).
Proof. intros ->. by destruct b. Qed.

(** The frames' blocks are exactly these elements, in this order. *)
Lemma make_beacon_ies_6ghz_elements ssid channel country width wmm phy rsn tim punct :
  make_beacon_ies_6ghz ssid channel country width wmm phy (encode_elements rsn)
    (encode_elements <$> tim) punct =
  Val (encode_elements (bss_elements ssid channel country width true wmm phy rsn (default [] tim) punct)).
Proof.
  unfold make_beacon_ies_6ghz, he_capabilities, he_operation_6ghz, mu_edca_parameter,
    spatial_reuse_parameter, he_6ghz_band_capabilities.
  rewrite (ext_ie_short 36) by apply length_he_operation_6ghz_data.
  rewrite !ext_ie_short by (apply Nat.leb_le; reflexivity). cbn [rbind].
  rewrite (rbind_if _ _ _ _ _ (eht_block channel width true punct)). f_equal.
  unfold bss_elements, band_elements, phy_elements, closing_elements, country_ie, country_element, ext.
  cbn [orb]. encode_block. rewrite !encode_if, <- encode_default. encode_block.
  rewrite <- ?app_assoc. reflexivity.
Qed.

Lemma make_beacon_ies_elements ssid channel country width wmm phy rsn tim punct :
  make_beacon_ies ssid channel country width wmm phy (encode_elements rsn)
    (encode_elements <$> tim) punct =
  Val (encode_elements (bss_elements ssid channel country width false wmm phy rsn (default [] tim) punct)).
Proof.
  unfold make_beacon_ies, he_capabilities, he_operation_5ghz.
  rewrite !ext_ie_short by (apply Nat.leb_le; reflexivity). cbn [rbind].
  rewrite (rbind_if _ _ _ _ _ eq_refl), (rbind_if _ _ _ _ _ (eht_block channel width false punct)).
  f_equal. rewrite (vht_operation_element channel width).
  unfold bss_elements, band_elements, phy_elements, closing_elements, country_ie, country_element, ext.
  unfold vht_elements. cbn [orb]. encode_block. rewrite !encode_if, <- encode_default.
  destruct (is_5ghz channel); encode_block; rewrite <- ?app_assoc; reflexivity.
Qed.

Lemma resp_ies_elements ssid channel country width band6 wmm phy rsn punct :
  resp_ies ssid channel country width band6 wmm phy (encode_elements rsn) punct =
  Val (encode_elements (bss_elements ssid channel country width band6 wmm phy rsn [] punct)).
Proof.
  unfold resp_ies. destruct band6.
  - exact (make_beacon_ies_6ghz_elements _ _ _ _ _ _ _ None _).
  - exact (make_beacon_ies_elements _ _ _ _ _ _ _ None _).
Qed.

(** * What a station reads in it *)

Lemma is_byte_length_country country channel width band6 :
  short_element (country_element country channel width band6).
Proof.
  unfold short_element, country_element, country_triplet.
  destruct (band6 || is_5ghz channel); simpl; lia.
Qed.

Ltac short := unfold short_element; cbn [snd ext]; cbn; lia.
Ltac shorts := repeat first [apply Forall_nil; exact I | apply Forall_cons; split; [try short|]].

Lemma eht_elements_short channel width band6 punct :
  Forall short_element (eht_elements channel width band6 punct).
Proof.
  unfold eht_elements, ext. constructor; [|constructor; [|constructor]]; unfold short_element; cbn [snd length].
  - pose proof (length_eht_capabilities_data width). lia.
  - pose proof (length_eht_operation_data channel width band6 punct). lia.
Qed.

Lemma phy_elements_short channel width band6 phy punct :
  Forall short_element (phy_elements channel width band6 phy punct).
Proof.
  unfold phy_elements. apply Forall_app. split.
  - pose proof (length_he_operation_6ghz_data channel width).
    destruct band6, (is_5ghz channel && phy_geb phy Vht), (phy_geb phy He);
      unfold vht_elements, vht_operation; cbn [app]; shorts; unfold short_element; cbn [snd ext length];
      try lia; destruct (width =? 80), (width =? 160); cbn; lia.
  - destruct (phy_geb phy Eht); [apply eht_elements_short|done].
Qed.

Lemma bss_elements_short ssid channel country width band6 wmm phy rsn tim punct :
  (length ssid <= 255)%nat -> Forall short_element rsn -> Forall short_element tim ->
  Forall short_element (bss_elements ssid channel country width band6 wmm phy rsn tim punct).
Proof.
  intros Hs Hr Ht. unfold bss_elements. constructor; [done|].
  apply Forall_app. split.
  { unfold band_elements. destruct (band6 || is_5ghz channel); shorts; apply is_byte_length_country. }
  apply Forall_app; split; [done|]. apply Forall_app; split; [done|].
  apply Forall_app; split; [apply phy_elements_short|].
  unfold closing_elements. destruct wmm; cbn [app]; shorts.
Qed.

Lemma bodies_app id ts us : bodies id (ts ++ us) = bodies id ts ++ bodies id us.
Proof. unfold bodies. by rewrite filter_app, map_app. Qed.

Lemma bodies_none id ts : forallb (fun t => negb (t.1 =? id)) ts = true -> bodies id ts = [].
Proof.
  induction ts as [|t ts IH]; [done|]. cbn [forallb]. intros [Ht Hts]%andb_true_iff.
  rewrite bodies_cons, IH by done. by destruct (t.1 =? id).
Qed.

(** The elements around the security tail use other identifiers. *)
Lemma bss_bodies id ssid channel country width band6 wmm phy rsn tim punct :
  id = 48 \/ id = 0xf4 ->
  bodies id (bss_elements ssid channel country width band6 wmm phy rsn tim punct) =
  bodies id tim ++ bodies id rsn.
Proof.
  intros Hid. unfold bss_elements. rewrite bodies_cons, !bodies_app.
  assert (Hb : bodies id (band_elements country channel width band6) = []).
  { apply bodies_none. unfold band_elements.
    destruct Hid as [-> | ->], (band6 || is_5ghz channel); reflexivity. }
  assert (Hp : bodies id (phy_elements channel width band6 phy punct) = []).
  { apply bodies_none. unfold phy_elements, vht_elements, eht_elements.
    destruct Hid as [-> | ->], band6, (is_5ghz channel && phy_geb phy Vht), (phy_geb phy He),
      (phy_geb phy Eht); reflexivity. }
  assert (Hc : bodies id (closing_elements channel width band6 wmm) = []).
  { apply bodies_none. by destruct Hid as [-> | ->], wmm. }
  rewrite Hb, Hp, Hc, !app_nil_r. by destruct Hid as [-> | ->].
Qed.

(** The channels a Country triplet makes usable. *)
Definition country_channels (t : bytes) : list Z :=
  map (fun i => byte_at t 0 + 4 * i) (seqZ 0 (byte_at t 1)).

(** The Country element makes usable exactly the 20 MHz channels of the
    operating block, the primary channel among them: an 802.11d client never
    treats the channel it is on as forbidden. *)
Lemma country_covers channel width band6 :
  band6 = true \/ 36 <= channel -> channel <= 233 ->
  width = 20 \/ width = 40 \/ width = 80 \/ width = 160 \/ (width = 320 /\ band6 = true) ->
  1 <= channel -> (channel - band_base channel band6) mod 4 = 0 ->
  let t := country_triplet channel width band6 in
  channel ∈ country_channels t /\ byte_at t 1 = width / 20 /\
  (20 < width -> byte_at t 0 + 2 * (width / 20 - 1) = center_channel channel width band6).
Proof.
  intros Hb Hm Hw H1 Hmod. cbn zeta.
  assert (Hband : band6 || is_5ghz channel = true).
  { unfold is_5ghz. destruct Hb as [-> |]; [done|]. apply orb_true_iff. right. apply Z.ltb_lt. lia. }
  unfold country_triplet. rewrite Hband. cbn [nth].
  assert (Hin : forall first n, 0 <= channel - first <= 4 * (n - 1) -> (channel - first) mod 4 = 0 ->
      channel ∈ country_channels [first; n; 23]).
  { intros first n Hr Hq. unfold country_channels. cbn [nth]. apply list_elem_of_fmap.
    exists ((channel - first) / 4). rewrite elem_of_seqZ.
    pose proof (Z.div_mod (channel - first) 4). lia. }
  assert (Hbase : 1 <= band_base channel band6 <= channel).
  { unfold band_base. destruct band6; [lia|]. destruct (Z.leb_spec 149 channel), (Z.leb_spec 100 channel); lia. }
  assert (Hspan : forall s, s = 16 \/ s = 32 \/ s = 64 ->
    let q := (channel - band_base channel band6) / s in
    0 <= channel - (band_base channel band6 + q * s) <= s - 4 /\
    (channel - (band_base channel band6 + q * s)) mod 4 = 0).
  { intros s Hs q. subst q. pose proof (Z.div_mod (channel - band_base channel band6) s ltac:(lia)).
    pose proof (Z.mod_pos_bound (channel - band_base channel band6) s ltac:(lia)).
    assert ((channel - (band_base channel band6 + (channel - band_base channel band6) / s * s)) mod 4 = 0).
    { replace (channel - (band_base channel band6 + (channel - band_base channel band6) / s * s))
        with (channel - band_base channel band6 + (- ((channel - band_base channel band6) / s) * (s / 4)) * 4)
        by (destruct Hs as [->|[->| ->]];
            [change (16 / 4) with 4|change (32 / 4) with 8|change (64 / 4) with 16]; lia).
      by rewrite Z.mod_add. }
    split; [|done].
    pose proof (Z.div_mod (channel - (band_base channel band6 + (channel - band_base channel band6) / s * s)) 4).
    destruct Hs as [->|[->| ->]]; lia. }
  unfold center_channel. fold (band_base channel band6).
  assert (H6 : band6 = true -> band_base channel band6 = 1) by (by intros ->).
  set (base := band_base channel band6) in *. clearbody base.
  assert (Hu : forall z, 0 <= z < 256 -> u8 z = z) by (intros; apply u8_small; done).
  destruct Hw as [->|[->|[->|[->|[-> Hb6]]]]].
  - change (u8 (Z.max (20 / 20) 1)) with 1. change (20 <? 20) with false. cbn iota.
    split; [|split; [done|lia]]. apply Hin; [lia|by rewrite Z.sub_diag].
  - change (u8 (Z.max (40 / 20) 1)) with 2. change (20 <? 40) with true.
    change (u8 (2 * u8 (2 - 1))) with 2. change (40 =? 40) with true. change (40 / 20) with 2. cbn iota.
    pose proof (Z.div_mod (channel - base) 8 ltac:(done)). pose proof (Z.div_mod (channel - base) 4 ltac:(done)).
    pose proof (Z.mod_pos_bound (channel - base) 8 ltac:(done)).
    destruct (Z.eqb_spec ((channel - base) mod 8) 0) as [He|He].
    + rewrite (Hu (channel + 2)), (Hu (channel + 2 - 2)) by lia. split; [|split; [done|lia]].
      apply Hin; [lia|]. by replace (channel - (channel + 2 - 2)) with 0 by lia.
    + rewrite (Hu (channel - 2)), (Hu (channel - 2 - 2)) by lia. split; [|split; [done|lia]].
      apply Hin; [lia|]. by replace (channel - (channel - 2 - 2)) with 4 by lia.
  - change (u8 (Z.max (80 / 20) 1)) with 4. change (20 <? 80) with true.
    change (u8 (2 * u8 (4 - 1))) with 6. change (80 =? 40) with false. change (80 =? 80) with true.
    change (80 / 20) with 4. cbn iota.
    destruct (Hspan 16 ltac:(auto)) as [Hr Hq]. rewrite (Hu (base + (channel - base) / 16 * 16 + 6)), Hu by lia.
    replace (base + (channel - base) / 16 * 16 + 6 - 6) with (base + (channel - base) / 16 * 16) by lia.
    split; [apply Hin; [lia|done]|lia].
  - change (u8 (Z.max (160 / 20) 1)) with 8. change (20 <? 160) with true.
    change (u8 (2 * u8 (8 - 1))) with 14. change (160 =? 40) with false. change (160 =? 80) with false.
    change (160 =? 160) with true. change (160 / 20) with 8. cbn iota.
    destruct (Hspan 32 ltac:(auto)) as [Hr Hq]. rewrite (Hu (base + (channel - base) / 32 * 32 + 14)), Hu by lia.
    replace (base + (channel - base) / 32 * 32 + 14 - 14) with (base + (channel - base) / 32 * 32) by lia.
    split; [apply Hin; [lia|done]|lia].
  - change (u8 (Z.max (320 / 20) 1)) with 16. change (20 <? 320) with true.
    change (u8 (2 * u8 (16 - 1))) with 30. change (320 =? 40) with false. change (320 =? 80) with false.
    change (320 =? 160) with false. change (320 =? 320) with true. change (320 / 20) with 16. cbn iota.
    destruct (Hspan 64 ltac:(auto)) as [Hr Hq]. specialize (H6 Hb6). rewrite (Hu (base + (channel - base) / 64 * 64 + 30)), Hu by lia.
    replace (base + (channel - base) / 64 * 64 + 30 - 30) with (base + (channel - base) / 64 * 64) by lia.
    split; [apply Hin; [lia|done]|lia].
Qed.

(** The fixed part of a beacon: 802.11 header, timestamp, interval, capability. *)
Definition beacon_head (bssid : bytes) (channel timestamp : Z) (band6 : bool) : bytes :=
  dot11_header TYPE_MGMT SUBTYPE_BEACON 0 (replicate 6 0xff) bssid bssid 0 ++
  le_bytes 8 timestamp ++ le_bytes 2 BEACON_INTERVAL_TU ++ ap_capability channel band6.

Lemma length_beacon_head bssid channel timestamp band6 :
  length bssid = 6%nat -> length (beacon_head bssid channel timestamp band6) = 36%nat.
Proof.
  intros Hb. unfold beacon_head, dot11_header, ap_capability. rewrite !length_app, Hb.
  by destruct band6, (is_5ghz channel).
Qed.

Lemma build_beacon_elements bssid ssid channel timestamp rsn country width (band6 wmm : bool) phy punct :
  (if band6 then build_beacon_6ghz else build_beacon) bssid ssid channel timestamp
    (encode_elements rsn) country width wmm phy punct =
  Val (beacon_head bssid channel timestamp band6 ++
       encode_elements (bss_elements ssid channel country width band6 wmm phy rsn [(5, [0; 1; 0; 0])] punct)).
Proof.
  unfold beacon_head. destruct band6; unfold build_beacon_6ghz, build_beacon.
  - rewrite (make_beacon_ies_6ghz_elements _ _ _ _ _ _ _ (Some [(5, [0; 1; 0; 0])])).
    cbn [rbind default]. by rewrite <- !app_assoc.
  - rewrite (make_beacon_ies_elements _ _ _ _ _ _ _ (Some [(5, [0; 1; 0; 0])])).
    cbn [rbind default]. by rewrite <- !app_assoc.
Qed.

(** A beacon is total and says exactly what the access point was configured
    with: after the 802.11 header and the fixed fields, its elements are SSID,
    rates, Country, the TIM, the security tail and then the PHY elements of its
    band and generation, all complete; a station finds in it the SSID and, by the
    strict search, the RSNE of the tail, and nothing else claims to be one. *)
Lemma beacon_advertises (bssid ssid : bytes) channel timestamp rsn country width (band6 wmm : bool) phy
    punct :
  (length ssid <= 255)%nat -> Forall short_element rsn -> length bssid = 6%nat ->
  exists frame,
    (if band6 then build_beacon_6ghz else build_beacon) bssid ssid channel timestamp
      (encode_elements rsn) country width wmm phy punct = Val frame /\
    sub frame 16 22 = bssid /\ sub frame 24 32 = le_bytes 8 timestamp /\
    elements (drop 36 frame) =
      bss_elements ssid channel country width band6 wmm phy rsn [(5, [0; 1; 0; 0])] punct /\
    stream_tail (drop 36 frame) = [] /\
    find_ssid (drop 36 frame) = Val (Some ssid) /\
    (forall id, id = 48 \/ id = 0xf4 ->
       find_ie_strict (drop 36 frame) id = Val (strict_answer None (bodies id rsn) [])).
Proof.
  intros Hs Hr Hb. set (us := bss_elements ssid channel country width band6 wmm phy rsn [(5, [0; 1; 0; 0])] punct).
  assert (Hus : Forall short_element us).
  { apply bss_elements_short; [done|done|]. constructor; [|constructor]. unfold short_element. simpl. lia. }
  set (head := beacon_head bssid channel timestamp band6).
  assert (Hhead : length head = 36%nat) by (by apply length_beacon_head).
  exists (head ++ encode_elements us).
  assert (Hd : drop 36 (head ++ encode_elements us) = encode_elements us).
  { rewrite <- Hhead. apply drop_app_length. }
  assert (Hsp : split_elements (encode_elements us) = (us, [])).
  { rewrite <- (app_nil_r (encode_elements us)). by apply split_encode. }
  assert (Hel : elements (encode_elements us) = us) by (unfold elements; by rewrite Hsp).
  assert (Htl : stream_tail (encode_elements us) = []) by (unfold stream_tail; by rewrite Hsp).
  rewrite Hd. split; [apply build_beacon_elements|].
  split; [|split; [|split; [done|split; [done|split]]]].
  - unfold head, beacon_head, dot11_header. rewrite <- !app_assoc, (app_assoc (replicate 6 0xff) bssid).
    rewrite (app_assoc _ (replicate 6 0xff ++ bssid)). apply sub_exact; by rewrite ?length_app, Hb.
  - replace (head ++ encode_elements us) with
      (dot11_header TYPE_MGMT SUBTYPE_BEACON 0 (replicate 6 0xff) bssid bssid 0 ++ le_bytes 8 timestamp ++
       ((le_bytes 2 BEACON_INTERVAL_TU ++ ap_capability channel band6) ++ encode_elements us))
      by (unfold head, beacon_head; by rewrite <- !app_assoc).
    apply sub_exact; [|rewrite length_le_bytes]; unfold dot11_header; rewrite !length_app, Hb; done.
  - rewrite find_ssid_spec, find_ie_spec, Hel. done.
  - intros id Hid. rewrite find_ie_strict_spec, Hel, Htl. f_equal. unfold us.
    rewrite bss_bodies by done. f_equal. by destruct Hid as [-> | ->].
Qed.

(** * HT Operation's secondary channel *)

Definition secondary_above (info : bytes) : bool := Z.land (byte_at info 1) 0x03 =? 1.

(** Below channel 149 the Secondary Channel Offset names the side on which the
    other 20 MHz channel of the 40 MHz pair lies: the centre channel is above
    the primary exactly when the offset says so. *)
Lemma ht_offset_agrees channel width :
  36 <= channel < 149 -> (channel - band_base channel false) mod 4 = 0 -> 40 <= width ->
  secondary_above (ht_operation_body channel width false) =
    (center_channel channel 40 false =? channel + 2).
Proof.
  intros Hc Hm Hw. unfold secondary_above, ht_operation_body. rewrite (proj2 (Z.leb_le _ _)) by lia.
  cbn [app nth]. unfold center_channel. fold (band_base channel false). change (40 =? 40) with true. cbn iota.
  assert (Hb : (channel - 36) mod 8 = (channel - band_base channel false) mod 8).
  { unfold band_base. rewrite (proj2 (Z.leb_gt _ _)) by lia. destruct (Z.leb_spec 100 channel); [|done].
    replace (channel - 36) with (channel - 100 + 8 * 8) by lia. by rewrite Z.mod_add. }
  rewrite Hb. destruct ((channel - band_base channel false) mod 8 =? 0); rewrite u8_small by (unfold is_byte; lia).
  - by rewrite (Z.eqb_refl (channel + 2)).
  - symmetry. apply Z.eqb_neq. lia.
Qed.

(** From channel 149 on it does not: the pairs start at 149 there, and
    [center_channel] knows it, but the offset is still counted from 36. *)
Lemma ht_offset_149 :
  center_channel 149 40 false = 149 + 2 /\
  secondary_above (ht_operation_body 149 40 false) = false.
Proof. split; reflexivity. Qed.

(** * The octets are octets *)

Definition element_wf (t : Z * bytes) : Prop := is_byte t.1 /\ wf_bytes t.2.

Lemma center_channel_byte channel width band6 : is_byte (center_channel channel width band6).
Proof. apply u8_byte. Qed.

Ltac octet := first
  [ assumption | apply u8_byte | apply center_channel_byte | apply operating_class_byte
  | apply wf_bytes_nth; assumption | apply (bool_decide_unpack _); exact I ].
Ltac octets := repeat first
  [ apply wf_le_bytes | apply wf_bytes_app | apply wf_bytes_cons; [octet|] | apply wf_bytes_nil
  | apply wf_bytes_replicate; octet ].
Ltac elements_wf := repeat first
  [ apply Forall_nil; exact I
  | apply Forall_cons; split; [split; [cbn [fst ext]; octet|cbn [snd ext]; octets]|] ].

Lemma bss_elements_wf ssid channel country width band6 wmm phy rsn tim punct :
  wf_bytes ssid -> is_byte channel -> wf_bytes country -> Forall element_wf rsn -> Forall element_wf tim ->
  Forall element_wf (bss_elements ssid channel country width band6 wmm phy rsn tim punct).
Proof.
  intros Hs Hc Hy Hr Ht. unfold bss_elements.
  constructor; [split; [octet|done]|]. repeat (apply Forall_app; split); try done.
  - unfold band_elements, country_element, country_triplet.
    destruct (band6 || is_5ghz channel), (20 <? width); elements_wf.
  - unfold he_operation_6ghz_data, ht_operation_body, ht_capabilities_body.
    destruct band6; [|repeat (apply Forall_app; split)].
    + destruct (width =? 40), (width =? 80), ((width =? 160) || (width =? 320)); elements_wf.
    + destruct (40 <=? width), ((channel - 36) mod 8 =? 0); elements_wf.
    + unfold vht_elements, vht_operation. destruct (_ && _); [|elements_wf].
      destruct (160 <=? width), (width =? 80), (width =? 160); cbn [drop ie]; elements_wf.
    + destruct (phy_geb phy He); elements_wf.
  - unfold eht_elements. destruct (phy_geb phy Eht); [|elements_wf].
    constructor; [|constructor; [|constructor]]; (split; [cbn [fst ext]; octet|cbn [snd ext]; apply wf_bytes_cons; [octet|]]).
    + unfold eht_capabilities_data. destruct (320 <=? width); octets.
    + unfold eht_operation_data. destruct (negb band6 && (punct =? 0)); [octets|].
      destruct (punct =? 0), (width =? 320), (width =? 160), (width =? 80), (width =? 40);
        cbn [negb]; octets.
  - elements_wf.
  - destruct wmm; elements_wf.
Qed.

(** * The radio's own capabilities *)

(** The first matching element gets the radio's body, when one element can hold it. *)
Fixpoint put_element (id : Z) (ext_id : option Z) (body : bytes) (ts : list (Z * bytes)) :
    list (Z * bytes) :=
  match ts with
  | [] => []
  | t :: ts' =>
      if ie_matches id ext_id t then
        if (length body + match ext_id with Some _ => 1 | None => 0 end <=? 255)%nat
        then (id, (match ext_id with Some ext => [ext] | None => [] end) ++ body) :: ts' else t :: ts'
      else t :: put_element id ext_id body ts'
  end.

Lemma split_first {A} (p : A -> bool) (l : list A) :
  Forall (fun a => p a = false) l \/
  exists l1 a l2, l = l1 ++ a :: l2 /\ Forall (fun a => p a = false) l1 /\ p a = true.
Proof.
  induction l as [|a l IH]; [by left|]. destruct (p a) eqn:Ha; [right; by exists [], a, l|].
  destruct IH as [IH|(l1 & b & l2 & -> & H1 & Hb)]; [left; by constructor|].
  right. exists (a :: l1), b, l2. repeat split; [by constructor|done].
Qed.

Lemma put_element_at id ext_id body ts t us :
  Forall (fun t => ie_matches id ext_id t = false) ts -> ie_matches id ext_id t = true ->
  put_element id ext_id body (ts ++ t :: us) =
  ts ++ (if (length body + match ext_id with Some _ => 1 | None => 0 end <=? 255)%nat
         then (id, (match ext_id with Some ext => [ext] | None => [] end) ++ body) else t) :: us.
Proof.
  intros Hts Ht. induction Hts as [|a ts Ha _ IH]; cbn [app put_element].
  - rewrite Ht. by destruct (_ <=? _)%nat.
  - by rewrite Ha, IH.
Qed.

Lemma put_element_none id ext_id body ts :
  Forall (fun t => ie_matches id ext_id t = false) ts -> put_element id ext_id body ts = ts.
Proof. induction 1 as [|a ts Ha _ IH]; [done|]. cbn [put_element]. by rewrite Ha, IH. Qed.

Lemma element_offset_none p ts : Forall (fun t => p t = false) ts -> element_offset p ts = None.
Proof. induction 1 as [|a ts Ha _ IH]; [done|]. cbn [element_offset]. by rewrite Ha, IH. Qed.

Lemma put_element_short id ext_id body ts :
  Forall short_element ts -> Forall short_element (put_element id ext_id body ts).
Proof.
  induction 1 as [|t ts Ht Hts IH]; [done|]. cbn [put_element].
  destruct (ie_matches id ext_id t); [|by constructor].
  destruct (Nat.leb_spec (length body + match ext_id with Some _ => 1 | None => 0 end) 255) as [Hl|_];
    constructor; try done. unfold short_element. cbn [snd]. rewrite length_app. destruct ext_id; simpl; lia.
Qed.

Lemma put_element_wf id ext_id body ts :
  is_byte id -> (forall x, ext_id = Some x -> is_byte x) -> wf_bytes body ->
  Forall element_wf ts -> Forall element_wf (put_element id ext_id body ts).
Proof.
  intros Hid Hx Hb. induction 1 as [|t ts Ht Hts IH]; [done|]. cbn [put_element].
  destruct (ie_matches id ext_id t); [|by constructor].
  destruct (_ <=? _)%nat; constructor; try done. split; [done|]. cbn [snd]. apply wf_bytes_app; [|done].
  destruct ext_id; [|apply wf_bytes_nil]. apply wf_bytes_cons; [by apply Hx|apply wf_bytes_nil].
Qed.

Lemma replace_ie_payload_put pre ts id ext_id body :
  Forall short_element ts ->
  rmap snd (replace_ie_payload (pre ++ encode_elements ts) (length pre) id ext_id body) =
  Val (pre ++ encode_elements (put_element id ext_id body ts)).
Proof.
  intros Hs. destruct (split_first (ie_matches id ext_id) ts) as [Hn|(l1 & t & l2 & -> & H1 & Ht)].
  - rewrite replace_ie_payload_spec by (rewrite length_app; lia).
    rewrite drop_app_length, elements_encode, element_offset_none, put_element_none by done. done.
  - rewrite put_element_at by done.
    destruct (Nat.leb_spec (length body + match ext_id with Some _ => 1 | None => 0 end) 255) as [Hl|Hl].
    + destruct t as [id0 b0]. pose proof (replace_ie_payload_encoded pre l1 id0 b0 l2 [] id ext_id body Hs) as E.
      rewrite !app_nil_r in E. rewrite E by done. done.
    + rewrite replace_ie_payload_spec by (rewrite length_app; lia).
      rewrite drop_app_length, elements_encode, element_offset_split by done.
      by rewrite (proj2 (Nat.ltb_lt _ _)) by lia.
Qed.

Definition put_optional (id : Z) (ext_id : option Z) (o : option bytes) (ts : list (Z * bytes)) :
    list (Z * bytes) :=
  match o with Some body => put_element id ext_id body ts | None => ts end.

Definition with_radio (caps : PhyCapabilities) (ts : list (Z * bytes)) : list (Z * bytes) :=
  put_optional 255 (Some 108) (pc_eht caps) (put_optional 255 (Some 35) (pc_he caps)
    (put_optional 191 None (pc_vht caps) (put_optional 45 None (pc_ht caps) ts))).

Lemma put_optional_short id ext_id o ts :
  Forall short_element ts -> Forall short_element (put_optional id ext_id o ts).
Proof. destruct o; [apply put_element_short|done]. Qed.

Lemma with_radio_short caps ts : Forall short_element ts -> Forall short_element (with_radio caps ts).
Proof. intros H. unfold with_radio. auto using put_optional_short. Qed.

Lemma apply_phy_capabilities_spec pre ts caps :
  Forall short_element ts ->
  apply_phy_capabilities (pre ++ encode_elements ts) (length pre) caps =
  Val (pre ++ encode_elements (with_radio caps ts)).
Proof.
  intros Hs. unfold apply_phy_capabilities, with_radio.
  assert (Hput : forall id ext_id o us, Forall short_element us ->
    match o with
    | Some body => rmap snd (replace_ie_payload (pre ++ encode_elements us) (length pre) id ext_id body)
    | None => Val (pre ++ encode_elements us)
    end = Val (pre ++ encode_elements (put_optional id ext_id o us))).
  { intros id ext_id [body|] us Hus; [by apply replace_ie_payload_put|done]. }
  rewrite !Hput by auto using put_optional_short. cbn [rbind].
  rewrite Hput by auto using put_optional_short. cbn [rbind].
  rewrite Hput by auto using put_optional_short. cbn [rbind].
  rewrite Hput by auto using put_optional_short. done.
Qed.

(** * The Beacon Protection capability bit *)

Definition set_bit_84 (b : bytes) : bytes := <[10%nat := Z.lor (byte_at b 10) 0x10]> b.

(** The first Extended Capabilities element long enough gets bit 84. *)
Fixpoint protect_elements (ts : list (Z * bytes)) : list (Z * bytes) :=
  match ts with
  | [] => []
  | t :: ts' => if is_extended_caps t then (t.1, set_bit_84 t.2) :: ts' else t :: protect_elements ts'
  end.

Lemma protect_elements_spec ts :
  Forall short_element ts ->
  rmap snd (enable_beacon_protection_capability (encode_elements ts)) =
  Val (encode_elements (protect_elements ts)).
Proof.
  intros Hs. rewrite enable_beacon_protection_spec, elements_encode by done. cbn [rmap rbind].
  destruct (split_first is_extended_caps ts) as [Hn|(l1 & [id b] & l2 & -> & H1 & Ht)].
  - rewrite element_offset_none by done. cbn [snd]. f_equal. f_equal. clear Hs.
    induction Hn as [|a l Ha _ IH]; [done|]. cbn [protect_elements]. by rewrite Ha, <- IH.
  - rewrite element_offset_split by done.
    assert (E : protect_elements (l1 ++ (id, b) :: l2) = l1 ++ (id, set_bit_84 b) :: l2).
    { clear Hs. induction H1 as [|a l Ha _ IH]; cbn [app protect_elements]; [by rewrite Ht|by rewrite Ha, IH]. }
    rewrite E, !encode_elements_app, !encode_elements_cons. cbn [fst snd]. f_equal.
    unfold is_extended_caps in Ht. cbn [fst snd] in Ht. apply andb_true_iff in Ht as [_ Ht%Nat.leb_le].
    set (e := encode_elements l1) in *.
    rewrite insert_app_r_alt by lia. replace (length e + 12 - length e)%nat with 12%nat by lia. f_equal.
    rewrite app_nth2 by lia. replace (length e + 12 - length e)%nat with 12%nat by lia.
    unfold ie, set_bit_84. rewrite length_insert. cbn [app nth].
    rewrite (app_nth1 b) by lia. change (<[12%nat := ?v]> (?x :: ?y :: ?l)) with (x :: y :: <[10%nat := v]> l).
    by rewrite insert_app_l by lia.
Qed.

Lemma protect_elements_short ts : Forall short_element ts -> Forall short_element (protect_elements ts).
Proof.
  induction 1 as [|t ts Ht Hts IH]; [done|]. cbn [protect_elements].
  destruct (is_extended_caps t); constructor; try done.
  unfold short_element, set_bit_84 in *. cbn [snd]. by rewrite length_insert.
Qed.

Lemma wf_insert (l : bytes) i v : wf_bytes l -> is_byte v -> wf_bytes (<[i := v]> l).
Proof. intros Hl Hv. by apply Forall_insert. Qed.

Lemma protect_elements_wf ts : Forall element_wf ts -> Forall element_wf (protect_elements ts).
Proof.
  induction 1 as [|[id b] ts [Hid Hb] Hts IH]; [done|]. cbn [protect_elements].
  destruct (is_extended_caps (id, b)); constructor; try done. split; [done|]. cbn [snd] in *.
  unfold set_bit_84. apply wf_insert; [done|]. apply lor_byte; [by apply wf_bytes_nth|done].
Qed.
