(* ===== verification/Mlo.v ===== *)
(** Multi-Link elements and per-link profiles: src/mlo/elements.rs and the
    Authentication element of src/mlo/handshake.rs, with what their parsers
    accept stated on the list of elements of the block. *)
From S2P Require Import Prelude Elements Security Frames Channels Rsn Advert.

Definition tid_to_link_mapping_same_set (link_mask : Z) : res bytes :=
  ext_ie 109 ([2; 0xff] ++ concat (replicate 8 (le_bytes 2 link_mask))).

Definition multi_link_basic (mld_mac : bytes) : res bytes := ext_ie 107 ([0x00; 0x00] ++ [7] ++ mld_mac).

(** [multi_link_auth] (src/mlo/handshake.rs) builds the same octets. *)
Definition multi_link_auth (mld_mac : bytes) : res bytes := ext_ie 107 ([0x00; 0x00] ++ [7] ++ mld_mac).

Definition mle_common (mld_mac : bytes) (link_id bss_change_count eml_capability mld_capability : Z) : bytes :=
  le_bytes 2 0x01b0 ++ [1 + 6 + 1 + 1 + 2 + 2] ++ mld_mac ++ [Z.land link_id 0x0f] ++
  [bss_change_count] ++ le_bytes 2 eml_capability ++ le_bytes 2 mld_capability.

Definition multi_link_ap_basic_capabilities (mld_mac : bytes)
    (link_id bss_change_count eml_capability mld_capability : Z) (link_info : bytes) : res bytes :=
  ext_ie 107 (mle_common mld_mac link_id bss_change_count eml_capability mld_capability ++ link_info).

Definition multi_link_ap_basic (mld_mac : bytes)
    (link_id bss_change_count max_simultaneous_links_minus_one : Z) (link_info : bytes) : res bytes :=
  multi_link_ap_basic_capabilities mld_mac link_id bss_change_count 0
    (Z.min max_simultaneous_links_minus_one 0x0f) link_info.

(** * Reading the Common Info *)

Definition parse_mld_mac_step (ies : bytes) (i : nat) : res (nat + option bytes) :=
  if (i + 2 <=? length ies)%nat then
    let! l := idx ies (i + 1) in
    let len := Z.to_nat l in
    if (length ies <? i + 2 + len)%nat then Val (inr None)
    else
      let! id := idx ies i in
      let! is_mle := (if (id =? 255) && (10 <=? len)%nat
                      then rmap (Z.eqb 107) (idx ies (i + 2)) else Val false) in
      if (is_mle : bool) then
        let! body := slice ies (i + 3) (i + 2 + len) in
        let! b0 := idx body 0 in
        let! b1 := idx body 1 in
        let! b2 := idx body 2 in
        let control_type := Z.land (le_val [b0; b1]) 0x07 in
        let common_len := Z.to_nat b2 in
        if (control_type =? 0) && (6 <? common_len)%nat && (2 + common_len <=? length body)%nat then
          let! mld := slice body 3 9 in Val (inr (Some mld))
        else Val (inl (i + 2 + len)%nat)
      else Val (inl (i + 2 + len)%nat)
  else Val (inr None).

Definition parse_mld_mac (ies : bytes) : res (option bytes) :=
  loop (S (length ies)) (parse_mld_mac_step ies) 0%nat.

Definition has_basic_multi_link_step (ies : bytes) (i : nat) : res (nat + bool) :=
  if (i + 2 <=? length ies)%nat then
    let! l := idx ies (i + 1) in
    let len := Z.to_nat l in
    let e := (i + 2 + len)%nat in
    if (length ies <? e)%nat then Val (inr false)
    else
      let! id := idx ies i in
      let! is_mle := (if (id =? 255) && (2 <? len)%nat
                      then rmap (Z.eqb 107) (idx ies (i + 2)) else Val false) in
      if (is_mle : bool) then
        let! b0 := idx ies (i + 3) in
        let! b1 := idx ies (i + 4) in
        if Z.land (le_val [b0; b1]) 0x07 =? 0 then Val (inr true) else Val (inl e)
      else Val (inl e)
  else Val (inr false).

Definition has_basic_multi_link_element (ies : bytes) : res bool :=
  loop (S (length ies)) (has_basic_multi_link_step ies) 0%nat.

Definition parse_mld_common_step (ies : bytes) (i : nat) :
    res (nat + option (option Z * option Z)) :=
  if (i + 2 <=? length ies)%nat then
    let! l := idx ies (i + 1) in
    let len := Z.to_nat l in
    if (length ies <? i + 2 + len)%nat then Val (inr None)
    else
      let! id := idx ies i in
      let! is_mle := (if (id =? 255) && (10 <=? len)%nat
                      then rmap (Z.eqb 107) (idx ies (i + 2)) else Val false) in
      if (is_mle : bool) then
        let! body := slice ies (i + 3) (i + 2 + len) in
        let! b0 := idx body 0 in
        let! b1 := idx body 1 in
        let control := le_val [b0; b1] in
        if negb (Z.land control 0x07 =? 0) then Val (inr None)
        else
          let! b2 := idx body 2 in
          let common_len := Z.to_nat b2 in
          if (common_len <? 7)%nat || (length body <? 2 + common_len)%nat then Val (inr None)
          else
            let pos := 9%nat in
            let pos := if has_bit control 0x0010 then S pos else pos in
            let pos := if has_bit control 0x0020 then S pos else pos in
            let pos := if has_bit control 0x0040 then S (S pos) else pos in
            let common_end := (2 + common_len)%nat in
            if has_bit control 0x0080 && (common_end <? pos + 2)%nat then Val (inr None)
            else
              let! eml := (if has_bit control 0x0080 then
                  let! x := idx body pos in let! y := idx body (pos + 1) in Val (Some (le_val [x; y]))
                else Val None) in
              let pos := if has_bit control 0x0080 then S (S pos) else pos in
              if has_bit control 0x0100 && (common_end <? pos + 2)%nat then Val (inr None)
              else
                let! mld := (if has_bit control 0x0100 then
                    let! x := idx body pos in let! y := idx body (pos + 1) in Val (Some (le_val [x; y]))
                  else Val None) in
                Val (inr (Some (eml, mld)))
      else Val (inl (i + 2 + len)%nat)
  else Val (inr None).

Definition parse_mld_common_capabilities (ies : bytes) : res (option (option Z * option Z)) :=
  loop (S (length ies)) (parse_mld_common_step ies) 0%nat.

Definition parse_mld_eml_capability (ies : bytes) : res (option Z) :=
  let? c := parse_mld_common_capabilities ies in Val c.1.
Definition parse_mld_capability (ies : bytes) : res (option Z) :=
  let? c := parse_mld_common_capabilities ies in Val c.2.

Definition basic_mle_link_info_step (ies : bytes) (i : nat) : res (nat + option nat) :=
  if (i + 2 <=? length ies)%nat then
    let! l := idx ies (i + 1) in
    let len := Z.to_nat l in
    if (length ies <? i + 2 + len)%nat then Val (inr None)
    else
      let! id := idx ies i in
      let! is_mle := (if (id =? 255) && (3 <? len)%nat
                      then rmap (Z.eqb 107) (idx ies (i + 2)) else Val false) in
      if (is_mle : bool) then
        let! data := slice ies (i + 3) (i + 2 + len) in
        let! b2 := idx data 2 in
        Val (inr (Some (length data - (2 + Z.to_nat b2))%nat))
      else Val (inl (i + 2 + len)%nat)
  else Val (inr None).

Definition basic_mle_link_info_len (ies : bytes) : res (option nat) :=
  loop (S (length ies)) (basic_mle_link_info_step ies) 0%nat.

(** * Per-STA Profiles *)

Definition sta_control (link_id : Z) (bss_param_change_count : option Z) : Z :=
  let c := Z.lor (Z.lor (Z.lor (Z.lor (Z.lor (Z.land link_id 0x0f) (Z.shiftl 1 4)) (Z.shiftl 1 5))
             (Z.shiftl 1 6)) (Z.shiftl 1 7)) (Z.shiftl 1 8) in
  match bss_param_change_count with Some _ => Z.lor c (Z.shiftl 1 11) | None => c end.

Definition per_sta_profile_body (link_id : Z) (link_mac inner : bytes) (bss_param_change_count : option Z) :
    bytes :=
  let info_len := 1 + 6 + 2 + 8 + 2 + match bss_param_change_count with Some _ => 1 | None => 0 end in
  le_bytes 2 (sta_control link_id bss_param_change_count) ++ [u8 info_len] ++ link_mac ++
  le_bytes 2 BEACON_INTERVAL_TU ++ le_bytes 8 0 ++ [0; 2] ++
  match bss_param_change_count with Some count => [count] | None => [] end ++ inner.

Definition per_sta_profile_inner (link_id : Z) (link_mac inner : bytes)
    (bss_param_change_count : option Z) : res bytes :=
  fragmented_element 0 (per_sta_profile_body link_id link_mac inner bss_param_change_count).

Definition per_sta_profile (link_id : Z) (link_mac inner : bytes) : res bytes :=
  per_sta_profile_inner link_id link_mac inner None.
Definition per_sta_profile_assoc (link_id : Z) (link_mac inner : bytes) (count : Z) : res bytes :=
  per_sta_profile_inner link_id link_mac inner (Some count).

Definition append_mld_profile_step (ies : bytes) (st : nat * bytes) : res (nat * bytes + bytes) :=
  let (i, v) := st in
  if (i + 2 <=? length ies)%nat then
    let! l := idx ies (i + 1) in
    let len := Z.to_nat l in
    if (length ies <? i + 2 + len)%nat then Val (inr v)
    else
      let! id := idx ies i in
      let! e := slice ies i (i + 2 + len) in
      Val (inl ((i + 2 + len)%nat, if negb (id =? 0) then v ++ e else v))
  else Val (inr v).

Definition append_mld_profile_ies (v ies : bytes) : res bytes :=
  loop (S (length ies)) (append_mld_profile_step ies) (0%nat, v).

Definition ap_mld_profile_inner (ssid : bytes) (channel : Z) (country : bytes) (width : Z)
    (band6 wmm : bool) (phy : PhyMode) (security : SecurityMode) (punct : Z) : res bytes :=
  let! ies := resp_ies ssid channel country width band6 wmm phy (security_tail security) punct in
  append_mld_profile_ies (ap_capability channel band6) ies.

Definition ap_mld_assoc_profile_inner (ssid : bytes) (channel : Z) (country : bytes) (width : Z)
    (band6 wmm : bool) (phy : PhyMode) (punct : Z) : res bytes :=
  let! ies := resp_ies ssid channel country width band6 wmm phy [] punct in
  append_mld_profile_ies (ap_capability channel band6 ++ le_bytes 2 0) ies.

Definition element_id_step (ies : bytes) (st : nat * (bytes * bytes)) :
    res (nat * (bytes * bytes) + (bytes * bytes)) :=
  let '(i, (base, ext)) := st in
  if (i + 2 <=? length ies)%nat then
    let! id := idx ies i in
    let! l := idx ies (i + 1) in
    let len := Z.to_nat l in
    if (length ies <? i + 2 + len)%nat then Val (inr (base, ext))
    else if id =? 255 then
      if (1 <=? len)%nat then
        let! x := idx ies (i + 2) in Val (inl ((i + 2 + len)%nat, (base, ext ++ [x])))
      else Val (inl ((i + 2 + len)%nat, (base, ext)))
    else Val (inl ((i + 2 + len)%nat, (base ++ [id], ext)))
  else Val (inr (base, ext)).

Definition element_id_sets (ies : bytes) : res (bytes * bytes) :=
  loop (S (length ies)) (element_id_step ies) (0%nat, ([], [])).

Definition not_in (reported : bytes) (id : Z) : bool := negb (existsb (Z.eqb id) reported).

Definition non_inheritance_element (reporting reported : bytes * bytes) : bytes :=
  let base := List.filter (not_in reported.1) reporting.1 in
  let ext := List.filter (not_in reported.2) reporting.2 in
  match base, ext with
  | [], [] => []
  | _, _ =>
      let body := [56] ++ [u8 (Z.of_nat (length base))] ++ base ++ [u8 (Z.of_nat (length ext))] ++ ext in
      [255; u8 (Z.of_nat (length body))] ++ body
  end.

(** * Reading the Per-STA Profiles *)

Record MldLinkProfile := {
  lp_link_id : Z;
  lp_mac : bytes;
  lp_capability : option Z;
  lp_ies : bytes
}.

(** The two-list shape of a Non-Inheritance payload. *)
Definition non_inheritance_shape (payload : bytes) : bool :=
  match get payload 0 with
  | None => false
  | Some element_count =>
      let p := (1 + Z.to_nat element_count)%nat in
      match get payload p with
      | None => false
      | Some extension_count => (p + 1 + Z.to_nat extension_count =? length payload)%nat
      end
  end.

Definition validate_mld_profile_step (ies : bytes) (pos : nat) : res (nat + bool) :=
  if (pos <? length ies)%nat then
    if (length ies - pos <? 2)%nat then Val (inr false)
    else
      let! l := idx ies (pos + 1) in
      let len := Z.to_nat l in
      let e := (pos + 2 + len)%nat in
      if (length ies <? e)%nat then Val (inr false)
      else
        let! id := idx ies pos in
        let! is_ni := (if (id =? 255) && (1 <=? len)%nat
                       then rmap (Z.eqb 56) (idx ies (pos + 2)) else Val false) in
        if (is_ni : bool) then
          let! payload := slice ies (pos + 3) e in
          if non_inheritance_shape payload then Val (inl e) else Val (inr false)
        else Val (inl e)
  else Val (inr true).

Definition validate_mld_profile_ies (ies : bytes) : res bool :=
  loop (S (length ies)) (validate_mld_profile_step ies) 0%nat.

(** One Per-STA Profile subelement: [None] rejects the whole element. *)
Definition parse_sta_profile (body_sub : bytes) : res (option MldLinkProfile) :=
  if (length body_sub <? 3)%nat then Val None
  else
    let! s0 := idx body_sub 0 in
    let! s1 := idx body_sub 1 in
    let! s2 := idx body_sub 2 in
    let control := le_val [s0; s1] in
    let sta_info_len := Z.to_nat s2 in
    if negb (has_bit control (Z.shiftl 1 4)) || negb (has_bit control (Z.shiftl 1 5)) ||
       (sta_info_len <? 7)%nat || (length body_sub <? 2 + sta_info_len)%nat then Val None
    else
      let! mac := slice body_sub 3 9 in
      let! profile := slice_from body_sub (2 + sta_info_len) in
      if (length profile <? 2)%nat then Val None
      else
        let! p0 := idx profile 0 in
        let! p1 := idx profile 1 in
        let! profile_ies := slice_from profile 2 in
        let! valid := validate_mld_profile_ies profile_ies in
        if (valid : bool) then
          Val (Some {| lp_link_id := Z.land control 0x0f; lp_mac := mac;
                       lp_capability := Some (le_val [p0; p1]); lp_ies := profile_ies |})
        else Val None.

(** The inner loop: the Link Info field from offset [p] of the element. *)
Definition link_info_step (body : bytes) (st : nat * list MldLinkProfile) :
    res (nat * list MldLinkProfile + option (list MldLinkProfile)) :=
  let (p, out) := st in
  if (p <? length body)%nat then
    if (length body <? p + 2)%nat then Val (inr None)
    else
      let! sid := idx body p in
      let! l := idx body (p + 1) in
      let slen := Z.to_nat l in
      if (length body <? p + 2 + slen)%nat then Val (inr None)
      else
        let! subelement := slice body (p + 2) (p + 2 + slen) in
        if sid =? 0 then
          let! profile := parse_sta_profile subelement in
          match profile with
          | Some lp => Val (inl ((p + 2 + slen)%nat, out ++ [lp]))
          | None => Val (inr None)
          end
        else Val (inl ((p + 2 + slen)%nat, out))
  else Val (inr (Some out)).

Definition parse_mld_link_profiles_step (ies : bytes) (i : nat) :
    res (nat + option (list MldLinkProfile)) :=
  if (i + 2 <=? length ies)%nat then
    let! l := idx ies (i + 1) in
    let len := Z.to_nat l in
    if (length ies <? i + 2 + len)%nat then Val (inr None)
    else
      let! id := idx ies i in
      let! is_mle := (if (id =? 255) && (10 <=? len)%nat
                      then rmap (Z.eqb 107) (idx ies (i + 2)) else Val false) in
      if (is_mle : bool) then
        let! body := slice ies (i + 3) (i + 2 + len) in
        let! b0 := idx body 0 in
        let! b1 := idx body 1 in
        if (Z.land (le_val [b0; b1]) 0x07 =? 0) && (3 <=? length body)%nat then
          let! b2 := idx body 2 in
          let common_len := Z.to_nat b2 in
          if (6 <? common_len)%nat && (common_len <=? length body - 2)%nat then
            rmap inr (loop (S (length body)) (link_info_step body) ((2 + common_len)%nat, []))
          else Val (inr None)
        else Val (inl (i + 2 + len)%nat)
      else Val (inl (i + 2 + len)%nat)
  else Val (inr None).

Definition parse_mld_link_profiles_checked (ies : bytes) : res (option (list MldLinkProfile)) :=
  loop (S (length ies)) (parse_mld_link_profiles_step ies) 0%nat.

Definition parse_mld_link_profiles (ies : bytes) : res (list MldLinkProfile) :=
  rmap (default []) (parse_mld_link_profiles_checked ies).

Definition link_address (lp : MldLinkProfile) : Z * bytes := (lp_link_id lp, lp_mac lp).

Definition parse_mld_link_macs (ies : bytes) : res (list (Z * bytes)) :=
  rmap (map link_address) (parse_mld_link_profiles ies).
Definition parse_mld_link_macs_checked (ies : bytes) : res (option (list (Z * bytes))) :=
  rmap (option_map (map link_address)) (parse_mld_link_profiles_checked ies).

(** * The Multi-Link element of a block *)

(** The data of a Multi-Link element, after the extension identifier. *)
Definition mle_data (t : Z * bytes) : option bytes :=
  match t.2 with
  | x :: data => if (t.1 =? 255) && (x =? 107) then Some data else None
  | [] => None
  end.

Definition control_of (data : bytes) : Z := le_val [byte_at data 0; byte_at data 1].
Definition is_basic (data : bytes) : bool := Z.land (control_of data) 0x07 =? 0.

(** The Common Info field lies within the element. *)
Definition common_info_ok (data : bytes) : bool :=
  (7 <=? Z.to_nat (byte_at data 2))%nat && (2 + Z.to_nat (byte_at data 2) <=? length data)%nat.

Definition mld_mac_of (t : Z * bytes) : option bytes :=
  match mle_data t with
  | Some data =>
      if (9 <=? length data)%nat && is_basic data && common_info_ok data then Some (sub data 3 9) else None
  | None => None
  end.

Lemma mle_at (ies : bytes) (i e n : nat) :
  (i + 2 <= length ies)%nat -> e = (i + 2 + Z.to_nat (nth (i + 1) ies 0%Z))%nat -> (e <= length ies)%nat ->
  (1 <= n)%nat ->
  (if (nth i ies 0 =? 255) && (n <=? Z.to_nat (nth (i + 1) ies 0%Z))%nat
   then rmap (Z.eqb 107) (idx ies (i + 2)) else Val false) =
  Val (match mle_data (nth i ies 0, sub ies (i + 2) e) with
       | Some data => (n <=? S (length data))%nat | None => false end).
Proof.
  intros Hi -> He Hn. set (l := Z.to_nat (nth (i + 1) ies 0)) in *. unfold mle_data. cbn [fst snd].
  destruct (Nat.leb_spec n l) as [Hl|Hl].
  - rewrite andb_true_r. rewrite idx_ok by lia. cbn [rmap rbind].
    replace (i + 2 + l)%nat with (S (i + 2 + (l - 1)))%nat by lia. unfold sub.
    rewrite (drop_nth _ (i + 2)) by lia.
    replace (S (i + 2 + (l - 1)) - (i + 2))%nat with (S (l - 1)) by lia. cbn [firstn].
    change (take (S (l - 1)) (nth (i + 2) ies 0 :: drop (S (i + 2)) ies))
      with (nth (i + 2) ies 0 :: take (l - 1) (drop (S (i + 2)) ies)).
    rewrite (Z.eqb_sym 107). destruct (nth i ies 0 =? 255), (nth (i + 2) ies 0 =? 107); cbn [andb]; try done.
    rewrite length_take, length_drop. f_equal. symmetry. apply Nat.leb_le. lia.
  - rewrite andb_false_r. destruct (sub ies (i + 2) (i + 2 + l)) as [|x data] eqn:Hs; [done|].
    destruct (_ && _); [|done]. f_equal. symmetry. apply Nat.leb_gt.
    assert (Hlen : length (sub ies (i + 2) (i + 2 + l)) = l) by (rewrite length_sub; lia).
    rewrite Hs in Hlen. simpl in Hlen. lia.
Qed.

Lemma mle_data_at (ies : bytes) (i e : nat) data :
  (i + 2 <= e)%nat -> (e <= length ies)%nat ->
  mle_data (nth i ies 0, sub ies (i + 2) e) = Some data ->
  data = sub ies (i + 3) e /\ (S (length data) = e - (i + 2))%nat.
Proof.
  intros Hi He. unfold mle_data. cbn [fst snd].
  destruct (sub ies (i + 2) e) as [|x d] eqn:Hs; [done|]. destruct (_ && _); [|done]. intros [= <-].
  assert (Hl : length (sub ies (i + 2) e) = (e - (i + 2))%nat) by (apply length_sub; lia).
  rewrite Hs in Hl. split; [|done].
  assert (Hd : drop 1 (sub ies (i + 2) e) = d) by (by rewrite Hs).
  rewrite drop_sub in Hd. by replace (i + 2 + 1)%nat with (i + 3)%nat in Hd by lia.
Qed.

(** First non-trivial answer among the elements. *)
Definition first_some {A B} (f : A -> option B) (l : list A) : option B := head (omap f l).

Lemma first_some_cons {A B} (f : A -> option B) a l :
  first_some f (a :: l) = match f a with Some b => Some b | None => first_some f l end.
Proof. unfold first_some. cbn [omap list_omap]. by destruct (f a). Qed.

Ltac mle_step i ies e H data Hm Hd Hl :=
  rewrite (mle_at ies i e) by (try reflexivity; lia); cbn [rbind];
  destruct (mle_data (nth i ies 0, sub ies (i + 2) e)) as [data|] eqn:Hm;
  [ destruct (mle_data_at ies i e data ltac:(lia) ltac:(lia) Hm) as [Hd Hl] | ].

Lemma mld_mac_of_eq t :
  mld_mac_of t =
  match mle_data t with
  | Some data =>
      if (9 <=? length data)%nat && is_basic data && common_info_ok data then Some (sub data 3 9) else None
  | None => None
  end.
Proof. done. Qed.

Lemma parse_mld_mac_spec ies :
  parse_mld_mac ies = Val (first_some mld_mac_of (elements ies)).
Proof.
  apply (walker_spec ies (fun i => i) _ (fun i => first_some mld_mac_of (elements (drop i ies))));
    [|lia]. intros i Hi. unfold parse_mld_mac_step. walk i; [leave| |leave].
  rewrite first_some_cons, (mld_mac_of_eq (nth i ies 0, sub ies (i + 2) e)).
  mle_step i ies e H0 data Hm Hd Hl; [|next].
  change (10 <=? S (length data))%nat with (9 <=? length data)%nat.
  destruct (Nat.leb_spec 9 (length data)) as [H9|H9]; cbn [andb]; [|next].
  rewrite slice_ok, <- Hd by lia. rust_steps. fold (control_of data) (is_basic data).
  destruct (is_basic data) eqn:Hb; cbn [andb]; [|next]. unfold common_info_ok.
  change (6 <? Z.to_nat (byte_at data 2))%nat with (7 <=? Z.to_nat (byte_at data 2))%nat.
  destruct ((7 <=? Z.to_nat (byte_at data 2))%nat && _); [|next]. rust_steps. leave.
Qed.

Definition is_basic_mle (t : Z * bytes) : bool :=
  match mle_data t with Some data => (2 <=? length data)%nat && is_basic data | None => false end.

Lemma is_basic_mle_eq t :
  is_basic_mle t =
  match mle_data t with Some data => (2 <=? length data)%nat && is_basic data | None => false end.
Proof. done. Qed.

Lemma has_basic_multi_link_spec ies :
  has_basic_multi_link_element ies = Val (existsb is_basic_mle (elements ies)).
Proof.
  apply (walker_spec ies (fun i => i) _ (fun i => existsb is_basic_mle (elements (drop i ies))));
    [|lia]. intros i Hi. unfold has_basic_multi_link_step. walk i; [leave| |leave].
  cbn [existsb]. rewrite (is_basic_mle_eq (nth i ies 0, sub ies (i + 2) e)).
  change (2 <? Z.to_nat (nth (i + 1) ies 0%Z))%nat with (3 <=? Z.to_nat (nth (i + 1) ies 0%Z))%nat.
  mle_step i ies e H0 data Hm Hd Hl; [|next].
  change (3 <=? S (length data))%nat with (2 <=? length data)%nat.
  destruct (Nat.leb_spec 2 (length data)) as [H2|H2]; cbn [andb orb]; [|next].
  rust_steps. unfold is_basic, control_of. rewrite Hd, !nth_sub by lia.
  replace (i + 3 + 0)%nat with (i + 3)%nat by lia. replace (i + 3 + 1)%nat with (i + 4)%nat by lia.
  destruct (_ =? 0); [leave|next].
Qed.

(** The optional 16-bit field at [pos] of a Common Info field that ends at
    [e]: [None] when it does not fit. *)
Definition caps_field (data : bytes) (present : bool) (pos e : nat) : option (option Z) :=
  if present then if (e <? pos + 2)%nat then None else Some (Some (le_val (sub data pos (pos + 2))))
  else Some None.

Definition caps_pos (control : Z) : nat :=
  (9 + (if has_bit control 0x0010 then 1 else 0) + (if has_bit control 0x0020 then 1 else 0) +
   (if has_bit control 0x0040 then 2 else 0))%nat.

Definition common_caps (data : bytes) : option (option Z * option Z) :=
  let control := control_of data in
  let e := (2 + Z.to_nat (byte_at data 2))%nat in
  if is_basic data && common_info_ok data then
    match caps_field data (has_bit control 0x0080) (caps_pos control) e,
          caps_field data (has_bit control 0x0100)
            (if has_bit control 0x0080 then caps_pos control + 2 else caps_pos control)%nat e with
    | Some eml, Some mld => Some (eml, mld)
    | _, _ => None
    end
  else None.

Definition caps_of (t : Z * bytes) : option (option (option Z * option Z)) :=
  match mle_data t with
  | Some data => if (9 <=? length data)%nat then Some (common_caps data) else None
  | None => None
  end.

Lemma caps_of_eq t :
  caps_of t =
  match mle_data t with
  | Some data => if (9 <=? length data)%nat then Some (common_caps data) else None
  | None => None
  end.
Proof. done. Qed.

Lemma le_pair (data : bytes) pos :
  (pos + 2 <= length data)%nat ->
  [byte_at data pos; byte_at data (pos + 1)] = sub data pos (pos + 2).
Proof.
  intros H. unfold sub. rewrite (drop_nth _ pos), (drop_nth _ (S pos)) by lia.
  replace (pos + 2 - pos)%nat with 2%nat by lia. by replace (pos + 1)%nat with (S pos) by lia.
Qed.

Lemma parse_mld_common_spec ies :
  parse_mld_common_capabilities ies = Val (default None (first_some caps_of (elements ies))).
Proof.
  apply (walker_spec ies (fun i => i) _ (fun i => default None (first_some caps_of (elements (drop i ies)))));
    [|lia]. intros i Hi. unfold parse_mld_common_step. walk i; [leave| |leave].
  rewrite first_some_cons, (caps_of_eq (nth i ies 0, sub ies (i + 2) e)).
  mle_step i ies e H0 data Hm Hd Hl; [|next].
  change (10 <=? S (length data))%nat with (9 <=? length data)%nat.
  destruct (Nat.leb_spec 9 (length data)) as [H9|H9]; [|next].
  rewrite slice_ok, <- Hd by lia. rust_steps. fold (control_of data). fold (is_basic data).
  unfold common_caps. destruct (is_basic data) eqn:Hb; cbn [negb andb]; [|leave].
  unfold common_info_ok. set (cl := Z.to_nat (byte_at data 2)).
  destruct (Nat.ltb_spec cl 7), (Nat.leb_spec 7 cl); try lia; cbn [orb andb default]; [leave|].
  destruct (Nat.ltb_spec (length data) (2 + cl)), (Nat.leb_spec (2 + cl) (length data)); try lia;
    cbn [default]; [leave|]. set (c := control_of data).
  set (p := if has_bit c 0x0040 then _ else _).
  assert (Hp : p = caps_pos c).
  { unfold p, caps_pos. by destruct (has_bit c 0x0010), (has_bit c 0x0020), (has_bit c 0x0040). }
  clearbody p. subst p.
  destruct (has_bit c 0x0080) eqn:H8; cbn [andb].
  - unfold caps_field. destruct (Nat.ltb_spec (2 + cl) (caps_pos c + 2)); [leave|].
    rewrite !idx_ok by lia. cbn [rbind].
    replace (S (S (caps_pos c))) with (caps_pos c + 2)%nat by lia.
    destruct (has_bit c 0x0100); cbn [andb];
      [destruct (Nat.ltb_spec (2 + cl) (caps_pos c + 2 + 2)); [leave|]|].
    + rewrite !idx_ok by lia. cbn [rbind default]. rewrite !le_pair by lia. leave.
    + cbn [rbind default]. rewrite le_pair by lia. leave.
  - unfold caps_field. destruct (has_bit c 0x0100); cbn [andb rbind];
      [destruct (Nat.ltb_spec (2 + cl) (caps_pos c + 2)); [leave|]|].
    + rewrite !idx_ok by lia. cbn [rbind default]. rewrite le_pair by lia. leave.
    + leave.
Qed.

(** * What the profile parsers accept *)

Definition ni_payload (t : Z * bytes) : option bytes :=
  match t.2 with
  | x :: payload => if (t.1 =? 255) && (x =? 56) then Some payload else None
  | [] => None
  end.
Definition ni_ok (t : Z * bytes) : bool :=
  match ni_payload t with Some payload => non_inheritance_shape payload | None => true end.

Definition no_tail (l : bytes) : bool := match stream_tail l with [] => true | _ => false end.
Definition profile_ies_ok (l : bytes) : bool := no_tail l && forallb ni_ok (elements l).

Lemma ni_at (ies : bytes) (i e : nat) :
  (i + 2 <= length ies)%nat -> e = (i + 2 + Z.to_nat (nth (i + 1) ies 0%Z))%nat -> (e <= length ies)%nat ->
  (if (nth i ies 0 =? 255) && (1 <=? Z.to_nat (nth (i + 1) ies 0%Z))%nat
   then rmap (Z.eqb 56) (idx ies (i + 2)) else Val false) =
  Val (match ni_payload (nth i ies 0, sub ies (i + 2) e) with Some _ => true | None => false end) /\
  (forall payload, ni_payload (nth i ies 0, sub ies (i + 2) e) = Some payload ->
     slice ies (i + 3) e = Val payload).
Proof.
  intros Hi -> He. set (l := Z.to_nat (nth (i + 1) ies 0)) in *. unfold ni_payload. cbn [fst snd].
  destruct (sub ies (i + 2) (i + 2 + l)) as [|x d] eqn:Hs.
  - assert (Hlen : length (sub ies (i + 2) (i + 2 + l)) = l) by (rewrite length_sub; lia).
    rewrite Hs in Hlen. simpl in Hlen. rewrite <- Hlen. by rewrite andb_false_r.
  - assert (Hlen : length (sub ies (i + 2) (i + 2 + l)) = l) by (rewrite length_sub; lia).
    rewrite Hs in Hlen. simpl in Hlen. rewrite (proj2 (Nat.leb_le 1 l)) by lia. rewrite andb_true_r.
    rewrite idx_ok by lia. cbn [rmap rbind].
    assert (Hx : nth 0 (sub ies (i + 2) (i + 2 + l)) 0 = x) by (by rewrite Hs).
    rewrite nth_sub, Nat.add_0_r in Hx by lia. rewrite Hx, (Z.eqb_sym 56).
    destruct (nth i ies 0 =? 255), (x =? 56); cbn [andb]; split; try done.
    intros payload [= <-]. rewrite slice_ok by lia. f_equal.
    assert (Hd : drop 1 (sub ies (i + 2) (i + 2 + l)) = d) by (by rewrite Hs).
    rewrite drop_sub in Hd. by replace (i + 2 + 1)%nat with (i + 3)%nat in Hd by lia.
Qed.

Lemma validate_mld_profile_spec ies : validate_mld_profile_ies ies = Val (profile_ies_ok ies).
Proof.
  apply (walker_spec ies (fun i => i) _ (fun i => profile_ies_ok (drop i ies))); [|lia].
  intros i Hi. unfold validate_mld_profile_step, profile_ies_ok, no_tail.
  destruct (Nat.ltb_spec i (length ies)) as [Hi'|Hi'].
  2:{ replace i with (length ies) by lia. destruct (elements_end ies) as [-> ->]. leave. }
  destruct (Nat.ltb_spec (length ies - i) 2).
  { rewrite (elements_at _ i), (stream_tail_at _ i), (proj2 (Nat.leb_gt (i + 2) (length ies))) by lia.
    cbn [andb]. destruct (drop_not_nil ies i) as [b [k ->]]; [done|]. leave. }
  walk i; [| |lia].
  { destruct (drop_not_nil ies i) as [b [k ->]]; [done|]. leave. }
  destruct (ni_at ies i e) as [-> Hs]; [done|done|done|]. cbn [rbind forallb].
  change (ni_ok (nth i ies 0, sub ies (i + 2) e)) with
    (match ni_payload (nth i ies 0, sub ies (i + 2) e) with
     | Some payload => non_inheritance_shape payload | None => true end).
  destruct (ni_payload (nth i ies 0, sub ies (i + 2) e)) as [payload|]; [|next].
  rewrite (Hs payload) by done. cbn [rbind]. destruct (non_inheritance_shape payload); [next|].
  leave. by rewrite andb_false_r.
Qed.

(** One profile, read off the octets of the subelement. *)
Definition sta_profile (b : bytes) : option MldLinkProfile :=
  let control := control_of b in
  let p := drop (2 + Z.to_nat (byte_at b 2)) b in
  if (3 <=? length b)%nat && has_bit control (Z.shiftl 1 4) && has_bit control (Z.shiftl 1 5) &&
     (7 <=? Z.to_nat (byte_at b 2))%nat && (2 + Z.to_nat (byte_at b 2) <=? length b)%nat &&
     (2 <=? length p)%nat && profile_ies_ok (drop 2 p)
  then Some {| lp_link_id := Z.land control 0x0f; lp_mac := sub b 3 9;
               lp_capability := Some (control_of p); lp_ies := drop 2 p |}
  else None.

Lemma parse_sta_profile_spec b : parse_sta_profile b = Val (sta_profile b).
Proof.
  unfold parse_sta_profile, sta_profile.
  destruct (Nat.ltb_spec (length b) 3), (Nat.leb_spec 3 (length b)); try lia; [done|].
  rust_steps. fold (control_of b). set (n := Z.to_nat (byte_at b 2)).
  destruct (has_bit (control_of b) (Z.shiftl 1 4)); [|done].
  destruct (has_bit (control_of b) (Z.shiftl 1 5)); [|done].
  destruct (Nat.ltb_spec n 7), (Nat.leb_spec 7 n); try lia; [done|]. cbn [negb orb andb].
  destruct (Nat.ltb_spec (length b) (2 + n)), (Nat.leb_spec (2 + n) (length b)); try lia; [done|].
  rewrite slice_ok, slice_from_ok by lia. cbn [rbind]. set (p := drop (2 + n) b).
  destruct (Nat.ltb_spec (length p) 2), (Nat.leb_spec 2 (length p)); try lia; [done|].
  rewrite !idx_ok, slice_from_ok by lia. cbn [rbind]. rewrite validate_mld_profile_spec. cbn [rbind andb].
  by destruct (profile_ies_ok (drop 2 p)).
Qed.

(** The Link Info field: every octet belongs to a complete subelement and every
    Per-STA Profile subelement is acceptable. *)
Fixpoint sta_profiles (ts : list (Z * bytes)) : option (list MldLinkProfile) :=
  match ts with
  | [] => Some []
  | t :: ts' =>
      if t.1 =? 0 then
        match sta_profile t.2, sta_profiles ts' with Some lp, Some l => Some (lp :: l) | _, _ => None end
      else sta_profiles ts'
  end.

Definition link_info (b : bytes) : option (list MldLinkProfile) :=
  if no_tail b then sta_profiles (elements b) else None.

Lemma link_info_spec body p :
  (p <= length body)%nat ->
  loop (S (length body)) (link_info_step body) (p, []) = Val (link_info (drop p body)).
Proof.
  intros Hp.
  pose (answer := fun '(i, out) => option_map (app out) (link_info (drop i body)) : option (list MldLinkProfile)).
  rewrite (walker_spec body fst _ answer (p, [])); [|clear p Hp|done].
  2:{ intros [i out] Hi. cbn [fst] in Hi. unfold link_info_step, answer, link_info, no_tail.
      walk_strict i body.
      - destruct (drop_not_nil body i) as [b [k ->]]; [done|]. leave.
      - destruct (drop_not_nil body i) as [b [k ->]]; [done|]. leave.
      - rewrite slice_ok by lia. cbn [rbind sta_profiles fst snd].
        destruct (nth i body 0 =? 0).
        + rewrite parse_sta_profile_spec. cbn [rbind].
          destruct (sta_profile (sub body (i + 2) e)) as [lp|]; [next|leave; by destruct (stream_tail _)].
          destruct (stream_tail _); [|done]. destruct (sta_profiles _); [|done]. cbn [option_map].
          by rewrite <- app_assoc.
        + next.
      - leave. cbn [sta_profiles option_map]. by rewrite app_nil_r. }
  unfold answer. f_equal. by destruct (link_info (drop p body)).
Qed.

Definition link_profiles_of (t : Z * bytes) : option (option (list MldLinkProfile)) :=
  match mle_data t with
  | Some data =>
      if (9 <=? length data)%nat && is_basic data then
        Some (if common_info_ok data then link_info (drop (2 + Z.to_nat (byte_at data 2)) data) else None)
      else None
  | None => None
  end.

Lemma link_profiles_of_eq t :
  link_profiles_of t =
  match mle_data t with
  | Some data =>
      if (9 <=? length data)%nat && is_basic data then
        Some (if common_info_ok data then link_info (drop (2 + Z.to_nat (byte_at data 2)) data) else None)
      else None
  | None => None
  end.
Proof. done. Qed.

Lemma parse_mld_link_profiles_spec ies :
  parse_mld_link_profiles_checked ies = Val (default None (first_some link_profiles_of (elements ies))).
Proof.
  apply (walker_spec ies (fun i => i) _
    (fun i => default None (first_some link_profiles_of (elements (drop i ies))))); [|lia].
  intros i Hi. unfold parse_mld_link_profiles_step. walk i; [leave| |leave].
  rewrite first_some_cons, (link_profiles_of_eq (nth i ies 0, sub ies (i + 2) e)).
  mle_step i ies e H0 data Hm Hd Hl; [|next].
  change (10 <=? S (length data))%nat with (9 <=? length data)%nat.
  destruct (Nat.leb_spec 9 (length data)) as [H9|H9]; cbn [andb]; [|next].
  rewrite slice_ok, <- Hd by lia. rust_steps. fold (control_of data). fold (is_basic data).
  rewrite (proj2 (Nat.leb_le 3 _)), andb_true_r by lia.
  destruct (is_basic data) eqn:Hb; [|next]. unfold common_info_ok.
  set (cl := Z.to_nat (byte_at data 2)). change (6 <? cl)%nat with (7 <=? cl)%nat.
  destruct (Nat.leb_spec 7 cl); cbn [andb]; [|leave].
  destruct (Nat.leb_spec cl (length data - 2)), (Nat.leb_spec (2 + cl) (length data)); try lia; [|leave].
  rewrite link_info_spec by lia. leave.
Qed.

(** * Reading back what is written *)

Definition u16_ok (z : Z) : Prop := 0 <= z < 65536.

Lemma mle_common_spec mac link_id count eml mld info :
  length mac = 6%nat ->
  let data := take 254 (mle_common mac link_id count eml mld ++ info) in
  (15 <= length data)%nat /\ control_of data = 0x01b0 /\ is_basic data = true /\
  byte_at data 2 = 13 /\ common_info_ok data = true /\ sub data 3 9 = mac /\
  common_caps data = Some (Some (u16 eml), Some (u16 mld)) /\ drop 15 data = take 239 info.
Proof.
  intros Hm data.
  assert (Hdata : data = mle_common mac link_id count eml mld ++ take 239 info).
  { subst data. rewrite take_app_ge; unfold mle_common; rewrite !length_app, Hm, !length_le_bytes; simpl; [done|lia]. }
  clearbody data. subst data.
  assert (Hcom : length (mle_common mac link_id count eml mld) = 15%nat).
  { unfold mle_common. by rewrite !length_app, Hm, !length_le_bytes. }
  assert (Hl : (15 <= length (mle_common mac link_id count eml mld ++ take 239 info))%nat)
    by (rewrite length_app; lia).
  assert (Hctl : control_of (mle_common mac link_id count eml mld ++ take 239 info) = 0x01b0) by (vm_compute; reflexivity).
  assert (Hb : is_basic (mle_common mac link_id count eml mld ++ take 239 info) = true)
    by (unfold is_basic; by rewrite Hctl).
  assert (H2 : byte_at (mle_common mac link_id count eml mld ++ take 239 info) 2 = 13) by (vm_compute; reflexivity).
  assert (Hok : common_info_ok (mle_common mac link_id count eml mld ++ take 239 info) = true).
  { unfold common_info_ok. rewrite H2. apply Nat.leb_le. change (Z.to_nat 13) with 13%nat. lia. }
  split; [done|]. split; [done|]. split; [done|]. split; [done|]. split; [done|].
  unfold common_caps. rewrite Hctl, Hb, Hok, H2. unfold caps_field, caps_pos. cbn [andb].
  change (has_bit 0x01b0 0x0010) with true. change (has_bit 0x01b0 0x0020) with true.
  change (has_bit 0x01b0 0x0040) with false. change (has_bit 0x01b0 0x0080) with true.
  change (has_bit 0x01b0 0x0100) with true. change (Z.to_nat 13) with 13%nat. cbn [Nat.ltb Nat.leb Nat.add].
  assert (Hdrop : drop 15 (mle_common mac link_id count eml mld ++ take 239 info) = take 239 info)
    by (rewrite <- Hcom; apply drop_app_length).
  unfold mle_common in *. rewrite <- !app_assoc in *.
  assert (H11 : forall z, le_val (le_bytes 2 z) = u16 z) by (intros; apply le_val_bytes).
  split; [by peel|]. split; [|exact Hdrop].
  assert (Hsubs : forall rest,
    sub (le_bytes 2 0x01b0 ++ [1 + 6 + 1 + 1 + 2 + 2] ++ mac ++ [Z.land link_id 0x0f] ++ [count] ++ le_bytes 2 eml ++
         le_bytes 2 mld ++ rest) 11 13 = le_bytes 2 eml /\
    sub (le_bytes 2 0x01b0 ++ [1 + 6 + 1 + 1 + 2 + 2] ++ mac ++ [Z.land link_id 0x0f] ++ [count] ++ le_bytes 2 eml ++
         le_bytes 2 mld ++ rest) 13 15 = le_bytes 2 mld) by (intros; split; by peel).
  destruct (Hsubs (take 239 info)) as [E1 E2]. cbn [app] in *. rewrite E1, E2, !H11. done.
Qed.

Lemma elements_ie id b more :
  (length b <= 255)%nat -> elements (ie id b ++ more) = (id, b) :: elements more.
Proof.
  intros Hb. unfold ie, elements. cbn [app]. rewrite split_elements_cons, length_app. unfold u8.
  rewrite Z.mod_small, Nat2Z.id, (proj2 (Nat.ltb_ge _ _)) by lia. rewrite drop_app_length, take_app_length.
  by destruct (split_elements more).
Qed.

(** The first element of an extension element of any length. *)
Lemma ext_ie_head x data more :
  exists out rest, ext_ie x data = Val out /\
    elements (out ++ more) = (255, x :: take 254 data) :: rest.
Proof.
  destruct (fragmented_element_spec 255 (x :: data)) as (ts & E & head & chunks & -> & Hh & _ & Hs).
  eexists _, _. split; [exact E|]. rewrite encode_elements_cons, <- app_assoc. cbn [fst snd].
  rewrite elements_ie; [rewrite Hh; reflexivity|]. by inversion Hs.
Qed.

Lemma mle_data_ext x data : mle_data (255, x :: data) = if x =? 107 then Some data else None.
Proof. done. Qed.

(** The Basic Multi-Link element the access point writes, whatever the
    length of its Link Info (fragmented or not) and whatever follows it, is read
    back by the parsers of the other end: it is recognised as a Basic
    Multi-Link element, its MLD address is the AP's and its EML and MLD
    Capabilities are the ones advertised. *)
Lemma ap_mle_readable mac link_id count eml mld info more :
  length mac = 6%nat -> u16_ok eml -> u16_ok mld ->
  exists out, multi_link_ap_basic_capabilities mac link_id count eml mld info = Val out /\
    has_basic_multi_link_element (out ++ more) = Val true /\
    parse_mld_mac (out ++ more) = Val (Some mac) /\
    parse_mld_common_capabilities (out ++ more) = Val (Some (Some eml, Some mld)).
Proof.
  intros Hm He Hd. unfold multi_link_ap_basic_capabilities.
  destruct (ext_ie_head 107 (mle_common mac link_id count eml mld ++ info) more) as (out & rest & E & Hel).
  exists out. split; [done|].
  destruct (mle_common_spec mac link_id count eml mld info Hm) as (Hl & _ & Hb & _ & Hok & Hs & Hcaps & _).
  set (data := take 254 _) in *. clearbody data.
  rewrite has_basic_multi_link_spec, parse_mld_mac_spec, parse_mld_common_spec, Hel.
  cbn [existsb]. rewrite !first_some_cons, is_basic_mle_eq, mld_mac_of_eq, caps_of_eq, !mle_data_ext.
  change (107 =? 107) with true. cbn iota. rewrite Hb, Hok, (proj2 (Nat.leb_le 2 _)), (proj2 (Nat.leb_le 9 _)) by lia.
  cbn [andb orb]. rewrite Hs, Hcaps. unfold u16, u16_ok in *. by rewrite !Z.mod_small by lia.
Qed.

(** ** Per-STA Profiles *)

(** A link to describe: its identifier, its address, the body of its profile
    and, in an association response, its BSS Parameters Change Count. *)
Definition LinkProfile : Type := Z * bytes * bytes * option Z.

(** The subelement the code writes for a link: in a beacon, or (with a count) in
    an association response. *)
Definition write_profile (p : LinkProfile) : res bytes :=
  let '(id, mac, inner, count) := p in
  match count with
  | Some c => per_sta_profile_assoc id mac inner c
  | None => per_sta_profile id mac inner
  end.

(** The BSS Parameters Change Count of a subelement, for a reader that follows the
    standard: bit 11 of the STA Control announces it and it ends the STA Info. *)
Definition change_count (subelement : bytes) : option Z :=
  let body := drop 2 subelement in
  if has_bit (control_of body) (Z.shiftl 1 11) then Some (byte_at body (1 + Z.to_nat (byte_at body 2))) else None.

Definition link_profile_ok (p : LinkProfile) : Prop :=
  let '(id, mac, inner, count) := p in
  0 <= id < 16 /\ length mac = 6%nat /\ (2 <= length inner)%nat /\
  profile_ies_ok (drop 2 inner) = true /\ (length inner <= 220)%nat.

Definition profile_read (p : LinkProfile) : MldLinkProfile :=
  let '(id, mac, inner, count) := p in
  {| lp_link_id := id; lp_mac := mac; lp_capability := Some (control_of inner); lp_ies := drop 2 inner |}.

Definition profile_body (p : LinkProfile) : bytes :=
  let '(id, mac, inner, count) := p in per_sta_profile_body id mac inner count.

Lemma sta_control_written id count :
  0 <= id < 16 ->
  let c := sta_control id count in
  0 <= c < 65536 /\ Z.land c 0x0f = id /\ has_bit c (Z.shiftl 1 4) = true /\ has_bit c (Z.shiftl 1 5) = true /\
  has_bit c (Z.shiftl 1 11) = bool_decide (is_Some count).
Proof.
  intros Hid c.
  assert (Hall : forallb (fun i => forallb (fun o : option Z => let c := sta_control i o in
      (0 <=? c) && (c <? 65536) && (Z.land c 0x0f =? i) && has_bit c (Z.shiftl 1 4) && has_bit c (Z.shiftl 1 5) &&
      Bool.eqb (has_bit c (Z.shiftl 1 11)) (bool_decide (is_Some o))) [None; Some 0]) (seqZ 0 16) = true)
    by (vm_compute; reflexivity).
  rewrite forallb_forall in Hall. specialize (Hall id ltac:(apply list_elem_of_In, elem_of_seqZ; lia)).
  rewrite forallb_forall in Hall.
  assert (Hc : exists o, In o [None; Some 0] /\ c = sta_control id o /\
      bool_decide (is_Some o) = bool_decide (is_Some count)).
  { subst c. destruct count as [x|]; [exists (Some 0)|exists None]; simpl; eauto. }
  destruct Hc as (o & Ho & -> & <-). specialize (Hall o Ho). cbv zeta in Hall.
  rewrite !andb_true_iff, Z.eqb_eq, Z.leb_le, Z.ltb_lt, Bool.eqb_true_iff in Hall. tauto.
Qed.

(** The fields of the body of a subelement, at the offsets a reader expects. *)
Lemma profile_body_fields p : link_profile_ok p ->
  let '(id, mac, inner, count) := p in
  let n := (2 + Z.to_nat (byte_at (profile_body p) 2))%nat in
  control_of (profile_body p) = sta_control id count /\ sub (profile_body p) 3 9 = mac /\
  n = (21 + match count with Some _ => 1 | None => 0 end)%nat /\ drop n (profile_body p) = inner /\
  length (profile_body p) = (n + length inner)%nat /\
  forall c, count = Some c -> byte_at (profile_body p) (n - 1)%nat = c.
Proof.
  destruct p as [[[id mac] inner] count]. intros (Hid & Hm & Hi & Hok & Hs).
  destruct (sta_control_written id count Hid) as (Hc & _).
  unfold profile_body, per_sta_profile_body. set (ctl := sta_control id count) in *. clearbody ctl.
  set (mid := match count with Some c => [c] | None => [] end).
  set (k := match count with Some _ => 1%nat | None => 0%nat end).
  replace (u8 (1 + 6 + 2 + 8 + 2 + match count with Some _ => 1 | None => 0 end)) with (Z.of_nat (19 + k))
    by (by destruct count).
  assert (Hk : length mid = k) by (by destruct count).
  set (head := le_bytes 2 ctl ++ [Z.of_nat (19 + k)] ++ mac ++ le_bytes 2 BEACON_INTERVAL_TU ++ le_bytes 8 0 ++ [0; 2]).
  replace (le_bytes 2 ctl ++ _) with (head ++ mid ++ inner) by (unfold head; by rewrite <- !app_assoc).
  assert (Hh : length head = 21%nat) by (unfold head; by rewrite !length_app, Hm, !length_le_bytes).
  assert (H2 : byte_at (head ++ mid ++ inner) 2 = Z.of_nat (19 + k)) by reflexivity.
  rewrite H2, Nat2Z.id. replace (2 + (19 + k))%nat with (21 + k)%nat by lia.
  split; [|split; [|split; [done|split; [|split]]]].
  - unfold control_of. pose proof (le_pair (head ++ mid ++ inner) 0) as Hp. cbn [Nat.add] in Hp.
    rewrite Hp by (rewrite length_app; lia). clear Hp.
    replace (sub (head ++ mid ++ inner) 0 2) with (le_bytes 2 ctl) by (unfold head; by rewrite <- !app_assoc; peel).
    by apply le_bytes_small.
  - unfold head. rewrite <- !app_assoc. by peel.
  - rewrite app_assoc, <- Hk, <- Hh, <- length_app. apply drop_app_length.
  - rewrite !length_app. lia.
  - intros c ->. unfold k, mid. rewrite app_nth2, Hh by lia. done.
Qed.

Lemma sta_profile_written p : link_profile_ok p -> sta_profile (profile_body p) = Some (profile_read p).
Proof.
  intros Hp. pose proof (profile_body_fields p Hp) as Hf. destruct p as [[[id mac] inner] count].
  destruct Hp as (Hid & Hm & Hi & Hok & Hs). cbv zeta in Hf. destruct Hf as (Hc & Hmac & Hn & Hd & Hl & _).
  destruct (sta_control_written id count Hid) as (_ & Hland & H4 & H5 & _).
  unfold sta_profile, profile_read. rewrite Hc, Hmac, Hd, H4, H5, Hland, Hok, !(proj2 (Nat.leb_le _ _)) by lia. done.
Qed.

Lemma profile_body_short p : link_profile_ok p -> (length (profile_body p) <= 255)%nat.
Proof.
  intros Hp. pose proof (profile_body_fields p Hp) as Hf. destruct p as [[[id mac] inner] count].
  destruct Hp as (_ & _ & _ & _ & Hs), Hf as (_ & _ & Hn & _ & -> & _). rewrite Hn. destruct count; lia.
Qed.

Lemma profile_written p : link_profile_ok p ->
  write_profile p = Val (ie 0 (profile_body p)) /\ change_count (ie 0 (profile_body p)) = p.2.
Proof.
  intros Hp. split.
  - transitivity (fragmented_element 0 (profile_body p)); [by destruct p as [[[id mac] inner] [c|]]|].
    pose proof (profile_body_short p Hp). unfold fragmented_element. by rewrite (proj2 (Nat.leb_le _ _)) by done.
  - pose proof (profile_body_fields p Hp) as Hf. destruct p as [[[id mac] inner] count].
    destruct Hp as (Hid & _), Hf as (Hc & _ & Hn & _ & _ & Hcount). cbn [snd].
    destruct (sta_control_written id count Hid) as (_ & _ & _ & _ & H11).
    unfold change_count. change (drop 2 (ie 0 ?b)) with b. rewrite Hc, H11.
    destruct count as [c|]; [|done]. rewrite bool_decide_eq_true_2 by eauto. cbv zeta. f_equal.
    etransitivity; [|exact (Hcount c eq_refl)]. done.
Qed.

Lemma profiles_written ps : Forall link_profile_ok ps ->
  rmapM write_profile ps = Val (map (fun p => ie 0 (profile_body p)) ps) /\
  map change_count (map (fun p => ie 0 (profile_body p)) ps) = map snd ps.
Proof.
  induction 1 as [|p ps Hp _ [IH1 IH2]]; [done|]. destruct (profile_written p Hp) as [H1 H2].
  cbn [rmapM map]. rewrite H1, IH1, H2, IH2. done.
Qed.

Lemma elements_concat_ie ps :
  Forall link_profile_ok ps ->
  split_elements (concat (map (fun p => ie 0 (profile_body p)) ps)) = (map (fun p => (0, profile_body p)) ps, []).
Proof.
  intros H. rewrite <- (app_nil_r (concat _)).
  replace (concat (map (fun p => ie 0 (profile_body p)) ps)) with
    (encode_elements (map (fun p => (0, profile_body p)) ps)) by (unfold encode_elements; by rewrite map_map).
  apply split_encode; [|done]. apply Forall_map. eapply Forall_impl; [exact H|].
  intros p Hp. by apply profile_body_short.
Qed.

Lemma link_info_written ps :
  Forall link_profile_ok ps ->
  link_info (concat (map (fun p => ie 0 (profile_body p)) ps)) = Some (map profile_read ps).
Proof.
  intros H. unfold link_info, no_tail, elements, stream_tail. rewrite elements_concat_ie by done. cbn [fst snd].
  induction H as [|p ps Hp _ IH]; [done|]. cbn [map sta_profiles fst snd Z.eqb].
  by rewrite sta_profile_written, IH by done.
Qed.

(** C24: Per-STA Profiles survive the round trip: for any list of links, with the
    profiles of a beacon or of an association response, the subelements that
    per_sta_profile and per_sta_profile_assoc write carry the BSS Parameters
    Change Count exactly when it is given, and when together they fit one
    Multi-Link element (at most 239 octets) the element that carries them is
    accepted by the strict parser, which returns exactly those links:
    identifier, address, capability field and element stream. *)
Theorem link_profiles_roundtrip mac link_id count eml mld ps more :
  length mac = 6%nat -> Forall link_profile_ok ps ->
  exists infos, rmapM write_profile ps = Val infos /\ map change_count infos = map snd ps /\
    ((length (concat infos) <= 239)%nat ->
     exists out, multi_link_ap_basic_capabilities mac link_id count eml mld (concat infos) = Val out /\
       parse_mld_link_profiles_checked (out ++ more) = Val (Some (map profile_read ps))).
Proof.
  intros Hm Hps. destruct (profiles_written ps Hps) as [Hw Hc].
  eexists. split; [exact Hw|]. split; [exact Hc|]. intros Hlen.
  set (info := concat _) in *. unfold multi_link_ap_basic_capabilities.
  destruct (ext_ie_head 107 (mle_common mac link_id count eml mld ++ info) more) as (out & rest & E & Hel).
  exists out. split; [done|].
  destruct (mle_common_spec mac link_id count eml mld info Hm) as (Hl & _ & Hb & H2 & Hok & _ & _ & Hdrop).
  set (data := take 254 _) in *. clearbody data.
  rewrite parse_mld_link_profiles_spec, Hel, first_some_cons, link_profiles_of_eq, mle_data_ext.
  change (107 =? 107) with true. cbn iota.
  rewrite Hb, Hok, H2, (proj2 (Nat.leb_le 9 _)) by lia. cbn [andb default].
  change (2 + Z.to_nat 13)%nat with 15%nat. rewrite Hdrop, firstn_all2 by lia.
  unfold info. by rewrite link_info_written.
Qed.

Lemma link_profiles_roundtrip_witness :
  let ps : list LinkProfile :=
    [(2, [2; 0; 0; 0; 0; 9], [0x31; 0x10; 1; 1; 0x8c], Some 7); (3, [2; 0; 0; 0; 0; 8], [0x31; 0x10], None)] in
  exists infos, rmapM write_profile ps = Val infos /\ map change_count infos = [Some 7; None] /\
    exists out, multi_link_ap_basic_capabilities [2; 0; 0; 0; 0; 1] 1 7 0 1 (concat infos) = Val out /\
      parse_mld_link_profiles_checked (out ++ []) = Val (Some (map profile_read ps)).
Proof.
  intros ps.
  destruct (link_profiles_roundtrip [2; 0; 0; 0; 0; 1] 1 7 0 1 ps []) as (infos & Hi & Hc & Hr); [reflexivity| |].
  - repeat constructor; cbn; lia.
  - exists infos. split; [exact Hi|]. split; [exact Hc|]. apply Hr.
    injection Hi as <-. vm_compute. repeat constructor.
Defined.

(** An element that needs fragmentation is not: the parser reads only the first
    fragment and takes the cut-off Link Info for a malformed one, so an
    association request for two partner links with full profiles is refused. *)
Lemma fragmented_mle_refused :
  let p id := (id, [2; 0; 0; 0; 0; id], [0x31; 0x10; 221; 120] ++ replicate 120 0, Some 0) : LinkProfile in
  let info := concat (map (fun q => ie 0 (profile_body q)) [p 1; p 2]) in
  link_info info = Some [profile_read (p 1); profile_read (p 2)] /\
  (let! out := multi_link_ap_basic_capabilities [2; 0; 0; 0; 0; 9] 0 0 0 1 info in
   parse_mld_link_profiles_checked out) = Val None.
Proof. split; vm_compute; reflexivity. Qed.

(** * Building a partner link's profile *)

Definition not_ssid (t : Z * bytes) : bool := negb (t.1 =? 0).

Lemma ie_at (ies : bytes) (i : nat) :
  wf_bytes ies -> let e := (i + 2 + Z.to_nat (nth (i + 1) ies 0%Z))%nat in
  (e <= length ies)%nat -> sub ies i e = ie (nth i ies 0) (sub ies (i + 2) e).
Proof.
  intros Hw e He. unfold ie. rewrite length_sub by lia. subst e.
  set (l := Z.to_nat (nth (i + 1) ies 0)) in *. unfold sub.
  rewrite (drop_nth ies i), (drop_nth ies (S i)) by lia.
  replace (i + 2 + l - i)%nat with (S (S l)) by lia. cbn [firstn].
  replace (i + 2 + l - (i + 2))%nat with l by lia.
  replace (S (S i)) with (i + 2)%nat by lia. replace (S i) with (i + 1)%nat by lia.
  repeat f_equal. pose proof (wf_bytes_nth ies (i + 1) Hw) as Hb.
  unfold l. rewrite Z2Nat.id by (unfold is_byte in Hb; lia). symmetry. by apply u8_small.
Qed.

Lemma append_mld_profile_spec v ies :
  wf_bytes ies ->
  append_mld_profile_ies v ies = Val (v ++ encode_elements (List.filter not_ssid (elements ies))).
Proof.
  intros Hw. rewrite <- (drop_0 ies) at 2.
  apply (walker_spec ies fst _ (fun '(i, v) =>
    v ++ encode_elements (List.filter not_ssid (elements (drop i ies))))); [|simpl; lia].
  intros [i u] Hi. cbn [fst] in Hi. unfold append_mld_profile_step. walk i.
  - leave. by rewrite app_nil_r.
  - rewrite slice_ok by lia. cbn [rbind List.filter].
    change (not_ssid (nth i ies 0, sub ies (i + 2) e)) with (negb (nth i ies 0 =? 0)).
    next. destruct (negb (nth i ies 0 =? 0)); [|done].
    rewrite encode_elements_cons, <- app_assoc. cbn [fst snd]. subst e. by rewrite ie_at.
  - leave. by rewrite app_nil_r.
Qed.

Definition base_id (t : Z * bytes) : option Z := if t.1 =? 255 then None else Some t.1.
Definition extension_id (t : Z * bytes) : option Z :=
  if t.1 =? 255 then head t.2 else None.

Lemma element_id_sets_spec ies :
  element_id_sets ies = Val (omap base_id (elements ies), omap extension_id (elements ies)).
Proof.
  change (Val (omap base_id (elements ies), omap extension_id (elements ies)))
    with (Val ([] ++ omap base_id (elements (drop 0 ies)), [] ++ omap extension_id (elements (drop 0 ies)))).
  apply (walker_spec ies fst _ (fun '(i, (b, x)) =>
    (b ++ omap base_id (elements (drop i ies)), x ++ omap extension_id (elements (drop i ies)))) (0%nat, ([], [])));
    [|simpl; lia]. intros [i [b x]] Hi. cbn [fst] in Hi. unfold element_id_step. walk i.
  - leave. by rewrite !app_nil_r.
  - cbn [omap list_omap].
    change (base_id (nth i ies 0, sub ies (i + 2) e)) with
      (if nth i ies 0 =? 255 then None else Some (nth i ies 0)).
    change (extension_id (nth i ies 0, sub ies (i + 2) e)) with
      (if nth i ies 0 =? 255 then head (sub ies (i + 2) e) else None).
    destruct (nth i ies 0 =? 255); [|next; by rewrite <- app_assoc].
    destruct (Nat.leb_spec 1 (Z.to_nat (nth (i + 1) ies 0%Z))) as [Hl|Hl].
    + rewrite idx_ok by lia. cbn [rbind]. next.
      assert (Hh : head (sub ies (i + 2) e) = Some (nth (i + 2) ies 0)).
      { unfold sub. rewrite (drop_nth ies (i + 2)) by lia.
        by replace (e - (i + 2))%nat with (S (Z.to_nat (nth (i + 1) ies 0%Z) - 1)) by lia. }
      rewrite Hh. by rewrite <- app_assoc.
    + next. replace (sub ies (i + 2) e) with (@nil Z); [done|].
      unfold sub. by replace (e - (i + 2))%nat with O by lia.
  - leave. by rewrite !app_nil_r.
Qed.

Lemma security_tail_elements mode :
  exists rs, security_tail mode = encode_elements rs /\ Forall short_element rs /\ Forall element_wf rs.
Proof.
  exists (elements (security_tail mode)). split; [|split].
  - by destruct mode; vm_compute.
  - unfold short_element. destruct mode; vm_compute; repeat constructor.
  - unfold element_wf, wf_bytes, is_byte.
    destruct mode; vm_compute; repeat (constructor || split || discriminate).
Qed.

Definition bss_args_ok (ssid : bytes) (channel : Z) (country : bytes) : Prop :=
  wf_bytes ssid /\ (length ssid <= 255)%nat /\ is_byte channel /\ wf_bytes country.

(** A beacon's or association response's profile for a link: the fixed fields
    and the elements of that link's own response, the SSID left out. *)
Lemma ap_mld_profile_spec ssid channel country width band6 wmm phy mode punct :
  bss_args_ok ssid channel country ->
  exists rs, security_tail mode = encode_elements rs /\ Forall short_element rs /\
    ap_mld_profile_inner ssid channel country width band6 wmm phy mode punct =
    Val (ap_capability channel band6 ++ encode_elements (List.filter not_ssid
           (bss_elements ssid channel country width band6 wmm phy rs [] punct))).
Proof.
  intros (Hw & Hl & Hc & Hy). destruct (security_tail_elements mode) as (rs & E & Hs & Hrw).
  exists rs. split; [done|]. split; [done|]. unfold ap_mld_profile_inner.
  rewrite E, resp_ies_elements. cbn [rbind].
  rewrite append_mld_profile_spec, elements_encode; [done| |].
  - by apply bss_elements_short.
  - apply wf_encode. by apply bss_elements_wf.
Qed.

Lemma ap_mld_assoc_profile_spec ssid channel country width band6 wmm phy punct :
  bss_args_ok ssid channel country ->
  ap_mld_assoc_profile_inner ssid channel country width band6 wmm phy punct =
  Val ((ap_capability channel band6 ++ le_bytes 2 0) ++ encode_elements (List.filter not_ssid
         (bss_elements ssid channel country width band6 wmm phy [] [] punct))).
Proof.
  intros (Hw & Hl & Hc & Hy). unfold ap_mld_assoc_profile_inner.
  change (resp_ies ssid channel country width band6 wmm phy [] punct) with
    (resp_ies ssid channel country width band6 wmm phy (encode_elements []) punct).
  rewrite resp_ies_elements. cbn [rbind].
  rewrite append_mld_profile_spec, elements_encode; [done| |].
  - by apply bss_elements_short.
  - apply wf_encode. by apply bss_elements_wf.
Qed.

Lemma per_sta_profile_total link_id link_mac inner o :
  exists out, per_sta_profile_inner link_id link_mac inner o = Val out.
Proof.
  unfold per_sta_profile_inner.
  destruct (fragmented_element_spec 0 (per_sta_profile_body link_id link_mac inner o)) as (ts & E & _). eauto.
Qed.

Lemma ext_ie_total x data : exists out, ext_ie x data = Val out.
Proof. destruct (ext_ie_head x data []) as (out & _ & E & _). eauto. Qed.

(** Every piece of a multi-link frame is a list of complete elements of octets. *)
Definition elements_ok (ts : list (Z * bytes)) : Prop := Forall short_element ts /\ Forall element_wf ts.

Lemma elements_ok_app ts us : elements_ok ts -> elements_ok us -> elements_ok (ts ++ us).
Proof. intros [H1 H2] [H3 H4]. split; by apply Forall_app. Qed.

Lemma wf_concat_inv (ls : list bytes) : wf_bytes (concat ls) -> Forall wf_bytes ls.
Proof.
  induction ls as [|l ls IH]; [done|]. cbn [concat]. intros [Hl Hls]%wf_bytes_app_iff.
  constructor; auto.
Qed.

Lemma fragmented_ok id b ts : is_byte id -> wf_bytes b -> fragmented_as id b ts -> elements_ok ts.
Proof.
  intros Hid Hb (hd & chunks & -> & _ & <- & Hs). split; [done|].
  apply wf_bytes_app_iff in Hb as [Hh Hc%wf_concat_inv]. constructor; [done|].
  apply Forall_map. eapply Forall_impl; [exact Hc|]. intros c Hcw. split; [by apply (bool_decide_unpack _)|done].
Qed.

Lemma ext_ie_ok x data :
  is_byte x -> wf_bytes data ->
  exists b us, ext_ie x data = Val (encode_elements ((255, x :: take 254 data) :: us)) /\
    elements_ok ((255, x :: take 254 data) :: us) /\ b = take 254 data.
Proof.
  intros Hx Hd. destruct (fragmented_element_spec 255 (x :: data)) as (ts & E & Hts).
  assert (Hok : elements_ok ts).
  { eapply fragmented_ok; [|by apply wf_bytes_cons|exact Hts]. by apply (bool_decide_unpack _). }
  destruct Hts as (hd & chunks & -> & Hh & _ & Hs). rewrite Hh in *.
  exists (take 254 data), (map fragment chunks). split; [exact E|]. split; [exact Hok|done].
Qed.

Lemma per_sta_profile_ok link_id link_mac inner o :
  wf_bytes link_mac -> wf_bytes inner -> (forall c, o = Some c -> is_byte c) ->
  exists out, per_sta_profile_inner link_id link_mac inner o = Val out /\ wf_bytes out.
Proof.
  intros Hm Hi Ho. unfold per_sta_profile_inner.
  destruct (fragmented_element_spec 0 (per_sta_profile_body link_id link_mac inner o)) as (ts & E & Hts).
  exists (encode_elements ts). split; [done|]. apply wf_encode. eapply fragmented_ok; [| |exact Hts].
  - by apply (bool_decide_unpack _).
  - unfold per_sta_profile_body. octets; try done.
    destruct o; octets. apply wf_bytes_cons; [by apply Ho|octets].
Qed.
