(* ===== verification/Eapol.v ===== *)
(** EAPOL-Key messages: src/auth/eapol.rs (framing and the four-way handshake
    messages) and src/group_keys/handshake.rs (the group-key messages), with
    the MIC check the authenticator and the supplicant share. *)
From S2P Require Import Prelude Crypto Security Elements Frames Kde.

(** * Framing *)

(** The release profile has no [debug_assert], so [key_rsc] is unconstrained. *)
Definition build_eapol_key_body_with_rsc (ki : KeyInfo) (key_length key_replay_counter : Z)
    (key_nonce : bytes) (key_rsc : Z) (key_mic key_data : bytes) : bytes :=
  [0x02] ++ be_bytes 2 (key_info_to_u16 ki) ++ be_bytes 2 key_length
  ++ be_bytes 8 key_replay_counter ++ key_nonce ++ replicate 16 0 ++ le_bytes 8 key_rsc
  ++ replicate 8 0 ++ key_mic ++ be_bytes 2 (u16 (Z.of_nat (length key_data))) ++ key_data.

Definition build_eapol_key_body (ki : KeyInfo) (key_length key_replay_counter : Z)
    (key_nonce key_mic key_data : bytes) : bytes :=
  build_eapol_key_body_with_rsc ki key_length key_replay_counter key_nonce 0 key_mic key_data.

Definition eapol_wrap (body : bytes) : bytes :=
  [0x02; 0x03] ++ be_bytes 2 (u16 (Z.of_nat (length body))) ++ body.

Definition eapol_data_header (bssid sta : bytes) (sc : Z) : bytes :=
  dot11_header TYPE_DATA 0 FC_FROMDS sta bssid bssid sc ++ llc_snap ETHERTYPE_EAPOL.

Definition eapol_data_header_tods (bssid sta : bytes) (sc : Z) : bytes :=
  dot11_header TYPE_DATA 0 FC_TODS bssid sta bssid sc ++ llc_snap ETHERTYPE_EAPOL.

(** [KeyInfo { .., ..Default::default() }] *)
Definition key_info (encrypted secure has_mic ack install pairwise : bool) (version : Z) : KeyInfo :=
  {| ki_encrypted_key_data := encrypted; ki_secure := secure; ki_has_key_mic := has_mic;
     ki_key_ack := ack; ki_install := install; ki_key_type := pairwise;
     ki_descriptor_version := version |}.

Definition ki_m1 (m : KeyMic) : KeyInfo := key_info false false false true false true (mic_version m).
Definition ki_m2 (m : KeyMic) : KeyInfo := key_info false false true false false true (mic_version m).
Definition ki_m3 (m : KeyMic) : KeyInfo := key_info true true true true true true (mic_version m).
Definition ki_m4 (m : KeyMic) : KeyInfo := key_info false true true false false true (mic_version m).
Definition ki_group1 (m : KeyMic) : KeyInfo := key_info true true true true false false (mic_version m).
Definition ki_group2 (m : KeyMic) : KeyInfo := key_info false true true false false false (mic_version m).

(** A management group key a message carries: key id, packet number, key. *)
Abbreviation mgmt_key := (option (Z * bytes * bytes)).

(** One link: its id, its address and the RSNE it advertises. *)
Abbreviation mld_link := (Z * bytes * bytes)%type.

Section Messages.
Context {P : Primitives}.

(** The sequence every authenticated builder ends with: a body with a zero
    MIC, the MIC over its EAPOL frame, the body again. *)
Definition sign_body (mic : KeyMic) (kck : bytes) (body : bytes -> bytes) : res bytes :=
  let body0 := body (replicate 16 0) in
  let! m := mic_compute mic kck (eapol_wrap body0) in
  Val (body m).

Definition build_eapol_m1_with_key_data (bssid sta anonce : bytes) (replay_counter sc : Z)
    (mic : KeyMic) (key_length : Z) (key_data : bytes) : bytes :=
  eapol_data_header bssid sta sc
  ++ eapol_wrap (build_eapol_key_body (ki_m1 mic) key_length replay_counter anonce
                   (replicate 16 0) key_data).

Definition build_eapol_m1_for_key_length (bssid sta anonce : bytes) (replay_counter sc : Z)
    (mic : KeyMic) (key_length : Z) : bytes :=
  build_eapol_m1_with_key_data bssid sta anonce replay_counter sc mic key_length [].

Definition build_eapol_m1 (bssid sta anonce : bytes) (replay_counter sc : Z) (mic : KeyMic) : bytes :=
  build_eapol_m1_for_key_length bssid sta anonce replay_counter sc mic 16.

Definition build_eapol_m1_mld (bssid sta anonce : bytes) (replay_counter sc : Z) (mic : KeyMic)
    (ap_mld_mac : bytes) : bytes :=
  build_eapol_m1_with_key_data bssid sta anonce replay_counter sc mic 16 (mac_addr_kde ap_mld_mac).

Definition build_eapol_m2 (bssid sta snonce kck supp_rsn : bytes) (replay_counter sc : Z)
    (mic : KeyMic) (oci : option (Z * Z)) : res bytes :=
  let key_data := supp_rsn ++ match oci with Some (oc, ch) => oci_kde oc ch | None => [] end in
  let! body := sign_body mic kck (fun m =>
    build_eapol_key_body (ki_m2 mic) 0 replay_counter snonce m key_data) in
  Val (eapol_data_header_tods bssid sta sc ++ eapol_wrap body).

Definition build_eapol_m4_mld (bssid sta kck : bytes) (replay_counter sc : Z) (mic : KeyMic)
    (mld_mac : option bytes) : res bytes :=
  let key_data := match mld_mac with Some mld => mac_addr_kde mld | None => [] end in
  let! body := sign_body mic kck (fun m =>
    build_eapol_key_body (ki_m4 mic) 0 replay_counter (replicate 32 0) m key_data) in
  Val (eapol_data_header_tods bssid sta sc ++ eapol_wrap body).

Definition build_eapol_m4 (bssid sta kck : bytes) (replay_counter sc : Z) (mic : KeyMic) : res bytes :=
  build_eapol_m4_mld bssid sta kck replay_counter sc mic None.

Definition opt_kde (k : mgmt_key) (enc : Z -> bytes -> bytes -> bytes) : bytes :=
  match k with Some (key_id, ipn, key) => enc key_id ipn key | None => [] end.

Definition m3_plain (ap_rsn : bytes) (gtk_key_id : Z) (gtk : bytes) (igtk bigtk : mgmt_key)
    (oci : option (Z * Z)) : bytes :=
  ap_rsn ++ gtk_kde gtk_key_id gtk ++ opt_kde igtk igtk_kde ++ opt_kde bigtk bigtk_kde
  ++ match oci with Some (oc, ch) => oci_kde oc ch | None => [] end.

Definition build_eapol_m3_for_key_length_with_rsc (bssid sta anonce kck kek ap_rsn : bytes)
    (gtk_key_id : Z) (gtk : bytes) (igtk bigtk : mgmt_key) (oci : option (Z * Z))
    (key_rsc replay_counter sc : Z) (mic : KeyMic) (key_length : Z) : res bytes :=
  let plain := m3_plain ap_rsn gtk_key_id gtk igtk bigtk oci in
  let! padded := pad_key_data plain in
  let! keydata := aes_wrap kek padded in
  let! body := sign_body mic kck (fun m =>
    build_eapol_key_body_with_rsc (ki_m3 mic) key_length replay_counter anonce key_rsc m keydata) in
  Val (eapol_data_header bssid sta sc ++ eapol_wrap body).

Definition build_eapol_m3_for_key_length (bssid sta anonce kck kek ap_rsn : bytes)
    (gtk_key_id : Z) (gtk : bytes) (igtk bigtk : mgmt_key) (oci : option (Z * Z))
    (replay_counter sc : Z) (mic : KeyMic) (key_length : Z) : res bytes :=
  build_eapol_m3_for_key_length_with_rsc bssid sta anonce kck kek ap_rsn gtk_key_id gtk igtk bigtk
    oci 0 replay_counter sc mic key_length.

Definition build_eapol_m3 (bssid sta anonce kck kek ap_rsn : bytes)
    (gtk_key_id : Z) (gtk : bytes) (igtk bigtk : mgmt_key) (oci : option (Z * Z))
    (replay_counter sc : Z) (mic : KeyMic) : res bytes :=
  build_eapol_m3_for_key_length bssid sta anonce kck kek ap_rsn gtk_key_id gtk igtk bigtk oci
    replay_counter sc mic 16.

(** The sequence shared by the multi-link messages: for each link its GTK, then
    the IGTKs, then the BIGTKs. *)
Definition mlo_group_kdes (link_ids : list Z) (gtk_key_id : Z) (group_pn gtk : bytes)
    (igtk bigtk : mgmt_key) : bytes :=
  concat (map (fun l => mlo_gtk_kde_with_pn l gtk_key_id group_pn gtk) link_ids)
  ++ match igtk with
     | Some (key_id, ipn, ik) => concat (map (fun l => mlo_igtk_kde l key_id ipn ik) link_ids)
     | None => []
     end
  ++ match bigtk with
     | Some (key_id, ipn, bk) => concat (map (fun l => mlo_bigtk_kde l key_id ipn bk) link_ids)
     | None => []
     end.

Definition build_eapol_m3_mld_links_with_rsc (bssid sta anonce kck kek ap_mld_mac : bytes)
    (links : list mld_link) (gtk_key_id : Z) (gtk : bytes) (igtk bigtk : mgmt_key)
    (oci : option (Z * Z)) (key_rsc replay_counter sc : Z) (mic : KeyMic) : res bytes :=
  let! link_kdes := rmapM (fun '(id, mac, rsne) => mlo_link_kde id mac rsne) links in
  let group_pn := take 6 (le_bytes 8 key_rsc) in
  let plain :=
    match oci with Some (oc, ch) => oci_kde oc ch | None => [] end
    ++ mac_addr_kde ap_mld_mac ++ concat link_kdes
    ++ mlo_group_kdes (map (fun '(id, _, _) => id) links) gtk_key_id group_pn gtk igtk bigtk in
  let! padded := pad_key_data plain in
  let! keydata := aes_wrap kek padded in
  let! body := sign_body mic kck (fun m =>
    build_eapol_key_body_with_rsc (ki_m3 mic) 16 replay_counter anonce key_rsc m keydata) in
  Val (eapol_data_header bssid sta sc ++ eapol_wrap body).

(** * Group-key messages *)

Definition build_group_key_msg1_with_rsc (bssid sta kck kek : bytes) (gtk_key_id : Z) (gtk : bytes)
    (key_rsc : Z) (igtk : mgmt_key) (replay sc : Z) (mic : KeyMic) : res bytes :=
  let plain := gtk_kde gtk_key_id gtk ++ opt_kde igtk igtk_kde in
  let! padded := pad_key_data plain in
  let! keydata := aes_wrap kek padded in
  let! body := sign_body mic kck (fun m =>
    build_eapol_key_body_with_rsc (ki_group1 mic) 0 replay (replicate 32 0) key_rsc m keydata) in
  Val (eapol_data_header bssid sta sc ++ eapol_wrap body).

Definition build_group_key_msg1 (bssid sta kck kek : bytes) (gtk_key_id : Z) (gtk : bytes)
    (igtk : mgmt_key) (replay sc : Z) (mic : KeyMic) : res bytes :=
  build_group_key_msg1_with_rsc bssid sta kck kek gtk_key_id gtk 0 igtk replay sc mic.

Definition build_group_key_msg1_mld_with_rsc (bssid sta kck kek : bytes) (link_ids : list Z)
    (gtk_key_id : Z) (gtk : bytes) (key_rsc : Z) (igtk bigtk : mgmt_key) (replay sc : Z)
    (mic : KeyMic) : res bytes :=
  let group_pn := take 6 (le_bytes 8 key_rsc) in
  let plain := mlo_group_kdes link_ids gtk_key_id group_pn gtk igtk bigtk in
  let! padded := pad_key_data plain in
  let! keydata := aes_wrap kek padded in
  let! body := sign_body mic kck (fun m =>
    build_eapol_key_body_with_rsc (ki_group1 mic) 0 replay (replicate 32 0) key_rsc m keydata) in
  Val (eapol_data_header bssid sta sc ++ eapol_wrap body).

Definition build_group_key_msg2 (bssid sta kck : bytes) (replay sc : Z) (mic : KeyMic) : res bytes :=
  let! body := sign_body mic kck (fun m =>
    build_eapol_key_body (ki_group2 mic) 0 replay (replicate 32 0) m []) in
  Val (eapol_data_header_tods bssid sta sc ++ eapol_wrap body).

(** * The MIC check of a received frame

    Both receivers copy the EAPOL frame, clear the 16 octets of its MIC field
    and compare the MIC of the copy with the received one. *)
Definition eapol_mic_valid (mic : KeyMic) (kck eapol_frame : bytes) (ek : EapolKey) : res bool :=
  let mic_off := (4 + ek_mic_offset ek)%nat in
  if (length eapol_frame <? mic_off + 16)%nat then Val false
  else
    let! _ := slice eapol_frame mic_off (mic_off + 16) in
    let to_check := splice eapol_frame mic_off (replicate 16 0) in
    let! computed := mic_compute mic kck to_check in
    Val (constant_time_eq computed (ek_mic ek)).

End Messages.

(** * A body that is built is parsed back *)

Lemma length_build_body ki kl rc nonce rsc mic kd :
  length nonce = 32%nat -> length mic = 16%nat ->
  length (build_eapol_key_body_with_rsc ki kl rc nonce rsc mic kd) = (95 + length kd)%nat.
Proof. intros. unfold build_eapol_key_body_with_rsc. len. Qed.

Lemma u16_small z : 0 <= z < 2 ^ 16 -> u16 z = z.
Proof. apply Z.mod_small. Qed.

(** The parsed form of a built body. *)
Definition built_key (ki : KeyInfo) (kl rc : Z) (nonce : bytes) (rsc : Z) (mic kd : bytes) : EapolKey :=
  {| ek_key_info := key_info_to_u16 ki; ek_key_length := kl; ek_replay_counter := rc;
     ek_nonce := nonce; ek_rsc := rsc; ek_mic := mic; ek_key_data := kd; ek_mic_offset := 77 |}.

Lemma parse_build_eapol ki kl rc nonce rsc mic kd :
  0 <= ki_descriptor_version ki < 8 -> 0 <= kl < 2 ^ 16 -> 0 <= rc < 2 ^ 64 -> 0 <= rsc < 2 ^ 64 ->
  length nonce = 32%nat -> length mic = 16%nat -> Z.of_nat (length kd) < 2 ^ 16 ->
  parse_eapol_key (build_eapol_key_body_with_rsc ki kl rc nonce rsc mic kd)
    = Val (Some (built_key ki kl rc nonce rsc mic kd)).
Proof.
  intros Hki Hkl Hrc Hrsc Hn Hm Hkd. unfold parse_eapol_key.
  pose proof (length_build_body ki kl rc nonce rsc mic kd Hn Hm) as Hlen.
  set (b := build_eapol_key_body_with_rsc ki kl rc nonce rsc mic kd) in *.
  rewrite (proj2 (Nat.ltb_ge _ 95)) by lia. rust_steps.
  change (nth 0 b 0) with 2. cbn [Z.eqb negb Pos.eqb].
  assert (E93 : be_val (sub b 93 95) = Z.of_nat (length kd)).
  { apply (be_val_of 2); [|simpl; lia]. unfold b, build_eapol_key_body_with_rsc.
    rewrite u16_small by lia. peel. }
  rewrite E93, Nat2Z.id, Hlen, Nat.eqb_refl. cbn [negb]. rust_steps.
  unfold built_key. unfold b, build_eapol_key_body_with_rsc. do 2 f_equal. f_equal.
  - apply (be_val_of 2); [peel|]. by apply key_info_range.
  - apply (be_val_of 2); [peel|done].
  - apply (be_val_of 8); [peel|done].
  - peel.
  - apply (le_val_of_n 8); [peel|done].
  - peel.
  - peel.
Qed.

(** * Signed frames *)

Section Signed.
Context {P : Primitives} {POk : PrimitivesOk P}.

Lemma wf_build_body ki kl rc nonce rsc mic kd :
  wf_bytes nonce -> wf_bytes mic -> wf_bytes kd ->
  wf_bytes (build_eapol_key_body_with_rsc ki kl rc nonce rsc mic kd).
Proof. intros. unfold build_eapol_key_body_with_rsc. repeat apply wf_bytes_app; auto with bytes. Qed.

Lemma wf_eapol_wrap b : wf_bytes b -> wf_bytes (eapol_wrap b).
Proof. intros. unfold eapol_wrap. auto 10 with bytes. Qed.

Lemma length_eapol_wrap b : length (eapol_wrap b) = (4 + length b)%nat.
Proof. unfold eapol_wrap. len. Qed.

(** Clearing the MIC field of a framed body gives the framed body with a zero MIC. *)
Lemma splice_mic ki kl rc nonce rsc mic mic' kd :
  length nonce = 32%nat -> length mic = 16%nat -> length mic' = 16%nat ->
  splice (eapol_wrap (build_eapol_key_body_with_rsc ki kl rc nonce rsc mic kd)) 81 mic'
    = eapol_wrap (build_eapol_key_body_with_rsc ki kl rc nonce rsc mic' kd).
Proof.
  intros Hn Hm Hm'. unfold eapol_wrap. rewrite !length_build_body by done.
  unfold build_eapol_key_body_with_rsc.
  set (a := [2; 3] ++ be_bytes 2 (u16 (Z.of_nat (95 + length kd))) ++ [2]
    ++ be_bytes 2 (key_info_to_u16 ki) ++ be_bytes 2 kl ++ be_bytes 8 rc ++ nonce
    ++ replicate 16 0 ++ le_bytes 8 rsc ++ replicate 8 0).
  set (c := be_bytes 2 (u16 (Z.of_nat (length kd))) ++ kd).
  transitivity (splice (a ++ mic ++ c) 81 mic').
  { unfold a. by rewrite <- !app_assoc. }
  rewrite splice_middle; [|unfold a; len|lia]. unfold a. by rewrite <- !app_assoc.
Qed.

(** A signed body passes the receiver's MIC check under the same key ... *)
Lemma sign_body_ok mic kck ki kl rc nonce rsc kd :
  arr 16 kck -> arr 32 nonce -> wf_bytes kd ->
  exists m, sign_body mic kck (fun m => build_eapol_key_body_with_rsc ki kl rc nonce rsc m kd)
              = Val (build_eapol_key_body_with_rsc ki kl rc nonce rsc m kd) /\ arr 16 m /\
    eapol_mic_valid mic kck (eapol_wrap (build_eapol_key_body_with_rsc ki kl rc nonce rsc m kd))
      (built_key ki kl rc nonce rsc m kd) = Val true.
Proof.
  intros Hk [Hnl Hnw] Hkd. unfold sign_body.
  set (b0 := build_eapol_key_body_with_rsc ki kl rc nonce rsc (replicate 16 0) kd).
  assert (Hw0 : wf_bytes b0) by (apply wf_build_body; auto with bytes).
  destruct (mic_compute_ok mic kck (eapol_wrap b0) Hk (wf_eapol_wrap _ Hw0)) as (m & Hm & Hml & Hmw).
  exists m. rewrite Hm. cbn [rbind]. split; [done|]. split; [done|].
  unfold eapol_mic_valid, built_key. cbn [ek_mic_offset ek_mic].
  rewrite length_eapol_wrap, length_build_body by done.
  rewrite (proj2 (Nat.ltb_ge _ _)) by lia.
  rewrite slice_ok by (rewrite ?length_eapol_wrap, ?length_build_body by done; lia). cbn [rbind].
  change (4 + 77)%nat with 81%nat.
  rewrite splice_mic by (rewrite ?length_replicate; done). fold b0. rewrite Hm. cbn [rbind].
  by rewrite constant_time_eq_spec, beq_refl by done.
Qed.

(** ... and the check accepts nothing else than the MIC of the frame. *)
Lemma eapol_mic_valid_total mic kck f ek :
  arr 16 kck -> wf_bytes f -> arr 16 (ek_mic ek) ->
  exists v, eapol_mic_valid mic kck f ek = Val v /\
    (v = true -> mic_compute mic kck (splice f (4 + ek_mic_offset ek) (replicate 16 0))
                   = Val (ek_mic ek)).
Proof.
  intros Hk Hf [Hml Hmw]. unfold eapol_mic_valid.
  destruct (Nat.ltb_spec (length f) (4 + ek_mic_offset ek + 16)); [by eexists|]. rust_steps.
  destruct (mic_compute_ok mic kck (splice f (4 + ek_mic_offset ek) (replicate 16 0)) Hk)
    as (m & Hm & Hml' & Hmw').
  { unfold splice. auto with bytes. }
  rewrite Hm. cbn [rbind]. eexists. split; [done|].
  rewrite constant_time_eq_spec, beq_true by done. by intros ->.
Qed.

(** The receiver's view of a Data frame that carries a key body. *)
Definition eapol_rx (frame : bytes) (d : Dot11) (ek : EapolKey) (f : bytes) : Prop :=
  parse frame = Val (Some d) /\ wf_bytes (body d) /\ eapol_frame d = Val (Some f) /\
  exists b, eapol_key_body d = Val (Some b) /\ parse_eapol_key b = Val (Some ek).

Definition eapol_dot11 (fl : Z) (a1 a2 a3 : bytes) (s : Z) (b : bytes) : Dot11 :=
  {| fc0 := 8; fc1 := fl; addr1 := a1; addr2 := a2; addr3 := a3; sc := s; qos := None;
     body := llc_snap ETHERTYPE_EAPOL ++ eapol_wrap b |}.

Lemma wf_llc e : wf_bytes (llc_snap e).
Proof.
  unfold llc_snap. apply wf_bytes_app; [|auto with bytes]. by apply (bool_decide_unpack _).
Qed.

Lemma eapol_frame_rx fl a1 a2 a3 s b ek :
  fl = FC_FROMDS \/ fl = FC_TODS -> arr 6 a1 -> arr 6 a2 -> arr 6 a3 -> 0 <= s < 2 ^ 16 ->
  wf_bytes b -> Z.of_nat (length b) < 2 ^ 16 -> parse_eapol_key b = Val (Some ek) ->
  eapol_rx ((dot11_header TYPE_DATA 0 fl a1 a2 a3 s ++ llc_snap ETHERTYPE_EAPOL) ++ eapol_wrap b)
    (eapol_dot11 fl a1 a2 a3 s b) ek (eapol_wrap b).
Proof.
  intros Hfl H1 H2 H3 Hs Hb Hlb Hek.
  set (d := eapol_dot11 fl a1 a2 a3 s b).
  assert (Hbody : body d = llc_snap ETHERTYPE_EAPOL ++
    ([2; 3] ++ be_bytes 2 (Z.of_nat (length b)) ++ b) ++ []).
  { rewrite app_nil_r. unfold d, eapol_dot11, eapol_wrap. cbn [body]. by rewrite u16_small by lia. }
  assert (Hp : protected d = false) by (by destruct Hfl as [->| ->]).
  assert (Hbw : wf_bytes (llc_snap ETHERTYPE_EAPOL ++ eapol_wrap b))
    by (apply wf_bytes_app; [apply wf_llc|by apply wf_eapol_wrap]).
  split; [|split; [exact Hbw|split]].
  - rewrite <- app_assoc. apply parse_header; try done.
    + by destruct Hfl as [->| ->].
    + by destruct Hfl as [->| ->].
  - rewrite (eapol_frame_spec d 2 3 b []) by done. unfold eapol_wrap. by rewrite u16_small by lia.
  - exists b. split; [|done]. by rewrite (eapol_key_body_spec d 2 b []) by done.
Qed.

(** The common core of every authenticated message, in either direction. *)
Lemma signed_message fl a1 a2 a3 s mic kck ki kl rc nonce rsc kd :
  fl = FC_FROMDS \/ fl = FC_TODS -> arr 6 a1 -> arr 6 a2 -> arr 6 a3 -> 0 <= s < 2 ^ 16 ->
  arr 16 kck -> 0 <= ki_descriptor_version ki < 8 -> 0 <= kl < 2 ^ 16 -> 0 <= rc < 2 ^ 64 ->
  arr 32 nonce -> 0 <= rsc < 2 ^ 64 -> wf_bytes kd -> Z.of_nat (length kd) < 2 ^ 16 - 95 ->
  exists b m d fr, sign_body mic kck (fun m => build_eapol_key_body_with_rsc ki kl rc nonce rsc m kd) = Val b /\
    eapol_rx ((dot11_header TYPE_DATA 0 fl a1 a2 a3 s ++ llc_snap ETHERTYPE_EAPOL) ++ eapol_wrap b)
      d (built_key ki kl rc nonce rsc m kd) fr /\
    d = eapol_dot11 fl a1 a2 a3 s b /\ arr 16 m /\
    eapol_mic_valid mic kck fr (built_key ki kl rc nonce rsc m kd) = Val true.
Proof.
  intros Hfl H1 H2 H3 Hs Hk Hki Hkl Hrc Hn Hrsc Hkd Hlen.
  destruct (sign_body_ok mic kck ki kl rc nonce rsc kd Hk Hn Hkd) as (m & Hsb & Hm & Hv).
  destruct Hn as [Hnl Hnw]. destruct Hm as [Hml Hmw].
  exists (build_eapol_key_body_with_rsc ki kl rc nonce rsc m kd), m. do 2 eexists.
  split; [exact Hsb|]. split; [|split; [reflexivity|split; [done|exact Hv]]].
  apply eapol_frame_rx; try done.
  - by apply wf_build_body.
  - rewrite length_build_body by done. lia.
  - apply parse_build_eapol; try done. lia.
Qed.

(** What [EapolKey] field predicates say of a built key. *)
Lemma built_key_flags ki kl rc nonce rsc m kd :
  0 <= ki_descriptor_version ki < 8 ->
  let e := built_key ki kl rc nonce rsc m kd in
  ek_encrypted_key_data e = ki_encrypted_key_data ki /\ ek_secure e = ki_secure ki /\
  ek_has_key_mic e = ki_has_key_mic ki /\ ek_key_ack e = ki_key_ack ki /\
  ek_install e = ki_install ki /\ ek_is_pairwise e = ki_key_type ki /\
  ek_descriptor_version e = ki_descriptor_version ki /\ ek_error e = false /\ ek_request e = false.
Proof.
  intros Hv. destruct (key_info_roundtrip ki Hv) as (?&?&?&?&?&?&?&?&?&_). cbn zeta in *.
  repeat split; assumption.
Qed.

Lemma eapol_m1_rx bssid sta anonce rc s mic kl kd :
  arr 6 bssid -> arr 6 sta -> arr 32 anonce -> 0 <= rc < 2 ^ 64 -> 0 <= s < 2 ^ 16 ->
  0 <= kl < 2 ^ 16 -> wf_bytes kd -> Z.of_nat (length kd) < 2 ^ 16 - 95 ->
  exists d fr, eapol_rx (build_eapol_m1_with_key_data bssid sta anonce rc s mic kl kd) d
    (built_key (ki_m1 mic) kl rc anonce 0 (replicate 16 0) kd) fr /\
    addr1 d = sta /\ addr2 d = bssid /\ addr3 d = bssid /\ from_ds d = true.
Proof.
  intros Hb Hs [Hnl Hnw] Hrc Hsc Hkl Hkd Hlen. do 2 eexists. split.
  - unfold build_eapol_m1_with_key_data, eapol_data_header. apply eapol_frame_rx; auto.
    + unfold build_eapol_key_body. apply wf_build_body; [done| |done].
      apply wf_bytes_replicate. unfold is_byte. lia.
    + unfold build_eapol_key_body. rewrite length_build_body by done. lia.
    + unfold build_eapol_key_body. apply parse_build_eapol; [apply mic_version_range|done|done|lia|done|by rewrite length_replicate|lia].
  - by repeat split.
Qed.

Lemma eapol_m2_rx bssid sta snonce kck rsn rc s mic oci :
  arr 6 bssid -> arr 6 sta -> arr 32 snonce -> arr 16 kck -> wf_bytes rsn ->
  Z.of_nat (length rsn) < 2 ^ 15 -> 0 <= rc < 2 ^ 64 -> 0 <= s < 2 ^ 16 ->
  match oci with Some (oc, ch) => is_byte oc /\ is_byte ch | None => True end ->
  exists f d fr m kd, build_eapol_m2 bssid sta snonce kck rsn rc s mic oci = Val f /\
    kd = rsn ++ match oci with Some (oc, ch) => oci_kde oc ch | None => [] end /\
    eapol_rx f d (built_key (ki_m2 mic) 0 rc snonce 0 m kd) fr /\
    addr1 d = bssid /\ addr2 d = sta /\ addr3 d = bssid /\
    eapol_mic_valid mic kck fr (built_key (ki_m2 mic) 0 rc snonce 0 m kd) = Val true.
Proof.
  intros Hb Hs Hn Hk Hr Hlen Hrc Hsc Hoci.
  set (kd := rsn ++ match oci with Some (oc, ch) => oci_kde oc ch | None => [] end).
  assert (Hkd : wf_bytes kd /\ Z.of_nat (length kd) < 2 ^ 15 + 9).
  { unfold kd. destruct oci as [[oc ch]|].
    - destruct Hoci. split; [|len]. apply wf_bytes_app; [done|].
      unfold oci_kde. repeat (apply wf_bytes_cons; [auto with bytes|]). constructor.
    - rewrite app_nil_r. split; [done|lia]. }
  destruct Hkd as [Hkw Hkl].
  destruct (signed_message FC_TODS bssid sta bssid s mic kck (ki_m2 mic) 0 rc snonce 0 kd)
    as (b & m & d & fr & Hsb & Hrx & -> & Hm & Hv); auto; try lia; try apply mic_version_range.
  exists ((dot11_header TYPE_DATA 0 FC_TODS bssid sta bssid s ++ llc_snap ETHERTYPE_EAPOL) ++ eapol_wrap b).
  do 2 eexists. exists m, kd. split; [|split; [done|split; [exact Hrx|by repeat split]]].
  unfold build_eapol_m2. fold kd. unfold build_eapol_key_body. by rewrite Hsb.
Qed.

Lemma eapol_m4_rx bssid sta kck rc s mic mld :
  arr 6 bssid -> arr 6 sta -> arr 16 kck -> 0 <= rc < 2 ^ 64 -> 0 <= s < 2 ^ 16 ->
  match mld with Some a => arr 6 a | None => True end ->
  exists f d fr m kd, build_eapol_m4_mld bssid sta kck rc s mic mld = Val f /\
    kd = match mld with Some a => mac_addr_kde a | None => [] end /\
    eapol_rx f d (built_key (ki_m4 mic) 0 rc (replicate 32 0) 0 m kd) fr /\
    addr1 d = bssid /\ addr2 d = sta /\ addr3 d = bssid /\
    eapol_mic_valid mic kck fr (built_key (ki_m4 mic) 0 rc (replicate 32 0) 0 m kd) = Val true.
Proof.
  intros Hb Hs Hk Hrc Hsc Hmld.
  set (kd := match mld with Some a => mac_addr_kde a | None => [] end).
  assert (Hkd : wf_bytes kd /\ Z.of_nat (length kd) < 100).
  { unfold kd. destruct mld as [a|]; [|split; [constructor|simpl; lia]]. destruct Hmld.
    unfold mac_addr_kde. split; [|len]. apply wf_bytes_app; [|done].
    by apply (bool_decide_unpack _). }
  destruct Hkd as [Hkw Hkl].
  destruct (signed_message FC_TODS bssid sta bssid s mic kck (ki_m4 mic) 0 rc (replicate 32 0) 0 kd)
    as (b & m & d & fr & Hsb & Hrx & -> & Hm & Hv); auto; try lia; try apply mic_version_range;
    try (split; [done|auto with bytes]).
  exists ((dot11_header TYPE_DATA 0 FC_TODS bssid sta bssid s ++ llc_snap ETHERTYPE_EAPOL) ++ eapol_wrap b).
  do 2 eexists. exists m, kd. split; [|split; [done|split; [exact Hrx|by repeat split]]].
  unfold build_eapol_m4_mld. fold kd. unfold build_eapol_key_body. by rewrite Hsb.
Qed.

Lemma group_msg2_rx bssid sta kck rc s mic :
  arr 6 bssid -> arr 6 sta -> arr 16 kck -> 0 <= rc < 2 ^ 64 -> 0 <= s < 2 ^ 16 ->
  exists f d fr m, build_group_key_msg2 bssid sta kck rc s mic = Val f /\
    eapol_rx f d (built_key (ki_group2 mic) 0 rc (replicate 32 0) 0 m []) fr /\
    addr1 d = bssid /\ addr2 d = sta /\ addr3 d = bssid /\
    eapol_mic_valid mic kck fr (built_key (ki_group2 mic) 0 rc (replicate 32 0) 0 m []) = Val true.
Proof.
  intros Hb Hs Hk Hrc Hsc.
  destruct (signed_message FC_TODS bssid sta bssid s mic kck (ki_group2 mic) 0 rc (replicate 32 0) 0 [])
    as (b & m & d & fr & Hsb & Hrx & -> & Hm & Hv); auto with bytes; try lia; try (simpl; lia);
    try apply mic_version_range; try (split; [done|auto with bytes]).
  exists ((dot11_header TYPE_DATA 0 FC_TODS bssid sta bssid s ++ llc_snap ETHERTYPE_EAPOL) ++ eapol_wrap b).
  do 2 eexists. exists m. split; [|split; [exact Hrx|by repeat split]].
  unfold build_group_key_msg2, build_eapol_key_body. by rewrite Hsb.
Qed.

(** * Wrapped key data *)

Definition oci_list (oci : option (Z * Z)) : list (Z * bytes) :=
  match oci with Some (oc, ch) => [kde 0x0d [oc; ch; 0]] | None => [] end.

Definition key_list (ty : Z) (k : mgmt_key) : list (Z * bytes) :=
  match k with Some (key_id, ipn, key) => [kde ty (le_bytes 2 key_id ++ ipn ++ key)] | None => [] end.

(** The elements of the key data of message 3, after the RSN elements [rs]. *)
Definition m3_elements (rs : list (Z * bytes)) (gtk_key_id : Z) (gtk : bytes)
    (igtk bigtk : mgmt_key) (oci : option (Z * Z)) : list (Z * bytes) :=
  rs ++ [kde 0x01 ([Z.land gtk_key_id 3; 0] ++ gtk)] ++ key_list 0x09 igtk ++ key_list 0x0e bigtk
  ++ oci_list oci.

Lemma m3_plain_elements rs k g igtk bigtk oci :
  m3_plain (encode_elements rs) k g igtk bigtk oci
    = encode_elements (m3_elements rs k g igtk bigtk oci).
Proof.
  unfold m3_plain, m3_elements. rewrite !encode_elements_app, gtk_kde_element. do 2 f_equal.
  f_equal; [|f_equal].
  - destruct igtk as [[[kid ipn] key]|]; [|done]. cbn [opt_kde key_list].
    unfold igtk_kde. by rewrite management_key_kde_element.
  - destruct bigtk as [[[kid ipn] key]|]; [|done]. cbn [opt_kde key_list].
    unfold bigtk_kde. by rewrite management_key_kde_element.
  - destruct oci as [[oc ch]|]; [|done]. by rewrite oci_kde_element.
Qed.

Definition mgmt_key_ok (k : mgmt_key) : Prop :=
  match k with
  | Some (key_id, ipn, key) => 0 <= key_id < 2 ^ 16 /\ arr 6 ipn /\ arr 16 key
  | None => True
  end.

(** Advertised RSN elements: no vendor-specific element among them. *)
Definition rsn_elements (rs : list (Z * bytes)) : Prop :=
  Forall (fun t => short_element t /\ is_byte t.1 /\ wf_bytes t.2 /\ t.1 <> 0xdd) rs.

Lemma rsn_elements_skip ty rs ts :
  rsn_elements rs -> List.find (is_kde ty) (rs ++ ts) = List.find (is_kde ty) ts.
Proof.
  induction 1 as [|[id b] rs (_ & _ & _ & Hid) Hrs IH]; [done|]. cbn [app List.find fst snd] in *.
  unfold is_kde at 1. cbn [fst snd]. rewrite (proj2 (Z.eqb_neq id 0xdd)) by done. done.
Qed.

Lemma oci_skip rs ts : rsn_elements rs -> List.find is_oci (rs ++ ts) = List.find is_oci ts.
Proof.
  induction 1 as [|[id b] rs (_ & _ & _ & Hid) Hrs IH]; [done|]. cbn [app List.find fst snd] in *.
  unfold is_oci at 1. cbn [fst snd]. rewrite (proj2 (Z.eqb_neq id 0xdd)) by done. done.
Qed.

Lemma is_oci_kde ty p : (3 <= length p)%nat -> is_oci (kde ty p) = (ty =? 0x0d).
Proof.
  intros Hp. unfold is_oci, kde. cbn [fst snd].
  rewrite (proj2 (Nat.leb_le 7 _)) by len. cbn [andb Z.eqb Pos.eqb].
  change (sub (RSN_OUI ++ [ty] ++ p) 0 3) with RSN_OUI. rewrite beq_refl. done.
Qed.

(** What the parsers read from elements in which each key occurs once. *)
Lemma key_list_found ty igtk rest :
  mgmt_key_ok igtk -> (forall t, List.In t rest -> is_kde ty t = false) ->
  List.find (is_kde ty) (key_list ty igtk ++ rest)
    = match igtk with Some (k, ipn, key) => Some (kde ty (le_bytes 2 k ++ ipn ++ key)) | None => None end.
Proof.
  intros Hok Hrest. destruct igtk as [[[k ipn] key]|]; cbn [key_list app List.find].
  - by rewrite is_kde_kde, Z.eqb_refl.
  - induction rest as [|t rest IH]; [done|]. cbn [List.find]. rewrite Hrest by (by left).
    apply IH. intros u Hu. apply Hrest. by right.
Qed.

Lemma m3_found rs k g igtk bigtk oci padded :
  rsn_elements rs -> length g = 16%nat -> mgmt_key_ok igtk -> mgmt_key_ok bigtk ->
  pad_key_data (m3_plain (encode_elements rs) k g igtk bigtk oci) = Val padded ->
  parse_gtk_kde_full padded = Val (Some (Z.land k 3, g)) /\
  parse_igtk_kde padded = Val igtk /\ parse_bigtk_kde padded = Val bigtk /\
  parse_oci_kde padded = Val oci.
Proof.
  intros Hrs Hg Hi Hb Hpad. rewrite m3_plain_elements in Hpad.
  set (ts := m3_elements rs k g igtk bigtk oci) in *.
  assert (Hshort : Forall short_element ts).
  { unfold ts, m3_elements. apply Forall_app. split.
    - eapply Forall_impl; [exact Hrs|]. simpl. tauto.
    - unfold short_element, kde, RSN_OUI.
      constructor; [simpl; lia|]. apply Forall_app. split; [|apply Forall_app; split].
      + destruct igtk as [[[kid ipn] key]|]; constructor; [|constructor].
        destruct Hi as (_ & [Hl _] & [Hl' _]). cbn [kde snd]. len.
      + destruct bigtk as [[[kid ipn] key]|]; constructor; [|constructor].
        destruct Hb as (_ & [Hl _] & [Hl' _]). cbn [kde snd]. len.
      + destruct oci as [[oc ch]|]; constructor; [simpl; lia|constructor]. }
  assert (Hfind : forall ty, find_vendor_kde padded ty = Val (option_map snd (List.find (is_kde ty) ts)))
    by (intros; by apply find_vendor_kde_padded).
  assert (Hmk : forall ty kk, ty = 0x09 \/ ty = 0x0e -> mgmt_key_ok kk ->
    List.find (is_kde ty) ts = match kk with Some (k, ipn, key) => Some (kde ty (le_bytes 2 k ++ ipn ++ key)) | None => None end ->
    rmap (option_map drop_link) (parse_management_key_kde padded ty false) = Val kk).
  { intros ty kk _ Hok Hf. destruct kk as [[[kid ipn] key]|].
    - destruct Hok as (Hr & [Hl _] & [Hl' _]).
      rewrite (parse_management_key_kde_found padded ty false kid ipn 0 key); try done.
      rewrite Hfind, Hf. done.
    - unfold parse_management_key_kde. rewrite Hfind, Hf. done. }
  split; [|split; [|split]].
  - rewrite (parse_gtk_kde_full_found padded (Z.land k 3) g); [|rewrite Hfind|lia].
    + do 2 f_equal. f_equal. rewrite <- Z.land_assoc. done.
    + unfold ts, m3_elements. by rewrite rsn_elements_skip.
  - unfold parse_igtk_kde. apply Hmk; [by left|done|].
    unfold ts, m3_elements. rewrite rsn_elements_skip by done. cbn [app List.find].
    rewrite is_kde_kde. cbn [Z.eqb Pos.eqb]. apply key_list_found; [done|].
    intros t Ht. apply in_app_or in Ht as [Ht|Ht].
    + destruct bigtk as [[[? ?] ?]|]; [|done]. destruct Ht as [<-|[]]. by rewrite is_kde_kde.
    + destruct oci as [[? ?]|]; [|done]. destruct Ht as [<-|[]]. by rewrite is_kde_kde.
  - unfold parse_bigtk_kde. apply Hmk; [by right|done|].
    unfold ts, m3_elements. rewrite rsn_elements_skip by done. cbn [app List.find].
    rewrite is_kde_kde. cbn [Z.eqb Pos.eqb].
    transitivity (List.find (is_kde 14) (key_list 14 bigtk ++ oci_list oci)).
    { destruct igtk as [[[? ?] ?]|]; [|done]. cbn [key_list app List.find].
      by rewrite is_kde_kde. }
    apply key_list_found; [done|].
    intros t Ht. destruct oci as [[? ?]|]; [|done]. destruct Ht as [<-|[]]. by rewrite is_kde_kde.
  - rewrite parse_oci_kde_spec. destruct is_oci_not_padding.
    rewrite (find_padded is_oci ts padded) by done.
    unfold ts, m3_elements. rewrite oci_skip by done. cbn [app List.find].
    rewrite is_oci_kde by (simpl; lia). cbn [Z.eqb Pos.eqb].
    assert (Hsk : forall ty kk us, ty <> 0x0d -> mgmt_key_ok kk ->
      List.find is_oci (key_list ty kk ++ us) = List.find is_oci us).
    { intros ty kk us Hty Hok. destruct kk as [[[? ?] ?]|]; [|done].
      destruct Hok as (_ & [? _] & _). cbn [key_list app List.find].
      rewrite is_oci_kde by len. by rewrite (proj2 (Z.eqb_neq _ _)). }
    rewrite !Hsk by done. by destruct oci as [[oc ch]|].
Qed.

Lemma pad_key_data_ok plain :
  wf_bytes plain -> (0 < length plain)%nat ->
  exists padded n, pad_key_data plain = Val padded /\ wf_bytes padded /\
    length padded = (8 * n)%nat /\ (0 < n)%nat /\ (length padded <= length plain + 8)%nat.
Proof.
  intros Hw Hl. pose proof (pad_key_data_spec plain) as Hs.
  set (padded := if (_ =? _)%nat then _ else _) in Hs.
  pose proof (pad_key_data_mult8 _ _ Hs) as Hm.
  assert (Hle : (length plain <= length padded <= length plain + 8)%nat).
  { unfold padded. destruct (_ =? _)%nat; [lia|]. rewrite length_app. cbn [length].
    rewrite length_replicate. pose proof (pad_count_lt 8 (S (length plain)) ltac:(lia)). lia. }
  exists padded, (length padded / 8)%nat. split; [done|]. split.
  - unfold padded. destruct (_ =? _)%nat; [done|]. apply wf_bytes_app; [done|].
    apply wf_bytes_cons; [unfold is_byte; lia|]. apply wf_bytes_replicate. unfold is_byte. lia.
  - pose proof (Nat.div_mod_eq (length padded) 8). lia.
Qed.

Lemma wrap_ok kek plain :
  arr 16 kek -> wf_bytes plain -> (0 < length plain)%nat ->
  exists padded wrapped, pad_key_data plain = Val padded /\ aes_wrap kek padded = Val wrapped /\
    wf_bytes wrapped /\ (length wrapped <= length plain + 16)%nat /\
    aes_unwrap kek wrapped = Val (Some padded).
Proof.
  intros Hk Hw Hl. destruct (pad_key_data_ok plain Hw Hl) as (padded & n & Hp & Hpw & Hpl & Hn & Hle).
  destruct (aes_unwrap_wrap kek padded n Hk Hpw Hpl Hn) as (wrapped & Hwr & Hwl & Hww & Hu).
  exists padded, wrapped. do 4 (split; [done || lia|]). done.
Qed.

Lemma m3_plain_wf rs k g igtk bigtk oci :
  rsn_elements rs -> arr 16 g -> mgmt_key_ok igtk -> mgmt_key_ok bigtk ->
  match oci with Some (oc, ch) => is_byte oc /\ is_byte ch | None => True end ->
  wf_bytes (m3_plain (encode_elements rs) k g igtk bigtk oci).
Proof.
  intros Hrs [_ Hg] Hi Hb Ho. rewrite m3_plain_elements. apply wf_encode.
  unfold m3_elements. repeat (apply Forall_app; split).
  - eapply Forall_impl; [exact Hrs|]. simpl. tauto.
  - constructor; [|constructor]. cbn [kde fst snd]. split; [unfold is_byte; lia|].
    apply wf_bytes_app; [by apply (bool_decide_unpack _)|]. apply wf_bytes_cons; [done|].
    apply wf_bytes_cons; [|auto with bytes]. change 3 with (Z.ones 2).
    rewrite Z.land_ones by lia. pose proof (Z.mod_pos_bound k (2 ^ 2)). unfold is_byte. lia.
  - destruct igtk as [[[kid ipn] key]|]; constructor; [|constructor].
    destruct Hi as (_ & [_ ?] & [_ ?]). cbn [kde fst snd]. split; [unfold is_byte; lia|].
    apply wf_bytes_app; [by apply (bool_decide_unpack _)|]. auto 10 with bytes.
  - destruct bigtk as [[[kid ipn] key]|]; constructor; [|constructor].
    destruct Hb as (_ & [_ ?] & [_ ?]). cbn [kde fst snd]. split; [unfold is_byte; lia|].
    apply wf_bytes_app; [by apply (bool_decide_unpack _)|]. auto 10 with bytes.
  - destruct oci as [[oc ch]|]; constructor; [|constructor]. destruct Ho.
    cbn [kde fst snd]. split; [unfold is_byte; lia|].
    apply wf_bytes_app; [by apply (bool_decide_unpack _)|]. auto 10 with bytes.
Qed.

Lemma length_m3_plain rsn k g igtk bigtk oci :
  length g = 16%nat -> mgmt_key_ok igtk -> mgmt_key_ok bigtk ->
  (24 <= length (m3_plain rsn k g igtk bigtk oci) <= length rsn + 101)%nat.
Proof.
  intros Hg Hi Hb. unfold m3_plain, gtk_kde.
  assert (Hl : forall ty kk, mgmt_key_ok kk -> (length (opt_kde kk (fun a b c => management_key_kde ty a b None c)) <= 30)%nat).
  { intros ty kk Hk. destruct kk as [[[kid ipn] key]|]; [|simpl; lia].
    destruct Hk as (_ & [? _] & [? _]). cbn [opt_kde]. unfold management_key_kde. len. }
  pose proof (Hl 0x09 igtk Hi) as H1. pose proof (Hl 0x0e bigtk Hb) as H2.
  fold igtk_kde in H1. fold bigtk_kde in H2.
  assert (length (match oci with Some (oc, ch) => oci_kde oc ch | None => [] end) <= 9)%nat
    by (destruct oci as [[]|]; simpl; lia).
  change (fun a b c => management_key_kde 9 a b None c) with igtk_kde in H1.
  change (fun a b c => management_key_kde 14 a b None c) with bigtk_kde in H2.
  rewrite !length_app, Hg. change (length RSN_OUI) with 3%nat. cbn [length]. lia.
Qed.

(** Message 3, from the authenticator's builder to the supplicant's parsers:
    the frame is received as built, its MIC verifies, its key data unwraps
    under the KEK, and the GTK, the IGTK, the BIGTK and the operating channel
    are the ones that were sent. *)
Lemma eapol_m3_rx bssid sta anonce kck kek rs k g igtk bigtk oci rsc rc s mic kl :
  arr 6 bssid -> arr 6 sta -> arr 32 anonce -> arr 16 kck -> arr 16 kek ->
  rsn_elements rs -> Z.of_nat (length (encode_elements rs)) < 2 ^ 15 -> arr 16 g ->
  mgmt_key_ok igtk -> mgmt_key_ok bigtk ->
  match oci with Some (oc, ch) => is_byte oc /\ is_byte ch | None => True end ->
  0 <= rsc < 2 ^ 64 -> 0 <= rc < 2 ^ 64 -> 0 <= s < 2 ^ 16 -> 0 <= kl < 2 ^ 16 ->
  exists f d fr m wrapped padded,
    build_eapol_m3_for_key_length_with_rsc bssid sta anonce kck kek (encode_elements rs) k g igtk
      bigtk oci rsc rc s mic kl = Val f /\
    eapol_rx f d (built_key (ki_m3 mic) kl rc anonce rsc m wrapped) fr /\
    addr1 d = sta /\ addr2 d = bssid /\ addr3 d = bssid /\ from_ds d = true /\
    eapol_mic_valid mic kck fr (built_key (ki_m3 mic) kl rc anonce rsc m wrapped) = Val true /\
    aes_unwrap kek wrapped = Val (Some padded) /\
    parse_gtk_kde_full padded = Val (Some (Z.land k 3, g)) /\
    parse_igtk_kde padded = Val igtk /\ parse_bigtk_kde padded = Val bigtk /\
    parse_oci_kde padded = Val oci.
Proof.
  intros Hb Hs Hn Hk Hkek Hrs Hrl Hg Hi Hbi Ho Hrsc Hrc Hsc Hkl.
  set (plain := m3_plain (encode_elements rs) k g igtk bigtk oci).
  pose proof (length_m3_plain (encode_elements rs) k g igtk bigtk oci (proj1 Hg) Hi Hbi) as Hpl.
  fold plain in Hpl.
  destruct (wrap_ok kek plain Hkek) as (padded & wrapped & Hp & Hw & Hww & Hwl & Hu);
    [by apply m3_plain_wf|lia|].
  destruct (signed_message FC_FROMDS sta bssid bssid s mic kck (ki_m3 mic) kl rc anonce rsc wrapped)
    as (b & m & d & fr & Hsb & Hrx & -> & Hm & Hv); auto; try lia; try apply mic_version_range.
  exists ((dot11_header TYPE_DATA 0 FC_FROMDS sta bssid bssid s ++ llc_snap ETHERTYPE_EAPOL) ++ eapol_wrap b).
  do 2 eexists. exists m, wrapped, padded.
  split; [|split; [exact Hrx|do 4 (split; [done|]); split; [done|split; [done|]]]].
  - unfold build_eapol_m3_for_key_length_with_rsc. fold plain. rewrite Hp. cbn [rbind].
    rewrite Hw. cbn [rbind]. by rewrite Hsb.
  - apply (m3_found rs k g igtk bigtk oci padded); try done. apply Hg.
Qed.

(** Group-key message 1, from the authenticator's builder to the supplicant's
    parsers: the frame arrives as built, its MIC verifies under the KCK, its key
    data unwraps under the KEK, and the GTK with its key id and the IGTK are the
    ones that were sent. *)
Lemma group_msg1_rx bssid sta kck kek k g rsc igtk rc s mic :
  arr 6 bssid -> arr 6 sta -> arr 16 kck -> arr 16 kek -> arr 16 g -> mgmt_key_ok igtk ->
  0 <= rsc < 2 ^ 64 -> 0 <= rc < 2 ^ 64 -> 0 <= s < 2 ^ 16 ->
  exists f d fr m wrapped padded,
    build_group_key_msg1_with_rsc bssid sta kck kek k g rsc igtk rc s mic = Val f /\
    eapol_rx f d (built_key (ki_group1 mic) 0 rc (replicate 32 0) rsc m wrapped) fr /\
    addr1 d = sta /\ addr2 d = bssid /\ addr3 d = bssid /\
    eapol_mic_valid mic kck fr (built_key (ki_group1 mic) 0 rc (replicate 32 0) rsc m wrapped) = Val true /\
    aes_unwrap kek wrapped = Val (Some padded) /\
    parse_gtk_kde_full padded = Val (Some (Z.land k 3, g)) /\ parse_igtk_kde padded = Val igtk.
Proof.
  intros Hb Hs Hk Hkek Hg Hi Hrsc Hrc Hsc.
  set (plain := m3_plain (encode_elements []) k g igtk None None).
  pose proof (length_m3_plain (encode_elements []) k g igtk None None (proj1 Hg) Hi I) as Hpl.
  fold plain in Hpl. assert (Hrs : rsn_elements []) by constructor.
  destruct (wrap_ok kek plain Hkek) as (padded & wrapped & Hp & Hw & Hww & Hwl & Hu);
    [by apply m3_plain_wf|lia|].
  destruct (signed_message FC_FROMDS sta bssid bssid s mic kck (ki_group1 mic) 0 rc (replicate 32 0) rsc wrapped)
    as (b & m & d & fr & Hsb & Hrx & -> & Hm & Hv); auto; try lia; try apply mic_version_range.
  { split; [done|]. apply wf_bytes_replicate. unfold is_byte. lia. }
  { change (length (encode_elements [])) with 0%nat in Hpl. lia. }
  exists ((dot11_header TYPE_DATA 0 FC_FROMDS sta bssid bssid s ++ llc_snap ETHERTYPE_EAPOL) ++ eapol_wrap b).
  do 2 eexists. exists m, wrapped, padded.
  split; [|split; [exact Hrx|do 3 (split; [done|]); split; [done|split; [done|]]]].
  - unfold build_group_key_msg1_with_rsc.
    replace (gtk_kde k g ++ opt_kde igtk igtk_kde) with plain
      by (unfold plain, m3_plain; cbn [encode_elements opt_kde map concat app]; by rewrite !app_nil_r).
    rewrite Hp. cbn [rbind]. rewrite Hw. cbn [rbind]. by rewrite Hsb.
  - destruct (m3_found [] k g igtk None None padded) as (? & ? & _); try done. apply Hg.
Qed.
End Signed.

(** * The multi-link messages are built for every input of the right widths *)

Lemma land_low_byte a n : 0 <= n <= 8 -> is_byte (Z.land a (Z.ones n)).
Proof.
  intros Hn. rewrite Z.land_ones by lia. pose proof (Z.mod_pos_bound a (2 ^ n) ltac:(lia)).
  pose proof (Z.pow_le_mono_r 2 n 8 ltac:(lia) ltac:(lia)). unfold is_byte. lia.
Qed.

Lemma wf_rsn_oui : wf_bytes RSN_OUI.
Proof. by apply (bool_decide_unpack _). Qed.
#[export] Hint Resolve wf_rsn_oui : bytes.

Lemma is_byte_lit b : (0 <=? b) && (b <? 256) = true -> is_byte b.
Proof. unfold is_byte. intros H. apply andb_prop in H as [H1 H2]. lia. Qed.

Local Ltac wf_list :=
  repeat first [apply wf_bytes_app | apply wf_bytes_cons | apply wf_bytes_nil | apply u8_byte
               | apply wf_rsn_oui | apply wf_le_bytes | done
               | apply (land_low_byte _ 2); lia | apply (land_low_byte _ 4); lia
               | apply is_byte_lit; done].

Lemma wf_gtk_kde k g : wf_bytes g -> wf_bytes (gtk_kde k g).
Proof. intros Hg. unfold gtk_kde. wf_list. Qed.

Lemma wf_mlo_gtk_kde l k pn g : wf_bytes pn -> wf_bytes g -> wf_bytes (mlo_gtk_kde_with_pn l k pn g).
Proof.
  intros Hp Hg. unfold mlo_gtk_kde_with_pn. wf_list.
  apply lor_byte; [apply (land_low_byte _ 2); lia|apply u8_byte].
Qed.

Lemma wf_management_kde ty k ipn l key :
  is_byte ty -> wf_bytes ipn -> wf_bytes key -> wf_bytes (management_key_kde ty k ipn l key).
Proof. intros Ht Hi Hk. unfold management_key_kde. destruct l; wf_list. Qed.

Lemma wf_oci_kde oc ch : is_byte oc -> is_byte ch -> wf_bytes (oci_kde oc ch).
Proof. intros. unfold oci_kde. wf_list. Qed.

Lemma wf_mac_addr_kde mac : wf_bytes mac -> wf_bytes (mac_addr_kde mac).
Proof. intros. unfold mac_addr_kde. wf_list. Qed.

Lemma mlo_link_kde_ok l mac rsne :
  wf_bytes mac -> wf_bytes rsne -> exists v, mlo_link_kde l mac rsne = Val v /\ wf_bytes v /\
    length v = (13 + length mac + length rsne - 6)%nat.
Proof.
  intros Hm Hr. destruct (mlo_link_kde_spec l mac rsne) as (info & -> & ->).
  eexists. split; [done|]. split.
  - wf_list. assert (is_byte (Z.land l 15)) by (apply (land_low_byte _ 4); lia).
    apply lor_byte; [apply lor_byte; [done|]|]; case_match; by apply is_byte_lit.
  - rewrite !length_app. cbn [length]. change (length RSN_OUI) with 3%nat. lia.
Qed.

Lemma wf_concat (l : list bytes) : Forall wf_bytes l -> wf_bytes (concat l).
Proof. induction 1; [constructor|]. simpl. auto with bytes. Qed.

Lemma wf_mlo_group_kdes ids k pn g igtk bigtk :
  wf_bytes pn -> wf_bytes g -> mgmt_key_ok igtk -> mgmt_key_ok bigtk ->
  wf_bytes (mlo_group_kdes ids k pn g igtk bigtk).
Proof.
  intros Hp Hg Hi Hb. unfold mlo_group_kdes. repeat apply wf_bytes_app.
  - apply wf_concat, Forall_forall. intros x Hx. apply list_elem_of_fmap in Hx as (l & -> & _).
    by apply wf_mlo_gtk_kde.
  - destruct igtk as [[[kid ipn] key]|]; [|constructor]. destruct Hi as (_ & [_ ?] & [_ ?]).
    apply wf_concat, Forall_forall. intros x Hx. apply list_elem_of_fmap in Hx as (l & -> & _).
    change (wf_bytes (management_key_kde 0x11 kid ipn (Some l) key)).
    apply wf_management_kde; [by apply is_byte_lit|done|done].
  - destruct bigtk as [[[kid ipn] key]|]; [|constructor]. destruct Hb as (_ & [_ ?] & [_ ?]).
    apply wf_concat, Forall_forall. intros x Hx. apply list_elem_of_fmap in Hx as (l & -> & _).
    change (wf_bytes (management_key_kde 0x12 kid ipn (Some l) key)).
    apply wf_management_kde; [by apply is_byte_lit|done|done].
Qed.

Section MultiLink.
Context {P : Primitives} {Pok : PrimitivesOk P}.

(** The common tail of the two builders: wrap, sign, frame. *)
Lemma wrapped_message mic kck kek plain ki kl rc nonce rsc :
  arr 16 kck -> arr 16 kek -> arr 32 nonce -> wf_bytes plain -> (0 < length plain)%nat ->
  exists padded wrapped b,
    pad_key_data plain = Val padded /\ aes_wrap kek padded = Val wrapped /\
    sign_body mic kck (fun m => build_eapol_key_body_with_rsc ki kl rc nonce rsc m wrapped) = Val b.
Proof.
  intros Hk Hkek Hn Hw Hl.
  destruct (wrap_ok kek plain Hkek Hw Hl) as (padded & wrapped & Hp & Hwr & Hww & _).
  destruct (sign_body_ok mic kck ki kl rc nonce rsc wrapped Hk Hn Hww) as (m & Hs & _). exists padded, wrapped. eexists. split; [done|]. split; [done|exact Hs].
Qed.

Lemma eapol_m3_mld_ok bssid sta anonce kck kek ap_mld links k g igtk bigtk oci rsc rc s mic :
  arr 32 anonce -> arr 16 kck -> arr 16 kek -> wf_bytes ap_mld -> wf_bytes g ->
  Forall (fun '(_, mac, rsne) => wf_bytes mac /\ wf_bytes rsne) links ->
  mgmt_key_ok igtk -> mgmt_key_ok bigtk ->
  match oci with Some (oc, ch) => is_byte oc /\ is_byte ch | None => True end ->
  exists f, build_eapol_m3_mld_links_with_rsc bssid sta anonce kck kek ap_mld links k g igtk bigtk
              oci rsc rc s mic = Val f.
Proof.
  intros Hn Hk Hkek Hm Hg Hl Hi Hb Ho. unfold build_eapol_m3_mld_links_with_rsc.
  assert (exists lk, rmapM (fun '(id, mac, rsne) => mlo_link_kde id mac rsne) links = Val lk /\
                     Forall wf_bytes lk) as (lk & -> & Hlk).
  { induction Hl as [|[[id mac] rsne] links [Hmac Hrs] Hl IH]; [by exists []|].
    destruct (mlo_link_kde_ok id mac rsne Hmac Hrs) as (v & Hv & Hvw & _).
    destruct IH as (lk & Hlk & Hlw). exists (v :: lk). cbn [rmapM]. rewrite Hv. cbn [rbind].
    rewrite Hlk. split; [done|]. by constructor. }
  cbn [rbind].
  set (plain := _ ++ mac_addr_kde ap_mld ++ _).
  destruct (wrapped_message mic kck kek plain (ki_m3 mic) 16 rc anonce rsc) as (p & w & b & -> & Hw & Hs);
    try done.
  - unfold plain.
    apply wf_bytes_app; [destruct oci as [[oc ch]|]; [destruct Ho; by apply wf_oci_kde|constructor]|].
    apply wf_bytes_app; [by apply wf_mac_addr_kde|].
    apply wf_bytes_app; [by apply wf_concat|].
    apply wf_mlo_group_kdes; auto with bytes.
  - unfold plain. rewrite !length_app. unfold mac_addr_kde. rewrite length_app. cbn [length]. lia.
  - cbn [rbind]. rewrite Hw. cbn [rbind]. rewrite Hs. by eexists.
Qed.

Lemma eapol_m3_ok bssid sta anonce kck kek rsn k g igtk bigtk oci rsc rc s mic kl :
  arr 32 anonce -> arr 16 kck -> arr 16 kek -> wf_bytes rsn -> wf_bytes g ->
  mgmt_key_ok igtk -> mgmt_key_ok bigtk ->
  match oci with Some (oc, ch) => is_byte oc /\ is_byte ch | None => True end ->
  exists f, build_eapol_m3_for_key_length_with_rsc bssid sta anonce kck kek rsn k g igtk bigtk
              oci rsc rc s mic kl = Val f.
Proof.
  intros Hn Hk Hkek Hr Hg Hi Hb Ho. unfold build_eapol_m3_for_key_length_with_rsc.
  set (plain := m3_plain _ _ _ _ _ _).
  assert (Hkd : forall ty kk, is_byte ty -> mgmt_key_ok kk ->
    wf_bytes (opt_kde kk (fun a b c => management_key_kde ty a b None c))).
  { intros ty kk Ht Hkk. destruct kk as [[[kid ipn] key]|]; [|constructor].
    destruct Hkk as (_ & [_ ?] & [_ ?]). by apply wf_management_kde. }
  destruct (wrapped_message mic kck kek plain (ki_m3 mic) kl rc anonce rsc) as (p & w & b & -> & Hw & Hs);
    try done.
  - unfold plain, m3_plain. apply wf_bytes_app; [done|]. apply wf_bytes_app; [by apply wf_gtk_kde|].
    apply wf_bytes_app; [apply (Hkd 0x09); [by apply is_byte_lit|done]|].
    apply wf_bytes_app; [apply (Hkd 0x0e); [by apply is_byte_lit|done]|].
    destruct oci as [[oc ch]|]; [destruct Ho; by apply wf_oci_kde|constructor].
  - unfold plain, m3_plain, gtk_kde. rewrite !length_app. cbn [length]. lia.
  - cbn [rbind]. rewrite Hw. cbn [rbind]. rewrite Hs. by eexists.
Qed.

Lemma group_msg1_ok bssid sta kck kek k g rsc igtk rc s mic :
  arr 16 kck -> arr 16 kek -> wf_bytes g -> mgmt_key_ok igtk ->
  exists f, build_group_key_msg1_with_rsc bssid sta kck kek k g rsc igtk rc s mic = Val f.
Proof.
  intros Hk Hkek Hg Hi. unfold build_group_key_msg1_with_rsc. set (plain := _ ++ _).
  destruct (wrapped_message mic kck kek plain (ki_group1 mic) 0 rc (replicate 32 0) rsc)
    as (p & w & b & -> & Hw & Hs); try done.
  - by apply (bool_decide_unpack _).
  - unfold plain. apply wf_bytes_app; [by apply wf_gtk_kde|].
    destruct igtk as [[[kid ipn] key]|]; [|constructor]. destruct Hi as (_ & [_ ?] & [_ ?]).
    change (wf_bytes (management_key_kde 0x09 kid ipn None key)).
    apply wf_management_kde; [by apply is_byte_lit|done|done].
  - unfold plain, gtk_kde. rewrite !length_app. cbn [length]. lia.
  - cbn [rbind]. rewrite Hw. cbn [rbind]. rewrite Hs. by eexists.
Qed.

Lemma group_msg1_mld_ok bssid sta kck kek ids k g rsc igtk bigtk rc s mic :
  ids <> [] -> arr 16 kck -> arr 16 kek -> wf_bytes g -> mgmt_key_ok igtk -> mgmt_key_ok bigtk ->
  exists f, build_group_key_msg1_mld_with_rsc bssid sta kck kek ids k g rsc igtk bigtk rc s mic = Val f.
Proof.
  intros Hids Hk Hkek Hg Hi Hb. unfold build_group_key_msg1_mld_with_rsc. set (plain := mlo_group_kdes _ _ _ _ _ _).
  destruct (wrapped_message mic kck kek plain (ki_group1 mic) 0 rc (replicate 32 0) rsc)
    as (p & w & b & -> & Hw & Hs); try done.
  - by apply (bool_decide_unpack _).
  - apply wf_mlo_group_kdes; auto with bytes.
  - unfold plain, mlo_group_kdes. destruct ids as [|i ids]; [done|]. cbn [map concat].
    rewrite !length_app. unfold mlo_gtk_kde_with_pn. rewrite !length_app. cbn [length]. lia.
  - cbn [rbind]. rewrite Hw. cbn [rbind]. rewrite Hs. by eexists.
Qed.

End MultiLink.
