(* ===== verification/Sae.v ===== *)
(** WPA3-SAE and OWE: src/auth/wpa3/{group19,sae,owe}.rs.

    The P-256 group is the [p256] crate: [P256] is its interface as the code
    uses it and [P256Ok] the group laws and SEC1 encoding facts it documents.
    Everything above it (point and scalar conversions, the password element
    derivations, the SAE state machine, the OWE key schedule) is defined here.
    [num_bigint::BigUint] is a non-negative [Z]. *)
From S2P Require Import Prelude Primality Crypto.

(** * The [p256] crate *)

Class P256 := {
  ProjectivePoint : Type;
  Scalar : Type;
  identity : ProjectivePoint;
  is_identity : ProjectivePoint -> bool;
  generator_pt : ProjectivePoint;
  padd : ProjectivePoint -> ProjectivePoint -> ProjectivePoint;
  pneg : ProjectivePoint -> ProjectivePoint;
  pmul : ProjectivePoint -> Scalar -> ProjectivePoint;
  (** [AffinePoint::from_sec1_bytes] and [to_sec1_point(compressed)] *)
  from_sec1_bytes : bytes -> option ProjectivePoint;
  to_sec1_point : bool -> ProjectivePoint -> bytes;
  (** [MapToCurve::map_to_curve] of the field element the 48 octets reduce to *)
  map_to_curve : bytes -> ProjectivePoint;
  sadd : Scalar -> Scalar -> Scalar;
  from_repr : bytes -> option Scalar;
  to_repr : Scalar -> bytes
}.

(** The modulus and the group order, [Curve::p256()]. *)
Definition curve_p : Z := 0xffffffff00000001000000000000000000000000ffffffffffffffffffffffff.
Definition curve_n : Z := 0xffffffff00000000ffffffffffffffffbce6faada7179e84f3b9cac2fc632551.
Definition PRIME_LEN : nat := 32.
Definition SAE_GROUP_19 : Z := 19.

Class P256Ok (C : P256) : Prop := {
  is_identity_true p : is_identity p = true <-> p = identity;
  padd_comm p q : padd p q = padd q p;
  padd_assoc p q r : padd p (padd q r) = padd (padd p q) r;
  padd_identity p : padd p identity = p;
  padd_neg p : padd p (pneg p) = identity;
  pmul_sadd p s t : pmul p (sadd s t) = padd (pmul p s) (pmul p t);
  pmul_padd p q s : pmul (padd p q) s = padd (pmul p s) (pmul q s);
  pmul_pmul_comm p s t : pmul (pmul p s) t = pmul (pmul p t) s;
  to_sec1_uncompressed p :
    is_identity p = false -> exists xy, arr 64 xy /\ to_sec1_point false p = 0x04 :: xy;
  from_to_sec1 c p : is_identity p = false -> from_sec1_bytes (to_sec1_point c p) = Some p;
  to_from_sec1 xy p :
    arr 64 xy -> from_sec1_bytes (0x04 :: xy) = Some p ->
    is_identity p = false /\ to_sec1_point false p = 0x04 :: xy;
  from_repr_some b : arr 32 b -> be_val b < curve_n -> exists s, from_repr b = Some s;
  from_repr_lt b s : from_repr b = Some s -> be_val b < curve_n;
  to_from_repr b s : from_repr b = Some s -> to_repr s = b;
  from_to_repr s : from_repr (to_repr s) = Some s;
  to_repr_arr s : arr 32 (to_repr s);
  to_repr_sadd s t :
    be_val (to_repr (sadd s t)) = (be_val (to_repr s) + be_val (to_repr t)) mod curve_n;
  (** the generator has order [curve_n] *)
  generator_order s : is_identity (pmul generator_pt s) = true -> be_val (to_repr s) = 0;
  (** the group has prime order: a non-zero scalar takes no other point to the identity *)
  pmul_prime_order p s : is_identity (pmul p s) = true -> is_identity p = true \/ be_val (to_repr s) = 0;
  (** an abscissa has two points, which are opposite; 02 selects one of them *)
  from_sec1_even p x y :
    is_identity p = false -> to_sec1_point false p = 0x04 :: x ++ y -> arr 32 x -> arr 32 y ->
    exists q, from_sec1_bytes (0x02 :: x) = Some q /\ (q = p \/ q = pneg p);
  to_sec1_neg p x y :
    is_identity p = false -> to_sec1_point false p = 0x04 :: x ++ y -> arr 32 x -> arr 32 y ->
    exists y', arr 32 y' /\ to_sec1_point false (pneg p) = 0x04 :: x ++ y'
}.

(** * Errors *)

Inductive SaeError :=
| BadGroup | BadFormat | BadRejectedGroups | BadElement | BadScalar
| NotReady | BadConfirm | ReplayedConfirm | SendConfirmExhausted.

(** [Point]: the wire form of a group element. *)
Inductive Point :=
| Infinity
| Affine (x y : Z).

#[export] Instance point_eq_dec : EqDecision Point.
Proof. solve_decision. Defined.
#[export] Instance sae_error_eq_dec : EqDecision SaeError.
Proof. solve_decision. Defined.

Definition scalar_pad (value : Z) (len : nat) : bytes := be_bytes len value.
Definition scalar_to_bin (value : Z) : bytes := scalar_pad value PRIME_LEN.

(** [Sae]: one side of an exchange. *)
Record Sae := {
  pwe : Point;
  sae_rand : bytes;
  commit_scalar : Z;
  commit_element : Point;
  peer_scalar : option Z;
  peer_element : option Point;
  own_rejected_groups : option bytes;
  peer_rejected_groups : option bytes;
  own_addr_higher : bool;
  sae_kck : bytes;
  sae_pmk : bytes;
  sae_pmkid : bytes;
  send_confirm : Z;
  last_peer_send_confirm : option Z
}.

#[export] Instance sae_eta : Eta Sae := fun s => {|
  pwe := pwe s; sae_rand := sae_rand s; commit_scalar := commit_scalar s;
  commit_element := commit_element s; peer_scalar := peer_scalar s;
  peer_element := peer_element s; own_rejected_groups := own_rejected_groups s;
  peer_rejected_groups := peer_rejected_groups s;
  own_addr_higher := own_addr_higher s; sae_kck := sae_kck s;
  sae_pmk := sae_pmk s; sae_pmkid := sae_pmkid s;
  send_confirm := send_confirm s;
  last_peer_send_confirm := last_peer_send_confirm s |}.

Section Sae.
Context {P : Primitives} {C : P256}.

(** * Conversions of group19.rs *)

Definition point_to_p256 (point : Point) : option ProjectivePoint :=
  match point with
  | Infinity => Some identity
  | Affine x y => from_sec1_bytes ([0x04] ++ scalar_pad x PRIME_LEN ++ scalar_pad y PRIME_LEN)
  end.

Definition point_from_p256 (point : ProjectivePoint) : res Point :=
  if is_identity point then Val Infinity
  else
    let encoded := to_sec1_point false point in
    let! x := slice encoded 1 (1 + PRIME_LEN) in
    let! y := slice_from encoded (1 + PRIME_LEN) in
    Val (Affine (be_val x) (be_val y)).

Definition scalar_to_p256 (value modulus : Z) : res Scalar :=
  expect (from_repr (scalar_pad (value mod modulus) PRIME_LEN)).

Definition scalar_from_p256 (value : Scalar) : Z := be_val (to_repr value).

Definition on_curve (point : Point) : bool :=
  match point_to_p256 point with Some _ => true | None => false end.

Definition negate (point : Point) : res Point :=
  let! p := expect (point_to_p256 point) in
  point_from_p256 (pneg p).

Definition point_add (left right : Point) : res Point :=
  let! l := expect (point_to_p256 left) in
  let! r := expect (point_to_p256 right) in
  point_from_p256 (padd l r).

Definition scalar_mul (scalar : Z) (point : Point) : res Point :=
  let! p := expect (point_to_p256 point) in
  let! s := scalar_to_p256 scalar curve_n in
  point_from_p256 (pmul p s).

Definition point_to_bin (point : Point) : option bytes :=
  match point with
  | Infinity => None
  | Affine x y => Some (scalar_pad x PRIME_LEN ++ scalar_pad y PRIME_LEN)
  end.

Definition point_from_bin (data : bytes) : res (option Point) :=
  if negb (length data =? 2 * PRIME_LEN)%nat then Val None
  else
    match from_sec1_bytes ([0x04] ++ data) with
    | None => Val None
    | Some affine => rmap Some (point_from_p256 affine)
    end.

Definition point_from_compressed (data : bytes) : res (option Point) :=
  match from_sec1_bytes data with
  | None => Val None
  | Some affine => rmap Some (point_from_p256 affine)
  end.

Definition sswu_from_okm (okm : bytes) : res Point :=
  if negb (length okm =? 48)%nat then Panic else point_from_p256 (map_to_curve okm).

(** [SecretScalar::random]: draws are rejected until one is a scalar other
    than 0 and 1; [draws] is what the operating system's generator returns. *)
Definition acceptable_scalar (b : bytes) : bool :=
  (existsb (fun x => negb (x =? 0)) (take 31 b) || (1 <? byte_at b 31)) &&
  match from_repr b with Some _ => true | None => false end.

Fixpoint secret_random (draws : list bytes) : res bytes :=
  match draws with
  | [] => OutOfFuel
  | b :: draws' => if acceptable_scalar b then Val b else secret_random draws'
  end.

Definition secret_from_biguint (value modulus : Z) : bytes :=
  scalar_pad (value mod modulus) PRIME_LEN.

Definition secret_scalar (b : bytes) : res Scalar := expect (from_repr b).

(** * Hash helpers of sae.rs *)

Definition hkdf_extract (salt : bytes) (ikm : list bytes) : bytes :=
  hmac_sha256 salt (concat ikm).

Definition hkdf_expand_step (prk info : bytes) (out_len : nat) (st : bytes * bytes * Z) :
    res (bytes * bytes * Z + bytes) :=
  let '(out, t, counter) := st in
  if (length out <? out_len)%nat then
    let t' := hmac_sha256 prk (t ++ info ++ [counter]) in
    if counter =? 255 then Panic
    else Val (inl (out ++ t', t', counter + 1))
  else Val (inr (take out_len out)).

Definition hkdf_expand (prk info : bytes) (out_len : nat) : res bytes :=
  loop (S out_len) (hkdf_expand_step prk info out_len) ([], [], 1).

(** "SAE Hash to Element u1 P1" (and "u2 P2"), "SAE Hunting and Pecking",
    "SAE KCK and PMK". *)
Definition H2E_U (d : Z) : bytes :=
  [0x53; 0x41; 0x45; 0x20; 0x48; 0x61; 0x73; 0x68; 0x20; 0x74; 0x6f; 0x20; 0x45; 0x6c;
   0x65; 0x6d; 0x65; 0x6e; 0x74; 0x20; 0x75; d; 0x20; 0x50; d].
Definition HUNT_LABEL : bytes :=
  [0x53; 0x41; 0x45; 0x20; 0x48; 0x75; 0x6e; 0x74; 0x69; 0x6e; 0x67; 0x20; 0x61; 0x6e;
   0x64; 0x20; 0x50; 0x65; 0x63; 0x6b; 0x69; 0x6e; 0x67].
Definition KCK_PMK_LABEL : bytes :=
  [0x53; 0x41; 0x45; 0x20; 0x4b; 0x43; 0x4b; 0x20; 0x61; 0x6e; 0x64; 0x20; 0x50; 0x4d; 0x4b].

(** * Password element *)

Definition max_min_addr (a1 a2 : bytes) : bytes * bytes :=
  if lex_leb a2 a1 then (a1, a2) else (a2, a1).

Definition derive_pt (ssid password : bytes) (identifier : option bytes) : res Point :=
  let pwd_seed :=
    match identifier with
    | Some id => hkdf_extract ssid [password; id]
    | None => hkdf_extract ssid [password]
    end in
  let pwd_value_len := (PRIME_LEN + (PRIME_LEN + 1) / 2)%nat in
  let! pv1 := hkdf_expand pwd_seed (H2E_U 0x31) pwd_value_len in
  let! p1 := sswu_from_okm pv1 in
  let! pv2 := hkdf_expand pwd_seed (H2E_U 0x32) pwd_value_len in
  let! p2 := sswu_from_okm pv2 in
  point_add p1 p2.

Definition derive_pwe_from_pt (pt : Point) (addr1 addr2 : bytes) : res Point :=
  let (max, min) := max_min_addr addr1 addr2 in
  let val_hash := hkdf_extract (replicate 32 0) [max; min] in
  let val := be_val val_hash mod (curve_n - 1) + 1 in
  scalar_mul val pt.

(** One iteration of the hunting-and-pecking loop; the loop always runs its 40
    iterations and keeps the first point found. *)
Definition hunt_step (password salt : bytes) (found : option Point) (counter : Z) :
    res (option Point) :=
  let pwd_seed := hmac_sha256 salt (password ++ [counter]) in
  let! pwd_value := sha256_prf pwd_seed HUNT_LABEL (scalar_pad curve_p PRIME_LEN) PRIME_LEN in
  let x := be_val pwd_value in
  let candidate_x := if x <? curve_p then scalar_pad x PRIME_LEN else scalar_pad 1 PRIME_LEN in
  let! odd := idx pwd_seed 31 in
  let sign := if Z.land odd 1 =? 1 then 0x03 else 0x02 in
  let! candidate := point_from_compressed ([sign] ++ candidate_x) in
  match found, candidate with
  | None, Some c => if x <? curve_p then Val (Some c) else Val None
  | _, _ => Val found
  end.

Definition HUNT_ITERATIONS : Z := 40.

Definition derive_pwe_hunting_pecking (password addr1 addr2 : bytes) : res (option Point) :=
  let (max, min) := max_min_addr addr1 addr2 in
  rfold (hunt_step password (max ++ min)) None (seqZ 1 HUNT_ITERATIONS).

(** * The SAE state machine *)

Definition sae_with (the_pwe : Point) (addr_higher : bool) : Sae := {|
  pwe := the_pwe; sae_rand := replicate 32 0; commit_scalar := 0; commit_element := Infinity;
  peer_scalar := None; peer_element := None; own_rejected_groups := None;
  peer_rejected_groups := None; own_addr_higher := addr_higher; sae_kck := []; sae_pmk := [];
  sae_pmkid := []; send_confirm := 0; last_peer_send_confirm := None |}.

Definition new_h2e (ssid password : bytes) (identifier : option bytes) (addr1 addr2 : bytes) :
    res Sae :=
  let! pt := derive_pt ssid password identifier in
  let! the_pwe := derive_pwe_from_pt pt addr1 addr2 in
  Val (sae_with the_pwe (negb (lex_leb addr1 addr2))).

Definition new_hunting_pecking (password addr1 addr2 : bytes) : res (option Sae) :=
  let? the_pwe := derive_pwe_hunting_pecking password addr1 addr2 in
  Val (Some (sae_with the_pwe (negb (lex_leb addr1 addr2)))).

(** [prepare_commit]: [rand] and [mask] are the two secret scalars, drawn by
    [secret_random] or, in tests, fixed. *)
Definition prepare_commit (s : Sae) (rand mask : bytes) : res Sae :=
  let! r := secret_scalar rand in
  let! m := secret_scalar mask in
  let! pt := expect (point_to_p256 (pwe s)) in
  let! mp := point_from_p256 (pmul pt m) in
  let! elem := negate mp in
  Val (s <| sae_rand := rand |> <| commit_scalar := scalar_from_p256 (sadd r m) |>
         <| commit_element := elem |>).

Definition rejected_groups_element (own : option bytes) : bytes :=
  match own with
  | Some groups => [255; u8 (Z.of_nat (1 + length groups)); 92] ++ groups
  | None => []
  end.

Definition write_commit (s : Sae) : res bytes :=
  let! e := expect (point_to_bin (commit_element s)) in
  Val (le_bytes 2 SAE_GROUP_19 ++ scalar_to_bin (commit_scalar s) ++ e
       ++ rejected_groups_element (own_rejected_groups s)).

Fixpoint has_group_19 (groups : bytes) : bool :=
  match groups with
  | a :: b :: rest => (le_val [a; b] =? SAE_GROUP_19) || has_group_19 rest
  | _ => false
  end.

(** One turn of the loop over the elements after the group-19 commit. *)
Definition peer_commit_step (body : bytes) (st : nat * option bytes) :
    res (nat * option bytes + result (option bytes) SaeError) :=
  let (pos, rejected) := st in
  if (pos <? length body)%nat then
    if (length body - pos <? 2)%nat then Val (inr (Err BadFormat))
    else
      let! l := idx body (pos + 1) in
      let len := Z.to_nat l in
      let e := (pos + (2 + len))%nat in
      if (length body <? e)%nat then Val (inr (Err BadFormat))
      else
        let! b0 := idx body pos in
        let! is_rejected :=
          if (b0 =? 255) && (1 <=? len)%nat then rmap (fun x => x =? 92) (idx body (pos + 2))
          else Val false in
        if negb is_rejected then Val (inl (e, rejected))
        else
          match rejected with
          | Some _ => Val (inr (Err BadRejectedGroups))
          | None =>
              let! groups := slice body (pos + 3) e in
              if (length groups =? 0)%nat || negb (length groups mod 2 =? 0)%nat then
                Val (inr (Err BadRejectedGroups))
              else if has_group_19 groups then Val (inr (Err BadRejectedGroups))
              else Val (inl (e, Some groups))
          end
  else Val (inr (Ok rejected)).

Definition COMMIT_LEN : nat := 2 + 3 * PRIME_LEN.

(** The result of [parse_peer_commit] with the state it leaves: the peer's
    values are stored only when the whole body is accepted. *)
Definition parse_peer_commit (s : Sae) (body : bytes) : res (result unit SaeError * Sae) :=
  if (length body <? COMMIT_LEN)%nat then Val (Err BadFormat, s)
  else
    let! g := slice body 0 2 in
    if negb (le_val g =? SAE_GROUP_19) then Val (Err BadGroup, s)
    else
      let! sb := slice body 2 (2 + PRIME_LEN) in
      let scalar := be_val sb in
      if (scalar <=? 1) || (curve_n <=? scalar) then Val (Err BadScalar, s)
      else
        let! eb := slice body (2 + PRIME_LEN) COMMIT_LEN in
        let! element := point_from_bin eb in
        match element with
        | None => Val (Err BadElement, s)
        | Some element =>
            let! r := loop (S (length body)) (peer_commit_step body) (COMMIT_LEN, None) in
            match r with
            | Err e => Val (Err e, s)
            | Ok rejected =>
                Val (Ok tt,
                  s <| peer_scalar := Some scalar |> <| peer_element := Some element |>
                    <| peer_rejected_groups := rejected |>)
            end
        end.

Definition set_rejected_groups (s : Sae) (groups : list Z) : result unit SaeError * Sae :=
  match groups with
  | [] => (Ok tt, s <| own_rejected_groups := None |>)
  | _ =>
      if existsb (Z.eqb SAE_GROUP_19) groups || (127 <? length groups)%nat then
        (Err BadRejectedGroups, s)
      else (Ok tt, s <| own_rejected_groups := Some (concat (map (le_bytes 2) groups)) |>)
  end.

Fixpoint pairs_le (l : bytes) : list Z :=
  match l with
  | a :: b :: l' => le_val [a; b] :: pairs_le l'
  | _ => []
  end.

(** [Sae::peer_rejected_groups] *)
Definition peer_rejected_group_ids (s : Sae) : list Z :=
  pairs_le (default [] (peer_rejected_groups s)).

Definition is_reflection (s : Sae) : bool :=
  bool_decide (peer_scalar s = Some (commit_scalar s)) &&
  bool_decide (peer_element s = Some (commit_element s)).

Definition derive_keys (s : Sae) (k : bytes) (peer_scalar_v : Z) : res Sae :=
  let own := default [] (own_rejected_groups s) in
  let peer := default [] (peer_rejected_groups s) in
  let rejected_groups := if own_addr_higher s then own ++ peer else peer ++ own in
  let salt := if (length rejected_groups =? 0)%nat then replicate 32 0 else rejected_groups in
  let keyseed := hkdf_extract salt [k] in
  let! a := scalar_to_p256 (commit_scalar s) curve_n in
  let! b := scalar_to_p256 peer_scalar_v curve_n in
  let context := scalar_pad (scalar_from_p256 (sadd a b)) PRIME_LEN in
  let! keys := sha256_prf keyseed KCK_PMK_LABEL context 64 in
  let! kck := slice keys 0 32 in
  let! pmk := slice keys 32 64 in
  let! pmkid := slice context 0 16 in
  Val (s <| sae_kck := kck |> <| sae_pmk := pmk |> <| sae_pmkid := pmkid |>).

Definition process_commit (s : Sae) : res (result unit SaeError * Sae) :=
  match peer_scalar s, peer_element s with
  | Some ps, Some pe =>
      let! k1 := scalar_mul ps (pwe s) in
      let! k2 := point_add k1 pe in
      let! k2p := expect (point_to_p256 k2) in
      let! r := secret_scalar (sae_rand s) in
      let! big_k := point_from_p256 (pmul k2p r) in
      match big_k with
      | Infinity => Val (Err BadElement, s)
      | Affine x _ => let! s' := derive_keys s (scalar_pad x PRIME_LEN) ps in Val (Ok tt, s')
      end
  | _, _ => Val (Err NotReady, s)
  end.

Definition cn_confirm (s : Sae) (sc scalar1 : Z) (elem1 : Point) (scalar2 : Z) (elem2 : Point) :
    res bytes :=
  let! e1 := expect (point_to_bin elem1) in
  let! e2 := expect (point_to_bin elem2) in
  Val (hmac_sha256 (sae_kck s)
         (le_bytes 2 sc ++ scalar_to_bin scalar1 ++ e1 ++ scalar_to_bin scalar2 ++ e2)).

Definition write_confirm (s : Sae) : res (result bytes SaeError * Sae) :=
  if send_confirm s =? 0xffff then Val (Err SendConfirmExhausted, s)
  else
    let s' := s <| send_confirm := send_confirm s + 1 |> in
    let sc := send_confirm s' in
    let! ps := expect (peer_scalar s) in
    let! pe := expect (peer_element s) in
    let! confirm := cn_confirm s' sc (commit_scalar s) (commit_element s) ps pe in
    Val (Ok (le_bytes 2 sc ++ confirm), s').

Definition check_confirm (s : Sae) (data : bytes) : res (result unit SaeError * Sae) :=
  if (length data <? 2 + 32)%nat then Val (Err BadFormat, s)
  else
    let! b := slice data 0 2 in
    let sc := le_val b in
    match peer_scalar s, peer_element s with
    | Some ps, Some pe =>
        let! verifier := cn_confirm s sc ps pe (commit_scalar s) (commit_element s) in
        let! given := slice data 2 (2 + 32) in
        if negb (constant_time_eq verifier given) then Val (Err BadConfirm, s)
        else
          match last_peer_send_confirm s with
          | Some highest =>
              if sc <=? highest then Val (Err ReplayedConfirm, s)
              else Val (Ok tt, s <| last_peer_send_confirm := Some sc |>)
          | None => Val (Ok tt, s <| last_peer_send_confirm := Some sc |>)
          end
    | _, _ => Val (Err NotReady, s)
    end.

(** * OWE key agreement (owe.rs) *)

(** "OWE Key Generation" *)
Definition OWE_LABEL : bytes :=
  [0x4f; 0x57; 0x45; 0x20; 0x4b; 0x65; 0x79; 0x20; 0x47; 0x65; 0x6e; 0x65; 0x72; 0x61;
   0x74; 0x69; 0x6f; 0x6e].

(** The public key of [owe_keypair] for the private scalar it drew. *)
Definition owe_public (private : bytes) : res bytes :=
  let! g := point_from_p256 generator_pt in
  let! gp := expect (point_to_p256 g) in
  let! s := secret_scalar private in
  let! public := point_from_p256 (pmul gp s) in
  match public with
  | Affine x _ => Val (scalar_pad x PRIME_LEN)
  | Infinity => Panic
  end.

Definition point_from_x (x : bytes) : res (option Point) := point_from_compressed ([0x02] ++ x).

Definition owe_derive (private peer_public_x station_public_x ap_public_x : bytes) (group : Z) :
    res (option (bytes * bytes)) :=
  let? peer := point_from_x peer_public_x in
  let! p := expect (point_to_p256 peer) in
  let! s := secret_scalar private in
  let! shared := point_from_p256 (pmul p s) in
  match shared with
  | Infinity => Val None
  | Affine x _ =>
      let shared_x := scalar_pad x PRIME_LEN in
      let salt := station_public_x ++ ap_public_x ++ le_bytes 2 group in
      let prk := hkdf_extract salt [shared_x] in
      let! pmk := hkdf_expand prk OWE_LABEL 32 in
      let! pmkid := slice (sha256 (station_public_x ++ ap_public_x)) 0 16 in
      Val (Some (pmk, pmkid))
  end.

End Sae.

(** * Points and scalars *)

Section Group.
Context {P : Primitives} {C : P256} {Cok : P256Ok C}.

(** [repr Q p]: the wire point [Q] is the group element [p]. *)
Definition repr (Q : Point) (p : ProjectivePoint) : Prop :=
  point_from_p256 p = Val Q /\ point_to_p256 Q = Some p.

Lemma repr_total p : exists Q, repr Q p.
Proof.
  unfold repr, point_from_p256. destruct (is_identity p) eqn:Hi.
  - exists Infinity. split; [done|]. by apply is_identity_true in Hi as ->.
  - destruct (to_sec1_uncompressed p Hi) as (xy & [Hl Hw] & Hxy). rewrite Hxy.
    assert (Hs : slice (0x04 :: xy) 1 (1 + PRIME_LEN) = Val (sub xy 0 32))
      by (rewrite slice_ok by (simpl; unfold PRIME_LEN; lia); by rewrite sub_cons_S).
    assert (Hd : slice_from (0x04 :: xy) (1 + PRIME_LEN) = Val (sub xy 32 64)).
    { unfold slice_from. rewrite slice_ok by (simpl; unfold PRIME_LEN; lia).
      rewrite length_cons, Hl. by rewrite sub_cons_S. }
    rewrite Hs, Hd. simpl. eexists. split; [done|]. simpl.
    assert (Hx : scalar_pad (be_val (sub xy 0 32)) PRIME_LEN = sub xy 0 32)
      by (apply (be_bytes_arr 32); auto with bytes).
    assert (Hy : scalar_pad (be_val (sub xy 32 64)) PRIME_LEN = sub xy 32 64)
      by (apply (be_bytes_arr 32); auto with bytes).
    rewrite Hx, Hy. rewrite sub_cat by lia. rewrite sub_all by lia.
    change ([0x04] ++ xy) with (0x04 :: xy). rewrite <- Hxy. by apply from_to_sec1.
Qed.

Lemma repr_fun Q Q' p : repr Q p -> repr Q' p -> Q = Q'.
Proof. intros [H _] [H' _]. congruence. Qed.

Lemma repr_inj Q p p' : repr Q p -> repr Q p' -> p = p'.
Proof. intros [_ H] [_ H']. congruence. Qed.

(** [repr_elim p]: the wire form [Q] of [p], with the equations the code
    evaluates. *)
Lemma from_p256_repr p : exists Q, point_from_p256 p = Val Q /\ repr Q p.
Proof. destruct (repr_total p) as [Q H]. exists Q. split; [apply H|done]. Qed.

Lemma negate_repr Q p : repr Q p -> exists Q', negate Q = Val Q' /\ repr Q' (pneg p).
Proof.
  intros [_ H]. unfold negate. rewrite H. simpl. apply from_p256_repr.
Qed.

Lemma point_add_repr Q p Q' p' :
  repr Q p -> repr Q' p' -> exists R, point_add Q Q' = Val R /\ repr R (padd p p').
Proof.
  intros [_ H] [_ H']. unfold point_add. rewrite H. simpl. rewrite H'. simpl.
  apply from_p256_repr.
Qed.

Lemma curve_n_bound : 1 < curve_n < 256 ^ Z.of_nat PRIME_LEN.
Proof. unfold curve_n, PRIME_LEN. simpl. lia. Qed.

Lemma scalar_from_p256_range s : 0 <= scalar_from_p256 s < curve_n.
Proof.
  unfold scalar_from_p256. split.
  - apply be_val_bound, (arr_wf 32), to_repr_arr.
  - apply (from_repr_lt _ s), from_to_repr.
Qed.

Lemma scalar_from_inj s t : scalar_from_p256 s = scalar_from_p256 t -> s = t.
Proof.
  unfold scalar_from_p256. intros H.
  assert (E : to_repr s = to_repr t)
    by (rewrite <- (be_bytes_arr 32 (to_repr s)), <- (be_bytes_arr 32 (to_repr t)), H
          by apply to_repr_arr; done).
  pose proof (from_to_repr s) as A. rewrite E, from_to_repr in A. congruence.
Qed.

Lemma scalar_to_p256_ok v :
  exists s, scalar_to_p256 v curve_n = Val s /\ scalar_from_p256 s = v mod curve_n.
Proof.
  pose proof curve_n_bound as Hn. pose proof (Z.mod_pos_bound v curve_n) as Hm.
  unfold scalar_to_p256, scalar_pad.
  assert (Hv : be_val (be_bytes PRIME_LEN (v mod curve_n)) = v mod curve_n)
    by (apply be_bytes_small; lia).
  destruct (from_repr_some (be_bytes PRIME_LEN (v mod curve_n))) as [s Hs].
  { apply arr_be_bytes. }
  { rewrite Hv. lia. }
  exists s. rewrite Hs. split; [done|]. unfold scalar_from_p256.
  by rewrite (to_from_repr _ _ Hs).
Qed.

Lemma scalar_to_from s : scalar_to_p256 (scalar_from_p256 s) curve_n = Val s.
Proof.
  destruct (scalar_to_p256_ok (scalar_from_p256 s)) as (t & -> & Ht).
  f_equal. apply scalar_from_inj. rewrite Ht.
  apply Z.mod_small, scalar_from_p256_range.
Qed.

Lemma scalar_mul_repr v Q p :
  repr Q p -> exists s R, scalar_to_p256 v curve_n = Val s /\ scalar_mul v Q = Val R /\
                          repr R (pmul p s).
Proof.
  intros [_ H]. destruct (scalar_to_p256_ok v) as (s & Hs & _).
  destruct (from_p256_repr (pmul p s)) as (R & HR & Hr).
  exists s, R. unfold scalar_mul. rewrite H. simpl. by rewrite Hs.
Qed.

(** A finite point on the wire decodes to itself. *)
Lemma point_bin_roundtrip Q p :
  repr Q p -> Q <> Infinity ->
  exists b, point_to_bin Q = Some b /\ arr 64 b /\ point_from_bin b = Val (Some Q).
Proof.
  intros [H1 H2] Hf. destruct Q as [|x y]; [done|]. eexists. split; [done|].
  assert (Ha : arr 64 (scalar_pad x PRIME_LEN ++ scalar_pad y PRIME_LEN))
    by (split; [by rewrite length_app; unfold scalar_pad; rewrite !length_be_bytes|];
        apply wf_bytes_app; apply wf_be_bytes).
  split; [done|]. unfold point_from_bin. rewrite (arr_length _ _ Ha). simpl.
  cbn [point_to_p256 app] in H2. rewrite H2. unfold rmap. by rewrite H1.
Qed.

Lemma point_from_bin_total b : wf_bytes b -> exists o, point_from_bin b = Val o /\
  forall Q, o = Some Q -> Q <> Infinity /\ (exists p, repr Q p) /\ point_to_bin Q = Some b.
Proof.
  intros Hb. unfold point_from_bin.
  destruct (Nat.eqb_spec (length b) (2 * PRIME_LEN)) as [Hl|]; simpl; [|eauto with congruence].
  destruct (from_sec1_bytes (4 :: b)) as [p|] eqn:Hp; [|eauto with congruence].
  assert (Ha : arr 64 b) by done.
  destruct (to_from_sec1 b p Ha Hp) as [Hi Ht].
  destruct (from_p256_repr p) as (Q & HQ & Hr). unfold rmap. rewrite HQ. simpl.
  eexists. split; [done|]. intros Q' [= <-].
  unfold point_from_p256 in HQ. rewrite Hi, Ht in HQ.
  assert (Hs : slice (0x04 :: b) 1 (1 + PRIME_LEN) = Val (sub b 0 32))
    by (rewrite slice_ok by (simpl; unfold PRIME_LEN in *; lia); by rewrite sub_cons_S).
  assert (Hd : slice_from (0x04 :: b) (1 + PRIME_LEN) = Val (sub b 32 64)).
  { unfold slice_from. rewrite slice_ok by (simpl; unfold PRIME_LEN in *; lia).
    rewrite length_cons, Hl. by rewrite sub_cons_S. }
  rewrite Hs, Hd in HQ. simpl in HQ. injection HQ as <-.
  split; [done|]. split; [eauto|]. simpl. unfold scalar_pad, PRIME_LEN.
  assert (length b = 64%nat) by apply Ha.
  rewrite (be_bytes_arr 32 (sub b 0 32)), (be_bytes_arr 32 (sub b 32 64)) by auto with bytes.
  by rewrite sub_cat, sub_all by lia.
Qed.

End Group.

(** * The exchange *)

Section Exchange.
Context {P : Primitives} {Pok : PrimitivesOk P} {C : P256} {Cok : P256Ok C}.

(** [s] has chosen the secrets [r] and [m] under the password element [p]. *)
Definition committed (s : Sae) (p : ProjectivePoint) (r m : Scalar) : Prop :=
  repr (pwe s) p /\ secret_scalar (sae_rand s) = Val r /\
  commit_scalar s = scalar_from_p256 (sadd r m) /\ repr (commit_element s) (pneg (pmul p m)).

(** [s] holds the commit that [t] sent. *)
Definition heard (s t : Sae) : Prop :=
  peer_scalar s = Some (commit_scalar t) /\ peer_element s = Some (commit_element t) /\
  peer_rejected_groups s = own_rejected_groups t.

Definition groups_wf (s : Sae) : Prop :=
  wf_bytes (default [] (own_rejected_groups s)) /\ wf_bytes (default [] (peer_rejected_groups s)).

Lemma sadd_comm s t : sadd s t = sadd t s.
Proof.
  apply scalar_from_inj. unfold scalar_from_p256. rewrite !to_repr_sadd. f_equal. lia.
Qed.

Lemma prepare_commit_ok s rand mask r m p :
  repr (pwe s) p -> from_repr rand = Some r -> from_repr mask = Some m ->
  exists s', prepare_commit s rand mask = Val s' /\ committed s' p r m /\
    own_rejected_groups s' = own_rejected_groups s /\
    peer_rejected_groups s' = peer_rejected_groups s /\
    peer_scalar s' = peer_scalar s /\ peer_element s' = peer_element s /\
    own_addr_higher s' = own_addr_higher s.
Proof.
  intros Hp Hr Hm. unfold prepare_commit, secret_scalar. rewrite Hr, Hm. cbn [expect rbind].
  rewrite (proj2 Hp). cbn [expect rbind].
  destruct (from_p256_repr (pmul p m)) as (M & HM & HMr). rewrite HM. cbn [rbind].
  destruct (negate_repr M _ HMr) as (E & HE & HEr). rewrite HE. cbn [rbind].
  eexists. split; [done|]. unfold committed, secret_scalar. fields. rewrite Hr. done.
Qed.

(** The shared point: [rand_a * (scalar_b * PWE + element_b)]. *)
Lemma shared_point p rb mb ra :
  pmul (padd (pmul p (sadd rb mb)) (pneg (pmul p mb))) ra = pmul (pmul p rb) ra.
Proof.
  by rewrite pmul_sadd, <- padd_assoc, padd_neg, padd_identity.
Qed.

(** What [derive_keys] computes, as a function of the inputs both ends share. *)
Definition key_material (salt k : bytes) (a b : Scalar) : res bytes :=
  sha256_prf (hkdf_extract salt [k]) KCK_PMK_LABEL (to_repr (sadd a b)) 64.

Definition rejected_salt (higher : bool) (own peer : option bytes) : bytes :=
  let rejected :=
    if higher then default [] own ++ default [] peer else default [] peer ++ default [] own in
  if (length rejected =? 0)%nat then replicate 32 0 else rejected.

Lemma derive_keys_spec s k t a b :
  wf_bytes k -> groups_wf s ->
  commit_scalar s = scalar_from_p256 a -> t = scalar_from_p256 b ->
  exists keys s',
    key_material (rejected_salt (own_addr_higher s) (own_rejected_groups s)
                    (peer_rejected_groups s)) k a b = Val keys /\ arr 64 keys /\
    derive_keys s k t = Val s' /\
    s' = s <| sae_kck := sub keys 0 32 |> <| sae_pmk := sub keys 32 64 |>
           <| sae_pmkid := sub (to_repr (sadd a b)) 0 16 |>.
Proof.
  intros Hk [Hown Hpeer] Ha ->. unfold derive_keys, key_material.
  set (salt := rejected_salt _ _ _).
  replace (if (length (if own_addr_higher s then _ else _) =? 0)%nat then _ else _) with salt by done.
  assert (Hs : wf_bytes salt).
  { unfold salt, rejected_salt. case_match; [by apply (bool_decide_unpack _)|].
    case_match; auto with bytes. }
  rewrite Ha, !scalar_to_from. cbn [rbind].
  unfold scalar_pad, scalar_from_p256.
  rewrite (be_bytes_arr PRIME_LEN (to_repr (sadd a b))) by apply to_repr_arr.
  destruct (sha256_prf_length (hkdf_extract salt [k]) KCK_PMK_LABEL (to_repr (sadd a b)) 64)
    as (keys & -> & Hl & Hw).
  { apply (arr_wf 32), hmac_sha256_arr; [done|]. simpl. by rewrite app_nil_r. }
  { by apply (bool_decide_unpack _). }
  { apply (arr_wf 32), to_repr_arr. }
  exists keys. eexists. split; [done|]. split; [done|]. cbn [rbind].
  rewrite !slice_ok by lia. cbn [rbind].
  rewrite slice_ok by (rewrite ?(arr_length _ _ (to_repr_arr _)); lia). done.
Qed.

Definition keyed (s : Sae) (keys : bytes) (ab : Scalar) : Sae :=
  s <| sae_kck := sub keys 0 32 |> <| sae_pmk := sub keys 32 64 |>
    <| sae_pmkid := sub (to_repr ab) 0 16 |>.

Lemma process_commit_spec a b p ra ma rb mb K :
  committed a p ra ma -> committed b p rb mb -> heard a b -> groups_wf a ->
  repr K (pmul (pmul p rb) ra) ->
  match K with
  | Infinity => process_commit a = Val (Err BadElement, a)
  | Affine x _ => exists keys,
      key_material (rejected_salt (own_addr_higher a) (own_rejected_groups a)
                      (peer_rejected_groups a))
        (scalar_pad x PRIME_LEN) (sadd ra ma) (sadd rb mb) = Val keys /\ arr 64 keys /\
      process_commit a = Val (Ok tt, keyed a keys (sadd (sadd ra ma) (sadd rb mb)))
  end.
Proof.
  intros (Hp & Hr & Hc & He) (Hp' & Hr' & Hc' & He') (Hs & Hel & _) Hg HK.
  unfold process_commit. rewrite Hs, Hel.
  destruct (scalar_mul_repr (commit_scalar b) _ _ Hp) as (s & K1 & E1 & E2 & R1).
  rewrite Hc', scalar_to_from in E1. injection E1 as <-.
  rewrite E2. cbn [rbind].
  destruct (point_add_repr _ _ _ _ R1 He') as (K2 & E3 & R2).
  rewrite E3. cbn [rbind]. rewrite (proj2 R2). cbn [expect rbind].
  rewrite Hr. cbn [rbind].
  rewrite shared_point, (proj1 HK). cbn [rbind].
  destruct K as [|x y]; [done|].
  destruct (derive_keys_spec a (scalar_pad x PRIME_LEN) (commit_scalar b) (sadd ra ma) (sadd rb mb))
    as (keys & s' & Hk & Hl & E4 & ->); try done.
  { apply wf_be_bytes. }
  exists keys. split; [done|]. split; [done|]. by rewrite E4.
Qed.

(** Both ends reach the same verdict, and on success the same keys. *)
Lemma process_commit_agree a b p ra ma rb mb :
  committed a p ra ma -> committed b p rb mb -> heard a b -> heard b a ->
  own_addr_higher a = negb (own_addr_higher b) -> groups_wf a -> groups_wf b ->
  exists r a' b',
    process_commit a = Val (r, a') /\ process_commit b = Val (r, b') /\
    match r with
    | Ok _ => exists keys ab, arr 64 keys /\ a' = keyed a keys ab /\ b' = keyed b keys ab
    | Err e => e = BadElement /\ a' = a /\ b' = b
    end.
Proof.
  intros Ha Hb Hab Hba Hord Hga Hgb.
  destruct (repr_total (pmul (pmul p rb) ra)) as [K HK].
  pose proof (process_commit_spec a b p ra ma rb mb K Ha Hb Hab Hga HK) as Sa.
  assert (HK' : repr K (pmul (pmul p ra) rb)) by (by rewrite pmul_pmul_comm).
  pose proof (process_commit_spec b a p rb mb ra ma K Hb Ha Hba Hgb HK') as Sb.
  assert (Hsalt : rejected_salt (own_addr_higher a) (own_rejected_groups a) (peer_rejected_groups a)
                = rejected_salt (own_addr_higher b) (own_rejected_groups b) (peer_rejected_groups b)).
  { destruct Hab as (_ & _ & ->), Hba as (_ & _ & ->). rewrite Hord.
    by destruct (own_addr_higher b). }
  destruct K as [|x y]; [exists (Err BadElement); eauto 10|].
  destruct Sa as (keys & Hk & Hl & Ea), Sb as (keys' & Hk' & Hl' & Eb).
  rewrite Hsalt in Hk. rewrite (sadd_comm (sadd rb mb)) in Eb.
  assert (keys' = keys) as ->.
  { unfold key_material in Hk, Hk'. rewrite (sadd_comm (sadd rb mb)) in Hk'. congruence. }
  exists (Ok tt). do 2 eexists. split; [exact Ea|]. split; [exact Eb|]. eauto.
Qed.

(** ** Confirm *)

Lemma cn_confirm_total s sc s1 e1 s2 e2 :
  e1 <> Infinity -> e2 <> Infinity -> wf_bytes (sae_kck s) ->
  exists v, cn_confirm s sc s1 e1 s2 e2 = Val v /\ arr 32 v.
Proof.
  intros H1 H2 Hw. unfold cn_confirm.
  destruct e1 as [|x1 y1], e2 as [|x2 y2]; try done. cbn [point_to_bin expect rbind].
  eexists. split; [done|]. apply hmac_sha256_arr; [done|].
  unfold scalar_to_bin, scalar_pad. auto 12 with bytes.
Qed.

Lemma cn_confirm_kck s t sc s1 e1 s2 e2 :
  sae_kck s = sae_kck t -> cn_confirm s sc s1 e1 s2 e2 = cn_confirm t sc s1 e1 s2 e2.
Proof. intros E. unfold cn_confirm. by rewrite E. Qed.

(** A confirm is accepted by the other end of the same exchange, and once
    accepted it is not accepted again. *)
Lemma confirm_accepted a b m a' :
  heard a b -> heard b a -> sae_kck a = sae_kck b -> wf_bytes (sae_kck a) ->
  commit_element a <> Infinity -> commit_element b <> Infinity ->
  0 <= send_confirm a < 0xffff ->
  write_confirm a = Val (Ok m, a') ->
  send_confirm a' = send_confirm a + 1 /\
  check_confirm b m =
    Val (if default (-1) (last_peer_send_confirm b) <? send_confirm a'
         then (Ok tt, b <| last_peer_send_confirm := Some (send_confirm a') |>)
         else (Err ReplayedConfirm, b)).
Proof.
  intros (Ha1 & Ha2 & _) (Hb1 & Hb2 & _) Hk Hw Hfa Hfb Hs Hm.
  unfold write_confirm in Hm. rewrite (proj2 (Z.eqb_neq _ _)) in Hm by lia.
  rewrite Ha1, Ha2 in Hm. cbn [expect rbind] in Hm. fields_in Hm.
  destruct (cn_confirm_total a (send_confirm a + 1) (commit_scalar a) (commit_element a)
              (commit_scalar b) (commit_element b)) as (v & Hv & Hvl & Hvw); try done.
  rewrite Hv in Hm. cbn [rbind] in Hm. injection Hm as <- <-. fields. split; [done|].
  unfold check_confirm.
  assert (Hlen : length (le_bytes 2 (send_confirm a + 1) ++ v) = 34%nat)
    by (rewrite length_app, length_le_bytes; lia).
  rewrite Hlen. cbn [Nat.ltb Nat.leb Nat.add]. rewrite slice_ok by lia. cbn [rbind].
  assert (Hsub : sub (le_bytes 2 (send_confirm a + 1) ++ v) 0 2 = le_bytes 2 (send_confirm a + 1))
    by (rewrite sub_app_l by (rewrite ?length_le_bytes; lia);
        apply sub_all; by rewrite length_le_bytes).
  rewrite Hsub, le_bytes_small by (simpl; lia). rewrite Hb1, Hb2.
  rewrite (cn_confirm_kck b a) by done.
  rewrite Hv. cbn [rbind]. rewrite slice_ok by lia. cbn [rbind].
  assert (Hgiven : sub (le_bytes 2 (send_confirm a + 1) ++ v) 2 34 = v)
    by (rewrite sub_app_r, length_le_bytes by (rewrite ?length_le_bytes; lia);
        apply sub_whole; lia).
  change (2 + 32)%nat with 34%nat. rewrite Hgiven.
  rewrite constant_time_eq_spec, beq_refl by done. cbn [negb].
  destruct (last_peer_send_confirm b) as [h|]; cbn [default].
  - unfold id. rewrite Z.leb_antisym. by destruct (h <? send_confirm a + 1).
  - rewrite (proj2 (Z.ltb_lt _ _)) by lia. done.
Qed.

(** ** Commit messages *)

Lemma commit_core s xy :
  point_to_bin (commit_element s) = Some xy -> arr 64 xy ->
  write_commit s = Val ((le_bytes 2 SAE_GROUP_19 ++ scalar_to_bin (commit_scalar s) ++ xy)
                        ++ rejected_groups_element (own_rejected_groups s)) /\
  length (le_bytes 2 SAE_GROUP_19 ++ scalar_to_bin (commit_scalar s) ++ xy) = COMMIT_LEN.
Proof.
  intros H [Hl _]. unfold write_commit. rewrite H. cbn [expect rbind].
  rewrite <- !app_assoc. split; [done|].
  unfold scalar_to_bin, scalar_pad. rewrite !length_app, length_le_bytes, length_be_bytes, Hl. done.
Qed.

(** The list [set_rejected_groups] stores: not empty, whole identifiers, not
    group 19, short enough for one element. *)
Definition own_groups_ok (o : option bytes) : Prop :=
  match o with
  | None => True
  | Some g => g <> [] /\ (length g mod 2 = 0)%nat /\ (length g <= 254)%nat /\
              has_group_19 g = false
  end.

Lemma set_rejected_groups_ok s groups s' :
  set_rejected_groups s groups = (Ok tt, s') ->
  Forall (fun g => 0 <= g < 2 ^ 16) groups ->
  own_groups_ok (own_rejected_groups s') /\ wf_bytes (default [] (own_rejected_groups s')).
Proof.
  intros H Hg. destruct groups as [|g l]; unfold set_rejected_groups in H.
  { injection H as <-. fields. split; [done|]. constructor. }
  assert (Hne : g :: l <> []) by done. set (gs := g :: l) in *. clearbody gs.
  destruct (existsb (Z.eqb SAE_GROUP_19) gs) eqn:E1; [done|].
  destruct (Nat.ltb_spec 127 (length gs)); [done|]. cbn [orb] in H.
  injection H as <-. fields. unfold own_groups_ok. cbn [default]. unfold id.
  assert (Hlen : forall k, length (concat (map (le_bytes 2) k)) = (2 * length k)%nat).
  { intros k. induction k as [|x k IH]; [done|]. cbn [map concat].
    rewrite length_app, length_le_bytes, IH. cbn [length]. lia. }
  rewrite Hlen. split; [split; [|split; [|split]]|].
  - intros E. apply (f_equal length) in E. rewrite Hlen in E.
    destruct gs; [done|cbn in E; lia].
  - rewrite Nat.mul_comm. apply Nat.Div0.mod_mul.
  - lia.
  - clear H0 Hlen Hne. induction gs as [|x k IH]; [done|].
    apply Forall_cons in Hg as [Hx Hk]. cbn [existsb] in E1. apply orb_false_iff in E1 as [E1 E2].
    cbn [map concat]. destruct (le_bytes 2 x) as [|a [|b [|? ?]]] eqn:Eb;
      pose proof (length_le_bytes 2 x) as Hl; rewrite Eb in Hl; try done.
    cbn [app has_group_19]. rewrite <- Eb, le_bytes_small by (simpl; lia).
    rewrite Z.eqb_sym, E1 || rewrite E1. cbn [orb]. by apply IH.
  - clear. induction gs as [|x k IH]; [constructor|]. cbn [map concat].
    apply wf_bytes_app; [apply wf_le_bytes|done].
Qed.

Lemma peer_commit_loop core own :
  length core = COMMIT_LEN -> own_groups_ok own ->
  loop (S (length (core ++ rejected_groups_element own)))
       (peer_commit_step (core ++ rejected_groups_element own)) (COMMIT_LEN, None) = Val (Ok own).
Proof.
  intros Hl Hg. destruct own as [g|].
  - destruct Hg as (Hne & Hev & H254 & H19). unfold rejected_groups_element.
    assert (Hlg : (0 < length g)%nat) by (destruct g; [done|simpl; lia]).
    set (body := core ++ _).
    assert (Hbl : length body = (COMMIT_LEN + 3 + length g)%nat)
      by (unfold body; rewrite !length_app, Hl; cbn [length]; lia).
    assert (Hn : forall i, (i < 3)%nat -> idx body (COMMIT_LEN + i)
                 = Val (byte_at [255; u8 (Z.of_nat (1 + length g)); 92] i)).
    { intros i Hi. rewrite idx_ok by lia. f_equal. unfold body.
      rewrite app_nth2 by lia. rewrite Hl, app_nth1 by (simpl; lia). f_equal. lia. }
    assert (Hlen : Z.to_nat (u8 (Z.of_nat (1 + length g))) = (1 + length g)%nat)
      by (unfold u8; rewrite Z.mod_small; lia).
    assert (Hs : sub body (COMMIT_LEN + 3) (COMMIT_LEN + 3 + length g) = g).
    { unfold body. rewrite sub_app_r by lia. rewrite sub_app_r by (cbn [length]; lia).
      apply sub_whole; cbn [length]; lia. }
    remember (length body) as m eqn:Hm.
    destruct m as [|n]; [unfold COMMIT_LEN in *; lia|].
    cbn [loop]. unfold peer_commit_step at 1. rewrite <- Hm.
    rewrite (proj2 (Nat.ltb_lt _ _)) by lia. rewrite (proj2 (Nat.ltb_ge _ 2)) by lia.
    rewrite (Hn 1%nat) by lia. cbn [nth rbind]. rewrite Hlen.
    rewrite (proj2 (Nat.ltb_ge _ _)) by lia.
    rewrite <- (Nat.add_0_r COMMIT_LEN) at 1. rewrite (Hn 0%nat) by lia. cbn [nth rbind].
    rewrite (Hn 2%nat) by lia. cbn [nth]. unfold rmap. cbn [rbind negb andb Z.eqb Pos.eqb Nat.leb].
    replace (COMMIT_LEN + (2 + (1 + length g)))%nat with (COMMIT_LEN + 3 + length g)%nat by lia.
    rewrite slice_ok, Hs by lia. cbn [rbind].
    rewrite Hev, H19. rewrite (proj2 (Nat.eqb_neq _ 0)) by lia. cbn [orb negb Nat.eqb rbind].
    rewrite (proj2 (Nat.leb_le _ _)) by lia. cbn [rbind negb].
    destruct n as [|n]; [unfold COMMIT_LEN in *; lia|]. cbn [loop].
    unfold peer_commit_step at 1. rewrite <- Hm, (proj2 (Nat.ltb_ge _ _)) by lia. done.
  - unfold rejected_groups_element. rewrite app_nil_r, Hl. cbn [loop].
    unfold peer_commit_step at 1. by rewrite Hl, Nat.ltb_irrefl.
Qed.

Definition store_commit (s : Sae) (v : Z) (Q : Point) (rejected : option bytes) : Sae :=
  s <| peer_scalar := Some v |> <| peer_element := Some Q |> <| peer_rejected_groups := rejected |>.

Lemma parse_write_commit a b e body :
  repr (commit_element a) e -> commit_element a <> Infinity ->
  1 < commit_scalar a < curve_n -> own_groups_ok (own_rejected_groups a) ->
  write_commit a = Val body ->
  parse_peer_commit b body =
    Val (Ok tt, store_commit b (commit_scalar a) (commit_element a) (own_rejected_groups a)).
Proof.
  intros Hr Hf Hs Hg Hw. pose proof curve_n_bound as Hn.
  destruct (point_bin_roundtrip _ _ Hr Hf) as (xy & Hb & Ha & Hd).
  destruct (commit_core a xy Hb Ha) as [E Hl]. rewrite E in Hw. injection Hw as <-.
  set (core := le_bytes 2 SAE_GROUP_19 ++ scalar_to_bin (commit_scalar a) ++ xy) in *.
  set (ext := rejected_groups_element (own_rejected_groups a)).
  assert (Hlen : (COMMIT_LEN <= length (core ++ ext))%nat) by (rewrite length_app; lia).
  assert (H1 : sub (core ++ ext) 0 2 = le_bytes 2 SAE_GROUP_19).
  { unfold core. rewrite <- !app_assoc, sub_app_l by (rewrite ?length_le_bytes; lia).
    apply sub_all. by rewrite length_le_bytes. }
  assert (H2 : sub (core ++ ext) 2 34 = scalar_to_bin (commit_scalar a)).
  { unfold core. rewrite <- !app_assoc. apply sub_exact; by rewrite ?length_le_bytes. }
  assert (H3 : sub (core ++ ext) 34 COMMIT_LEN = xy).
  { unfold core. rewrite <- !app_assoc, (app_assoc (le_bytes 2 _)).
    apply sub_exact; rewrite length_app, length_le_bytes; unfold scalar_to_bin, scalar_pad;
      rewrite length_be_bytes; [done|]. by rewrite (arr_length _ _ Ha). }
  unfold parse_peer_commit. rewrite (proj2 (Nat.ltb_ge _ _)) by done.
  assert (COMMIT_LEN = 98%nat) as E98 by done.
  rewrite slice_ok, H1 by lia. cbn [rbind]. rewrite le_bytes_small by (unfold SAE_GROUP_19; simpl; lia).
  rewrite Z.eqb_refl. cbn [negb]. change (2 + PRIME_LEN)%nat with 34%nat.
  rewrite slice_ok, H2 by lia. cbn [rbind]. unfold scalar_to_bin, scalar_pad.
  rewrite be_bytes_small by lia.
  rewrite (proj2 (Z.leb_gt _ _)), (proj2 (Z.leb_gt _ _)) by lia. cbn [orb].
  rewrite slice_ok, H3 by lia. cbn [rbind]. rewrite Hd. cbn [rbind].
  unfold ext. rewrite peer_commit_loop by done. done.
Qed.

Lemma heard_stored a b v :
  v = store_commit b (commit_scalar a) (commit_element a) (own_rejected_groups a) -> heard v a.
Proof. intros ->. done. Qed.

Local Ltac answer := repeat eexists; simpl; auto.

(** [parse_peer_commit] answers on every octet string: an error leaves the
    exchange exactly as it was, and an accepted commit stores a scalar strictly
    between 1 and the group order and a finite point of the curve, both as they
    stand in the message. *)
Lemma parse_peer_commit_total s body :
  wf_bytes body ->
  exists r s', parse_peer_commit s body = Val (r, s') /\
    match r with
    | Err _ => s' = s
    | Ok _ => exists v Q rejected, s' = store_commit s v Q rejected /\ 1 < v < curve_n /\
        Q <> Infinity /\ (exists p, repr Q p) /\ wf_bytes (default [] rejected) /\
        sub body 0 2 = le_bytes 2 SAE_GROUP_19 /\ sub body 2 34 = scalar_to_bin v /\
        point_to_bin Q = Some (sub body 34 98)
    end.
Proof.
  intros Hw. unfold parse_peer_commit.
  destruct (Nat.ltb_spec (length body) COMMIT_LEN) as [|Hl]; [answer|].
  assert (COMMIT_LEN = 98%nat) as E98 by done. rewrite E98 in *.
  change (2 + PRIME_LEN)%nat with 34%nat.
  rewrite slice_ok by lia. cbn [rbind].
  destruct (Z.eqb_spec (le_val (sub body 0 2)) SAE_GROUP_19) as [Hg|]; cbn [negb]; [|answer].
  rewrite slice_ok by lia. cbn [rbind].
  destruct (Z.leb_spec (be_val (sub body 2 34)) 1); [cbn [orb]; answer|].
  destruct (Z.leb_spec curve_n (be_val (sub body 2 34))); cbn [orb]; [answer|].
  rewrite slice_ok by lia. cbn [rbind].
  destruct (point_from_bin_total (sub body 34 98)) as ([Q|] & -> & HQ);
    [auto with bytes| |cbn [rbind]; answer].
  cbn [rbind]. destruct (HQ Q eq_refl) as (Hf & Hr & Hbin).
  destruct (loop_spec (fun st : nat * option bytes => wf_bytes (default [] st.2))
              (fun r => match r with Ok rej => wf_bytes (default [] rej) | Err _ => True end)
              (fun st => length body - st.1)%nat (peer_commit_step body))
    with (fuel := S (length body)) (s := (98%nat, @None bytes)) as (r & -> & Hrej); [|constructor|simpl; lia|].
  - intros [pos rej] Hwr. cbn [snd] in Hwr. unfold peer_commit_step. cbn [fst].
    destruct (Nat.ltb_spec pos (length body)); [|answer].
    destruct (Nat.ltb_spec (length body - pos) 2); [answer|].
    rewrite idx_ok by lia. cbn [rbind]. set (len := Z.to_nat _). clearbody len.
    destruct (Nat.ltb_spec (length body) (pos + (2 + len))); [answer|].
    rewrite idx_ok by lia. cbn [rbind].
    assert (Hm : (length body - (pos + (2 + len)) < length body - pos)%nat) by lia.
    destruct (byte_at body pos =? 255); cbn [andb negb]; [|answer].
    destruct (Nat.leb_spec 1 len); cbn [andb rbind negb]; [|answer].
    rewrite idx_ok by lia. unfold rmap. cbn [rbind].
    destruct (byte_at body (pos + 2) =? 92); cbn [negb]; [|answer].
    destruct rej; [answer|]. rewrite slice_ok by lia. cbn [rbind].
    destruct (_ || _); [answer|]. destruct (has_group_19 _); answer. apply wf_sub, Hw.
  - cbn [rbind]. destruct r as [rej|e]; [|answer].
    do 2 eexists. split; [done|]. exists (be_val (sub body 2 34)), Q, rej.
    split; [done|]. split; [lia|]. split; [done|]. split; [done|]. split; [done|].
    rewrite <- Hg. unfold scalar_to_bin, scalar_pad, PRIME_LEN.
    rewrite (be_bytes_arr 32), (le_bytes_arr 2) by auto with bytes. done.
Qed.

(** ** Password elements *)

Lemma max_min_addr_sym a b : max_min_addr a b = max_min_addr b a.
Proof.
  unfold max_min_addr. destruct (lex_leb b a) eqn:E1, (lex_leb a b) eqn:E2; try done.
  - by rewrite (lex_leb_antisym a b).
  - destruct (lex_leb_total a b); congruence.
Qed.

Lemma derive_pwe_symmetric pt a b : derive_pwe_from_pt pt a b = derive_pwe_from_pt pt b a.
Proof. unfold derive_pwe_from_pt. by rewrite max_min_addr_sym. Qed.

Lemma hkdf_expand_ok prk info n :
  wf_bytes prk -> wf_bytes info -> (n <= 254 * 32)%nat ->
  exists out, hkdf_expand prk info n = Val out /\ arr n out.
Proof.
  intros Hp Hi Hn. unfold hkdf_expand.
  apply (loop_spec (fun st => let '(out, t, c) := st in
    wf_bytes out /\ wf_bytes t /\ 1 <= c /\ Z.of_nat (length out) = 32 * (c - 1) /\ c <= 255)
    (arr n) (fun st => let '(out, _, _) := st in n - length out)%nat).
  - intros [[out t] c] (Ho & Ht & Hc & Hl & Hcb). unfold hkdf_expand_step.
    destruct (Nat.ltb_spec (length out) n).
    + rewrite (proj2 (Z.eqb_neq _ _)) by lia. eexists. split; [done|].
      destruct (hmac_sha256_arr prk (t ++ info ++ [c])) as [Hl' Hw']; [done| |].
      { repeat apply wf_bytes_app; try done. apply wf_bytes_cons; [unfold is_byte; lia|constructor]. }
      rewrite length_app, Hl'. split; [|lia].
      split; [auto with bytes|]. split; [done|]. lia.
    + eexists. split; [done|]. split; [rewrite length_take; lia|auto with bytes].
  - simpl. split; [constructor|]. split; [constructor|]. lia.
  - simpl. lia.
Qed.

Lemma sswu_ok okm : arr 48 okm -> exists Q p, sswu_from_okm okm = Val Q /\ repr Q p.
Proof.
  intros [Hl _]. unfold sswu_from_okm. rewrite Hl. cbn [Nat.eqb negb].
  destruct (from_p256_repr (map_to_curve okm)) as (Q & H & Hr). eauto.
Qed.

Lemma derive_pt_ok ssid password :
  wf_bytes ssid -> wf_bytes password ->
  exists Q p, derive_pt ssid password None = Val Q /\ repr Q p.
Proof.
  intros Hs Hp. unfold derive_pt.
  assert (Hseed : wf_bytes (hkdf_extract ssid [password])).
  { apply (arr_wf 32), hmac_sha256_arr; [done|]. simpl. by rewrite app_nil_r. }
  change (PRIME_LEN + (PRIME_LEN + 1) / 2)%nat with 48%nat.
  destruct (hkdf_expand_ok (hkdf_extract ssid [password]) (H2E_U 0x31) 48) as (o1 & -> & H1);
    [done|by apply (bool_decide_unpack _)|lia|]. cbn [rbind].
  destruct (sswu_ok o1 H1) as (Q1 & p1 & -> & R1). cbn [rbind].
  destruct (hkdf_expand_ok (hkdf_extract ssid [password]) (H2E_U 0x32) 48) as (o2 & -> & H2);
    [done|by apply (bool_decide_unpack _)|lia|]. cbn [rbind].
  destruct (sswu_ok o2 H2) as (Q2 & p2 & -> & R2). cbn [rbind].
  destruct (point_add_repr _ _ _ _ R1 R2) as (R & -> & HR). eauto.
Qed.

(** The two ends of an H2E exchange derive the same password element, and
    exactly one of two distinct addresses is the higher one. *)
Lemma new_h2e_pair ssid password a b :
  wf_bytes ssid -> wf_bytes password -> a <> b ->
  exists Q p sa sb, new_h2e ssid password None a b = Val sa /\
    new_h2e ssid password None b a = Val sb /\ repr Q p /\
    sa = sae_with Q (own_addr_higher sa) /\ sb = sae_with Q (own_addr_higher sb) /\
    own_addr_higher sa = negb (own_addr_higher sb).
Proof.
  intros Hs Hp Hab. unfold new_h2e.
  destruct (derive_pt_ok ssid password Hs Hp) as (T & t & -> & HT). cbn [rbind].
  rewrite (derive_pwe_symmetric T b a). unfold derive_pwe_from_pt.
  destruct (max_min_addr a b) as [mx mn]. set (v := _ + 1).
  destruct (scalar_mul_repr v T t HT) as (s & Q & _ & -> & HQ). cbn [rbind].
  exists Q, (pmul t s). do 2 eexists. do 2 (split; [done|]). split; [done|].
  do 2 (split; [done|]). cbn [own_addr_higher sae_with].
  destruct (lex_leb a b) eqn:E1, (lex_leb b a) eqn:E2; try done.
  - by destruct Hab; apply lex_leb_antisym.
  - destruct (lex_leb_total a b); congruence.
Qed.

(** *** Hunting and pecking

    The loop that always runs its 40 iterations computes what a search that
    stops at the first password element would. *)
Fixpoint hunt_first (password salt : bytes) (counters : list Z) : res (option Point) :=
  match counters with
  | [] => Val None
  | c :: rest =>
      let! found := hunt_step password salt None c in
      match found with
      | Some q => Val (Some q)
      | None => hunt_first password salt rest
      end
  end.

Lemma point_from_compressed_total b : exists o, point_from_compressed b = Val o.
Proof.
  unfold point_from_compressed. destruct (from_sec1_bytes b) as [p|]; [|eauto].
  destruct (from_p256_repr p) as (Q & H & _). unfold rmap. rewrite H. simpl. eauto.
Qed.

(** ** OWE *)

Lemma acceptable_scalar_repr b :
  arr 32 b -> acceptable_scalar b = true -> exists s, secret_scalar b = Val s /\ be_val (to_repr s) <> 0.
Proof.
  intros Hb. unfold acceptable_scalar, secret_scalar. destruct (from_repr b) as [s|] eqn:E; [|by rewrite andb_false_r].
  rewrite andb_true_r. intros H. exists s. split; [done|]. rewrite (to_from_repr b s E). intros Hz.
  assert (b = replicate 32 0) as ->.
  { rewrite <- (be_bytes_arr 32 b Hb), Hz. by vm_compute. }
  vm_compute in H. discriminate.
Qed.

Lemma owe_public_ok b :
  arr 32 b -> acceptable_scalar b = true -> exists x, owe_public b = Val x /\ arr 32 x.
Proof.
  intros Hb Ha. destruct (acceptable_scalar_repr b Hb Ha) as (s & Hs & Hnz). unfold owe_public.
  destruct (from_p256_repr generator_pt) as (G & -> & [_ HG]). cbn [rbind]. rewrite HG, Hs. cbn [expect rbind].
  destruct (from_p256_repr (pmul generator_pt s)) as (Q & -> & [HQ HQ']). cbn [rbind].
  destruct Q as [|x y].
  - exfalso. cbn in HQ'. injection HQ' as Hi. apply Hnz, generator_order. by apply is_identity_true.
  - exists (scalar_pad x PRIME_LEN). split; [done|]. apply arr_be_bytes.
Qed.

(** What both ends compute from the abscissa of the shared point. *)
Definition owe_shared (Q : Point) (station_public_x ap_public_x : bytes) (group : Z) : res (option (bytes * bytes)) :=
  match Q with
  | Infinity => Val None
  | Affine x _ =>
      let prk := hkdf_extract (station_public_x ++ ap_public_x ++ le_bytes 2 group) [scalar_pad x PRIME_LEN] in
      let! pmk := hkdf_expand prk OWE_LABEL 32 in
      let! pmkid := slice (sha256 (station_public_x ++ ap_public_x)) 0 16 in
      Val (Some (pmk, pmkid))
  end.

Lemma owe_shared_ok Q sta_pub ap_pub g :
  wf_bytes sta_pub -> wf_bytes ap_pub ->
  exists o, owe_shared Q sta_pub ap_pub g = Val o /\
    (forall pmk pmkid, o = Some (pmk, pmkid) -> arr 32 pmk /\ arr 16 pmkid).
Proof.
  intros Hs Ha. unfold owe_shared. destruct Q as [|x y]; [by eexists|].
  destruct (hkdf_expand_ok (hkdf_extract (sta_pub ++ ap_pub ++ le_bytes 2 g) [scalar_pad x PRIME_LEN]) OWE_LABEL 32)
    as (pmk & -> & Hp); [| |lia|].
  - apply hmac_sha256_arr; [auto with bytes|]. cbn [concat]. rewrite app_nil_r. apply wf_be_bytes.
  - by apply (bool_decide_unpack _).
  - cbn [rbind]. destruct (sha256_arr (sta_pub ++ ap_pub)) as [Hl Hw]; [auto with bytes|].
    rewrite slice_ok by lia. cbn [rbind]. eexists. split; [done|]. intros ? ? [= <- <-]. split; [done|].
    apply arr_sub; [done|lia|lia].
Qed.

Lemma owe_shared_some Q sta_pub ap_pub g : Q <> Infinity -> wf_bytes sta_pub -> wf_bytes ap_pub ->
  exists pmk pmkid, owe_shared Q sta_pub ap_pub g = Val (Some (pmk, pmkid)) /\ arr 32 pmk /\ arr 16 pmkid.
Proof.
  intros HQ Hs Ha. destruct (owe_shared_ok Q sta_pub ap_pub g Hs Ha) as (o & E & Ho).
  destruct o as [[pmk pmkid]|]; [exists pmk, pmkid; split; [done|by apply Ho]|exfalso].
  destruct Q as [|x y]; [done|]. unfold owe_shared in E. apply rbind_val_inv in E as (k & _ & E).
  apply rbind_val_inv in E as (i & _ & E). discriminate E.
Qed.

Lemma owe_derive_shared private s peer q sta_pub ap_pub g :
  secret_scalar private = Val s -> from_sec1_bytes (0x02 :: peer) = Some q ->
  exists Q, owe_derive private peer sta_pub ap_pub g = owe_shared Q sta_pub ap_pub g /\ repr Q (pmul q s).
Proof.
  intros Hs Hq. unfold owe_derive, point_from_x, point_from_compressed. cbn [app]. rewrite Hq.
  destruct (from_p256_repr q) as (R & ER & [_ HR]). rewrite ER. unfold rmap, obind. cbn [rbind]. rewrite HR, Hs. cbn [expect rbind].
  destruct (from_p256_repr (pmul q s)) as (Q & -> & HQ). cbn [rbind]. exists Q. split; [|done].
  unfold owe_shared. by destruct Q.
Qed.

Lemma owe_derive_total private peer sta_pub ap_pub g :
  arr 32 private -> acceptable_scalar private = true -> wf_bytes sta_pub -> wf_bytes ap_pub ->
  exists o, owe_derive private peer sta_pub ap_pub g = Val o /\
    (forall pmk pmkid, o = Some (pmk, pmkid) -> arr 32 pmk /\ arr 16 pmkid).
Proof.
  intros Hp Ha Hs Hap. destruct (acceptable_scalar_repr private Hp Ha) as (s & Es & _).
  destruct (from_sec1_bytes (0x02 :: peer)) as [q|] eqn:Eq.
  - destruct (owe_derive_shared private s peer q sta_pub ap_pub g Es Eq) as (Q & -> & _).
    by apply owe_shared_ok.
  - exists None. split; [|done]. unfold owe_derive, point_from_x, point_from_compressed. cbn [app]. by rewrite Eq.
Qed.

Lemma hunt_step_total password salt found c :
  wf_bytes password -> wf_bytes salt -> is_byte c ->
  exists o, hunt_step password salt found c = Val o /\ (forall q, found = Some q -> o = Some q).
Proof.
  intros Hp Hs Hc. unfold hunt_step.
  destruct (hmac_sha256_arr salt (password ++ [c])) as [Hl Hw]; [done| |].
  { apply wf_bytes_app; [done|]. apply wf_bytes_cons; [done|constructor]. }
  destruct (sha256_prf_length (hmac_sha256 salt (password ++ [c])) HUNT_LABEL
              (scalar_pad curve_p PRIME_LEN) PRIME_LEN) as (v & -> & _);
    [done|by apply (bool_decide_unpack _)|apply wf_be_bytes|]. cbn [rbind].
  rewrite idx_ok by lia. cbn [rbind].
  destruct (point_from_compressed_total
    ([if Z.land (byte_at (hmac_sha256 salt (password ++ [c])) 31) 1 =? 1 then 3 else 2] ++
     (if be_val v <? curve_p then scalar_pad (be_val v) PRIME_LEN else scalar_pad 1 PRIME_LEN)))
    as (o & ->). cbn [rbind].
  destruct found, o; [| | destruct (_ <? _) |]; eexists; (split; [done|congruence]).
Qed.

Lemma hunt_found_kept password salt q counters :
  wf_bytes password -> wf_bytes salt -> Forall is_byte counters ->
  rfold (hunt_step password salt) (Some q) counters = Val (Some q).
Proof.
  intros Hp Hs. induction 1 as [|c l Hc Hl IH]; [done|]. cbn [rfold].
  destruct (hunt_step_total password salt (Some q) c) as (o & -> & Ho); try done.
  cbn [rbind]. by rewrite (Ho q eq_refl).
Qed.

(** C38: Hunting and pecking: the loop that always runs all its iterations (so
    that its duration does not reveal the password) computes the password
    element of the first counter that yields one, as a search that stops there
    would. *)
Theorem hunt_equiv password salt counters :
  wf_bytes password -> wf_bytes salt -> Forall is_byte counters ->
  rfold (hunt_step password salt) None counters = hunt_first password salt counters.
Proof.
  intros Hp Hs. induction 1 as [|c l Hc Hl IH]; [done|]. cbn [rfold hunt_first].
  destruct (hunt_step_total password salt None c) as (o & -> & _); try done.
  cbn [rbind]. destruct o as [q|]; [by apply hunt_found_kept|done].
Qed.

End Exchange.

(** * A concrete group

    The integers modulo [curve_n] under addition, with SEC1 framing (a
    non-zero element [z] is the "point" with coordinates [(z, 0)]): the
    witnesses of the properties about SAE evaluate on it. *)
Definition toy_elem : Type := { z : Z | (0 <=? z) && (z <? curve_n) = true }.

Lemma toy_mod_ok z : (0 <=? z mod curve_n) && (z mod curve_n <? curve_n) = true.
Proof.
  pose proof (Z.mod_pos_bound z curve_n eq_refl).
  apply andb_true_intro. split; [apply Z.leb_le|apply Z.ltb_lt]; lia.
Qed.

Definition toy_mod (z : Z) : toy_elem := exist _ (z mod curve_n) (toy_mod_ok z).

Lemma toy_eq (a b : toy_elem) : proj1_sig a = proj1_sig b -> a = b.
Proof. intros H. by apply sig_eq_pi; [intros ?; apply _|]. Qed.

Lemma toy_range (a : toy_elem) : 0 <= proj1_sig a < curve_n.
Proof. destruct a as [z H]. simpl. apply andb_prop in H as [H1 H2]. lia. Qed.

Lemma toy_mod_val (a : toy_elem) : toy_mod (proj1_sig a) = a.
Proof. apply toy_eq. simpl. apply Z.mod_small, toy_range. Qed.

Definition toy_decode (b : bytes) : option toy_elem :=
  if beq b (be_bytes 32 (be_val b)) && (be_val b <? curve_n) then Some (toy_mod (be_val b))
  else None.

(** The abscissa of [z] and of its opposite is the smaller of the two. *)
Definition toy_upper (z : toy_elem) : bool := curve_n <? 2 * proj1_sig z.
Definition toy_neg (z : toy_elem) : toy_elem := toy_mod (- proj1_sig z).
Definition toy_x (z : toy_elem) : Z := if toy_upper z then curve_n - proj1_sig z else proj1_sig z.
Definition toy_y (z : toy_elem) : Z := if toy_upper z then 1 else 0.

Definition toy_lift (x : bytes) (upper : bool) : option toy_elem :=
  match toy_decode x with
  | Some p => if negb (proj1_sig p =? 0) && negb (toy_upper p)
              then Some (if upper then toy_neg p else p) else None
  | None => None
  end.

Definition toy_from_sec1 (b : bytes) : option toy_elem :=
  match b with
  | 0x04 :: xy =>
      if beq (drop 32 xy) (be_bytes 32 0) then toy_lift (take 32 xy) false
      else if beq (drop 32 xy) (be_bytes 32 1) then toy_lift (take 32 xy) true
      else None
  | 0x02 :: x => toy_lift x false
  | 0x03 :: x => toy_lift x true
  | _ => None
  end.

#[export] Instance toy_p256 : P256 := {|
  ProjectivePoint := toy_elem;
  Scalar := toy_elem;
  identity := toy_mod 0;
  is_identity p := proj1_sig p =? 0;
  generator_pt := toy_mod 1;
  padd p q := toy_mod (proj1_sig p + proj1_sig q);
  pneg := toy_neg;
  pmul p s := toy_mod (proj1_sig p * proj1_sig s);
  from_sec1_bytes := toy_from_sec1;
  to_sec1_point c p :=
    if c then (if toy_upper p then 0x03 else 0x02) :: be_bytes 32 (toy_x p)
    else 0x04 :: be_bytes 32 (toy_x p) ++ be_bytes 32 (toy_y p);
  map_to_curve b := toy_mod (be_val b);
  sadd s t := toy_mod (proj1_sig s + proj1_sig t);
  from_repr := toy_decode;
  to_repr s := be_bytes 32 (proj1_sig s)
|}.

Lemma toy_bytes (a : toy_elem) : be_val (be_bytes 32 (proj1_sig a)) = proj1_sig a.
Proof.
  pose proof (toy_range a). pose proof curve_n_bound.
  apply be_bytes_small. unfold PRIME_LEN in *. lia.
Qed.

Lemma toy_decode_encode (a : toy_elem) : toy_decode (be_bytes 32 (proj1_sig a)) = Some a.
Proof.
  unfold toy_decode. rewrite toy_bytes, beq_refl.
  rewrite (proj2 (Z.ltb_lt _ _)) by apply toy_range. simpl. by rewrite toy_mod_val.
Qed.

Lemma toy_decode_Some b p :
  toy_decode b = Some p -> b = be_bytes 32 (proj1_sig p) /\ be_val b < curve_n.
Proof.
  unfold toy_decode. destruct (beq b _) eqn:E1; [|done].
  destruct (Z.ltb_spec (be_val b) curve_n) as [Hlt|]; [|done]. simpl.
  intros [= <-]. apply beq_true in E1.
  assert (Hb : 0 <= be_val b) by (apply be_val_bound; rewrite E1; auto with bytes).
  split; [|done]. simpl. by rewrite Z.mod_small by lia.
Qed.

Lemma toy_x_range z : proj1_sig z <> 0 -> 0 < toy_x z /\ 2 * toy_x z < curve_n.
Proof.
  intros Hz. pose proof (toy_range z). assert (Hodd : curve_n = 2 * (curve_n / 2) + 1) by (by vm_compute).
  unfold toy_x, toy_upper. destruct (Z.ltb_spec curve_n (2 * proj1_sig z)); lia.
Qed.

Lemma toy_neg_neg z : toy_neg (toy_neg z) = z.
Proof.
  apply toy_eq. pose proof (toy_range z). unfold toy_neg. simpl.
  rewrite <- (Z.sub_0_l (_ mod _)), Zminus_mod_idemp_r, Z.sub_0_l, Z.opp_involutive. by apply Z.mod_small.
Qed.

Lemma toy_neg_val z : proj1_sig z <> 0 -> proj1_sig (toy_neg z) = curve_n - proj1_sig z.
Proof.
  intros Hz. pose proof (toy_range z). unfold toy_neg. simpl.
  rewrite <- (Z.mod_add _ 1) by done. rewrite Z.mod_small; lia.
Qed.

(** Lifting the abscissa gives the point back. *)
Lemma toy_lift_x z : proj1_sig z <> 0 -> toy_lift (be_bytes 32 (toy_x z)) (toy_upper z) = Some z.
Proof.
  intros Hz. pose proof (toy_x_range z Hz) as Hx. pose proof (toy_range z) as Hr.
  assert (Hm : proj1_sig (toy_mod (toy_x z)) = toy_x z) by (simpl; apply Z.mod_small; lia).
  unfold toy_lift. rewrite <- Hm, toy_decode_encode, Hm.
  destruct (Z.eqb_spec (toy_x z) 0); [lia|]. cbn [negb andb].
  assert (Hu : toy_upper (toy_mod (toy_x z)) = false) by (unfold toy_upper; rewrite Hm; apply Z.ltb_ge; lia).
  rewrite Hu. cbn [negb]. f_equal. apply toy_eq. unfold toy_x in *.
  destruct (toy_upper z); [|done]. rewrite toy_neg_val, Hm by lia. lia.
Qed.

Lemma toy_lift_inv x upper p : wf_bytes x -> toy_lift x upper = Some p ->
  proj1_sig p <> 0 /\ x = be_bytes 32 (toy_x p) /\ toy_upper p = upper.
Proof.
  intros Hw. unfold toy_lift. destruct (toy_decode x) as [q|] eqn:E; [|done].
  destruct (Z.eqb_spec (proj1_sig q) 0) as [|Hq]; [done|]. destruct (toy_upper q) eqn:Eu; [done|].
  cbn [negb andb]. intros [= <-]. apply toy_decode_Some in E as [Ex _]. pose proof (toy_range q) as Hr.
  assert (Hlt : 2 * proj1_sig q < curve_n).
  { unfold toy_upper in Eu. apply Z.ltb_ge in Eu.
    assert (Hodd : curve_n = 2 * (curve_n / 2) + 1) by (by vm_compute). lia. }
  destruct upper.
  - pose proof (toy_neg_val q Hq) as Hv. unfold toy_x, toy_upper. rewrite Hv.
    rewrite (proj2 (Z.ltb_lt _ _)) by lia. split; [lia|]. split; [|done]. rewrite Ex. f_equal. lia.
  - unfold toy_x. by rewrite Eu.
Qed.

Lemma toy_lift_neg x z : toy_lift x true = Some z -> toy_lift x false = Some (toy_neg z).
Proof.
  unfold toy_lift. destruct (toy_decode x) as [q|]; [|done]. destruct (negb _ && negb _); [|done].
  intros [= <-]. by rewrite toy_neg_neg.
Qed.

Lemma toy_x_neg z : proj1_sig z <> 0 -> toy_x (toy_neg z) = toy_x z.
Proof.
  intros Hz. pose proof (toy_range z). pose proof (toy_neg_val z Hz) as Hv.
  assert (Hodd : curve_n = 2 * (curve_n / 2) + 1) by (by vm_compute).
  unfold toy_x, toy_upper. rewrite Hv.
  destruct (Z.ltb_spec curve_n (2 * (curve_n - proj1_sig z))), (Z.ltb_spec curve_n (2 * proj1_sig z)); lia.
Qed.

#[export] Instance toy_p256_ok : P256Ok toy_p256.
Proof.
  assert (Hn : curve_n <> 0) by done.
  assert (Hy : forall z, be_bytes 32 (toy_y z) = if toy_upper z then be_bytes 32 1 else be_bytes 32 0)
    by (intros z; unfold toy_y; by destruct (toy_upper z)).
  assert (H01 : beq (be_bytes 32 1) (be_bytes 32 0) = false) by (by vm_compute).
  constructor; simpl.
  - intros p. rewrite Z.eqb_eq. split; [intros H; apply toy_eq|intros ->]; simpl; [|done].
    by rewrite H.
  - intros p q. apply toy_eq. simpl. f_equal. lia.
  - intros p q r. apply toy_eq. simpl.
    rewrite Zplus_mod_idemp_r, Zplus_mod_idemp_l. f_equal. lia.
  - intros p. apply toy_eq. simpl. rewrite Z.add_0_r. apply Z.mod_small, toy_range.
  - intros p. apply toy_eq. simpl. rewrite Zplus_mod_idemp_r. by rewrite Z.add_opp_diag_r.
  - intros p s t. apply toy_eq. simpl.
    rewrite Zmult_mod_idemp_r, <- Zplus_mod. f_equal. lia.
  - intros p q s. apply toy_eq. simpl.
    rewrite Zmult_mod_idemp_l, <- Zplus_mod. f_equal. lia.
  - intros p s t. apply toy_eq. simpl. rewrite !Zmult_mod_idemp_l. f_equal. lia.
  - intros p _. eexists. split; [|done]. split; [by rewrite length_app, !length_be_bytes|].
    auto with bytes.
  - intros c p Hp%Z.eqb_neq. pose proof (toy_lift_x p Hp) as Hl. destruct c; simpl.
    + by destruct (toy_upper p).
    + rewrite take_app_length', drop_app_length' by (by rewrite length_be_bytes).
      rewrite Hy. destruct (toy_upper p); [|by rewrite beq_refl]. by rewrite H01, beq_refl.
  - intros xy p [Hl Hw] H.
    assert (Hwt : wf_bytes (take 32 xy)) by auto with bytes.
    destruct (beq (drop 32 xy) (be_bytes 32 0)) eqn:E0.
    + apply beq_true in E0. apply toy_lift_inv in H as (Hp & Ex & Eu); [|done].
      split; [by apply Z.eqb_neq|]. rewrite Hy, Eu, <- Ex, <- E0. by rewrite take_drop.
    + destruct (beq (drop 32 xy) (be_bytes 32 1)) eqn:E1; [|done]. apply beq_true in E1.
      apply toy_lift_inv in H as (Hp & Ex & Eu); [|done].
      split; [by apply Z.eqb_neq|]. rewrite Hy, Eu, <- Ex, <- E1. by rewrite take_drop.
  - intros b Hb Hlt. unfold toy_decode. rewrite (be_bytes_arr 32 b Hb), beq_refl.
    rewrite (proj2 (Z.ltb_lt _ _)) by done. eauto.
  - intros b s H. apply toy_decode_Some in H as [_ H]. exact H.
  - intros b s H. apply toy_decode_Some in H as [H _]. by symmetry.
  - intros s. apply toy_decode_encode.
  - intros s. auto with bytes.
  - intros s t. rewrite !toy_bytes. apply (toy_bytes (toy_mod _)).
  - intros s. rewrite toy_bytes. change (proj1_sig (toy_mod 1)) with 1. rewrite Z.mul_1_l.
    pose proof (toy_range s). rewrite Z.mod_small by lia. by intros ->%Z.eqb_eq.
  - intros p s Hz%Z.eqb_eq. rewrite toy_bytes. pose proof (toy_range p). pose proof (toy_range s).
    destruct (order_no_zero_divisors (proj1_sig p) (proj1_sig s)) as [E|E]; [done..|left; by apply Z.eqb_eq|by right].
  - intros p x y Hp%Z.eqb_neq E [Hx _] _. injection E as E.
    apply app_inj_1 in E as [<- _]; [|by rewrite length_be_bytes]. pose proof (toy_lift_x p Hp) as Hl.
    destruct (toy_upper p); [|by eauto]. exists (toy_neg p). split; [by apply toy_lift_neg|by right].
  - intros p x y Hp%Z.eqb_neq E [Hx _] _. injection E as E.
    apply app_inj_1 in E as [<- _]; [|by rewrite length_be_bytes]. rewrite toy_x_neg by done.
    eexists. split; [|done]. auto with bytes.
Qed.

(** * The exchange *)

Section Agreement.
Context {P : Primitives} {Pok : PrimitivesOk P} {C : P256} {Cok : P256Ok C}.

Lemma prepare_commit_inv s rand mask s' p :
  repr (pwe s) p -> prepare_commit s rand mask = Val s' ->
  exists r m, committed s' p r m /\ own_rejected_groups s' = own_rejected_groups s /\
    peer_rejected_groups s' = peer_rejected_groups s /\ own_addr_higher s' = own_addr_higher s /\
    send_confirm s' = send_confirm s /\ last_peer_send_confirm s' = last_peer_send_confirm s.
Proof.
  intros Hp E.
  assert (exists r m, from_repr rand = Some r /\ from_repr mask = Some m) as (r & m & Hr & Hm).
  { unfold prepare_commit, secret_scalar in E.
    destruct (from_repr rand) as [r|] eqn:Er; cbn in E; [|done].
    destruct (from_repr mask) as [m|] eqn:Em; cbn in E; [by exists r, m|done]. }
  destruct (prepare_commit_ok s rand mask r m p Hp Hr Hm) as (t & Et & Hc & H1 & H2 & _ & _ & H3).
  rewrite Et in E. injection E as <-. exists r, m. split; [done|].
  unfold prepare_commit, secret_scalar in Et. rewrite Hr, Hm in Et. cbn [expect rbind] in Et.
  rewrite (proj2 Hp) in Et. cbn [expect rbind] in Et.
  destruct (point_from_p256 _) as [M| |]; try done. cbn [rbind] in Et.
  destruct (negate M) as [E| |]; try done. cbn [rbind] in Et.
  do 3 (split; [done|]). by injection Et as <-.
Qed.

(** What an end can use: a finite element and a scalar above 1. *)
Definition presentable (s : Sae) : Prop := commit_element s <> Infinity /\ 1 < commit_scalar s.

Lemma committed_scalar_lt s p r m : committed s p r m -> commit_scalar s < curve_n.
Proof. intros (_ & _ & -> & _). apply scalar_from_p256_range. Qed.

(** One direction of the commit exchange. *)
Lemma commit_sent a b p r m :
  committed a p r m -> presentable a -> own_rejected_groups a = None ->
  exists body, write_commit a = Val body /\
    parse_peer_commit b body = Val (Ok tt, store_commit b (commit_scalar a) (commit_element a) None).
Proof.
  intros Hc [Hf Hs] Hg. pose proof (committed_scalar_lt _ _ _ _ Hc) as Hlt.
  destruct Hc as (_ & _ & _ & He).
  destruct (point_bin_roundtrip _ _ He Hf) as (xy & Hb & Ha & _).
  destruct (commit_core a xy Hb Ha) as [E _]. eexists. split; [exact E|].
  assert (Hg' : own_groups_ok (own_rejected_groups a)) by (by rewrite Hg).
  pose proof (parse_write_commit a b _ _ He Hf (conj Hs Hlt) Hg' E) as H. by rewrite Hg in H |- *.
Qed.

(** Two ends of an H2E exchange that share the password agree.  Each derives
    its password element from its own view of the addresses, draws its own
    secrets and sends its commit; each accepts the other's commit; both reach
    the same verdict (only a shared point at infinity is refused); on success
    they hold the same KCK, PMK (32 octets) and PMKID; the confirm each of them
    sends is accepted by the other, and refused as a replay when repeated. *)
Lemma sae_h2e_agreement ssid password addr_a addr_b sa0 sb0 ra ma rb mb sa sb :
  wf_bytes ssid -> wf_bytes password -> addr_a <> addr_b ->
  new_h2e ssid password None addr_a addr_b = Val sa0 ->
  new_h2e ssid password None addr_b addr_a = Val sb0 ->
  prepare_commit sa0 ra ma = Val sa -> prepare_commit sb0 rb mb = Val sb ->
  presentable sa -> presentable sb ->
  exists ca cb sa1 sb1 r sa2 sb2,
    write_commit sa = Val ca /\ write_commit sb = Val cb /\
    parse_peer_commit sa cb = Val (Ok tt, sa1) /\ parse_peer_commit sb ca = Val (Ok tt, sb1) /\
    process_commit sa1 = Val (r, sa2) /\ process_commit sb1 = Val (r, sb2) /\
    match r with
    | Err e => e = BadElement
    | Ok _ =>
        sae_kck sa2 = sae_kck sb2 /\ sae_pmk sa2 = sae_pmk sb2 /\ sae_pmkid sa2 = sae_pmkid sb2 /\
        arr 32 (sae_pmk sa2) /\
        forall m sa3, write_confirm sa2 = Val (Ok m, sa3) ->
          exists sb3, check_confirm sb2 m = Val (Ok tt, sb3) /\
            check_confirm sb3 m = Val (Err ReplayedConfirm, sb3)
    end.
Proof.
  intros Hss Hpw Hab Ha0 Hb0 Ha Hb Pa Pb.
  destruct (new_h2e_pair ssid password addr_a addr_b Hss Hpw Hab)
    as (Q & p & xa & xb & Ea & Eb & HQ & Ga & Gb & Hord).
  rewrite Ha0 in Ea. injection Ea as <-. rewrite Hb0 in Eb. injection Eb as <-.
  assert (Hpa : repr (pwe sa0) p) by (by rewrite Ga). assert (Hpb : repr (pwe sb0) p) by (by rewrite Gb).
  destruct (prepare_commit_inv sa0 ra ma sa p Hpa Ha) as (sra & sma & Ca & Oa & Qa & Da & Na & La).
  destruct (prepare_commit_inv sb0 rb mb sb p Hpb Hb) as (srb & smb & Cb & Ob & Qb & Db & Nb & Lb).
  rewrite Ga in Oa, Qa, Na, La. rewrite Gb in Ob, Qb, Nb, Lb.
  cbn [own_rejected_groups peer_rejected_groups send_confirm last_peer_send_confirm sae_with] in *.
  destruct (commit_sent sa sb p _ _ Ca Pa Oa) as (ca & Wa & Ra).
  destruct (commit_sent sb sa p _ _ Cb Pb Ob) as (cb & Wb & Rb).
  exists ca, cb. do 2 eexists.
  set (sa1 := store_commit sa _ _ _) in Rb. set (sb1 := store_commit sb _ _ _) in Ra.
  assert (Hh : heard sa1 sb1 /\ heard sb1 sa1).
  { unfold heard, sa1, sb1, store_commit. fields. by rewrite Oa, Ob. }
  assert (Hc : committed sa1 p sra sma /\ committed sb1 p srb smb) by (split; [exact Ca|exact Cb]).
  assert (Hg : groups_wf sa1 /\ groups_wf sb1).
  { unfold groups_wf, sa1, sb1, store_commit. fields. rewrite Oa, Ob. repeat split; constructor. }
  assert (Hd : own_addr_higher sa1 = negb (own_addr_higher sb1)).
  { unfold sa1, sb1, store_commit. fields. by rewrite Da, Db. }
  destruct (process_commit_agree sa1 sb1 p _ _ _ _ (proj1 Hc) (proj2 Hc) (proj1 Hh) (proj2 Hh) Hd
    (proj1 Hg) (proj2 Hg)) as (r & sa2 & sb2 & Ea & Eb & Hr).
  exists r, sa2, sb2. do 6 (split; [eassumption|]).
  destruct r as [u|e]; [|by destruct Hr].
  destruct Hr as (keys & ab & [Hkl Hkw] & -> & ->). unfold keyed. fields.
  do 3 (split; [done|]). split; [apply arr_sub; [done|lia|done]|].
  intros m sa3 Hm.
  assert (Hw : wf_bytes (sub keys 0 32)) by auto with bytes.
  destruct (confirm_accepted (keyed sa1 keys ab) (keyed sb1 keys ab) m sa3) as [Hsc Hck];
    try (by apply Hh); try done.
  - apply Pa.
  - apply Pb.
  - change (send_confirm (keyed sa1 keys ab)) with (send_confirm sa). rewrite Na. lia.
  - change (last_peer_send_confirm (keyed sb1 keys ab)) with (last_peer_send_confirm sb) in Hck.
    change (send_confirm (keyed sa1 keys ab)) with (send_confirm sa) in Hsc.
    rewrite Lb in Hck. rewrite Na in Hsc. rewrite Hsc in Hck. cbn in Hck.
    eexists. split; [exact Hck|].
    destruct (confirm_accepted (keyed sa1 keys ab)
      ((keyed sb1 keys ab) <| last_peer_send_confirm := Some (0 + 1) |>) m sa3) as [_ Hck2];
      try (by apply Hh); try done.
    + apply Pa.
    + apply Pb.
    + change (send_confirm (keyed sa1 keys ab)) with (send_confirm sa). rewrite Na. lia.
    + fields_in Hck2. rewrite Hsc in Hck2. cbn in Hck2. exact Hck2.
Qed.

(** ** OWE *)

Lemma pmul_identity s : pmul identity s = identity.
Proof.
  assert (H : padd (pmul identity s) (pmul identity s) = pmul identity s)
    by (rewrite <- pmul_padd; by rewrite padd_identity).
  set (X := pmul identity s) in *.
  by rewrite <- (padd_identity X), <- (padd_neg X), padd_assoc, H.
Qed.

Lemma pneg_unique p q : padd p q = identity -> q = pneg p.
Proof.
  intros H. rewrite <- (padd_identity q), <- (padd_neg p), padd_assoc, (padd_comm q p), H.
  by rewrite padd_comm, padd_identity.
Qed.

Lemma pmul_neg p s : pmul (pneg p) s = pneg (pmul p s).
Proof. apply pneg_unique. rewrite <- pmul_padd, padd_neg. apply pmul_identity. Qed.

Lemma pneg_neg p : pneg (pneg p) = p.
Proof. symmetry. apply pneg_unique. by rewrite padd_comm, padd_neg. Qed.

(** The octets of a finite point are those of its wire form. *)
Lemma repr_octets Q p : repr Q p ->
  (Q = Infinity /\ p = identity) \/
  (exists x y, Q = Affine x y /\ is_identity p = false /\
     to_sec1_point false p = 0x04 :: be_bytes 32 x ++ be_bytes 32 y).
Proof.
  intros [H1 H2]. destruct Q as [|x y]; [left; split; [done|]; cbn in H2; congruence|right].
  exists x, y. split; [done|]. cbn in H2. destruct (to_from_sec1 (be_bytes 32 x ++ be_bytes 32 y) p) as [Hi He]; [|exact H2|done].
  split; [by rewrite length_app, !length_be_bytes|auto with bytes].
Qed.

(** Opposite points have the same abscissa: the derived keys do not depend on
    which of the two the receiver picked. *)
Lemma owe_shared_neg Q Q' p sta_pub ap_pub g :
  repr Q p -> repr Q' (pneg p) -> owe_shared Q sta_pub ap_pub g = owe_shared Q' sta_pub ap_pub g.
Proof.
  intros HQ HQ'. assert (Hni : pneg identity = identity) by (symmetry; apply pneg_unique; apply padd_identity).
  destruct (repr_octets Q p HQ) as [[-> ->]|(x & y & -> & Hi & E)].
  - rewrite Hni in HQ'. destruct (repr_octets Q' _ HQ') as [[-> _]|(x & y & _ & Hi & _)]; [done|].
    by rewrite (proj2 (is_identity_true identity) eq_refl) in Hi.
  - destruct (to_sec1_neg p _ _ Hi E) as (y' & [Hy' _] & E'); [apply arr_be_bytes|apply arr_be_bytes|].
    destruct (repr_octets Q' _ HQ') as [[_ Hn]|(x2 & y2 & -> & _ & E2)].
    + rewrite <- (pneg_neg p), Hn, Hni in Hi. by rewrite (proj2 (is_identity_true identity) eq_refl) in Hi.
    + rewrite E' in E2. apply (f_equal (drop 1)) in E2. cbn [drop] in E2. rewrite !drop_0 in E2. apply app_inj_1 in E2 as [Ex _]; [|by rewrite !length_be_bytes].
      unfold owe_shared, scalar_pad. change PRIME_LEN with 32%nat. by rewrite Ex.
Qed.

(** The key a private scalar publishes decodes to the point or its opposite. *)
Lemma owe_public_point a : arr 32 a -> acceptable_scalar a = true ->
  exists s x q, secret_scalar a = Val s /\ owe_public a = Val x /\ arr 32 x /\
    from_sec1_bytes (0x02 :: x) = Some q /\ (q = pmul generator_pt s \/ q = pneg (pmul generator_pt s)).
Proof.
  intros Ha Hacc. destruct (acceptable_scalar_repr a Ha Hacc) as (s & Hs & Hnz).
  unfold owe_public. destruct (from_p256_repr generator_pt) as (G & -> & [_ HG]). cbn [rbind]. rewrite HG, Hs.
  cbn [expect rbind]. destruct (from_p256_repr (pmul generator_pt s)) as (Q & -> & HQ). cbn [rbind].
  destruct (repr_octets Q _ HQ) as [[_ Hi]|(x & y & -> & Hi & E)].
  - exfalso. apply Hnz, generator_order. by apply is_identity_true.
  - destruct (from_sec1_even _ _ _ Hi E) as (q & Hq & Hor); [apply arr_be_bytes|apply arr_be_bytes|].
    exists s, (be_bytes 32 x), q. split; [done|]. split; [done|]. split; [apply arr_be_bytes|done].
Qed.

(** C34: OWE agreement: for any two private scalars that the key generation
    accepts, the access point and the station publish 32-octet keys from which
    each derives a PMK and a PMKID, and both derive the same; only abscissas
    travel, and the choice a receiver makes between a point and its opposite does
    not matter. *)
Theorem owe_agreement ap_private sta_private :
  arr 32 ap_private -> acceptable_scalar ap_private = true ->
  arr 32 sta_private -> acceptable_scalar sta_private = true ->
  exists ap_pub sta_pub pmk pmkid, owe_public ap_private = Val ap_pub /\ owe_public sta_private = Val sta_pub /\
    arr 32 ap_pub /\ arr 32 sta_pub /\ arr 32 pmk /\ arr 16 pmkid /\
    owe_derive ap_private sta_pub sta_pub ap_pub SAE_GROUP_19 = Val (Some (pmk, pmkid)) /\
    owe_derive sta_private ap_pub sta_pub ap_pub SAE_GROUP_19 = Val (Some (pmk, pmkid)).
Proof.
  intros Ha Hac Hb Hbc.
  destruct (owe_public_point ap_private Ha Hac) as (s & A & qa & Hs & HA & HAa & Hqa & Ora).
  destruct (owe_public_point sta_private Hb Hbc) as (t & B & qb & Ht & HB & HBa & Hqb & Orb).
  destruct (owe_derive_shared ap_private s B qb B A SAE_GROUP_19 Hs Hqb) as (Q & EQ & HQ).
  destruct (owe_derive_shared sta_private t A qa B A SAE_GROUP_19 Ht Hqa) as (R & ER & HR).
  assert (Hs0 : be_val (to_repr s) <> 0) by (destruct (acceptable_scalar_repr ap_private Ha Hac) as (s' & Es & Hn); congruence).
  assert (Ht0 : be_val (to_repr t) <> 0) by (destruct (acceptable_scalar_repr sta_private Hb Hbc) as (t' & Et & Hn); congruence).
  set (p := pmul (pmul generator_pt s) t) in *.
  assert (Hp : pmul (pmul generator_pt t) s = p) by apply pmul_pmul_comm.
  assert (HQ' : repr Q p \/ repr Q (pneg p)) by (destruct Orb as [->| ->]; rewrite ?pmul_neg, Hp in HQ; auto).
  assert (HR' : repr R p \/ repr R (pneg p)) by (destruct Ora as [->| ->]; rewrite ?pmul_neg in HR; fold p in HR; auto).
  assert (Hfin : is_identity p = false).
  { destruct (is_identity p) eqn:Hi; [exfalso|done]. apply pmul_prime_order in Hi as [Hi|Hi]; [|done].
    by apply generator_order in Hi. }
  assert (Hinf : Q <> Infinity).
  { intros ->. destruct HQ' as [[_ HI]|[_ HI]]; cbn in HI; injection HI as HI.
    - by rewrite <- HI, (proj2 (is_identity_true _) eq_refl) in Hfin.
    - assert (Ei : p = identity).
      { rewrite <- (pneg_neg p), <- HI. symmetry. apply pneg_unique, padd_identity. }
      by rewrite Ei, (proj2 (is_identity_true _) eq_refl) in Hfin. }
  destruct (owe_shared_some Q B A SAE_GROUP_19 Hinf (proj2 HBa) (proj2 HAa)) as (pmk & pmkid & Eo & Hpmk & Hid).
  exists A, B, pmk, pmkid. rewrite EQ, ER, Eo. do 7 (split; [done|]). rewrite <- Eo.
  destruct HQ' as [HQ'|HQ'], HR' as [HR'|HR'].
  - f_equal. destruct HQ', HR'. congruence.
  - symmetry. by apply (owe_shared_neg Q R p).
  - by apply (owe_shared_neg R Q p).
  - f_equal. destruct HQ', HR'. congruence.
Qed.

End Agreement.

(** * Evaluation *)

Definition toy_a : Sae := Eval vm_compute in
  returned (new_h2e [0x6f; 0x78] [1; 2; 3] None (replicate 6 2) (replicate 6 4)).
Definition toy_b : Sae := Eval vm_compute in
  returned (new_h2e [0x6f; 0x78] [1; 2; 3] None (replicate 6 4) (replicate 6 2)).
Definition toy_a_ready : Sae := Eval vm_compute in
  returned (prepare_commit toy_a (be_bytes 32 77) (be_bytes 32 1234567)).
Definition toy_b_ready : Sae := Eval vm_compute in
  returned (prepare_commit toy_b (be_bytes 32 4242) (be_bytes 32 99)).

(** The exchange of the two succeeds. *)
Example toy_exchange :
  match write_commit toy_a_ready, write_commit toy_b_ready with
  | Val ca, Val cb =>
      match parse_peer_commit toy_a_ready cb, parse_peer_commit toy_b_ready ca with
      | Val (Ok _, a), Val (Ok _, b) =>
          match process_commit a, process_commit b with
          | Val (Ok _, a'), Val (Ok _, b') => sae_pmk a' = sae_pmk b'
          | _, _ => False
          end
      | _, _ => False
      end
  | _, _ => False
  end.
Proof. vm_compute. reflexivity. Qed.

Lemma hunt_equiv_witness :
  rfold (hunt_step [1; 2; 3] [4; 5]) None (seqZ 1 40) = hunt_first [1; 2; 3] [4; 5] (seqZ 1 40).
Proof. apply hunt_equiv; by apply (bool_decide_unpack _). Defined.

Lemma owe_agreement_witness :
  exists ap_pub sta_pub pmk pmkid, owe_public (be_bytes 32 77) = Val ap_pub /\
    owe_public (be_bytes 32 4242) = Val sta_pub /\ arr 32 ap_pub /\ arr 32 sta_pub /\ arr 32 pmk /\ arr 16 pmkid /\
    owe_derive (be_bytes 32 77) sta_pub sta_pub ap_pub SAE_GROUP_19 = Val (Some (pmk, pmkid)) /\
    owe_derive (be_bytes 32 4242) ap_pub sta_pub ap_pub SAE_GROUP_19 = Val (Some (pmk, pmkid)).
Proof.
  apply (owe_agreement (be_bytes 32 77) (be_bytes 32 4242));
    first [apply arr_be_bytes | vm_compute; reflexivity].
Defined.
