(* ===== verification/Failures.v ===== *)
(** The failure log of src/failures.rs: a bounded, deduplicated record of
    failed authentication and decryption attempts. *)
From S2P Require Import Prelude.

Inductive FailureKind := FourWayMic | SaeFailure | CcmpData | ProtectedMgmt.
#[export] Instance failure_kind_eq_dec : EqDecision FailureKind.
Proof. solve_decision. Defined.

Record FailureRecord := {
  fr_mac : bytes;
  fr_traits : Z;
  fr_kind : FailureKind;
  fr_count : Z;
  fr_first_seq : Z;
  fr_last_seq : Z
}.
#[export] Instance failure_record_eta : Eta FailureRecord := fun r => {|
  fr_mac := fr_mac r; fr_traits := fr_traits r; fr_kind := fr_kind r; fr_count := fr_count r;
  fr_first_seq := fr_first_seq r; fr_last_seq := fr_last_seq r |}.

Record FailureLog := {
  fl_records : list FailureRecord;
  fl_cap : nat;
  fl_seq : Z
}.

Definition with_capacity (cap : nat) : FailureLog :=
  {| fl_records := []; fl_cap := Nat.max cap 1; fl_seq := 0 |}.

Definition default_log : FailureLog := with_capacity 25.

(** The key a record is deduplicated by. *)
Definition fr_key (r : FailureRecord) : bytes * Z * FailureKind := (fr_mac r, fr_traits r, fr_kind r).

(** [records.iter_mut().find(..)] with the update of the entry it finds, and
    the count the entry then has. *)
Fixpoint bump (key : bytes * Z * FailureKind) (seq : Z) (l : list FailureRecord) :
    option (Z * list FailureRecord) :=
  match l with
  | [] => None
  | r :: l' =>
      if bool_decide (fr_key r = key) then
        let r' := r <| fr_count := u64 (fr_count r + 1) |> <| fr_last_seq := seq |> in
        Some (fr_count r', r' :: l')
      else
        match bump key seq l' with
        | Some (n, l'') => Some (n, r :: l'')
        | None => None
        end
  end.

(** [(0..len).min_by_key(..)]: the first position with the least key. *)
Fixpoint min_index (l : list FailureRecord) : option (nat * Z) :=
  match l with
  | [] => None
  | r :: l' =>
      match min_index l' with
      | Some (i, m) => if m <? fr_last_seq r then Some (S i, m) else Some (O, fr_last_seq r)
      | None => Some (O, fr_last_seq r)
      end
  end.

Definition remove_at {A} (i : nat) (l : list A) : list A := take i l ++ drop (S i) l.

(** [FailureLog::record]: the running count and the log; both counters are 64 bits
    wide and wrap (the release profile has no overflow checks). *)
Definition record_failure_entry (log : FailureLog) (mac : bytes) (traits : Z) (kind : FailureKind) :
    Z * FailureLog :=
  let seq := u64 (fl_seq log + 1) in
  match bump (mac, traits, kind) seq (fl_records log) with
  | Some (n, rs) => (n, {| fl_records := rs; fl_cap := fl_cap log; fl_seq := seq |})
  | None =>
      let kept :=
        if (fl_cap log <=? length (fl_records log))%nat then
          match min_index (fl_records log) with
          | Some (i, _) => remove_at i (fl_records log)
          | None => fl_records log
          end
        else fl_records log in
      (1, {| fl_records := kept ++ [{| fr_mac := mac; fr_traits := traits; fr_kind := kind;
                                       fr_count := 1; fr_first_seq := seq; fr_last_seq := seq |}];
             fl_cap := fl_cap log; fl_seq := seq |})
  end.

(** [client_traits]: FNV-1a over 64 bits. *)
Definition client_traits (ies : bytes) : Z :=
  foldl (fun h b => u64 (Z.lxor h b * 0x00000100000001b3)) 0xcbf29ce484222325 ies.

(** * Properties *)

Definition keys_of (log : FailureLog) : list (bytes * Z * FailureKind) := map fr_key (fl_records log).

(** The invariant of the log: within its capacity, one entry per key, each
    entry last seen at a different, past, sequence number, which is at least its
    count; the sequence number is a 64-bit word. *)
Definition log_ok (log : FailureLog) : Prop :=
  (0 < fl_cap log)%nat /\ (length (fl_records log) <= fl_cap log)%nat /\
  NoDup (keys_of log) /\ NoDup (map fr_last_seq (fl_records log)) /\
  Forall (fun r => 1 <= fr_count r <= fr_last_seq r /\ fr_last_seq r <= fl_seq log) (fl_records log) /\
  0 <= fl_seq log < 2 ^ 64.

(** The next failure does not wrap the sequence number. *)
Definition room_in_seq (log : FailureLog) : Prop := fl_seq log + 1 < 2 ^ 64.

Lemma with_capacity_ok n : log_ok (with_capacity n).
Proof.
  unfold log_ok, keys_of; simpl. split; [lia|]. split; [lia|].
  split; [constructor|]. split; [constructor|]. split; [constructor|lia].
Qed.

Lemma bump_None key seq l : bump key seq l = None <-> key ∉ map fr_key l.
Proof.
  induction l as [|r l IH]; simpl; [split; [intros _; apply not_elem_of_nil|done]|].
  rewrite not_elem_of_cons. case_bool_decide as E; [split; [done|intros [H _]; congruence]|].
  destruct (bump key seq l) as [[n l']|]; [split; [done|]|].
  - intros [_ H]. by apply IH in H.
  - split; [intros _; split; [congruence|by apply IH]|done].
Qed.

Lemma bump_Some key seq l n l' :
  bump key seq l = Some (n, l') ->
  exists l1 r l2, l = l1 ++ r :: l2 /\ fr_key r = key /\ n = u64 (fr_count r + 1) /\
    l' = l1 ++ (r <| fr_count := n |> <| fr_last_seq := seq |>) :: l2.
Proof.
  revert n l'. induction l as [|r l IH]; intros n l' H; [done|]. simpl in H.
  case_bool_decide as E.
  - fields_in H. injection H as <- <-. exists [], r, l. done.
  - destruct (bump key seq l) as [[m k]|]; [|done]. injection H as <- <-.
    destruct (IH _ _ eq_refl) as (l1 & x & l2 & -> & Hk & Hn & ->).
    exists (r :: l1), x, l2. done.
Qed.

Lemma min_index_spec l i m :
  min_index l = Some (i, m) ->
  exists l1 r l2, l = l1 ++ r :: l2 /\ length l1 = i /\ fr_last_seq r = m /\
    Forall (fun x => m <= fr_last_seq x) l.
Proof.
  revert i m. induction l as [|r l IH]; intros i m H; [done|]. simpl in H.
  destruct (min_index l) as [[j k]|] eqn:E.
  - destruct (IH _ _ eq_refl) as (l1 & x & l2 & -> & Hl & Hx & Hf).
    destruct (Z.ltb_spec k (fr_last_seq r)) as [Hlt|Hge]; injection H as <- <-.
    + exists (r :: l1), x, l2. split; [done|]. split; [simpl; by f_equal|]. split; [done|].
      constructor; [lia|done].
    + exists [], r, (l1 ++ x :: l2). split; [done|]. split; [done|]. split; [done|].
      constructor; [lia|]. eapply Forall_impl; [exact Hf|]. intros y Hy. simpl in Hy. lia.
  - destruct l; [|simpl in E; by destruct (min_index l) as [[? ?]|]; [case_match|]].
    injection H as <- <-. exists [], r, []. split; [done|]. split; [done|]. split; [done|].
    constructor; [lia|constructor].
Qed.

Lemma min_index_None l : min_index l = None -> l = [].
Proof. destruct l as [|r l]; [done|]. simpl. by destruct (min_index l) as [[? ?]|]; [case_match|]. Qed.

(** The entries the log keeps to make room. *)
Definition kept (log : FailureLog) : list FailureRecord :=
  if (fl_cap log <=? length (fl_records log))%nat then
    match min_index (fl_records log) with
    | Some (i, _) => remove_at i (fl_records log)
    | None => fl_records log
    end
  else fl_records log.

(** Making room removes nothing, or exactly the least recently seen entry. *)
Lemma kept_spec log :
  log_ok log ->
  (length (kept log) < fl_cap log)%nat /\ (sublist (kept log) (fl_records log)) /\
  (kept log = fl_records log /\ (length (fl_records log) < fl_cap log)%nat \/
   exists l1 r l2, fl_records log = l1 ++ r :: l2 /\ kept log = l1 ++ l2 /\
     length (fl_records log) = fl_cap log /\
     Forall (fun x => fr_last_seq r < fr_last_seq x) (l1 ++ l2)).
Proof.
  intros (Hc & Hl & _ & Hseq & _ & _). unfold kept.
  destruct (Nat.leb_spec (fl_cap log) (length (fl_records log))) as [Hfull|Hroom].
  - destruct (min_index (fl_records log)) as [[i m]|] eqn:E.
    + destruct (min_index_spec _ _ _ E) as (l1 & r & l2 & El & <- & <- & Hf).
      rewrite El. unfold remove_at. rewrite take_app_length.
      rewrite (cons_middle r l1 l2), app_assoc, drop_app_length'
        by (rewrite length_app; simpl; lia).
      rewrite El in Hl, Hfull. rewrite length_app in Hl, Hfull. simpl in Hl, Hfull.
      split; [rewrite length_app; lia|]. split.
      { rewrite <- app_assoc. apply sublist_app; [done|]. simpl. by apply sublist_cons. }
      right. exists l1, r, l2. rewrite <- app_assoc. split; [done|]. split; [done|].
      split; [rewrite length_app; simpl; lia|].
      rewrite El in Hf, Hseq. rewrite map_app in Hseq. simpl in Hseq.
      apply NoDup_app in Hseq as (H1 & H12 & H2). apply NoDup_cons in H2 as [H2 _].
      apply Forall_forall. intros x Hx. rewrite Forall_forall in Hf.
      assert (Hle : fr_last_seq r <= fr_last_seq x).
      { apply Hf. apply elem_of_app in Hx as [Hx|Hx]; apply elem_of_app; [by left|right].
        by apply elem_of_cons; right. }
      assert (fr_last_seq r <> fr_last_seq x); [|lia]. intros Heq.
      apply elem_of_app in Hx as [Hx|Hx].
      * apply (H12 (fr_last_seq x)); [by apply list_elem_of_fmap_2|]. rewrite <- Heq.
        by apply elem_of_cons; left.
      * apply H2. rewrite Heq. by apply list_elem_of_fmap_2.
    + apply min_index_None in E. rewrite E in Hfull. simpl in Hfull. lia.
  - split; [done|]. split; [done|]. by left.
Qed.

(** The count the log shows for a key, 0 when it has no entry. *)
Definition count_in (l : list FailureRecord) (key : bytes * Z * FailureKind) : Z :=
  match List.find (fun r => bool_decide (fr_key r = key)) l with
  | Some r => fr_count r
  | None => 0
  end.
Definition count_of (log : FailureLog) (key : bytes * Z * FailureKind) : Z :=
  count_in (fl_records log) key.

Lemma find_key_app key l1 l2 :
  key ∉ map fr_key l1 ->
  List.find (fun r => bool_decide (fr_key r = key)) (l1 ++ l2)
  = List.find (fun r => bool_decide (fr_key r = key)) l2.
Proof.
  induction l1 as [|r l1 IH]; simpl; [done|]. rewrite not_elem_of_cons. intros [H1 H2].
  rewrite bool_decide_false by congruence. by apply IH.
Qed.

Lemma find_key_absent key l :
  key ∉ map fr_key l -> List.find (fun r => bool_decide (fr_key r = key)) l = None.
Proof. intros H. rewrite <- (app_nil_r l). by rewrite find_key_app. Qed.

(** Replacing or removing the entry of one key does not change another's. *)
Lemma find_other key l1 (r r' : list FailureRecord) l2 :
  Forall (fun x => fr_key x <> key) r -> Forall (fun x => fr_key x <> key) r' ->
  List.find (fun x => bool_decide (fr_key x = key)) (l1 ++ r ++ l2)
  = List.find (fun x => bool_decide (fr_key x = key)) (l1 ++ r' ++ l2).
Proof.
  intros H H'. induction l1 as [|x l1 IH]; [|simpl; by case_bool_decide].
  assert (Hout : forall l, Forall (fun x => fr_key x <> key) l -> key ∉ map fr_key l).
  { intros l Hl Hin. apply list_elem_of_fmap in Hin as (x & -> & Hx).
    by apply (proj1 (Forall_forall _ _) Hl x Hx). }
  simpl. rewrite (find_key_app key r), (find_key_app key r') by auto. done.
Qed.

Lemma count_other key l1 (r r' : list FailureRecord) l2 :
  Forall (fun x => fr_key x <> key) r -> Forall (fun x => fr_key x <> key) r' ->
  count_in (l1 ++ r ++ l2) key = count_in (l1 ++ r' ++ l2) key.
Proof. intros H H'. unfold count_in. by rewrite (find_other key l1 r r' l2). Qed.

Lemma seq_fresh (log : FailureLog) (l : list FailureRecord) :
  Forall (fun r => 1 <= fr_count r <= fr_last_seq r /\ fr_last_seq r <= fl_seq log) l ->
  fl_seq log + 1 ∉ map fr_last_seq l.
Proof.
  intros H Hin. apply list_elem_of_fmap in Hin as (x & Hx & Hin).
  rewrite Forall_forall in H. specialize (H x Hin). simpl in H. lia.
Qed.

(** An already known failure: its own count rises by one, nothing else
    changes. *)
Lemma record_known log mac traits kind :
  log_ok log -> room_in_seq log -> (mac, traits, kind) ∈ keys_of log ->
  exists n log', record_failure_entry log mac traits kind = (n, log') /\ log_ok log' /\ fl_seq log' = fl_seq log + 1 /\
    keys_of log' = keys_of log /\ n = count_of log (mac, traits, kind) + 1 /\
    count_of log' (mac, traits, kind) = n /\
    (forall k, k <> (mac, traits, kind) -> count_of log' k = count_of log k).
Proof.
  intros (Hc & Hl & Hk & Hs & Hf & Hw) Hroom Hin. unfold room_in_seq in Hroom. unfold record_failure_entry, u64.
  rewrite (Z.mod_small (fl_seq log + 1)) by lia.
  set (key := (mac, traits, kind)) in *.
  destruct (bump key (fl_seq log + 1) (fl_records log)) as [[n rs]|] eqn:E;
    [|by apply bump_None in E].
  destruct (bump_Some _ _ _ _ _ E) as (l1 & r & l2 & El & Hr & Hn & Ers).
  assert (Hn' : n = fr_count r + 1).
  { rewrite Hn. rewrite El in Hf. apply Forall_app in Hf as [_ Hf]. apply Forall_cons in Hf as [Hf _].
    unfold u64. apply Z.mod_small. lia. }
  clear Hn. rename Hn' into Hn.
  assert (Hkeys : map fr_key rs = map fr_key (fl_records log))
    by (rewrite Ers, El, !map_app; done).
  exists n. eexists. split; [done|]. unfold log_ok, keys_of, count_of in *. cbn [fl_records fl_cap fl_seq].
  rewrite El in Hf, Hs, Hk, Hl. rewrite map_app in Hs, Hk. simpl in Hs, Hk.
  apply Forall_app in Hf as [Hf1 Hf2]. apply Forall_cons in Hf2 as [[Hcnt Hlast] Hf2].
  assert (Hk1 : key ∉ map fr_key l1).
  { apply NoDup_app in Hk as (_ & Hk & _). intros Hx. apply (Hk _ Hx). rewrite Hr.
    by apply elem_of_cons; left. }
  split; [split; [done|split; [|split; [|split; [|split; [|lia]]]]]|].
  - apply (f_equal length) in Hkeys. rewrite !length_map in Hkeys. rewrite Hkeys, El. done.
  - rewrite Hkeys, El, map_app. done.
  - rewrite Ers, map_app. simpl. fields.
    apply NoDup_app in Hs as (S1 & S12 & S2). apply NoDup_cons in S2 as [S2 S3].
    pose proof (seq_fresh log l1 Hf1). pose proof (seq_fresh log l2 Hf2).
    apply NoDup_app. split; [done|]. split; [|by constructor].
    intros x Hx Hx'. apply elem_of_cons in Hx' as [->|Hx']; [done|].
    apply (S12 x Hx). by apply elem_of_cons; right.
  - rewrite Ers. apply Forall_app. split; [|constructor].
    + eapply Forall_impl; [exact Hf1|]. simpl. intros x Hx. lia.
    + fields. lia.
    + eapply Forall_impl; [exact Hf2|]. simpl. intros x Hx. lia.
  - split; [done|]. split; [by rewrite Hkeys|]. split; [|split].
    + unfold count_in. rewrite El, find_key_app by done. simpl. by rewrite bool_decide_true.
    + unfold count_in. rewrite Ers, find_key_app by done. simpl.
      change (fr_key (r <| fr_count := n |> <| fr_last_seq := fl_seq log + 1 |>)) with (fr_key r).
      by rewrite bool_decide_true.
    + intros k Hne. rewrite Ers, El.
      assert (Hrk : fr_key r <> k) by congruence.
      apply (count_other k l1 [r <| fr_count := n |> <| fr_last_seq := fl_seq log + 1 |>] [r] l2);
        apply Forall_singleton; exact Hrk.
Qed.

Lemma sublist_map {A B} (f : A -> B) l k : sublist l k -> sublist (map f l) (map f k).
Proof. induction 1; simpl; by constructor. Qed.

(** A new failure takes one entry; when the log is full it replaces the least
    recently seen one, and every other count is kept. *)
Lemma record_new log mac traits kind :
  log_ok log -> room_in_seq log -> (mac, traits, kind) ∉ keys_of log ->
  exists log', record_failure_entry log mac traits kind = (1, log') /\ log_ok log' /\ fl_seq log' = fl_seq log + 1 /\
    count_of log' (mac, traits, kind) = 1 /\
    (fl_records log' = fl_records log ++ drop (length (fl_records log)) (fl_records log') /\
     (length (fl_records log) < fl_cap log)%nat /\
     (forall k, k <> (mac, traits, kind) -> count_of log' k = count_of log k) \/
     exists r, r ∈ fl_records log /\ length (fl_records log) = fl_cap log /\
       (forall x, x ∈ fl_records log -> x <> r -> fr_last_seq r < fr_last_seq x) /\
       (forall k, k <> (mac, traits, kind) -> k <> fr_key r -> count_of log' k = count_of log k)).
Proof.
  intros Hok Hseq Hin. destruct (kept_spec log Hok) as (Hroom & Hsub & Hcase). unfold room_in_seq in Hseq.
  destruct Hok as (Hc & Hl & Hk & Hs & Hf & Hw). unfold record_failure_entry, u64. fold (kept log).
  rewrite (Z.mod_small (fl_seq log + 1)) by lia.
  set (key := (mac, traits, kind)) in *.
  rewrite (proj2 (bump_None key (fl_seq log + 1) (fl_records log)) Hin).
  set (e := {| fr_mac := mac |}).
  assert (He : fr_key e = key) by done.
  assert (Hin' : key ∉ map fr_key (kept log)).
  { intros Hx. apply Hin. unfold keys_of. eapply elem_of_sublist; [exact Hx|].
    by apply sublist_map. }
  assert (Hf' : Forall (fun r => 1 <= fr_count r <= fr_last_seq r /\ fr_last_seq r <= fl_seq log) (kept log)).
  { apply Forall_forall. intros x Hx. rewrite Forall_forall in Hf. apply Hf.
    by apply (elem_of_sublist (kept log)). }
  eexists. split; [done|]. unfold log_ok, keys_of, count_of in *. cbn [fl_records fl_cap fl_seq].
  split; [split; [done|split; [|split; [|split; [|split; [|lia]]]]]|split; [done|split]].
  - rewrite length_app. simpl. lia.
  - rewrite map_app. apply NoDup_app. split; [|split].
    + apply (sublist_NoDup _ (map fr_key (fl_records log))); [done|by apply sublist_map].
    + intros x Hx Hx'. apply elem_of_cons in Hx' as [->|Hx']; [by rewrite He in Hx|].
      by apply not_elem_of_nil in Hx'.
    + apply NoDup_singleton.
  - rewrite map_app. apply NoDup_app. split; [|split].
    + apply (sublist_NoDup _ (map fr_last_seq (fl_records log))); [done|by apply sublist_map].
    + intros x Hx Hx'. apply elem_of_cons in Hx' as [->|Hx']; [|by apply not_elem_of_nil in Hx'].
      by apply (seq_fresh log (kept log) Hf').
    + apply NoDup_singleton.
  - apply Forall_app. split; [|repeat constructor; simpl; lia].
    eapply Forall_impl; [exact Hf'|]. simpl. intros x Hx. lia.
  - unfold count_in. rewrite find_key_app by done. simpl. by rewrite bool_decide_true.
  - assert (Hother : forall k, k <> key -> count_in (kept log ++ [e]) k = count_in (kept log) k).
    { intros k Hne. rewrite <- (app_nil_r (kept log)) at 2.
      apply (count_other k (kept log) [e] [] []); repeat constructor. congruence. }
    destruct Hcase as [[E Hlt]|(l1 & r & l2 & El & E & Hlen & Hmin)].
    + left. rewrite E. split; [by rewrite drop_app_length|]. split; [done|].
      intros k Hne. rewrite <- E, Hother by done. by rewrite E.
    + right. exists r. split; [rewrite El; apply elem_of_app; right; by apply elem_of_cons; left|].
      split; [done|]. split.
      * intros x Hx Hne. rewrite Forall_forall in Hmin. apply Hmin. rewrite El in Hx.
        apply elem_of_app in Hx as [Hx|Hx]; apply elem_of_app; [by left|].
        apply elem_of_cons in Hx as [->|Hx]; [done|by right].
      * intros k Hne Hnr. rewrite Hother, E, El by done.
        symmetry. apply (count_other k l1 [r] [] l2); repeat constructor. congruence.
Qed.

(** C40: The failure log.  Recording keeps the log within its capacity with one
    entry per (client, traits, kind).  A known failure has its count raised by
    one and every other count kept; a new one starts at one, and only when the
    log is full does it cost another entry, the one seen least recently.  All of
    it up to the wrap of the 64-bit sequence number, which starts at zero and
    which every failure raises by one: no count is above it, so that no count
    wraps before it does. *)
Theorem failure_log_correct log mac traits kind :
  log_ok log -> room_in_seq log ->
  let key := (mac, traits, kind) in
  exists n log', record_failure_entry log mac traits kind = (n, log') /\ log_ok log' /\
    fl_seq log' = fl_seq log + 1 /\ count_of log' key = n /\
    if decide (key ∈ keys_of log) then
      n = count_of log key + 1 /\ keys_of log' = keys_of log /\
      (forall k, k <> key -> count_of log' k = count_of log k)
    else
      n = 1 /\
      ((length (fl_records log) < fl_cap log)%nat /\
         (forall k, k <> key -> count_of log' k = count_of log k) \/
       exists r, r ∈ fl_records log /\ length (fl_records log) = fl_cap log /\
         (forall x, x ∈ fl_records log -> x <> r -> fr_last_seq r < fr_last_seq x) /\
         (forall k, k <> key -> k <> fr_key r -> count_of log' k = count_of log k)).
Proof.
  intros H Hr key. destruct (decide (key ∈ keys_of log)) as [Hin|Hout].
  - destruct (record_known log mac traits kind H Hr Hin) as (n & log' & H1 & H2 & H3 & H4 & H5 & H6 & H7).
    by exists n, log'.
  - destruct (record_new log mac traits kind H Hr Hout) as (log' & H1 & H2 & H3 & H4 & H5).
    exists 1, log'. split; [done|]. split; [done|]. split; [done|]. split; [done|]. split; [done|].
    destruct H5 as [(_ & H5 & H6)|H5]; [by left|by right].
Qed.

(** Two failures of one client, and a third that finds the log full. *)
Definition small_log : FailureLog := Eval vm_compute in
  (record_failure_entry (record_failure_entry (with_capacity 1) [1; 2] 7 FourWayMic).2 [1; 2] 7 FourWayMic).2.

Lemma small_log_ok : log_ok small_log.
Proof.
  unfold log_ok, small_log, keys_of. cbn. split; [lia|]. split; [lia|]. split; [apply NoDup_singleton|].
  split; [apply NoDup_singleton|]. split; [repeat constructor; cbn; lia|lia].
Qed.

Lemma failure_log_correct_witness :
  exists n log', record_failure_entry small_log [3] 7 CcmpData = (n, log') /\ log_ok log' /\ fl_seq log' = 3 /\
    count_of log' ([3], 7, CcmpData) = 1 /\ count_of small_log ([1; 2], 7, FourWayMic) = 2 /\
    count_of log' ([1; 2], 7, FourWayMic) = 0.
Proof.
  destruct (failure_log_correct small_log [3] 7 CcmpData) as (n & log' & E & Hok & Hs & Hc & _).
  - exact small_log_ok.
  - reflexivity.
  - exists n, log'. split; [exact E|]. split; [exact Hok|]. split; [exact Hs|].
    assert (Hl : log' = (record_failure_entry small_log [3] 7 CcmpData).2) by exact (eq_sym (f_equal snd E)). rewrite Hl.
    split; [reflexivity|]. split; reflexivity.
Defined.
