(* ===== verification/Ap.v ===== *)
(** The access point's state: src/ap/{state,station,runtime,output}.rs, the
    constants and helpers of ap/mod.rs and the accessors of
    ap/configuration.rs.

    [HashMap] is [gmap] keyed by the address octets, [Instant] is a number of
    nanoseconds, the event queues are lists in the order of the pushes and the
    timer heap is the list of its entries.  The operating system's generator is
    [os_random]: the [n]-th draw of the AP's lifetime, of a given length.

    Every field of the Rust struct is here.  The SAE worker thread is its two
    channels: the bounded queue of jobs, the job the thread is computing, and
    the results it has sent. *)
From S2P Require Import Prelude Elements Crypto Security Frames Channels DataProt Kde Rsn Advert Eapol Sae Failures.

(** * Time and randomness *)

Definition millis (n : Z) : Z := n * 1000000.
Definition secs (n : Z) : Z := n * 1000000000.

(** [Instant::duration_since] saturates at zero. *)
Definition duration_since (now earlier : Z) : Z := Z.max 0 (now - earlier).

Class Entropy := { os_random : N -> nat -> bytes }.
Class EntropyOk (E : Entropy) : Prop := { os_random_arr i n : arr n (os_random i n) }.

(** The generator the witnesses use. *)
#[export] Instance toy_entropy : Entropy := {|
  os_random i n := map (fun j => (j * 7 + Z.of_N i * 13 + 1) mod 256) (seqZ 0 (Z.of_nat n)) |}.
#[export] Instance toy_entropy_ok : EntropyOk toy_entropy.
Proof.
  constructor. intros i n. cbn [os_random toy_entropy]. split; [by rewrite length_map, length_seqZ, Nat2Z.id|].
  apply Forall_forall. intros b Hb. apply list_elem_of_fmap in Hb as (j & -> & _).
  unfold is_byte. pose proof (Z.mod_pos_bound (j * 7 + Z.of_N i * 13 + 1) 256). lia.
Qed.

(** * Constants of ap/mod.rs *)

Definition BACKOFF : Z := millis 250.
Definition REQUEST_RATE_WINDOW : Z := secs 1.
Definition AUTH_REQUEST_BURST : Z := 16.
Definition ASSOC_REQUEST_BURST : Z := 8.
Definition REQUEST_RATE_ENTRY_MAX : nat := 1024.
Definition EAPOL_TIMEOUT : Z := millis 1000.
Definition EAPOL_FIRST_TIMEOUT : Z := millis 100.
Definition MAX_EAPOL_RETRIES : Z := 3.
Definition SA_QUERY_TIMEOUT : Z := millis 1024.
Definition ANONCE_HOLD : Z := secs 10.
Definition PMKSA_CACHE_MAX : nat := 256.
Definition PMKSA_LIFETIME : Z := secs (12 * 60 * 60).
Definition SAE_ANTI_CLOGGING_THRESHOLD : nat := 5.
Definition SAE_INCOMPLETE_MAX : nat := 64.
Definition MAX_PACKET_NUMBER : Z := 0x0000ffffffffffff.
Definition SAE_AUTH_TIMEOUT : Z := secs 5.
Definition SAE_TOKEN_LIFETIME : Z := secs 10.

Definition is_broadcast (a : bytes) : bool := beq a (replicate 6 0xff).
Definition is_multicast (a : bytes) : bool := negb (Z.land (byte_at a 0) 0x01 =? 0).

(** [inc_ipn_le]: add one to a little-endian counter, carrying upward. *)
Fixpoint inc_ipn_le (ipn : bytes) : bytes :=
  match ipn with
  | [] => []
  | b :: rest =>
      let b' := u8 (b + 1) in
      if b' =? 0 then b' :: inc_ipn_le rest else b' :: rest
  end.

Definition prepend_radiotap (frame : bytes) : bytes := RADIOTAP_TX ++ frame.

Definition expected_key_descriptor_version (mic : KeyMic) : Z := mic_version mic.

(** [key_info & !0xc000 == expected] *)
Definition key_info_matches (key_info expected : Z) : bool := Z.land key_info 0x3fff =? expected.

(** * Records *)

Record PtkCandidate := {
  m3_replay_counter : Z;
  cand_kck : bytes;
  cand_kek : bytes;
  cand_tk : bytes
}.

Record PmksaEntry := {
  pe_identity : bytes;
  pe_pmk : bytes;
  pe_sha256 : bool;
  pe_expires_at : Z
}.

Record RequestRate := {
  auth_window : Z;
  auth_count : Z;
  assoc_window : Z;
  assoc_count : Z;
  rr_last_seen : Z
}.
#[export] Instance request_rate_eta : Eta RequestRate := fun r => {|
  auth_window := auth_window r; auth_count := auth_count r; assoc_window := assoc_window r;
  assoc_count := assoc_count r; rr_last_seen := rr_last_seen r |}.

Record PendingHandshake := {
  ph_anonce : bytes;
  ph_replay_counter : Z;
  ph_created_at : Z
}.

Inductive ApEvent :=
| Connected (mac : bytes)
| Disconnected (mac : bytes) (reason : Z)
| AuthFailed (mac : bytes) (kind : FailureKind) (count : Z).

Record MldLink := {
  ml_link_id : Z;
  ml_mac : bytes;
  ml_channel : Z;
  ml_width : Z;
  ml_band6 : bool
}.

Record Station := {
  st_mac : bytes;
  st_associated : bool;
  st_eapol_ready : bool;
  st_awaiting_m4 : bool;
  st_anonce : option bytes;
  st_kck : bytes;
  st_kek : bytes;
  st_tk : bytes;
  st_pairwise_tk : bytes;
  st_pairwise_cipher : DataCipher;
  st_client_pn : Z;
  st_last_rx_pn : list Z;
  st_last_rx_mgmt_pn : Z;
  st_eapol_replay : Z;
  st_m1_replay : Z;
  st_ptk_candidates : list PtkCandidate;
  st_last_auth : option Z;
  st_last_assoc : option Z;
  st_sae : option Sae;
  st_pmk : option bytes;
  st_sae_confirmed : bool;
  st_sae_h2e : bool;
  st_sha256 : bool;
  st_owe : bool;
  st_psk_sha256 : bool;
  st_pmf : bool;
  st_last_activity : Z;
  st_gtk : bytes;
  st_gtk_key_id : Z;
  st_gtk_rsc : Z;
  st_igtk : bytes;
  st_igtk_key_id : Z;
  st_igtk_ipn : bytes;
  st_vlan_group_initialized : bool;
  st_traits : Z;
  st_wmm : bool;
  st_assoc_ies : bytes;
  st_listen_interval : Z;
  st_capability : Z;
  st_pending_eapol : option bytes;
  st_eapol_tx : Z;
  st_eapol_retries : Z;
  st_eapol_acked : bool;
  st_eapol_timer_generation : Z;
  st_group_rekeying : bool;
  st_client_mld_mac : option bytes;
  st_client_mld_links : list (Z * bytes);
  st_assoc_link_id : option Z;
  st_sae_resp : list bytes;
  st_sae_commit : bytes;
  st_sa_query : option (Z * Z)
}.

#[export] Instance station_eta : Eta Station := fun r => {|
  st_mac := st_mac r; st_associated := st_associated r; st_eapol_ready := st_eapol_ready r;
  st_awaiting_m4 := st_awaiting_m4 r; st_anonce := st_anonce r; st_kck := st_kck r;
  st_kek := st_kek r; st_tk := st_tk r; st_pairwise_tk := st_pairwise_tk r;
  st_pairwise_cipher := st_pairwise_cipher r; st_client_pn := st_client_pn r;
  st_last_rx_pn := st_last_rx_pn r; st_last_rx_mgmt_pn := st_last_rx_mgmt_pn r;
  st_eapol_replay := st_eapol_replay r; st_m1_replay := st_m1_replay r;
  st_ptk_candidates := st_ptk_candidates r; st_last_auth := st_last_auth r;
  st_last_assoc := st_last_assoc r; st_sae := st_sae r; st_pmk := st_pmk r;
  st_sae_confirmed := st_sae_confirmed r; st_sae_h2e := st_sae_h2e r;
  st_sha256 := st_sha256 r; st_owe := st_owe r; st_psk_sha256 := st_psk_sha256 r;
  st_pmf := st_pmf r; st_last_activity := st_last_activity r; st_gtk := st_gtk r;
  st_gtk_key_id := st_gtk_key_id r; st_gtk_rsc := st_gtk_rsc r; st_igtk := st_igtk r;
  st_igtk_key_id := st_igtk_key_id r; st_igtk_ipn := st_igtk_ipn r;
  st_vlan_group_initialized := st_vlan_group_initialized r; st_traits := st_traits r;
  st_wmm := st_wmm r; st_assoc_ies := st_assoc_ies r;
  st_listen_interval := st_listen_interval r; st_capability := st_capability r;
  st_pending_eapol := st_pending_eapol r; st_eapol_tx := st_eapol_tx r;
  st_eapol_retries := st_eapol_retries r; st_eapol_acked := st_eapol_acked r;
  st_eapol_timer_generation := st_eapol_timer_generation r;
  st_group_rekeying := st_group_rekeying r; st_client_mld_mac := st_client_mld_mac r;
  st_client_mld_links := st_client_mld_links r; st_assoc_link_id := st_assoc_link_id r;
  st_sae_resp := st_sae_resp r; st_sae_commit := st_sae_commit r;
  st_sa_query := st_sa_query r |}.

(** ** The SAE worker (ap/runtime.rs) *)

Record SaeCommitJob := {
  job_id : Z;
  job_sta : bytes;
  job_h2e : bool;
  job_ssid : bytes;
  job_password : bytes;
  job_sae_ap : bytes;
  job_sae_sta : bytes;
  job_peer_mld : option bytes;
  job_commit_payload : bytes
}.

Inductive SaeCommitOutcome :=
| Complete (sae : Sae) (commit_body confirm_body : bytes) (rejected_groups : list Z)
| Reflection
| Failed.

Record SaeCommitResult := {
  res_id : Z;
  res_sta : bytes;
  res_h2e : bool;
  res_peer_mld : option bytes;
  res_commit_payload : bytes;
  res_outcome : SaeCommitOutcome
}.

Record PendingSaeCommit := {
  ps_id : Z;
  ps_commit_payload : bytes;
  ps_queued_at : Z;
  ps_confirm : option bytes
}.

(** The two channels are the lists of what they hold, oldest first;
    [as_working] is the job the thread has taken and not yet answered. *)
Record AsyncSae := {
  as_jobs : list SaeCommitJob;
  as_working : option SaeCommitJob;
  as_results : list SaeCommitResult;
  as_alive : bool;
  as_pending : gmap bytes PendingSaeCommit;
  as_next_id : Z
}.
#[export] Instance async_sae_eta : Eta AsyncSae := fun r => {|
  as_jobs := as_jobs r; as_working := as_working r; as_results := as_results r;
  as_alive := as_alive r; as_pending := as_pending r; as_next_id := as_next_id r |}.

Record Ap := {
  ap_mac : bytes;
  ap_ssid : bytes;
  ap_country : bytes;
  ap_channel : Z;
  ap_channel_width : Z;
  ap_punct : Z;
  ap_mld : bool;
  ap_mld_mac : bytes;
  ap_link_id : Z;
  ap_bss_change_count : Z;
  ap_mld_links : list MldLink;
  ap_mld_default_link_mask : option Z;
  ap_mld_eml_capability : Z;
  ap_mld_driver_capability : option Z;
  ap_mld_link_phy_capabilities : gmap Z PhyCapabilities;
  ap_phy_mode : PhyMode;
  ap_pairwise_cipher : DataCipher;
  ap_pmk : bytes;
  ap_psk_candidates_by_mac : gmap bytes (list bytes);
  ap_wildcard_psk_candidates : list bytes;
  ap_credential_passwords_by_mac : gmap bytes bytes;
  ap_wildcard_credential_password : option bytes;
  ap_wpa_credentials_authoritative : bool;
  ap_sae_credentials_authoritative : bool;
  ap_credential_reload_pending : bool;
  ap_password : bytes;
  ap_sae_enabled : bool;
  ap_psk_sha256 : bool;
  ap_transition : bool;
  ap_boottime : Z;
  ap_sc : Z;
  ap_aid : Z;
  ap_group_pn : Z;
  ap_gtk : bytes;
  ap_gtk_key_id : Z;
  ap_igtk : bytes;
  ap_igtk_key_id : Z;
  ap_igtk_ipn : bytes;
  ap_bigtk : bytes;
  ap_bigtk_key_id : Z;
  ap_bigtk_ipn : bytes;
  ap_beacon_prot : bool;
  ap_pending_csa : option (Z * Z);
  ap_multi_bssid : bool;
  ap_btm : bool;
  ap_rnr_6ghz : option Z;
  ap_band6 : bool;
  ap_per_sta_vif : bool;
  ap_guest : bool;
  ap_static_credential : bool;
  ap_mgmt_rx_link : option Z;
  ap_wmm : bool;
  ap_ocv : bool;
  ap_owe : bool;
  ap_sa_query_id : Z;
  ap_pmksa_cache : gmap (bytes * bytes) PmksaEntry;
  ap_pending_anonce : gmap bytes PendingHandshake;
  ap_maintenance_deadline : option Z;
  ap_eapol_deadlines : list (Z * Z * bytes);
  ap_removed_stations : list bytes;
  ap_key_install_stations : list bytes;
  ap_key_ready_stations : list bytes;
  ap_group_key_epoch : Z;
  ap_async_sae : option AsyncSae;
  ap_eapol_replay_counter : Z;
  ap_sae_token_key : bytes;
  ap_request_rates : gmap bytes RequestRate;
  ap_stations : gmap bytes Station;
  ap_failures : FailureLog;
  ap_events : list ApEvent;
  ap_group_rekey_secs : Z;
  ap_strict_rekey : bool;
  ap_last_group_rekey : Z;
  ap_group_rekey_due : bool;
  ap_test_anonce : option bytes;
  ap_draws : N
}.

#[export] Instance ap_eta : Eta Ap := fun r => {|
  ap_mac := ap_mac r; ap_ssid := ap_ssid r; ap_country := ap_country r; ap_channel := ap_channel r;
  ap_punct := ap_punct r; ap_bss_change_count := ap_bss_change_count r;
  ap_mld_default_link_mask := ap_mld_default_link_mask r;
  ap_mld_eml_capability := ap_mld_eml_capability r;
  ap_mld_driver_capability := ap_mld_driver_capability r;
  ap_mld_link_phy_capabilities := ap_mld_link_phy_capabilities r; ap_phy_mode := ap_phy_mode r;
  ap_pending_csa := ap_pending_csa r; ap_multi_bssid := ap_multi_bssid r;
  ap_rnr_6ghz := ap_rnr_6ghz r; ap_async_sae := ap_async_sae r;
  ap_channel_width := ap_channel_width r; ap_mld := ap_mld r; ap_mld_mac := ap_mld_mac r;
  ap_link_id := ap_link_id r; ap_mld_links := ap_mld_links r;
  ap_pairwise_cipher := ap_pairwise_cipher r; ap_pmk := ap_pmk r;
  ap_psk_candidates_by_mac := ap_psk_candidates_by_mac r;
  ap_wildcard_psk_candidates := ap_wildcard_psk_candidates r;
  ap_credential_passwords_by_mac := ap_credential_passwords_by_mac r;
  ap_wildcard_credential_password := ap_wildcard_credential_password r;
  ap_wpa_credentials_authoritative := ap_wpa_credentials_authoritative r;
  ap_sae_credentials_authoritative := ap_sae_credentials_authoritative r;
  ap_credential_reload_pending := ap_credential_reload_pending r;
  ap_password := ap_password r; ap_sae_enabled := ap_sae_enabled r;
  ap_psk_sha256 := ap_psk_sha256 r; ap_transition := ap_transition r;
  ap_boottime := ap_boottime r; ap_sc := ap_sc r; ap_aid := ap_aid r;
  ap_group_pn := ap_group_pn r; ap_gtk := ap_gtk r; ap_gtk_key_id := ap_gtk_key_id r;
  ap_igtk := ap_igtk r; ap_igtk_key_id := ap_igtk_key_id r; ap_igtk_ipn := ap_igtk_ipn r;
  ap_bigtk := ap_bigtk r; ap_bigtk_key_id := ap_bigtk_key_id r;
  ap_bigtk_ipn := ap_bigtk_ipn r; ap_beacon_prot := ap_beacon_prot r; ap_btm := ap_btm r;
  ap_band6 := ap_band6 r; ap_per_sta_vif := ap_per_sta_vif r; ap_guest := ap_guest r;
  ap_static_credential := ap_static_credential r; ap_mgmt_rx_link := ap_mgmt_rx_link r;
  ap_wmm := ap_wmm r; ap_ocv := ap_ocv r; ap_owe := ap_owe r;
  ap_sa_query_id := ap_sa_query_id r; ap_pmksa_cache := ap_pmksa_cache r;
  ap_pending_anonce := ap_pending_anonce r;
  ap_maintenance_deadline := ap_maintenance_deadline r;
  ap_eapol_deadlines := ap_eapol_deadlines r; ap_removed_stations := ap_removed_stations r;
  ap_key_install_stations := ap_key_install_stations r;
  ap_key_ready_stations := ap_key_ready_stations r;
  ap_group_key_epoch := ap_group_key_epoch r;
  ap_eapol_replay_counter := ap_eapol_replay_counter r;
  ap_sae_token_key := ap_sae_token_key r; ap_request_rates := ap_request_rates r;
  ap_stations := ap_stations r; ap_failures := ap_failures r; ap_events := ap_events r;
  ap_group_rekey_secs := ap_group_rekey_secs r; ap_strict_rekey := ap_strict_rekey r;
  ap_last_group_rekey := ap_last_group_rekey r; ap_group_rekey_due := ap_group_rekey_due r;
  ap_test_anonce := ap_test_anonce r; ap_draws := ap_draws r |}.

(** [Outgoing]: frames to transmit and packets for the network. *)
Record Outgoing := { out_frames : list bytes; out_to_network : list bytes }.
#[export] Instance outgoing_eta : Eta Outgoing := fun r => {|
  out_frames := out_frames r; out_to_network := out_to_network r |}.

Definition no_output : Outgoing := {| out_frames := []; out_to_network := [] |}.
Definition out_push (f : bytes) (out : Outgoing) : Outgoing :=
  out <| out_frames := out_frames out ++ [f] |>.
Definition out_tx (frame : bytes) (out : Outgoing) : Outgoing := out_push (RADIOTAP_TX ++ frame) out.
Definition out_network (eth : bytes) (out : Outgoing) : Outgoing :=
  out <| out_to_network := out_to_network out ++ [eth] |>.

(** * Station operations *)

Definition station_new (mac : bytes) (now : Z) (gtk igtk : bytes) : Station := {|
  st_mac := mac; st_associated := false; st_eapol_ready := false; st_awaiting_m4 := false;
  st_anonce := None; st_kck := replicate 16 0; st_kek := replicate 16 0; st_tk := replicate 16 0;
  st_pairwise_tk := replicate 32 0; st_pairwise_cipher := Ccmp128; st_client_pn := 1;
  st_last_rx_pn := replicate 17 0; st_last_rx_mgmt_pn := 0; st_eapol_replay := 0;
  st_m1_replay := 0; st_ptk_candidates := []; st_last_auth := None; st_last_assoc := None;
  st_sae := None; st_pmk := None; st_sae_confirmed := false; st_sae_h2e := false;
  st_sha256 := false; st_owe := false; st_psk_sha256 := false; st_pmf := false;
  st_last_activity := now; st_gtk := gtk; st_gtk_key_id := 1; st_gtk_rsc := 0; st_igtk := igtk;
  st_igtk_key_id := 4; st_igtk_ipn := replicate 6 0; st_vlan_group_initialized := false;
  st_traits := 0; st_wmm := false; st_assoc_ies := []; st_listen_interval := 0;
  st_capability := 0; st_pending_eapol := None; st_eapol_tx := now; st_eapol_retries := 0;
  st_eapol_acked := false; st_eapol_timer_generation := 0; st_group_rekeying := false;
  st_client_mld_mac := None; st_client_mld_links := []; st_assoc_link_id := None;
  st_sae_resp := []; st_sae_commit := []; st_sa_query := None |}.

Definition next_client_pn (s : Station) : option (Z * Station) :=
  if MAX_PACKET_NUMBER <? st_client_pn s then None
  else Some (st_client_pn s, s <| st_client_pn := st_client_pn s + 1 |>).

Definition key_mic (s : Station) : KeyMic :=
  if negb (st_sha256 s) then HmacSha1
  else if st_owe s then HmacSha256
  else if st_psk_sha256 s then AesCmacV3
  else AesCmac.

(** * AP accessors and counters *)

(** [if let Some(s) = self.stations.get_mut(sta) { .. }] *)
Definition upd_station (sta : bytes) (f : Station -> Station) (ap : Ap) : Ap :=
  ap <| ap_stations := alter f sta (ap_stations ap) |>.

Definition push_event (e : ApEvent) (ap : Ap) : Ap := ap <| ap_events := ap_events ap ++ [e] |>.

Definition next_sc (ap : Ap) : Z * Ap :=
  let sc := (ap_sc ap + 1) mod 4096 in
  (u16 (sc * 16), ap <| ap_sc := sc |>).

Definition next_aid (ap : Ap) : Z * Ap :=
  let aid := (ap_aid ap + 1) mod 2008 in
  (aid, ap <| ap_aid := aid |>).

Definition next_eapol_replay (ap : Ap) : Z * Ap :=
  let c := u64 (ap_eapol_replay_counter ap + 1) in
  let c := if c =? 0 then 1 else c in
  (c, ap <| ap_eapol_replay_counter := c |>).

Definition next_group_pn (ap : Ap) : option (Z * Ap) :=
  if MAX_PACKET_NUMBER <? ap_group_pn ap then None
  else Some (ap_group_pn ap, ap <| ap_group_pn := ap_group_pn ap + 1 |>).

(** [group_pn.saturating_sub(1)] on [u64] *)
Definition current_group_rsc (ap : Ap) : Z := Z.max 0 (ap_group_pn ap - 1).

Definition security_mode (ap : Ap) : SecurityMode :=
  if ap_owe ap then Owe
  else if ap_transition ap then Transition
  else if ap_sae_enabled ap then Wpa3Sae
  else if ap_psk_sha256 ap then Wpa2PskSha256
  else Wpa2.

Definition pairwise_ciphers (ap : Ap) : list DataCipher :=
  match ap_pairwise_cipher ap with
  | Ccmp256 => [Ccmp256; Ccmp128]
  | c => [c]
  end.

Definition advertised_security_tail (ap : Ap) : bytes :=
  security_tail_for_ciphers (security_mode ap) (pairwise_ciphers ap).

Definition station_pairwise_cipher (ap : Ap) (sta : bytes) : DataCipher :=
  match ap_stations ap !! sta with
  | Some s => st_pairwise_cipher s
  | None => ap_pairwise_cipher ap
  end.

(** The group state handed to one station: its own in per-station-VIF mode. *)
Definition own_or_bss {A} (own : Station -> A) (bss : A) (ap : Ap) (sta : bytes) : A :=
  if ap_per_sta_vif ap then
    match ap_stations ap !! sta with Some s => own s | None => bss end
  else bss.

Definition station_gtk (ap : Ap) (sta : bytes) : bytes := own_or_bss st_gtk (ap_gtk ap) ap sta.
Definition station_gtk_key_id (ap : Ap) (sta : bytes) : Z :=
  own_or_bss st_gtk_key_id (ap_gtk_key_id ap) ap sta.
Definition station_group_rsc (ap : Ap) (sta : bytes) : Z :=
  own_or_bss st_gtk_rsc (current_group_rsc ap) ap sta.
Definition station_igtk (ap : Ap) (sta : bytes) : bytes := own_or_bss st_igtk (ap_igtk ap) ap sta.
Definition station_igtk_key_id (ap : Ap) (sta : bytes) : Z :=
  own_or_bss st_igtk_key_id (ap_igtk_key_id ap) ap sta.
Definition station_igtk_ipn (ap : Ap) (sta : bytes) : bytes :=
  own_or_bss st_igtk_ipn (ap_igtk_ipn ap) ap sta.

Definition mld_link_mac (ap : Ap) (link_id : Z) : option bytes :=
  option_map ml_mac (List.find (fun l => ml_link_id l =? link_id) (ap_mld_links ap)).

Definition active_mld_links (ap : Ap) : list MldLink :=
  if ap_mld ap && negb (length (ap_mld_links ap) =? 0)%nat then ap_mld_links ap
  else [{| ml_link_id := ap_link_id ap; ml_mac := ap_mac ap; ml_channel := ap_channel ap;
           ml_width := ap_channel_width ap; ml_band6 := ap_band6 ap |}].

(** [sort_unstable] of link ids. *)
Fixpoint insert_sorted (x : Z) (l : list Z) : list Z :=
  match l with
  | [] => [x]
  | y :: l' => if x <=? y then x :: l else y :: insert_sorted x l'
  end.

Definition station_mld_link_ids (ap : Ap) (sta : bytes) : list Z :=
  match ap_stations ap !! sta with
  | None => []
  | Some s =>
      if negb (ap_mld ap) || bool_decide (st_client_mld_mac s = None) then []
      else
        let association_link := default (ap_link_id ap) (st_assoc_link_id s) in
        let ids := foldl (fun ids '(link_id, _) =>
          if negb (bool_decide (link_id ∈ ids)) &&
             existsb (fun l => ml_link_id l =? link_id) (ap_mld_links ap)
          then ids ++ [link_id] else ids) [association_link] (st_client_mld_links s) in
        foldr insert_sorted [] ids
  end.

(** The security addresses of frames exchanged with a non-AP MLD. *)
Definition station_mld (ap : Ap) (sta : bytes) : option bytes :=
  if ap_mld ap then ap_stations ap !! sta ≫= st_client_mld_mac else None.

Definition mld_data_rx_sec_addrs (ap : Ap) (sta : bytes) (frame : Dot11) : option addrs :=
  option_map (fun sta_mld =>
    (ap_mld_mac ap, sta_mld,
     if beq (addr3 frame) (ap_mac ap) || beq (addr3 frame) (ap_mld_mac ap) then ap_mld_mac ap
     else addr3 frame)) (station_mld ap sta).

Definition mld_data_tx_sec_addrs (ap : Ap) (sta src : bytes) : option addrs :=
  option_map (fun sta_mld =>
    (sta_mld, ap_mld_mac ap,
     if beq src (ap_mac ap) || beq src (ap_mld_mac ap) then ap_mld_mac ap else src))
    (station_mld ap sta).

Definition mld_mgmt_rx_sec_addrs (ap : Ap) (sta : bytes) : option addrs :=
  option_map (fun sta_mld => (ap_mld_mac ap, sta_mld, ap_mld_mac ap)) (station_mld ap sta).

Definition mld_mgmt_tx_sec_addrs (ap : Ap) (sta : bytes) : option addrs :=
  option_map (fun sta_mld => (sta_mld, ap_mld_mac ap, ap_mld_mac ap)) (station_mld ap sta).

(** The pairwise key of a station whose four-way handshake is complete. *)
Definition installed_pairwise_key (ap : Ap) (sta : bytes) : option bytes :=
  match ap_stations ap !! sta with
  | Some s => if st_associated s then Some (st_pairwise_tk s) else None
  | None => None
  end.

Definition station_pending_pairwise_key (ap : Ap) (sta : bytes) : res (option bytes) :=
  match ap_stations ap !! sta with
  | None => Val None
  | Some s =>
      match last (st_ptk_candidates s) with
      | None => Val None
      | Some c => rmap Some (slice (cand_tk c) 0 (key_len (st_pairwise_cipher s)))
      end
  end.

(** * Timers, failures and removal (ap/lifecycle.rs) *)

Definition schedule_maintenance (deadline : Z) (ap : Ap) : Ap :=
  match ap_maintenance_deadline ap with
  | Some current =>
      if deadline <? current then ap <| ap_maintenance_deadline := Some deadline |> else ap
  | None => ap <| ap_maintenance_deadline := Some deadline |>
  end.

Definition arm_eapol_timer (sta : bytes) (ap : Ap) : Ap :=
  match ap_stations ap !! sta with
  | None => ap
  | Some s =>
      let generation := u64 (st_eapol_timer_generation s + 1) in
      let ap := upd_station sta (fun s => s <| st_eapol_timer_generation := generation |>) ap in
      match st_pending_eapol s with
      | None => ap
      | Some _ =>
          let timeout :=
            if (st_eapol_retries s =? 0) && negb (st_eapol_acked s) then EAPOL_FIRST_TIMEOUT
            else EAPOL_TIMEOUT in
          ap <| ap_eapol_deadlines :=
                  (st_eapol_tx s + timeout, generation, sta) :: ap_eapol_deadlines ap |>
      end
  end.

Definition cancel_eapol_timer (sta : bytes) (ap : Ap) : Ap :=
  upd_station sta (fun s =>
    s <| st_eapol_timer_generation := u64 (st_eapol_timer_generation s + 1) |>) ap.

Definition record_failure (sta : bytes) (kind : FailureKind) (ap : Ap) : Ap :=
  let traits := match ap_stations ap !! sta with Some s => st_traits s | None => 0 end in
  let (count, log) := record_failure_entry (ap_failures ap) sta traits kind in
  push_event (AuthFailed sta kind count) (ap <| ap_failures := log |>).

(** Whether any station satisfies a predicate. *)
Definition any_station (f : Station -> bool) (ap : Ap) : bool :=
  existsb (fun p => f p.2) (map_to_list (ap_stations ap)).

Definition disconnect (sta : bytes) (reason : Z) (ap : Ap) : Ap :=
  match ap_stations ap !! sta with
  | None => ap
  | Some s =>
      let ap := ap <| ap_stations := delete sta (ap_stations ap) |>
                   <| ap_removed_stations := ap_removed_stations ap ++ [sta] |> in
      if st_associated s then
        let ap := push_event (Disconnected (default sta (st_client_mld_mac s)) reason) ap in
        if ap_strict_rekey ap && any_station st_associated ap then
          ap <| ap_group_rekey_due := true |>
        else ap
      else ap
  end.

(** A draw of the operating system's generator. *)
Definition random_bytes `{Entropy} (n : nat) (ap : Ap) : bytes * Ap :=
  (os_random (ap_draws ap) n, ap <| ap_draws := (ap_draws ap + 1)%N |>).

(** * Well-formed states

    [station_ok] and [ap_ok] are the type invariants of the Rust structs (array
    lengths, integer widths) together with the ranges the code maintains. *)
Definition pn_ok (pn : Z) : Prop := 0 <= pn <= MAX_PACKET_NUMBER.
Definition u64_ok (z : Z) : Prop := 0 <= z < 2 ^ 64.
Definition opt_ok {A} (Q : A -> Prop) (o : option A) : Prop :=
  match o with Some a => Q a | None => True end.

Definition candidate_ok (c : PtkCandidate) : Prop :=
  u64_ok (m3_replay_counter c) /\ arr 16 (cand_kck c) /\ arr 16 (cand_kek c) /\ arr 32 (cand_tk c).

Record station_ok (s : Station) : Prop := {
  so_kck : arr 16 (st_kck s);
  so_kek : arr 16 (st_kek s);
  so_pairwise_tk : arr 32 (st_pairwise_tk s);
  so_client_pn : 1 <= st_client_pn s <= MAX_PACKET_NUMBER + 1;
  so_rx_len : length (st_last_rx_pn s) = 17%nat;
  so_rx_pn : Forall pn_ok (st_last_rx_pn s);
  so_rx_mgmt : pn_ok (st_last_rx_mgmt_pn s);
  so_replay : u64_ok (st_eapol_replay s);
  so_m1_replay : u64_ok (st_m1_replay s);
  so_candidates : Forall candidate_ok (st_ptk_candidates s);
  so_bounded : (length (st_ptk_candidates s) <= 8)%nat;
  so_anonce : opt_ok (arr 32) (st_anonce s);
  so_pmk : opt_ok (arr 32) (st_pmk s);
  so_gtk : arr 16 (st_gtk s);
  so_gtk_id : st_gtk_key_id s = 1 \/ st_gtk_key_id s = 2;
  so_gtk_rsc : pn_ok (st_gtk_rsc s);
  so_igtk : arr 16 (st_igtk s);
  so_igtk_id : st_igtk_key_id s = 4 \/ st_igtk_key_id s = 5;
  so_igtk_ipn : arr 6 (st_igtk_ipn s);
  so_mld : opt_ok (arr 6) (st_client_mld_mac s);
  so_ies : wf_bytes (st_assoc_ies s);
  so_retries : 0 <= st_eapol_retries s <= MAX_EAPOL_RETRIES
}.

Record ap_ok (ap : Ap) : Prop := {
  ao_mac : arr 6 (ap_mac ap);
  ao_mld_mac : arr 6 (ap_mld_mac ap);
  ao_links : Forall (fun l => arr 6 (ml_mac l)) (ap_mld_links ap);
  ao_few_links : (length (ap_mld_links ap) <= 16)%nat;
  ao_channel : is_byte (ap_channel ap);
  ao_pmk : arr 32 (ap_pmk ap);
  ao_psk : map_Forall (fun _ l => Forall (arr 32) l) (ap_psk_candidates_by_mac ap);
  ao_wild : Forall (arr 32) (ap_wildcard_psk_candidates ap);
  ao_group_pn : 1 <= ap_group_pn ap <= MAX_PACKET_NUMBER + 1;
  ao_gtk : arr 16 (ap_gtk ap);
  ao_gtk_id : ap_gtk_key_id ap = 1 \/ ap_gtk_key_id ap = 2;
  ao_igtk : arr 16 (ap_igtk ap);
  ao_igtk_id : ap_igtk_key_id ap = 4 \/ ap_igtk_key_id ap = 5;
  ao_igtk_ipn : arr 6 (ap_igtk_ipn ap);
  ao_bigtk : arr 16 (ap_bigtk ap);
  ao_bigtk_id : ap_bigtk_key_id ap = 6 \/ ap_bigtk_key_id ap = 7;
  ao_bigtk_ipn : arr 6 (ap_bigtk_ipn ap);
  ao_replay : u64_ok (ap_eapol_replay_counter ap);
  ao_stations : map_Forall (fun m s => arr 6 m /\ station_ok s) (ap_stations ap)
}.

Lemma ap_ok_station ap sta s : ap_ok ap -> ap_stations ap !! sta = Some s -> station_ok s.
Proof. intros H Hs. by apply (ao_stations ap H sta s). Qed.

(** An update of the stations alone keeps the AP well-formed if it keeps the
    stations so. *)
Lemma ap_ok_stations ap m :
  ap_ok ap -> map_Forall (fun m s => arr 6 m /\ station_ok s) m ->
  ap_ok (ap <| ap_stations := m |>).
Proof. intros H Hm. destruct H. by constructor. Qed.

Lemma ap_ok_upd ap sta f :
  ap_ok ap -> (forall s, ap_stations ap !! sta = Some s -> station_ok s -> station_ok (f s)) ->
  ap_ok (upd_station sta f ap).
Proof.
  intros H Hf. apply ap_ok_stations; [done|]. intros m s Hs.
  destruct (decide (m = sta)) as [->|Hne].
  - rewrite lookup_alter_eq in Hs. apply fmap_Some in Hs as (s0 & Hs0 & ->).
    destruct (ao_stations ap H sta s0 Hs0). auto.
  - rewrite lookup_alter_ne in Hs by done. by apply (ao_stations ap H).
Qed.

Lemma upd_station_lookup sta f ap m :
  ap_stations (upd_station sta f ap) !! m
  = if decide (m = sta) then f <$> ap_stations ap !! m else ap_stations ap !! m.
Proof.
  unfold upd_station. fields. case_decide as E; [subst; apply lookup_alter_eq|].
  by apply lookup_alter_ne.
Qed.

(** [inc_ipn_le] counts modulo 2^48. *)
Lemma inc_ipn_le_spec l : wf_bytes l ->
  length (inc_ipn_le l) = length l /\ wf_bytes (inc_ipn_le l) /\
  le_val (inc_ipn_le l) = (le_val l + 1) mod 256 ^ Z.of_nat (length l).
Proof.
  induction l as [|b l IH]; intros Hw; [by rewrite Z.mod_1_r|].
  apply Forall_cons in Hw as [Hb Hw]. destruct (IH Hw) as (Hl & Hw' & Hv).
  pose proof (le_val_bound l Hw) as Hbl. cbn [inc_ipn_le]. unfold u8, is_byte in *.
  assert (Hpow : 256 ^ Z.of_nat (length (b :: l)) = 256 * 256 ^ Z.of_nat (length l))
    by (cbn [length]; rewrite Nat2Z.inj_succ, Z.pow_succ_r by lia; done).
  rewrite Hpow. change (le_val (b :: l)) with (b + 256 * le_val l).
  destruct (decide (b = 255)) as [->|Hne].
  - change ((255 + 1) mod 2 ^ 8) with 0. rewrite Z.eqb_refl.
    split; [cbn; by rewrite Hl|]. split; [by constructor|].
    change (le_val (0 :: inc_ipn_le l)) with (0 + 256 * le_val (inc_ipn_le l)). rewrite Hv.
    replace (255 + 256 * le_val l + 1) with (256 * (le_val l + 1)) by lia.
    rewrite Z.mul_mod_distr_l by lia. lia.
  - rewrite (Z.mod_small (b + 1)) by lia. destruct (Z.eqb_spec (b + 1) 0); [lia|].
    split; [done|]. split; [constructor; [unfold is_byte; lia|done]|].
    change (le_val (b + 1 :: l)) with (b + 1 + 256 * le_val l).
    rewrite Z.mod_small by lia. lia.
Qed.

(** The configuration: what no handler of received frames changes. *)
Definition ap_static (ap : Ap) :=
  (ap_mac ap, ap_ssid ap, ap_channel ap, ap_channel_width ap, ap_band6 ap, ap_mld ap, ap_mld_mac ap,
   ap_link_id ap, ap_mld_links ap, ap_pairwise_cipher ap, ap_per_sta_vif ap, ap_guest ap,
   (ap_sae_enabled ap, ap_psk_sha256 ap, ap_transition ap, ap_owe ap, ap_ocv ap, ap_btm ap),
   (ap_pmk ap, ap_psk_candidates_by_mac ap, ap_wildcard_psk_candidates ap,
    ap_wpa_credentials_authoritative ap, ap_strict_rekey ap)).

Lemma static_upd sta f ap : ap_static (upd_station sta f ap) = ap_static ap.
Proof. done. Qed.

(** ** Preservation by the shared operations *)

(** Every update of fields that [ap_ok] does not mention. *)
Ltac keep_ap_ok H := destruct H; constructor; fields; assumption.
(** The same for [station_ok]; the caller supplies the facts on new values. *)
Ltac keep_station_ok H := destruct H; constructor; fields; assumption.

Lemma next_sc_ok ap : ap_ok ap -> ap_ok (next_sc ap).2.
Proof. intros H. unfold next_sc. cbn [snd]. keep_ap_ok H. Qed.

Lemma next_sc_range ap : 0 <= (next_sc ap).1 < 2 ^ 16.
Proof. unfold next_sc, u16. cbn [fst]. apply Z.mod_pos_bound. lia. Qed.

Lemma push_event_ok e ap : ap_ok ap -> ap_ok (push_event e ap).
Proof. intros H. unfold push_event. keep_ap_ok H. Qed.

(** Replay counters of the AP are never 0 and fit 64 bits. *)
Lemma next_eapol_replay_spec ap :
  let r := next_eapol_replay ap in
  1 <= r.1 < 2 ^ 64 /\ ap_eapol_replay_counter r.2 = r.1 /\ ap_stations r.2 = ap_stations ap.
Proof.
  unfold next_eapol_replay, u64. cbn [fst snd].
  pose proof (Z.mod_pos_bound (ap_eapol_replay_counter ap + 1) (2 ^ 64) ltac:(lia)).
  split; [|split; by fields]. destruct (Z.eqb_spec ((ap_eapol_replay_counter ap + 1) mod 2 ^ 64) 0); lia.
Qed.

Lemma next_eapol_replay_ok ap : ap_ok ap -> ap_ok (next_eapol_replay ap).2.
Proof.
  intros H. pose proof (next_eapol_replay_spec ap) as (Hr & Hc & _).
  assert (Hu : u64_ok (ap_eapol_replay_counter (next_eapol_replay ap).2))
    by (unfold u64_ok; rewrite Hc; lia).
  unfold next_eapol_replay in *. cbn [fst snd] in *. fields_in Hu. keep_ap_ok H.
Qed.

Lemma arm_eapol_timer_stations sta ap :
  ap_stations (arm_eapol_timer sta ap) =
    alter (fun s => s <| st_eapol_timer_generation := u64 (st_eapol_timer_generation s + 1) |>) sta
      (ap_stations ap).
Proof.
  unfold arm_eapol_timer. destruct (ap_stations ap !! sta) as [s|] eqn:Es.
  - assert (alter (fun _ => s <| st_eapol_timer_generation := u64 (st_eapol_timer_generation s + 1) |>) sta (ap_stations ap)
      = alter (fun s => s <| st_eapol_timer_generation := u64 (st_eapol_timer_generation s + 1) |>) sta (ap_stations ap)) as Ha.
    { apply map_eq. intros m. destruct (decide (m = sta)) as [->|];
        [by rewrite !lookup_alter_eq, Es|by rewrite !lookup_alter_ne]. }
    assert (ap_stations (upd_station sta (fun s0 => s0 <| st_eapol_timer_generation := u64 (st_eapol_timer_generation s + 1) |>) ap)
      = alter (fun s => s <| st_eapol_timer_generation := u64 (st_eapol_timer_generation s + 1) |>) sta (ap_stations ap)) as Hu.
    { unfold upd_station. fields. apply map_eq. intros m. destruct (decide (m = sta)) as [->|];
        [by rewrite !lookup_alter_eq, Es|by rewrite !lookup_alter_ne]. }
    destruct (st_pending_eapol s); [|exact Hu]. fields. exact Hu.
  - symmetry. apply map_eq. intros m. destruct (decide (m = sta)) as [->|];
      [by rewrite lookup_alter_eq, Es|by rewrite lookup_alter_ne].
Qed.

Lemma arm_eapol_timer_ok sta ap : ap_ok ap -> ap_ok (arm_eapol_timer sta ap).
Proof.
  intros H. unfold arm_eapol_timer. destruct (ap_stations ap !! sta) as [s|] eqn:Es; [|done].
  assert (Hu : ap_ok (upd_station sta (fun s0 =>
    s0 <| st_eapol_timer_generation := u64 (st_eapol_timer_generation s + 1) |>) ap)).
  { apply ap_ok_upd; [done|]. intros s0 _ H0. keep_station_ok H0. }
  destruct (st_pending_eapol s); [|exact Hu].
  revert Hu. generalize (upd_station sta (fun s0 =>
    s0 <| st_eapol_timer_generation := u64 (st_eapol_timer_generation s + 1) |>) ap).
  intros ap' Hu. keep_ap_ok Hu.
Qed.

Lemma record_failure_ok sta k ap : ap_ok ap -> ap_ok (record_failure sta k ap).
Proof.
  intros H. unfold record_failure.
  destruct (record_failure_entry _ _ _ _) as [c log]. apply push_event_ok. keep_ap_ok H.
Qed.

Lemma record_failure_stations sta k ap : ap_stations (record_failure sta k ap) = ap_stations ap.
Proof. unfold record_failure. by destruct (record_failure_entry _ _ _ _). Qed.

Lemma disconnect_stations sta r ap : ap_stations (disconnect sta r ap) = delete sta (ap_stations ap).
Proof.
  unfold disconnect. destruct (ap_stations ap !! sta) as [s|] eqn:Es.
  - destruct (st_associated s); [|done]. by case_match.
  - symmetry. by apply delete_id.
Qed.

Lemma disconnect_ok sta r ap : ap_ok ap -> ap_ok (disconnect sta r ap).
Proof.
  intros H. unfold disconnect. destruct (ap_stations ap !! sta) as [s|] eqn:Es; [|done].
  assert (Hd : ap_ok (ap <| ap_stations := delete sta (ap_stations ap) |>
                         <| ap_removed_stations := ap_removed_stations ap ++ [sta] |>)).
  { assert (Hs : map_Forall (fun m s => arr 6 m /\ station_ok s) (delete sta (ap_stations ap)))
      by (apply map_Forall_delete, H).
    keep_ap_ok H. }
  revert Hd. generalize (ap <| ap_stations := delete sta (ap_stations ap) |>
                            <| ap_removed_stations := ap_removed_stations ap ++ [sta] |>).
  intros ap' Hd. destruct (st_associated s); [|done].
  pose proof (push_event_ok (Disconnected (default sta (st_client_mld_mac s)) r) ap' Hd) as He.
  revert He. generalize (push_event (Disconnected (default sta (st_client_mld_mac s)) r) ap').
  intros ap'' He. case_match; [|done]. keep_ap_ok He.
Qed.

(** ** The key material handed to a station *)

Lemma own_or_bss_ind {A} (Q : A -> Prop) own bss ap sta :
  (forall s, ap_stations ap !! sta = Some s -> Q (own s)) -> Q bss -> Q (own_or_bss own bss ap sta).
Proof. intros Hs Hb. unfold own_or_bss. destruct (ap_per_sta_vif ap); [case_match; auto|done]. Qed.

Record group_keys_ok (ap : Ap) (sta : bytes) : Prop := {
  go_gtk : arr 16 (station_gtk ap sta);
  go_gtk_id : station_gtk_key_id ap sta = 1 \/ station_gtk_key_id ap sta = 2;
  go_rsc : pn_ok (station_group_rsc ap sta);
  go_igtk : arr 16 (station_igtk ap sta);
  go_igtk_id : station_igtk_key_id ap sta = 4 \/ station_igtk_key_id ap sta = 5;
  go_igtk_ipn : arr 6 (station_igtk_ipn ap sta)
}.

Lemma station_group_keys_ok ap sta : ap_ok ap -> group_keys_ok ap sta.
Proof.
  intros H.
  assert (Hs : forall s, ap_stations ap !! sta = Some s -> station_ok s) by (intros; by eapply ap_ok_station).
  constructor; unfold station_gtk, station_gtk_key_id, station_group_rsc, station_igtk,
    station_igtk_key_id, station_igtk_ipn; apply own_or_bss_ind;
    try (intros s E; apply (Hs s E)); try apply H.
  unfold current_group_rsc, pn_ok. pose proof (ao_group_pn ap H). unfold MAX_PACKET_NUMBER in *. lia.
Qed.

Lemma advertised_security_tail_ok ap :
  wf_bytes (advertised_security_tail ap) /\ (length (advertised_security_tail ap) <= 64)%nat.
Proof.
  unfold advertised_security_tail, pairwise_ciphers.
  destruct (security_mode ap), (ap_pairwise_cipher ap);
    (split; [by apply (bool_decide_unpack _)|vm_compute; lia]).
Qed.
