(* ===== verification/ApConfig.v ===== *)
(** Building and configuring the AP (src/ap/configuration.rs, and
    [PreparedCredentials] of src/ap/station.rs): the initial state, the
    credential databases and their selection rules, the group state of private
    AP_VLANs. *)
From S2P Require Import Prelude Crypto Security Advert Failures Ap.

(** * The initial state *)

Section Construction.
Context `{Entropy} {P : Primitives}.

(** [random_nonzero_u64]: draws until the value is neither 0 nor [u64::MAX]. *)
Definition random_nonzero_step (draws : N) : res (N + Z * N) :=
  let value := be_val (os_random draws 8) in
  let draws := (draws + 1)%N in
  if negb (value =? 0) && negb (value =? 2 ^ 64 - 1) then Val (inr (value, draws))
  else Val (inl draws).

Definition random_nonzero_u64 (fuel : nat) (draws : N) : res (Z * N) :=
  loop fuel random_nonzero_step draws.

Definition new_without_credential (fuel : nat) (now : Z) (ssid mac : bytes) (channel : Z) : res Ap :=
  let gtk_full := os_random 0 32 in
  let! gtk := slice gtk_full 0 16 in
  let igtk := os_random 1 16 in
  let bigtk := os_random 2 16 in
  let! '(eapol_replay_counter, draws) := random_nonzero_u64 fuel 3 in
  let sae_token_key := os_random draws 32 in
  Val {|
    ap_mac := mac; ap_ssid := ssid; ap_country := [85; 83]; ap_channel := channel;
    ap_channel_width := 20; ap_punct := 0;
    ap_mld := false; ap_mld_mac := replicate 6 0; ap_link_id := 0; ap_bss_change_count := 0;
    ap_mld_links := []; ap_mld_default_link_mask := None; ap_mld_eml_capability := 0;
    ap_mld_driver_capability := None; ap_mld_link_phy_capabilities := ∅; ap_phy_mode := Vht;
    ap_pairwise_cipher := Ccmp128; ap_pmk := replicate 32 0;
    ap_psk_candidates_by_mac := ∅; ap_wildcard_psk_candidates := [];
    ap_credential_passwords_by_mac := ∅; ap_wildcard_credential_password := None;
    ap_wpa_credentials_authoritative := false; ap_sae_credentials_authoritative := false;
    ap_credential_reload_pending := false; ap_password := []; ap_sae_enabled := false;
    ap_psk_sha256 := false; ap_transition := false; ap_boottime := now; ap_sc := 0; ap_aid := 0;
    ap_group_pn := 1; ap_gtk := gtk; ap_gtk_key_id := 1; ap_igtk := igtk; ap_igtk_key_id := 4;
    ap_igtk_ipn := replicate 6 0; ap_bigtk := bigtk; ap_bigtk_key_id := 6;
    ap_bigtk_ipn := replicate 6 0; ap_beacon_prot := false; ap_pending_csa := None;
    ap_multi_bssid := false; ap_btm := false; ap_rnr_6ghz := None; ap_band6 := false;
    ap_per_sta_vif := false; ap_guest := false; ap_static_credential := false;
    ap_mgmt_rx_link := None; ap_wmm := true; ap_ocv := false; ap_owe := false; ap_sa_query_id := 0;
    ap_pmksa_cache := ∅; ap_pending_anonce := ∅; ap_maintenance_deadline := None;
    ap_eapol_deadlines := []; ap_removed_stations := []; ap_key_install_stations := [];
    ap_key_ready_stations := []; ap_group_key_epoch := 0; ap_async_sae := None;
    ap_eapol_replay_counter := eapol_replay_counter; ap_sae_token_key := sae_token_key;
    ap_request_rates := ∅; ap_stations := ∅; ap_failures := default_log; ap_events := [];
    ap_group_rekey_secs := 600; ap_strict_rekey := true; ap_last_group_rekey := now;
    ap_group_rekey_due := false; ap_test_anonce := None; ap_draws := (draws + 1)%N |}.

Definition ap_new (fuel : nat) (now : Z) (ssid psk mac : bytes) (channel : Z) : res Ap :=
  let! ap := new_without_credential fuel now ssid mac channel in
  Val (ap <| ap_pmk := pbkdf2_pmk psk ssid |> <| ap_password := psk |>).

(** [derive_missing_mld_link_macs]: the inner loop draws the last three octets
    until the address is unused. *)
Definition link_mac_step (base : bytes) (st : N * gset bytes) :
    res (N * gset bytes + bytes * (N * gset bytes)) :=
  let (draws, used) := st in
  let mac := take 3 base ++ os_random draws 3 in
  let draws := (draws + 1)%N in
  let! b0 := idx mac 0 in
  let mac := <[0%nat := Z.lor (Z.land b0 0xfe) 0x02]> mac in
  if bool_decide (mac ∈ used) then Val (inl (draws, used))
  else Val (inr (mac, (draws, {[mac]} ∪ used))).

Fixpoint derive_link_macs (fuel : nat) (base : bytes) (links : list MldLink) (st : N * gset bytes) :
    res (list MldLink * (N * gset bytes)) :=
  match links with
  | [] => Val ([], st)
  | l :: rest =>
      let! '(l, st) :=
        if beq (ml_mac l) (replicate 6 0) then
          let! '(mac, st) := loop fuel (link_mac_step base) st in
          Val ({| ml_link_id := ml_link_id l; ml_mac := mac; ml_channel := ml_channel l;
                  ml_width := ml_width l; ml_band6 := ml_band6 l |}, st)
        else Val (l, st) in
      let! '(rest, st) := derive_link_macs fuel base rest st in
      Val (l :: rest, st)
  end.

Definition derive_missing_mld_link_macs (fuel : nat) (ap : Ap) : res Ap :=
  let base := ap_mld_mac ap in
  let used := {[base]} ∪ list_to_set (List.filter (fun m => negb (beq m (replicate 6 0)))
                                        (map ml_mac (ap_mld_links ap))) in
  let! '(links, (draws, _)) := derive_link_macs fuel base (ap_mld_links ap) (ap_draws ap, used) in
  Val (ap <| ap_mld_links := links |> <| ap_draws := draws |>).

(** ** Group state of a private AP_VLAN *)

Definition set_station_vlan_group_sequences (sta : bytes) (gtk igtk : option bytes) (ap : Ap) : Ap :=
  if negb (ap_per_sta_vif ap) then ap
  else upd_station sta (fun s =>
    let s := match gtk with
             | Some sequence => s <| st_gtk_rsc := le_val (take 6 sequence ++ [0; 0]) |>
             | None => s end in
    match igtk with Some sequence => s <| st_igtk_ipn := sequence |> | None => s end) ap.

Definition initialize_station_vlan_group (sta : bytes) (ap : Ap) : bool * Ap :=
  if negb (ap_per_sta_vif ap) then (false, ap)
  else
    match ap_stations ap !! sta with
    | None => (false, ap)
    | Some s =>
        if st_vlan_group_initialized s then (false, ap)
        else
          let (gtk, ap) := random_bytes 16 ap in
          let (igtk, ap) := random_bytes 16 ap in
          (true, upd_station sta (fun s =>
             s <| st_gtk := gtk |>
               <| st_gtk_key_id := if st_gtk_key_id s =? 1 then 2 else 1 |>
               <| st_gtk_rsc := 0 |> <| st_igtk := igtk |>
               <| st_igtk_key_id := if st_igtk_key_id s =? 4 then 5 else 4 |>
               <| st_igtk_ipn := replicate 6 0 |> <| st_vlan_group_initialized := true |>) ap)
    end.

End Construction.

(** [set_operating_channel]: the driver's report of a completed switch. *)
Definition set_operating_channel (link_id : option Z) (channel : Z) (width : option Z) (band6 : bool)
    (ap : Ap) : Ap :=
  let target_link := default (ap_link_id ap) link_id in
  let fix update links :=
    match links with
    | [] => []
    | l :: rest =>
        if ml_link_id l =? target_link then
          {| ml_link_id := ml_link_id l; ml_mac := ml_mac l; ml_channel := channel;
             ml_width := default (ml_width l) width; ml_band6 := band6 |} :: rest
        else l :: update rest
    end in
  let ap := ap <| ap_mld_links := update (ap_mld_links ap) |> in
  if negb (ap_mld ap) || (target_link =? ap_link_id ap) then
    let ap := ap <| ap_channel := channel |> <| ap_band6 := band6 |> in
    match width with Some w => ap <| ap_channel_width := w |> | None => ap end
  else ap.

Definition set_test_fixtures (gtk anonce : bytes) (ap : Ap) : Ap :=
  ap <| ap_gtk := gtk |> <| ap_test_anonce := Some anonce |> <| ap_eapol_replay_counter := 0 |>.

Definition enable_sae (ap : Ap) : Ap := ap <| ap_sae_enabled := true |>.
Definition enable_transition (ap : Ap) : Ap :=
  ap <| ap_sae_enabled := true |> <| ap_transition := true |>.
Definition enable_beacon_protection (ap : Ap) : Ap :=
  ap <| ap_sae_enabled := true |> <| ap_beacon_prot := true |>.

(** * Credential databases *)

(** A credential file's line: an address, or the wildcard, and a passphrase. *)
Definition CredentialEntry : Type := option bytes * bytes.

Record PreparedWpaCredentials := {
  wpa_by_mac : gmap bytes (list bytes);
  wpa_wildcard : list bytes
}.
Record PreparedSaeCredentials := {
  sae_by_mac : gmap bytes bytes;
  sae_wildcard : option bytes
}.
Record PreparedCredentials := {
  prep_wpa : option PreparedWpaCredentials;
  prep_sae : option PreparedSaeCredentials
}.

Section Credentials.
Context {P : Primitives}.

(** One iteration of each loop of [PreparedCredentials::derive].  The SSID is
    valid UTF-8 (the AP is built from a string), so that [from_utf8_lossy]
    leaves it as it is. *)
Definition add_wpa_entry (ssid : bytes) (c : PreparedWpaCredentials) (e : CredentialEntry) :
    PreparedWpaCredentials :=
  let pmk := pbkdf2_pmk e.2 ssid in
  match e.1 with
  | Some mac =>
      {| wpa_by_mac := <[mac := default [] (wpa_by_mac c !! mac) ++ [pmk]]> (wpa_by_mac c);
         wpa_wildcard := wpa_wildcard c |}
  | None => {| wpa_by_mac := wpa_by_mac c; wpa_wildcard := wpa_wildcard c ++ [pmk] |}
  end.

Definition add_sae_entry (c : PreparedSaeCredentials) (e : CredentialEntry) : PreparedSaeCredentials :=
  match e.1 with
  | Some mac =>
      {| sae_by_mac := match sae_by_mac c !! mac with
                       | Some _ => sae_by_mac c
                       | None => <[mac := e.2]> (sae_by_mac c) end;
         sae_wildcard := sae_wildcard c |}
  | None =>
      {| sae_by_mac := sae_by_mac c;
         sae_wildcard := match sae_wildcard c with None => Some e.2 | w => w end |}
  end.

Definition derive_credentials (ssid : bytes) (wpa_entries sae_entries : option (list CredentialEntry)) :
    PreparedCredentials :=
  {| prep_wpa := option_map (foldl (add_wpa_entry ssid) {| wpa_by_mac := ∅; wpa_wildcard := [] |}) wpa_entries;
     prep_sae := option_map (foldl add_sae_entry {| sae_by_mac := ∅; sae_wildcard := None |}) sae_entries |}.

Definition install_prepared_credentials (prepared : PreparedCredentials) (ap : Ap) : Ap :=
  if ap_static_credential ap then ap
  else
    let ap := ap <| ap_pmksa_cache := ∅ |> in
    let ap :=
      match prep_wpa prepared with
      | Some wpa =>
          ap <| ap_psk_candidates_by_mac := wpa_by_mac wpa |>
             <| ap_wildcard_psk_candidates := wpa_wildcard wpa |>
             <| ap_wpa_credentials_authoritative := true |>
             <| ap_pmk := replicate 32 0 |>
      | None => ap
      end in
    let ap :=
      match prep_sae prepared with
      | Some sae =>
          ap <| ap_credential_passwords_by_mac := sae_by_mac sae |>
             <| ap_wildcard_credential_password := sae_wildcard sae |>
             <| ap_sae_credentials_authoritative := true |>
             <| ap_password := [] |>
      | None => ap
      end in
    ap <| ap_credential_reload_pending := false |>.

Definition set_wpa_psk_file (entries : list CredentialEntry) (ap : Ap) : Ap :=
  if ap_static_credential ap then ap
  else install_prepared_credentials (derive_credentials (ap_ssid ap) (Some entries) None) ap.

Definition set_sae_password_file (entries : list CredentialEntry) (ap : Ap) : Ap :=
  if ap_static_credential ap then ap
  else install_prepared_credentials (derive_credentials (ap_ssid ap) None (Some entries)) ap.

Definition begin_psk_reload (ap : Ap) : Ap :=
  if ap_static_credential ap then ap else ap <| ap_credential_reload_pending := true |>.

Definition cancel_psk_reload (ap : Ap) : Ap := ap <| ap_credential_reload_pending := false |>.

(** Exact MLD address, then exact link address, then the wildcard, then (for a
    BSS without a database) the configured password. *)
Definition sae_password_for (ap : Ap) (identity : bytes) (link_identity : option bytes) : option bytes :=
  if ap_credential_reload_pending ap then None
  else
    match ap_credential_passwords_by_mac ap !! identity with
    | Some p => Some p
    | None =>
        match link_identity ≫= fun link => ap_credential_passwords_by_mac ap !! link with
        | Some p => Some p
        | None =>
            match ap_wildcard_credential_password ap with
            | Some p => Some p
            | None => if ap_sae_credentials_authoritative ap then None else Some (ap_password ap)
            end
        end
    end.

End Credentials.

(** * Properties *)

Section Construction_ok.
Context {E : Entropy} {Eok : EntropyOk E} {P : Primitives} {Pok : PrimitivesOk P}.

(** The loop ends at the first draw that is neither 0 nor the maximum. *)
Lemma random_nonzero_u64_spec n draws fuel :
  (n < fuel)%nat ->
  (let v := be_val (os_random (draws + N.of_nat n) 8) in v <> 0 /\ v <> 2 ^ 64 - 1) ->
  exists v d, random_nonzero_u64 fuel draws = Val (v, d) /\ 0 < v < 2 ^ 64 - 1.
Proof.
  revert n draws. induction fuel as [|fuel IH]; intros n draws Hn Hv; [lia|].
  unfold random_nonzero_u64. cbn [loop]. unfold random_nonzero_step at 1.
  pose proof (os_random_arr draws 8) as [Hl Hw].
  pose proof (be_val_bound (os_random draws 8) Hw) as Hb. rewrite Hl in Hb.
  destruct (Z.eqb_spec (be_val (os_random draws 8)) 0) as [E0|E0],
           (Z.eqb_spec (be_val (os_random draws 8)) (2 ^ 64 - 1)) as [E1|E1]; cbn [negb andb rbind].
  4:{ do 2 eexists. split; [done|]. change (256 ^ Z.of_nat 8) with (2 ^ 64) in Hb. lia. }
  all: destruct n as [|n];
    [rewrite N.add_0_r in Hv; cbn zeta in Hv; lia
    |apply (IH n (draws + 1)%N); [lia|]; replace (draws + 1 + N.of_nat n)%N with (draws + N.of_nat (S n))%N by lia; done].
Qed.

(** The initial AP is well-formed. *)
Lemma new_without_credential_ok fuel now ssid mac channel :
  (exists n, (n < fuel)%nat /\
    let v := be_val (os_random (3 + N.of_nat n) 8) in v <> 0 /\ v <> 2 ^ 64 - 1) ->
  arr 6 mac -> is_byte channel ->
  exists ap, new_without_credential fuel now ssid mac channel = Val ap /\ ap_ok ap /\
    ap_stations ap = ∅ /\ ap_mac ap = mac /\ ap_ssid ap = ssid /\ ap_channel ap = channel.
Proof.
  intros (n & Hn & Hv) Hm Hc. unfold new_without_credential.
  destruct (os_random_arr 0 32) as [Hl Hw]. rust_steps.
  destruct (random_nonzero_u64_spec n 3 fuel Hn Hv) as (v & d & -> & Hvr). cbn [rbind].
  eexists. split; [done|]. split; [|done].
  assert (Hz : forall k, arr k (replicate k 0)).
  { intros k. split; [apply length_replicate|]. apply wf_bytes_replicate. unfold is_byte. lia. }
  constructor; fields; try done; try (by left); try apply os_random_arr; try apply Hz.
  all: try (apply arr_sub; [done|lia|lia]).
  all: cbn; unfold u64_ok, MAX_PACKET_NUMBER; lia.
Qed.

Lemma pbkdf2_pmk_arr psk ssid : wf_bytes psk -> wf_bytes ssid -> arr 32 (pbkdf2_pmk psk ssid).
Proof. intros. unfold pbkdf2_pmk. by apply pbkdf2_hmac_sha1_arr. Qed.

End Construction_ok.

Section Credentials_ok.
Context {P : Primitives} {Pok : PrimitivesOk P}.

(** The entries of a database that concern [mac], in file order. *)
Definition entries_of (mac : option bytes) (entries : list CredentialEntry) : list bytes :=
  map snd (List.filter (fun e => bool_decide (e.1 = mac)) entries).

Lemma entries_of_snoc mac entries e :
  entries_of mac (entries ++ [e]) =
    entries_of mac entries ++ (if bool_decide (e.1 = mac) then [e.2] else []).
Proof.
  unfold entries_of. rewrite List.filter_app, map_app. cbn [List.filter].
  by case_bool_decide.
Qed.

(** The WPA database: every passphrase of an address, in file order. *)
Lemma wpa_database ssid entries :
  let d := foldl (add_wpa_entry ssid) {| wpa_by_mac := ∅; wpa_wildcard := [] |} entries in
  (forall mac, default [] (wpa_by_mac d !! mac) =
     map (fun p => pbkdf2_pmk p ssid) (entries_of (Some mac) entries)) /\
  wpa_wildcard d = map (fun p => pbkdf2_pmk p ssid) (entries_of None entries).
Proof.
  induction entries as [|[m p] entries [IH1 IH2]] using rev_ind; [by split; [intros mac; cbn [foldl wpa_by_mac sae_by_mac]; rewrite lookup_empty|]|].
  cbn zeta. rewrite foldl_snoc. set (d := foldl _ _ entries) in *. clearbody d.
  unfold add_wpa_entry. split.
  - intros mac. rewrite entries_of_snoc, map_app, <- IH1. cbn [fst snd].
    destruct m as [m|]; cbn [wpa_by_mac].
    + case_bool_decide as E.
      * injection E as ->. by rewrite lookup_insert_eq.
      * rewrite lookup_insert_ne by congruence. by rewrite app_nil_r.
    + rewrite bool_decide_eq_false_2 by done. by rewrite app_nil_r.
  - rewrite entries_of_snoc, map_app, <- IH2. cbn [fst snd].
    destruct m as [m|]; cbn [wpa_wildcard]; [|by rewrite bool_decide_eq_true_2].
    rewrite bool_decide_eq_false_2 by done. by rewrite app_nil_r.
Qed.

(** The SAE database: the first passphrase of an address wins. *)
Lemma sae_database entries :
  let d := foldl add_sae_entry {| sae_by_mac := ∅; sae_wildcard := None |} entries in
  (forall mac, sae_by_mac d !! mac = head (entries_of (Some mac) entries)) /\
  sae_wildcard d = head (entries_of None entries).
Proof.
  assert (Hh : forall (l : list bytes) x, head (l ++ [x]) = match head l with Some y => Some y | None => Some x end)
    by (by intros []).
  induction entries as [|[m p] entries [IH1 IH2]] using rev_ind; [by split; [intros mac; cbn [foldl wpa_by_mac sae_by_mac]; rewrite lookup_empty|]|].
  cbn zeta. rewrite foldl_snoc. set (d := foldl _ _ entries) in *. clearbody d.
  unfold add_sae_entry. split.
  - intros mac. rewrite entries_of_snoc. cbn [fst snd].
    destruct m as [m|]; cbn [sae_by_mac].
    + case_bool_decide as E.
      * injection E as ->. rewrite Hh, <- IH1. destruct (sae_by_mac d !! mac) eqn:Em; [done|].
        by rewrite lookup_insert_eq.
      * rewrite app_nil_r, <- IH1. destruct (sae_by_mac d !! m); [done|].
        by rewrite lookup_insert_ne by congruence.
    + rewrite bool_decide_eq_false_2 by done. by rewrite app_nil_r.
  - rewrite entries_of_snoc. cbn [fst snd].
    destruct m as [m|]; cbn [sae_wildcard].
    + rewrite bool_decide_eq_false_2 by done. by rewrite app_nil_r.
    + rewrite bool_decide_eq_true_2 by done. rewrite Hh, <- IH2. by destruct (sae_wildcard d).
Qed.

Lemma install_credentials_ok prepared ap :
  ap_ok ap ->
  match prep_wpa prepared with
  | Some w => map_Forall (fun _ l => Forall (arr 32) l) (wpa_by_mac w) /\ Forall (arr 32) (wpa_wildcard w)
  | None => True
  end -> ap_ok (install_prepared_credentials prepared ap).
Proof.
  intros H Hw. unfold install_prepared_credentials. destruct (ap_static_credential ap); [done|].
  assert (Hz : arr 32 (replicate 32 0)) by (by apply (bool_decide_unpack _)).
  destruct (prep_wpa prepared) as [w|]; [destruct Hw as [Hw1 Hw2]|];
    destruct (prep_sae prepared); keep_ap_ok H.
Qed.

(** Loading a WPA credential file makes it authoritative: from then on the PMKs
    tried for a station are exactly those of the file (its own entries first, in
    file order, then the wildcards), the configured passphrase no longer counts,
    and no cached PMKSA outlives the reload. *)
Lemma set_wpa_psk_file_spec entries ap :
  ap_static_credential ap = false ->
  let ap' := set_wpa_psk_file entries ap in
  ap_wpa_credentials_authoritative ap' = true /\ ap_pmk ap' = replicate 32 0 /\
  ap_pmksa_cache ap' = ∅ /\ ap_credential_reload_pending ap' = false /\
  (forall mac, default [] (ap_psk_candidates_by_mac ap' !! mac) =
     map (fun p => pbkdf2_pmk p (ap_ssid ap)) (entries_of (Some mac) entries)) /\
  ap_wildcard_psk_candidates ap' = map (fun p => pbkdf2_pmk p (ap_ssid ap)) (entries_of None entries).
Proof.
  intros Hs ap'. subst ap'. unfold set_wpa_psk_file. rewrite Hs.
  unfold install_prepared_credentials. rewrite Hs.
  destruct (wpa_database (ap_ssid ap) entries) as [H1 H2].
  cbn [prep_wpa prep_sae derive_credentials option_map].
  repeat split; [intros mac; fields; apply H1|fields; apply H2].
Qed.

(** SAE password selection after loading a password file: the first entry for
    the (MLD) identity, else the first for the link address, else the first
    wildcard, and no password at all for anybody else. *)
Lemma sae_password_spec entries ap identity link :
  ap_static_credential ap = false ->
  sae_password_for (set_sae_password_file entries ap) identity link =
  match head (entries_of (Some identity) entries) with
  | Some p => Some p
  | None =>
      match link ≫= fun l => head (entries_of (Some l) entries) with
      | Some p => Some p
      | None => head (entries_of None entries)
      end
  end.
Proof.
  intros Hs. unfold set_sae_password_file. rewrite Hs. unfold install_prepared_credentials. rewrite Hs.
  destruct (sae_database entries) as [H1 H2]. cbn [prep_wpa prep_sae derive_credentials option_map].
  unfold sae_password_for. fields. rewrite H1, H2.
  destruct (head (entries_of (Some identity) entries)); [done|].
  destruct link as [l|]; cbn; [rewrite H1|]; repeat case_match; congruence.
Qed.

End Credentials_ok.

Definition small_ap : Ap := Eval vm_compute in
  returned (ap_new 8 0 [0x6f; 0x78] [1; 2; 3; 4; 5; 6; 7; 8] (replicate 6 2) 36).
