(* ===== verification/ApEapol.v ===== *)
(** The authenticator's EAPOL-Key processing: [Ap::handle_eapol] of
    src/ap/handshake.rs, one definition per message it accepts. *)
From S2P Require Import Prelude Elements Crypto Security Frames Channels DataProt Kde Rsn Eapol Sae Failures Roaming Ap.

(** The pairwise keys derived from one PMK: KCK, KEK and the TK padded to 32
    octets. *)
Record Ptk := { ptk_kck : bytes; ptk_kek : bytes; ptk_tk : bytes }.

Section Handshake.
Context {P : Primitives}.

(** ** Group key handshake, message 2 *)

Definition group_msg2_shape (mic : KeyMic) (ek : EapolKey) : bool :=
  key_info_matches (ek_key_info ek) (Z.lor 0x0300 (expected_key_descriptor_version mic)) &&
  (ek_key_length ek =? 0) && beq (ek_nonce ek) (replicate 32 0) &&
  (length (ek_key_data ek) =? 0)%nat.

Definition handle_group_msg2 (now : Z) (sta : bytes) (s : Station) (eapol : bytes) (ek : EapolKey)
    (ap : Ap) : res Ap :=
  if negb (group_msg2_shape (key_mic s) ek) then Val ap
  else
    let! ok := eapol_mic_valid (key_mic s) (st_kck s) eapol ek in
    if ok then
      Val (upd_station sta (fun s => s <| st_group_rekeying := false |>
             <| st_pending_eapol := None |> <| st_last_activity := now |>) ap)
    else Val ap.

(** ** Message 4 *)

Definition is_m4 (mic : KeyMic) (ek : EapolKey) : bool :=
  key_info_matches (ek_key_info ek) (Z.lor 0x0308 (expected_key_descriptor_version mic)) &&
  (ek_key_length ek =? 0) && beq (ek_nonce ek) (replicate 32 0).

(** The first candidate whose MIC verifies (and, for an MLD peer, whose MAC
    KDE names it). *)
Fixpoint select_candidate (mic : KeyMic) (eapol : bytes) (ek : EapolKey)
    (expected_mld : option bytes) (candidates : list PtkCandidate) : res (option PtkCandidate) :=
  match candidates with
  | [] => Val None
  | c :: rest =>
      let! ok := eapol_mic_valid mic (cand_kck c) eapol ek in
      if negb ok then select_candidate mic eapol ek expected_mld rest
      else
        let! key_data_valid :=
          match expected_mld with
          | Some expected =>
              rmap (fun o => bool_decide (o = Some expected)) (parse_mac_addr_kde (ek_key_data ek))
          | None => Val true
          end in
        if key_data_valid then Val (Some c)
        else select_candidate mic eapol ek expected_mld rest
  end.

(** Installing a PTK.  The packet numbers belong to the key: they restart only
    when the temporal key differs from the one already installed. *)
Definition same_temporal_key (s : Station) (c : PtkCandidate) : bool :=
  let tk_len := key_len (st_pairwise_cipher s) in
  st_associated s && constant_time_eq (take tk_len (st_pairwise_tk s)) (take tk_len (cand_tk c)).

Definition install_ptk (c : PtkCandidate) (s : Station) : Station :=
  let s' := s <| st_kck := cand_kck c |> <| st_kek := cand_kek c |>
              <| st_tk := take 16 (cand_tk c) |> <| st_pairwise_tk := cand_tk c |> in
  let s' :=
    if same_temporal_key s c then s'
    else s' <| st_client_pn := 1 |> <| st_last_rx_pn := replicate 17 0 |>
            <| st_last_rx_mgmt_pn := 0 |> in
  s' <| st_ptk_candidates := [] |> <| st_associated := true |> <| st_awaiting_m4 := false |>
     <| st_pending_eapol := None |>.

Definition handle_m4 (sta : bytes) (s : Station) (eapol : bytes) (ek : EapolKey) (ap : Ap) : res Ap :=
  let candidates :=
    List.filter (fun c => m3_replay_counter c =? ek_replay_counter ek) (st_ptk_candidates s) in
  let expected_mld := if ap_mld ap then st_client_mld_mac s else None in
  let! selected := select_candidate (key_mic s) eapol ek expected_mld candidates in
  match selected with
  | None => Val ap
  | Some c =>
      let ap := upd_station sta (install_ptk c) ap in
      let ap := push_event (Connected (default sta (st_client_mld_mac s))) ap in
      let ap := ap <| ap_key_ready_stations := ap_key_ready_stations ap ++ [sta] |> in
      Val (ap <| ap_pending_anonce := delete sta (ap_pending_anonce ap) |>)
  end.

(** ** Message 2 *)

(** [(amac, smac)]: the two MLD identities for an MLD peer, otherwise the
    association link's BSSID and the station's address. *)
Definition ptk_addresses (ap : Ap) (sta : bytes) (s : Station) : bytes * bytes :=
  let association_link :=
    default (ap_mac ap) (st_assoc_link_id s ≫= mld_link_mac ap) in
  match st_client_mld_mac s with
  | Some cmld => if ap_mld ap then (ap_mld_mac ap, cmld) else (association_link, sta)
  | None => (association_link, sta)
  end.

(** The PMKs tried against message 2, in order. *)
Definition pmk_candidates (ap : Ap) (sta : bytes) (s : Station) : list bytes :=
  match st_pmk s with
  | Some p => [p]
  | None =>
      default [] (ap_psk_candidates_by_mac ap !! sta) ++ ap_wildcard_psk_candidates ap
      ++ (if ap_wpa_credentials_authoritative ap then [] else [ap_pmk ap])
  end.

Definition derive_ptk (sha256_kdf : bool) (tk_len : nat) (pmk amac smac anonce snonce : bytes) :
    res Ptk :=
  let! ptk :=
    if sha256_kdf then derive_ptk_sha256_len pmk amac smac anonce snonce (32 + tk_len)
    else custom_prf512 pmk amac smac anonce snonce in
  let! kck := slice ptk 0 16 in
  let! kek := slice ptk 16 32 in
  let! tk := slice ptk 32 (32 + tk_len) in
  Val {| ptk_kck := kck; ptk_kek := kek; ptk_tk := tk ++ replicate (32 - tk_len) 0 |}.

(** The first PMK whose KCK verifies the MIC of message 2. *)
Fixpoint match_pmk (mic : KeyMic) (derive : bytes -> res Ptk) (to_check key_mic : bytes)
    (pmks : list bytes) : res (option (bytes * Ptk)) :=
  match pmks with
  | [] => Val None
  | pmk :: rest =>
      let! ptk := derive pmk in
      let! computed := mic_compute mic (ptk_kck ptk) to_check in
      if constant_time_eq computed key_mic then Val (Some (pmk, ptk))
      else match_pmk mic derive to_check key_mic rest
  end.

(** Operating Channel Validation of message 2. *)
Definition oci_accepted (ap : Ap) (key_data : bytes) : res bool :=
  if ap_ocv ap then
    let! oci := parse_oci_kde key_data in
    match oci with
    | Some (oc, ch) =>
        Val ((ch =? ap_channel ap) && oci_class_matches_band oc (ap_channel ap) (ap_band6 ap))
    | None => Val false
    end
  else Val true.

(** A bounded, duplicate-free list of PTK candidates for one message 3. *)
Definition push_candidate (m3_replay : Z) (k : Ptk) (l : list PtkCandidate) : list PtkCandidate :=
  if existsb (fun c => (m3_replay_counter c =? m3_replay) && beq (cand_kck c) (ptk_kck k)) l then l
  else (if (8 <=? length l)%nat then drop 1 l else l)
       ++ [{| m3_replay_counter := m3_replay; cand_kck := ptk_kck k; cand_kek := ptk_kek k;
              cand_tk := ptk_tk k |}].

(** Message 3 for the keys [k]: the frame and the AP with its counters moved. *)
Definition build_m3 (sta : bytes) (s : Station) (anonce : bytes) (k : Ptk) (m3_replay : Z) (ap : Ap) :
    res (bytes * Ap) :=
  let igtk :=
    if st_pmf s then
      Some (station_igtk_key_id ap sta, station_igtk_ipn ap sta, station_igtk ap sta)
    else None in
  let bigtk :=
    if st_pmf s && ap_beacon_prot ap then
      Some (ap_bigtk_key_id ap, ap_bigtk_ipn ap, ap_bigtk ap)
    else None in
  let oci :=
    if ap_ocv ap then
      Some (operating_class (ap_channel ap) (ap_channel_width ap) (ap_band6 ap), ap_channel ap)
    else None in
  let (sc, ap) := next_sc ap in
  let ap_rsn := advertised_security_tail ap in
  let gtk := station_gtk ap sta in
  let gtk_key_id := station_gtk_key_id ap sta in
  let group_rsc := station_group_rsc ap sta in
  let! m3 :=
    if ap_mld ap && negb (bool_decide (st_client_mld_mac s = None)) then
      let negotiated := station_mld_link_ids ap sta in
      let negotiated :=
        match st_assoc_link_id s with
        | Some l => if bool_decide (l ∈ negotiated) then negotiated else negotiated ++ [l]
        | None => negotiated
        end in
      let links :=
        map (fun l => (ml_link_id l, ml_mac l, ap_rsn))
          (List.filter (fun l => bool_decide (ml_link_id l ∈ negotiated)) (active_mld_links ap)) in
      build_eapol_m3_mld_links_with_rsc (ap_mac ap) sta anonce (ptk_kck k) (ptk_kek k)
        (ap_mld_mac ap) links gtk_key_id gtk igtk bigtk oci group_rsc m3_replay sc (key_mic s)
    else
      build_eapol_m3_for_key_length_with_rsc (ap_mac ap) sta anonce (ptk_kck k) (ptk_kek k)
        ap_rsn gtk_key_id gtk igtk bigtk oci group_rsc m3_replay sc (key_mic s)
        (Z.of_nat (key_len (st_pairwise_cipher s))) in
  Val (m3, ap).

(** [btm_request_frame]: the unprotected steering request sent after message 3
    to stations without management-frame protection. *)
Definition btm_request_frame (sta : bytes) (ap : Ap) : bytes * Ap :=
  let op_class := if is_5ghz (ap_channel ap) then 115 else 81 in
  let cand := take 5 (ap_mac ap) ++ [Z.lxor (byte_at (ap_mac ap) 5) 0x01] in
  let candidates := neighbor_report_element cand op_class (ap_channel ap) in
  let b := btm_request_body 1 BTM_REQ_PREF_CAND_LIST 0 255 candidates in
  let (sc, ap) := next_sc ap in
  (build_action_frame sta (ap_mac ap) (ap_mac ap) sc b, ap).

(** Everything after message 2 has been authenticated: pin the PMK, check the
    operating channel, keep the candidate, send message 3. *)
Definition accept_m2 (now : Z) (sta : bytes) (s : Station) (anonce pmk : bytes) (k : Ptk)
    (m2_key_data : bytes) (ap : Ap) (out : Outgoing) : res (Ap * Outgoing) :=
  let ap := upd_station sta (fun s => s <| st_pmk := Some pmk |>) ap in
  let! oci_ok := oci_accepted ap m2_key_data in
  if negb oci_ok then Val (ap, out)
  else
    let ap :=
      if st_awaiting_m4 s then ap
      else ap <| ap_pending_anonce := delete sta (ap_pending_anonce ap) |> in
    let (m3_replay, ap) :=
      if st_awaiting_m4 s then (st_eapol_replay s, ap) else next_eapol_replay ap in
    let ap := upd_station sta (fun s =>
      s <| st_ptk_candidates := push_candidate m3_replay k (st_ptk_candidates s) |>
        <| st_eapol_ready := false |> <| st_eapol_replay := m3_replay |>) ap in
    let! '(m3, ap) := build_m3 sta s anonce k m3_replay ap in
    let ap := upd_station sta (fun s =>
      s <| st_awaiting_m4 := true |> <| st_pending_eapol := Some (prepend_radiotap m3) |>
        <| st_eapol_tx := now |> <| st_eapol_retries := 0 |> <| st_eapol_acked := false |>) ap in
    let ap := ap <| ap_key_install_stations := ap_key_install_stations ap ++ [sta] |> in
    let ap := arm_eapol_timer sta ap in
    let out := out_tx m3 out in
    if ap_btm ap && negb (st_pmf s) then
      let (f, ap) := btm_request_frame sta ap in
      Val (ap, out_tx f out)
    else Val (ap, out).

Definition handle_m2 (now : Z) (sta : bytes) (s : Station) (eapol : bytes) (ek : EapolKey)
    (ap : Ap) (out : Outgoing) : res (Ap * Outgoing) :=
  let mic := key_mic s in
  if negb (st_eapol_ready s) && negb (st_awaiting_m4 s) then Val (ap, out)
  else
    match st_anonce s with
    | None => Val (ap, out)
    | Some anonce =>
        if negb (ek_replay_counter ek =? st_m1_replay s) then Val (ap, out)
        else if negb (key_info_matches (ek_key_info ek)
                        (Z.lor 0x0108 (expected_key_descriptor_version mic)))
                || negb (ek_key_length ek =? 0) then Val (ap, out)
        else if bool_decide (security_mode ap = Wpa3Sae \/ security_mode ap = Owe)
                && bool_decide (st_pmk s = None) then Val (ap, out)
        else
          let (amac, smac) := ptk_addresses ap sta s in
          let derive pmk :=
            derive_ptk (st_sha256 s) (key_len (st_pairwise_cipher s)) pmk amac smac anonce
              (ek_nonce ek) in
          let mic_off := (4 + ek_mic_offset ek)%nat in
          let! _ := slice eapol mic_off (mic_off + 16) in
          let to_check := splice eapol mic_off (replicate 16 0) in
          let! matched := match_pmk mic derive to_check (ek_mic ek) (pmk_candidates ap sta s) in
          match matched with
          | None =>
              if st_awaiting_m4 s then Val (ap, out)
              else
                let ap := record_failure sta FourWayMic ap in
                let out := out_tx (build_deauth (ap_mac ap) sta 1) out in
                Val (disconnect sta 1 ap, out)
          | Some (pmk, k) =>
              let! m2_key_data := trim_key_data_padding (ek_key_data ek) in
              let! same := message_2_security_matches (st_assoc_ies s) m2_key_data in
              if negb same then Val (ap, out)
              else accept_m2 now sta s anonce pmk k m2_key_data ap out
          end
    end.

(** ** [handle_eapol] *)
Definition handle_eapol (now : Z) (frame : Dot11) (ap : Ap) (out : Outgoing) :
    res (Ap * Outgoing) :=
  let sta := addr2 frame in
  if negb (beq (addr1 frame) (ap_mac ap)) then Val (ap, out)
  else
    match ap_stations ap !! sta with
    | None => Val (ap, out)
    | Some s =>
        let! oeapol := eapol_frame frame in
        match oeapol with
        | None => Val (ap, out)
        | Some eapol =>
            let! obody := eapol_key_body frame in
            match obody with
            | None => Val (ap, out)
            | Some key_body =>
                let! oek := parse_eapol_key key_body in
                match oek with
                | None => Val (ap, out)
                | Some ek =>
                    if st_group_rekeying s && (ek_replay_counter ek =? st_eapol_replay s) then
                      let! ap := handle_group_msg2 now sta s eapol ek ap in
                      Val (ap, out)
                    else if st_awaiting_m4 s && is_m4 (key_mic s) ek then
                      let! ap := handle_m4 sta s eapol ek ap in
                      Val (ap, out)
                    else handle_m2 now sta s eapol ek ap out
                end
            end
        end
    end.

End Handshake.

(** * The received key frame *)

Section Properties.
Context {P : Primitives} {Pok : PrimitivesOk P}.

(** What [handle_eapol] knows once a frame has been parsed. *)
Definition key_frame (frame : Dot11) (eapol : bytes) (ek : EapolKey) : Prop :=
  eapol_frame frame = Val (Some eapol) /\
  exists b, eapol_key_body frame = Val (Some b) /\ parse_eapol_key b = Val (Some ek).

Lemma key_frame_ok frame eapol ek :
  wf_bytes (body frame) -> key_frame frame eapol ek ->
  eapol_key_ok ek /\ wf_bytes eapol /\ (99 <= length eapol)%nat.
Proof.
  intros Hw (He & b & Hb & Hk).
  destruct (eapol_key_body_total frame Hw) as (o & Ho & Hspec). rewrite Hb in Ho. injection Ho as <-.
  destruct (Hspec b eq_refl) as (Hbw & _ & _ & f & Hf & _ & ->). rewrite He in Hf. injection Hf as <-.
  destruct (parse_eapol_key_total (drop 4 eapol) Hbw) as (o & Ho & Hek). rewrite Hk in Ho.
  injection Ho as <-. destruct (Hek ek eq_refl) as (Hok & _ & Hlen & _).
  destruct (eapol_frame_total frame Hw) as (o & Ho & Hfr). rewrite He in Ho. injection Ho as <-.
  destruct (Hfr eapol eq_refl) as (_ & _ & Hew & _). rewrite length_drop in Hlen.
  split; [done|]. split; [done|lia].
Qed.

(** The parsing prefix of [handle_eapol]: a frame that is not an EAPOL-Key
    frame for this AP from a known station changes nothing. *)
Lemma handle_eapol_cases now frame ap out :
  wf_bytes (body frame) ->
  handle_eapol now frame ap out = Val (ap, out) \/
  exists s eapol ek, addr1 frame = ap_mac ap /\ ap_stations ap !! addr2 frame = Some s /\
    key_frame frame eapol ek /\
    handle_eapol now frame ap out =
      (if st_group_rekeying s && (ek_replay_counter ek =? st_eapol_replay s) then
         let! ap := handle_group_msg2 now (addr2 frame) s eapol ek ap in Val (ap, out)
       else if st_awaiting_m4 s && is_m4 (key_mic s) ek then
         let! ap := handle_m4 (addr2 frame) s eapol ek ap in Val (ap, out)
       else handle_m2 now (addr2 frame) s eapol ek ap out).
Proof.
  intros Hw. unfold handle_eapol.
  destruct (beq (addr1 frame) (ap_mac ap)) eqn:E1; [|by left]. apply beq_true in E1. cbn [negb].
  destruct (ap_stations ap !! addr2 frame) as [s|] eqn:Es; [|by left].
  destruct (eapol_frame_total frame Hw) as ([eapol|] & He & _); rewrite He; cbn [rbind]; [|by left].
  destruct (eapol_key_body_total frame Hw) as ([b|] & Hb & Hbs); rewrite Hb; cbn [rbind]; [|by left].
  destruct (parse_eapol_key_total b) as ([ek|] & Hk & _); [by apply Hbs| |];
    rewrite Hk; cbn [rbind]; [|by left].
  right. exists s, eapol, ek. split; [done|]. split; [done|]. split; [|done].
  split; [done|]. exists b. done.
Qed.

(** * Group message 2 *)

Definition group_acked (now : Z) (s : Station) : Station :=
  s <| st_group_rekeying := false |> <| st_pending_eapol := None |> <| st_last_activity := now |>.

Lemma group_msg2_spec now sta s eapol ek ap :
  arr 16 (st_kck s) -> wf_bytes eapol -> eapol_key_ok ek ->
  exists ok, eapol_mic_valid (key_mic s) (st_kck s) eapol ek = Val ok /\
    handle_group_msg2 now sta s eapol ek ap =
      Val (if group_msg2_shape (key_mic s) ek && ok then upd_station sta (group_acked now) ap else ap).
Proof.
  intros Hk He Hok. unfold handle_group_msg2.
  destruct (eapol_mic_valid_total (key_mic s) (st_kck s) eapol ek Hk He) as (ok & Hv & _);
    [apply Hok|].
  exists ok. split; [done|]. rewrite Hv. cbn [rbind].
  destruct (group_msg2_shape _ _), ok; done.
Qed.

(** * Message 4 *)

(** The choice: the first candidate, in order, that the message
    authenticates. *)
Definition authenticates (mic : KeyMic) (eapol : bytes) (ek : EapolKey) (mld : option bytes)
    (c : PtkCandidate) : Prop :=
  eapol_mic_valid mic (cand_kck c) eapol ek = Val true /\
  match mld with
  | Some m => parse_mac_addr_kde (ek_key_data ek) = Val (Some m)
  | None => True
  end.

Lemma select_candidate_spec mic eapol ek mld cs :
  Forall candidate_ok cs -> wf_bytes eapol -> eapol_key_ok ek ->
  exists o, select_candidate mic eapol ek mld cs = Val o /\
    match o with
    | Some c => c ∈ cs /\ authenticates mic eapol ek mld c
    | None => forall c, c ∈ cs -> ~ authenticates mic eapol ek mld c
    end.
Proof.
  intros Hcs He Hok. induction Hcs as [|c cs Hc Hcs IH].
  { exists None. split; [done|]. intros c Hc. by apply not_elem_of_nil in Hc. }
  cbn [select_candidate]. destruct IH as (o & Ho & Hspec).
  destruct (eapol_mic_valid_total mic (cand_kck c) eapol ek) as (ok & Hv & _);
    [apply Hc|done|apply Hok|].
  rewrite Hv. cbn [rbind].
  assert (Hskip : ~ authenticates mic eapol ek mld c ->
    exists o, select_candidate mic eapol ek mld cs = Val o /\
    match o with
    | Some x => x ∈ c :: cs /\ authenticates mic eapol ek mld x
    | None => forall x, x ∈ c :: cs -> ~ authenticates mic eapol ek mld x
    end).
  { intros Hno. exists o. split; [done|]. destruct o as [x|].
    - destruct Hspec. split; [by apply elem_of_cons; right|done].
    - intros x Hx. apply elem_of_cons in Hx as [->|Hx]; auto. }
  assert (Hhere : authenticates mic eapol ek mld c ->
    c ∈ c :: cs /\ authenticates mic eapol ek mld c)
    by (intros; split; [by apply elem_of_cons; left|done]).
  destruct ok; cbn [negb]; [|apply Hskip; unfold authenticates; rewrite Hv; by intros []].
  destruct mld as [m|]; cbn [rbind].
  - destruct (parse_mac_addr_kde (ek_key_data ek)) as [k| |] eqn:Ek;
      rewrite parse_mac_addr_kde_spec in Ek; try done. unfold rmap. cbn [rbind].
    case_bool_decide as Hm.
    + exists (Some c). split; [done|]. apply Hhere. split; [done|].
      rewrite parse_mac_addr_kde_spec. congruence.
    + apply Hskip. intros [_ H]. rewrite parse_mac_addr_kde_spec in H. congruence.
  - exists (Some c). split; [done|]. by apply Hhere.
Qed.

(** * Installing a PTK *)

Lemma same_temporal_key_spec s c :
  station_ok s -> candidate_ok c ->
  same_temporal_key s c = true <->
  st_associated s = true /\
  take (key_len (st_pairwise_cipher s)) (st_pairwise_tk s)
    = take (key_len (st_pairwise_cipher s)) (cand_tk c).
Proof.
  intros Hs (_ & _ & _ & Hc). unfold same_temporal_key.
  rewrite constant_time_eq_spec
    by (apply wf_bytes_take, (arr_wf 32); first [apply (so_pairwise_tk s Hs)|exact Hc]).
  by rewrite andb_true_iff, beq_true.
Qed.

Lemma install_ptk_ok s c : station_ok s -> candidate_ok c -> station_ok (install_ptk c s).
Proof.
  intros Hs (Hr & Hk & He & Ht). unfold install_ptk.
  assert (Hz : Forall pn_ok (replicate 17 0)).
  { apply Forall_replicate. unfold pn_ok, MAX_PACKET_NUMBER. lia. }
  assert (H0 : pn_ok 0) by (unfold pn_ok, MAX_PACKET_NUMBER; lia).
  assert (H1 : 1 <= 1 <= MAX_PACKET_NUMBER + 1) by (unfold MAX_PACKET_NUMBER; lia).
  assert (Hl : length (replicate 17 0) = 17%nat) by done.
  assert (Hn : Forall candidate_ok []) by constructor.
  assert (H8 : (length (@nil PtkCandidate) <= 8)%nat) by (cbn; lia).
  destruct Hs. destruct (same_temporal_key s c); constructor; fields; assumption.
Qed.

(** The keys, the packet number and the replay windows an installation
    leaves. *)
Lemma install_ptk_keys s c :
  st_kck (install_ptk c s) = cand_kck c /\ st_kek (install_ptk c s) = cand_kek c /\
  st_pairwise_tk (install_ptk c s) = cand_tk c /\ st_associated (install_ptk c s) = true /\
  st_awaiting_m4 (install_ptk c s) = false /\ st_ptk_candidates (install_ptk c s) = [] /\
  st_pairwise_cipher (install_ptk c s) = st_pairwise_cipher s.
Proof. unfold install_ptk. destruct (same_temporal_key s c); by repeat split. Qed.

Lemma install_ptk_windows s c :
  if same_temporal_key s c then
    st_client_pn (install_ptk c s) = st_client_pn s /\
    st_last_rx_pn (install_ptk c s) = st_last_rx_pn s /\
    st_last_rx_mgmt_pn (install_ptk c s) = st_last_rx_mgmt_pn s
  else
    st_client_pn (install_ptk c s) = 1 /\
    st_last_rx_pn (install_ptk c s) = replicate 17 0 /\
    st_last_rx_mgmt_pn (install_ptk c s) = 0.
Proof. unfold install_ptk. destruct (same_temporal_key s c); by repeat split. Qed.

Definition m4_accepted (sta : bytes) (s : Station) (c : PtkCandidate) (ap : Ap) : Ap :=
  let ap := push_event (Connected (default sta (st_client_mld_mac s)))
              (upd_station sta (install_ptk c) ap) in
  let ap := ap <| ap_key_ready_stations := ap_key_ready_stations ap ++ [sta] |> in
  ap <| ap_pending_anonce := delete sta (ap_pending_anonce ap) |>.

Definition expected_mld (ap : Ap) (s : Station) : option bytes :=
  if ap_mld ap then st_client_mld_mac s else None.

Lemma handle_m4_spec sta s eapol ek ap :
  station_ok s -> wf_bytes eapol -> eapol_key_ok ek ->
  exists o, handle_m4 sta s eapol ek ap =
      Val (match o with Some c => m4_accepted sta s c ap | None => ap end) /\
    match o with
    | Some c => c ∈ st_ptk_candidates s /\ m3_replay_counter c = ek_replay_counter ek /\
                authenticates (key_mic s) eapol ek (expected_mld ap s) c
    | None => forall c, c ∈ st_ptk_candidates s -> m3_replay_counter c = ek_replay_counter ek ->
                ~ authenticates (key_mic s) eapol ek (expected_mld ap s) c
    end.
Proof.
  intros Hs He Hok. unfold handle_m4. fold (expected_mld ap s).
  set (cs := List.filter _ _).
  assert (Hin : forall c, c ∈ cs <-> c ∈ st_ptk_candidates s /\ m3_replay_counter c = ek_replay_counter ek).
  { intros c. unfold cs. rewrite !list_elem_of_In, filter_In. by rewrite Z.eqb_eq. }
  assert (Hcs : Forall candidate_ok cs).
  { apply Forall_forall. intros c Hc. apply Hin in Hc as [Hc _].
    apply (proj1 (Forall_forall _ _) (so_candidates s Hs) c Hc). }
  destruct (select_candidate_spec (key_mic s) eapol ek (expected_mld ap s) cs Hcs He Hok)
    as (o & -> & Hspec). cbn [rbind]. exists o. destruct o as [c|].
  - split; [done|]. destruct Hspec as [Hc Ha]. apply Hin in Hc as [Hc Hr]. done.
  - split; [done|]. intros c Hc Hr. apply Hspec. by apply Hin.
Qed.

(** * Message 2 *)

Definition ptk_ok (k : Ptk) : Prop := arr 16 (ptk_kck k) /\ arr 16 (ptk_kek k) /\ arr 32 (ptk_tk k).

Lemma derive_ptk_ok sha c pmk amac smac an sn :
  wf_bytes pmk -> wf_bytes amac -> wf_bytes smac -> wf_bytes an -> wf_bytes sn ->
  exists k, derive_ptk sha (key_len c) pmk amac smac an sn = Val k /\ ptk_ok k /\
    drop (key_len c) (ptk_tk k) = replicate (32 - key_len c) 0.
Proof.
  intros Hp Ha Hs Han Hsn. unfold derive_ptk.
  assert (Hc : key_len c = 16%nat \/ key_len c = 32%nat) by (destruct c; auto).
  assert (exists ptk n, (if sha then derive_ptk_sha256_len pmk amac smac an sn (32 + key_len c)
             else custom_prf512 pmk amac smac an sn) = Val ptk /\ arr n ptk /\ (32 + key_len c <= n)%nat)
    as (ptk & n & -> & [Hl Hw] & Hn).
  { destruct sha.
    - destruct (derive_ptk_sha256_ok pmk amac smac an sn (32 + key_len c)) as (k & Hk & Hok);
        try done; [lia|]. by exists k, (32 + key_len c)%nat.
    - destruct (custom_prf512_ok pmk amac smac an sn) as (k & Hk & Hok); try done.
      exists k, 64%nat. split; [done|]. split; [done|lia]. }
  cbn [rbind]. rust_steps. eexists. split; [done|].
  assert (Ht : length (sub ptk 32 (32 + key_len c)) = key_len c) by (rewrite length_sub; lia).
  cbn [ptk_tk]. split.
  - unfold ptk_ok. cbn [ptk_kck ptk_kek ptk_tk].
    do 2 (split; [by apply arr_sub; [|lia|]|]). split.
    + rewrite length_app, Ht, length_replicate. lia.
    + apply wf_bytes_app; [auto with bytes|]. apply wf_bytes_replicate. unfold is_byte. lia.
  - rewrite <- Ht at 1. by rewrite drop_app_length.
Qed.

(** A PMK whose KCK signs the message. *)
Definition pmk_matches (mic : KeyMic) (derive : bytes -> res Ptk) (to_check m : bytes)
    (pmk : bytes) (k : Ptk) : Prop :=
  derive pmk = Val k /\ mic_compute mic (ptk_kck k) to_check = Val m.

Lemma match_pmk_spec mic derive to_check m pmks :
  Forall (fun p => exists k, derive p = Val k /\ ptk_ok k) pmks -> wf_bytes to_check -> wf_bytes m ->
  exists o, match_pmk mic derive to_check m pmks = Val o /\
    match o with
    | Some (p, k) => ptk_ok k /\ pmk_matches mic derive to_check m p k /\
        exists pre post, pmks = pre ++ p :: post /\
          forall q k', q ∈ pre -> ~ pmk_matches mic derive to_check m q k'
    | None => forall q k', q ∈ pmks -> ~ pmk_matches mic derive to_check m q k'
    end.
Proof.
  intros Hd Hc Hm. induction Hd as [|p pmks (k & Hk & Hkok) Hd (o & Ho & Hspec)].
  { exists None. split; [done|]. intros q k' Hq. by apply not_elem_of_nil in Hq. }
  cbn [match_pmk]. rewrite Hk. cbn [rbind].
  destruct (mic_compute_ok mic (ptk_kck k) to_check) as (c & Hcc & _ & Hcw); [apply Hkok|done|].
  rewrite Hcc. cbn [rbind]. rewrite constant_time_eq_spec by done.
  destruct (beq c m) eqn:E.
  - apply beq_true in E as ->. exists (Some (p, k)). split; [done|]. split; [done|].
    split; [done|]. exists [], pmks. split; [done|]. intros q k' Hq. by apply not_elem_of_nil in Hq.
  - assert (Hno : forall k', ~ pmk_matches mic derive to_check m p k').
    { intros k' [H1 H2]. rewrite Hk in H1. injection H1 as <-. rewrite Hcc in H2.
      injection H2 as ->. by rewrite beq_refl in E. }
    exists o. split; [done|]. destruct o as [[p' k']|].
    + destruct Hspec as (H1 & H2 & pre & post & -> & Hpre). split; [done|]. split; [done|].
      exists (p :: pre), post. split; [done|]. intros q k'' Hq. apply elem_of_cons in Hq as [->|Hq]; eauto.
    + intros q k' Hq. apply elem_of_cons in Hq as [->|Hq]; eauto.
Qed.

(** ** The candidate list *)

Lemma push_candidate_ok r k l :
  u64_ok r -> ptk_ok k -> Forall candidate_ok l -> (length l <= 8)%nat ->
  Forall candidate_ok (push_candidate r k l) /\ (length (push_candidate r k l) <= 8)%nat.
Proof.
  intros Hr Hk Hl Hn. unfold push_candidate. case_match; [done|].
  assert (Hd : Forall candidate_ok (if (8 <=? length l)%nat then drop 1 l else l))
    by (case_match; [by apply Forall_drop|done]).
  split.
  - apply Forall_app. split; [done|]. constructor; [|done]. by split.
  - rewrite length_app. cbn [length]. destruct (Nat.leb_spec 8 (length l)); rewrite ?length_drop; lia.
Qed.

(** The newest candidate is always kept, and at most the oldest is lost. *)
Lemma push_candidate_in r k l c :
  c ∈ push_candidate r k l ->
  c ∈ l \/ c = {| m3_replay_counter := r; cand_kck := ptk_kck k; cand_kek := ptk_kek k;
                  cand_tk := ptk_tk k |}.
Proof.
  unfold push_candidate. case_match; [by left|]. intros Hc. apply elem_of_app in Hc as [Hc|Hc].
  - left. case_match; [|done]. eapply elem_of_sublist; [exact Hc|]. apply sublist_drop.
  - right. by apply list_elem_of_singleton in Hc.
Qed.

Lemma push_candidate_new r k l :
  exists c, c ∈ push_candidate r k l /\ m3_replay_counter c = r /\ cand_kck c = ptk_kck k.
Proof.
  unfold push_candidate. destruct (existsb _ l) eqn:E.
  - apply existsb_exists in E as (c & Hc & E). apply andb_prop in E as [E1 E2].
    apply Z.eqb_eq in E1. apply beq_true in E2. exists c. split; [by apply list_elem_of_In|done].
  - eexists. split; [apply elem_of_app; right; by apply elem_of_cons; left|done].
Qed.

(** ** Message 3 *)

Lemma active_links_ok ap :
  ap_ok ap -> Forall (fun l => wf_bytes (ml_mac l)) (active_mld_links ap).
Proof.
  intros H. unfold active_mld_links. case_match.
  - eapply Forall_impl; [apply (ao_links ap H)|]. by intros l [_ ?].
  - repeat constructor. apply H.
Qed.

(** Message 3 is built for every station, with or without management-frame
    protection, beacon protection, channel validation and multi-link. *)
Lemma build_m3_ok sta s anonce k r ap :
  ap_ok ap -> arr 32 anonce -> ptk_ok k ->
  exists f, build_m3 sta s anonce k r ap = Val (f, (next_sc ap).2).
Proof.
  intros H Hn (Hkck & Hkek & _). unfold build_m3.
  destruct (next_sc ap) as [sc ap'] eqn:Esc.
  assert (ap' = (next_sc ap).2) as -> by (by rewrite Esc). clear Esc.
  pose proof (next_sc_ok ap H) as H'. set (ap' := (next_sc ap).2) in *.
  pose proof (station_group_keys_ok ap sta H) as G. pose proof (go_gtk _ _ (station_group_keys_ok ap' sta H')) as Gk.
  destruct (advertised_security_tail_ok ap') as [Htw _].
  assert (Hi : mgmt_key_ok (if st_pmf s then
      Some (station_igtk_key_id ap sta, station_igtk_ipn ap sta, station_igtk ap sta) else None)).
  { destruct (st_pmf s); [|done]. split; [pose proof (go_igtk_id _ _ G); lia|]. split; apply G. }
  assert (Hb : mgmt_key_ok (if st_pmf s && ap_beacon_prot ap then
      Some (ap_bigtk_key_id ap, ap_bigtk_ipn ap, ap_bigtk ap) else None)).
  { destruct (st_pmf s && ap_beacon_prot ap); [|done]. split; [pose proof (ao_bigtk_id ap H); lia|]. split; apply H. }
  assert (Ho : match (if ap_ocv ap then
      Some (operating_class (ap_channel ap) (ap_channel_width ap) (ap_band6 ap), ap_channel ap)
      else None) with Some (oc, ch) => is_byte oc /\ is_byte ch | None => True end).
  { destruct (ap_ocv ap); [|done]. split; [apply operating_class_byte|apply H]. }
  destruct (ap_mld ap' && _).
  - match goal with |- context [build_eapol_m3_mld_links_with_rsc ?a ?b ?c ?d ?e ?f ?g ?h ?i ?j ?k ?l ?m ?n ?o ?p] =>
      destruct (eapol_m3_mld_ok a b c d e f g h i j k l m n o p) as (fr & ->); try done; try apply H' end.
    + apply Gk.
    + apply Forall_forall. intros [[id mac] rsne] Hx. apply list_elem_of_fmap in Hx as (l & E & Hl).
      injection E as -> -> ->.
      apply list_elem_of_In, filter_In in Hl as [Hl _]. apply list_elem_of_In in Hl.
      split; [|done]. exact (proj1 (Forall_forall _ _) (active_links_ok ap' H') l Hl).
    + cbn [rbind]. by eexists.
  - match goal with |- context [build_eapol_m3_for_key_length_with_rsc ?a ?b ?c ?d ?e ?f ?g ?h ?i ?j ?k ?l ?m ?n ?o ?p] =>
      destruct (eapol_m3_ok a b c d e f g h i j k l m n o p) as (fr & ->); try done end.
    + apply Gk.
    + cbn [rbind]. by eexists.
Qed.

(** ** The accepting path of message 2 *)

(** The AP-wide keys and counters that a pairwise handshake must not move. *)
Definition group_state (ap : Ap) :=
  (ap_gtk ap, ap_gtk_key_id ap, ap_group_pn ap, (ap_igtk ap, ap_igtk_key_id ap, ap_igtk_ipn ap),
   (ap_bigtk ap, ap_bigtk_key_id ap, ap_bigtk_ipn ap), ap_group_key_epoch ap).

Definition m2_pinned (pmk : bytes) (s : Station) : Station := s <| st_pmk := Some pmk |>.

Definition m2_kept (r : Z) (k : Ptk) (s : Station) : Station :=
  s <| st_ptk_candidates := push_candidate r k (st_ptk_candidates s) |>
    <| st_eapol_ready := false |> <| st_eapol_replay := r |>.

Definition m3_pending (now : Z) (m3 : bytes) (s : Station) : Station :=
  s <| st_awaiting_m4 := true |> <| st_pending_eapol := Some (prepend_radiotap m3) |>
    <| st_eapol_tx := now |> <| st_eapol_retries := 0 |> <| st_eapol_acked := false |>.

Definition timer_armed (s : Station) : Station :=
  s <| st_eapol_timer_generation := u64 (st_eapol_timer_generation s + 1) |>.

(** The station once message 3 has been queued. *)
Definition m3_sent (now r : Z) (pmk : bytes) (k : Ptk) (m3 : bytes) (s : Station) : Station :=
  timer_armed (m3_pending now m3 (m2_kept r k (m2_pinned pmk s))).

(** Replay counter and AP from which message 3 is built. *)
Definition m3_replay_of (sta : bytes) (s : Station) (pmk : bytes) (ap : Ap) : Z * Ap :=
  let ap := upd_station sta (m2_pinned pmk) ap in
  if st_awaiting_m4 s then (st_eapol_replay s, ap)
  else next_eapol_replay (ap <| ap_pending_anonce := delete sta (ap_pending_anonce ap) |>).

Lemma oci_accepted_total ap kd : exists b, oci_accepted ap kd = Val b.
Proof.
  unfold oci_accepted. destruct (ap_ocv ap); [|by eexists]. rewrite parse_oci_kde_spec. cbn [rbind].
  repeat case_match; by eexists.
Qed.

Lemma alter_alter {A} (f g : A -> A) (k : bytes) (m : gmap bytes A) :
  alter f k (alter g k m) = alter (fun x => f (g x)) k m.
Proof.
  apply map_eq. intros j. destruct (decide (j = k)) as [->|].
  - rewrite !lookup_alter_eq. by destruct (m !! k).
  - by rewrite !lookup_alter_ne.
Qed.

Lemma alter_id_lookup {A} (f : A -> A) (k : bytes) (m : gmap bytes A) x :
  m !! k = Some x -> alter f k m = <[k := f x]> m.
Proof.
  intros Hx. apply map_eq. intros j. destruct (decide (j = k)) as [->|].
  - by rewrite lookup_alter_eq, lookup_insert_eq, Hx.
  - by rewrite lookup_alter_ne, lookup_insert_ne.
Qed.

Lemma m2_pinned_ok pmk s : arr 32 pmk -> station_ok s -> station_ok (m2_pinned pmk s).
Proof.
  intros Hp H. unfold m2_pinned. assert (Ho : opt_ok (arr 32) (Some pmk)) by done.
  keep_station_ok H.
Qed.

Lemma m2_kept_ok r k s : u64_ok r -> ptk_ok k -> station_ok s -> station_ok (m2_kept r k s).
Proof.
  intros Hr Hk H. unfold m2_kept.
  destruct (push_candidate_ok r k (st_ptk_candidates s) Hr Hk (so_candidates s H) (so_bounded s H))
    as [H1 H2].
  keep_station_ok H.
Qed.

Lemma m3_pending_ok now m3 s : station_ok s -> station_ok (m3_pending now m3 s).
Proof.
  intros H. unfold m3_pending.
  assert (H0 : 0 <= 0 <= MAX_EAPOL_RETRIES) by (unfold MAX_EAPOL_RETRIES; lia).
  keep_station_ok H.
Qed.

(** What an operation on the AP may move besides the stations: nothing of the
    group keys. *)
Definition moves_stations (f : gmap bytes Station -> gmap bytes Station) (ap ap' : Ap) : Prop :=
  ap_ok ap' /\ group_state ap' = group_state ap /\ ap_stations ap' = f (ap_stations ap).

Lemma moves_trans f g ap1 ap2 ap3 :
  moves_stations f ap1 ap2 -> moves_stations g ap2 ap3 ->
  moves_stations (fun m => g (f m)) ap1 ap3.
Proof. intros (? & G1 & S1) (? & G2 & S2). split; [done|]. by rewrite G2, G1, S2, S1. Qed.

Lemma moves_upd sta f ap :
  ap_ok ap -> (forall s, station_ok s -> station_ok (f s)) ->
  moves_stations (alter f sta) ap (upd_station sta f ap).
Proof. intros H Hf. split; [|done]. apply ap_ok_upd; auto. Qed.

Lemma moves_next_sc ap : ap_ok ap -> moves_stations id ap (next_sc ap).2.
Proof. intros H. split; [by apply next_sc_ok|done]. Qed.

Lemma moves_next_replay ap : ap_ok ap -> moves_stations id ap (next_eapol_replay ap).2.
Proof. intros H. split; [by apply next_eapol_replay_ok|done]. Qed.

Lemma moves_arm sta ap : ap_ok ap -> moves_stations (alter timer_armed sta) ap (arm_eapol_timer sta ap).
Proof.
  intros H. split; [by apply arm_eapol_timer_ok|]. split; [|apply arm_eapol_timer_stations].
  unfold arm_eapol_timer. repeat case_match; done.
Qed.

Lemma m3_replay_of_spec sta s pmk ap :
  ap_ok ap -> ap_stations ap !! sta = Some s -> arr 32 pmk ->
  u64_ok (m3_replay_of sta s pmk ap).1 /\
  moves_stations (alter (m2_pinned pmk) sta) ap (m3_replay_of sta s pmk ap).2.
Proof.
  intros H Hs Hp. unfold m3_replay_of.
  pose proof (moves_upd sta (m2_pinned pmk) ap H (fun x => m2_pinned_ok pmk x Hp)) as M.
  destruct (st_awaiting_m4 s); [split; [apply (so_replay s), (ap_ok_station ap sta s H Hs)|exact M]|].
  revert M. set (ap0 := upd_station sta (m2_pinned pmk) ap). clearbody ap0. intros M.
  assert (Hx : ap_ok (ap0 <| ap_pending_anonce := delete sta (ap_pending_anonce ap0) |>))
    by (destruct M as [M _]; keep_ap_ok M).
  split; [|exact (moves_trans _ id _ _ _ M (moves_next_replay _ Hx))].
  destruct (next_eapol_replay_spec (ap0 <| ap_pending_anonce := delete sta (ap_pending_anonce ap0) |>))
    as [Hr _]. unfold u64_ok. lia.
Qed.

(** Queueing message 3. *)
Definition m3_queued (now : Z) (sta m3 : bytes) (ap : Ap) : Ap :=
  let ap := upd_station sta (m3_pending now m3) ap in
  arm_eapol_timer sta (ap <| ap_key_install_stations := ap_key_install_stations ap ++ [sta] |>).

Lemma m3_queued_spec now sta m3 ap :
  ap_ok ap -> moves_stations (alter (fun s => timer_armed (m3_pending now m3 s)) sta) ap
                (m3_queued now sta m3 ap).
Proof.
  intros H. unfold m3_queued.
  pose proof (moves_upd sta (m3_pending now m3) ap H (m3_pending_ok now m3)) as M.
  revert M. set (ap0 := upd_station sta (m3_pending now m3) ap). clearbody ap0. intros M.
  assert (Hx : ap_ok (ap0 <| ap_key_install_stations := ap_key_install_stations ap0 ++ [sta] |>))
    by (destruct M as [M _]; keep_ap_ok M).
  destruct (moves_trans _ (alter timer_armed sta) _ _ _ M (moves_arm sta _ Hx)) as (H1 & H2 & H3).
  split; [exact H1|]. split; [exact H2|]. rewrite H3. apply alter_alter.
Qed.

Lemma accept_m2_unfold now sta s anonce pmk k kd ap out :
  accept_m2 now sta s anonce pmk k kd ap out =
  let! oci_ok := oci_accepted ap kd in
  if negb oci_ok then Val (upd_station sta (m2_pinned pmk) ap, out)
  else
    let (r, ap1) := m3_replay_of sta s pmk ap in
    let! '(m3, ap2) := build_m3 sta s anonce k r (upd_station sta (m2_kept r k) ap1) in
    let ap3 := m3_queued now sta m3 ap2 in
    let out := out_tx m3 out in
    if ap_btm ap3 && negb (st_pmf s) then
      let (f, ap4) := btm_request_frame sta ap3 in Val (ap4, out_tx f out)
    else Val (ap3, out).
Proof.
  unfold accept_m2, m3_replay_of. change (oci_accepted (upd_station sta _ ap) kd) with (oci_accepted ap kd).
  destruct (oci_accepted ap kd) as [[]| |]; cbn [rbind negb]; try done.
  destruct (st_awaiting_m4 s); done.
Qed.

(** What follows an authenticated message 2: with an acceptable operating
    channel, message 3 is queued and only this station moves; otherwise the PMK
    is pinned and nothing is sent. *)
Lemma accept_m2_spec now sta s anonce pmk k kd ap out :
  ap_ok ap -> ap_stations ap !! sta = Some s -> arr 32 anonce -> arr 32 pmk -> ptk_ok k ->
  exists ap' out' ocv_ok, accept_m2 now sta s anonce pmk k kd ap out = Val (ap', out') /\
    oci_accepted ap kd = Val ocv_ok /\
    if ocv_ok then
      exists m3 tail ap2,
        let (r, ap1) := m3_replay_of sta s pmk ap in
        build_m3 sta s anonce k r (upd_station sta (m2_kept r k) ap1) = Val (m3, ap2) /\
        moves_stations (fun m => <[sta := m3_sent now r pmk k m3 s]> m) ap ap' /\
        out_frames out' = out_frames out ++ (RADIOTAP_TX ++ m3) :: tail /\ (length tail <= 1)%nat /\
        out_to_network out' = out_to_network out
    else moves_stations (fun m => <[sta := m2_pinned pmk s]> m) ap ap' /\ out' = out.
Proof.
  intros H Hs Hn Hp Hk. rewrite accept_m2_unfold.
  destruct (oci_accepted_total ap kd) as [ocv Hocv]. rewrite Hocv. cbn [rbind].
  destruct (m3_replay_of_spec sta s pmk ap H Hs Hp) as [Hr M1].
  destruct ocv; cbn [negb].
  2:{ do 3 eexists. split; [done|]. split; [done|]. split; [|done].
      destruct (moves_upd sta (m2_pinned pmk) ap H (fun x => m2_pinned_ok pmk x Hp)) as (A & B & C).
      split; [done|]. split; [done|]. rewrite C. by apply alter_id_lookup. }
  destruct (m3_replay_of sta s pmk ap) as [r ap1]. cbn [fst snd] in *.
  pose proof (moves_upd sta (m2_kept r k) ap1 (proj1 M1) (fun x => m2_kept_ok r k x Hr Hk)) as M2.
  destruct (build_m3_ok sta s anonce k r _ (proj1 M2) Hn Hk) as (m3 & Hm3). rewrite Hm3. cbn [rbind].
  pose proof (moves_next_sc _ (proj1 M2)) as M3.
  pose proof (m3_queued_spec now sta m3 _ (proj1 M3)) as M4.
  pose proof (moves_trans _ _ _ _ _ (moves_trans _ _ _ _ _ (moves_trans _ _ _ _ _ M1 M2) M3) M4) as M.
  assert (Hm : moves_stations (fun m => <[sta := m3_sent now r pmk k m3 s]> m) ap
    (m3_queued now sta m3 (next_sc (upd_station sta (m2_kept r k) ap1)).2)).
  { destruct M as (A & B & C). split; [done|]. split; [done|]. rewrite C. unfold id.
    rewrite !alter_alter. by rewrite (alter_id_lookup _ sta _ s Hs). }
  clear M M4. set (ap3 := m3_queued now sta m3 _) in *. clearbody ap3.
  destruct (ap_btm ap3 && negb (st_pmf s)).
  - unfold btm_request_frame. destruct (next_sc ap3) as [sc ap4] eqn:Esc.
    do 3 eexists. split; [done|]. split; [done|]. exists m3. do 2 eexists. split; [done|].
    pose proof (moves_next_sc ap3 (proj1 Hm)) as M5. rewrite Esc in M5.
    split; [exact (moves_trans _ _ _ _ _ Hm M5)|].
    unfold out_tx, out_push. fields. split; [rewrite <- app_assoc; done|]. split; [cbn; lia|done].
  - do 3 eexists. split; [done|]. split; [done|]. exists m3, []. eexists. split; [done|].
    split; [exact Hm|]. unfold out_tx, out_push. fields. split; [done|]. split; [cbn; lia|done].
Qed.

(** ** Message 2 as a whole *)

Lemma mld_link_mac_ok ap id m : ap_ok ap -> mld_link_mac ap id = Some m -> arr 6 m.
Proof.
  intros H. unfold mld_link_mac. destruct (List.find _ _) as [l|] eqn:E; [|done].
  intros [= <-]. apply find_some in E as [E _]. apply list_elem_of_In in E.
  exact (proj1 (Forall_forall _ _) (ao_links ap H) l E).
Qed.

Lemma ptk_addresses_ok ap sta s :
  ap_ok ap -> station_ok s -> arr 6 sta ->
  arr 6 (ptk_addresses ap sta s).1 /\ arr 6 (ptk_addresses ap sta s).2.
Proof.
  intros H Hs Hm. unfold ptk_addresses.
  assert (Hl : arr 6 (default (ap_mac ap) (st_assoc_link_id s ≫= mld_link_mac ap))).
  { destruct (st_assoc_link_id s ≫= mld_link_mac ap) as [m|] eqn:E; [|apply H].
    apply bind_Some in E as (id & _ & E). by apply mld_link_mac_ok in E. }
  pose proof (so_mld s Hs) as Hmld.
  destruct (st_client_mld_mac s); [|done]. destruct (ap_mld ap); [|done]. split; [apply H|done].
Qed.

Lemma pmk_candidates_ok ap sta s :
  ap_ok ap -> station_ok s -> Forall (arr 32) (pmk_candidates ap sta s).
Proof.
  intros H Hs. unfold pmk_candidates. pose proof (so_pmk s Hs) as Hp.
  destruct (st_pmk s); [by constructor|]. repeat apply Forall_app_2.
  - destruct (ap_psk_candidates_by_mac ap !! sta) as [l|] eqn:E; [|constructor].
    exact (ao_psk ap H sta l E).
  - apply H.
  - case_match; [constructor|]. constructor; [apply H|constructor].
Qed.

(** The derivation message 2 is checked with, and the octets its MIC covers. *)
Definition m2_derive (ap : Ap) (sta : bytes) (s : Station) (anonce : bytes) (ek : EapolKey)
    (pmk : bytes) : res Ptk :=
  derive_ptk (st_sha256 s) (key_len (st_pairwise_cipher s)) pmk (ptk_addresses ap sta s).1
    (ptk_addresses ap sta s).2 anonce (ek_nonce ek).
Definition m2_signed (eapol : bytes) (ek : EapolKey) : bytes :=
  splice eapol (4 + ek_mic_offset ek) (replicate 16 0).

(** Message 2 signed under [pmk]. *)
Definition m2_matches ap sta s anonce eapol ek pmk k : Prop :=
  pmk_matches (key_mic s) (m2_derive ap sta s anonce ek) (m2_signed eapol ek) (ek_mic ek) pmk k.

(** The frame checks in front of the key search. *)
Definition m2_expected (ap : Ap) (s : Station) (ek : EapolKey) : Prop :=
  (st_eapol_ready s = true \/ st_awaiting_m4 s = true) /\
  ek_replay_counter ek = st_m1_replay s /\
  key_info_matches (ek_key_info ek) (Z.lor 0x0108 (expected_key_descriptor_version (key_mic s))) = true /\
  ek_key_length ek = 0 /\
  (security_mode ap = Wpa3Sae \/ security_mode ap = Owe -> st_pmk s <> None).

Instance m2_expected_dec ap s ek : Decision (m2_expected ap s ek).
Proof. unfold m2_expected. apply _. Defined.

Definition mic_rejected (sta : bytes) (ap : Ap) (out : Outgoing) : Ap * Outgoing :=
  (disconnect sta 1 (record_failure sta FourWayMic ap),
   out_tx (build_deauth (ap_mac ap) sta 1) out).

(** [handle_m2] as a guard and a search. *)
Lemma handle_m2_guard now sta s eapol ek ap out anonce :
  st_anonce s = Some anonce ->
  handle_m2 now sta s eapol ek ap out =
  if decide (m2_expected ap s ek) then
    let! _ := slice eapol (4 + ek_mic_offset ek) (4 + ek_mic_offset ek + 16) in
    let! matched := match_pmk (key_mic s) (m2_derive ap sta s anonce ek) (m2_signed eapol ek)
                      (ek_mic ek) (pmk_candidates ap sta s) in
    match matched with
    | None => Val (if st_awaiting_m4 s then (ap, out) else mic_rejected sta ap out)
    | Some (pmk, k) =>
        let! m2_key_data := trim_key_data_padding (ek_key_data ek) in
        let! same := message_2_security_matches (st_assoc_ies s) m2_key_data in
        if negb same then Val (ap, out) else accept_m2 now sta s anonce pmk k m2_key_data ap out
    end
  else Val (ap, out).
Proof.
  intros Han. unfold handle_m2. rewrite Han.
  destruct (decide (m2_expected ap s ek)) as [(E1 & E2 & E3 & E4 & E5)|Hno].
  - replace (negb (st_eapol_ready s) && negb (st_awaiting_m4 s)) with false
      by (destruct E1 as [-> | ->]; by rewrite ?andb_false_r).
    rewrite (proj2 (Z.eqb_eq _ _) E2), E3, (proj2 (Z.eqb_eq _ _) E4). cbn [negb orb].
    replace (bool_decide _ && bool_decide _) with false.
    2:{ symmetry. apply andb_false_iff. destruct (decide (st_pmk s = None)) as [Hn|Hn].
        - left. apply bool_decide_eq_false. intros Hm. by apply (E5 Hm).
        - right. by apply bool_decide_eq_false. }
    rewrite (surjective_pairing (ptk_addresses ap sta s)) at 1.
    change (fun pmk => derive_ptk (st_sha256 s) (key_len (st_pairwise_cipher s)) pmk
      (ptk_addresses ap sta s).1 (ptk_addresses ap sta s).2 anonce (ek_nonce ek))
      with (m2_derive ap sta s anonce ek). unfold m2_signed.
    destruct (slice _ _ _); [|done|done]. cbn [rbind].
    destruct (match_pmk _ _ _ _ _) as [[[pmk k]|]| |]; cbn [rbind]; try done.
    destruct (st_awaiting_m4 s); [done|]. unfold mic_rejected, record_failure.
    by destruct (record_failure_entry _ _ _ _).
  - destruct (negb (st_eapol_ready s) && negb (st_awaiting_m4 s)) eqn:E1; [done|].
    destruct (Z.eqb_spec (ek_replay_counter ek) (st_m1_replay s)) as [E2|]; [|done]. cbn [negb].
    destruct (key_info_matches _ _) eqn:E3; [|done].
    destruct (Z.eqb_spec (ek_key_length ek) 0) as [E4|]; [|done]. cbn [negb orb].
    destruct (bool_decide (security_mode ap = Wpa3Sae \/ _)) eqn:E5; cbn [andb].
    + destruct (bool_decide (st_pmk s = None)) eqn:E6; [done|]. apply bool_decide_eq_false in E6.
      exfalso. apply Hno. split; [|tauto].
      destruct (st_eapol_ready s), (st_awaiting_m4 s); auto; done.
    + exfalso. apply Hno. apply bool_decide_eq_false in E5. split; [|tauto].
      destruct (st_eapol_ready s), (st_awaiting_m4 s); auto; done.
Qed.

Lemma m2_derive_ok ap sta s anonce ek pmk :
  ap_ok ap -> station_ok s -> arr 6 sta -> arr 32 anonce -> eapol_key_ok ek -> arr 32 pmk ->
  exists k, m2_derive ap sta s anonce ek pmk = Val k /\ ptk_ok k.
Proof.
  intros H Hs Hm Han Hek Hp. destruct (ptk_addresses_ok ap sta s H Hs Hm) as [[_ H1] [_ H2]].
  destruct Hek as (_ & _ & _ & [_ Hn] & _). unfold m2_derive.
  destruct (derive_ptk_ok (st_sha256 s) (st_pairwise_cipher s) pmk (ptk_addresses ap sta s).1
    (ptk_addresses ap sta s).2 anonce (ek_nonce ek)) as (k & Hk & Hok & _);
    try done; [apply Hp|apply Han|by exists k].
Qed.

(** The outcomes of message 2: not expected; no PMK explains its MIC; a PMK
    does but the security parameters differ from the association's; or it is
    accepted, under the first PMK that explains it. *)
Lemma handle_m2_spec now sta s eapol ek ap out :
  ap_ok ap -> ap_stations ap !! sta = Some s -> wf_bytes eapol -> eapol_key_ok ek ->
  (99 <= length eapol)%nat ->
  let h := handle_m2 now sta s eapol ek ap out in
  match st_anonce s with
  | None => h = Val (ap, out)
  | Some anonce =>
      if decide (m2_expected ap s ek) then
        ((forall pmk k, pmk ∈ pmk_candidates ap sta s -> ~ m2_matches ap sta s anonce eapol ek pmk k) /\
          h = Val (if st_awaiting_m4 s then (ap, out) else mic_rejected sta ap out)) \/
        (exists pmk k pre post, pmk_candidates ap sta s = pre ++ pmk :: post /\
          (forall q k', q ∈ pre -> ~ m2_matches ap sta s anonce eapol ek q k') /\
          m2_matches ap sta s anonce eapol ek pmk k /\ ptk_ok k /\ arr 32 pmk /\
          exists kd same, trim_key_data_padding (ek_key_data ek) = Val kd /\
            message_2_security_matches (st_assoc_ies s) kd = Val same /\
            h = if same then accept_m2 now sta s anonce pmk k kd ap out else Val (ap, out))
      else h = Val (ap, out)
  end.
Proof.
  intros H Hs He Hek Hl h. pose proof (ap_ok_station ap sta s H Hs) as Hsok.
  pose proof (proj1 (ao_stations ap H sta s Hs)) as Hm. subst h.
  destruct (st_anonce s) as [anonce|] eqn:Ean; [|unfold handle_m2; rewrite Ean; by case_match].
  pose proof (so_anonce s Hsok) as Han. rewrite Ean in Han. cbn in Han.
  rewrite (handle_m2_guard _ _ _ _ _ _ _ anonce Ean). case_decide; [|done].
  rewrite slice_ok by (destruct Hek as (_ & _ & _ & _ & _ & _ & _ & _ & ->); lia). cbn [rbind].
  pose proof (pmk_candidates_ok ap sta s H Hsok) as Hp.
  destruct (match_pmk_spec (key_mic s) (m2_derive ap sta s anonce ek) (m2_signed eapol ek)
    (ek_mic ek) (pmk_candidates ap sta s)) as (o & Ho & Hspec).
  { eapply Forall_impl; [exact Hp|]. intros p Hpo. by apply m2_derive_ok. }
  { unfold m2_signed, splice. auto with bytes. }
  { apply Hek. }
  rewrite Ho. cbn [rbind]. destruct o as [[pmk k]|]; [right|left; by split].
  destruct Hspec as (Hk & Hmatch & pre & post & Hsplit & Hpre).
  exists pmk, k, pre, post. do 4 (split; [done|]).
  split; [rewrite Hsplit in Hp; by apply Forall_app in Hp as [_ Hp]; inversion Hp|].
  destruct (trim_total (ek_key_data ek)) as (n & Hkd). rewrite Hkd. cbn [rbind].
  destruct (message_2_total (st_assoc_ies s) (take n (ek_key_data ek))) as (same & Hsame). rewrite Hsame. cbn [rbind].
  exists (take n (ek_key_data ek)), same. split; [done|]. split; [done|]. by destruct same.
Qed.

End Properties.
