(* ===== verification/Demo.v ===== *)
(** A concrete AP, station and message exchange, used to evaluate the model and
    to show that the hypotheses of its theorems can be met. *)
From S2P Require Import Prelude Elements Crypto Security Frames Channels DataProt Kde Rsn Eapol Sae Failures Roaming Ap ApConfig ApEapol.

Definition demo_mac : bytes := [0x02; 0x00; 0x00; 0x00; 0x00; 0x01].
Definition demo_sta : bytes := [0x02; 0x00; 0x00; 0x00; 0x00; 0x02].
Definition demo_other : bytes := [0x02; 0x00; 0x00; 0x00; 0x00; 0x03].
Definition demo_ssid : bytes := [0x6f; 0x78].
Definition demo_psk : bytes := [0x70; 0x61; 0x73; 0x73; 0x77; 0x6f; 0x72; 0x64].
Definition demo_anonce : bytes := os_random 40 32.
Definition demo_snonce : bytes := os_random 41 32.

Definition demo_empty : Ap := Eval vm_compute in
  returned (ap_new 8 0 demo_ssid demo_psk demo_mac 36).

(** A station that has been sent message 1 with replay counter 7. *)
Definition demo_station : Station :=
  (station_new demo_sta 0 (ap_gtk demo_empty) (ap_igtk demo_empty))
    <| st_eapol_ready := true |> <| st_anonce := Some demo_anonce |>
    <| st_eapol_replay := 7 |> <| st_m1_replay := 7 |> <| st_assoc_ies := RSN |>.

Definition with_station (s : Station) : Ap :=
  demo_empty <| ap_stations := <[demo_sta := s]> ∅ |>.
Definition demo_ap : Ap := with_station demo_station.

(** The supplicant's half of the exchange. *)
Definition demo_ptk : Ptk := Eval vm_compute in
  returned (derive_ptk false 16 (ap_pmk demo_empty) demo_mac demo_sta demo_anonce demo_snonce).

(** The frame a receiver parses. *)
Definition on_air (r : res bytes) : res (option Dot11) := let! f := r in parse f.
Definition no_frame : Dot11 := eapol_dot11 0 [] [] [] 0 [].
Definition received_frame (r : res bytes) : Dot11 :=
  match on_air r with Val (Some d) => d | _ => no_frame end.

Definition demo_m2 : Dot11 := Eval vm_compute in
  received_frame (build_eapol_m2 demo_mac demo_sta demo_snonce (ptk_kck demo_ptk) RSN 7 1 HmacSha1 None).
Definition demo_bad_m2 : Dot11 := Eval vm_compute in
  received_frame (build_eapol_m2 demo_mac demo_sta demo_snonce (replicate 16 1) RSN 7 1 HmacSha1 None).

Definition demo_after_m2 : Ap * Outgoing := Eval vm_compute in
  returned (handle_eapol 5 demo_m2 demo_ap no_output).
Definition demo_m4 : Dot11 := Eval vm_compute in
  received_frame (build_eapol_m4 demo_mac demo_sta (ptk_kck demo_ptk)
    (ap_eapol_replay_counter demo_after_m2.1) 2 HmacSha1).

(** The exchange ends with the station associated under the keys the
    supplicant derived. *)
Example demo_exchange :
  match handle_eapol 6 demo_m4 demo_after_m2.1 no_output with
  | Val (ap, _) =>
      option_map (fun s => (st_associated s, st_pairwise_tk s, st_awaiting_m4 s))
        (ap_stations ap !! demo_sta) = Some (true, ptk_tk demo_ptk, false)
  | _ => False
  end.
Proof. vm_compute. reflexivity. Qed.

(** * The concrete states are well-formed *)

Lemma demo_empty_ok : ap_ok demo_empty.
Proof.
  constructor; try (by apply (bool_decide_unpack _)); try (by left);
    vm_compute; try (by constructor); try lia; try (split; congruence).
Qed.

Lemma with_station_ok s : station_ok s -> ap_ok (with_station s).
Proof.
  intros Hs. apply ap_ok_stations; [apply demo_empty_ok|].
  apply map_Forall_insert_2; [|apply map_Forall_empty].
  split; [by apply (bool_decide_unpack _)|done].
Qed.

Lemma demo_station_ok : station_ok demo_station.
Proof.
  constructor; try (by apply (bool_decide_unpack _)); try (by left);
    vm_compute; try (by constructor); try lia; try (split; congruence).
Qed.

Lemma demo_ap_ok : ap_ok demo_ap.
Proof. apply with_station_ok, demo_station_ok. Qed.

(** The stations before and after message 4, and a group rekey under way. *)
Definition demo_lookup (ap : Ap) : Station := default demo_station (ap_stations ap !! demo_sta).
Definition demo_waiting : Station := Eval vm_compute in demo_lookup demo_after_m2.1.
Definition demo_after_m4 : Ap * Outgoing := Eval vm_compute in
  returned (handle_eapol 6 demo_m4 (with_station demo_waiting) no_output).
Definition demo_associated : Station := Eval vm_compute in demo_lookup demo_after_m4.1.

Definition demo_group_station : Station :=
  demo_associated <| st_group_rekeying := true |> <| st_eapol_replay := 9 |>.
(** The same station asked for message 2 of a new four-way handshake while the
    group rekey is still marked as under way. *)
Definition demo_rekeying_station : Station :=
  demo_station <| st_group_rekeying := true |>.
Definition demo_group_m2 : Dot11 := Eval vm_compute in
  received_frame (build_group_key_msg2 demo_mac demo_sta (ptk_kck demo_ptk) 9 3 HmacSha1).

Ltac check_ok :=
  constructor; try (by apply (bool_decide_unpack _)); try (by left);
    vm_compute; repeat constructor; try lia; try (split; congruence).

Lemma demo_waiting_ok : station_ok demo_waiting.
Proof. check_ok. Qed.
Lemma demo_associated_ok : station_ok demo_associated.
Proof. check_ok. Qed.
Lemma demo_rekeying_station_ok : station_ok demo_rekeying_station.
Proof. check_ok. Qed.
Lemma demo_group_station_ok : station_ok demo_group_station.
Proof. check_ok. Qed.

(** A key reinstallation: message 3 was repeated to an associated station that
    has already sent 50 packets under the key of the pending candidate. *)
Definition demo_reinstall : Station :=
  demo_waiting <| st_associated := true |> <| st_pairwise_tk := ptk_tk demo_ptk |>
    <| st_client_pn := 50 |> <| st_last_rx_pn := replicate 17 41 |>.
Definition demo_reinstalled : Ap * Outgoing := Eval vm_compute in
  returned (handle_eapol 6 demo_m4 (with_station demo_reinstall) no_output).
Lemma demo_reinstall_ok : station_ok demo_reinstall.
Proof. check_ok. Qed.

(** The EAPOL frame and key fields of a received frame. *)
Definition key_of (d : Dot11) : res (option EapolKey) :=
  let! b := eapol_key_body d in
  match b with Some b => parse_eapol_key b | None => Val None end.
Definition demo_bad_eapol : bytes := Eval vm_compute in returned_some (eapol_frame demo_bad_m2).
Definition demo_bad_key : EapolKey := Eval vm_compute in returned_some (key_of demo_bad_m2).
Definition demo_m2_eapol : bytes := Eval vm_compute in returned_some (eapol_frame demo_m2).
Definition demo_m2_key : EapolKey := Eval vm_compute in returned_some (key_of demo_m2).
Definition demo_candidate : PtkCandidate := Eval vm_compute in
  {| m3_replay_counter := ap_eapol_replay_counter demo_after_m2.1; cand_kck := ptk_kck demo_ptk;
     cand_kek := ptk_kek demo_ptk; cand_tk := ptk_tk demo_ptk |}.

Lemma key_frame_of d eapol ek :
  eapol_frame d = Val (Some eapol) -> key_of d = Val (Some ek) -> key_frame d eapol ek.
Proof.
  unfold key_of. intros He Hk. split; [done|].
  destruct (eapol_key_body d) as [[b|]| |]; cbn in Hk; try done. by exists b.
Qed.

Definition demo_known : Station := demo_station <| st_pmk := Some (ap_pmk demo_empty) |>.
Lemma demo_known_ok : station_ok demo_known.
Proof. check_ok. Qed.
