(* ===== verification/Handshake.v ===== *)
(** The four-way and group handshakes as the authenticator runs them: an
    abstract step relation that says what one received EAPOL-Key frame may do,
    the proof that [handle_eapol] implements it, and the safety properties of
    the relation. *)
From S2P Require Import Prelude Elements Crypto Security Frames Channels DataProt Kde Rsn Eapol Sae Failures Roaming Ap ApConfig ApEapol Demo.

(** * The abstract handshake *)

Section Steps.
Context {P : Primitives}.

(** A frame for this AP, from a known station, that parses as EAPOL-Key. *)
Definition received (frame : Dot11) (ap : Ap) (s : Station) (eapol : bytes) (ek : EapolKey) : Prop :=
  addr1 frame = ap_mac ap /\ ap_stations ap !! addr2 frame = Some s /\ key_frame frame eapol ek.

(** Message 2 proves knowledge of [pmk], one of the PMKs the station may use. *)
Definition m2_authentic (ap : Ap) (sta : bytes) (s : Station) (eapol : bytes) (ek : EapolKey)
    (anonce pmk : bytes) (k : Ptk) : Prop :=
  st_anonce s = Some anonce /\ m2_expected ap s ek /\ pmk ∈ pmk_candidates ap sta s /\
  m2_matches ap sta s anonce eapol ek pmk k /\ ptk_ok k /\ arr 32 pmk /\
  exists kd, trim_key_data_padding (ek_key_data ek) = Val kd /\
    message_2_security_matches (st_assoc_ies s) kd = Val true.

(** What one frame may do to the AP.  [sta] is the frame's transmitter. *)
Inductive eapol_step (now : Z) (frame : Dot11) (ap : Ap) (out : Outgoing) : Ap -> Outgoing -> Prop :=
| step_ignored :
    eapol_step now frame ap out ap out
| step_group_acked s eapol ek :
    received frame ap s eapol ek ->
    st_group_rekeying s = true -> ek_replay_counter ek = st_eapol_replay s ->
    group_msg2_shape (key_mic s) ek = true ->
    eapol_mic_valid (key_mic s) (st_kck s) eapol ek = Val true ->
    eapol_step now frame ap out (upd_station (addr2 frame) (group_acked now) ap) out
| step_installed s eapol ek c :
    received frame ap s eapol ek ->
    st_awaiting_m4 s = true -> is_m4 (key_mic s) ek = true ->
    c ∈ st_ptk_candidates s -> m3_replay_counter c = ek_replay_counter ek ->
    authenticates (key_mic s) eapol ek (expected_mld ap s) c ->
    eapol_step now frame ap out (m4_accepted (addr2 frame) s c ap) out
| step_rejected s eapol ek anonce :
    received frame ap s eapol ek ->
    st_anonce s = Some anonce -> m2_expected ap s ek -> st_awaiting_m4 s = false ->
    (forall pmk k, pmk ∈ pmk_candidates ap (addr2 frame) s ->
       ~ m2_matches ap (addr2 frame) s anonce eapol ek pmk k) ->
    eapol_step now frame ap out (mic_rejected (addr2 frame) ap out).1
      (mic_rejected (addr2 frame) ap out).2
| step_channel_refused s eapol ek anonce pmk k ap' :
    received frame ap s eapol ek ->
    m2_authentic ap (addr2 frame) s eapol ek anonce pmk k ->
    moves_stations (fun m => <[addr2 frame := m2_pinned pmk s]> m) ap ap' ->
    eapol_step now frame ap out ap' out
| step_m3_sent s eapol ek anonce pmk k r m3 tail ap' out' :
    received frame ap s eapol ek ->
    m2_authentic ap (addr2 frame) s eapol ek anonce pmk k ->
    r = (m3_replay_of (addr2 frame) s pmk ap).1 ->
    moves_stations (fun m => <[addr2 frame := m3_sent now r pmk k m3 s]> m) ap ap' ->
    out_frames out' = out_frames out ++ (RADIOTAP_TX ++ m3) :: tail -> (length tail <= 1)%nat ->
    out_to_network out' = out_to_network out ->
    eapol_step now frame ap out ap' out'.

Context {Pok : PrimitivesOk P}.

Lemma group_acked_ok now s : station_ok s -> station_ok (group_acked now s).
Proof. intros H. unfold group_acked. keep_station_ok H. Qed.

Lemma m4_accepted_moves sta s c ap :
  ap_ok ap -> ap_stations ap !! sta = Some s -> candidate_ok c ->
  moves_stations (fun m => <[sta := install_ptk c s]> m) ap (m4_accepted sta s c ap).
Proof.
  intros H Hs Hc.
  destruct (moves_upd sta (install_ptk c) ap H (fun x Hx => install_ptk_ok x c Hx Hc)) as (A & B & C).
  rewrite (alter_id_lookup _ sta _ s Hs) in C. unfold m4_accepted.
  revert A B C. generalize (upd_station sta (install_ptk c) ap). intros ap1 A B C.
  assert (A' : ap_ok (push_event (Connected (default sta (st_client_mld_mac s))) ap1))
    by (by apply push_event_ok).
  split; [|split; [exact B|exact C]].
  revert A'. generalize (push_event (Connected (default sta (st_client_mld_mac s))) ap1).
  intros ap2 A'. keep_ap_ok A'.
Qed.

Lemma mic_rejected_ok sta ap out : ap_ok ap -> ap_ok (mic_rejected sta ap out).1.
Proof. intros H. apply disconnect_ok, record_failure_ok, H. Qed.

(** The step relation keeps well-formed APs well-formed. *)
Lemma eapol_step_ok now frame ap out ap' out' :
  ap_ok ap -> eapol_step now frame ap out ap' out' -> ap_ok ap'.
Proof.
  intros H St. inversion St; subst;
    try match goal with M : moves_stations _ _ _ |- _ => exact (proj1 M) end; [done|..].
  - apply ap_ok_upd; [done|]. intros x _. apply group_acked_ok.
  - destruct H0 as (_ & Hs & _). apply (m4_accepted_moves _ _ c ap H Hs).
    exact (proj1 (Forall_forall _ _) (so_candidates s (ap_ok_station _ _ _ H Hs)) c H3).
  - by apply mic_rejected_ok.
Qed.

(** [handle_eapol] returns on every frame, does one of the steps, and leaves a
    well-formed AP. *)
Lemma handle_eapol_steps now frame ap out :
  ap_ok ap -> wf_bytes (body frame) ->
  exists ap' out', handle_eapol now frame ap out = Val (ap', out') /\
    eapol_step now frame ap out ap' out'.
Proof.
  intros H Hw. destruct (handle_eapol_cases now frame ap out Hw) as [->|Hc];
    [do 2 eexists; split; [done|constructor]|].
  destruct Hc as (s & eapol & ek & H1 & Hs & Hk & ->).
  assert (Hrec : received frame ap s eapol ek) by done.
  destruct (key_frame_ok frame eapol ek Hw Hk) as (Hek & He & Hl).
  pose proof (ap_ok_station ap _ s H Hs) as Hsok.
  destruct (st_group_rekeying s && (ek_replay_counter ek =? st_eapol_replay s)) eqn:Eg.
  { apply andb_prop in Eg as [Eg1 Eg2]. apply Z.eqb_eq in Eg2.
    destruct (group_msg2_spec now (addr2 frame) s eapol ek ap (so_kck s Hsok) He Hek) as (ok & Hv & ->).
    cbn [rbind]. do 2 eexists. split; [done|].
    destruct (group_msg2_shape _ _) eqn:Esh, ok; try apply step_ignored.
    by eapply step_group_acked. }
  destruct (st_awaiting_m4 s && is_m4 (key_mic s) ek) eqn:E4.
  { apply andb_prop in E4 as [E4a E4b].
    destruct (handle_m4_spec (addr2 frame) s eapol ek ap Hsok He Hek) as (o & -> & Ho). cbn [rbind].
    destruct o as [c|]; [|do 2 eexists; split; [done|constructor]].
    destruct Ho as (Hc & Hr & Ha). do 2 eexists. split; [done|]. by eapply step_installed. }
  pose proof (handle_m2_spec now (addr2 frame) s eapol ek ap out H Hs He Hek Hl) as Hm2.
  cbn zeta in Hm2. destruct (st_anonce s) as [anonce|] eqn:Ean;
    [|rewrite Hm2; do 2 eexists; split; [done|constructor]].
  destruct (decide (m2_expected ap s ek)) as [Hexp|];
    [|rewrite Hm2; do 2 eexists; split; [done|constructor]].
  destruct Hm2 as [[Hno ->]|(pmk & k & pre & post & Hsplit & _ & Hm & Hk' & Hp & kd & same & Hkd & Hsame & ->)].
  { destruct (st_awaiting_m4 s) eqn:Eaw; [do 2 eexists; split; [done|constructor]|].
    do 2 eexists. split; [apply f_equal, surjective_pairing|]. by eapply step_rejected. }
  destruct same; [|do 2 eexists; split; [done|constructor]].
  assert (Hauth : m2_authentic ap (addr2 frame) s eapol ek anonce pmk k).
  { split; [done|]. split; [done|]. split; [rewrite Hsplit; apply elem_of_app; right; by apply elem_of_cons; left|].
    do 3 (split; [done|]). by exists kd. }
  assert (Han : arr 32 anonce) by (pose proof (so_anonce s Hsok) as Ho; by rewrite Ean in Ho).
  destruct (accept_m2_spec now (addr2 frame) s anonce pmk k kd ap out H Hs Han Hp Hk')
    as (ap' & out' & ocv & Hacc & _ & Hres).
  exists ap', out'. split; [done|]. destruct ocv.
  - destruct Hres as (m3 & tail & ap2 & Hres).
    destruct (m3_replay_of (addr2 frame) s pmk ap) as [r ap1] eqn:Er.
    destruct Hres as (_ & Hmv & Hf & Ht & Hn).
    refine (step_m3_sent now frame ap out s eapol ek anonce pmk k r m3 tail ap' out' Hrec Hauth _ Hmv Hf Ht Hn).
    by rewrite Er.
  - destruct Hres as [Hmv ->].
    exact (step_channel_refused now frame ap out s eapol ek anonce pmk k ap' Hrec Hauth Hmv).
Qed.

Lemma handle_eapol_received now frame ap out s eapol ek :
  received frame ap s eapol ek ->
  handle_eapol now frame ap out =
    (if st_group_rekeying s && (ek_replay_counter ek =? st_eapol_replay s) then
       let! ap := handle_group_msg2 now (addr2 frame) s eapol ek ap in Val (ap, out)
     else if st_awaiting_m4 s && is_m4 (key_mic s) ek then
       let! ap := handle_m4 (addr2 frame) s eapol ek ap in Val (ap, out)
     else handle_m2 now (addr2 frame) s eapol ek ap out).
Proof.
  intros (R1 & Hs & He & b & Hb & Hk). unfold handle_eapol.
  rewrite R1, beq_refl, Hs, He. cbn [negb rbind]. rewrite Hb. cbn [rbind]. by rewrite Hk.
Qed.

Lemma disconnect_failures sta r ap : ap_failures (disconnect sta r ap) = ap_failures ap.
Proof. unfold disconnect. repeat case_match; done. Qed.

Lemma handle_eapol_step now frame ap out ap' out' :
  ap_ok ap -> wf_bytes (body frame) -> handle_eapol now frame ap out = Val (ap', out') ->
  eapol_step now frame ap out ap' out'.
Proof.
  intros H Hw E. destruct (handle_eapol_steps now frame ap out H Hw) as (a & o & E' & St).
  rewrite E in E'. by injection E' as -> ->.
Qed.

(** Every step moves one station; when that station survives, it moves in one
    of five ways. *)
Inductive station_step (now : Z) (frame : Dot11) (ap : Ap) (s : Station) : Station -> Prop :=
| sta_same : station_step now frame ap s s
| sta_group_acked : st_group_rekeying s = true -> station_step now frame ap s (group_acked now s)
| sta_installed eapol ek c :
    received frame ap s eapol ek -> st_awaiting_m4 s = true -> c ∈ st_ptk_candidates s ->
    m3_replay_counter c = ek_replay_counter ek ->
    authenticates (key_mic s) eapol ek (expected_mld ap s) c ->
    station_step now frame ap s (install_ptk c s)
| sta_pinned eapol ek anonce pmk k :
    received frame ap s eapol ek -> m2_authentic ap (addr2 frame) s eapol ek anonce pmk k ->
    station_step now frame ap s (m2_pinned pmk s)
| sta_m3_sent eapol ek anonce pmk k r m3 :
    received frame ap s eapol ek -> m2_authentic ap (addr2 frame) s eapol ek anonce pmk k ->
    r = (m3_replay_of (addr2 frame) s pmk ap).1 ->
    station_step now frame ap s (m3_sent now r pmk k m3 s).

Lemma received_lookup frame ap s s0 eapol ek :
  received frame ap s eapol ek -> ap_stations ap !! addr2 frame = Some s0 -> s0 = s.
Proof. intros (_ & Hs & _) Hs0. congruence. Qed.

Lemma eapol_step_local now frame ap out ap' out' :
  ap_ok ap -> eapol_step now frame ap out ap' out' ->
  group_state ap' = group_state ap /\
  (forall m, m <> addr2 frame -> ap_stations ap' !! m = ap_stations ap !! m).
Proof.
  intros H St. inversion St as [|? ? ? R|s eapol ek c R ? ? Hc|? ? ? ? R|? ? ? ? ? ? ? R ? M|
    ? ? ? ? ? ? ? ? ? ? ? R ? ? M]; subst.
  - done.
  - split; [done|]. intros m Hm. by rewrite upd_station_lookup, decide_False.
  - pose proof (ap_ok_station ap _ s H (proj1 (proj2 R))) as Hs.
    destruct (m4_accepted_moves (addr2 frame) s c ap H (proj1 (proj2 R))) as (_ & G & M).
    { exact (proj1 (Forall_forall _ _) (so_candidates s Hs) c Hc). }
    split; [done|]. intros m Hm. by rewrite M, lookup_insert_ne.
  - split.
    + unfold mic_rejected, disconnect, record_failure. cbn [fst].
      destruct (record_failure_entry _ _ _ _). repeat case_match; done.
    + intros m Hm. unfold mic_rejected. cbn [fst].
      rewrite disconnect_stations, record_failure_stations. by apply lookup_delete_ne.
  - destruct M as (_ & G & M). split; [done|]. intros m Hm. by rewrite M, lookup_insert_ne.
  - destruct M as (_ & G & M). split; [done|]. intros m Hm. by rewrite M, lookup_insert_ne.
Qed.

Lemma eapol_step_station now frame ap out ap' out' s s' :
  ap_ok ap -> eapol_step now frame ap out ap' out' ->
  ap_stations ap !! addr2 frame = Some s -> ap_stations ap' !! addr2 frame = Some s' ->
  station_step now frame ap s s'.
Proof.
  intros H St Hs Hs'. inversion St as [|s0 eapol ek R Hg|s0 eapol ek c R Ha ? Hc Hr Hau|? ? ? ? R|s0 eapol ek an pmk k ? R A M|
    s0 eapol ek an pmk k r m3 tl ? ? R A Hr M]; subst.
  - rewrite Hs in Hs'. injection Hs' as <-. constructor.
  - pose proof (received_lookup _ _ _ _ _ _ R Hs) as ->.
    rewrite upd_station_lookup, decide_True, Hs in Hs' by done. injection Hs' as <-. by constructor.
  - pose proof (received_lookup _ _ _ _ _ _ R Hs) as ->.
    pose proof (ap_ok_station ap _ _ H Hs) as Hok.
    destruct (m4_accepted_moves (addr2 frame) s0 c ap H Hs) as (_ & G & M).
    { exact (proj1 (Forall_forall _ _) (so_candidates s0 Hok) c Hc). }
    rewrite M, lookup_insert_eq in Hs'. injection Hs' as <-. by apply (sta_installed _ _ _ _ eapol ek).
  - unfold mic_rejected in Hs'. cbn [fst] in Hs'.
    by rewrite disconnect_stations, record_failure_stations, lookup_delete_eq in Hs'.
  - pose proof (received_lookup _ _ _ _ _ _ R Hs) as ->. destruct M as (_ & _ & M).
    rewrite M, lookup_insert_eq in Hs'. injection Hs' as <-. by apply (sta_pinned _ _ _ _ eapol ek an pmk k).
  - pose proof (received_lookup _ _ _ _ _ _ R Hs) as ->. destruct M as (_ & _ & M).
    rewrite M, lookup_insert_eq in Hs'. injection Hs' as <-.
    by apply (sta_m3_sent _ _ _ _ eapol ek an pmk k).
Qed.

End Steps.

(** * Properties of [handle_eapol] *)

Section Properties.
Context {P : Primitives} {Pok : PrimitivesOk P}.

(** C2: [handle_eapol] implements the abstract handshake: on every received
    frame it returns (no index out of range, no endless search), what it does to
    the AP and to the output is one of the steps of [eapol_step], and the AP it
    leaves satisfies the invariant again. *)
Theorem eapol_implements now frame ap out :
  ap_ok ap -> wf_bytes (body frame) ->
  exists ap' out', handle_eapol now frame ap out = Val (ap', out') /\
    eapol_step now frame ap out ap' out' /\ ap_ok ap'.
Proof.
  intros H Hw. destruct (handle_eapol_steps now frame ap out H Hw) as (ap' & out' & E & St).
  exists ap', out'. split; [done|]. split; [done|]. by eapply eapol_step_ok.
Qed.

(** A frame moves nothing but its transmitter: every other station keeps
    its whole state, and the group keys, their packet number, their key ids and
    the rekey epoch are untouched by the pairwise and group handshakes. *)
Lemma eapol_isolation now frame ap out ap' out' :
  ap_ok ap -> wf_bytes (body frame) -> handle_eapol now frame ap out = Val (ap', out') ->
  group_state ap' = group_state ap /\
  forall m, m <> addr2 frame -> ap_stations ap' !! m = ap_stations ap !! m.
Proof. intros H Hw E. eapply eapol_step_local; [done|]. by eapply handle_eapol_step. Qed.

(** C3: Keys are installed by an authenticated message 4 only.  If processing a
    frame makes a station associated, or changes its temporal key, KCK or KEK,
    then the station was waiting for message 4, the frame's MIC verifies under
    the KCK of one of the candidates kept for the replay counter it carries (and
    names the peer's MLD address when there is one), and the keys installed are
    that candidate's. *)
Theorem keys_only_from_message_4 now frame ap out ap' out' s s' :
  ap_ok ap -> wf_bytes (body frame) -> handle_eapol now frame ap out = Val (ap', out') ->
  ap_stations ap !! addr2 frame = Some s -> ap_stations ap' !! addr2 frame = Some s' ->
  (st_associated s = false /\ st_associated s' = true) \/ st_pairwise_tk s' <> st_pairwise_tk s \/
  st_kck s' <> st_kck s \/ st_kek s' <> st_kek s ->
  exists eapol ek c, key_frame frame eapol ek /\ st_awaiting_m4 s = true /\
    c ∈ st_ptk_candidates s /\ m3_replay_counter c = ek_replay_counter ek /\
    eapol_mic_valid (key_mic s) (cand_kck c) eapol ek = Val true /\
    authenticates (key_mic s) eapol ek (expected_mld ap s) c /\
    st_kck s' = cand_kck c /\ st_kek s' = cand_kek c /\ st_pairwise_tk s' = cand_tk c /\
    st_associated s' = true.
Proof.
  intros H Hw E Hs Hs' Hch.
  destruct (eapol_step_station now frame ap out ap' out' s s' H (handle_eapol_step _ _ _ _ _ _ H Hw E) Hs Hs')
    as [|Hg|eapol ek c R Ha Hc Hr Hau|eapol ek an pmk k R A|eapol ek an pmk k r m3 R A Hr].
  3:{ exists eapol, ek, c. destruct (install_ptk_keys s c) as (K1 & K2 & K3 & K4 & _).
      destruct R as (_ & _ & R). destruct Hau as [Hm Hau]. do 6 (split; [done|]). done. }
  all: exfalso; revert Hch; unfold group_acked, m3_sent, timer_armed, m3_pending, m2_kept, m2_pinned; fields;
    intros [[E1 E2]|[?|[?|?]]]; congruence.
Qed.

(** C4: No frame makes the AP reuse a packet number or reopen a replay window:
    as long as an associated station keeps its temporal key (messages
    replayed, retransmitted or duplicated included), its transmit packet number
    and both receive windows are exactly what they were. *)
Theorem replay_state_kept now frame ap out ap' out' s s' :
  ap_ok ap -> wf_bytes (body frame) -> handle_eapol now frame ap out = Val (ap', out') ->
  ap_stations ap !! addr2 frame = Some s -> ap_stations ap' !! addr2 frame = Some s' ->
  st_associated s = true ->
  take (key_len (st_pairwise_cipher s)) (st_pairwise_tk s') =
    take (key_len (st_pairwise_cipher s)) (st_pairwise_tk s) ->
  st_client_pn s' = st_client_pn s /\ st_last_rx_pn s' = st_last_rx_pn s /\
  st_last_rx_mgmt_pn s' = st_last_rx_mgmt_pn s /\ st_pairwise_cipher s' = st_pairwise_cipher s.
Proof.
  intros H Hw E Hs Hs' Has Htk. pose proof (ap_ok_station ap _ s H Hs) as Hok.
  destruct (eapol_step_station now frame ap out ap' out' s s' H (handle_eapol_step _ _ _ _ _ _ H Hw E) Hs Hs')
    as [|Hg|eapol ek c R Ha Hc Hr Hau|eapol ek an pmk k R A|eapol ek an pmk k r m3 R A Hr].
  3:{ destruct (install_ptk_keys s c) as (_ & _ & K3 & _ & _ & _ & K7). rewrite K3 in Htk.
      pose proof (install_ptk_windows s c) as W.
      replace (same_temporal_key s c) with true in W; [destruct W as (? & ? & ?); done|].
      symmetry. apply same_temporal_key_spec; [done| |done].
      exact (proj1 (Forall_forall _ _) (so_candidates s Hok) c Hc). }
  all: unfold group_acked, m3_sent, timer_armed, m3_pending, m2_kept, m2_pinned; fields; done.
Qed.

(** C5: Every key candidate is vouched for by a message 2.  A candidate that
    appears in a station's list carries keys derived from one of the PMKs the
    station is allowed, both nonces and both addresses, its KCK produced the MIC
    of the received message 2, and it is bound to the replay counter of the
    message 3 sent in answer; the list never exceeds eight entries. *)
Theorem candidates_from_message_2 now frame ap out ap' out' s s' c :
  ap_ok ap -> wf_bytes (body frame) -> handle_eapol now frame ap out = Val (ap', out') ->
  ap_stations ap !! addr2 frame = Some s -> ap_stations ap' !! addr2 frame = Some s' ->
  c ∈ st_ptk_candidates s' -> c ∉ st_ptk_candidates s ->
  exists eapol ek anonce pmk k, key_frame frame eapol ek /\ st_anonce s = Some anonce /\
    ek_replay_counter ek = st_m1_replay s /\ pmk ∈ pmk_candidates ap (addr2 frame) s /\
    m2_derive ap (addr2 frame) s anonce ek pmk = Val k /\
    mic_compute (key_mic s) (ptk_kck k) (m2_signed eapol ek) = Val (ek_mic ek) /\
    st_pmk s' = Some pmk /\ st_eapol_replay s' = m3_replay_counter c /\
    cand_kck c = ptk_kck k /\ cand_kek c = ptk_kek k /\ cand_tk c = ptk_tk k /\
    (length (st_ptk_candidates s') <= 8)%nat.
Proof.
  intros H Hw E Hs Hs' Hc Hnc. pose proof (handle_eapol_step _ _ _ _ _ _ H Hw E) as St.
  pose proof (eapol_step_ok _ _ _ _ _ _ H St) as H'.
  pose proof (so_bounded s' (ap_ok_station ap' _ s' H' Hs')) as Hb.
  destruct (eapol_step_station now frame ap out ap' out' s s' H St Hs Hs')
    as [|Hg|eapol ek c' R Ha Hc' Hr Hau|eapol ek an pmk k R A|eapol ek an pmk k r m3 R A Hr].
  - done.
  - unfold group_acked in Hc. by fields_in Hc.
  - destruct (install_ptk_keys s c') as (_ & _ & _ & _ & _ & K & _). rewrite K in Hc.
    by apply not_elem_of_nil in Hc.
  - unfold m2_pinned in Hc. by fields_in Hc.
  - destruct R as (_ & _ & R). destruct A as (A1 & A2 & A3 & [A4 A5] & _).
    exists eapol, ek, an, pmk, k. destruct A2 as (_ & A2 & _).
    unfold m3_sent, timer_armed, m3_pending, m2_kept, m2_pinned in Hc, Hb |- *. fields_in Hc. fields_in Hb.
    fields. apply push_candidate_in in Hc as [Hc| ->]; [done|]. done.
Qed.

(** C15: A message 2 that no allowed PMK explains, from a station whose group
    rekey is not pending (while it is, message 2 is not looked at), ends the
    attempt: the failure is recorded against the station, the station and its keys
    are forgotten, and exactly a deauthentication with reason 1 is sent.  Once
    message 3 has been sent, such a message changes nothing at all. *)
Theorem message_2_rejected now frame ap out s eapol ek anonce :
  ap_ok ap -> wf_bytes (body frame) -> received frame ap s eapol ek ->
  st_group_rekeying s = false -> st_anonce s = Some anonce -> m2_expected ap s ek ->
  is_m4 (key_mic s) ek = false ->
  (forall pmk k, pmk ∈ pmk_candidates ap (addr2 frame) s ->
     ~ m2_matches ap (addr2 frame) s anonce eapol ek pmk k) ->
  exists ap' out', handle_eapol now frame ap out = Val (ap', out') /\
    if st_awaiting_m4 s then ap' = ap /\ out' = out
    else ap_stations ap' = delete (addr2 frame) (ap_stations ap) /\
      ap_failures ap' = (record_failure_entry (ap_failures ap) (addr2 frame) (st_traits s) FourWayMic).2 /\
      out_frames out' = out_frames out ++ [RADIOTAP_TX ++ build_deauth (ap_mac ap) (addr2 frame) 1].
Proof.
  intros H Hw R Hg Ha Hm2 H4 Hno. pose proof R as (R1 & Hs & Hk).
  destruct (key_frame_ok frame eapol ek Hw Hk) as (Hek & He & Hl).
  rewrite (handle_eapol_received now frame ap out s eapol ek R), Hg, H4, andb_false_r. cbn [andb].
  pose proof (handle_m2_spec now (addr2 frame) s eapol ek ap out H Hs He Hek Hl) as Hspec.
  cbn zeta in Hspec. rewrite Ha, decide_True in Hspec by done.
  destruct Hspec as [[_ ->]|(pmk & k & pre & post & Hsplit & _ & Hm & _)].
  - destruct (st_awaiting_m4 s); [by do 2 eexists|]. do 2 eexists. split; [done|].
    unfold mic_rejected. cbn [fst snd]. rewrite disconnect_stations, record_failure_stations.
    split; [done|]. split; [|done]. rewrite disconnect_failures. unfold record_failure. rewrite Hs.
    by destruct (record_failure_entry _ _ _ _).
  - exfalso. apply (Hno pmk k); [rewrite Hsplit; apply elem_of_app; right; by apply elem_of_cons; left|done].
Qed.

(** C16: Message 2 of the group handshake: the frame the supplicant builds for the
    current replay counter, under the installed KCK, ends the rekey of that
    station; nothing else changes. *)
Theorem group_rekey_completes now ap out sta s sc2 :
  ap_ok ap -> ap_stations ap !! sta = Some s -> st_group_rekeying s = true -> 0 <= sc2 < 2 ^ 16 ->
  exists f d, build_group_key_msg2 (ap_mac ap) sta (st_kck s) (st_eapol_replay s) sc2 (key_mic s) = Val f /\
    parse f = Val (Some d) /\
    handle_eapol now d ap out = Val (upd_station sta (group_acked now) ap, out).
Proof.
  intros H Hs Hg Hsc. pose proof (ap_ok_station ap _ s H Hs) as Hok.
  destruct (group_msg2_rx (ap_mac ap) sta (st_kck s) (st_eapol_replay s) sc2 (key_mic s))
    as (f & d & fr & m & Hf & Hrx & A1 & A2 & _ & Hv); try done; try apply H; try apply Hok;
    [by apply (ao_stations ap H _ _ Hs)|].
  exists f, d. split; [exact Hf|]. split; [apply Hrx|]. subst sta.
  destruct Hrx as (_ & Hw & He & b & Hb & Hk).
  assert (R : received d ap s fr (built_key (ki_group2 (key_mic s)) 0 (st_eapol_replay s) (replicate 32 0) 0 m []))
    by (split; [done|]; split; [done|]; split; [done|by exists b]).
  destruct (key_frame_ok d fr _ Hw (proj2 (proj2 R))) as (Hek & Hfw & _).
  rewrite (handle_eapol_received now d ap out s fr _ R), Hg.
  cbn [ek_replay_counter built_key]. rewrite Z.eqb_refl. cbn [andb].
  destruct (group_msg2_spec now (addr2 d) s fr _ ap (so_kck s Hok) Hfw Hek) as (ok & Hv' & ->).
  rewrite Hv in Hv'. injection Hv' as <-.
  assert (Hsh : group_msg2_shape (key_mic s) (built_key (ki_group2 (key_mic s)) 0 (st_eapol_replay s) (replicate 32 0) 0 m []) = true).
  { unfold group_msg2_shape. cbn [ek_key_info ek_key_length ek_nonce ek_key_data built_key].
    rewrite beq_refl. by destruct (key_mic s). }
  by rewrite Hsh.
Qed.

(** C17: While [group_rekeying] is set, a message 2 of the four-way handshake that
    answers the current replay counter is read as a group message 2 and dropped,
    whatever key signed it.  (A re-association that restarts the four-way
    handshake without clearing the flag therefore cannot complete.) *)
Theorem group_rekey_masks_message_2 now frame ap out s eapol ek :
  ap_ok ap -> wf_bytes (body frame) -> received frame ap s eapol ek ->
  st_group_rekeying s = true -> ek_replay_counter ek = st_eapol_replay s ->
  key_info_matches (ek_key_info ek) (Z.lor 0x0108 (expected_key_descriptor_version (key_mic s))) = true ->
  handle_eapol now frame ap out = Val (ap, out).
Proof.
  intros H Hw R Hg Hr Hki. pose proof R as (_ & Hs & Hk).
  destruct (key_frame_ok frame eapol ek Hw Hk) as (Hek & He & _).
  rewrite (handle_eapol_received now frame ap out s eapol ek R), Hg, Hr, Z.eqb_refl. cbn [andb].
  destruct (group_msg2_spec now (addr2 frame) s eapol ek ap) as (ok & _ & ->);
    [apply (so_kck s), (ap_ok_station ap _ s H Hs)|done|done|].
  assert (group_msg2_shape (key_mic s) ek = false) as ->; [|done].
  unfold group_msg2_shape. replace (key_info_matches _ (Z.lor 0x300 _)) with false; [done|].
  symmetry. unfold key_info_matches in *. apply Z.eqb_eq in Hki. rewrite Hki.
  by destruct (key_mic s).
Qed.

End Properties.

(** * The hypotheses can be met *)

Local Ltac evaluate := vm_compute; reflexivity.

Lemma eapol_implements_witness :
  exists ap' out', handle_eapol 5 demo_m2 demo_ap no_output = Val (ap', out') /\
    eapol_step 5 demo_m2 demo_ap no_output ap' out' /\ ap_ok ap'.
Proof. apply eapol_implements; [apply demo_ap_ok|by apply (bool_decide_unpack _)]. Defined.

Lemma keys_only_from_message_4_witness :
  exists eapol ek c, key_frame demo_m4 eapol ek /\ st_awaiting_m4 demo_waiting = true /\
    c ∈ st_ptk_candidates demo_waiting /\ m3_replay_counter c = ek_replay_counter ek /\
    eapol_mic_valid (key_mic demo_waiting) (cand_kck c) eapol ek = Val true /\
    authenticates (key_mic demo_waiting) eapol ek (expected_mld (with_station demo_waiting) demo_waiting) c /\
    st_kck demo_associated = cand_kck c /\ st_kek demo_associated = cand_kek c /\
    st_pairwise_tk demo_associated = cand_tk c /\ st_associated demo_associated = true.
Proof.
  apply (keys_only_from_message_4 6 demo_m4 (with_station demo_waiting) no_output
           demo_after_m4.1 demo_after_m4.2 demo_waiting demo_associated);
    [apply with_station_ok, demo_waiting_ok|by apply (bool_decide_unpack _)|evaluate|evaluate|evaluate
    |left; split; reflexivity].
Defined.

Lemma replay_state_kept_witness :
  let s' := demo_lookup demo_reinstalled.1 in
  st_client_pn s' = 50 /\ st_last_rx_pn s' = replicate 17 41 /\ st_last_rx_mgmt_pn s' = 0 /\
  st_pairwise_cipher s' = Ccmp128.
Proof.
  apply (replay_state_kept 6 demo_m4 (with_station demo_reinstall) no_output
           demo_reinstalled.1 demo_reinstalled.2 demo_reinstall (demo_lookup demo_reinstalled.1));
    [apply with_station_ok, demo_reinstall_ok|by apply (bool_decide_unpack _)|evaluate|evaluate|evaluate
    |reflexivity|evaluate].
Defined.

Lemma candidates_from_message_2_witness :
  exists eapol ek anonce pmk k, key_frame demo_m2 eapol ek /\ st_anonce demo_station = Some anonce /\
    ek_replay_counter ek = st_m1_replay demo_station /\
    pmk ∈ pmk_candidates demo_ap (addr2 demo_m2) demo_station /\
    m2_derive demo_ap (addr2 demo_m2) demo_station anonce ek pmk = Val k /\
    mic_compute (key_mic demo_station) (ptk_kck k) (m2_signed eapol ek) = Val (ek_mic ek) /\
    st_pmk demo_waiting = Some pmk /\ st_eapol_replay demo_waiting = m3_replay_counter demo_candidate /\
    cand_kck demo_candidate = ptk_kck k /\ cand_kek demo_candidate = ptk_kek k /\
    cand_tk demo_candidate = ptk_tk k /\ (length (st_ptk_candidates demo_waiting) <= 8)%nat.
Proof.
  apply (candidates_from_message_2 5 demo_m2 demo_ap no_output demo_after_m2.1 demo_after_m2.2
           demo_station demo_waiting);
    [apply demo_ap_ok|by apply (bool_decide_unpack _)|evaluate|evaluate|evaluate
    |apply elem_of_cons; left; reflexivity|apply not_elem_of_nil].
Defined.

Lemma message_2_rejected_witness :
  exists ap' out', handle_eapol 5 demo_bad_m2 demo_ap no_output = Val (ap', out') /\
    ap_stations ap' = delete demo_sta (ap_stations demo_ap) /\
    ap_failures ap' = (record_failure_entry (ap_failures demo_ap) demo_sta 0 FourWayMic).2 /\
    out_frames out' = [] ++ [RADIOTAP_TX ++ build_deauth demo_mac demo_sta 1].
Proof.
  apply (message_2_rejected 5 demo_bad_m2 demo_ap no_output demo_station demo_bad_eapol demo_bad_key
           demo_anonce).
  - apply demo_ap_ok.
  - by apply (bool_decide_unpack _).
  - split; [evaluate|split; [evaluate|apply key_frame_of; evaluate]].
  - reflexivity.
  - reflexivity.
  - apply (bool_decide_unpack _). evaluate.
  - evaluate.
  - intros pmk k Hp [Hd Hm]. apply list_elem_of_singleton in Hp as ->.
    vm_compute in Hd. injection Hd as <-. vm_compute in Hm. discriminate Hm.
Defined.

Lemma group_rekey_completes_witness :
  exists f d, build_group_key_msg2 demo_mac demo_sta (st_kck demo_group_station) 9 3 HmacSha1 = Val f /\
    parse f = Val (Some d) /\
    handle_eapol 8 d (with_station demo_group_station) no_output =
      Val (upd_station demo_sta (group_acked 8) (with_station demo_group_station), no_output).
Proof.
  apply (group_rekey_completes 8 (with_station demo_group_station) no_output demo_sta demo_group_station 3);
    [apply with_station_ok, demo_group_station_ok|evaluate|reflexivity|lia].
Defined.

Lemma group_rekey_masks_message_2_witness :
  handle_eapol 5 demo_m2 (with_station demo_rekeying_station) no_output =
    Val (with_station demo_rekeying_station, no_output).
Proof.
  apply (group_rekey_masks_message_2 5 demo_m2 (with_station demo_rekeying_station) no_output
           demo_rekeying_station demo_m2_eapol demo_m2_key);
    [apply with_station_ok, demo_rekeying_station_ok|by apply (bool_decide_unpack _)
    |split; [evaluate|split; [evaluate|apply key_frame_of; evaluate]]
    |reflexivity|reflexivity|evaluate].
Defined.
