(* ===== verification/FourWay.v ===== *)
(** The authenticator's side of a complete four-way handshake: a message 2 of the
    right keys is answered with a message 3 that delivers the group keys, and
    message 4 installs the only candidate.  Bss.v composes this with the station. *)
From S2P Require Import Prelude Elements Crypto Security Frames Channels DataProt Kde Rsn Eapol Sae Failures Roaming Ap ApConfig ApEapol Demo Handshake.

Section FourWay.
Context {P : Primitives} {Pok : PrimitivesOk P}.

(** Both ends derive the same keys from their own point of view. *)
Lemma derive_ptk_symmetric sha n pmk a b na nb :
  derive_ptk sha n pmk a b na nb = derive_ptk sha n pmk b a nb na.
Proof. unfold derive_ptk. by rewrite ptk_sha256_symmetric, prf512_symmetric. Qed.

(** The security tail of every configuration is a list of elements. *)
Lemma advertised_elements ap :
  exists rs, advertised_security_tail ap = encode_elements rs /\ rsn_elements rs.
Proof.
  exists (elements (advertised_security_tail ap)).
  unfold advertised_security_tail, pairwise_ciphers.
  destruct (security_mode ap), (ap_pairwise_cipher ap);
    (split; [vm_compute; reflexivity|]);
    match goal with |- rsn_elements ?x => let y := eval vm_compute in x in change (rsn_elements y) end;
    repeat constructor; try (cbn; lia); try done.
Qed.

Lemma pn_u64 pn : pn_ok pn -> u64_ok pn.
Proof. unfold pn_ok, u64_ok, MAX_PACKET_NUMBER. lia. Qed.

(** Message 3 of an AP without multi-link, as the supplicant receives it. *)
Lemma build_m3_rx sta s anonce k r ap :
  ap_ok ap -> arr 6 sta -> arr 32 anonce -> ptk_ok k -> u64_ok r -> ap_mld ap = false ->
  exists m3 d fr m wrapped padded, build_m3 sta s anonce k r ap = Val (m3, (next_sc ap).2) /\
    let ek := built_key (ki_m3 (key_mic s)) (Z.of_nat (key_len (st_pairwise_cipher s))) r anonce
                (station_group_rsc ap sta) m wrapped in
    eapol_rx m3 d ek fr /\ addr1 d = sta /\ addr2 d = ap_mac ap /\ addr3 d = ap_mac ap /\ from_ds d = true /\
    eapol_mic_valid (key_mic s) (ptk_kck k) fr ek = Val true /\
    aes_unwrap (ptk_kek k) wrapped = Val (Some padded) /\
    parse_gtk_kde_full padded = Val (Some (station_gtk_key_id ap sta, station_gtk ap sta)) /\
    parse_igtk_kde padded = Val (if st_pmf s then
      Some (station_igtk_key_id ap sta, station_igtk_ipn ap sta, station_igtk ap sta) else None).
Proof.
  intros H Hsta Hn (Hkck & Hkek & _) Hr Hmld. unfold build_m3.
  destruct (next_sc ap) as [sq ap'] eqn:Esc.
  pose proof (next_sc_range ap) as Hsq. rewrite Esc in Hsq. cbn [fst] in Hsq.
  assert (ap' = (next_sc ap).2) as Eap' by (by rewrite Esc). cbn [snd].
  assert (Hm' : ap_mld ap' = false) by (rewrite Eap'; exact Hmld). rewrite Hm'. cbn [andb].
  assert (ap_mac ap' = ap_mac ap) as -> by (by rewrite Eap').
  assert (station_gtk ap' sta = station_gtk ap sta) as -> by (by rewrite Eap').
  assert (station_gtk_key_id ap' sta = station_gtk_key_id ap sta) as -> by (by rewrite Eap').
  assert (station_group_rsc ap' sta = station_group_rsc ap sta) as -> by (by rewrite Eap').
  pose proof (station_group_keys_ok ap sta H) as G.
  destruct (advertised_elements ap') as (rs & Hrs & Hrsok). rewrite Hrs.
  pose proof (proj2 (advertised_security_tail_ok ap')) as Hlen. rewrite Hrs in Hlen.
  set (igtk := if st_pmf s then _ else None). set (bigtk := if st_pmf s && _ then _ else None).
  set (oci := if ap_ocv ap then _ else None).
  assert (Hi : mgmt_key_ok igtk).
  { unfold igtk. destruct (st_pmf s); [|done]. split; [pose proof (go_igtk_id _ _ G); lia|]. split; apply G. }
  assert (Hb : mgmt_key_ok bigtk).
  { unfold bigtk. destruct (st_pmf s && ap_beacon_prot ap); [|done].
    split; [pose proof (ao_bigtk_id ap H); lia|]. split; apply H. }
  assert (Ho : match oci with Some (oc, ch) => is_byte oc /\ is_byte ch | None => True end).
  { unfold oci. destruct (ap_ocv ap); [|done]. split; [apply operating_class_byte|apply H]. }
  assert (Hkl : 0 <= Z.of_nat (key_len (st_pairwise_cipher s)) < 2 ^ 16)
    by (destruct (st_pairwise_cipher s); cbn; lia).
  destruct (eapol_m3_rx (ap_mac ap) sta anonce (ptk_kck k) (ptk_kek k) rs (station_gtk_key_id ap sta)
    (station_gtk ap sta) igtk bigtk oci (station_group_rsc ap sta) r sq (key_mic s)
    (Z.of_nat (key_len (st_pairwise_cipher s))))
    as (f & d & fr & m & wrapped & padded & Hf & Hrx & A1 & A2 & A3 & Hds & Hv & Hu & Hg & Hig & _);
    try done; try apply G; try apply H; [lia|apply pn_u64, G|].
  rewrite Hf. cbn [rbind]. exists f, d, fr, m, wrapped, padded. split; [done|]. split; [exact Hrx|].
  do 4 (split; [done|]). split; [exact Hv|]. split; [exact Hu|]. split; [|exact Hig].
  rewrite Hg. do 2 f_equal. by destruct (go_gtk_id _ _ G) as [-> | ->].
Qed.

(** Identity and mode of the AP are configuration: the handshake keeps them. *)
Lemma static_arm sta ap : ap_static (arm_eapol_timer sta ap) = ap_static ap.
Proof. unfold arm_eapol_timer. repeat case_match; done. Qed.
Lemma static_replay sta s pmk ap : ap_static (m3_replay_of sta s pmk ap).2 = ap_static ap.
Proof. unfold m3_replay_of. by destruct (st_awaiting_m4 s). Qed.
Lemma static_m3_queued now sta m3 ap : ap_static (m3_queued now sta m3 ap) = ap_static ap.
Proof. unfold m3_queued. by rewrite static_arm. Qed.

Lemma static_build_m3 sta s anonce k r ap m3 ap' :
  build_m3 sta s anonce k r ap = Val (m3, ap') -> ap_static ap' = ap_static ap.
Proof.
  unfold build_m3. destruct (next_sc ap) as [q ap0] eqn:E.
  assert (ap_static ap0 = ap_static ap) as <- by (unfold next_sc in E; by injection E as _ <-).
  destruct (if _ && _ then _ else _); cbn [rbind]; [|done|done]. by intros [= _ <-].
Qed.

Lemma accept_m2_static now sta s anonce pmk k kd ap out ap' out' :
  accept_m2 now sta s anonce pmk k kd ap out = Val (ap', out') -> ap_static ap' = ap_static ap.
Proof.
  rewrite accept_m2_unfold. destruct (oci_accepted ap kd) as [[]| |]; cbn [rbind negb]; try done;
    [|by intros [= <- _]].
  pose proof (static_replay sta s pmk ap) as Hs.
  destruct (m3_replay_of sta s pmk ap) as [r ap1]. cbn [snd] in Hs.
  destruct (build_m3 _ _ _ _ _ _) as [[m3 ap2]| |] eqn:E; cbn [rbind]; try done.
  apply static_build_m3 in E. rewrite static_upd, Hs in E.
  pose proof (static_m3_queued now sta m3 ap2) as Hq. rewrite E in Hq.
  revert Hq. generalize (m3_queued now sta m3 ap2). intros ap3 Hq.
  destruct (ap_btm ap3 && negb (st_pmf s)); [|by intros [= <- _]].
  unfold btm_request_frame, next_sc. intros [= <- _]. exact Hq.
Qed.

(** A station that waits for its first message 2, and has one PMK that explains it:
    its own, or on a PSK network the passphrase's. *)
Record awaits_m2 (ap : Ap) (sta : bytes) (s : Station) (anonce pmk : bytes) : Prop := {
  aw_station : ap_stations ap !! sta = Some s;
  aw_plain : ap_mld ap = false /\ ap_ocv ap = false /\ st_assoc_link_id s = None;
  aw_idle : st_group_rekeying s = false /\ st_eapol_ready s = true /\ st_awaiting_m4 s = false /\
            st_ptk_candidates s = [];
  aw_anonce : st_anonce s = Some anonce;
  aw_pmk : pmk_candidates ap sta s = [pmk];
  aw_known : security_mode ap = Wpa3Sae \/ security_mode ap = Owe -> st_pmk s <> None
}.

Lemma mic_computed mic kck fr ek :
  arr 16 kck -> wf_bytes fr -> eapol_key_ok ek -> eapol_mic_valid mic kck fr ek = Val true ->
  mic_compute mic kck (m2_signed fr ek) = Val (ek_mic ek).
Proof.
  intros Hk Hf Hek Hv. destruct (eapol_mic_valid_total mic kck fr ek Hk Hf) as (v & Hv' & Hspec).
  { apply Hek. }
  rewrite Hv in Hv'. injection Hv' as <-. by apply Hspec.
Qed.

(** The candidate the AP keeps for the supplicant's keys. *)
Definition candidate_of (r : Z) (k : Ptk) : PtkCandidate :=
  {| m3_replay_counter := r; cand_kck := ptk_kck k; cand_kek := ptk_kek k; cand_tk := ptk_tk k |}.

(** Message 2 of the supplicant is answered with message 3. *)
Lemma first_message_2 now d ap out s fr ek anonce pmk k kd :
  ap_ok ap -> wf_bytes (body d) -> awaits_m2 ap (addr2 d) s anonce pmk ->
  received d ap s fr ek -> ek_replay_counter ek = st_m1_replay s ->
  key_info_matches (ek_key_info ek) (Z.lor 0x0108 (expected_key_descriptor_version (key_mic s))) = true ->
  ek_key_length ek = 0 ->
  derive_ptk (st_sha256 s) (key_len (st_pairwise_cipher s)) pmk (ap_mac ap) (addr2 d) anonce (ek_nonce ek)
    = Val k ->
  eapol_mic_valid (key_mic s) (ptk_kck k) fr ek = Val true ->
  trim_key_data_padding (ek_key_data ek) = Val kd ->
  message_2_security_matches (st_assoc_ies s) kd = Val true ->
  exists ap1 out1 r m3 tail ap0 ap2, handle_eapol now d ap out = Val (ap1, out1) /\ ap_ok ap1 /\
    u64_ok r /\ r = (next_eapol_replay ap).1 /\ out_frames out1 = out_frames out ++ (RADIOTAP_TX ++ m3) :: tail /\
    moves_stations (alter (m2_pinned pmk) (addr2 d)) ap ap0 /\ ap_mac ap0 = ap_mac ap /\
    ap_mld ap0 = false /\ ap_per_sta_vif ap0 = ap_per_sta_vif ap /\
    build_m3 (addr2 d) s anonce k r (upd_station (addr2 d) (m2_kept r k) ap0) = Val (m3, ap2) /\
    ap_mac ap1 = ap_mac ap /\ ap_mld ap1 = false /\
    ap_stations ap1 !! addr2 d = Some (m3_sent now r pmk k m3 s).
Proof.
  intros H Hw W R Hrc Hki Hkl Hd Hv Htrim Hmatch. destruct W as [Hs (Hmld & Hocv & Hal) (Hg & Hr & Haw & Hcs) Han Hp Hkn].
  destruct R as (R1 & _ & Hk). destruct (key_frame_ok d fr ek Hw Hk) as (Hek & He & Hl).
  pose proof (ap_ok_station ap _ s H Hs) as Hok.
  assert (Hadr : ptk_addresses ap (addr2 d) s = (ap_mac ap, addr2 d)).
  { unfold ptk_addresses. rewrite Hal, Hmld. cbn. by destruct (st_client_mld_mac s). }
  rewrite (handle_eapol_received now d ap out s fr ek (conj R1 (conj Hs Hk))), Hg, Haw. cbn [andb].
  assert (Hder : m2_derive ap (addr2 d) s anonce ek pmk = Val k)
    by (unfold m2_derive; rewrite Hadr; exact Hd).
  assert (Hexp : m2_expected ap s ek) by (repeat split; auto).
  assert (Hkok : ptk_ok k).
  { destruct (m2_derive_ok ap (addr2 d) s anonce ek pmk H Hok) as (k' & Hk' & Hkok); try done.
    - apply (ao_stations ap H _ _ Hs).
    - pose proof (so_anonce s Hok) as Ho. by rewrite Han in Ho.
    - pose proof (pmk_candidates_ok ap (addr2 d) s H Hok) as Ho. rewrite Hp in Ho. by apply Forall_cons in Ho as [Ho _].
    - rewrite Hder in Hk'. by injection Hk' as <-. }
  pose proof (handle_m2_spec now (addr2 d) s fr ek ap out H Hs He Hek Hl) as Hspec.
  cbn zeta in Hspec. rewrite Han, decide_True in Hspec by done.
  rewrite Hp in Hspec.
  destruct Hspec as [[Hno _]|(pmk' & k' & pre & post & Hsplit & _ & [Hm1 Hm2] & Hk' & Hp' & kd' & same & Ht' & Hs' & ->)].
  { exfalso. apply (Hno pmk k); [by apply elem_of_cons; left|]. split; [done|].
    apply mic_computed; try done. apply Hkok. }
  destruct pre as [|? [|]]; try done. injection Hsplit as <- <-.
  rewrite Hder in Hm1. injection Hm1 as <-. rewrite Htrim in Ht'. injection Ht' as <-.
  rewrite Hmatch in Hs'. injection Hs' as <-.
  assert (Hann : arr 32 anonce) by (pose proof (so_anonce s Hok) as Ho; by rewrite Han in Ho).
  pose proof (m3_replay_of_spec (addr2 d) s pmk ap H Hs Hp') as [Hru Hmv0].
  destruct (accept_m2_spec now (addr2 d) s anonce pmk k kd ap out H Hs Hann Hp' Hk')
    as (ap1 & out1 & ocv & Hacc & Hoc & Hres).
  unfold oci_accepted in Hoc. rewrite Hocv in Hoc. injection Hoc as <-.
  destruct Hres as (m3 & tail & ap2 & Hres).
  assert (Hstat : ap_mac (m3_replay_of (addr2 d) s pmk ap).2 = ap_mac ap /\
    ap_mld (m3_replay_of (addr2 d) s pmk ap).2 = ap_mld ap /\
    ap_per_sta_vif (m3_replay_of (addr2 d) s pmk ap).2 = ap_per_sta_vif ap)
    by (unfold m3_replay_of; by rewrite Haw).
  assert (Hcnt : (m3_replay_of (addr2 d) s pmk ap).1 = (next_eapol_replay ap).1)
    by (unfold m3_replay_of; by rewrite Haw).
  destruct (m3_replay_of (addr2 d) s pmk ap) as [r ap0] eqn:Er. cbn [fst snd] in *.
  destruct Hres as (Hm3 & Hmv & Hof & _ & _). destruct Hstat as (S1 & S2 & S3).
  pose proof (accept_m2_static now (addr2 d) s anonce pmk k kd ap out ap1 out1 Hacc) as Hst.
  injection Hst as T1 T2 T3.
  exists ap1, out1, r, m3, tail, ap0, ap2. split; [exact Hacc|]. split; [apply Hmv|].
  split; [done|]. split; [exact Hcnt|]. split; [done|]. split; [done|]. split; [done|]. split; [congruence|].
  split; [done|]. split; [done|]. split; [congruence|]. split; [congruence|].
  destruct Hmv as (_ & _ & ->). by rewrite lookup_insert_eq.
Qed.

(** Message 4 under the only candidate installs it. *)
Lemma only_candidate_installed now d ap out s fr ek c :
  ap_ok ap -> wf_bytes (body d) -> received d ap s fr ek -> ap_mld ap = false ->
  st_group_rekeying s = false -> st_awaiting_m4 s = true -> is_m4 (key_mic s) ek = true ->
  st_ptk_candidates s = [c] -> m3_replay_counter c = ek_replay_counter ek ->
  eapol_mic_valid (key_mic s) (cand_kck c) fr ek = Val true ->
  handle_eapol now d ap out = Val (m4_accepted (addr2 d) s c ap, out).
Proof.
  intros H Hw R Hmld Hg Haw H4 Hcs Hr Hv. pose proof R as (_ & Hs & Hk).
  destruct (key_frame_ok d fr ek Hw Hk) as (Hek & He & _).
  rewrite (handle_eapol_received now d ap out s fr ek R), Hg, Haw, H4. cbn [andb].
  destruct (handle_m4_spec (addr2 d) s fr ek ap (ap_ok_station ap _ s H Hs) He Hek) as (o & -> & Ho).
  cbn [rbind]. rewrite Hcs in Ho. destruct o as [c'|].
  - destruct Ho as (Hc & _). by apply list_elem_of_singleton in Hc as ->.
  - exfalso. apply (Ho c); [by apply elem_of_cons; left|done|].
    split; [done|]. unfold expected_mld. by rewrite Hmld.
Qed.

Lemma ki_m2_matches mic :
  key_info_matches (key_info_to_u16 (ki_m2 mic)) (Z.lor 0x0108 (expected_key_descriptor_version mic)) = true.
Proof. by destruct mic. Qed.

Lemma built_m4 mic r m : is_m4 mic (built_key (ki_m4 mic) 0 r (replicate 32 0) 0 m []) = true.
Proof. by destruct mic. Qed.

Lemma rx_received f d ek fr ap s :
  eapol_rx f d ek fr -> addr1 d = ap_mac ap -> ap_stations ap !! addr2 d = Some s ->
  received d ap s fr ek.
Proof.
  intros (_ & _ & He & b & Hb & Hk) H1 Hs. split; [done|]. split; [done|]. split; [done|by exists b].
Qed.

(** What a station that holds the PTK finds in message 3. *)
Definition supplicant_gets_keys (ap : Ap) (sta : bytes) (s : Station) (anonce : bytes) (k : Ptk)
    (r : Z) (m3 : bytes) : Prop :=
  exists d fr m wrapped padded rsc, pn_ok rsc /\
    let ek := built_key (ki_m3 (key_mic s)) (Z.of_nat (key_len (st_pairwise_cipher s))) r anonce rsc m wrapped in
    eapol_rx m3 d ek fr /\ addr1 d = sta /\ addr2 d = ap_mac ap /\ addr3 d = ap_mac ap /\ from_ds d = true /\
    eapol_mic_valid (key_mic s) (ptk_kck k) fr ek = Val true /\
    aes_unwrap (ptk_kek k) wrapped = Val (Some padded) /\
    parse_gtk_kde_full padded = Val (Some (station_gtk_key_id ap sta, station_gtk ap sta)) /\
    parse_igtk_kde padded = Val (if st_pmf s then
      Some (station_igtk_key_id ap sta, station_igtk_ipn ap sta, station_igtk ap sta) else None).

Lemma own_or_bss_upd {A} (own : Station -> A) bss ap ap' sta f g s :
  ap_stations ap !! sta = Some s -> ap_stations ap' = alter g sta (ap_stations ap) ->
  ap_per_sta_vif ap' = ap_per_sta_vif ap -> own (f (g s)) = own s ->
  own_or_bss own bss (upd_station sta f ap') sta = own_or_bss own bss ap sta.
Proof.
  intros Hs Hst Hv Ho. unfold own_or_bss.
  change (ap_per_sta_vif (upd_station sta f ap')) with (ap_per_sta_vif ap'). rewrite Hv.
  destruct (ap_per_sta_vif ap); [|done].
  rewrite upd_station_lookup, decide_True, Hst, lookup_alter_eq, Hs by done. cbn. exact Ho.
Qed.

Lemma message_3_delivers sta s anonce pmk k r ap ap0 m3 ap2 :
  ap_stations ap !! sta = Some s -> arr 6 sta -> arr 32 anonce -> ptk_ok k -> u64_ok r ->
  moves_stations (alter (m2_pinned pmk) sta) ap ap0 -> ap_mac ap0 = ap_mac ap ->
  ap_mld ap0 = ap_mld ap -> ap_per_sta_vif ap0 = ap_per_sta_vif ap -> ap_mld ap = false ->
  build_m3 sta s anonce k r (upd_station sta (m2_kept r k) ap0) = Val (m3, ap2) ->
  supplicant_gets_keys ap sta s anonce k r m3.
Proof.
  intros Hs Hsta Hn Hk Hr (H0 & G0 & M0) S1 S2 S3 Hmld Hm3.
  assert (H1 : ap_ok (upd_station sta (m2_kept r k) ap0))
    by (apply ap_ok_upd; [done|]; intros x _ Hx; by apply m2_kept_ok).
  destruct (build_m3_rx sta s anonce k r _ H1 Hsta Hn Hk Hr) as
    (m & d & fr & mc & wrapped & padded & Hb & Hrx & A1 & A2 & A3 & Hds & Hv & Hu & Hg & Hi);
    [by rewrite <- Hmld, <- S2|].
  rewrite Hb in Hm3. injection Hm3 as -> _.
  pose proof (go_rsc _ _ (station_group_keys_ok _ sta H1)) as Hrsc.
  change (ap_mac (upd_station sta (m2_kept r k) ap0)) with (ap_mac ap0) in A2, A3.
  injection G0 as G1 G2 G3 G4 G5 G6 _ _ _ _.
  assert (Hk1 : station_gtk (upd_station sta (m2_kept r k) ap0) sta = station_gtk ap sta)
    by (unfold station_gtk; rewrite <- G1; by apply (own_or_bss_upd _ _ _ _ _ _ _ s Hs M0 S3)).
  assert (Hk2 : station_gtk_key_id (upd_station sta (m2_kept r k) ap0) sta = station_gtk_key_id ap sta)
    by (unfold station_gtk_key_id; rewrite <- G2; by apply (own_or_bss_upd _ _ _ _ _ _ _ s Hs M0 S3)).
  assert (Hk3 : station_igtk (upd_station sta (m2_kept r k) ap0) sta = station_igtk ap sta)
    by (unfold station_igtk; rewrite <- G4; by apply (own_or_bss_upd _ _ _ _ _ _ _ s Hs M0 S3)).
  assert (Hk4 : station_igtk_key_id (upd_station sta (m2_kept r k) ap0) sta = station_igtk_key_id ap sta)
    by (unfold station_igtk_key_id; rewrite <- G5; by apply (own_or_bss_upd _ _ _ _ _ _ _ s Hs M0 S3)).
  assert (Hk5 : station_igtk_ipn (upd_station sta (m2_kept r k) ap0) sta = station_igtk_ipn ap sta)
    by (unfold station_igtk_ipn; rewrite <- G6; by apply (own_or_bss_upd _ _ _ _ _ _ _ s Hs M0 S3)).
  rewrite Hk1, Hk2 in Hg. rewrite Hk3, Hk4, Hk5 in Hi.
  do 6 eexists. split; [exact Hrsc|]. split; [exact Hrx|]. split; [done|]. split; [congruence|]. split; [congruence|].
  split; [done|]. split; [exact Hv|]. split; [exact Hu|]. split; [exact Hg|exact Hi].
Qed.

End FourWay.
