(* ===== verification/ApData.v ===== *)
(** The protected data path of the access point: src/ap/data.rs. *)
From S2P Require Import Prelude Elements Crypto Security Frames Channels DataProt Kde Rsn Eapol Sae Failures Ap ApConfig ApEapol Demo.

(** [dot11::wmm_tid]: the user priority of an Ethernet frame. *)
Definition wmm_tid (eth : bytes) : res Z :=
  if (length eth <? 16)%nat then Val 0
  else
    let! t := slice eth 12 14 in
    let! b15 := idx eth 15 in
    if be_val t =? 0x0800 then Val (Z.shiftr b15 5)
    else if be_val t =? 0x86DD then
      let! b14 := idx eth 14 in
      Val (Z.shiftr (Z.lor (u8 (Z.shiftl (Z.land b14 0x0f) 4)) (Z.shiftr b15 4)) 5)
    else Val 0.

(** The station is known and has completed its four-way handshake. *)
Definition is_associated (ap : Ap) (sta : bytes) : bool :=
  match ap_stations ap !! sta with Some s => st_associated s | None => false end.

(** The replay window a frame belongs to: its TID, or 16 without QoS. *)
Definition replay_index (frame : Dot11) : nat :=
  match qos frame with Some q => Z.to_nat (Z.land q 0x000f) | None => 16%nat end.

Section Data.
Context {P : Primitives}.

(** ** Uplink *)

Definition handle_data_uplink (frame : Dot11) (ap : Ap) (out : Outgoing) : res (Ap * Outgoing) :=
  let sta := addr2 frame in
  if negb (beq (addr1 frame) (ap_mac ap)) then Val (ap, out)
  else if is_amsdu frame || is_fragment frame then Val (ap, out)
  else
    let! key_id := ccmp_key_id frame in
    if negb (key_id =? 0) then Val (ap, out)
    else
      match ap_stations ap !! sta with
      | None => Val (ap, out_tx (build_deauth (ap_mac ap) sta 7) out)
      | Some s =>
          if negb (st_associated s) then Val (ap, out)
          else
            let! opn := ccmp_pn frame in
            match opn with
            | None => Val (ap, out)
            | Some pn =>
                let i := replay_index frame in
                let! window := idx (st_last_rx_pn s) i in
                if pn <=? window then Val (ap, out)
                else
                  let cipher := st_pairwise_cipher s in
                  let sec := mld_data_rx_sec_addrs ap sta frame in
                  let! tk := slice (st_pairwise_tk s) 0 (key_len cipher) in
                  let! plain := decrypt_protected_data_sec cipher frame tk false sec in
                  match plain with
                  | None => Val (record_failure sta CcmpData ap, out)
                  | Some eth =>
                      if (12 <=? length eth)%nat && beq (sub eth 6 12) sta then
                        let ap := upd_station sta (fun s =>
                          s <| st_last_rx_pn := <[i := pn]> (st_last_rx_pn s) |>) ap in
                        if ap_guest ap && is_associated ap (sub eth 0 6) then Val (ap, out)
                        else Val (ap, out_network eth out)
                      else Val (ap, out)
                  end
            end
      end.

(** ** Downlink *)

(** What one Ethernet frame is encrypted with: suite, key id, packet number,
    key, receiver address, TID and security addresses, and the AP with the
    packet number consumed. *)
Record TxKey := {
  tx_cipher : DataCipher; tx_key_id : Z; tx_pn : Z; tx_tk : bytes;
  tx_tid : option Z; tx_sec : option addrs
}.

Definition group_tx_key (ap : Ap) : option (TxKey * Ap) :=
  match next_group_pn ap with
  | None => None
  | Some (pn, ap) =>
      Some ({| tx_cipher := Ccmp128; tx_key_id := ap_gtk_key_id ap; tx_pn := pn;
               tx_tk := take 16 (ap_gtk ap) ++ replicate 16 0; tx_tid := None; tx_sec := None |}, ap)
  end.

Definition pairwise_tx_key (eth dst src : bytes) (ap : Ap) : res (option (TxKey * Ap)) :=
  match ap_stations ap !! dst with
  | Some s =>
      if negb (st_associated s) then Val None
      else
        match next_client_pn s with
        | None => Val None
        | Some (pn, s') =>
            let ap := ap <| ap_stations := <[dst := s']> (ap_stations ap) |> in
            let! tid := if st_wmm s then rmap Some (wmm_tid eth) else Val None in
            Val (Some ({| tx_cipher := st_pairwise_cipher s; tx_key_id := 0; tx_pn := pn;
                          tx_tk := st_pairwise_tk s; tx_tid := tid;
                          tx_sec := mld_data_tx_sec_addrs ap dst src |}, ap))
        end
  | None => Val None
  end.

(** Group frames travel under the GTK at its current index, others under the
    key of their destination. *)
Definition tx_key_for (eth : bytes) (ap : Ap) : res (option (TxKey * Ap)) :=
  let dst := sub eth 0 6 in
  if is_multicast dst || is_broadcast dst then Val (group_tx_key ap)
  else pairwise_tx_key eth dst (sub eth 6 12) ap.

Definition deliver_to_station (eth : bytes) (ap : Ap) : res (list bytes * Ap) :=
  if (length eth <? 14)%nat then Val ([], ap)
  else
    let dst := sub eth 0 6 in
    let src := sub eth 6 12 in
    let ethertype := be_val (sub eth 12 14) in
    let inner := drop 14 eth in
    if ap_guest ap && is_associated ap src then Val ([], ap)
    else
      let! key := tx_key_for eth ap in
      match key with
      | None => Val ([], ap)
      | Some (k, ap) =>
          let (sc, ap) := next_sc ap in
          let '(sec_a1, sec_a2, sec_a3) := default (dst, ap_mac ap, src) (tx_sec k) in
          let! tk := slice (tx_tk k) 0 (key_len (tx_cipher k)) in
          let! frame :=
            build_protected_data_sec (tx_cipher k) dst (ap_mac ap) src sec_a1 sec_a2 sec_a3
              (Z.lor FC_FROMDS FC_PROTECTED) sc (tx_pn k) (tx_key_id k) tk ethertype inner (tx_tid k) in
          Val ([RADIOTAP_TX ++ frame], ap)
      end.

End Data.

(** * What the uplink does *)

Section Uplink.
Context {P : Primitives}.

(** A frame the AP is ready to decrypt: for its BSSID, neither aggregated nor
    fragmented, under the pairwise key id, from an associated station, with a
    packet number above the window of its TID. *)
Definition uplink_fresh (frame : Dot11) (ap : Ap) (s : Station) (pn : Z) : Prop :=
  addr1 frame = ap_mac ap /\ is_amsdu frame = false /\ is_fragment frame = false /\
  ccmp_key_id frame = Val 0 /\ ap_stations ap !! addr2 frame = Some s /\ st_associated s = true /\
  ccmp_pn frame = Val (Some pn) /\
  exists w, st_last_rx_pn s !! replay_index frame = Some w /\ w < pn <= MAX_PACKET_NUMBER.

(** The payload of [frame] decrypts, under the station's installed key, to the
    SNAP payload [et ++ l3]. *)
Definition uplink_authentic (frame : Dot11) (ap : Ap) (s : Station) (pn : Z) (et l3 : bytes) : Prop :=
  exists s1 s2 s3 ct tag,
    (s1, s2, s3) = default (addr1 frame, addr2 frame, addr3 frame)
                     (mld_data_rx_sec_addrs ap (addr2 frame) frame) /\
    body frame = take 8 (body frame) ++ ct ++ tag /\
    authentic (st_pairwise_cipher s) (take (key_len (st_pairwise_cipher s)) (st_pairwise_tk s))
      (priority frame) s2 pn (frame_aad frame s1 s2 s3) ct tag (SNAP_PREFIX ++ et ++ l3).

Definition advance_window (i : nat) (pn : Z) (s : Station) : Station :=
  s <| st_last_rx_pn := <[i := pn]> (st_last_rx_pn s) |>.

(** What one protected uplink frame may do. *)
Inductive uplink_step (frame : Dot11) (ap : Ap) (out : Outgoing) : Ap -> Outgoing -> Prop :=
| up_dropped : uplink_step frame ap out ap out
| up_unknown :
    addr1 frame = ap_mac ap -> ap_stations ap !! addr2 frame = None ->
    uplink_step frame ap out ap (out_tx (build_deauth (ap_mac ap) (addr2 frame) 7) out)
| up_failed s pn :
    uplink_fresh frame ap s pn ->
    uplink_step frame ap out (record_failure (addr2 frame) CcmpData ap) out
| up_accepted s pn et l3 (isolated : bool) :
    uplink_fresh frame ap s pn ->
    length et = 2%nat -> wf_bytes (et ++ l3) ->
    uplink_authentic frame ap s pn et l3 ->
    isolated = ap_guest ap && is_associated ap (addr3 frame) ->
    uplink_step frame ap out
      (upd_station (addr2 frame) (advance_window (replay_index frame) pn) ap)
      (if isolated then out else out_network (addr3 frame ++ addr2 frame ++ et ++ l3) out).

Context {Pok : PrimitivesOk P}.

Lemma key_len_le c : (key_len c <= 32)%nat.
Proof. destruct c; vm_compute; lia. Qed.

Lemma replay_index_bound d : dot11_ok d -> (replay_index d < 17)%nat.
Proof.
  intros (_ & _ & _ & _ & _ & _ & _ & Hq). unfold replay_index. destruct (qos d) as [q|]; [|lia].
  change 0x000F with (Z.ones 4). rewrite Z.land_ones by lia.
  pose proof (Z.mod_pos_bound q (2 ^ 4)). lia.
Qed.

Lemma mld_data_rx_sec_addrs_ok ap sta d :
  ap_ok ap -> arr 6 (addr3 d) -> sec_addrs_ok (mld_data_rx_sec_addrs ap sta d).
Proof.
  intros H H3. unfold mld_data_rx_sec_addrs, station_mld, sec_addrs_ok.
  destruct (ap_mld ap); [|done]. destruct (ap_stations ap !! sta) as [s|] eqn:Es; [|done]. cbn [mbind option_bind].
  pose proof (so_mld s (ap_ok_station _ _ _ H Es)) as Hm.
  destruct (st_client_mld_mac s); [|done]. cbn [option_map opt_ok] in *.
  split; [apply H|split; [done|]]. case_match; [apply H|done].
Qed.

Lemma advance_window_ok i pn s :
  station_ok s -> pn_ok pn -> station_ok (advance_window i pn s).
Proof.
  intros H Hp. unfold advance_window.
  assert (length (<[i:=pn]> (st_last_rx_pn s)) = 17%nat) by (rewrite length_insert; apply H).
  assert (Forall pn_ok (<[i:=pn]> (st_last_rx_pn s))) by (apply Forall_insert; [apply H|done]).
  keep_station_ok H.
Qed.

Lemma is_associated_upd ap sta i pn m :
  is_associated (upd_station sta (advance_window i pn) ap) m = is_associated ap m.
Proof.
  unfold is_associated. rewrite upd_station_lookup. case_decide; [|done].
  by destruct (ap_stations ap !! m).
Qed.

(** The decryption of a fresh frame. *)
Lemma uplink_decrypts frame ap s pn :
  ap_ok ap -> dot11_ok frame -> uplink_fresh frame ap s pn ->
  let c := st_pairwise_cipher s in
  exists o, decrypt_protected_data_sec c frame (take (key_len c) (st_pairwise_tk s)) false
              (mld_data_rx_sec_addrs ap (addr2 frame) frame) = Val o /\
    forall eth, o = Some eth ->
      exists et l3, eth = addr3 frame ++ addr2 frame ++ et ++ l3 /\ length et = 2%nat /\
        wf_bytes (et ++ l3) /\ uplink_authentic frame ap s pn et l3.
Proof.
  intros H Hd (_ & _ & _ & _ & Es & _ & Hpn & _) c.
  pose proof (ap_ok_station _ _ _ H Es) as Hs.
  destruct (decrypt_protected_data_sound c frame (take (key_len c) (st_pairwise_tk s)) false
    (mld_data_rx_sec_addrs ap (addr2 frame) frame) Hd) as (o & Ho & Hsound).
  { apply wf_bytes_take, Hs. }
  { apply mld_data_rx_sec_addrs_ok; [done|apply Hd]. }
  exists o. split; [done|]. intros eth E.
  destruct (Hsound eth E) as (s1 & s2 & s3 & pn' & ct & tag & et & l3 & E3 & Epn & _ & Hb & _ & Hau & Hl & Hw & ->).
  rewrite Hpn in Epn. injection Epn as <-.
  exists et, l3. split; [by rewrite <- app_assoc|]. split; [done|].
  split; [by apply wf_bytes_app_iff in Hw as [_ Hw]|]. by exists s1, s2, s3, ct, tag.
Qed.

(** Every frame gets an answer, and one of the steps. *)
Lemma handle_data_uplink_steps frame ap out :
  ap_ok ap -> dot11_ok frame ->
  exists ap' out', handle_data_uplink frame ap out = Val (ap', out') /\
    uplink_step frame ap out ap' out'.
Proof.
  intros H Hd.
  assert (Hdrop : exists ap' out', Val (ap, out) = Val (ap', out') /\ uplink_step frame ap out ap' out')
    by (do 2 eexists; split; [done|constructor]).
  assert (Hw : wf_bytes (body frame)) by apply Hd.
  unfold handle_data_uplink. destruct (beq (addr1 frame) (ap_mac ap)) eqn:E1; [|done].
  apply beq_true in E1. cbn [negb]. destruct (is_amsdu frame) eqn:Ea; [done|].
  destruct (is_fragment frame) eqn:Ef; [done|]. cbn [orb].
  destruct (ccmp_key_id_total frame Hw) as (kid & Ek & _). rewrite Ek. cbn [rbind].
  destruct (Z.eqb_spec kid 0) as [->|]; [|done]. cbn [negb].
  destruct (ap_stations ap !! addr2 frame) as [s|] eqn:Es;
    [|do 2 eexists; split; [done|by apply up_unknown]].
  destruct (st_associated s) eqn:Eas; [|done]. cbn [negb].
  pose proof (ap_ok_station _ _ _ H Es) as Hs.
  destruct (ccmp_pn_total frame Hw) as ([pn|] & Epn & Hrange); rewrite Epn; cbn [rbind]; [|done].
  assert (Hi : (replay_index frame < length (st_last_rx_pn s))%nat)
    by (rewrite (so_rx_len s Hs); by apply replay_index_bound).
  destruct (lookup_lt_is_Some_2 _ _ Hi) as [w Hwin]. unfold idx. rewrite Hwin. cbn [rbind].
  destruct (Z.leb_spec pn w); [done|].
  assert (Hpn : pn_ok pn) by (pose proof (proj2 Hrange pn eq_refl); unfold pn_ok, MAX_PACKET_NUMBER; lia).
  assert (Hfresh : uplink_fresh frame ap s pn)
    by (do 7 (split; [done|]); exists w; split; [done|]; split; [lia|apply Hpn]).
  rewrite slice_prefix by (rewrite (proj1 (so_pairwise_tk s Hs)); apply key_len_le). cbn [rbind].
  destruct (uplink_decrypts frame ap s pn H Hd Hfresh) as ([eth|] & -> & Hau); cbn [rbind];
    [|do 2 eexists; split; [done|by eapply up_failed]].
  destruct (Hau eth eq_refl) as (et & l3 & -> & Het & Hwf & Hauth).
  destruct Hd as (_ & _ & _ & [Ha2 _] & [Ha3 _] & _).
  replace (sub (addr3 frame ++ addr2 frame ++ et ++ l3) 6 12) with (addr2 frame) by (symmetry; apply sub_exact; lia).
  replace (sub (addr3 frame ++ addr2 frame ++ et ++ l3) 0 6) with (addr3 frame) by (symmetry; apply (sub_exact []); simpl; lia).
  rewrite (proj2 (Nat.leb_le _ _)) by (rewrite !length_app; lia). rewrite beq_refl. cbn [andb].
  fold (advance_window (replay_index frame) pn). rewrite is_associated_upd.
  pose proof (up_accepted frame ap out s pn et l3 _ Hfresh Het Hwf Hauth eq_refl) as Hstep.
  change (ap_guest (upd_station _ _ ap)) with (ap_guest ap).
  destruct (ap_guest ap && is_associated ap (addr3 frame)); do 2 eexists; by split.
Qed.

(** ** Consequences *)

Lemma uplink_step_ok frame ap out ap' out' :
  ap_ok ap -> uplink_step frame ap out ap' out' -> ap_ok ap'.
Proof.
  intros H St. inversion St as [| |s pn|s pn et l3 iso Hf]; subst; try done; [by apply record_failure_ok|].
  apply ap_ok_upd; [done|]. intros x _ Hx. apply advance_window_ok; [done|].
  destruct Hf as (_ & _ & _ & _ & Es & _ & _ & w & Hw & Hlt).
  pose proof (proj1 (Forall_lookup _ _) (so_rx_pn s (ap_ok_station _ _ _ H Es)) _ _ Hw) as Hwp.
  unfold pn_ok in *. lia.
Qed.

(** The station [sta] is associated and its window [i] has reached [pn]. *)
Definition window_past (sta : bytes) (i : nat) (pn : Z) (ap : Ap) : Prop :=
  exists s w, ap_stations ap !! sta = Some s /\ st_associated s = true /\
    st_last_rx_pn s !! i = Some w /\ pn <= w.

Lemma uplink_step_window frame ap out ap' out' sta i pn :
  uplink_step frame ap out ap' out' -> window_past sta i pn ap -> window_past sta i pn ap'.
Proof.
  intros St (s & w & Es & Ea & Hw & Hle). inversion St as [| |? ?|s0 pn0 et l3 iso Hf]; subst;
    try (by exists s, w).
  - exists s, w. by rewrite record_failure_stations.
  - destruct Hf as (_ & _ & _ & _ & Es0 & _ & _ & w0 & Hw0 & Hlt).
    unfold window_past. rewrite upd_station_lookup. destruct (decide (sta = addr2 frame)) as [->|Hne].
    + rewrite Es0 in Es. injection Es as <-. rewrite Es0. unfold advance_window.
      destruct (decide (i = replay_index frame)) as [->|Hi].
      * exists (advance_window (replay_index frame) pn0 s0), pn0. split; [done|].
        unfold advance_window. fields. split; [done|].
        rewrite list_lookup_insert_eq by (by eapply lookup_lt_Some).
        split; [done|]. rewrite Hw in Hw0. injection Hw0 as ->. lia.
      * exists (advance_window (replay_index frame) pn0 s0), w. split; [done|].
        unfold advance_window. fields. split; [done|]. by rewrite list_lookup_insert_ne.
    + by exists s, w.
Qed.

(** A packet number at or below the window is dropped without a trace. *)
Lemma uplink_replay_dropped frame ap out pn :
  dot11_ok frame -> ccmp_pn frame = Val (Some pn) ->
  window_past (addr2 frame) (replay_index frame) pn ap ->
  handle_data_uplink frame ap out = Val (ap, out).
Proof.
  intros Hd Hpn (s & w & Es & Ea & Hw & Hle). unfold handle_data_uplink.
  do 2 (case_match; [done|]). destruct (ccmp_key_id_total frame (ltac:(apply Hd))) as (k & -> & _).
  cbn [rbind]. case_match; [done|]. rewrite Es, Ea, Hpn. cbn [negb rbind].
  unfold idx. rewrite Hw. cbn [rbind]. by rewrite (proj2 (Z.leb_le _ _)) by lia.
Qed.

(** Processing a sequence of uplink frames. *)
Definition uplink_all (st : Ap * Outgoing) (frames : list Dot11) : res (Ap * Outgoing) :=
  rfold (fun st frame => handle_data_uplink frame st.1 st.2) st frames.

Lemma uplink_all_invariant frames ap out ap' out' sta i pn :
  Forall dot11_ok frames -> ap_ok ap -> uplink_all (ap, out) frames = Val (ap', out') ->
  ap_ok ap' /\ (window_past sta i pn ap -> window_past sta i pn ap').
Proof.
  intros Hf. revert ap out. induction Hf as [|d ds Hd _ IH]; intros ap out H Hrun.
  { injection Hrun as -> ->. done. }
  unfold uplink_all in *. cbn [rfold fst snd] in Hrun.
  destruct (handle_data_uplink_steps d ap out H Hd) as (ap1 & out1 & E & St). rewrite E in Hrun.
  cbn [rbind] in Hrun. destruct (IH ap1 out1 (uplink_step_ok _ _ _ _ _ H St) Hrun) as [A B].
  split; [done|]. intros Hwin. apply B. by eapply uplink_step_window.
Qed.

End Uplink.

(** * What the downlink does *)

Section Downlink.
Context {P : Primitives} {Pok : PrimitivesOk P}.

Lemma wmm_tid_total eth : wf_bytes eth -> exists t, wmm_tid eth = Val t /\ 0 <= t < 8.
Proof.
  intros Hw. unfold wmm_tid. destruct (Nat.ltb_spec (length eth) 16); [by exists 0|].
  rust_steps. pose proof (wf_bytes_nth eth 15 Hw) as H15. pose proof (wf_bytes_nth eth 14 Hw) as H14.
  unfold is_byte in *. rewrite !Z.shiftr_div_pow2 by lia.
  case_match; [eexists; split; [done|]; change (2 ^ 5) with 32; split;
    [apply Z.div_pos|apply Z.div_lt_upper_bound]; lia|].
  case_match; [|by exists 0]. rust_steps. eexists; split; [done|].
  assert (0 <= Z.lor (u8 (Z.shiftl (Z.land (nth 14 eth 0) 15) 4)) (nth 15 eth 0 / 2 ^ 4) < 2 ^ 8).
  { apply (lor_range 8); [lia|unfold u8; apply Z.mod_pos_bound; lia|].
    change (2 ^ 4) with 16. change (2 ^ 8) with 256. split; [apply Z.div_pos|apply Z.div_lt_upper_bound]; lia. }
  split; [apply Z.div_pos|apply Z.div_lt_upper_bound]; lia.
Qed.

(** What a chosen key guarantees: every parameter the frame builder needs. *)
Record tx_key_ok (k : TxKey) : Prop := {
  tk_key : (key_len (tx_cipher k) <= length (tx_tk k))%nat /\ wf_bytes (tx_tk k);
  tk_pn : 1 <= tx_pn k <= MAX_PACKET_NUMBER;
  tk_tid : tid_ok (tx_tid k);
  tk_sec : sec_addrs_ok (tx_sec k)
}.

Lemma next_client_pn_spec s :
  next_client_pn s =
    if decide (st_client_pn s <= MAX_PACKET_NUMBER)
    then Some (st_client_pn s, s <| st_client_pn := st_client_pn s + 1 |>) else None.
Proof.
  unfold next_client_pn. destruct (Z.ltb_spec MAX_PACKET_NUMBER (st_client_pn s)); case_decide; try done; lia.
Qed.

Lemma next_client_pn_ok s : station_ok s -> st_client_pn s <= MAX_PACKET_NUMBER ->
  station_ok (s <| st_client_pn := st_client_pn s + 1 |>).
Proof.
  intros H Hp. assert (1 <= st_client_pn s + 1 <= MAX_PACKET_NUMBER + 1) by (pose proof (so_client_pn s H); lia).
  keep_station_ok H.
Qed.

Lemma mld_data_tx_sec_addrs_ok ap sta src :
  ap_ok ap -> arr 6 src -> sec_addrs_ok (mld_data_tx_sec_addrs ap sta src).
Proof.
  intros H H3. unfold mld_data_tx_sec_addrs, station_mld, sec_addrs_ok.
  destruct (ap_mld ap); [|done]. destruct (ap_stations ap !! sta) as [s|] eqn:Es; [|done]. cbn [mbind option_bind].
  pose proof (so_mld s (ap_ok_station _ _ _ H Es)) as Hm.
  destruct (st_client_mld_mac s); [|done]. cbn [option_map opt_ok] in *.
  split; [done|split; [apply H|]]. case_match; [apply H|done].
Qed.

(** The key of a group frame, and the packet number it consumes. *)
Lemma group_tx_key_spec ap :
  ap_ok ap ->
  match group_tx_key ap with
  | None => ap_group_pn ap = MAX_PACKET_NUMBER + 1
  | Some (k, ap') =>
      tx_key_ok k /\ ap_ok ap' /\ tx_pn k = ap_group_pn ap /\
      tx_key_id k = ap_gtk_key_id ap /\ tx_cipher k = Ccmp128 /\ take 16 (tx_tk k) = ap_gtk ap /\
      tx_sec k = None /\ ap' = ap <| ap_group_pn := ap_group_pn ap + 1 |>
  end.
Proof.
  intros H. unfold group_tx_key, next_group_pn. pose proof (ao_group_pn ap H) as Hpn.
  destruct (ao_gtk ap H) as [Hl Hw].
  destruct (Z.ltb_spec MAX_PACKET_NUMBER (ap_group_pn ap)); [lia|].
  assert (Hpn' : 1 <= ap_group_pn ap + 1 <= MAX_PACKET_NUMBER + 1) by lia.
  split; [|split; [keep_ap_ok H|]].
  - constructor; cbn; [|lia|done|done]. fields.
    split; [rewrite length_app, length_take; simpl; lia|].
    apply wf_bytes_app; [by apply wf_bytes_take|by apply (bool_decide_unpack _)].
  - cbn. fields. do 3 (split; [done|]). split; [|done].
    rewrite take_app_le by (rewrite length_take; lia). rewrite take_take. by apply take_ge; lia.
Qed.

(** The key of a frame for one station, and the packet number it consumes. *)
Lemma pairwise_tx_key_spec eth dst src ap s :
  ap_ok ap -> wf_bytes eth -> arr 6 src -> ap_stations ap !! dst = Some s ->
  if st_associated s && (st_client_pn s <=? MAX_PACKET_NUMBER) then
    exists k ap', pairwise_tx_key eth dst src ap = Val (Some (k, ap')) /\ tx_key_ok k /\ ap_ok ap' /\
      tx_pn k = st_client_pn s /\ tx_key_id k = 0 /\ tx_cipher k = st_pairwise_cipher s /\
      tx_tk k = st_pairwise_tk s /\ tx_sec k = mld_data_tx_sec_addrs ap dst src /\
      ap' = ap <| ap_stations := <[dst := s <| st_client_pn := st_client_pn s + 1 |>]> (ap_stations ap) |>
  else pairwise_tx_key eth dst src ap = Val None.
Proof.
  intros H He Hsrc Es. pose proof (ap_ok_station _ _ _ H Es) as Hs.
  unfold pairwise_tx_key. rewrite Es, next_client_pn_spec.
  destruct (st_associated s); cbn [negb andb]; [|done].
  destruct (Z.leb_spec (st_client_pn s) MAX_PACKET_NUMBER); case_decide; try lia; [|done].
  set (s' := s <| st_client_pn := st_client_pn s + 1 |>).
  set (ap' := ap <| ap_stations := <[dst := s']> (ap_stations ap) |>).
  assert (Hap' : ap_ok ap').
  { apply ap_ok_stations; [done|]. apply map_Forall_insert_2; [|apply H].
    split; [by apply (ao_stations ap H dst s)|by apply next_client_pn_ok]. }
  assert (Hsec : mld_data_tx_sec_addrs ap' dst src = mld_data_tx_sec_addrs ap dst src).
  { unfold mld_data_tx_sec_addrs, station_mld, ap', s'. fields. rewrite lookup_insert_eq, Es. cbn.
    by fields. }
  assert (Ht : exists t, (if st_wmm s then rmap Some (wmm_tid eth) else Val None) = Val t /\ tid_ok t).
  { destruct (st_wmm s); [|by exists None]. destruct (wmm_tid_total eth He) as (t & -> & Ht).
    exists (Some t). split; [done|]. cbn. lia. }
  destruct Ht as (t & -> & Ht). cbn [rbind]. rewrite Hsec. do 2 eexists. split; [done|].
  split; [|done]. constructor; cbn.
  - destruct (so_pairwise_tk s Hs) as [-> ?]. split; [apply key_len_le|done].
  - pose proof (so_client_pn s Hs). lia.
  - done.
  - by apply mld_data_tx_sec_addrs_ok.
Qed.

(** Whatever key was chosen, the frame that leaves is one the holder of that
    key opens to the Ethernet frame that went in. *)
Lemma deliver_to_station_sent dst src et l3 ap k ap1 :
  let eth := dst ++ src ++ et ++ l3 in
  ap_ok ap -> arr 6 dst -> arr 6 src -> arr 2 et -> wf_bytes l3 -> Z.of_nat (length l3) < 2 ^ 16 ->
  ap_guest ap && is_associated ap src = false ->
  tx_key_for eth ap = Val (Some (k, ap1)) -> tx_key_ok k -> ap_mac ap1 = ap_mac ap ->
  exists f d,
    deliver_to_station eth ap = Val ([RADIOTAP_TX ++ f], (next_sc ap1).2) /\
    parse f = Val (Some d) /\ frame_type d = TYPE_DATA /\ from_ds d = true /\ protected d = true /\
    addr1 d = dst /\ addr2 d = ap_mac ap /\ addr3 d = src /\
    sealed_under (tx_cipher k) d (take (key_len (tx_cipher k)) (tx_tk k)) (tx_sec k) (tx_pn k) (tx_key_id k)
      (llc_snap (be_val et) ++ l3) /\
    ccmp_pn d = Val (Some (pn_read_back (tx_pn k))) /\
    (pn_read_back (tx_pn k) = tx_pn k ->
     decrypt_protected_data_sec (tx_cipher k) d (take (key_len (tx_cipher k)) (tx_tk k)) true (tx_sec k)
       = Val (Some eth)).
Proof.
  intros eth H [Hdl Hdw] [Hsl Hsw] [Hel Hew] Hl3 Hlen Hiso Hkey Hk Hmac.
  destruct (tk_key k Hk) as [Hkl Hkw].
  destruct (default (dst, ap_mac ap, src) (tx_sec k)) as [[s1 s2] s3] eqn:Esec.
  assert (Hs3 : arr 6 s1 /\ arr 6 s2 /\ arr 6 s3).
  { pose proof (tk_sec k Hk) as Hs. unfold sec_addrs_ok in Hs.
    destruct (tx_sec k) as [[[x1 x2] x3]|]; cbn in Esec; injection Esec as <- <- <-; [done|].
    by repeat split; try apply H. }
  destruct Hs3 as (Hs1 & Hs2 & Hs3).
  destruct (protected_data_roundtrip (tx_cipher k) dst (ap_mac ap) src s1 s2 s3 (tx_sec k)
    (Z.lor FC_FROMDS FC_PROTECTED) (next_sc ap1).1 (tx_pn k) (tx_key_id k)
    (take (key_len (tx_cipher k)) (tx_tk k)) (be_val et) l3 (tx_tid k))
    as (f & d & Hf & Hparse & Hty & Hfc & H1 & H2 & H3 & _ & _ & _ & Hseal & Hccmp & Hdec); try done;
    [by apply H|apply next_sc_range|split; [rewrite length_take; lia|by apply wf_bytes_take]|apply Hk|].
  exists f, d. split.
  - unfold deliver_to_station, eth.
    rewrite (proj2 (Nat.ltb_ge _ _)) by (rewrite !length_app; lia).
    replace (sub (dst ++ src ++ et ++ l3) 0 6) with dst by (symmetry; apply (sub_exact []); simpl; lia).
    replace (sub (dst ++ src ++ et ++ l3) 6 12) with src by (symmetry; apply sub_exact; lia).
    replace (sub (dst ++ src ++ et ++ l3) 12 14) with et
      by (symmetry; rewrite app_assoc; apply sub_exact; rewrite ?length_app; lia).
    replace (drop 14 (dst ++ src ++ et ++ l3)) with l3
      by (rewrite !app_assoc, drop_app_length'; [done|rewrite !length_app; lia]).
    rewrite Hiso. unfold eth in Hkey. rewrite Hkey. cbn [rbind].
    rewrite (surjective_pairing (next_sc ap1)).
    assert (Hm : ap_mac (next_sc ap1).2 = ap_mac ap) by (unfold next_sc; cbn; fields; done).
    rewrite !Hm, Esec. rewrite slice_prefix by done. cbn [rbind]. rewrite Hf. done.
  - split; [done|]. split; [done|]. unfold from_ds, protected. rewrite Hfc.
    do 5 (split; [done|]). split; [done|]. split; [done|]. intros Hpn. rewrite (Hdec Hpn), be_bytes_arr by done.
    by rewrite <- !app_assoc.
Qed.

(** Unicast delivery, on every branch. *)
Lemma unicast_key dst src et l3 ap s :
  let eth := dst ++ src ++ et ++ l3 in
  ap_ok ap -> arr 6 dst -> arr 6 src -> wf_bytes (et ++ l3) ->
  is_multicast dst = false -> ap_stations ap !! dst = Some s ->
  tx_key_for eth ap = pairwise_tx_key eth dst src ap /\ wf_bytes eth.
Proof.
  intros eth H [Hdl Hdw] [Hsl Hsw] Hw Hm Hs. split; [|unfold eth; apply wf_bytes_app; [done|by apply wf_bytes_app]].
  unfold tx_key_for, eth.
  replace (sub (dst ++ src ++ et ++ l3) 0 6) with dst by (symmetry; apply (sub_exact []); simpl; lia).
  replace (sub (dst ++ src ++ et ++ l3) 6 12) with src by (symmetry; apply sub_exact; lia).
  rewrite Hm. destruct (is_broadcast dst) eqn:Hb; [|done].
  unfold is_broadcast in Hb. apply beq_true in Hb. subst dst. discriminate Hm.
Qed.

(** C20: Delivery to a station. A unicast Ethernet frame for an associated station
    is sent exactly once, under the station's own temporal key and the next packet
    number, which is consumed: the frame's header carries that number, and what
    follows opens under it to the payload, in every suite, QoS marking and
    multi-link addressing. A station that runs this repository's receiver then
    recovers the Ethernet frame octet for octet whenever that receiver reads the
    packet number as it was sent (C36 says when). When the packet numbers are used
    up nothing is sent and nothing changes, so that none is used twice; nor is
    anything sent for another associated station when the network isolates its
    guests. *)
Theorem downlink_unicast dst src et l3 ap s :
  let eth := dst ++ src ++ et ++ l3 in
  let tk := take (key_len (st_pairwise_cipher s)) (st_pairwise_tk s) in
  let sec := mld_data_tx_sec_addrs ap dst src in
  ap_ok ap -> arr 6 dst -> arr 6 src -> arr 2 et -> wf_bytes l3 -> Z.of_nat (length l3) < 2 ^ 16 ->
  is_multicast dst = false -> ap_stations ap !! dst = Some s -> st_associated s = true ->
  if ap_guest ap && is_associated ap src then deliver_to_station eth ap = Val ([], ap)
  else if st_client_pn s <=? MAX_PACKET_NUMBER then
    exists f d ap',
      deliver_to_station eth ap = Val ([RADIOTAP_TX ++ f], ap') /\
      ap_ok ap' /\
      ap_stations ap' = <[dst := s <| st_client_pn := st_client_pn s + 1 |>]> (ap_stations ap) /\
      ap_group_pn ap' = ap_group_pn ap /\
      parse f = Val (Some d) /\ addr1 d = dst /\ addr2 d = ap_mac ap /\ addr3 d = src /\
      from_ds d = true /\ protected d = true /\
      sealed_under (st_pairwise_cipher s) d tk sec (st_client_pn s) 0 (llc_snap (be_val et) ++ l3) /\
      (pn_read_back (st_client_pn s) = st_client_pn s ->
       ccmp_pn d = Val (Some (st_client_pn s)) /\
       decrypt_protected_data_sec (st_pairwise_cipher s) d tk true sec = Val (Some eth))
  else deliver_to_station eth ap = Val ([], ap).
Proof.
  intros eth tk sec H Hd Hs He Hl3 Hlen Hm Es Has.
  assert (Hw : wf_bytes (et ++ l3)) by (apply wf_bytes_app; [apply He|done]).
  destruct (unicast_key dst src et l3 ap s H Hd Hs Hw Hm Es) as [Hkey Heth].
  pose proof (pairwise_tx_key_spec eth dst src ap s H Heth Hs Es) as Hspec. rewrite Has in Hspec.
  assert (Hsrc : sub eth 6 12 = src) by (unfold eth; destruct Hd, Hs; apply sub_exact; lia).
  cbn [andb] in Hspec. destruct (ap_guest ap && is_associated ap src) eqn:Hiso.
  { unfold deliver_to_station. rewrite Hsrc, Hiso. by destruct (length eth <? 14)%nat. }
  destruct (st_client_pn s <=? MAX_PACKET_NUMBER).
  - destruct Hspec as (k & ap1 & Hk & Hok & Hap1 & Epn & Eid & Ec & Etk & Esec & E1).
    fold eth in Hkey. rewrite Hk in Hkey.
    destruct (deliver_to_station_sent dst src et l3 ap k ap1 H Hd Hs He Hl3 Hlen Hiso Hkey Hok)
      as (f & d & Hf & Hp & _ & Hfrom & Hprot & A1 & A2 & A3 & Hseal & Hpn & Hdec).
    { by rewrite E1. }
    rewrite Epn, Eid, Ec, Etk, Esec in Hseal. rewrite Epn, Ec, Etk, Esec in Hdec. rewrite Epn in Hpn.
    exists f, d, (next_sc ap1).2.
    split; [done|]. split; [by apply next_sc_ok|]. split; [by rewrite E1|].
    split; [by rewrite E1|]. do 6 (split; [done|]). split; [exact Hseal|]. intros Hrb. rewrite Hrb in Hpn.
    split; [done|]. by apply Hdec.
  - unfold deliver_to_station. rewrite Hsrc, Hiso. fold eth in Hkey. rewrite Hkey, Hspec. by destruct (length eth <? 14)%nat.
Qed.

(** Group delivery: the frame opens under the GTK that is advertised, and the
    group packet number moves by one. *)
Lemma downlink_group dst src et l3 ap :
  let eth := dst ++ src ++ et ++ l3 in
  ap_ok ap -> arr 6 dst -> arr 6 src -> arr 2 et -> wf_bytes l3 -> Z.of_nat (length l3) < 2 ^ 16 ->
  is_multicast dst = true -> ap_guest ap && is_associated ap src = false ->
  if ap_group_pn ap <=? MAX_PACKET_NUMBER then
    exists f d ap',
      deliver_to_station eth ap = Val ([RADIOTAP_TX ++ f], ap') /\ ap_ok ap' /\
      ap_stations ap' = ap_stations ap /\ ap_group_pn ap' = ap_group_pn ap + 1 /\
      parse f = Val (Some d) /\ addr1 d = dst /\
      sealed_under Ccmp128 d (ap_gtk ap) None (ap_group_pn ap) (ap_gtk_key_id ap) (llc_snap (be_val et) ++ l3) /\
      (pn_read_back (ap_group_pn ap) = ap_group_pn ap ->
       ccmp_pn d = Val (Some (ap_group_pn ap)) /\
       decrypt_protected_data_sec Ccmp128 d (ap_gtk ap) true None = Val (Some eth))
  else deliver_to_station eth ap = Val ([], ap).
Proof.
  intros eth H Hd Hs He Hl3 Hlen Hm Hiso.
  assert (Hkey : tx_key_for eth ap = Val (group_tx_key ap)).
  { unfold tx_key_for, eth. destruct Hd, Hs.
    replace (sub (dst ++ src ++ et ++ l3) 0 6) with dst by (symmetry; apply (sub_exact []); simpl; lia).
    by rewrite Hm. }
  pose proof (group_tx_key_spec ap H) as Hspec. destruct (group_tx_key ap) as [[k ap1]|] eqn:Eg.
  - destruct Hspec as (Hok & Hap1 & Epn & Eid & Ec & Etk & Esec & E1).
    destruct (deliver_to_station_sent dst src et l3 ap k ap1 H Hd Hs He Hl3 Hlen Hiso Hkey Hok)
      as (f & d & Hf & Hp & _ & _ & _ & A1 & _ & _ & Hseal & Hpn & Hdec).
    { by rewrite E1. }
    pose proof (tk_pn k Hok). rewrite Epn in *. rewrite (proj2 (Z.leb_le _ _)) by lia.
    exists f, d, (next_sc ap1).2. rewrite Ec, Esec in Hdec, Hseal. rewrite Eid in Hseal.
    change (key_len Ccmp128) with 16%nat in Hdec, Hseal. rewrite Etk in Hdec, Hseal.
    split; [done|]. split; [by apply next_sc_ok|]. split; [by rewrite E1|]. split; [by rewrite E1|].
    split; [done|]. split; [done|]. split; [done|]. intros Hrb. rewrite Hrb in Hpn. auto.
  - rewrite Hspec, (proj2 (Z.leb_gt _ _)) by lia. unfold deliver_to_station.
    destruct (length eth <? 14)%nat; [done|].
    replace (sub eth 6 12) with src by (symmetry; unfold eth; destruct Hd, Hs; apply sub_exact; lia).
    rewrite Hiso, Hkey. done.
Qed.

End Downlink.

(** * Claims *)

Section Claims.
Context {P : Primitives} {Pok : PrimitivesOk P}.

(** C18: Uplink data. On every well-formed frame the handler returns and does one
    of four things: drop it, answer an unknown station with a deauthentication
    (reason 7), record a decryption failure, or accept. It accepts only a frame
    of an associated station, for this BSSID, unaggregated and unfragmented, under
    the pairwise key id, whose packet number exceeds the window of its TID and
    whose payload is authentic under that station's installed key; then exactly
    that window moves to that packet number, and what goes to the network is the
    decrypted payload behind the header's destination and the station's own
    address (nothing, when client isolation forbids it). *)
Theorem uplink_implements frame ap out :
  ap_ok ap -> dot11_ok frame ->
  exists ap' out', handle_data_uplink frame ap out = Val (ap', out') /\
    uplink_step frame ap out ap' out' /\ ap_ok ap'.
Proof.
  intros H Hd. destruct (handle_data_uplink_steps frame ap out H Hd) as (ap' & out' & E & St).
  exists ap', out'. split; [done|]. split; [done|]. by eapply uplink_step_ok.
Qed.

(** C19: No uplink replay. Once a frame has been delivered to the network, no
    later frame of the same station and TID with the same or a smaller packet
    number has any effect, whatever other uplink data frames (of any stations,
    authentic or not) the handler has processed in between. What else may happen
    between them is not part of this: a handshake that installs another key
    starts the windows anew (C4 says when they are kept), and a station that has
    gone has no windows. *)
Theorem uplink_no_replay d d' ds ap out ap1 out1 ap2 out2 pn pn' :
  ap_ok ap -> dot11_ok d -> Forall dot11_ok ds -> dot11_ok d' ->
  handle_data_uplink d ap out = Val (ap1, out1) -> out_to_network out1 <> out_to_network out ->
  uplink_all (ap1, out1) ds = Val (ap2, out2) ->
  addr2 d' = addr2 d -> replay_index d' = replay_index d ->
  ccmp_pn d = Val (Some pn) -> ccmp_pn d' = Val (Some pn') -> pn' <= pn ->
  handle_data_uplink d' ap2 out2 = Val (ap2, out2).
Proof.
  intros H Hd Hds Hd' Eh Hnet Hall Ha Hi Hpn Hpn' Hle.
  destruct (handle_data_uplink_steps d ap out H Hd) as (a & o & E & St).
  rewrite Eh in E. injection E as <- <-.
  assert (Hwin : window_past (addr2 d) (replay_index d) pn ap1).
  { inversion St as [| | |s pn0 et l3 iso Hf]; subst; try done. clear St.
    destruct Hf as (_ & _ & _ & _ & Es & Ea & Epn & w & Hw & _). rewrite Hpn in Epn. injection Epn as <-.
    unfold window_past. rewrite upd_station_lookup, decide_True, Es by done.
    exists (advance_window (replay_index d) pn s), pn. split; [done|]. unfold advance_window. fields.
    split; [done|]. rewrite list_lookup_insert_eq by (by eapply lookup_lt_Some). split; [done|lia]. }
  destruct (uplink_all_invariant ds ap1 out1 ap2 out2 (addr2 d) (replay_index d) pn Hds
    (uplink_step_ok _ _ _ _ _ H St) Hall) as [_ Hinv].
  apply (uplink_replay_dropped d' ap2 out2 pn' Hd' Hpn').
  rewrite Ha, Hi. destruct (Hinv Hwin) as (s & w & A & B & C & D). exists s, w. do 3 (split; [done|]). lia.
Qed.

End Claims.

(** ** Witnesses *)

Definition demo_packet : bytes := [0x08; 0x00; 0x45; 0xb8; 0x00; 0x04].
Definition demo_uplink : Dot11 := Eval vm_compute in
  received_frame (build_ccmp_data demo_mac demo_sta demo_other (Z.lor FC_TODS FC_PROTECTED) 16 5 0
    (take 16 (st_pairwise_tk demo_associated)) 0x0800 (drop 2 demo_packet) None).
Definition demo_connected : Ap := Eval vm_compute in with_station demo_associated.
Definition demo_after_uplink : Ap * Outgoing := Eval vm_compute in
  returned (handle_data_uplink demo_uplink demo_connected no_output).

Lemma demo_connected_ok : ap_ok demo_connected.
Proof. change demo_connected with (with_station demo_associated). apply with_station_ok, demo_associated_ok. Qed.

Ltac dot11_ok_by_compute :=
  do 2 (split; [split; [discriminate|reflexivity]|]);
  do 3 (split; [by apply (bool_decide_unpack _)|]);
  split; [split; [discriminate|reflexivity]|]; split; [by apply (bool_decide_unpack _)|reflexivity].

Lemma demo_uplink_ok : dot11_ok demo_uplink.
Proof. dot11_ok_by_compute. Qed.

(** The packet arrives with the station's address as its source. *)
Example demo_uplink_delivered :
  out_to_network demo_after_uplink.2 = [demo_other ++ demo_sta ++ demo_packet].
Proof. reflexivity. Qed.

Lemma uplink_implements_witness :
  exists ap' out', handle_data_uplink demo_uplink demo_connected no_output = Val (ap', out') /\
    uplink_step demo_uplink demo_connected no_output ap' out' /\ ap_ok ap'.
Proof. apply (uplink_implements demo_uplink demo_connected no_output demo_connected_ok demo_uplink_ok). Defined.

Lemma uplink_no_replay_witness :
  handle_data_uplink demo_uplink demo_after_uplink.1 demo_after_uplink.2
    = Val (demo_after_uplink.1, demo_after_uplink.2).
Proof.
  apply (uplink_no_replay demo_uplink demo_uplink [] demo_connected no_output demo_after_uplink.1
    demo_after_uplink.2 demo_after_uplink.1 demo_after_uplink.2 5 5);
    [exact demo_connected_ok|exact demo_uplink_ok|constructor|exact demo_uplink_ok
    |vm_compute; reflexivity|discriminate|reflexivity|reflexivity|reflexivity
    |vm_compute; reflexivity|vm_compute; reflexivity|discriminate].
Defined.

Lemma downlink_unicast_witness :
  let sec := mld_data_tx_sec_addrs demo_connected demo_sta demo_other in
  let tk := take (key_len (st_pairwise_cipher demo_associated)) (st_pairwise_tk demo_associated) in
  let eth := demo_sta ++ demo_other ++ [8; 0] ++ drop 2 demo_packet in
  exists f d ap', deliver_to_station eth demo_connected = Val ([RADIOTAP_TX ++ f], ap') /\ parse f = Val (Some d) /\
    sealed_under (st_pairwise_cipher demo_associated) d tk sec (st_client_pn demo_associated) 0 (llc_snap (be_val [8; 0]) ++ drop 2 demo_packet) /\
    ccmp_pn d = Val (Some (st_client_pn demo_associated)) /\
    decrypt_protected_data_sec (st_pairwise_cipher demo_associated) d tk true sec = Val (Some eth).
Proof.
  intros sec tk eth.
  destruct (downlink_unicast demo_sta demo_other [8; 0] (drop 2 demo_packet) demo_connected demo_associated)
    as (f & d & ap' & H1 & _ & _ & _ & H2 & _ & _ & _ & _ & _ & H3 & H4);
    [exact demo_connected_ok|by apply (bool_decide_unpack _)..|reflexivity|reflexivity|reflexivity
    |reflexivity|].
  exists f, d, ap'. split; [exact H1|]. split; [exact H2|]. split; [exact H3|]. apply H4. reflexivity.
Defined.
