(* ===== verification/ApMgmt.v ===== *)
(** Protected management frames of the access point: src/ap/management.rs,
    src/ap/roaming.rs, and the administrative removals of src/ap/lifecycle.rs and
    src/ap/group_keys.rs. *)
From S2P Require Import Prelude Elements Crypto Security Frames Channels DataProt Kde Rsn Eapol Sae Failures Roaming Ap ApConfig ApEapol Demo ApData.

(** Which component verified a protected management frame. *)
Inductive ManagementRx := Userspace | Kernel.
#[export] Instance management_rx_eq_dec : EqDecision ManagementRx.
Proof. solve_decision. Defined.

Section Management.
Context {P : Primitives}.

(** ** Protected transmission (roaming.rs) *)

(** [self.stations.get_mut(sta)?.next_client_pn()?] *)
Definition next_pairwise_pn (sta : bytes) (ap : Ap) : option (Z * Ap) :=
  s ← ap_stations ap !! sta;
  '(pn, s') ← next_client_pn s;
  Some (pn, ap <| ap_stations := <[sta := s']> (ap_stations ap) |>).

(** The shape shared by the protected management transmissions: the installed
    key, one packet number, one sequence number. *)
Definition protected_tx (sta : bytes)
    (build : DataCipher -> Z -> Z -> bytes -> option addrs -> res bytes) (ap : Ap) :
    res (option bytes * Ap) :=
  match installed_pairwise_key ap sta with
  | None => Val (None, ap)
  | Some tk =>
      let cipher := station_pairwise_cipher ap sta in
      match next_pairwise_pn sta ap with
      | None => Val (None, ap)
      | Some (pn, ap) =>
          let (sc, ap) := next_sc ap in
          let sec := mld_mgmt_tx_sec_addrs ap sta in
          let! tk := slice tk 0 (key_len cipher) in
          let! frame := build cipher sc pn tk sec in
          Val (Some frame, ap)
      end
  end.

Definition prepended (r : option bytes * Ap) : option bytes * Ap :=
  (option_map prepend_radiotap r.1, r.2).

Definition btm_request (sta : bytes) (disassoc_imminent : bool) (disassoc_timer : Z) (ap : Ap) :
    res (option bytes * Ap) :=
  rmap prepended (protected_tx sta (fun cipher sc pn tk sec =>
    build_protected_btm_request_for_cipher_sec cipher (ap_mac ap) sta 1 disassoc_imminent
      disassoc_timer sc pn tk sec) ap).

Definition neighbor_report (sta : bytes) (ap : Ap) : res (option bytes * Ap) :=
  let op_class := if is_5ghz (ap_channel ap) then 115 else 81 in
  let neighbor := neighbor_report_element (ap_mac ap) op_class (ap_channel ap) in
  rmap prepended (protected_tx sta (fun cipher sc pn tk sec =>
    build_protected_neighbor_report_for_cipher_sec cipher (ap_mac ap) sta 1 neighbor sc pn tk sec) ap).

Definition protected_deauth (sta : bytes) (reason : Z) (ap : Ap) : res (option bytes * Ap) :=
  rmap prepended (protected_tx sta (fun cipher sc pn tk sec =>
    build_protected_deauth_for_cipher_sec cipher (ap_mac ap) sta reason sc pn tk sec) ap).

(** A deauthentication, protected when there is a key and a packet number. *)
Definition deauth_frame (sta : bytes) (reason : Z) (ap : Ap) : res (bytes * Ap) :=
  let! '(f, ap) := protected_deauth sta reason ap in
  Val (default (prepend_radiotap (build_deauth (ap_mac ap) sta reason)) f, ap).

Definition kick (mac : bytes) (ap : Ap) : res (option bytes * Ap) :=
  match ap_stations ap !! mac with
  | None => Val (None, ap)
  | Some _ =>
      let! '(frame, ap) := deauth_frame mac 3 ap in
      Val (Some frame, disconnect mac 3 ap)
  end.

(** [prune_idle]; [order] is the order in which the station map is traversed. *)
Definition stale_sae (now : Z) (ap : Ap) (sta : bytes) : bool :=
  match ap_stations ap !! sta with
  | Some s => negb (st_associated s) && negb (bool_decide (st_sae s = None)) &&
              (SAE_AUTH_TIMEOUT <=? duration_since now (st_last_activity s))
  | None => false
  end.

Definition idle (now max_idle : Z) (ap : Ap) (sta : bytes) : bool :=
  match ap_stations ap !! sta with
  | Some s => st_associated s && (max_idle <? duration_since now (st_last_activity s))
  | None => false
  end.

Definition prune_idle (now max_idle : Z) (order : list bytes) (ap : Ap) : res (list bytes * Ap) :=
  let ap := foldl (fun ap sta => disconnect sta 15 ap) ap (List.filter (stale_sae now ap) order) in
  let stations := List.filter (idle now max_idle ap) order in
  rfold (fun '(frames, ap) sta =>
    let! '(frame, ap) := deauth_frame sta 4 ap in
    Val (frames ++ [frame], disconnect sta 4 ap)) ([], ap) stations.

(** ** SA Query and robust management (management.rs) *)

Definition pmf_session_protected (ap : Ap) (sta : bytes) : bool :=
  match ap_stations ap !! sta with Some s => st_associated s && st_pmf s | None => false end.

(** The transaction identifier of a challenge: the outstanding one, or a new one. *)
Definition sa_query_trans (sta : bytes) (ap : Ap) : Z * Ap :=
  match ap_stations ap !! sta ≫= st_sa_query with
  | Some (trans, _) => (trans, ap)
  | None => let id := u16 (ap_sa_query_id ap + 1) in (id, ap <| ap_sa_query_id := id |>)
  end.

Definition sa_query_challenge (now : Z) (sta : bytes) (ap : Ap) (out : Outgoing) :
    res (Ap * Outgoing) :=
  match installed_pairwise_key ap sta with
  | None => Val (ap, out)
  | Some _ =>
      let (trans, ap) := sa_query_trans sta ap in
      let! '(frame, ap) := protected_tx sta (fun cipher sc pn tk sec =>
        build_protected_sa_query_for_cipher_sec cipher (ap_mac ap) sta false false trans sc pn tk sec) ap in
      match frame with
      | None => Val (ap, out)
      | Some frame =>
          let out := out_tx frame out in
          let ap := upd_station sta (fun s =>
            s <| st_sa_query := Some (default (trans, now) (st_sa_query s)) |>) ap in
          match ap_stations ap !! sta ≫= st_sa_query with
          | Some (_, started) => Val (schedule_maintenance (started + SA_QUERY_TIMEOUT) ap, out)
          | None => Val (ap, out)
          end
      end
  end.

(** The authenticated body of a robust management frame. *)
Definition protected_mgmt_body (frame : Dot11) (rx : ManagementRx) (ap : Ap) :
    res (option bytes * Ap) :=
  if negb (protected frame) then Val (None, ap)
  else
    let sta := addr2 frame in
    match installed_pairwise_key ap sta with
    | None => Val (None, ap)
    | Some tk =>
        if decide (rx = Kernel) then Val (Some (body frame), ap)
        else
          let! opn := ccmp_pn frame in
          match opn with
          | None => Val (None, ap)
          | Some pn =>
              match ap_stations ap !! sta with
              | None => Val (None, ap)
              | Some s =>
                  if pn <=? st_last_rx_mgmt_pn s then Val (None, ap)
                  else
                    let cipher := station_pairwise_cipher ap sta in
                    let! tk := slice tk 0 (key_len cipher) in
                    let! plain :=
                      decrypt_protected_mgmt_sec cipher frame tk (mld_mgmt_rx_sec_addrs ap sta) in
                    match plain with
                    | None => Val (None, record_failure sta ProtectedMgmt ap)
                    | Some plain =>
                        Val (Some plain, upd_station sta (fun s => s <| st_last_rx_mgmt_pn := pn |>) ap)
                    end
              end
          end
    end.

(** The reason code in front of a body. *)
Definition leading_reason (b : bytes) : Z :=
  match get_range b 0 2 with Some r => le_val r | None => 0 end.

Definition handle_robust_mgmt (frame : Dot11) (rx : ManagementRx) (ap : Ap) : res Ap :=
  let sta := addr2 frame in
  match ap_stations ap !! sta with
  | None => Val ap
  | Some s =>
      if negb (st_pmf s) then Val (disconnect sta (leading_reason (body frame)) ap)
      else
        let! '(plain, ap) := protected_mgmt_body frame rx ap in
        match plain with
        | None => Val ap
        | Some plain => Val (disconnect sta (leading_reason plain) ap)
        end
  end.

(** The station answered our query: the contested session is genuine. *)
Definition sa_query_answered (trans : Z) (s : Station) : Station :=
  match st_sa_query s with
  | Some (pending, _) => if pending =? trans then s <| st_sa_query := None |> else s
  | None => s
  end.

Definition handle_unprotected_action (frame : Dot11) (ap : Ap) (out : Outgoing) : res (Ap * Outgoing) :=
  let sta := addr2 frame in
  let! twt := parse_twt_setup (body frame) in
  match twt with
  | Some (dialog, req_twt) =>
      if is_associated ap sta then
        let (sc, ap) := next_sc ap in
        let! f := build_twt_setup_response (ap_mac ap) sta dialog req_twt sc in
        Val (ap, out_tx f out)
      else Val (ap, out)
  | None =>
      (* a BTM response is only logged, and ignored from a PMF station *)
      let! _ := parse_btm_response (body frame) in
      Val (ap, out)
  end.

Definition handle_action (frame : Dot11) (rx : ManagementRx) (ap : Ap) (out : Outgoing) :
    res (Ap * Outgoing) :=
  let sta := addr2 frame in
  if negb (protected frame) then handle_unprotected_action frame ap out
  else
    let! '(plain, ap) := protected_mgmt_body frame rx ap in
    match plain with
    | None => Val (ap, out)
    | Some plain =>
        let! query := parse_sa_query plain in
        match query with
        | None => Val (ap, out)
        | Some (action, trans) =>
            if action =? SA_QUERY_RESPONSE then
              Val (upd_station sta (sa_query_answered trans) ap, out)
            else if action =? SA_QUERY_REQUEST then
              let! '(f, ap) := protected_tx sta (fun cipher sc pn tk sec =>
                build_protected_sa_query_for_cipher_sec cipher (ap_mac ap) sta false true trans sc pn tk
                  sec) ap in
              Val (ap, match f with Some f => out_tx f out | None => out end)
            else Val (ap, out)
        end
    end.

End Management.

(** * Protected transmission *)

Definition pn_used (s : Station) : Station := s <| st_client_pn := st_client_pn s + 1 |>.

(** Every transmission above builds a management frame of this form. *)
Definition mgmt_frame `{Primitives} (st : Z) (sta mac b : bytes) (cipher : DataCipher) (sc pn : Z)
    (tk : bytes) (sec : option addrs) : res bytes :=
  build_protected_mgmt_sec cipher st sta mac mac sec 0 sc pn 0 tk b.

(** What the station sees of a protected frame with the body [b]. *)
Definition opens_to `{Primitives} (ap : Ap) (sta : bytes) (s : Station) (st : Z) (b f : bytes) : Prop :=
  exists d, parse f = Val (Some d) /\ frame_type d = TYPE_MGMT /\ subtype d = st /\
    protected d = true /\ addr1 d = sta /\ addr2 d = ap_mac ap /\
    ccmp_pn d = Val (Some (pn_read_back (st_client_pn s))) /\
    (pn_read_back (st_client_pn s) = st_client_pn s ->
     decrypt_protected_mgmt_sec (st_pairwise_cipher s) d
       (take (key_len (st_pairwise_cipher s)) (st_pairwise_tk s)) (mld_mgmt_tx_sec_addrs ap sta)
     = Val (Some b)).

Section Transmission.
Context {P : Primitives} {Pok : PrimitivesOk P}.

Lemma mld_mgmt_sec_addrs_ok ap sta :
  ap_ok ap -> sec_addrs_ok (mld_mgmt_rx_sec_addrs ap sta) /\ sec_addrs_ok (mld_mgmt_tx_sec_addrs ap sta).
Proof.
  intros H. unfold mld_mgmt_rx_sec_addrs, mld_mgmt_tx_sec_addrs, station_mld, sec_addrs_ok.
  destruct (ap_mld ap); [|done]. destruct (ap_stations ap !! sta) as [s|] eqn:Es; [|done].
  cbn [mbind option_bind]. pose proof (so_mld s (ap_ok_station _ _ _ H Es)) as Hm.
  destruct (st_client_mld_mac s); [|done]. cbn [option_map opt_ok] in *. repeat split; try apply H; apply Hm.
Qed.

(** A transmission uses the station's next packet number, once; without a key or
    a packet number it does nothing. *)
Lemma protected_tx_spec sta st b ap s :
  ap_ok ap -> ap_stations ap !! sta = Some s -> 0 <= st < 16 -> wf_bytes b ->
  Z.of_nat (length b) < 2 ^ 16 ->
  if st_associated s && (st_client_pn s <=? MAX_PACKET_NUMBER) then
    exists f ap', protected_tx sta (mgmt_frame st sta (ap_mac ap) b) ap = Val (Some f, ap') /\
      moves_stations (fun m => <[sta := pn_used s]> m) ap ap' /\ opens_to ap sta s st b f /\
      ap' = (next_sc (ap <| ap_stations := <[sta := pn_used s]> (ap_stations ap) |>)).2
  else protected_tx sta (mgmt_frame st sta (ap_mac ap) b) ap = Val (None, ap).
Proof.
  intros H Es Hst Hb Hlen. pose proof (ap_ok_station _ _ _ H Es) as Hs.
  unfold protected_tx, installed_pairwise_key, station_pairwise_cipher, next_pairwise_pn. rewrite Es.
  destruct (st_associated s) eqn:Ea; cbn [andb]; [|done]. cbn [mbind option_bind].
  rewrite next_client_pn_spec. destruct (Z.leb_spec (st_client_pn s) MAX_PACKET_NUMBER) as [Hle|];
    case_decide; try lia; [|done]. cbn [mbind option_bind]. fold (pn_used s).
  set (ap1 := ap <| ap_stations := <[sta := pn_used s]> (ap_stations ap) |>).
  assert (Hap1 : ap_ok ap1).
  { apply ap_ok_stations; [done|]. apply map_Forall_insert_2; [|apply H].
    split; [by apply (ao_stations ap H sta s)|by apply next_client_pn_ok]. }
  rewrite (surjective_pairing (next_sc ap1)).
  assert (Hsec : mld_mgmt_tx_sec_addrs (next_sc ap1).2 sta = mld_mgmt_tx_sec_addrs ap sta).
  { unfold mld_mgmt_tx_sec_addrs, station_mld, next_sc, ap1, pn_used. cbn [snd]. fields.
    rewrite lookup_insert_eq, Es. cbn. by fields. }
  rewrite Hsec.
  rewrite slice_prefix by (rewrite (proj1 (so_pairwise_tk s Hs)); apply key_len_le). cbn [rbind].
  destruct (default (sta, ap_mac ap, ap_mac ap) (mld_mgmt_tx_sec_addrs ap sta)) as [[s1 s2] s3] eqn:Edef.
  assert (Hsta : arr 6 sta) by (by apply (ao_stations ap H sta s)).
  assert (Hs3 : arr 6 s1 /\ arr 6 s2 /\ arr 6 s3).
  { pose proof (proj2 (mld_mgmt_sec_addrs_ok ap sta H)) as Hok. unfold sec_addrs_ok in Hok.
    destruct (mld_mgmt_tx_sec_addrs ap sta) as [[[x1 x2] x3]|]; cbn in Edef; injection Edef as <- <- <-; [done|].
    split; [done|]. split; apply H. }
  destruct Hs3 as (Hs1 & Hs2 & Hs3).
  destruct (protected_mgmt_roundtrip (st_pairwise_cipher s) st sta (ap_mac ap) (ap_mac ap) s1 s2 s3
    (mld_mgmt_tx_sec_addrs ap sta) 0 (next_sc ap1).1 (st_client_pn s) 0
    (take (key_len (st_pairwise_cipher s)) (st_pairwise_tk s)) b)
    as (f & d & Hf & Hp & Hty & Hsub & Hprot & A1 & A2 & _ & Hpn & Hdec); try done.
  { apply H. } { apply H. } { by left. } { apply next_sc_range. }
  { destruct (so_pairwise_tk s Hs) as [Hl Hw]. pose proof (key_len_le (st_pairwise_cipher s)).
    split; [rewrite length_take; lia|by apply wf_bytes_take]. }
  unfold mgmt_frame. rewrite Hf. cbn [rbind].
  exists f, (next_sc ap1).2. split; [done|]. split; [|split; [|done]].
  - split; [by apply next_sc_ok|]. done.
  - exists d. done.
Qed.

End Transmission.

(** * Protected reception *)

(** [frame] carries [plain], authentic under the station's installed key, with a
    packet number above its management window. *)
Definition mgmt_verified `{Primitives} (frame : Dot11) (ap : Ap) (s : Station) (pn : Z) (plain : bytes) : Prop :=
  ccmp_pn frame = Val (Some pn) /\ st_last_rx_mgmt_pn s < pn <= MAX_PACKET_NUMBER /\
  exists s1 s2 s3 ct tag,
    (s1, s2, s3) = default (addr1 frame, addr2 frame, addr3 frame)
                     (mld_mgmt_rx_sec_addrs ap (addr2 frame)) /\
    body frame = take 8 (body frame) ++ ct ++ tag /\
    authentic (st_pairwise_cipher s) (take (key_len (st_pairwise_cipher s)) (st_pairwise_tk s))
      (priority frame) s2 pn (frame_aad frame s1 s2 s3) ct tag plain.

Definition mgmt_window (pn : Z) (s : Station) : Station := s <| st_last_rx_mgmt_pn := pn |>.

(** What the receiver makes of a frame: a body it vouches for, or nothing. *)
Inductive mgmt_body `{Primitives} (frame : Dot11) (rx : ManagementRx) (ap : Ap) : option bytes -> Ap -> Prop :=
| mb_none : mgmt_body frame rx ap None ap
| mb_failed : protected frame = true -> rx = Userspace ->
    mgmt_body frame rx ap None (record_failure (addr2 frame) ProtectedMgmt ap)
| mb_kernel s : protected frame = true -> rx = Kernel ->
    ap_stations ap !! addr2 frame = Some s -> st_associated s = true ->
    mgmt_body frame rx ap (Some (body frame)) ap
| mb_verified s pn plain : protected frame = true -> rx = Userspace ->
    ap_stations ap !! addr2 frame = Some s -> st_associated s = true ->
    mgmt_verified frame ap s pn plain -> wf_bytes plain ->
    mgmt_body frame rx ap (Some plain) (upd_station (addr2 frame) (mgmt_window pn) ap).

Section Reception.
Context {P : Primitives} {Pok : PrimitivesOk P}.

Lemma mgmt_window_ok pn s : pn_ok pn -> station_ok s -> station_ok (mgmt_window pn s).
Proof. intros Hp H. unfold mgmt_window. keep_station_ok H. Qed.

Lemma moves_failure sta k ap : ap_ok ap -> moves_stations id ap (record_failure sta k ap).
Proof.
  intros H. split; [by apply record_failure_ok|]. split; [|apply record_failure_stations].
  unfold record_failure. by destruct (record_failure_entry _ _ _ _).
Qed.

Lemma moves_disconnect sta r ap : ap_ok ap -> moves_stations (delete sta) ap (disconnect sta r ap).
Proof.
  intros H. split; [by apply disconnect_ok|]. split; [|apply disconnect_stations].
  unfold disconnect. repeat case_match; done.
Qed.

Lemma mgmt_body_moves frame rx ap o ap' :
  ap_ok ap -> mgmt_body frame rx ap o ap' ->
  moves_stations (match o with
                  | Some _ => match rx, ccmp_pn frame with
                              | Userspace, Val (Some pn) => alter (mgmt_window pn) (addr2 frame)
                              | _, _ => id
                              end
                  | None => id
                  end) ap ap'.
Proof.
  intros H M. inversion M as [|_ Erx|s _ Erx Hs Ha|s pn plain _ Erx Hs Ha Hv Hw]; subst.
  - done.
  - by apply moves_failure.
  - done.
  - destruct Hv as (Epn & Hr & _). rewrite Epn. split; [|done].
    apply ap_ok_upd; [done|]. intros x _. apply mgmt_window_ok.
    pose proof (so_rx_mgmt s (ap_ok_station _ _ _ H Hs)). unfold pn_ok in *. lia.
Qed.

Lemma protected_mgmt_body_spec frame rx ap :
  ap_ok ap -> dot11_ok frame ->
  exists o ap', protected_mgmt_body frame rx ap = Val (o, ap') /\ mgmt_body frame rx ap o ap'.
Proof.
  intros H Hd. pose proof Hd as (_ & _ & _ & _ & _ & _ & Hw & _).
  assert (Hnone : exists o ap', Val (@None bytes, ap) = Val (o, ap') /\ mgmt_body frame rx ap o ap')
    by (do 2 eexists; split; [done|constructor]).
  unfold protected_mgmt_body, installed_pairwise_key, station_pairwise_cipher.
  destruct (protected frame) eqn:Ep; cbn [negb]; [|done].
  destruct (ap_stations ap !! addr2 frame) as [s|] eqn:Es; [|done].
  destruct (st_associated s) eqn:Ea; [|done].
  case_decide as Hrx; [do 2 eexists; split; [done|by eapply mb_kernel]|].
  assert (rx = Userspace) as -> by (by destruct rx).
  destruct (ccmp_pn_total frame Hw) as ([pn|] & Epn & _ & Hrange); rewrite Epn; cbn [rbind]; [|done].
  destruct (Z.leb_spec pn (st_last_rx_mgmt_pn s)); [done|].
  pose proof (ap_ok_station _ _ _ H Es) as Hs. destruct (so_pairwise_tk s Hs) as [Hl Hwtk].
  rewrite slice_prefix by (rewrite Hl; apply key_len_le). cbn [rbind].
  destruct (open_payload_total (st_pairwise_cipher s) frame
    (take (key_len (st_pairwise_cipher s)) (st_pairwise_tk s)) (mld_mgmt_rx_sec_addrs ap (addr2 frame)) Hd)
    as (o & Ho & Hsound); [by apply wf_bytes_take|by apply mld_mgmt_sec_addrs_ok|].
  unfold decrypt_protected_mgmt_sec. rewrite Ho. cbn [rbind].
  destruct o as [plain|]; [|do 2 eexists; split; [done|by apply mb_failed]].
  destruct (Hsound plain eq_refl) as (s1 & s2 & s3 & pn' & ct & tag & E3 & Epn' & Hpn' & Hb & _ & _ & Hwp & Hau).
  rewrite Epn in Epn'. injection Epn' as <-.
  do 2 eexists. split; [done|]. eapply mb_verified; try done.
  split; [done|]. split; [unfold MAX_PACKET_NUMBER; lia|]. by exists s1, s2, s3, ct, tag.
Qed.

End Reception.

(** * SA Query *)

(** A station whose association has been contested: the first challenge sets the
    identifier and the deadline, later ones keep both. *)
Definition challenged (trans now : Z) (s : Station) : Station :=
  (pn_used s) <| st_sa_query := Some (default (trans, now) (st_sa_query s)) |>.

Definition sa_query_id_of (ap : Ap) (s : Station) : Z :=
  match st_sa_query s with Some (t, _) => t | None => u16 (ap_sa_query_id ap + 1) end.

Section SaQuery.
Context {P : Primitives} {Pok : PrimitivesOk P}.

Lemma challenged_ok trans now s : station_ok s -> st_client_pn s <= MAX_PACKET_NUMBER ->
  station_ok (challenged trans now s).
Proof.
  intros H Hp. pose proof (next_client_pn_ok s H Hp) as H'. fold (pn_used s) in H'.
  unfold challenged. revert H'. generalize (pn_used s). intros s' H'. keep_station_ok H'.
Qed.

Lemma sa_query_trans_spec sta ap s :
  ap_ok ap -> ap_stations ap !! sta = Some s ->
  (sa_query_trans sta ap).1 = sa_query_id_of ap s /\
  moves_stations id ap (sa_query_trans sta ap).2 /\
  ap_static (sa_query_trans sta ap).2 = ap_static ap /\
  ap_mac (sa_query_trans sta ap).2 = ap_mac ap /\
  mld_mgmt_tx_sec_addrs (sa_query_trans sta ap).2 sta = mld_mgmt_tx_sec_addrs ap sta.
Proof.
  intros H Es. unfold sa_query_trans, sa_query_id_of. rewrite Es. cbn [mbind option_bind].
  destruct (st_sa_query s) as [[t st0]|]; [done|]. cbn [fst snd]. split; [done|].
  split; [|done]. split; [keep_ap_ok H|done].
Qed.

Lemma schedule_maintenance_static d ap : ap_static (schedule_maintenance d ap) = ap_static ap.
Proof. unfold schedule_maintenance. repeat case_match; done. Qed.

Lemma schedule_maintenance_moves d ap : ap_ok ap -> moves_stations id ap (schedule_maintenance d ap).
Proof.
  intros H. unfold schedule_maintenance. repeat case_match; try done; split; try done; keep_ap_ok H.
Qed.

Lemma sa_query_body_ok r t : wf_bytes (sa_query_body r t) /\ Z.of_nat (length (sa_query_body r t)) < 2 ^ 16.
Proof.
  unfold sa_query_body. split; [|by destruct r].
  apply wf_bytes_app; [destruct r; by apply (bool_decide_unpack _)|auto with bytes].
Qed.

(** A challenge sends one protected SA Query and arms the deadline. *)
Lemma sa_query_challenge_spec now sta ap out s :
  ap_ok ap -> ap_stations ap !! sta = Some s -> st_associated s = true ->
  if st_client_pn s <=? MAX_PACKET_NUMBER then
    exists f ap', sa_query_challenge now sta ap out = Val (ap', out_tx f out) /\
      moves_stations (fun m => <[sta := challenged (sa_query_id_of ap s) now s]> m) ap ap' /\
      ap_static ap' = ap_static ap /\
      opens_to ap sta s SUBTYPE_ACTION (sa_query_body false (sa_query_id_of ap s)) f
  else exists ap', sa_query_challenge now sta ap out = Val (ap', out) /\
    moves_stations id ap ap' /\ ap_static ap' = ap_static ap.
Proof.
  intros H Es Ea. unfold sa_query_challenge.
  assert (Hk : installed_pairwise_key ap sta = Some (st_pairwise_tk s))
    by (unfold installed_pairwise_key; by rewrite Es, Ea).
  rewrite Hk. clear Hk.
  destruct (sa_query_trans_spec sta ap s H Es) as (Et & M0 & Est & Emac & Esec).
  rewrite (surjective_pairing (sa_query_trans sta ap)), Et.
  revert M0 Est Emac Esec. set (ap0 := (sa_query_trans sta ap).2). clearbody ap0. intros M0 Est Emac Esec.
  pose proof M0 as (H0 & _ & E0). unfold id in E0. rewrite <- E0 in Es.
  set (t := sa_query_id_of ap s) in *.
  destruct (sa_query_body_ok false t) as [Hbw Hbl].
  pose proof (protected_tx_spec sta SUBTYPE_ACTION (sa_query_body false t) ap0 s H0 Es ltac:(done) Hbw Hbl) as Htx.
  rewrite Ea in Htx. cbn [andb] in Htx.
  change (protected_tx sta _ ap0) with (protected_tx sta (mgmt_frame SUBTYPE_ACTION sta (ap_mac ap0) (sa_query_body false t)) ap0).
  destruct (Z.leb_spec (st_client_pn s) MAX_PACKET_NUMBER) as [Hpn|].
  - destruct Htx as (f & ap1 & -> & M1 & Hopen & Eap1). cbn [rbind].
    assert (Hop : opens_to ap sta s SUBTYPE_ACTION (sa_query_body false t) f)
      by (unfold opens_to in *; by rewrite <- Emac, <- Esec).
    pose proof M1 as (H1 & G1 & E1).
    set (g := fun s : Station => s <| st_sa_query := Some (default (t, now) (st_sa_query s)) |>).
    assert (M2 : moves_stations (fun m => <[sta := challenged t now s]> m) ap (upd_station sta g ap1)).
    { split; [|split].
      - apply ap_ok_upd; [done|]. intros x _ Hx. unfold g. keep_station_ok Hx.
      - destruct M0 as (_ & G0 & _). by rewrite <- G0, <- G1.
      - unfold upd_station. fields. rewrite E1, E0. unfold id. apply map_eq. intros m.
        destruct (decide (m = sta)) as [->|Hne].
        + rewrite lookup_alter_eq, !lookup_insert_eq. done.
        + by rewrite lookup_alter_ne, !lookup_insert_ne. }
    assert (Hlk : ap_stations (upd_station sta g ap1) !! sta = Some (challenged t now s)).
    { destruct M2 as (_ & _ & ->). by rewrite lookup_insert_eq. }
    rewrite Hlk. cbn [mbind option_bind]. unfold challenged at 1. fields.
    destruct (default (t, now) (st_sa_query s)) as [tr started].
    exists f. eexists. split; [done|]. split; [|split; [|done]].
    2: { rewrite schedule_maintenance_static, static_upd, Eap1. by rewrite <- Est. }
    exact (moves_trans _ id _ _ _ M2 (schedule_maintenance_moves _ _ (proj1 M2))).
  - rewrite Htx. cbn [rbind]. exists ap0. split; [reflexivity|split; [exact M0|exact Est]].
Qed.

(** The station's answer, as the AP parses it. *)
Lemma response_opens ap sta s id sc pn :
  ap_ok ap -> ap_stations ap !! sta = Some s -> 0 <= sc < 2 ^ 16 -> pn_read_back pn = pn ->
  exists f d,
    build_protected_sa_query_for_cipher_sec (st_pairwise_cipher s) (ap_mac ap) sta true true id sc pn
      (take (key_len (st_pairwise_cipher s)) (st_pairwise_tk s)) (mld_mgmt_rx_sec_addrs ap sta) = Val f /\
    parse f = Val (Some d) /\ protected d = true /\ addr2 d = sta /\ ccmp_pn d = Val (Some pn) /\
    decrypt_protected_mgmt_sec (st_pairwise_cipher s) d
      (take (key_len (st_pairwise_cipher s)) (st_pairwise_tk s)) (mld_mgmt_rx_sec_addrs ap sta)
      = Val (Some (sa_query_body true id)).
Proof.
  intros H Es Hsc Hrb. pose proof (ap_ok_station _ _ _ H Es) as Hs.
  destruct (so_pairwise_tk s Hs) as [Hl Htw].
  assert (Hsta : arr 6 sta) by (by apply (ao_stations ap H sta s)).
  destruct (default (ap_mac ap, sta, ap_mac ap) (mld_mgmt_rx_sec_addrs ap sta)) as [[s1 s2] s3] eqn:Edef.
  assert (Hs3 : arr 6 s1 /\ arr 6 s2 /\ arr 6 s3).
  { pose proof (proj1 (mld_mgmt_sec_addrs_ok ap sta H)) as Hok. unfold sec_addrs_ok in Hok.
    destruct (mld_mgmt_rx_sec_addrs ap sta) as [[[x1 x2] x3]|]; cbn in Edef; injection Edef as <- <- <-; [done|].
    split; [apply H|]. split; [done|apply H]. }
  destruct Hs3 as (Hs1 & Hs2 & Hs3). destruct (sa_query_body_ok true id) as [Hbw Hbl].
  destruct (protected_mgmt_roundtrip (st_pairwise_cipher s) SUBTYPE_ACTION (ap_mac ap) sta (ap_mac ap) s1 s2 s3
    (mld_mgmt_rx_sec_addrs ap sta) FC_TODS sc pn 0
    (take (key_len (st_pairwise_cipher s)) (st_pairwise_tk s)) (sa_query_body true id))
    as (f & d & Hf & Hp & _ & _ & Hpr & _ & A2 & _ & Hpn & Hdec); try done; try apply H.
  { by right. }
  { pose proof (key_len_le (st_pairwise_cipher s)). split; [rewrite length_take; lia|by apply wf_bytes_take]. }
  exists f, d. rewrite Hrb in Hpn. split; [exact Hf|]. do 4 (split; [done|]). by apply Hdec.
Qed.

End SaQuery.

(** * Claims *)

Section Claims.
Context {P : Primitives} {Pok : PrimitivesOk P}.

(** C21: Deauthentication and disassociation. The handler returns on every frame,
    keeps the AP well-formed and touches no station but the sender. Without
    management-frame protection the sender's association ends. With it, the
    association ends only for a protected frame of an associated station whose
    packet number exceeds the management window and whose body is authentic under
    that station's installed key: a forged or replayed frame leaves every station
    as it was. *)
Theorem robust_mgmt_authentic frame ap :
  ap_ok ap -> dot11_ok frame ->
  exists ap', handle_robust_mgmt frame Userspace ap = Val ap' /\ ap_ok ap' /\
    group_state ap' = group_state ap /\
    match ap_stations ap !! addr2 frame with
    | None => ap' = ap
    | Some s =>
        (ap_stations ap' = ap_stations ap /\ st_pmf s = true) \/
        (ap_stations ap' = delete (addr2 frame) (ap_stations ap) /\
         (st_pmf s = true -> protected frame = true /\ st_associated s = true /\
            exists pn plain, mgmt_verified frame ap s pn plain))
    end.
Proof.
  intros H Hd. unfold handle_robust_mgmt.
  destruct (ap_stations ap !! addr2 frame) as [s|] eqn:Es; [|by exists ap].
  destruct (st_pmf s) eqn:Epmf; cbn [negb].
  - destruct (protected_mgmt_body_spec frame Userspace ap H Hd) as (o & ap1 & -> & M).
    pose proof (mgmt_body_moves _ _ _ _ _ H M) as Mv. cbn [rbind].
    destruct o as [plain|].
    + pose proof (moves_disconnect (addr2 frame) (leading_reason plain) ap1 (proj1 Mv)) as (A & B & C).
      eexists. split; [reflexivity|]. split; [exact A|]. split; [by rewrite B; apply Mv|]. right.
      inversion M as [| |? ? ?|s' pn pl Hprot _ Hs Ha Hv _]; subst; [done|].
      rewrite Es in Hs. injection Hs as <-.
      split; [rewrite C; unfold upd_station; fields|by intros _; split; [|split; [|exists pn, plain]]].
      apply map_eq. intros m. destruct (decide (m = addr2 frame)) as [->|];
        [by rewrite !lookup_delete_eq|by rewrite !lookup_delete_ne, lookup_alter_ne].
    + exists ap1. destruct Mv as (A & B & C). split; [done|]. split; [done|]. split; [done|]. by left.
  - pose proof (moves_disconnect (addr2 frame) (leading_reason (body frame)) ap H) as (A & B & C).
    eexists. split; [reflexivity|]. do 2 (split; [done|]). right. done.
Qed.

(** C22: SA Query. When the association of a protected station is contested, the AP
    sends one query under the station's key, keeps the session, and remembers
    the identifier and the time of the first contest (later contests move
    neither), as long as the packet numbers of its key last. The frame the
    station's code answers with, protected under the same key with a packet number
    that is above the management window and that the access point reads back as it
    was sent (every number below 2^16 is; C36 says which others are), ends the
    contest and leaves the station associated under unchanged keys. An answer
    whose number is misread is not covered. *)
Theorem sa_query_keeps_session now sta ap out s sc' pn' kf :
  let id := sa_query_id_of ap s in
  let c := st_pairwise_cipher s in
  ap_ok ap -> ap_stations ap !! sta = Some s -> st_associated s = true ->
  st_client_pn s <= MAX_PACKET_NUMBER -> 0 <= sc' < 2 ^ 16 -> pn_read_back pn' = pn' ->
  0 <= id < 2 ^ 16 -> st_last_rx_mgmt_pn s < pn' ->
  build_protected_sa_query_for_cipher_sec c (ap_mac ap) sta true true id sc' pn'
    (take (key_len c) (st_pairwise_tk s)) (mld_mgmt_rx_sec_addrs ap sta) = Val kf ->
  exists f ap1 d ap2,
    sa_query_challenge now sta ap out = Val (ap1, out_tx f out) /\
    opens_to ap sta s SUBTYPE_ACTION (sa_query_body false id) f /\
    ap_stations ap1 = <[sta := challenged id now s]> (ap_stations ap) /\
    parse kf = Val (Some d) /\
    handle_action d Userspace ap1 (out_tx f out) = Val (ap2, out_tx f out) /\
    ap_stations ap2 = <[sta := (mgmt_window pn' (pn_used s)) <| st_sa_query := None |>]> (ap_stations ap).
Proof.
  intros id c H Es Ea Hpn Hsc Hrb Hid Hw Hkf.
  pose proof (sa_query_challenge_spec now sta ap out s H Es Ea) as Hch.
  rewrite (proj2 (Z.leb_le _ _)) in Hch by done. destruct Hch as (f & ap1 & Ech & M1 & Est & Hopen).
  pose proof (ap_ok_station _ _ _ H Es) as Hs. destruct (so_pairwise_tk s Hs) as [Hl Htw].
  assert (Hsta : arr 6 sta) by (by apply (ao_stations ap H sta s)).
  destruct (response_opens ap sta s id sc' pn' H Es Hsc Hrb) as (kf' & d & Hkf' & Hp & Hpr & A2 & Ep & Hdec).
  fold c in Hkf', Hdec. rewrite Hkf in Hkf'. injection Hkf' as <-.
  assert (E1 : ap_stations ap1 !! sta = Some (challenged id now s)).
  { destruct M1 as (_ & _ & ->). by rewrite lookup_insert_eq. }
  assert (Hsec : mld_mgmt_rx_sec_addrs ap1 sta = mld_mgmt_rx_sec_addrs ap sta).
  { unfold mld_mgmt_rx_sec_addrs, station_mld. rewrite E1, Es. cbn [mbind option_bind].
    unfold ap_static in Est. assert (ap_mld ap1 = ap_mld ap) as -> by congruence.
    assert (ap_mld_mac ap1 = ap_mld_mac ap) as -> by congruence. done. }
  exists f, ap1, d. eexists. split; [exact Ech|]. split; [exact Hopen|]. split; [apply M1|].
  split; [exact Hp|]. split.
  - unfold handle_action. rewrite Hpr. cbn [negb].
    unfold protected_mgmt_body, installed_pairwise_key, station_pairwise_cipher. rewrite Hpr, A2, E1.
    cbn [negb]. change (st_associated (challenged id now s)) with (st_associated s). rewrite Ea.
    rewrite decide_False by done. rewrite Ep. cbn [rbind].
    change (st_last_rx_mgmt_pn (challenged id now s)) with (st_last_rx_mgmt_pn s).
    rewrite (proj2 (Z.leb_gt _ _)) by lia.
    change (st_pairwise_tk (challenged id now s)) with (st_pairwise_tk s).
    change (st_pairwise_cipher (challenged id now s)) with c.
    rewrite slice_prefix by (rewrite Hl; apply key_len_le). cbn [rbind].
    rewrite Hsec, Hdec. cbn [rbind]. rewrite (parse_sa_query_build true id Hid). reflexivity.
  - unfold upd_station. fields. destruct M1 as (_ & _ & ->). apply map_eq. intros m.
    destruct (decide (m = sta)) as [->|]; [|by rewrite !lookup_alter_ne, !lookup_insert_ne].
    rewrite !lookup_alter_eq, !lookup_insert_eq. cbn [fmap option_fmap option_map]. f_equal.
    unfold sa_query_answered, id, sa_query_id_of. unfold mgmt_window, challenged. fields.
    destruct (st_sa_query s) as [[t0 st0]|] eqn:Eq; cbn; rewrite Z.eqb_refl; reflexivity.
Qed.
End Claims.

(** ** Witnesses *)

(** An associated station with management-frame protection. *)
Definition demo_pmf_station : Station := Eval vm_compute in demo_associated <| st_pmf := true |>.
Definition demo_pmf_ap : Ap := with_station demo_pmf_station.

Lemma demo_pmf_ap_ok : ap_ok demo_pmf_ap.
Proof.
  apply with_station_ok. pose proof demo_associated_ok as H.
  change demo_pmf_station with (demo_associated <| st_pmf := true |>). keep_station_ok H.
Qed.

(** An unprotected deauthentication with the station's address as its source. *)
Definition demo_deauth_from_sta : Dot11 := Eval vm_compute in
  received_frame (Val (build_deauth demo_sta demo_mac 7)).

Lemma demo_deauth_ok : dot11_ok demo_deauth_from_sta.
Proof. dot11_ok_by_compute. Qed.

(** The forged frame leaves the protected station alone. *)
Example demo_forgery_ignored :
  handle_robust_mgmt demo_deauth_from_sta Userspace demo_pmf_ap = Val demo_pmf_ap.
Proof. reflexivity. Qed.

Lemma robust_mgmt_authentic_witness :
  exists ap', handle_robust_mgmt demo_deauth_from_sta Userspace demo_pmf_ap = Val ap' /\ ap_ok ap' /\
    group_state ap' = group_state demo_pmf_ap /\
    match ap_stations demo_pmf_ap !! addr2 demo_deauth_from_sta with
    | None => ap' = demo_pmf_ap
    | Some s =>
        (ap_stations ap' = ap_stations demo_pmf_ap /\ st_pmf s = true) \/
        (ap_stations ap' = delete (addr2 demo_deauth_from_sta) (ap_stations demo_pmf_ap) /\
         (st_pmf s = true -> protected demo_deauth_from_sta = true /\ st_associated s = true /\
            exists pn plain, mgmt_verified demo_deauth_from_sta demo_pmf_ap s pn plain))
    end.
Proof. exact (robust_mgmt_authentic demo_deauth_from_sta demo_pmf_ap demo_pmf_ap_ok demo_deauth_ok). Defined.

Definition demo_sa_response : bytes := Eval vm_compute in
  returned (build_protected_sa_query_for_cipher_sec Ccmp128 demo_mac demo_sta true true 1 16 5
    (take 16 (st_pairwise_tk demo_pmf_station)) None).

Lemma sa_query_keeps_session_witness :
  exists f ap1 d ap2,
    sa_query_challenge 9 demo_sta demo_pmf_ap no_output = Val (ap1, out_tx f no_output) /\
    opens_to demo_pmf_ap demo_sta demo_pmf_station SUBTYPE_ACTION (sa_query_body false 1) f /\
    ap_stations ap1 = <[demo_sta := challenged 1 9 demo_pmf_station]> (ap_stations demo_pmf_ap) /\
    parse demo_sa_response = Val (Some d) /\
    handle_action d Userspace ap1 (out_tx f no_output) = Val (ap2, out_tx f no_output) /\
    ap_stations ap2 = <[demo_sta := (mgmt_window 5 (pn_used demo_pmf_station)) <| st_sa_query := None |>]>
                        (ap_stations demo_pmf_ap).
Proof.
  apply (sa_query_keeps_session 9 demo_sta demo_pmf_ap no_output demo_pmf_station 16 5 demo_sa_response);
    [exact demo_pmf_ap_ok|reflexivity|reflexivity|discriminate|split; [discriminate|reflexivity]
    |reflexivity|split; [discriminate|reflexivity]|reflexivity|vm_compute; reflexivity].
Defined.
