(* ===== verification/ApKeys.v ===== *)
(** Group rekeying: [rekey_gtk], [rekey_gtk_per_sta] and [group_deauth] of
    src/ap/group_keys.rs.  Both rekeys walk the station map; [order] is the order
    in which its keys are visited. *)
From S2P Require Import Prelude Elements Crypto Security Frames Channels DataProt Kde Rsn Eapol Sae Failures Roaming Ap ApConfig ApEapol Demo Handshake ApData ApMgmt.

Section Rekey.
Context {P : Primitives} {E : Entropy}.

(** The two slots of the GTK and of the IGTK. *)
Definition other_gtk_id (k : Z) : Z := if k =? 1 then 2 else 1.
Definition other_igtk_id (k : Z) : Z := if k =? 4 then 5 else 4.

(** ** Message 1 for one station *)

(** What a station is told. *)
Record GroupKeys := {
  gk_gtk : bytes; gk_gtk_id : Z; gk_rsc : Z; gk_igtk : bytes; gk_igtk_id : Z; gk_igtk_ipn : bytes
}.

Definition build_msg1 (sta : bytes) (s : Station) (link_ids : list Z) (g : GroupKeys) (replay sc : Z)
    (ap : Ap) : res bytes :=
  let igtk_kde := if st_pmf s then Some (gk_igtk_id g, gk_igtk_ipn g, gk_igtk g) else None in
  if (length link_ids =? 0)%nat then
    build_group_key_msg1_with_rsc (ap_mac ap) sta (st_kck s) (st_kek s) (gk_gtk_id g) (gk_gtk g)
      (gk_rsc g) igtk_kde replay sc (key_mic s)
  else
    build_group_key_msg1_mld_with_rsc (ap_mac ap) sta (st_kck s) (st_kek s) link_ids (gk_gtk_id g)
      (gk_gtk g) (gk_rsc g) igtk_kde None replay sc (key_mic s).

(** The station now waits for message 2. *)
Definition msg1_pending (now : Z) (f : bytes) (s : Station) : Station :=
  s <| st_pending_eapol := Some f |> <| st_eapol_tx := now |> <| st_eapol_retries := 0 |>
    <| st_eapol_acked := false |> <| st_group_rekeying := true |>.

(** The loop body shared by both rekeys, from the replay counter on; [prepare]
    is what the loop does to the station before it reads its keys. *)
Definition send_msg1 (now : Z) (link_ids : list Z) (replay : Z) (g : GroupKeys) (sta : bytes)
    (ap : Ap) : res (bytes * Ap) :=
  match ap_stations ap !! sta with
  | None => Panic
  | Some s =>
      let (sc, ap) := next_sc ap in
      let! frame := build_msg1 sta s link_ids g replay sc ap in
      let f := RADIOTAP_TX ++ frame in
      Val (f, arm_eapol_timer sta (upd_station sta (msg1_pending now f) ap))
  end.

(** ** BSS-wide rekey *)

Definition rotate_bss_keys (now : Z) (ap : Ap) : Ap :=
  let (gtk_full, ap) := random_bytes 32 ap in
  let ap := ap <| ap_gtk := take 16 gtk_full |> <| ap_group_pn := 1 |>
               <| ap_gtk_key_id := other_gtk_id (ap_gtk_key_id ap) |> in
  let (igtk, ap) := random_bytes 16 ap in
  ap <| ap_igtk := igtk |> <| ap_igtk_key_id := other_igtk_id (ap_igtk_key_id ap) |>
     <| ap_igtk_ipn := replicate 6 0 |> <| ap_last_group_rekey := now |>
     <| ap_group_key_epoch := u64 (ap_group_key_epoch ap + 1) |>.

Definition bss_keys (ap : Ap) : GroupKeys := {|
  gk_gtk := ap_gtk ap; gk_gtk_id := ap_gtk_key_id ap; gk_rsc := current_group_rsc ap;
  gk_igtk := ap_igtk ap; gk_igtk_id := ap_igtk_key_id ap; gk_igtk_ipn := ap_igtk_ipn ap |}.

Definition rekey_station (now : Z) (g : GroupKeys) (st : list bytes * Ap) (sta : bytes) :
    res (list bytes * Ap) :=
  let (frames, ap) := st in
  let mld_link_ids := station_mld_link_ids ap sta in
  let (replay, ap) := next_eapol_replay ap in
  let ap := upd_station sta (fun s => s <| st_eapol_replay := replay |>) ap in
  let! '(f, ap) := send_msg1 now mld_link_ids replay g sta ap in
  Val (frames ++ [f], ap).

(** ** Per-station rekey *)

Definition rotate_own_keys (gtk igtk : bytes) (replay : Z) (s : Station) : Station :=
  s <| st_gtk := gtk |> <| st_gtk_key_id := other_gtk_id (st_gtk_key_id s) |> <| st_gtk_rsc := 0 |>
    <| st_igtk := igtk |> <| st_igtk_key_id := other_igtk_id (st_igtk_key_id s) |>
    <| st_igtk_ipn := replicate 6 0 |> <| st_eapol_replay := replay |>.

Definition own_keys (rsc : Z) (s : Station) : GroupKeys := {|
  gk_gtk := st_gtk s; gk_gtk_id := st_gtk_key_id s; gk_rsc := rsc;
  gk_igtk := st_igtk s; gk_igtk_id := st_igtk_key_id s; gk_igtk_ipn := st_igtk_ipn s |}.

Definition rekey_own_station (now rsc : Z) (st : list bytes * Ap) (sta : bytes) :
    res (list bytes * Ap) :=
  let (frames, ap) := st in
  let mld_link_ids := station_mld_link_ids ap sta in
  let (replay, ap) := next_eapol_replay ap in
  let (gtk_full, ap) := random_bytes 32 ap in
  let (igtk, ap) := random_bytes 16 ap in
  let ap := upd_station sta (rotate_own_keys (take 16 gtk_full) igtk replay) ap in
  match ap_stations ap !! sta with
  | None => Panic
  | Some s =>
      let! '(f, ap) := send_msg1 now mld_link_ids replay (own_keys rsc s) sta ap in
      Val (frames ++ [f], ap)
  end.

Definition rotate_base_keys (now : Z) (ap : Ap) : Ap :=
  let (igtk, ap) := random_bytes 16 ap in
  let ap := ap <| ap_igtk := igtk |> <| ap_igtk_key_id := other_igtk_id (ap_igtk_key_id ap) |>
               <| ap_igtk_ipn := replicate 6 0 |> in
  let (gtk_full, ap) := random_bytes 32 ap in
  ap <| ap_gtk := take 16 gtk_full |> <| ap_group_pn := 1 |> <| ap_last_group_rekey := now |>
     <| ap_group_key_epoch := u64 (ap_group_key_epoch ap + 1) |>.

Definition rekey_gtk_per_sta (now : Z) (order : list bytes) (ap : Ap) : res (list bytes * Ap) :=
  let ap := rotate_base_keys now ap in
  let group_rsc := current_group_rsc ap in
  rfold (rekey_own_station now group_rsc) ([], ap) (List.filter (is_associated ap) order).

Definition rekey_gtk (now : Z) (order : list bytes) (ap : Ap) : res (list bytes * Ap) :=
  if any_station st_group_rekeying ap then Val ([], ap)
  else if ap_per_sta_vif ap then rekey_gtk_per_sta now order ap
  else
    let ap := rotate_bss_keys now ap in
    rfold (rekey_station now (bss_keys ap)) ([], ap) (List.filter (is_associated ap) order).

(** ** Group-addressed deauthentication *)

Definition group_deauth (reason : Z) (ap : Ap) : res (bytes * Ap) :=
  let ap := ap <| ap_igtk_ipn := inc_ipn_le (ap_igtk_ipn ap) |> in
  let (sc, ap) := next_sc ap in
  let! frame := build_group_deauth_bip (ap_mac ap) (ap_igtk ap) (ap_igtk_key_id ap) (ap_igtk_ipn ap) reason sc in
  Val (RADIOTAP_TX ++ frame, ap).

End Rekey.

(** * What a rekey does *)

(** A station that has been sent message 1 with replay counter [r]. *)
Definition rekeyed (now r : Z) (f : bytes) (s : Station) : Station :=
  timer_armed (msg1_pending now f (s <| st_eapol_replay := r |>)).

Definition group_keys_wf (g : GroupKeys) : Prop :=
  arr 16 (gk_gtk g) /\ (gk_gtk_id g = 1 \/ gk_gtk_id g = 2) /\ 0 <= gk_rsc g < 2 ^ 64 /\
  arr 16 (gk_igtk g) /\ (gk_igtk_id g = 4 \/ gk_igtk_id g = 5) /\ arr 6 (gk_igtk_ipn g).

(** The station [sta], with the keys in [s], reads [g] from the frame [f]. *)
Definition told `{Primitives} (mac sta : bytes) (s : Station) (r : Z) (g : GroupKeys) (f : bytes) : Prop :=
  exists d fr m wrapped padded,
    let ek := built_key (ki_group1 (key_mic s)) 0 r (replicate 32 0) (gk_rsc g) m wrapped in
    eapol_rx f d ek fr /\ addr1 d = sta /\ addr2 d = mac /\
    eapol_mic_valid (key_mic s) (st_kck s) fr ek = Val true /\
    aes_unwrap (st_kek s) wrapped = Val (Some padded) /\
    parse_gtk_kde_full padded = Val (Some (gk_gtk_id g, gk_gtk g)) /\
    parse_igtk_kde padded = Val (if st_pmf s then Some (gk_igtk_id g, gk_igtk_ipn g, gk_igtk g) else None).

Section Loop.
Context {P : Primitives} {Pok : PrimitivesOk P} {E : Entropy} {Eok : EntropyOk E}.

Lemma replay_set_ok r s : u64_ok r -> station_ok s -> station_ok (s <| st_eapol_replay := r |>).
Proof. intros Hr H. keep_station_ok H. Qed.

Lemma msg1_pending_ok now f s : station_ok s -> station_ok (msg1_pending now f s).
Proof.
  intros H. unfold msg1_pending. assert (0 <= 0 <= MAX_EAPOL_RETRIES) by (unfold MAX_EAPOL_RETRIES; lia).
  keep_station_ok H.
Qed.

Lemma igtk_kde_ok g s : group_keys_wf g ->
  mgmt_key_ok (if st_pmf s then Some (gk_igtk_id g, gk_igtk_ipn g, gk_igtk g) else None).
Proof.
  intros (_ & _ & _ & Hi & Hid & Hp). destruct (st_pmf s); [|done]. split; [|by split].
  destruct Hid as [-> | ->]; lia.
Qed.

(** The frame is always built; on a single-link AP the station reads the keys. *)
Lemma build_msg1_ok sta s ids g r sc ap :
  arr 6 sta -> arr 6 (ap_mac ap) -> station_ok s -> group_keys_wf g -> u64_ok r -> 0 <= sc < 2 ^ 16 ->
  exists f, build_msg1 sta s ids g r sc ap = Val f /\ (ids = [] -> told (ap_mac ap) sta s r g f).
Proof.
  intros Hsta Hm Hs Hg Hr Hsc. pose proof (igtk_kde_ok g s Hg) as Hi.
  destruct Hg as (Hg1 & Hid & Hrsc & _). unfold build_msg1. destruct ids as [|i ids]; cbn [length Nat.eqb].
  - destruct (group_msg1_rx (ap_mac ap) sta (st_kck s) (st_kek s) (gk_gtk_id g) (gk_gtk g) (gk_rsc g)
      (if st_pmf s then Some (gk_igtk_id g, gk_igtk_ipn g, gk_igtk g) else None) r sc (key_mic s))
      as (f & d & fr & m & w & pd & Hf & Hrx & A1 & A2 & _ & Hv & Hu & Hgk & Hik); try done; try apply Hs.
    exists f. split; [done|]. intros _. exists d, fr, m, w, pd. do 5 (split; [done|]).
    split; [|done]. rewrite Hgk. do 3 f_equal. by destruct Hid as [-> | ->].
  - destruct (group_msg1_mld_ok (ap_mac ap) sta (st_kck s) (st_kek s) (i :: ids) (gk_gtk_id g) (gk_gtk g)
      (gk_rsc g) (if st_pmf s then Some (gk_igtk_id g, gk_igtk_ipn g, gk_igtk g) else None) None r sc
      (key_mic s)) as (f & Hf); try done; try apply Hs; [apply Hg1|].
    by exists f.
Qed.

(** One turn of the loop, from the replay counter on. *)
Lemma send_msg1_spec now ids r g sta ap s :
  ap_ok ap -> ap_stations ap !! sta = Some s -> group_keys_wf g -> u64_ok r ->
  exists f ap', send_msg1 now ids r g sta ap = Val (RADIOTAP_TX ++ f, ap') /\
    moves_stations (alter (fun s => timer_armed (msg1_pending now (RADIOTAP_TX ++ f) s)) sta) ap ap' /\
    ap_static ap' = ap_static ap /\ ap_eapol_replay_counter ap' = ap_eapol_replay_counter ap /\
    (ids = [] -> told (ap_mac ap) sta s r g f).
Proof.
  intros H Es Hg Hr. unfold send_msg1. rewrite Es, (surjective_pairing (next_sc ap)).
  pose proof (moves_next_sc ap H) as M0. pose proof (next_sc_range ap) as Hsc.
  assert (Hst : ap_static (next_sc ap).2 = ap_static ap) by done.
  assert (Hrc : ap_eapol_replay_counter (next_sc ap).2 = ap_eapol_replay_counter ap) by done.
  assert (Hmac : ap_mac (next_sc ap).2 = ap_mac ap) by done.
  revert M0 Hst Hrc Hmac Hsc. generalize (next_sc ap).1, (next_sc ap).2. intros sc ap0 M0 Hst Hrc Hmac Hsc.
  destruct (build_msg1_ok sta s ids g r sc ap0) as (f & -> & Htold); try done.
  { by apply (ao_stations ap H sta s). } { apply M0. } { by eapply ap_ok_station. }
  cbn [rbind]. exists f. eexists. split; [reflexivity|]. rewrite Hmac in Htold.
  pose proof (moves_upd sta (msg1_pending now (RADIOTAP_TX ++ f)) ap0 (proj1 M0)
    (msg1_pending_ok now _)) as M1.
  pose proof (moves_arm sta _ (proj1 M1)) as M2.
  split; [|split; [|split]].
  - destruct (moves_trans _ _ _ _ _ (moves_trans _ _ _ _ _ M0 M1) M2) as (A & B & C).
    split; [done|]. split; [done|]. rewrite C. unfold id. apply alter_alter.
  - unfold arm_eapol_timer. repeat case_match; done.
  - unfold arm_eapol_timer. repeat case_match; done.
  - done.
Qed.

End Loop.

(** ** The loop over the stations

    Both rekeys are folds of a body that serves one station; [Q] is what the
    body does to it: with replay counter [r] it sends [f] and leaves [s']. *)
Section Fold.
Context {S0 : Type} (static : Ap -> S0).
Context (body : list bytes * Ap -> bytes -> res (list bytes * Ap)).
Context (Q : bytes -> Station -> Z -> bytes -> Station -> Prop) (st0 : S0).
Hypothesis body_spec : forall frames ap sta s,
  ap_ok ap -> static ap = st0 -> ap_stations ap !! sta = Some s ->
  exists f s' ap', body (frames, ap) sta = Val (frames ++ [f], ap') /\
    moves_stations (fun m => <[sta := s']> m) ap ap' /\ static ap' = st0 /\
    Q sta s (next_eapol_replay ap).1 f s' /\
    ap_eapol_replay_counter ap' = (next_eapol_replay ap).1.

Lemma next_eapol_replay_nowrap ap :
  u64_ok (ap_eapol_replay_counter ap + 1) -> 0 <= ap_eapol_replay_counter ap ->
  (next_eapol_replay ap).1 = ap_eapol_replay_counter ap + 1.
Proof.
  intros Hu H0. unfold next_eapol_replay, u64, u64_ok in *. cbn [fst].
  rewrite Z.mod_small by done. destruct (Z.eqb_spec (ap_eapol_replay_counter ap + 1) 0); lia.
Qed.

Lemma rekey_fold l : forall frames ap,
  ap_ok ap -> static ap = st0 -> NoDup l ->
  Forall (fun sta => is_Some (ap_stations ap !! sta)) l ->
  exists fs ap', rfold body (frames, ap) l = Val (frames ++ fs, ap') /\
    ap_ok ap' /\ group_state ap' = group_state ap /\ static ap' = st0 /\ length fs = length l /\
    (forall m, m ∉ l -> ap_stations ap' !! m = ap_stations ap !! m) /\
    forall i sta, l !! i = Some sta ->
      exists s r f s', ap_stations ap !! sta = Some s /\ fs !! i = Some f /\
        ap_stations ap' !! sta = Some s' /\ Q sta s r f s' /\
        (u64_ok (ap_eapol_replay_counter ap + Z.of_nat (length l)) ->
         r = ap_eapol_replay_counter ap + Z.of_nat i + 1).
Proof.
  induction l as [|sta l IH]; intros frames ap H Hst Hnd Hall.
  { exists [], ap. rewrite app_nil_r. do 6 (split; [done|]). by intros i x. }
  apply NoDup_cons in Hnd as [Hni Hnd]. apply Forall_cons in Hall as [[s Es] Hall].
  destruct (body_spec frames ap sta s H Hst Es) as (f & s' & ap1 & Eb & (H1 & G1 & M1) & Hst1 & HQ & Hc).
  assert (Hsame : forall m, m ∈ l -> ap_stations ap1 !! m = ap_stations ap !! m).
  { intros m Hm. rewrite M1, lookup_insert_ne; [done|]. by intros <-. }
  destruct (IH (frames ++ [f]) ap1 H1 Hst1 Hnd) as (fs & ap' & Ef & H' & G' & Hst' & Hlen & Hout & Hin).
  { rewrite Forall_forall in *. intros m Hm. rewrite Hsame by done. by apply Hall. }
  exists (f :: fs), ap'. split.
  { cbn [rfold]. rewrite Eb. cbn [rbind]. by rewrite Ef, <- app_assoc. }
  split; [done|]. split; [congruence|]. split; [done|]. split; [cbn; lia|]. split.
  - intros m Hm. apply not_elem_of_cons in Hm as [Hne Hm]. rewrite Hout by done.
    by rewrite M1, lookup_insert_ne.
  - intros [|i] x Hx; cbn in Hx.
    + injection Hx as <-. exists s, (next_eapol_replay ap).1, f, s'.
      split; [done|]. split; [done|]. split; [rewrite Hout by done; by rewrite M1, lookup_insert_eq|].
      split; [done|]. intros Hu. pose proof (ao_replay ap H) as H0. unfold u64_ok in *.
      rewrite next_eapol_replay_nowrap; cbn [length] in *; unfold u64_ok; lia.
    + destruct (Hin i x Hx) as (s1 & r & f1 & s1' & A & B & C & D & Hr).
      exists s1, r, f1, s1'. rewrite <- (Hsame x) by (by eapply list_elem_of_lookup_2).
      do 4 (split; [done|]). intros Hu. pose proof (ao_replay ap H) as H0. unfold u64_ok in *.
      rewrite Hr; rewrite Hc, next_eapol_replay_nowrap; cbn [length] in *; unfold u64_ok; lia.
Qed.
End Fold.

(** ** The two rekeys *)
Section Rekeys.
Context {P : Primitives} {Pok : PrimitivesOk P} {E : Entropy} {Eok : EntropyOk E}.

Lemma no_mld_links ap sta : ap_mld ap = false -> station_mld_link_ids ap sta = [].
Proof. intros H. unfold station_mld_link_ids. rewrite H. by destruct (ap_stations ap !! sta). Qed.

Lemma random_bytes_moves n ap : ap_ok ap ->
  moves_stations id ap (random_bytes n ap).2 /\ ap_static (random_bytes n ap).2 = ap_static ap /\
  ap_eapol_replay_counter (random_bytes n ap).2 = ap_eapol_replay_counter ap.
Proof. intros H. split; [|done]. split; [|done]. unfold random_bytes. cbn [snd]. keep_ap_ok H. Qed.

Lemma told_ext mac sta s s' r g f :
  st_kck s' = st_kck s -> st_kek s' = st_kek s -> st_pmf s' = st_pmf s -> key_mic s' = key_mic s ->
  told mac sta s' r g f -> told mac sta s r g f.
Proof. intros E1 E2 E3 E4. unfold told. by rewrite E1, E2, E3, E4. Qed.

(** What the loop does to a station under the keys [g]. *)
Definition served (now : Z) (mac : bytes) (mld : bool) (g : GroupKeys) (sta : bytes) (s s1 : Station)
    (r : Z) (f : bytes) (s' : Station) : Prop :=
  exists f0, f = RADIOTAP_TX ++ f0 /\ s' = timer_armed (msg1_pending now f s1) /\
    (mld = false -> told mac sta s r g f0).

Lemma rekey_station_spec now g st0 mac mld frames ap sta s :
  group_keys_wf g -> ap_mac ap = mac -> ap_mld ap = mld ->
  ap_ok ap -> ap_static ap = st0 -> ap_stations ap !! sta = Some s ->
  exists f s' ap', rekey_station now g (frames, ap) sta = Val (frames ++ [f], ap') /\
    moves_stations (fun m => <[sta := s']> m) ap ap' /\ ap_static ap' = st0 /\
    (let r := (next_eapol_replay ap).1 in
     served now mac mld g sta s (s <| st_eapol_replay := r |>) r f s') /\
    ap_eapol_replay_counter ap' = (next_eapol_replay ap).1.
Proof.
  intros Hg Hmac Hmld H Hst Es. unfold rekey_station. rewrite (surjective_pairing (next_eapol_replay ap)).
  pose proof (moves_next_replay ap H) as M0. destruct (next_eapol_replay_spec ap) as (Hr & Hc & _).
  assert (Hst0 : ap_static (next_eapol_replay ap).2 = ap_static ap) by done.
  assert (Hm0 : ap_mac (next_eapol_replay ap).2 = ap_mac ap) by done.
  revert M0 Hc Hr Hst0 Hm0. generalize (next_eapol_replay ap).1, (next_eapol_replay ap).2.
  intros r ap0 M0 Hc Hr Hst0 Hm0.
  assert (Hru : u64_ok r) by (unfold u64_ok; lia).
  pose proof (moves_upd sta (fun s => s <| st_eapol_replay := r |>) ap0 (proj1 M0)
    (fun x => replay_set_ok r x Hru)) as M1.
  pose proof (moves_trans _ _ _ _ _ M0 M1) as M01. unfold id in M01.
  set (s1 := s <| st_eapol_replay := r |>).
  assert (Es1 : ap_stations (upd_station sta (fun s => s <| st_eapol_replay := r |>) ap0) !! sta = Some s1).
  { destruct M01 as (_ & _ & ->). by rewrite lookup_alter_eq, Es. }
  destruct (send_msg1_spec now (station_mld_link_ids ap sta) r g sta _ s1 (proj1 M01) Es1 Hg Hru)
    as (f & ap2 & -> & M2 & Hst2 & Hc2 & Htold). cbn [rbind].
  exists (RADIOTAP_TX ++ f), (timer_armed (msg1_pending now (RADIOTAP_TX ++ f) s1)), ap2.
  split; [done|]. split; [|split; [rewrite Hst2, static_upd; congruence|split]].
  - destruct (moves_trans _ _ _ _ _ M01 M2) as (A & B & C). split; [done|]. split; [done|].
    rewrite C, alter_alter. rewrite (alter_id_lookup _ _ _ _ Es). reflexivity.
  - exists f. split; [done|]. split; [done|]. intros Hf. subst mld.
    change (ap_mac (upd_station sta _ ap0)) with (ap_mac ap0) in Htold. rewrite Hm0, Hmac in Htold.
    specialize (Htold (no_mld_links ap sta Hf)).
    by apply (told_ext mac sta s s1); unfold s1, key_mic; fields.
  - by rewrite Hc2.
Qed.

Lemma rotate_bss_keys_spec now ap :
  ap_ok ap ->
  let ap' := rotate_bss_keys now ap in
  ap_ok ap' /\ ap_stations ap' = ap_stations ap /\ ap_static ap' = ap_static ap /\
  ap_eapol_replay_counter ap' = ap_eapol_replay_counter ap /\
  ap_gtk ap' = take 16 (os_random (ap_draws ap) 32) /\ ap_igtk ap' = os_random (ap_draws ap + 1)%N 16 /\
  ap_gtk_key_id ap' = other_gtk_id (ap_gtk_key_id ap) /\
  ap_igtk_key_id ap' = other_igtk_id (ap_igtk_key_id ap) /\ ap_group_pn ap' = 1 /\
  group_keys_wf (bss_keys ap') /\ gk_rsc (bss_keys ap') = 0.
Proof.
  intros H ap'.
  assert (H1 : arr 16 (take 16 (os_random (ap_draws ap) 32))).
  { destruct (os_random_arr (ap_draws ap) 32) as [Hl Hw]. split; [rewrite length_take; lia|by apply wf_bytes_take]. }
  assert (H2 : arr 16 (os_random (ap_draws ap + 1)%N 16)) by apply os_random_arr.
  assert (H3 : other_gtk_id (ap_gtk_key_id ap) = 1 \/ other_gtk_id (ap_gtk_key_id ap) = 2)
    by (unfold other_gtk_id; case_match; auto).
  assert (H4 : other_igtk_id (ap_igtk_key_id ap) = 4 \/ other_igtk_id (ap_igtk_key_id ap) = 5)
    by (unfold other_igtk_id; case_match; auto).
  assert (H5 : 1 <= 1 <= MAX_PACKET_NUMBER + 1) by (unfold MAX_PACKET_NUMBER; lia).
  assert (H6 : arr 6 (replicate 6 0)) by (by apply (bool_decide_unpack _)).
  unfold ap', rotate_bss_keys, random_bytes. cbn beta iota. fields.
  split; [keep_ap_ok H|]. do 8 (split; [reflexivity|]).
  unfold group_keys_wf, bss_keys, current_group_rsc. cbn. done.
Qed.

Lemma other_gtk_id_ne k : other_gtk_id k <> k.
Proof. unfold other_gtk_id. destruct (Z.eqb_spec k 1); lia. Qed.
Lemma other_igtk_id_ne k : other_igtk_id k <> k.
Proof. unfold other_igtk_id. destruct (Z.eqb_spec k 4); lia. Qed.

(** The order in which a hash map's keys are visited: each once. *)
Definition iteration_order (ap : Ap) (order : list bytes) : Prop :=
  NoDup order /\ forall m, m ∈ order <-> is_Some (ap_stations ap !! m).

Lemma associated_order ap order :
  iteration_order ap order ->
  NoDup (List.filter (is_associated ap) order) /\
  (forall m, m ∈ List.filter (is_associated ap) order <->
     exists s, ap_stations ap !! m = Some s /\ st_associated s = true).
Proof.
  intros [Hnd Hin]. split; [by apply NoDup_ListNoDup, List.NoDup_filter, NoDup_ListNoDup|].
  intros m. rewrite list_elem_of_In, List.filter_In, <- list_elem_of_In, Hin.
  unfold is_associated. split.
  - intros [[s ->] Ha]. by exists s.
  - intros (s & -> & Ha). split; [by eexists|done].
Qed.

Lemma any_station_spec f ap :
  any_station f ap = true <-> exists m s, ap_stations ap !! m = Some s /\ f s = true.
Proof.
  unfold any_station. rewrite List.existsb_exists. split.
  - intros ([m s] & Hin & Hf). exists m, s. split; [|done].
    by apply elem_of_map_to_list, list_elem_of_In.
  - intros (m & s & Hs & Hf). exists (m, s). split; [|done].
    by apply list_elem_of_In, elem_of_map_to_list.
Qed.

Lemma filter_associated ap ap0 order :
  ap_stations ap0 = ap_stations ap ->
  List.filter (is_associated ap0) order = List.filter (is_associated ap) order.
Proof. intros E0. apply List.filter_ext. intros m. unfold is_associated. by rewrite E0. Qed.

(** From the fold to every station: [Q] says what the loop does to one. *)
Lemma rekey_all body (Q : bytes -> Station -> Z -> bytes -> Station -> Prop) ap ap0 order :
  ap_ok ap0 -> ap_stations ap0 = ap_stations ap -> ap_static ap0 = ap_static ap ->
  ap_eapol_replay_counter ap0 = ap_eapol_replay_counter ap -> iteration_order ap order ->
  (forall frames ap1 sta s, ap_ok ap1 -> ap_static ap1 = ap_static ap -> ap_stations ap1 !! sta = Some s ->
    exists f s' ap', body (frames, ap1) sta = Val (frames ++ [f], ap') /\
      moves_stations (fun m => <[sta := s']> m) ap1 ap' /\ ap_static ap' = ap_static ap /\
      Q sta s (next_eapol_replay ap1).1 f s' /\
      ap_eapol_replay_counter ap' = (next_eapol_replay ap1).1) ->
  exists frames ap', rfold body ([], ap0) (List.filter (is_associated ap0) order) = Val (frames, ap') /\
    ap_ok ap' /\ group_state ap' = group_state ap0 /\ ap_static ap' = ap_static ap /\
    length frames = length (List.filter (is_associated ap) order) /\
    forall sta s, ap_stations ap !! sta = Some s ->
      if st_associated s then
        exists s' r f, ap_stations ap' !! sta = Some s' /\ f ∈ frames /\ Q sta s r f s' /\
          (u64_ok (ap_eapol_replay_counter ap + Z.of_nat (length frames)) ->
           ap_eapol_replay_counter ap < r)
      else ap_stations ap' !! sta = Some s.
Proof.
  intros H0 S0 St0 C0 Hord Hbody. rewrite (filter_associated ap ap0 order S0).
  destruct (associated_order ap order Hord) as [Hnd Hin].
  destruct (rekey_fold ap_static body Q (ap_static ap) Hbody _ [] ap0 H0 St0 Hnd)
    as (fs & ap' & Ef & H' & G' & St' & Hlen & Hout & Hserved).
  { rewrite Forall_forall. intros m Hm. apply Hin in Hm as (s & Es & _). rewrite S0. by eexists. }
  exists fs, ap'. do 5 (split; [done|]). intros sta s Es. destruct (st_associated s) eqn:Ea.
  - assert (Hm : sta ∈ List.filter (is_associated ap) order) by (apply Hin; by exists s).
    apply list_elem_of_lookup_1 in Hm as [i Hi].
    destruct (Hserved i sta Hi) as (s0 & r & f & s' & E0 & Hf & Es' & HQ & Hr).
    rewrite S0, Es in E0. injection E0 as <-. exists s', r, f. split; [done|].
    split; [by eapply list_elem_of_lookup_2|]. split; [done|].
    rewrite Hlen, <- C0. intros Hu. rewrite (Hr Hu). lia.
  - rewrite Hout, S0; [done|]. rewrite Hin. intros (s0 & E0 & Ha). congruence.
Qed.

Lemma rekey_bss now order ap :
  ap_ok ap -> iteration_order ap order -> any_station st_group_rekeying ap = false ->
  ap_per_sta_vif ap = false ->
  let ap0 := rotate_bss_keys now ap in
  exists frames ap', rekey_gtk now order ap = Val (frames, ap') /\ ap_ok ap' /\
    group_state ap' = group_state ap0 /\ ap_static ap' = ap_static ap /\
    length frames = length (List.filter (is_associated ap) order) /\
    forall sta s, ap_stations ap !! sta = Some s ->
      if st_associated s then
        exists s' r f, ap_stations ap' !! sta = Some s' /\ f ∈ frames /\
          served now (ap_mac ap) (ap_mld ap) (bss_keys ap0) sta s (s <| st_eapol_replay := r |>) r f s' /\
          (u64_ok (ap_eapol_replay_counter ap + Z.of_nat (length frames)) ->
           ap_eapol_replay_counter ap < r)
      else ap_stations ap' !! sta = Some s.
Proof.
  intros H Hord Hany Hvif ap0.
  destruct (rotate_bss_keys_spec now ap H) as (H0 & S0 & St0 & C0 & _ & _ & _ & _ & _ & Hg & _).
  unfold rekey_gtk. rewrite Hany, Hvif. cbn zeta.
  apply (rekey_all (rekey_station now (bss_keys (rotate_bss_keys now ap)))
    (fun sta s r f s' => served now (ap_mac ap) (ap_mld ap) (bss_keys (rotate_bss_keys now ap)) sta s
       (s <| st_eapol_replay := r |>) r f s')); try done.
  intros frames ap1 sta s H1 St1 Es. apply rekey_station_spec; try done; unfold ap_static in St1; congruence.
Qed.

Lemma rotate_base_keys_spec now ap :
  ap_ok ap ->
  let ap' := rotate_base_keys now ap in
  ap_ok ap' /\ ap_stations ap' = ap_stations ap /\ ap_static ap' = ap_static ap /\
  ap_eapol_replay_counter ap' = ap_eapol_replay_counter ap /\
  ap_gtk ap' = take 16 (os_random (ap_draws ap + 1)%N 32) /\ ap_group_pn ap' = 1 /\
  current_group_rsc ap' = 0.
Proof.
  intros H ap'.
  assert (H1 : arr 16 (take 16 (os_random (ap_draws ap + 1)%N 32))).
  { destruct (os_random_arr (ap_draws ap + 1)%N 32) as [Hl Hw].
    split; [rewrite length_take; lia|by apply wf_bytes_take]. }
  assert (H2 : arr 16 (os_random (ap_draws ap) 16)) by apply os_random_arr.
  assert (H4 : other_igtk_id (ap_igtk_key_id ap) = 4 \/ other_igtk_id (ap_igtk_key_id ap) = 5)
    by (unfold other_igtk_id; case_match; auto).
  assert (H5 : 1 <= 1 <= MAX_PACKET_NUMBER + 1) by (unfold MAX_PACKET_NUMBER; lia).
  assert (H6 : arr 6 (replicate 6 0)) by (by apply (bool_decide_unpack _)).
  unfold ap', rotate_base_keys, random_bytes. cbn beta iota. fields.
  split; [keep_ap_ok H|]. do 5 (split; [reflexivity|]). reflexivity.
Qed.

Lemma rotate_own_keys_ok gtk igtk r s :
  arr 16 gtk -> arr 16 igtk -> u64_ok r -> station_ok s ->
  station_ok (rotate_own_keys gtk igtk r s) /\ group_keys_wf (own_keys 0 (rotate_own_keys gtk igtk r s)).
Proof.
  intros Hg Hi Hr H.
  assert (H3 : other_gtk_id (st_gtk_key_id s) = 1 \/ other_gtk_id (st_gtk_key_id s) = 2)
    by (unfold other_gtk_id; case_match; auto).
  assert (H4 : other_igtk_id (st_igtk_key_id s) = 4 \/ other_igtk_id (st_igtk_key_id s) = 5)
    by (unfold other_igtk_id; case_match; auto).
  assert (H5 : u64_ok 0) by (unfold u64_ok; lia).
  assert (H7 : pn_ok 0) by (unfold pn_ok, MAX_PACKET_NUMBER; lia).
  assert (H6 : arr 6 (replicate 6 0)) by (by apply (bool_decide_unpack _)).
  unfold rotate_own_keys. split; [keep_station_ok H|].
  unfold group_keys_wf, own_keys. cbn. split; [done|]. split; [done|]. split; [lia|]. done.
Qed.

(** One station's own keys are redrawn and told to it. *)
Lemma rekey_own_station_spec now st0 mac mld frames ap sta s :
  ap_mac ap = mac -> ap_mld ap = mld ->
  ap_ok ap -> ap_static ap = st0 -> ap_stations ap !! sta = Some s ->
  exists f s' ap', rekey_own_station now 0 (frames, ap) sta = Val (frames ++ [f], ap') /\
    moves_stations (fun m => <[sta := s']> m) ap ap' /\ ap_static ap' = st0 /\
    (let r := (next_eapol_replay ap).1 in
     exists gtk igtk, arr 16 gtk /\ arr 16 igtk /\
       served now mac mld (own_keys 0 (rotate_own_keys gtk igtk r s)) sta s
         (rotate_own_keys gtk igtk r s) r f s') /\
    ap_eapol_replay_counter ap' = (next_eapol_replay ap).1.
Proof.
  intros Hmac Hmld H Hst Es. unfold rekey_own_station. rewrite (surjective_pairing (next_eapol_replay ap)).
  pose proof (moves_next_replay ap H) as M0. destruct (next_eapol_replay_spec ap) as (Hr & Hc & _).
  assert (Hst0 : ap_static (next_eapol_replay ap).2 = ap_static ap) by done.
  revert M0 Hc Hr Hst0. generalize (next_eapol_replay ap).1, (next_eapol_replay ap).2.
  intros r ap0 M0 Hc Hr Hst0. assert (Hru : u64_ok r) by (unfold u64_ok; lia).
  rewrite (surjective_pairing (random_bytes 32 ap0)).
  destruct (random_bytes_moves 32 ap0 (proj1 M0)) as (Ma & Sta & Ca).
  pose proof (os_random_arr (ap_draws ap0) 32) as Hgf. change (os_random (ap_draws ap0) 32) with (random_bytes 32 ap0).1 in Hgf.
  revert Ma Sta Ca Hgf. generalize (random_bytes 32 ap0).1, (random_bytes 32 ap0).2.
  intros gf ap1 Ma Sta Ca [Hgl Hgw].
  rewrite (surjective_pairing (random_bytes 16 ap1)).
  destruct (random_bytes_moves 16 ap1 (proj1 Ma)) as (Mb & Stb & Cb).
  pose proof (os_random_arr (ap_draws ap1) 16) as Hi. change (os_random (ap_draws ap1) 16) with (random_bytes 16 ap1).1 in Hi.
  revert Mb Stb Cb Hi. generalize (random_bytes 16 ap1).1, (random_bytes 16 ap1).2.
  intros igtk ap2 Mb Stb Cb Hi.
  assert (Hg : arr 16 (take 16 gf)) by (split; [rewrite length_take; lia|by apply wf_bytes_take]).
  pose proof (moves_upd sta (rotate_own_keys (take 16 gf) igtk r) ap2 (proj1 Mb)
    (fun x Hx => proj1 (rotate_own_keys_ok _ _ r x Hg Hi Hru Hx))) as M1.
  pose proof (moves_trans _ _ _ _ _ (moves_trans _ _ _ _ _ (moves_trans _ _ _ _ _ M0 Ma) Mb) M1) as M2.
  unfold id in M2. set (s1 := rotate_own_keys (take 16 gf) igtk r s).
  assert (Es1 : ap_stations (upd_station sta (rotate_own_keys (take 16 gf) igtk r) ap2) !! sta = Some s1).
  { destruct M2 as (_ & _ & ->). by rewrite lookup_alter_eq, Es. }
  rewrite Es1. pose proof (ap_ok_station _ _ _ H Es) as Hs.
  destruct (rotate_own_keys_ok (take 16 gf) igtk r s Hg Hi Hru Hs) as [_ Hwf]. fold s1 in Hwf.
  destruct (send_msg1_spec now (station_mld_link_ids ap sta) r (own_keys 0 s1) sta _ s1 (proj1 M2) Es1 Hwf Hru)
    as (f & ap3 & -> & M3 & Hst3 & Hc3 & Htold). cbn [rbind].
  exists (RADIOTAP_TX ++ f), (timer_armed (msg1_pending now (RADIOTAP_TX ++ f) s1)), ap3.
  assert (Hs2 : ap_static ap2 = ap_static ap) by congruence.
  split; [done|]. split; [|split; [rewrite Hst3, static_upd; congruence|split]].
  - destruct (moves_trans _ _ _ _ _ M2 M3) as (A & B & C). split; [done|]. split; [done|].
    rewrite C, alter_alter. exact (alter_id_lookup _ _ _ _ Es).
  - exists (take 16 gf), igtk. split; [done|]. split; [done|]. exists f. split; [done|]. split; [done|].
    intros Hf. subst mld. change (ap_mac (upd_station sta _ ap2)) with (ap_mac ap2) in Htold.
    assert (Hm2 : ap_mac ap2 = mac) by (unfold ap_static in Hs2; congruence).
    rewrite Hm2 in Htold. specialize (Htold (no_mld_links ap sta Hf)).
    by apply (told_ext mac sta s s1); unfold s1, key_mic, rotate_own_keys; fields.
  - rewrite Hc3. change (ap_eapol_replay_counter (upd_station sta _ ap2)) with (ap_eapol_replay_counter ap2).
    cbn [fst]; congruence.
Qed.

End Rekeys.

(** ** The group deauthentication *)

Section GroupDeauth.
Context {P : Primitives} {Pok : PrimitivesOk P}.

Lemma group_deauth_frame reason ap :
  ap_ok ap -> 0 <= reason < 2 ^ 16 ->
  exists f d ap', group_deauth reason ap = Val (RADIOTAP_TX ++ f, ap') /\ ap_ok ap' /\
    ap_stations ap' = ap_stations ap /\ ap_igtk ap' = ap_igtk ap /\
    ap_igtk_ipn ap' = inc_ipn_le (ap_igtk_ipn ap) /\
    parse f = Val (Some d) /\ subtype d = SUBTYPE_DEAUTH /\ addr1 d = replicate 6 0xff /\ addr2 d = ap_mac ap /\
    take 2 (body d) = le_bytes 2 reason /\
    bip_verify (ap_igtk ap) (fc0 d) (fc1 d) (addr1 d) (addr2 d) (addr3 d) (body d) = Val true /\
    bip_ipn (body d) = Val (Some (le_val (inc_ipn_le (ap_igtk_ipn ap)))).
Proof.
  intros H Hr. destruct (ao_igtk_ipn ap H) as [Hil Hiw].
  destruct (inc_ipn_le_spec _ Hiw) as (Hl & Hw & _).
  assert (Hipn : arr 6 (inc_ipn_le (ap_igtk_ipn ap))) by (split; [lia|done]).
  set (ap1 := ap <| ap_igtk_ipn := inc_ipn_le (ap_igtk_ipn ap) |>).
  assert (H1 : ap_ok ap1) by (unfold ap1; keep_ap_ok H).
  set (bc := replicate 6 0xff). assert (Hbc : arr 6 bc) by (by apply (bool_decide_unpack _)).
  pose proof (ao_mac ap H) as Hmac. pose proof (next_sc_range ap1) as Hsc.
  destruct (bip_protect_verify (ap_igtk ap) (ap_igtk_key_id ap) (inc_ipn_le (ap_igtk_ipn ap))
    (build_fc0 TYPE_MGMT SUBTYPE_DEAUTH) 0 bc (ap_mac ap) (ap_mac ap) (le_bytes 2 reason))
    as (mic & p & _ & Hp & Epb & Hpw & Hv & Hi);
    [apply H|done|by vm_compute|by vm_compute|done|done|done|auto with bytes|].
  exists (dot11_header TYPE_MGMT SUBTYPE_DEAUTH 0 bc (ap_mac ap) (ap_mac ap) (next_sc ap1).1 ++ p).
  exists {| fc0 := build_fc0 TYPE_MGMT SUBTYPE_DEAUTH; fc1 := 0; addr1 := bc; addr2 := ap_mac ap;
            addr3 := ap_mac ap; sc := (next_sc ap1).1; qos := None; body := p |}, (next_sc ap1).2.
  split.
  - unfold group_deauth. fold ap1. rewrite (surjective_pairing (next_sc ap1)).
    change (ap_mac (next_sc ap1).2) with (ap_mac ap). change (ap_igtk (next_sc ap1).2) with (ap_igtk ap).
    change (ap_igtk_key_id (next_sc ap1).2) with (ap_igtk_key_id ap).
    change (ap_igtk_ipn (next_sc ap1).2) with (inc_ipn_le (ap_igtk_ipn ap)).
    unfold build_group_deauth_bip. fold bc.
    rewrite !idx_ok by (rewrite length_dot11_header by done; lia). cbn [rbind].
    change (nth 0 _ 0) with (build_fc0 TYPE_MGMT SUBTYPE_DEAUTH). change (nth 1 _ 0) with 0.
    rewrite Hp. reflexivity.
  - split; [by apply next_sc_ok|]. do 3 (split; [done|]). split; [by apply parse_header|].
    split; [by vm_compute|]. do 2 (split; [done|]). cbn [body fc0 fc1 addr1 addr2 addr3].
    split; [|done]. rewrite Epb. by rewrite take_app_le by len.
Qed.

End GroupDeauth.

(** * Claims *)

Section Claims.
Context {P : Primitives} {Pok : PrimitivesOk P} {E : Entropy} {Eok : EntropyOk E}.

(** What a rekey of a shared key leaves: the keys of the BSS at the other index,
    and each associated station told of them. *)
Definition shared_rekeyed (now : Z) (ap : Ap) (frames : list bytes) (ap' : Ap) : Prop :=
  ap_gtk ap' = take 16 (os_random (ap_draws ap) 32) /\ ap_gtk_key_id ap' <> ap_gtk_key_id ap /\
  ap_igtk ap' = os_random (ap_draws ap + 1)%N 16 /\ ap_igtk_key_id ap' <> ap_igtk_key_id ap /\
  forall sta s, ap_stations ap !! sta = Some s ->
    if st_associated s then
      exists r f, (RADIOTAP_TX ++ f) ∈ frames /\
        ap_stations ap' !! sta = Some (rekeyed now r (RADIOTAP_TX ++ f) s) /\
        (ap_mld ap = false -> told (ap_mac ap) sta s r (bss_keys ap') f) /\
        (u64_ok (ap_eapol_replay_counter ap + Z.of_nat (length frames)) -> ap_eapol_replay_counter ap < r)
    else ap_stations ap' !! sta = Some s.

(** What a rekey in per-station mode leaves: each associated station with keys of
    its own at the other index of its slots, and told of them. *)
Definition stations_rekeyed (now : Z) (ap : Ap) (frames : list bytes) (ap' : Ap) : Prop :=
  ap_gtk ap' = take 16 (os_random (ap_draws ap + 1)%N 32) /\
  forall sta s, ap_stations ap !! sta = Some s ->
    if st_associated s then
      exists gtk igtk r f, (RADIOTAP_TX ++ f) ∈ frames /\ arr 16 gtk /\ arr 16 igtk /\
        let s1 := rotate_own_keys gtk igtk r s in
        ap_stations ap' !! sta = Some (timer_armed (msg1_pending now (RADIOTAP_TX ++ f) s1)) /\
        st_gtk_key_id s1 <> st_gtk_key_id s /\
        (ap_mld ap = false -> told (ap_mac ap) sta s r (own_keys 0 s1) f) /\
        (u64_ok (ap_eapol_replay_counter ap + Z.of_nat (length frames)) -> ap_eapol_replay_counter ap < r)
    else ap_stations ap' !! sta = Some s.

Lemma shared_rekey now order ap :
  ap_ok ap -> iteration_order ap order -> any_station st_group_rekeying ap = false -> ap_per_sta_vif ap = false ->
  exists frames ap', rekey_gtk now order ap = Val (frames, ap') /\ ap_ok ap' /\ ap_group_pn ap' = 1 /\
    length frames = length (List.filter (is_associated ap) order) /\ shared_rekeyed now ap frames ap'.
Proof.
  intros H Hord Hany Hvif.
  destruct (rekey_bss now order ap H Hord Hany Hvif) as (frames & ap' & Hr & H' & G' & _ & Hlen & Hsta).
  destruct (rotate_bss_keys_spec now ap H) as (_ & _ & _ & _ & Eg & Ei & Egid & Eiid & Epn & _).
  assert (Eb : bss_keys ap' = bss_keys (rotate_bss_keys now ap)).
  { unfold group_state in G'. unfold bss_keys, current_group_rsc. f_equal; congruence. }
  assert (Eall : ap_gtk ap' = ap_gtk (rotate_bss_keys now ap) /\
    ap_gtk_key_id ap' = ap_gtk_key_id (rotate_bss_keys now ap) /\
    ap_igtk ap' = ap_igtk (rotate_bss_keys now ap) /\
    ap_igtk_key_id ap' = ap_igtk_key_id (rotate_bss_keys now ap) /\
    ap_group_pn ap' = ap_group_pn (rotate_bss_keys now ap))
    by (unfold group_state in G'; repeat split; congruence).
  destruct Eall as (F1 & F2 & F3 & F4 & F5). rewrite <- Eb in Hsta.
  exists frames, ap'. split; [exact Hr|]. split; [exact H'|]. split; [congruence|]. split; [exact Hlen|].
  unfold shared_rekeyed. rewrite F1, F2, F3, F4. split; [exact Eg|].
  split; [rewrite Egid; apply other_gtk_id_ne|]. split; [exact Ei|]. split; [rewrite Eiid; apply other_igtk_id_ne|].
  intros sta s Es. specialize (Hsta sta s Es). destruct (st_associated s); [|exact Hsta].
  destruct Hsta as (s' & r & f & Es' & Hf & (f0 & -> & -> & Htold) & Hfresh).
  exists r, f0. split; [exact Hf|]. split; [exact Es'|]. split; [exact Htold|exact Hfresh].
Qed.

Lemma per_station_rekey now order ap :
  ap_ok ap -> iteration_order ap order -> any_station st_group_rekeying ap = false -> ap_per_sta_vif ap = true ->
  exists frames ap', rekey_gtk now order ap = Val (frames, ap') /\ ap_ok ap' /\ ap_group_pn ap' = 1 /\
    length frames = length (List.filter (is_associated ap) order) /\ stations_rekeyed now ap frames ap'.
Proof.
  intros H Hord Hany Hvif.
  destruct (rotate_base_keys_spec now ap H) as (H0 & S0 & St0 & C0 & Eg & Epn & Ersc).
  unfold rekey_gtk, rekey_gtk_per_sta. rewrite Hany, Hvif, Ersc.
  destruct (rekey_all (rekey_own_station now 0)
    (fun sta s r f s' => exists gtk igtk, arr 16 gtk /\ arr 16 igtk /\
       served now (ap_mac ap) (ap_mld ap) (own_keys 0 (rotate_own_keys gtk igtk r s)) sta s
         (rotate_own_keys gtk igtk r s) r f s') ap (rotate_base_keys now ap) order)
    as (frames & ap' & Hr & H' & G' & _ & Hlen & Hsta); try done.
  { intros frames ap1 sta s H1 St1 Es. apply rekey_own_station_spec; try done; unfold ap_static in St1; congruence. }
  exists frames, ap'. split; [exact Hr|]. split; [exact H'|].
  split; [rewrite <- Epn; unfold group_state in G'; congruence|]. split; [exact Hlen|].
  split; [rewrite <- Eg; unfold group_state in G'; congruence|].
  intros sta s Es. specialize (Hsta sta s Es). destruct (st_associated s); [|exact Hsta].
  destruct Hsta as (s' & r & f & Es' & Hf & (gtk & igtk & Hg & Hi & f0 & -> & -> & Htold) & Hfresh).
  exists gtk, igtk, r, f0. split; [exact Hf|]. split; [exact Hg|]. split; [exact Hi|].
  split; [exact Es'|]. split; [|split; [exact Htold|exact Hfresh]].
  unfold rotate_own_keys. fields. apply other_gtk_id_ne.
Qed.


(** Group deauthentication. The frame is built with the next management packet
    number (one more, modulo 2^48); a receiver that holds the IGTK parses it,
    verifies its MIC and reads the reason and exactly that packet number, and two
    successive frames never carry the same one. *)
Lemma group_deauth_verifies reason ap :
  ap_ok ap -> 0 <= reason < 2 ^ 16 ->
  exists f d ap', group_deauth reason ap = Val (RADIOTAP_TX ++ f, ap') /\ ap_ok ap' /\
    ap_stations ap' = ap_stations ap /\ parse f = Val (Some d) /\ subtype d = SUBTYPE_DEAUTH /\
    addr1 d = replicate 6 0xff /\ take 2 (body d) = le_bytes 2 reason /\
    bip_verify (ap_igtk ap) (fc0 d) (fc1 d) (addr1 d) (addr2 d) (addr3 d) (body d) = Val true /\
    bip_ipn (body d) = Val (Some ((le_val (ap_igtk_ipn ap) + 1) mod 2 ^ 48)) /\
    le_val (ap_igtk_ipn ap') = (le_val (ap_igtk_ipn ap) + 1) mod 2 ^ 48.
Proof.
  intros H Hr.
  destruct (group_deauth_frame reason ap H Hr) as (f & d & ap' & A & B & C & _ & Ei & Hp & Hs & A1 & _ & Hb & Hv & Hi).
  destruct (ao_igtk_ipn ap H) as [Hil Hiw]. destruct (inc_ipn_le_spec _ Hiw) as (_ & _ & Hinc).
  rewrite Hil in Hinc. change (256 ^ Z.of_nat 6) with (2 ^ 48) in Hinc.
  exists f, d, ap'. rewrite Ei, <- Hinc. done.
Qed.

End Claims.

(** ** Witnesses *)

Lemma demo_order : iteration_order demo_connected [demo_sta].
Proof.
  split; [apply NoDup_singleton|]. intros m. rewrite list_elem_of_singleton.
  change (ap_stations demo_connected) with (<[demo_sta := demo_associated]> (∅ : gmap bytes Station)).
  destruct (decide (m = demo_sta)) as [->|Hne].
  - split; [intros _; rewrite lookup_insert_eq; by eexists|done].
  - split; [done|]. rewrite lookup_insert_ne, lookup_empty by done. by intros [].
Qed.

Lemma demo_not_rekeying : any_station st_group_rekeying demo_connected = false.
Proof. vm_compute. reflexivity. Qed.


Definition demo_vif : Ap := demo_connected <| ap_per_sta_vif := true |>.
Lemma demo_vif_ok : ap_ok demo_vif.
Proof. pose proof demo_connected_ok as H. unfold demo_vif. revert H. generalize demo_connected. intros ap H. keep_ap_ok H. Qed.
