(* ===== verification/ApBeacon.v ===== *)
(** What the access point advertises about itself: src/ap/beacon.rs, the
    advertisement half of src/ap/mlo.rs, the probe response of
    src/ap/receive.rs and the advertisement setters of src/ap/configuration.rs. *)
From S2P Require Import Prelude Elements Crypto Security Frames Channels Roaming Kde Rsn Advert Mlo Ap ApConfig Demo.

(** * Configuration setters *)

Definition announce_channel_switch (new_channel count : Z) (ap : Ap) : Ap :=
  ap <| ap_pending_csa := Some (new_channel, count) |>.
Definition enable_multi_bssid (ap : Ap) : Ap := ap <| ap_multi_bssid := true |>.
Definition enable_rnr_6ghz (channel : Z) (ap : Ap) : Ap := ap <| ap_rnr_6ghz := Some channel |>.
Definition set_mld_default_link_mask (mask : Z) (ap : Ap) : Ap :=
  ap <| ap_mld_default_link_mask := Some mask |>.
Definition set_country (country : bytes) (ap : Ap) : Ap := ap <| ap_country := country |>.
Definition set_phy (phy : PhyMode) (ap : Ap) : Ap := ap <| ap_phy_mode := phy |>.

(** [eml & !EMLSR_DELAY_MASKS]: the delay fields are cleared. *)
Definition set_mld_driver_capabilities (eml mld : Z) (ap : Ap) : Ap :=
  ap <| ap_mld_eml_capability := Z.land eml (Z.lxor 0xffff (Z.lor 0x000e 0x0070)) |>
     <| ap_mld_driver_capability := Some mld |>.

Definition set_mld_link_phy_capabilities (link_id : Z) (caps : PhyCapabilities) (ap : Ap) : Ap :=
  ap <| ap_mld_link_phy_capabilities := <[link_id := caps]> (ap_mld_link_phy_capabilities ap) |>.

(** [self.boottime.elapsed().as_micros() as u64] *)
Definition current_timestamp (now : Z) (ap : Ap) : Z := u64 (duration_since now (ap_boottime ap) / 1000).

(** * Multi-link advertisement (ap/mlo.rs) *)

Definition mld_max_simultaneous_links_minus_one (ap : Ap) : Z :=
  Z.min (Z.of_nat (length (active_mld_links ap) - 1)) 0x0f.

Definition advertised_mld_capability (ap : Ap) : Z :=
  let active := mld_max_simultaneous_links_minus_one ap in
  match ap_mld_driver_capability ap with
  | Some driver =>
      let maximum := Z.land driver 0x000f in
      Z.lor (Z.lor (Z.land driver (Z.lxor 0xffff (Z.lor 0x000f 0x0060))) (Z.min active maximum)) 0x2000
  | None => active
  end.

Definition mld_basic_element (link_id : Z) (link_info : bytes) (ap : Ap) : res bytes :=
  multi_link_ap_basic_capabilities (ap_mld_mac ap) link_id (ap_bss_change_count ap)
    (ap_mld_eml_capability ap) (advertised_mld_capability ap) link_info.

Definition mld_tid_to_link_element (ap : Ap) : res bytes :=
  match ap_mld_default_link_mask ap with
  | Some mask => tid_to_link_mapping_same_set mask
  | None => Val []
  end.

(** [1u16 << link_id]: the shift amount is taken modulo the width. *)
Definition mld_link_disabled (link_id : Z) (ap : Ap) : bool :=
  match ap_mld_default_link_mask ap with
  | Some mask => Z.land mask (Z.shiftl 1 (link_id mod 16)) =? 0
  | None => false
  end.

Definition link_report (ap : Ap) (link : MldLink) : bytes :=
  mld_reduced_neighbor_report_with_disabled (ml_mac link) (ap_ssid ap)
    (operating_class (ml_channel link) (ml_width link) (ml_band6 link)) (ml_channel link) 0
    (ml_link_id link) (ap_bss_change_count ap) (mld_link_disabled (ml_link_id link) ap).

Definition mld_rnr_for (reporting_link_id : Z) (ap : Ap) : bytes :=
  if negb (ap_mld ap) then []
  else concat (map (link_report ap)
         (List.filter (fun link => negb (ml_link_id link =? reporting_link_id)) (active_mld_links ap))).

Definition link_phy (link : MldLink) (ap : Ap) (start : nat) (inner : bytes) : res bytes :=
  match ap_mld_link_phy_capabilities ap !! ml_link_id link with
  | Some caps => apply_phy_capabilities inner start caps
  | None => Val inner
  end.

(** One partner link's profile in a beacon or probe response. *)
Definition link_profile (ap : Ap) (link : MldLink) : res bytes :=
  let! inner := ap_mld_profile_inner (ap_ssid ap) (ml_channel link) (ap_country ap) (ml_width link)
                  (ml_band6 link) (ap_wmm ap) (ap_phy_mode ap) (security_mode ap) (ap_punct ap) in
  let! inner := link_phy link ap 2 inner in
  per_sta_profile (ml_link_id link) (ml_mac link) inner.

Definition mld_link_info_for (link_id : Z) (ap : Ap) : res bytes :=
  if negb (ap_mld ap) then Val []
  else rfold (fun info link =>
         if ml_link_id link =? link_id then Val info
         else let! p := link_profile ap link in Val (info ++ p)) [] (active_mld_links ap).

Definition association_link_id (ap : Ap) : Z := default (ap_link_id ap) (ap_mgmt_rx_link ap).

Definition association_link (ap : Ap) : option MldLink :=
  if negb (ap_mld ap) then None
  else List.find (fun link => ml_link_id link =? association_link_id ap) (active_mld_links ap).

Definition link_resp_ies (ap : Ap) (link : MldLink) : res bytes :=
  resp_ies (ap_ssid ap) (ml_channel link) (ap_country ap) (ml_width link) (ml_band6 link)
    (ap_wmm ap) (ap_phy_mode ap) [] (ap_punct ap).

(** One partner link's profile in an association response. *)
Definition link_assoc_profile (ap : Ap) (reporting_ids : option (bytes * bytes)) (link : MldLink) :
    res bytes :=
  let! inner := ap_mld_assoc_profile_inner (ap_ssid ap) (ml_channel link) (ap_country ap) (ml_width link)
                  (ml_band6 link) (ap_wmm ap) (ap_phy_mode ap) (ap_punct ap) in
  let! inner := link_phy link ap 4 inner in
  let! inner :=
    match reporting_ids with
    | Some reporting =>
        let! partner := link_resp_ies ap link in
        let! reported := element_id_sets partner in
        Val (inner ++ non_inheritance_element reporting reported)
    | None => Val inner
    end in
  per_sta_profile_assoc (ml_link_id link) (ml_mac link) inner (ap_bss_change_count ap).

Definition mld_assoc_link_info_for (requested : list (Z * bytes)) (ap : Ap) : res bytes :=
  if negb (ap_mld ap) then Val []
  else
    let! reporting_ids :=
      match association_link ap with
      | Some link => let! ies := link_resp_ies ap link in rmap Some (element_id_sets ies)
      | None => Val None
      end in
    rfold (fun info link =>
      if negb (existsb (fun r => r.1 =? ml_link_id link) requested) then Val info
      else let! p := link_assoc_profile ap reporting_ids link in Val (info ++ p))
      [] (active_mld_links ap).

(** The multi-link elements at the end of a frame sent on [link_id]. *)
Definition append_multi_link (link_id : Z) (ap : Ap) (frame : bytes) : res bytes :=
  if ap_mld ap then
    let! info := mld_link_info_for link_id ap in
    let! basic := mld_basic_element link_id info ap in
    let! mapping := mld_tid_to_link_element ap in
    Val (frame ++ mld_rnr_for link_id ap ++ basic ++ mapping)
  else Val frame.

(** [enable_beacon_protection_capability(&mut frame[off..])] *)
Definition protect_capability (off : nat) (ap : Ap) (frame : bytes) : res bytes :=
  if ap_beacon_prot ap then
    let! ies := slice_from frame off in
    let! r := enable_beacon_protection_capability ies in
    Val (take off frame ++ r.2)
  else Val frame.

(** * Beacons (ap/beacon.rs) *)

Definition beacon_on (ap : Ap) (now : Z) (link : MldLink) : res bytes :=
  (if ml_band6 link then build_beacon_6ghz else build_beacon)
    (ml_mac link) (ap_ssid ap) (ml_channel link) (current_timestamp now ap) (advertised_security_tail ap)
    (ap_country ap) (ml_width link) (ap_wmm ap) (ap_phy_mode ap) (ap_punct ap).

Definition append_multiple_bssid (ap : Ap) (frame : bytes) : bytes :=
  if ap_multi_bssid ap then frame ++ multiple_bssid_element 0 else frame.

Definition append_rnr_6ghz (mac : bytes) (ap : Ap) (frame : bytes) : res bytes :=
  match ap_rnr_6ghz ap with
  | Some ch6 =>
      let! b5 := idx mac 5 in
      Val (frame ++ reduced_neighbor_report (<[5%nat := Z.lxor b5 0x10]> mac) 131 ch6)
  | None => Val frame
  end.

Definition beacon_frame_unprotected_for_link (now : Z) (link : MldLink) (ap : Ap) : res bytes :=
  let! frame := beacon_on ap now link in
  let! frame := protect_capability 36 ap frame in
  let frame := append_multiple_bssid ap frame in
  let! frame := append_rnr_6ghz (ml_mac link) ap frame in
  append_multi_link (ml_link_id link) ap frame.

(** The pending channel switch: announce it, and count down or switch. *)
Definition csa_advance (ap : Ap) (frame : bytes) : bytes * Ap :=
  match ap_pending_csa ap with
  | Some (nch, count) =>
      (frame ++ csa_element nch count,
       if count =? 0 then ap <| ap_channel := nch |> <| ap_pending_csa := None |>
       else ap <| ap_pending_csa := Some (nch, count - 1) |>)
  | None => (frame, ap)
  end.

Definition own_link (ap : Ap) : MldLink := {|
  ml_link_id := ap_link_id ap; ml_mac := ap_mac ap; ml_channel := ap_channel ap;
  ml_width := ap_channel_width ap; ml_band6 := ap_band6 ap |}.

Section Beacons.
Context {P : Primitives}.

(** Everything before the Management MIC element. *)
Definition beacon_body (now : Z) (ap : Ap) : res (bytes * Ap) :=
  let! frame := beacon_on ap now (own_link ap) in
  let! frame := protect_capability 36 ap frame in
  let (frame, ap) := csa_advance ap frame in
  let frame := append_multiple_bssid ap frame in
  let! frame := append_rnr_6ghz (ap_mac ap) ap frame in
  let! frame := append_multi_link (ap_link_id ap) ap frame in
  Val (frame, ap).

Definition beacon_frame_inner (protect : bool) (now : Z) (ap : Ap) : res (bytes * Ap) :=
  let! '(frame, ap) := beacon_body now ap in
  if ap_beacon_prot ap && protect then
    let ap := ap <| ap_bigtk_ipn := inc_ipn_le (ap_bigtk_ipn ap) |> in
    let! fc0 := idx frame 0 in
    let! fc1 := idx frame 1 in
    let! rest := slice_from frame 24 in
    let! b := bip_protect (ap_bigtk ap) (ap_bigtk_key_id ap) (ap_bigtk_ipn ap) fc0 fc1
                (replicate 6 0xff) (ap_mac ap) (ap_mac ap) rest in
    Val (RADIOTAP_TX ++ take 24 frame ++ b, ap)
  else Val (RADIOTAP_TX ++ frame, ap).

Definition beacon_frame (now : Z) (ap : Ap) : res (bytes * Ap) := beacon_frame_inner true now ap.
Definition beacon_frame_unprotected (now : Z) (ap : Ap) : res (bytes * Ap) := beacon_frame_inner false now ap.

End Beacons.

(** * Probe responses (ap/receive.rs) *)

Definition probed_link (ap : Ap) : MldLink :=
  match (if ap_mld ap then ap_mgmt_rx_link ap else None) with
  | Some lid =>
      match List.find (fun link => ml_link_id link =? lid) (active_mld_links ap) with
      | Some link => link
      | None => own_link ap
      end
  | None => own_link ap
  end.

Definition send_probe_resp (now : Z) (dst : bytes) (ap : Ap) (out : Outgoing) : res (Ap * Outgoing) :=
  let link := probed_link ap in
  let (sc, ap) := next_sc ap in
  let! frame := build_probe_resp (ml_mac link) dst (ap_ssid ap) (ml_channel link) (current_timestamp now ap)
                  sc (advertised_security_tail ap) (ap_country ap) (ml_width link) (ml_band6 link)
                  (ap_wmm ap) (ap_phy_mode ap) (ap_punct ap) in
  let! frame := protect_capability 36 ap frame in
  let! frame := append_multi_link (ml_link_id link) ap frame in
  Val (ap, out_tx frame out).

Definition handle_probe_req (now : Z) (frame : Dot11) (ap : Ap) (out : Outgoing) : res (Ap * Outgoing) :=
  let! ssid := find_ssid (body frame) in
  match ssid with
  | Some s =>
      if (length s =? 0)%nat then send_probe_resp now (addr2 frame) ap out
      else if beq s (ap_ssid ap) then send_probe_resp now (addr2 frame) ap out
      else Val (ap, out)
  | None => Val (ap, out)
  end.

(** * Advertisement is total and well-formed *)

Definition link_ok (l : MldLink) : Prop := is_byte (ml_link_id l) /\ arr 6 (ml_mac l) /\ is_byte (ml_channel l).

Definition caps_ok (c : PhyCapabilities) : Prop :=
  opt_ok wf_bytes (pc_ht c) /\ opt_ok wf_bytes (pc_vht c) /\ opt_ok wf_bytes (pc_he c) /\ opt_ok wf_bytes (pc_eht c).

(** The advertised configuration has the types of the Rust fields, and the SSID
    fits an element. *)
Record bss_ok (ap : Ap) : Prop := {
  bo_ssid : wf_bytes (ap_ssid ap);
  bo_ssid_len : (length (ap_ssid ap) <= 255)%nat;
  bo_country : wf_bytes (ap_country ap);
  bo_channel : is_byte (ap_channel ap);
  bo_mac : arr 6 (ap_mac ap);
  bo_mld_mac : arr 6 (ap_mld_mac ap);
  bo_link_id : is_byte (ap_link_id ap);
  bo_links : Forall link_ok (ap_mld_links ap);
  bo_count : is_byte (ap_bss_change_count ap);
  bo_phy : map_Forall (fun _ c => caps_ok c) (ap_mld_link_phy_capabilities ap);
  bo_csa : opt_ok (fun c => is_byte c.1 /\ is_byte c.2) (ap_pending_csa ap);
  bo_rnr : opt_ok is_byte (ap_rnr_6ghz ap)
}.

Lemma own_link_ok ap : bss_ok ap -> link_ok (own_link ap).
Proof. intros H. split; [apply H|]. split; apply H. Qed.

Lemma active_links_wf ap : bss_ok ap -> Forall link_ok (active_mld_links ap).
Proof.
  intros H. unfold active_mld_links. destruct (ap_mld ap && _); [apply H|].
  constructor; [by apply own_link_ok|done].
Qed.

Lemma with_radio_wf caps ts : caps_ok caps -> Forall element_wf ts -> Forall element_wf (with_radio caps ts).
Proof.
  intros (H1 & H2 & H3 & H4) Hts.
  assert (Hput : forall id x o us, is_byte id -> (forall y, x = Some y -> is_byte y) -> opt_ok wf_bytes o ->
    Forall element_wf us -> Forall element_wf (put_optional id x o us)).
  { intros id x [b|] us Hid Hx Hb Hus; [by apply put_element_wf|done]. }
  unfold with_radio.
  repeat (apply Hput; [by apply (bool_decide_unpack _)|intros y [= <-]; by apply (bool_decide_unpack _)|done|]).
  done.
Qed.

(** The profile of a link: fixed fields, then the elements of its own response
    with the radio's capabilities and without the SSID. *)
Lemma link_phy_spec ap link pre ts :
  bss_ok ap -> elements_ok ts ->
  exists us, link_phy link ap (length pre) (pre ++ encode_elements ts) = Val (pre ++ encode_elements us) /\
    elements_ok us.
Proof.
  intros H [Hs Hw]. unfold link_phy.
  destruct (ap_mld_link_phy_capabilities ap !! ml_link_id link) as [caps|] eqn:E; [|by exists ts].
  exists (with_radio caps ts). rewrite apply_phy_capabilities_spec by done. split; [done|]. split.
  - by apply with_radio_short.
  - apply with_radio_wf; [|done]. exact (bo_phy ap H _ _ E).
Qed.

Lemma ap_capability_arr channel band6 : arr 2 (ap_capability channel band6).
Proof.
  unfold ap_capability. destruct band6; [apply arr_le_bytes|].
  destruct (is_5ghz channel); [apply arr_le_bytes|]. by apply (bool_decide_unpack _).
Qed.

Lemma filter_ok ts : elements_ok ts -> elements_ok (List.filter not_ssid ts).
Proof.
  intros [Hs Hw]. induction Hs as [|t ts Ht Hs IH]; [done|].
  inversion Hw as [|? ? Htw Hw']; subst. cbn [List.filter]. destruct (IH Hw').
  destruct (not_ssid t); [split; by constructor|done].
Qed.

Lemma bss_elements_ok ap link rsn tim :
  bss_ok ap -> link_ok link -> elements_ok rsn -> elements_ok tim ->
  elements_ok (bss_elements (ap_ssid ap) (ml_channel link) (ap_country ap) (ml_width link) (ml_band6 link)
    (ap_wmm ap) (ap_phy_mode ap) rsn tim (ap_punct ap)).
Proof.
  intros H (_ & _ & Hc) [Hr1 Hr2] [Ht1 Ht2]. split.
  - apply bss_elements_short; [apply H|done|done].
  - apply bss_elements_wf; try done; apply H.
Qed.

Lemma link_args ap link : bss_ok ap -> link_ok link -> bss_args_ok (ap_ssid ap) (ml_channel link) (ap_country ap).
Proof. intros H (_ & _ & Hc). split; [apply H|]. split; [apply H|]. split; [done|apply H]. Qed.

Lemma link_profile_ok' ap link :
  bss_ok ap -> link_ok link -> exists out, link_profile ap link = Val out /\ wf_bytes out.
Proof.
  intros H Hl. unfold link_profile.
  destruct (ap_mld_profile_spec (ap_ssid ap) (ml_channel link) (ap_country ap) (ml_width link) (ml_band6 link)
    (ap_wmm ap) (ap_phy_mode ap) (security_mode ap) (ap_punct ap) (link_args ap link H Hl)) as (rs & Hrs & Hs & E).
  destruct (security_tail_elements (security_mode ap)) as (rs' & Hrs' & Hs' & Hw').
  rewrite Hrs in Hrs'. assert (rs = rs') as ->.
  { rewrite <- (elements_encode rs), <- (elements_encode rs') by done. by rewrite Hrs'. }
  rewrite E. cbn [rbind].
  set (ts := List.filter not_ssid _).
  assert (Hok : elements_ok ts) by (apply filter_ok, bss_elements_ok; done).
  pose proof (ap_capability_arr (ml_channel link) (ml_band6 link)) as [Hcl Hcw].
  destruct (link_phy_spec ap link (ap_capability (ml_channel link) (ml_band6 link)) ts H Hok) as (us & E' & _ & Huw).
  rewrite Hcl in E'. rewrite E'. cbn [rbind]. apply per_sta_profile_ok; [apply Hl| |done].
  apply wf_bytes_app; [done|by apply wf_encode].
Qed.

Lemma mld_link_info_ok ap link_id :
  bss_ok ap -> exists info, mld_link_info_for link_id ap = Val info /\ wf_bytes info.
Proof.
  intros H. unfold mld_link_info_for. destruct (ap_mld ap); cbn [negb]; [|eexists; split; [done|apply wf_bytes_nil]].
  apply rfold_inv; [|apply wf_bytes_nil]. intros info link Hi Hin.
  destruct (ml_link_id link =? link_id); [by eexists|].
  pose proof (active_links_wf ap H) as Hl. rewrite Forall_forall in Hl.
  destruct (link_profile_ok' ap link H (Hl link Hin)) as (p & -> & Hp). cbn [rbind].
  eexists. split; [done|]. by apply wf_bytes_app.
Qed.

Lemma link_report_ok ap link :
  bss_ok ap -> link_ok link ->
  exists b, link_report ap link = ie 201 b /\ short_element (201, b) /\ wf_bytes b.
Proof.
  intros H (Hid & [Hml Hmw] & Hc). unfold link_report, mld_reduced_neighbor_report_with_disabled.
  eexists. split; [reflexivity|]. split.
  { unfold short_element. cbn [snd]. rewrite !length_app, Hml, length_le_bytes. simpl. lia. }
  pose proof (bo_count ap H) as Hn.
  assert (Hl : forall b m, is_byte b -> 0 <= m -> is_byte (Z.land b m)).
  { intros b m Hb Hm. exact (land_range 8 b m ltac:(lia) Hb Hm). }
  assert (Hsh : is_byte (Z.shiftr (ap_bss_change_count ap) 4)).
  { unfold is_byte in *. rewrite Z.shiftr_div_pow2 by lia. change (2 ^ 4) with 16.
    split; [apply Z.div_pos; lia|]. apply Z.div_lt_upper_bound; lia. }
  octets; try done. apply wf_bytes_cons; [apply lor_byte; [by apply Hl|octet]|].
  apply wf_bytes_cons; [|octets].
  destruct (mld_link_disabled (ml_link_id link) ap); [apply lor_byte; [by apply Hl|by apply (bool_decide_unpack _)]|by apply Hl].
Qed.

Lemma mld_rnr_elements ap link_id :
  bss_ok ap -> exists ts, mld_rnr_for link_id ap = encode_elements ts /\ elements_ok ts /\
    Forall (fun t => t.1 = 201) ts.
Proof.
  intros H. unfold mld_rnr_for. destruct (ap_mld ap); cbn [negb]; [|by exists []].
  pose proof (active_links_wf ap H) as Hl. induction Hl as [|link links Hlink _ IH]; [by exists []|].
  destruct IH as (ts & E & [Hs Hw] & Hid). cbn [List.filter]. destruct (negb _); [|by exists ts].
  destruct (link_report_ok ap link H Hlink) as (b & Eb & Hb & Hbw). exists ((201, b) :: ts).
  cbn [map concat]. rewrite Eb, E, encode_elements_cons. split; [done|].
  split; [split|]; by constructor.
Qed.

(** The multi-link tail: reports, the Basic Multi-Link element and the mapping. *)
Lemma append_multi_link_spec ap link_id frame :
  bss_ok ap -> is_byte link_id ->
  exists ts, append_multi_link link_id ap frame = Val (frame ++ encode_elements ts) /\ elements_ok ts /\
    (ap_mld ap = true -> first_some mld_mac_of ts = Some (ap_mld_mac ap)) /\ (ap_mld ap = false -> ts = []).
Proof.
  intros H Hid. unfold append_multi_link. destruct (ap_mld ap) eqn:Hm.
  2:{ exists []. rewrite app_nil_r. done. }
  destruct (mld_link_info_ok ap link_id H) as (info & -> & Hi). cbn [rbind].
  unfold mld_basic_element, multi_link_ap_basic_capabilities.
  set (common := mle_common _ _ _ _ _).
  pose proof (bo_mld_mac ap H) as [Hml Hmw].
  destruct (ext_ie_ok 107 (common ++ info)) as (b & us & -> & Hus & _); [by apply (bool_decide_unpack _)| |].
  { apply wf_bytes_app; [|done]. unfold common, mle_common. octets; try done.
    - apply wf_bytes_cons; [|octets]. exact (land_range 8 link_id 0x0f ltac:(lia) Hid ltac:(lia)).
    - apply wf_bytes_cons; [apply H|octets]. }
  cbn [rbind].
  assert (Ht : exists tm, mld_tid_to_link_element ap = Val (encode_elements tm) /\ elements_ok tm).
  { unfold mld_tid_to_link_element. destruct (ap_mld_default_link_mask ap) as [m|]; [|by exists []].
    unfold tid_to_link_mapping_same_set. rewrite ext_ie_short by (cbn [replicate concat]; autorewrite with len; simpl; lia).
    exists [ext 109 ([2; 0xff] ++ concat (replicate 8 (le_bytes 2 m)))].
    rewrite encode_elements_cons, app_nil_r. split; [done|]. unfold ext. split; constructor; try done.
    - unfold short_element. cbn [snd replicate concat]. autorewrite with len. simpl. lia.
    - split; [by apply (bool_decide_unpack _)|]. cbn [snd replicate concat]. octets. }
  destruct Ht as (tm & -> & Htm). cbn [rbind].
  destruct (mld_rnr_elements ap link_id H) as (tr & -> & Htr & Hrid).
  exists (tr ++ ((255, 107 :: take 254 (common ++ info)) :: us) ++ tm). rewrite !encode_elements_app.
  split; [done|]. split; [auto using elements_ok_app|]. split; [intros _|done].
  clear Htr. induction Hrid as [|[id c] tr Hc _ IH]; cbn [app].
  - rewrite first_some_cons, mld_mac_of_eq, mle_data_ext. change (107 =? 107) with true. cbn iota.
    destruct (mle_common_spec (ap_mld_mac ap) link_id (ap_bss_change_count ap) (ap_mld_eml_capability ap)
      (advertised_mld_capability ap) info Hml) as (Hl & _ & Hb & _ & Hok & Hs & _).
    fold common in Hl, Hb, Hok, Hs. rewrite Hb, Hok, (proj2 (Nat.leb_le 9 _)) by lia. cbn [andb]. by rewrite Hs.
  - rewrite first_some_cons. cbn [fst] in Hc. subst id. destruct c as [|x c]; exact IH.
Qed.

(** ** The elements of a beacon *)

Lemma tail_elements ap :
  exists rs, advertised_security_tail ap = encode_elements rs /\ elements_ok rs.
Proof.
  exists (elements (advertised_security_tail ap)).
  unfold elements_ok, short_element, element_wf, wf_bytes, is_byte, advertised_security_tail, pairwise_ciphers.
  destruct (security_mode ap), (ap_pairwise_cipher ap);
    (split; [vm_compute; reflexivity|]); vm_compute; repeat (constructor || split || discriminate).
Qed.

Definition tim : list (Z * bytes) := [(5, [0; 1; 0; 0])].

Definition protected_elements (ap : Ap) (ts : list (Z * bytes)) : list (Z * bytes) :=
  if ap_beacon_prot ap then protect_elements ts else ts.

Definition bss_list (ap : Ap) (rsn tim : list (Z * bytes)) (link : MldLink) : list (Z * bytes) :=
  protected_elements ap
    (bss_elements (ap_ssid ap) (ml_channel link) (ap_country ap) (ml_width link) (ml_band6 link)
       (ap_wmm ap) (ap_phy_mode ap) rsn tim (ap_punct ap)).

Lemma bss_list_ok ap rsn tim link :
  bss_ok ap -> link_ok link -> elements_ok rsn -> elements_ok tim -> elements_ok (bss_list ap rsn tim link).
Proof.
  intros H Hl Hr Ht. destruct (bss_elements_ok ap link rsn tim H Hl Hr Ht) as [Hs Hw].
  unfold bss_list, protected_elements. destruct (ap_beacon_prot ap); [|done].
  split; [by apply protect_elements_short|by apply protect_elements_wf].
Qed.

Lemma protect_capability_spec ap head ts off :
  length head = off -> Forall short_element ts ->
  protect_capability off ap (head ++ encode_elements ts) =
  Val (head ++ encode_elements (protected_elements ap ts)).
Proof.
  intros <- Hs. unfold protect_capability, protected_elements. destruct (ap_beacon_prot ap); [|done].
  rewrite slice_from_ok by (rewrite length_app; lia). cbn [rbind]. rewrite drop_app_length, take_app_length.
  pose proof (protect_elements_spec ts Hs) as E. unfold rmap in E.
  destruct (enable_beacon_protection_capability (encode_elements ts)) as [r| |]; [|done|done].
  cbn [rbind] in *. injection E as ->. done.
Qed.

Definition csa_list (ap : Ap) : list (Z * bytes) :=
  match ap_pending_csa ap with Some (nch, count) => [(37, [1; nch; count])] | None => [] end.
Definition mbssid_list (ap : Ap) : list (Z * bytes) := if ap_multi_bssid ap then [(71, [0])] else [].

Lemma tim_ok : elements_ok tim.
Proof. split; repeat constructor; by apply (bool_decide_unpack _). Qed.

Lemma csa_list_ok ap : bss_ok ap -> elements_ok (csa_list ap).
Proof.
  intros H. pose proof (bo_csa ap H) as Hc. unfold csa_list. destruct (ap_pending_csa ap) as [[n c]|]; [|done].
  destruct Hc as [Hn Hc]. split; constructor; try done; [unfold short_element; simpl; lia|].
  split; [by apply (bool_decide_unpack _)|]. cbn [fst snd] in *. octets.
Qed.

Lemma mbssid_list_ok ap : elements_ok (mbssid_list ap).
Proof.
  unfold mbssid_list. destruct (ap_multi_bssid ap); [|done].
  split; repeat constructor; by apply (bool_decide_unpack _).
Qed.

Lemma append_rnr_spec mac ap frame :
  bss_ok ap -> arr 6 mac ->
  exists ts, append_rnr_6ghz mac ap frame = Val (frame ++ encode_elements ts) /\ elements_ok ts /\
    Forall (fun t => t.1 = 201) ts.
Proof.
  intros H [Hl Hw]. unfold append_rnr_6ghz. pose proof (bo_rnr ap H) as Hr.
  destruct (ap_rnr_6ghz ap) as [ch6|]; [|exists []; by rewrite app_nil_r].
  rewrite idx_ok by lia. cbn [rbind]. unfold reduced_neighbor_report. set (nb := <[5%nat := _]> mac).
  exists [(201, [0x00; 13; 131; ch6; 0xff] ++ nb ++ [0; 0; 0; 0] ++ [0x00; 0x00])].
  rewrite encode_elements_cons, app_nil_r. split; [done|].
  assert (Hnb : length nb = 6%nat) by (unfold nb; by rewrite length_insert).
  split; [split|]; constructor; try done.
  - unfold short_element. cbn [snd]. rewrite !length_app, Hnb. simpl. lia.
  - split; [by apply (bool_decide_unpack _)|]. cbn [snd]. cbn [opt_ok] in Hr. octets.
    apply wf_insert; [done|]. apply lxor_byte; [by apply wf_bytes_nth|by apply (bool_decide_unpack _)].
Qed.

(** The state a beacon leaves before it is protected. *)
Definition csa_next (ap : Ap) : Ap := (csa_advance ap []).2.

Lemma csa_advance_spec ap frame :
  csa_advance ap frame = (frame ++ encode_elements (csa_list ap), csa_next ap).
Proof.
  unfold csa_advance, csa_next, csa_list, csa_advance. destruct (ap_pending_csa ap) as [[n c]|].
  - rewrite encode_elements_cons, app_nil_r. done.
  - by rewrite app_nil_r.
Qed.

Lemma csa_next_ok ap : ap_ok ap -> bss_ok ap -> ap_ok (csa_next ap) /\ bss_ok (csa_next ap).
Proof.
  intros H B. pose proof (bo_csa ap B) as Hc. unfold csa_next, csa_advance.
  destruct (ap_pending_csa ap) as [[n c]|]; [|done]. destruct Hc as [Hn Hc]. cbn [fst snd] in *.
  destruct (Z.eqb_spec c 0); cbn [snd]; (split; [keep_ap_ok H|]); destruct B; constructor; fields; try assumption; cbn.
  - exact I.
  - unfold is_byte in *. lia.
Qed.

(** What every beacon carries before the protection element. *)
Lemma beacon_body_spec now ap :
  ap_ok ap -> bss_ok ap ->
  exists rsn more frame,
    beacon_body now ap = Val (frame, csa_next ap) /\
    advertised_security_tail ap = encode_elements rsn /\ elements_ok rsn /\
    frame = beacon_head (ap_mac ap) (ap_channel ap) (current_timestamp now ap) (ap_band6 ap) ++
      encode_elements (bss_list ap rsn tim (own_link ap) ++ csa_list ap ++ more) /\
    elements_ok (bss_list ap rsn tim (own_link ap) ++ csa_list ap ++ more).
Proof.
  intros H B. destruct (tail_elements ap) as (rsn & Ht & Hr).
  pose proof (own_link_ok ap B) as Hl. destruct (csa_next_ok ap H B) as [H' B'].
  unfold beacon_body, beacon_on. rewrite Ht. cbn [own_link ml_band6 ml_mac ml_channel ml_width].
  rewrite build_beacon_elements. cbn [rbind].
  assert (Hbl : elements_ok (bss_list ap rsn tim (own_link ap))) by (apply bss_list_ok; [done..|apply tim_ok]).
  rewrite protect_capability_spec; cycle 1.
  { apply length_beacon_head, H. }
  { by apply (bss_elements_ok ap (own_link ap)); [done..|apply tim_ok]. }
  cbn [rbind]. rewrite csa_advance_spec.
  assert (Hmb : forall f, append_multiple_bssid (csa_next ap) f = f ++ encode_elements (mbssid_list (csa_next ap))).
  { intros f. unfold append_multiple_bssid, mbssid_list. destruct (ap_multi_bssid _); [|by rewrite app_nil_r].
    by rewrite encode_elements_cons, app_nil_r. }
  rewrite Hmb.
  match goal with |- context [append_rnr_6ghz ?m ?a ?f] =>
    destruct (append_rnr_spec m a f B') as (tr & E & Htr & _); [apply H'|] end.
  rewrite E. cbn [rbind].
  match goal with |- context [append_multi_link _ _ ?f] => set (fr := f) end.
  destruct (append_multi_link_spec (csa_next ap) (ap_link_id (csa_next ap)) fr B' (bo_link_id _ B'))
    as (tl & E2 & Htl & _).
  exists rsn, (mbssid_list (csa_next ap) ++ tr ++ tl), (fr ++ encode_elements tl).
  split; [by rewrite E2|]. split; [done|]. split; [done|]. split.
  - unfold fr, bss_list. cbn [own_link ml_channel ml_width ml_band6]. rewrite !encode_elements_app.
    by rewrite <- !app_assoc.
  - repeat apply elements_ok_app; try done; [by apply csa_list_ok|apply mbssid_list_ok].
Qed.

(** * Beacon protection and channel switches *)

Section BeaconProps.
Context {P : Primitives} {POK : PrimitivesOk P}.

Definition count_beacon (protect : bool) (ap : Ap) : Ap :=
  if ap_beacon_prot ap && protect
  then (csa_next ap) <| ap_bigtk_ipn := inc_ipn_le (ap_bigtk_ipn ap) |> else csa_next ap.

Lemma beacon_head_wf mac channel ts band6 : wf_bytes mac -> wf_bytes (beacon_head mac channel ts band6).
Proof.
  intros Hm. pose proof (ap_capability_arr channel band6) as [_ Hc]. unfold beacon_head, dot11_header.
  octets; done.
Qed.

Lemma csa_next_fields ap :
  ap_beacon_prot (csa_next ap) = ap_beacon_prot ap /\ ap_bigtk (csa_next ap) = ap_bigtk ap /\
  ap_bigtk_key_id (csa_next ap) = ap_bigtk_key_id ap /\ ap_bigtk_ipn (csa_next ap) = ap_bigtk_ipn ap /\
  ap_mac (csa_next ap) = ap_mac ap.
Proof. unfold csa_next, csa_advance. destruct (ap_pending_csa ap) as [[n c]|]; [destruct (c =? 0)|]; done. Qed.

Definition bigtk_verified (ap : Ap) (f : bytes) : Prop :=
  bip_verify (ap_bigtk ap) (byte_at f 0) (byte_at f 1) (replicate 6 0xff) (ap_mac ap) (ap_mac ap)
    (drop 24 f) = Val true /\
  bip_ipn (drop 24 f) = Val (Some ((le_val (ap_bigtk_ipn ap) + 1) mod 2 ^ 48)).

Definition mme_element (key_id : Z) (ipn mic : bytes) : Z * bytes := (EID_MME, le_bytes 2 key_id ++ ipn ++ mic).

(** A body of complete elements protected by BIP: the MIC element is its last
    element, and the receiver verifies it and reads the packet number. *)
Lemma protected_elements_frame key key_id ipn mac head us :
  arr 16 key -> arr 6 ipn -> arr 6 mac -> length head = 36%nat -> wf_bytes head ->
  Forall short_element us -> Forall element_wf us ->
  let fr := head ++ encode_elements us in
  exists b e,
    bip_protect key key_id ipn (byte_at fr 0) (byte_at fr 1) (replicate 6 0xff) mac mac (drop 24 fr) = Val b /\
    take 24 fr ++ b = head ++ encode_elements (us ++ [e]) /\ short_element e /\ drop 24 (take 24 fr ++ b) = b /\
    bip_verify key (byte_at fr 0) (byte_at fr 1) (replicate 6 0xff) mac mac b = Val true /\
    bip_ipn b = Val (Some (le_val ipn)).
Proof.
  intros Hk [Hil Hiw] Hmac Hh Hhw Hs Hw fr.
  assert (Hfw : wf_bytes fr) by (apply wf_bytes_app; [done|by apply wf_encode]).
  assert (Hl : (36 <= length fr)%nat) by (unfold fr; rewrite length_app; lia).
  assert (Hd : wf_bytes (drop 24 fr)) by (by apply wf_bytes_drop).
  assert (Hbc : arr 6 (replicate 6 0xff)) by (by apply (bool_decide_unpack _)).
  destruct (bip_protect_verify key key_id ipn (byte_at fr 0) (byte_at fr 1) (replicate 6 0xff) mac mac (drop 24 fr))
    as (mic & p & Hmic & Ep & Hp & _ & Hv & Hi); try done; try (by apply wf_bytes_nth).
  set (m8 := sub mic 0 8) in *.
  assert (Hm8 : length m8 = 8%nat).
  { destruct (bip_mic key (byte_at fr 0) (byte_at fr 1) (replicate 6 0xff) mac mac
      (drop 24 fr ++ mme_head key_id ipn ++ replicate 8 0)) as (mic' & Hmic' & Hml & _); try done;
      try (by apply wf_bytes_nth).
    { apply wf_bytes_app; [done|]. unfold mme_head, EID_MME. octets; done. }
    rewrite Hmic' in Hmic. injection Hmic as ->. unfold m8. rewrite length_sub; lia. }
  exists p, (mme_element key_id ipn m8). split; [done|]. split; [|split; [|split; [|done]]].
  - rewrite Hp, app_assoc, take_drop. unfold fr. rewrite <- app_assoc. f_equal.
    rewrite encode_elements_snoc. f_equal. unfold mme_element, mme_head, ie. cbn [fst snd].
    rewrite !length_app, length_le_bytes, Hm8, Hil. by rewrite <- !app_assoc.
  - unfold short_element, mme_element. cbn [snd]. rewrite !length_app, length_le_bytes, Hm8, Hil. simpl. lia.
  - rewrite drop_app_ge; rewrite length_take, Nat.min_l by lia; [by rewrite Nat.sub_diag|lia].
Qed.

Lemma beacon_inner_spec protect now ap :
  ap_ok ap -> bss_ok ap ->
  exists rsn more f,
    beacon_frame_inner protect now ap = Val (RADIOTAP_TX ++ f, count_beacon protect ap) /\
    advertised_security_tail ap = encode_elements rsn /\ elements_ok rsn /\
    take 36 f = beacon_head (ap_mac ap) (ap_channel ap) (current_timestamp now ap) (ap_band6 ap) /\
    elements (drop 36 f) = bss_list ap rsn tim (own_link ap) ++ csa_list ap ++ more /\
    stream_tail (drop 36 f) = [] /\
    (ap_beacon_prot ap && protect = true -> bigtk_verified ap f).
Proof.
  intros H B. destruct (beacon_body_spec now ap H B) as (rsn & more & fr & E & Ht & Hr & Hf & Hok).
  unfold beacon_frame_inner. rewrite E. cbn [rbind].
  destruct (csa_next_fields ap) as (F1 & F2 & F3 & F4 & F5).
  destruct (csa_next_ok ap H B) as [H' _].
  rewrite F1. unfold count_beacon.
  set (head := beacon_head (ap_mac ap) (ap_channel ap) (current_timestamp now ap) (ap_band6 ap)) in *.
  set (us := bss_list ap rsn tim (own_link ap) ++ csa_list ap ++ more) in *.
  assert (Hh : length head = 36%nat) by (apply length_beacon_head, H).
  assert (Hhw : wf_bytes head) by (apply beacon_head_wf, H).
  destruct Hok as [Hs Hw]. pose proof (wf_encode us Hw) as Huw.
  destruct (ap_beacon_prot ap && protect).
  2:{ exists rsn, more, fr. subst fr. rewrite <- Hh, drop_app_length, take_app_length.
      do 4 (split; [done|]). split; [by apply elements_encode|]. split; [|done].
      unfold stream_tail. rewrite <- (app_nil_r (encode_elements us)). by rewrite split_encode. }
  assert (Hl : (36 <= length fr)%nat) by (subst fr; rewrite length_app; lia).
  cbn zeta. rewrite F4.
  fields.
  rewrite F2, F3, F5, !idx_ok, slice_from_ok by lia. cbn [rbind].
  pose proof (ao_bigtk_ipn ap H) as [Hil Hiw]. destruct (inc_ipn_le_spec _ Hiw) as (Hil' & Hiw' & Hval).
  destruct (protected_elements_frame (ap_bigtk ap) (ap_bigtk_key_id ap) (inc_ipn_le (ap_bigtk_ipn ap)) (ap_mac ap)
    head us) as (b & e & Eb & Hb & He & Hdrop & Hv & Hi); try done; [apply H|split; [lia|done]|apply H|].
  rewrite <- Hf in Eb, Hb, Hdrop, Hv. rewrite Eb. cbn [rbind].
  assert (Hs' : Forall short_element (us ++ [e])) by (apply Forall_app; split; [done|by constructor]).
  exists rsn, (more ++ [e]), (take 24 fr ++ b). split; [done|]. split; [done|]. split; [done|].
  assert (Hn : forall i, (i < 36)%nat -> byte_at (take 24 fr ++ b) i = byte_at fr i).
  { intros i Hi36. rewrite Hb, Hf, !app_nth1 by lia. done. }
  unfold bigtk_verified. rewrite Hdrop, !Hn by lia. rewrite Hb, <- Hh, drop_app_length, take_app_length.
  split; [done|]. split; [|split; [|intros _; split; [exact Hv|]]].
  - rewrite elements_encode by done. unfold us. by rewrite <- !app_assoc.
  - unfold stream_tail. rewrite <- (app_nil_r (encode_elements _)). by rewrite split_encode.
  - rewrite Hi, Hval, Hil. done.
Qed.

(** A run of the beacon ticker. *)
Fixpoint beacon_run (nows : list Z) (ap : Ap) : res (list bytes * Ap) :=
  match nows with
  | [] => Val ([], ap)
  | now :: rest =>
      let! '(f, ap) := beacon_frame now ap in
      let! '(fs, ap) := beacon_run rest ap in
      Val (f :: fs, ap)
  end.

Lemma count_beacon_ok protect ap :
  ap_ok ap -> bss_ok ap -> ap_ok (count_beacon protect ap) /\ bss_ok (count_beacon protect ap).
Proof.
  intros H B. destruct (csa_next_ok ap H B) as [H' B']. unfold count_beacon.
  destruct (ap_beacon_prot ap && protect); [|done]. revert H' B'.
  destruct (ao_bigtk_ipn ap H) as [Hl Hw]. destruct (inc_ipn_le_spec _ Hw) as (Hl' & Hw' & _).
  assert (Hi : arr 6 (inc_ipn_le (ap_bigtk_ipn ap))) by (split; [lia|done]).
  generalize (csa_next ap). intros ap' H' B'. split; [keep_ap_ok H'|]. destruct B'. constructor; fields; assumption.
Qed.

Lemma count_beacon_fields protect ap :
  ap_pending_csa (count_beacon protect ap) = ap_pending_csa (csa_next ap) /\
  ap_channel (count_beacon protect ap) = ap_channel (csa_next ap) /\
  ap_beacon_prot (count_beacon protect ap) = ap_beacon_prot ap /\
  ap_bigtk (count_beacon protect ap) = ap_bigtk ap /\ ap_mac (count_beacon protect ap) = ap_mac ap.
Proof.
  destruct (csa_next_fields ap) as (F1 & F2 & _ & _ & F5). unfold count_beacon.
  destruct (ap_beacon_prot ap && protect); [|done]. fields. done.
Qed.

(** C32: Protected beacons are authentic and never repeat: every beacon of a run
    verifies under the BIGTK of the AP at its own address, and the k-th carries
    the packet number k past the one the AP started from (modulo 2^48). *)
Theorem beacons_protected nows ap :
  ap_ok ap -> bss_ok ap -> ap_beacon_prot ap = true ->
  exists frames ap', beacon_run nows ap = Val (frames, ap') /\ ap_ok ap' /\
    length frames = length nows /\
    forall k f, frames !! k = Some f -> exists mpdu, f = RADIOTAP_TX ++ mpdu /\
      bip_verify (ap_bigtk ap) (byte_at mpdu 0) (byte_at mpdu 1) (replicate 6 0xff) (ap_mac ap) (ap_mac ap)
        (drop 24 mpdu) = Val true /\
      bip_ipn (drop 24 mpdu) = Val (Some ((le_val (ap_bigtk_ipn ap) + Z.of_nat k + 1) mod 2 ^ 48)).
Proof.
  revert ap. induction nows as [|now nows IH]; intros ap H B Hp; [by exists [], ap|].
  cbn [beacon_run]. destruct (beacon_inner_spec true now ap H B) as (rsn & more & f & E & _ & _ & _ & _ & _ & Hv).
  unfold beacon_frame. rewrite E. cbn [rbind].
  destruct (count_beacon_ok true ap H B) as [H' B'].
  destruct (count_beacon_fields true ap) as (_ & _ & F3 & F4 & F5).
  destruct (IH (count_beacon true ap) H' B') as (fs & ap' & E' & Hok & Hlen & Hfs); [by rewrite F3|].
  rewrite E'. cbn [rbind]. exists ((RADIOTAP_TX ++ f) :: fs), ap'.
  split; [done|]. split; [done|]. split; [by cbn [length]; rewrite Hlen|].
  destruct (Hv ltac:(by rewrite Hp)) as [Hv1 Hv2].
  intros [|k] g Hg; cbn [lookup list_lookup] in Hg.
  { injection Hg as <-. exists f. rewrite Z.add_0_r. done. }
  destruct (Hfs k g Hg) as (mpdu & -> & Hver & Hipn). exists mpdu. split; [done|].
  rewrite F4, F5 in Hver. split; [done|]. rewrite Hipn. do 2 f_equal.
  unfold count_beacon. rewrite Hp. cbn [andb]. fields.
  destruct (ao_bigtk_ipn ap H) as [Hl Hw]. destruct (inc_ipn_le_spec _ Hw) as (_ & _ & ->). rewrite Hl.
  change (256 ^ Z.of_nat 6) with (2 ^ 48). rewrite <- Z.add_assoc, Zplus_mod_idemp_l. f_equal. lia.
Qed.

(** C33: A channel switch announced with count n is announced in the next n + 1
    beacons, with the counts n, n - 1, ..., 0, on the old channel; with the last
    of them the access point has moved to the announced channel and announces
    nothing any more. *)
Theorem channel_switch_completes n ch ap nows :
  ap_ok ap -> bss_ok ap -> ap_pending_csa ap = Some (ch, Z.of_nat n) -> length nows = S n ->
  exists frames ap', beacon_run nows ap = Val (frames, ap') /\ ap_ok ap' /\
    ap_channel ap' = ch /\ ap_pending_csa ap' = None /\
    forall k, (k <= n)%nat -> exists mpdu, frames !! k = Some (RADIOTAP_TX ++ mpdu) /\
      take 36 mpdu = beacon_head (ap_mac ap) (ap_channel ap)
        (current_timestamp (nth k nows 0) ap) (ap_band6 ap) /\
      (37, [1; ch; Z.of_nat n - Z.of_nat k]) ∈ elements (drop 36 mpdu).
Proof.
  revert ap nows. induction n as [|n IH]; intros ap [|now nows] H B Hc Hlen; try discriminate;
    injection Hlen as Hlen; cbn [beacon_run];
    destruct (beacon_inner_spec true now ap H B) as (rsn & more & f & E & _ & _ & Hhd & Hel & _ & _);
    unfold beacon_frame; rewrite E; cbn [rbind]; destruct (count_beacon_ok true ap H B) as [H' B'];
    destruct (count_beacon_fields true ap) as (F1 & F2 & _ & _ & F5).
  - destruct nows; [|discriminate]. cbn [beacon_run rbind]. eexists _, _. split; [reflexivity|]. split; [done|].
    rewrite F1, F2. unfold csa_next, csa_advance. rewrite Hc. cbn. split; [done|]. split; [done|].
    intros k Hk. replace k with O by lia. exists f. split; [done|]. split; [done|].
    rewrite Hel. unfold csa_list. rewrite Hc. set_solver.
  - assert (Hn : csa_next ap = ap <| ap_pending_csa := Some (ch, Z.of_nat n) |>).
    { unfold csa_next, csa_advance. rewrite Hc.
      destruct (Z.eqb_spec (Z.of_nat (S n)) 0); [lia|]. cbn [snd]. by replace (Z.of_nat (S n) - 1) with (Z.of_nat n) by lia. }
    assert (Hkeep : ap_channel (count_beacon true ap) = ap_channel ap /\ ap_band6 (count_beacon true ap) = ap_band6 ap /\
      ap_boottime (count_beacon true ap) = ap_boottime ap).
    { unfold count_beacon. rewrite Hn. destruct (ap_beacon_prot ap && true); by fields. }
    destruct Hkeep as (K1 & K2 & K3).
    destruct (IH (count_beacon true ap) nows H' B') as (fs & ap' & E' & Hok & Hch & Hp & Hfs); [|done|].
    { rewrite F1, Hn. by fields. }
    rewrite E'. cbn [rbind]. eexists _, _. split; [reflexivity|]. split; [done|]. split; [done|]. split; [done|].
    intros [|k] Hk.
    + exists f. split; [done|]. split; [done|]. rewrite Hel. unfold csa_list. rewrite Hc, Z.sub_0_r. set_solver.
    + destruct (Hfs k ltac:(lia)) as (mpdu & Hf & Ht & Hin). exists mpdu. split; [done|].
      rewrite F5, K1, K2 in Ht. unfold current_timestamp in *. rewrite K3 in Ht. split; [exact Ht|].
      by replace (Z.of_nat (S n) - Z.of_nat (S k)) with (Z.of_nat n - Z.of_nat k) by lia.
Qed.

(** An unprotected beacon is total, and what it advertises is the
    configuration: between the 802.11 header and the fixed fields and the trailing
    elements its elements are exactly those of the band, width and PHY generation
    with the SSID and the RSN elements of the security mode; with beacon
    protection on, the capability bit 84 is set and nothing else differs. *)
Lemma beacon_content now ap :
  ap_ok ap -> bss_ok ap ->
  exists rsn more f, beacon_frame_unprotected now ap = Val (RADIOTAP_TX ++ f, csa_next ap) /\
    advertised_security_tail ap = encode_elements rsn /\
    elements (drop 36 f) =
      protected_elements ap (bss_elements (ap_ssid ap) (ap_channel ap) (ap_country ap) (ap_channel_width ap)
        (ap_band6 ap) (ap_wmm ap) (ap_phy_mode ap) rsn tim (ap_punct ap)) ++ csa_list ap ++ more /\
    stream_tail (drop 36 f) = [] /\ find_ssid (drop 36 f) = Val (Some (ap_ssid ap)).
Proof.
  intros H B. destruct (beacon_inner_spec false now ap H B) as (rsn & more & f & E & Ht & _ & _ & Hel & Htl & _).
  exists rsn, more, f. unfold beacon_frame_unprotected. rewrite E. unfold count_beacon. rewrite andb_false_r.
  split; [done|]. split; [done|]. split; [exact Hel|]. split; [done|].
  rewrite find_ssid_spec, find_ie_spec, Hel. unfold bss_list, protected_elements, bss_elements.
  by destruct (ap_beacon_prot ap).
Qed.

(** ** Probe responses *)

Definition probe_head (ap : Ap) (link : MldLink) (dst : bytes) (ts sc : Z) : bytes :=
  dot11_header TYPE_MGMT SUBTYPE_PROBE_RESP 0 dst (ml_mac link) (ml_mac link) sc ++ le_bytes 8 ts ++
  le_bytes 2 BEACON_INTERVAL_TU ++ ap_capability (ml_channel link) (ml_band6 link).

Lemma probed_link_ok ap : bss_ok ap -> link_ok (probed_link ap).
Proof.
  intros H. unfold probed_link. destruct (if ap_mld ap then ap_mgmt_rx_link ap else None) as [lid|];
    [|by apply own_link_ok].
  destruct (List.find _ _) as [l|] eqn:E; [|by apply own_link_ok]. apply List.find_some in E as [Hin _].
  pose proof (active_links_wf ap H) as Hl. rewrite Forall_forall in Hl. apply Hl. by apply list_elem_of_In.
Qed.

Lemma next_sc_bss ap : bss_ok ap -> bss_ok (next_sc ap).2.
Proof. intros H. unfold next_sc. cbn [snd]. destruct H. constructor; fields; assumption. Qed.

Lemma send_probe_resp_spec now dst ap out :
  ap_ok ap -> bss_ok ap -> arr 6 dst ->
  exists rsn more f, send_probe_resp now dst ap out = Val ((next_sc ap).2, out_tx f out) /\
    advertised_security_tail ap = encode_elements rsn /\
    take 36 f = probe_head ap (probed_link ap) dst (current_timestamp now ap) (next_sc ap).1 /\
    elements (drop 36 f) = bss_list ap rsn [] (probed_link ap) ++ more /\ stream_tail (drop 36 f) = [] /\
    (ap_mld ap = false -> more = []).
Proof.
  intros H B [Hdl _]. destruct (tail_elements ap) as (rsn & Ht & Hr).
  pose proof (probed_link_ok ap B) as Hl. pose proof (next_sc_bss ap B) as B'.
  unfold send_probe_resp. destruct (next_sc ap) as [sc ap'] eqn:En. cbn [fst snd] in *.
  assert (Hap : ap' = ap <| ap_sc := ap_sc ap' |>) by (unfold next_sc in En; injection En as _ <-; by fields).
  assert (Hst : advertised_security_tail ap' = advertised_security_tail ap) by (rewrite Hap; done).
  set (link := probed_link ap) in *.
  set (head := probe_head ap link dst (current_timestamp now ap) sc).
  unfold build_probe_resp. rewrite Hst, Ht. 
  replace (current_timestamp now ap') with (current_timestamp now ap) by (rewrite Hap; done).
  rewrite resp_ies_elements. cbn [rbind].
  assert (Hh : length head = 36%nat).
  { unfold head, probe_head, dot11_header. destruct Hl as (_ & [Hml _] & _).
    pose proof (ap_capability_arr (ml_channel link) (ml_band6 link)) as [Hc _].
    by rewrite !length_app, Hml, Hc, Hdl. }
  assert (Hbl : elements_ok (bss_list ap rsn [] link)) by (by apply bss_list_ok).
  set (us := bss_elements _ _ _ _ _ _ _ _ _ _).
  assert (Hus : us = bss_elements (ap_ssid ap) (ml_channel link) (ap_country ap) (ml_width link) (ml_band6 link)
    (ap_wmm ap) (ap_phy_mode ap) rsn [] (ap_punct ap)) by (unfold us; rewrite Hap; done).
  replace (dot11_header _ _ _ _ _ _ _ ++ _) with (head ++ encode_elements us)
    by (unfold head, probe_head; by rewrite <- !app_assoc).
  rewrite protect_capability_spec; [|done|rewrite Hus; by apply (bss_elements_ok ap link)]. cbn [rbind].
  assert (Hb : protected_elements ap' us = bss_list ap rsn [] link) by (rewrite Hus, Hap; done).
  rewrite Hb. 
  destruct (append_multi_link_spec ap' (ml_link_id link) (head ++ encode_elements (bss_list ap rsn [] link)) B')
    as (tl & -> & Htl & _ & Hm); [apply Hl|]. cbn [rbind].
  exists rsn, tl, (head ++ encode_elements (bss_list ap rsn [] link ++ tl)).
  rewrite encode_elements_app, <- app_assoc. split; [done|]. split; [done|].
  rewrite <- encode_elements_app, <- Hh, take_app_length, drop_app_length.
  destruct (elements_ok_app _ _ Hbl Htl) as [Hs _].
  split; [done|]. split; [by apply elements_encode|]. split; [|intros Hmf; apply Hm; by rewrite Hap].
  unfold stream_tail. rewrite <- (app_nil_r (encode_elements _)). by rewrite split_encode.
Qed.

Lemma probe_head_addresses ap dst f ts sc :
  bss_ok ap -> arr 6 dst -> take 36 f = probe_head ap (probed_link ap) dst ts sc ->
  sub f 4 10 = dst /\ sub f 10 16 = ml_mac (probed_link ap).
Proof.
  intros B [Hd _] E. destruct (probed_link_ok ap B) as (_ & [Hm _] & _).
  assert (Hs : forall i j, (j <= 36)%nat -> sub f i j = sub (take 36 f) i j)
    by (intros i j Hj; unfold sub; rewrite skipn_firstn_comm, take_take; f_equal; lia).
  rewrite !Hs, E by lia. unfold probe_head, dot11_header. rewrite <- !app_assoc.
  set (h := [_; _; _; _]). assert (Hh : length h = 4%nat) by done.
  split; [apply sub_exact; lia|]. rewrite (app_assoc h). apply sub_exact; len.
Qed.

(** A probe request is answered exactly when it names no network or this
    one; the answer describes the link it arrived on (its address, channel, band
    and width) and, outside a multi-link AP, nothing else; a request for another
    network, or without a complete SSID element, changes nothing. *)
Lemma probe_answers now frame ap out :
  ap_ok ap -> bss_ok ap -> arr 6 (addr2 frame) ->
  exists answer, find_ssid (body frame) = Val answer /\
    match answer with
    | Some s =>
        if (length s =? 0)%nat || beq s (ap_ssid ap) then
          exists rsn more f, handle_probe_req now frame ap out = Val ((next_sc ap).2, out_tx f out) /\
            advertised_security_tail ap = encode_elements rsn /\
            sub f 4 10 = addr2 frame /\ sub f 10 16 = ml_mac (probed_link ap) /\
            elements (drop 36 f) = bss_list ap rsn [] (probed_link ap) ++ more /\
            (ap_mld ap = false -> more = [])
        else handle_probe_req now frame ap out = Val (ap, out)
    | None => handle_probe_req now frame ap out = Val (ap, out)
    end.
Proof.
  intros H B Ha. unfold handle_probe_req. rewrite find_ssid_spec, find_ie_spec. eexists. split; [done|].
  cbn [rbind]. destruct (head _) as [s|]; [|done].
  destruct (length s =? 0)%nat eqn:E0; cbn [orb]; [|destruct (beq s (ap_ssid ap)); [|done]];
    destruct (send_probe_resp_spec now (addr2 frame) ap out H B Ha) as (rsn & more & f & E & Ht & Hhd & Hel & _ & Hm);
    exists rsn, more, f; (split; [exact E|]); (split; [exact Ht|]);
    (destruct (probe_head_addresses ap (addr2 frame) f _ _ B Ha Hhd) as [H1 H2]); auto.
Qed.

End BeaconProps.

(** * Witnesses *)

Definition demo_beacon_ap : Ap :=
  demo_empty <| ap_beacon_prot := true |> <| ap_pending_csa := Some (149, 2) |>.

Lemma demo_bss_ok : bss_ok demo_empty.
Proof. constructor; try (by apply (bool_decide_unpack _)); vm_compute; repeat constructor; discriminate. Qed.

Lemma demo_beacon_ok : ap_ok demo_beacon_ap /\ bss_ok demo_beacon_ap.
Proof.
  pose proof demo_empty_ok as H. pose proof demo_bss_ok as B. unfold demo_beacon_ap. revert H B.
  generalize demo_empty. intros ap H B. split; [keep_ap_ok H|].
  destruct B; constructor; fields; try assumption. by apply (bool_decide_unpack _).
Qed.

Lemma beacons_protected_witness :
  exists frames ap', beacon_run [1; 2] demo_beacon_ap = Val (frames, ap') /\ length frames = 2%nat.
Proof.
  destruct (beacons_protected [1; 2] demo_beacon_ap) as (fs & ap' & E & _ & Hl & _).
  - exact (proj1 demo_beacon_ok).
  - exact (proj2 demo_beacon_ok).
  - reflexivity.
  - exists fs, ap'. split; [exact E|exact Hl].
Defined.

Lemma channel_switch_completes_witness :
  exists frames ap', beacon_run [1; 2; 3] demo_beacon_ap = Val (frames, ap') /\
    ap_channel ap' = 149 /\ ap_pending_csa ap' = None.
Proof.
  destruct (channel_switch_completes 2 149 demo_beacon_ap [1; 2; 3]) as (fs & ap' & E & _ & Hc & Hp & _).
  - exact (proj1 demo_beacon_ok).
  - exact (proj2 demo_beacon_ok).
  - reflexivity.
  - reflexivity.
  - exists fs, ap'. split; [exact E|]. split; [exact Hc|exact Hp].
Defined.

(** A wildcard probe request from 66:77:88:99:aa:bb. *)
Definition demo_probe : Dot11 :=
  {| fc0 := 64; fc1 := 0; addr1 := replicate 6 255; addr2 := [102; 119; 136; 153; 170; 187];
     addr3 := replicate 6 255; sc := 1; qos := None; body := [0; 0] |}.
