(* ===== verification/ApRates.v ===== *)
(** Request rates: the table of src/ap/runtime.rs that limits authentication and
    association requests per station. *)
From S2P Require Import Prelude Ap Demo.

(** * The table *)

Definition request_rate_new (now : Z) : RequestRate := {|
  auth_window := now; auth_count := 0; assoc_window := now; assoc_count := 0; rr_last_seen := now |}.

Definition allow_request (window count burst now : Z) : bool * (Z * Z) :=
  let '(window, count) :=
    if REQUEST_RATE_WINDOW <=? duration_since now window then (now, 0) else (window, count) in
  if burst <=? count then (false, (window, count)) else (true, (window, count + 1)).

Definition rates_full (rates : gmap bytes RequestRate) : bool := (REQUEST_RATE_ENTRY_MAX <=? size rates)%nat.
Definition recent_rates (now : Z) (rates : gmap bytes RequestRate) : gmap bytes RequestRate :=
  filter (fun p : bytes * RequestRate => duration_since now (rr_last_seen p.2) < REQUEST_RATE_WINDOW) rates.

(** The entry of a station, made if there is room; a full table first drops
    its stale entries. *)
Definition request_rate_entry (sta : bytes) (now : Z) (ap : Ap) : option RequestRate * Ap :=
  let known := bool_decide (is_Some (ap_request_rates ap !! sta)) in
  let rates :=
    if negb known && rates_full (ap_request_rates ap) then recent_rates now (ap_request_rates ap)
    else ap_request_rates ap in
  if negb known && rates_full rates then (None, ap <| ap_request_rates := rates |>)
  else
    let rate := (default (request_rate_new now) (rates !! sta)) <| rr_last_seen := now |> in
    (Some rate, ap <| ap_request_rates := <[sta := rate]> rates |>).

Definition allow_auth_request (sta : bytes) (now : Z) (ap : Ap) : bool * Ap :=
  match request_rate_entry sta now ap with
  | (None, ap) => (false, ap)
  | (Some rate, ap) =>
      let '(ok, (w, c)) := allow_request (auth_window rate) (auth_count rate) AUTH_REQUEST_BURST now in
      (ok, ap <| ap_request_rates :=
             <[sta := rate <| auth_window := w |> <| auth_count := c |>]> (ap_request_rates ap) |>)
  end.

Definition allow_assoc_request (sta : bytes) (now : Z) (ap : Ap) : bool * Ap :=
  match request_rate_entry sta now ap with
  | (None, ap) => (false, ap)
  | (Some rate, ap) =>
      let '(ok, (w, c)) := allow_request (assoc_window rate) (assoc_count rate) ASSOC_REQUEST_BURST now in
      (ok, ap <| ap_request_rates :=
             <[sta := rate <| assoc_window := w |> <| assoc_count := c |>]> (ap_request_rates ap) |>)
  end.

(** * Its bounds *)

Lemma size_insert_le {K} `{Countable K} {A} (m : gmap K A) k x n :
  (size m <= n)%nat -> (is_Some (m !! k) \/ size m < n)%nat -> (size (<[k := x]> m) <= n)%nat.
Proof.
  intros Hm Hk. rewrite map_size_insert. destruct (m !! k) as [y|] eqn:E; [done|].
  destruct Hk as [[y Hy]|Hk]; [congruence|lia].
Qed.

(** The window and the counter of one kind of request. *)
Definition rate_window (auth : bool) (r : RequestRate) : Z := if auth then auth_window r else assoc_window r.
Definition rate_count (auth : bool) (r : RequestRate) : Z := if auth then auth_count r else assoc_count r.
Definition rate_burst (auth : bool) : Z := if auth then AUTH_REQUEST_BURST else ASSOC_REQUEST_BURST.

Definition rate_request (auth : bool) (sta : bytes) (now : Z) (ap : Ap) : bool * Ap :=
  if auth then allow_auth_request sta now ap else allow_assoc_request sta now ap.

(** Entries as the code keeps them: no window starts after the last request. *)
Definition rate_ok (now : Z) (r : RequestRate) : Prop :=
  rr_last_seen r <= now /\
  forall auth, rate_window auth r <= rr_last_seen r /\ 0 <= rate_count auth r <= rate_burst auth.
Definition rates_ok (now : Z) (ap : Ap) : Prop :=
  map_Forall (fun _ r => rate_ok now r) (ap_request_rates ap) /\
  (size (ap_request_rates ap) <= REQUEST_RATE_ENTRY_MAX)%nat.

Definition renewed (auth : bool) (now : Z) (r : RequestRate) : bool * RequestRate :=
  let '(ok, (w, c)) := allow_request (rate_window auth r) (rate_count auth r) (rate_burst auth) now in
  (ok, if auth then r <| auth_window := w |> <| auth_count := c |>
       else r <| assoc_window := w |> <| assoc_count := c |>).

Lemma rate_request_spec auth sta now ap :
  (size (ap_request_rates ap) <= REQUEST_RATE_ENTRY_MAX)%nat ->
  exists rates, (rates = ap_request_rates ap \/
      (ap_request_rates ap !! sta = None /\ rates = recent_rates now (ap_request_rates ap))) /\
    ((rate_request auth sta now ap = (false, ap <| ap_request_rates := rates |>) /\ rates !! sta = None) \/
     exists r, r = (default (request_rate_new now) (rates !! sta)) <| rr_last_seen := now |> /\
       rate_request auth sta now ap =
         ((renewed auth now r).1, ap <| ap_request_rates := <[sta := (renewed auth now r).2]> rates |>) /\
       (size (<[sta := (renewed auth now r).2]> rates) <= REQUEST_RATE_ENTRY_MAX)%nat).
Proof.
  intros Hsz. set (known := bool_decide (is_Some (ap_request_rates ap !! sta))).
  set (rates := if negb known && rates_full (ap_request_rates ap) then recent_rates now (ap_request_rates ap)
    else ap_request_rates ap).
  assert (Hr : rates = ap_request_rates ap \/
    (ap_request_rates ap !! sta = None /\ rates = recent_rates now (ap_request_rates ap))).
  { unfold rates, known. case_bool_decide as Hk; [by left|]. destruct (rates_full _); [right|by left].
    split; [|done]. by apply eq_None_not_Some. }
  exists rates. split; [exact Hr|].
  assert (Hsr : (size rates <= REQUEST_RATE_ENTRY_MAX)%nat).
  { destruct Hr as [->|[_ ->]]; [done|]. etrans; [apply map_size_filter|done]. }
  assert (Hk : known = true -> rates = ap_request_rates ap) by (unfold rates; by intros ->).
  assert (Hn : known = false -> rates !! sta = None).
  { unfold known. case_bool_decide as Hk'; [done|intros _]. apply eq_None_not_Some in Hk'.
    destruct Hr as [->|[_ ->]]; [done|]. by apply map_lookup_filter_None_2; left. }
  unfold rate_request, allow_auth_request, allow_assoc_request, request_rate_entry.
  fold known. fold rates. destruct (negb known && rates_full rates) eqn:Ef.
  - left. apply andb_prop in Ef as [Ek%negb_true_iff _]. split; [by destruct auth|auto].
  - right. eexists. split; [reflexivity|]. set (r := _ <| rr_last_seen := now |>).
    split; [unfold renewed; destruct auth; cbn [rate_window rate_count rate_burst];
      destruct (allow_request _ _ _ _) as [ok [w c]]; fields; by rewrite insert_insert_eq|].
    apply size_insert_le; [done|]. unfold rates_full in Ef. apply andb_false_iff in Ef as [Ek|Ef].
    + apply negb_false_iff in Ek. left. rewrite (Hk Ek). by apply bool_decide_eq_true in Ek.
    + right. by apply Nat.leb_gt in Ef.
Qed.

(** How many requests of a kind an entry can still grant before [t0] plus one
    window: at most one new window opens in that time. *)
Definition allowance (auth : bool) (t0 : Z) (o : option RequestRate) : Z :=
  match o with
  | None => rate_burst auth
  | Some r => if t0 <=? rate_window auth r then rate_burst auth - rate_count auth r
              else 2 * rate_burst auth - rate_count auth r
  end.

Lemma rate_burst_pos auth : 0 < rate_burst auth.
Proof. by destruct auth. Qed.

Lemma renewed_spec auth t0 now r :
  rate_ok now r -> rr_last_seen r = now -> t0 <= now < t0 + REQUEST_RATE_WINDOW ->
  rate_ok now (renewed auth now r).2 /\ rr_last_seen (renewed auth now r).2 = now /\
  allowance auth t0 (Some (renewed auth now r).2) + Z.b2z (renewed auth now r).1 <= allowance auth t0 (Some r) /\
  forall k, k <> auth -> allowance k t0 (Some (renewed auth now r).2) = allowance k t0 (Some r).
Proof.
  intros [Hl Hr] Hs Ht. pose proof (Hr auth) as [Hw Hc]. pose proof (rate_burst_pos auth) as Hb.
  unfold renewed, allow_request, duration_since.
  set (w := rate_window auth r) in *. set (c := rate_count auth r) in *.
  assert (Hset : forall w' c', w' <= now -> 0 <= c' <= rate_burst auth ->
    let r' := if auth then r <| auth_window := w' |> <| auth_count := c' |>
              else r <| assoc_window := w' |> <| assoc_count := c' |> in
    rate_ok now r' /\ rr_last_seen r' = now /\ rate_window auth r' = w' /\ rate_count auth r' = c' /\
    forall k, k <> auth -> rate_window k r' = rate_window k r /\ rate_count k r' = rate_count k r).
  { intros w' c' Hw' Hc'. split; [split|].
    - destruct auth; fields; lia.
    - intros k. destruct (Hr k). destruct auth, k; cbn [rate_window rate_count]; fields; cbn in *; lia.
    - destruct auth; (split; [done|]); (split; [done|]); (split; [done|]); intros [] Hk; done. }
  assert (Hgo : forall ok w' c', w' <= now -> 0 <= c' <= rate_burst auth ->
    (if t0 <=? w' then rate_burst auth - c' else 2 * rate_burst auth - c') + Z.b2z ok <=
    (if t0 <=? w then rate_burst auth - c else 2 * rate_burst auth - c) ->
    let r' := if auth then r <| auth_window := w' |> <| auth_count := c' |>
              else r <| assoc_window := w' |> <| assoc_count := c' |> in
    rate_ok now r' /\ rr_last_seen r' = now /\
    allowance auth t0 (Some r') + Z.b2z ok <= allowance auth t0 (Some r) /\
    forall k, k <> auth -> allowance k t0 (Some r') = allowance k t0 (Some r)).
  { intros ok w' c' Hw' Hc' Hle r'. destruct (Hset w' c' Hw' Hc') as (H1 & H2 & H3 & H4 & H5). fold r' in H1, H2, H3, H4, H5.
    split; [done|]. split; [done|]. unfold allowance. rewrite H3, H4. split; [exact Hle|].
    intros k Hk. destruct (H5 k Hk) as [-> ->]. done. }
  unfold REQUEST_RATE_WINDOW, secs in *.
  destruct (Z.leb_spec (1 * 1000000000) (Z.max 0 (now - w))).
  - destruct (Z.leb_spec (rate_burst auth) 0); [lia|]. cbn [fst snd]. apply Hgo; [lia|lia|].
    cbn [Z.b2z]. destruct (Z.leb_spec t0 now), (Z.leb_spec t0 w); lia.
  - destruct (Z.leb_spec (rate_burst auth) c); cbn [fst snd]; apply Hgo; try lia;
      cbn [Z.b2z]; destruct (Z.leb_spec t0 w); lia.
Qed.

(** A run of requests: how many of one kind and one station are granted. *)
Fixpoint granted (auth : bool) (sta : bytes) (rs : list (bool * bytes * Z)) (ap : Ap) : Z * Ap :=
  match rs with
  | [] => (0, ap)
  | (k, m, now) :: rs =>
      let (ok, ap) := rate_request k m now ap in
      let (n, ap) := granted auth sta rs ap in
      (Z.b2z (ok && Bool.eqb k auth && beq m sta) + n, ap)
  end.

(** The clock does not go back. *)
Fixpoint times_from (t : Z) (rs : list (bool * bytes * Z)) : Prop :=
  match rs with
  | [] => True
  | (_, _, now) :: rs => t <= now /\ times_from now rs
  end.

Lemma rate_request_allowance auth sta t0 t k m now ap :
  rates_ok t ap -> t <= now -> t0 <= now < t0 + REQUEST_RATE_WINDOW ->
  rates_ok now (rate_request k m now ap).2 /\
  allowance auth t0 (ap_request_rates (rate_request k m now ap).2 !! sta) +
    Z.b2z ((rate_request k m now ap).1 && Bool.eqb k auth && beq m sta)
    <= allowance auth t0 (ap_request_rates ap !! sta).
Proof.
  intros [Hr Hsz] Ht Hin. destruct (rate_request_spec k m now ap Hsz) as (rates & Hrates & Hcase).
  assert (Hok : map_Forall (fun _ r => rate_ok now r) rates /\ (size rates <= REQUEST_RATE_ENTRY_MAX)%nat).
  { assert (Hmono : map_Forall (fun _ r => rate_ok now r) (ap_request_rates ap)).
    { eapply map_Forall_impl; [exact Hr|]. intros i r [H1 H2]. split; [lia|exact H2]. }
    destruct Hrates as [->|[_ ->]]; [done|]. split.
    - intros i r [Hi _]%map_lookup_filter_Some. by apply (Hmono i).
    - etrans; [apply map_size_filter|done]. }
  destruct Hok as [Hok Hsz'].
  assert (Hle : allowance auth t0 (rates !! sta) <= allowance auth t0 (ap_request_rates ap !! sta)).
  { destruct Hrates as [->|[_ ->]]; [done|]. unfold recent_rates. rewrite map_lookup_filter.
    destruct (ap_request_rates ap !! sta) as [r|] eqn:E; [|done]. cbn [mbind option_bind].
    destruct (Hr sta r E) as [Hl Hw]. pose proof (Hw auth) as [Hwl Hc].
    case_guard as Hg; [done|]. change (mfail ≫= _) with (@None RequestRate). cbn [allowance snd] in *. unfold duration_since, REQUEST_RATE_WINDOW, secs in *.
    destruct (Z.leb_spec t0 (rate_window auth r)); lia. }
  destruct Hcase as [[E Hnone]|(r & Er & E & Hsz2)]; rewrite E; cbn [fst snd]; fields.
  - split; [by split|]. cbn [andb Z.b2z]. lia.
  - assert (Hrok : rate_ok now r /\ rr_last_seen r = now).
    { rewrite Er. split; [|done]. destruct (rates !! m) as [r0|] eqn:E0; cbn [from_option id].
      - destruct (Hok m r0 E0) as [H1 H2]. split; [done|]. intros a. destruct (H2 a).
        destruct a; cbn [rate_window rate_count] in *; fields; lia.
      - split; [done|]. intros a. pose proof (rate_burst_pos a). destruct a; cbn [rate_window rate_count]; fields; cbn [request_rate_new auth_window auth_count assoc_window assoc_count]; lia. }
    destruct Hrok as [Hrok Hseen]. destruct (renewed_spec k t0 now r Hrok Hseen Hin) as (R1 & R2 & R3 & R4).
    split; [split; [|exact Hsz2]; by apply map_Forall_insert_2|].
    destruct (beq m sta) eqn:Em.
    + apply beq_true in Em as ->. rewrite lookup_insert_eq, andb_true_r.
      assert (Hr0 : allowance auth t0 (Some r) <= allowance auth t0 (rates !! sta)).
      { rewrite Er. destruct (rates !! sta) as [r0|]; cbn [from_option id]; [by destruct auth|].
        set (r1 := _ <| rr_last_seen := _ |>). assert (Hw1 : rate_window auth r1 = now) by (by destruct auth).
        assert (Hc1 : rate_count auth r1 = 0) by (by destruct auth).
        unfold allowance. rewrite Hw1, Hc1, (proj2 (Z.leb_le _ _)) by lia. lia. }
      destruct (Bool.eqb k auth) eqn:Ek; [apply Bool.eqb_prop in Ek as ->|].
      * rewrite andb_true_r. lia.
      * rewrite andb_false_r. cbn [Z.b2z]. rewrite R4; [lia|]. intros ->. by rewrite Bool.eqb_reflx in Ek.
    + rewrite andb_false_r. cbn [Z.b2z]. rewrite lookup_insert_ne by (intros ->; by rewrite beq_refl in Em). lia.
Qed.

(** C31: Request rates: whatever the run of authentication and association
    requests from any stations, the table never exceeds its bound, and within
    one window of time a station is granted at most two bursts of a kind (the
    rest of an open window and one new window). *)
Theorem requests_limited auth sta t0 rs ap :
  rates_ok t0 ap -> times_from t0 rs -> Forall (fun r => r.2 < t0 + REQUEST_RATE_WINDOW) rs ->
  (granted auth sta rs ap).1 <= 2 * rate_burst auth /\
  (size (ap_request_rates (granted auth sta rs ap).2) <= REQUEST_RATE_ENTRY_MAX)%nat.
Proof.
  intros Hr Ht Hin.
  assert (Hgen : forall t, rates_ok t ap -> t0 <= t -> times_from t rs ->
    (granted auth sta rs ap).1 <= allowance auth t0 (ap_request_rates ap !! sta) /\
    (size (ap_request_rates (granted auth sta rs ap).2) <= REQUEST_RATE_ENTRY_MAX)%nat).
  { clear Hr Ht. revert ap. induction Hin as [|[[k m] now] rs Hnow _ IH]; intros ap t Hr Hge Ht.
    - cbn [granted fst snd]. split; [|apply Hr]. destruct Hr as [Hr _].
      pose proof (rate_burst_pos auth). destruct (ap_request_rates ap !! sta) as [r|] eqn:E; cbn; [|lia].
      destruct (Hr sta r E) as [_ Hw]. destruct (Hw auth). destruct (t0 <=? _); lia.
    - cbn [times_from snd] in *. destruct Ht as [Htn Ht].
      destruct (rate_request_allowance auth sta t0 t k m now ap Hr Htn ltac:(lia)) as [Hr' Ha].
      cbn [granted]. destruct (rate_request k m now ap) as [ok ap']. cbn [fst snd] in *.
      destruct (IH ap' now Hr' ltac:(lia) Ht) as [H1 H2].
      destruct (granted auth sta rs ap') as [n ap'']. cbn [fst snd] in *. split; [lia|done]. }
  destruct (Hgen t0 Hr ltac:(lia) Ht) as [H1 H2]. split; [|done].
  destruct Hr as [Hr _]. pose proof (rate_burst_pos auth).
  destruct (ap_request_rates ap !! sta) as [r|] eqn:E; cbn [allowance] in H1; [|lia].
  destruct (Hr sta r E) as [_ Hw]. destruct (Hw auth). destruct (t0 <=? _); lia.
Qed.

(** Nine association requests in a tenth of a second: eight are granted. *)
Definition demo_requests : list (bool * bytes * Z) :=
  map (fun i => (false, demo_sta, secs 5 + millis (10 * i))) (seqZ 0 9).

Lemma requests_limited_witness :
  (granted false demo_sta demo_requests demo_empty).1 <= 16 /\
  (size (ap_request_rates (granted false demo_sta demo_requests demo_empty).2) <= REQUEST_RATE_ENTRY_MAX)%nat.
Proof.
  apply (requests_limited false demo_sta (secs 5) demo_requests demo_empty).
  - assert (E : ap_request_rates demo_empty = ∅) by (vm_compute; reflexivity).
    unfold rates_ok. rewrite E. split; [apply map_Forall_empty|apply Nat.le_0_l].
  - vm_compute. repeat split; discriminate.
  - repeat constructor; vm_compute; reflexivity.
Defined.

Example demo_requests_granted : (granted false demo_sta demo_requests demo_empty).1 = 8.
Proof. vm_compute. reflexivity. Qed.
