(* ===== verification/ApAdmit.v ===== *)
(** Admission: src/ap/association.rs, the validation half of src/ap/mlo.rs, the
    PMKSA cache of src/ap/lifecycle.rs and open-system authentication of
    src/ap/receive.rs. *)
From S2P Require Import Prelude Elements Crypto Security Frames Channels DataProt Kde Rsn Advert Mlo Eapol Sae Failures Ap ApConfig ApEapol Demo FourWay ApMgmt ApBeacon ApRates.

(** * The PMKSA cache (ap/lifecycle.rs) *)

(** [HashMap::keys().next()]: some key of a non-empty map. *)
Class HashOrder := { first_key : gmap (bytes * bytes) PmksaEntry -> option (bytes * bytes) }.
Class HashOrderOk (O : HashOrder) : Prop := {
  first_key_in m k : first_key m = Some k -> is_Some (m !! k);
  first_key_some m : m <> ∅ -> is_Some (first_key m)
}.

(** The order of the witnesses. *)
#[export] Instance list_order : HashOrder := {| first_key m := option_map fst (head (map_to_list m)) |}.
#[export] Instance list_order_ok : HashOrderOk list_order.
Proof.
  constructor; intros m.
  - intros k Hk. cbn in Hk. destruct (map_to_list m) as [|[k' e] l] eqn:E; [done|]. injection Hk as <-.
    exists e. apply elem_of_map_to_list. rewrite E. by left.
  - intros Hm. cbn. destruct (map_to_list m) as [|p l] eqn:E; [|by eexists].
    by apply map_to_list_empty_iff in E.
Qed.

Definition expire_pmksa (now : Z) (ap : Ap) : Ap :=
  ap <| ap_pmksa_cache :=
    filter (fun p : (bytes * bytes) * PmksaEntry => p.1.2 = pe_identity p.2 /\ now < pe_expires_at p.2)
      (ap_pmksa_cache ap) |>.

Definition cache_pmksa `{HashOrder} (now : Z) (id identity pmk : bytes) (sha256 : bool) (ap : Ap) : Ap :=
  let ap := expire_pmksa now ap in
  let key := (id, identity) in
  let cache := ap_pmksa_cache ap in
  let cache :=
    if (PMKSA_CACHE_MAX <=? size cache)%nat && bool_decide (cache !! key = None) then
      match first_key cache with Some victim => delete victim cache | None => cache end
    else cache in
  let expires_at := now + PMKSA_LIFETIME in
  let entry := {| pe_identity := identity; pe_pmk := pmk; pe_sha256 := sha256; pe_expires_at := expires_at |} in
  schedule_maintenance expires_at (ap <| ap_pmksa_cache := <[key := entry]> cache |>).

(** * Multi-link association checks (ap/mlo.rs) *)

Definition is_valid_peer_mac (mac : bytes) : bool :=
  existsb (fun b => negb (b =? 0)) mac && (Z.land (byte_at mac 0) 0x01 =? 0).

Definition reject_assoc_status (sta : bytes) (reassoc : bool) (status : Z) (ap : Ap) (out : Outgoing) :
    Ap * Outgoing :=
  let sub := if reassoc then 0x03 else SUBTYPE_ASSOC_RESP in
  let (sc, ap) := next_sc ap in
  (ap, out_tx (build_assoc_resp_reject (ap_mac ap) sta status sub sc) out).

Definition STATUS_UNSPECIFIED_FAILURE : Z := 1.
Definition STATUS_INVALID_PMKID : Z := 53.
Definition STATUS_FINITE_CYCLIC_GROUP_NOT_SUPPORTED : Z := 77.

Definition reject_assoc (sta : bytes) (reassoc : bool) (ap : Ap) (out : Outgoing) : Ap * Outgoing :=
  reject_assoc_status sta reassoc STATUS_UNSPECIFIED_FAILURE ap out.

Definition station_uses_mac (mac other : bytes) (s : Station) : bool :=
  beq other mac || bool_decide (st_client_mld_mac s = Some mac) ||
  existsb (fun l => beq l.2 mac) (st_client_mld_links s).

Definition peer_mac_in_use_by_other_station (sta mac : bytes) (ap : Ap) : bool :=
  existsb (fun p => negb (beq p.1 sta) && station_uses_mac mac p.1 p.2) (map_to_list (ap_stations ap)).

(** The addresses of the access point. *)
Definition ap_addrs (ap : Ap) : gset bytes :=
  {[ap_mld_mac ap]} ∪ list_to_set (map ml_mac (active_mld_links ap)).
Definition configured_links (ap : Ap) : gset Z := list_to_set (map ml_link_id (active_mld_links ap)).

(** One Per-STA Profile: the sets are the link ids and addresses seen so far. *)
Fixpoint validate_links (sta client_mld : bytes) (ap : Ap) (ids : gset Z) (macs : gset bytes)
    (profiles : list (Z * bytes)) : option (list (Z * bytes)) :=
  match profiles with
  | [] => Some []
  | (link_id, link_mac) :: rest =>
      if negb (bool_decide (link_id ∈ configured_links ap)) || (link_id =? association_link_id ap)
         || negb (is_valid_peer_mac link_mac) || bool_decide (link_mac ∈ ap_addrs ap)
         || bool_decide (link_mac ∈ ({[sta; client_mld]} : gset bytes))
         || bool_decide (link_id ∈ ids) || bool_decide (link_mac ∈ macs)
         || peer_mac_in_use_by_other_station sta link_mac ap
      then None
      else
        links ← validate_links sta client_mld ap ({[link_id]} ∪ ids) ({[link_mac]} ∪ macs) rest;
        Some ((link_id, link_mac) :: links)
  end.

Definition validate_mld_assoc_links (sta client_mld assoc_ies : bytes) (ap : Ap) :
    res (option (list (Z * bytes))) :=
  if negb (is_valid_peer_mac sta) || negb (is_valid_peer_mac client_mld)
     || bool_decide (sta ∈ ap_addrs ap) || bool_decide (client_mld ∈ ap_addrs ap)
     || peer_mac_in_use_by_other_station sta client_mld ap
  then Val None
  else
    let! profiles := parse_mld_link_macs_checked assoc_ies in
    Val (profiles ≫= validate_links sta client_mld ap ∅ ∅).

(** * Association requests (ap/association.rs) *)

(** What the checks of a request find: its elements, the RSN element, what
    it negotiates and, on a multi-link AP, the client's MLD address and links. *)
Record AssocRequest := {
  ar_ies : bytes;
  ar_rsn : bytes;
  ar_cipher : DataCipher;
  ar_requests_sae : bool;
  ar_requests_pmf : bool;
  ar_selects_psk_sha256 : option bool;
  ar_mld : option (bytes * list (Z * bytes))
}.

(** A station that asks for SAE says in its RSNXE whether it uses
    hash-to-element, and it must be what it used. *)
Definition h2e_consistent (h2e : bool) (rsnxe : ie_result) : bool :=
  match h2e, rsnxe with
  | true, Ok (Some x) => rsnxe_has_sae_h2e x
  | false, Ok _ => true
  | _, _ => false
  end.

Definition assoc_mld (sta assoc_ies : bytes) (ap : Ap) :
    res (result (option (bytes * list (Z * bytes))) Z) :=
  if negb (ap_mld ap) then Val (Ok None)
  else
    let! client_mld := parse_mld_mac assoc_ies in
    let! present := has_basic_multi_link_element assoc_ies in
    match client_mld with
    | None => Val (if present then Err STATUS_INVALID_IE else Ok None)
    | Some client_mld =>
        let sae_mld := ap_stations ap !! sta ≫= st_client_mld_mac in
        if match sae_mld with Some prev => negb (beq prev client_mld) | None => false end
        then Val (Err STATUS_UNSPECIFIED_FAILURE)
        else
          let! links := validate_mld_assoc_links sta client_mld assoc_ies ap in
          Val (match links with
               | Some links => Ok (Some (client_mld, links))
               | None => Err STATUS_UNSPECIFIED_FAILURE
               end)
    end.

(** The offset of the elements: a Reassociation Request names the current AP. *)
Definition assoc_ie_off (reassoc : bool) : nat := if reassoc then 10 else 4.

Definition check_assoc (sta : bytes) (reassoc : bool) (frame_body : bytes) (ap : Ap) :
    res (result AssocRequest Z) :=
  let ie_off := assoc_ie_off reassoc in
  if (length frame_body <? ie_off)%nat then Val (Err STATUS_INVALID_IE)
  else
    let assoc_ies := drop ie_off frame_body in
    let! rsn := find_ie_strict assoc_ies 48 in
    match rsn with
    | Ok (Some assoc_rsn) =>
        match negotiate_assoc_pairwise_cipher assoc_rsn (security_mode ap) (pairwise_ciphers ap) with
        | Err status => Val (Err status)
        | Ok cipher =>
            let requests_sae := rsn_has_akm assoc_rsn 8 in
            let selects_psk_sha256 :=
              match security_mode ap with
              | Wpa2PskSha256 => Some (rsn_has_akm assoc_rsn 6)
              | Transition => if requests_sae then None else Some (rsn_has_akm assoc_rsn 6)
              | _ => None
              end in
            let! h2e_ok :=
              if requests_sae then
                let sae_h2e := match ap_stations ap !! sta with Some s => st_sae_h2e s | None => false end in
                let! rsnxe := find_ie_consistent assoc_ies 0xf4 in
                Val (h2e_consistent sae_h2e rsnxe)
              else Val true in
            if negb h2e_ok then Val (Err STATUS_INVALID_IE)
            else
              let! mld := assoc_mld sta assoc_ies ap in
              match mld with
              | Err status => Val (Err status)
              | Ok mld =>
                  Val (Ok {| ar_ies := assoc_ies; ar_rsn := assoc_rsn; ar_cipher := cipher;
                             ar_requests_sae := requests_sae; ar_requests_pmf := rsn_has_mfpc assoc_rsn;
                             ar_selects_psk_sha256 := selects_psk_sha256; ar_mld := mld |})
              end
        end
    | _ => Val (Err STATUS_INVALID_IE)
    end.

(** Whether the client negotiates WMM. *)
Definition request_wmm (reassoc : bool) (frame_body : bytes) : res bool :=
  let ie_off := assoc_ie_off reassoc in
  if (ie_off <? length frame_body)%nat then has_wmm_ie (drop ie_off frame_body) else Val false.

(** What the station record remembers of its request. *)
Definition note_request (ap_wmm client_wmm transition mld : bool) (link : Z) (frame_body : bytes)
    (r : AssocRequest) (s : Station) : Station :=
  let s := s <| st_traits := client_traits frame_body |> <| st_wmm := ap_wmm && client_wmm |> in
  let s := if (4 <=? length frame_body)%nat
           then s <| st_capability := le_val (sub frame_body 0 2) |>
                  <| st_listen_interval := le_val (sub frame_body 2 4) |>
           else s in
  let s := s <| st_assoc_ies := ar_ies r |> <| st_pairwise_cipher := ar_cipher r |> in
  let s := match ar_selects_psk_sha256 r with
           | Some b => s <| st_sha256 := b |> <| st_psk_sha256 := b |> <| st_owe := false |>
                         <| st_pmf := false |>
           | None => s
           end in
  let s := if transition then s <| st_pmf := ar_requests_pmf r |> else s in
  let s := s <| st_assoc_link_id := if mld then Some link else None |> in
  match ar_mld r with
  | Some (client_mld, links) => s <| st_client_mld_mac := Some client_mld |> <| st_client_mld_links := links |>
  | None => s
  end.

Definition transition_mode (ap : Ap) : bool :=
  match security_mode ap with Transition => true | _ => false end.

Section Association.
Context `{Entropy} {P : Primitives} {C : P256}.

(** [self.stations.entry(sta).or_insert_with(|| Station::new(sta))] *)
Definition station_entry (now : Z) (sta : bytes) (ap : Ap) : Ap :=
  match ap_stations ap !! sta with
  | Some _ => ap
  | None =>
      let (gtk, ap) := random_bytes 16 ap in
      let (igtk, ap) := random_bytes 16 ap in
      ap <| ap_stations := <[sta := station_new sta now gtk igtk]> (ap_stations ap) |>
  end.

(** A cached PMK for one of the identifiers the request carries. *)
Definition cached_pmk (ap : Ap) (identity : bytes) (pmkids : list bytes) : option PmksaEntry :=
  head (omap (fun pmkid => ap_pmksa_cache ap !! (pmkid, identity)) pmkids).

Definition pmksa_lookup (now : Z) (sta : bytes) (pmkids : list bytes) (ap : Ap) : Ap :=
  let identity := default sta (ap_stations ap !! sta ≫= st_client_mld_mac) in
  let ap := expire_pmksa now ap in
  match cached_pmk ap identity pmkids with
  | Some e => upd_station sta (fun s =>
      s <| st_pmk := Some (pe_pmk e) |> <| st_sha256 := pe_sha256 e |> <| st_pmf := pe_sha256 e |>) ap
  | None => ap
  end.

Definition has_pmk (sta : bytes) (ap : Ap) : bool :=
  match ap_stations ap !! sta with Some s => bool_decide (is_Some (st_pmk s)) | None => false end.

(** [owe_keypair]: the private scalar is drawn until it is acceptable. *)
Definition owe_private_step (draws : N) : res (N + bytes * N) :=
  let b := os_random draws 32 in
  if acceptable_scalar b then Val (inr (b, (draws + 1)%N)) else Val (inl (draws + 1)%N).

Definition owe_keypair (fuel : nat) (ap : Ap) : res (bytes * bytes * Ap) :=
  let! '(private, draws) := loop fuel owe_private_step (ap_draws ap) in
  let! public := owe_public private in
  Val (private, public, ap <| ap_draws := draws |>).

Definition owe_keyed (pmk : bytes) (s : Station) : Station :=
  s <| st_pmk := Some pmk |> <| st_sha256 := true |> <| st_owe := true |> <| st_psk_sha256 := false |>
    <| st_pmf := true |>.

(** The Diffie-Hellman exchange of an OWE association: the element of the
    answer, or a refusal of the group. *)
Definition owe_exchange (fuel : nat) (sta frame_body : bytes) (ap : Ap) :
    res (result (option bytes) Z * Ap) :=
  if ap_owe ap && (4 <? length frame_body)%nat then
    let! dh := parse_dh_param (drop 4 frame_body) in
    match dh with
    | None => Val (Ok None, ap)
    | Some (group, sta_pub) =>
        if negb (group =? 19) then Val (Err STATUS_FINITE_CYCLIC_GROUP_NOT_SUPPORTED, ap)
        else
          let! '(private, public, ap) := owe_keypair fuel ap in
          let! derived := owe_derive private sta_pub sta_pub public group in
          match derived with
          | Some (pmk, _) =>
              Val (Ok (Some (build_dh_param_element group public)), upd_station sta (owe_keyed pmk) ap)
          | None => Val (Ok None, ap)
          end
    end
  else Val (Ok None, ap).

(** The (Re)Association Response, in the context of the link of the request. *)
Definition assoc_response (sta : bytes) (resp_subtype : Z) (owe_dh : option bytes) (ap : Ap) :
    res (bytes * Ap) :=
  let (aid, ap) := next_aid ap in
  let (sc, ap) := next_sc ap in
  let link := default (own_link ap) (association_link ap) in
  let! assoc := build_assoc_resp (ml_mac link) sta (ap_ssid ap) (ml_channel link) aid sc resp_subtype
                  (ap_country ap) (ml_width link) (ml_band6 link) (ap_wmm ap) (ap_phy_mode ap) (ap_punct ap) in
  let! assoc := protect_capability 30 ap assoc in
  let assoc := assoc ++ bss_max_idle_element 300 in
  let! assoc :=
    match ap_stations ap !! sta with
    | Some s =>
        if ap_mld ap && bool_decide (is_Some (st_client_mld_mac s)) then
          let! info := mld_assoc_link_info_for (st_client_mld_links s) ap in
          let! basic := mld_basic_element (association_link_id ap) info ap in
          let! mapping := mld_tid_to_link_element ap in
          Val (assoc ++ basic ++ mapping)
        else Val assoc
    | None => Val assoc
    end in
  Val (assoc ++ default [] owe_dh, ap).

(** The pending message is to be transmitted (again) from now on. *)
Definition eapol_sent (now : Z) (s : Station) : Station :=
  s <| st_eapol_tx := now |> <| st_eapol_retries := 0 |> <| st_eapol_acked := false |>.

(** The ANonce and replay counter of message 1: those of a handshake in
    progress, those held for the station, or new ones. *)
Definition m1_nonce (now : Z) (sta : bytes) (ap : Ap) : (bytes * Z) * Ap :=
  let ap := ap <| ap_pending_anonce :=
    filter (fun p : bytes * PendingHandshake => duration_since now (ph_created_at p.2) < ANONCE_HOLD)
      (ap_pending_anonce ap) |> in
  let existing_station :=
    s ← ap_stations ap !! sta;
    if st_eapol_ready s then anonce ← st_anonce s; Some (anonce, st_eapol_replay s) else None in
  let existing_pending :=
    h ← ap_pending_anonce ap !! sta; Some (ph_anonce h, ph_replay_counter h) in
  match union existing_station existing_pending with
  | Some pending => (pending, ap)
  | None =>
      let (anonce, ap) := match ap_test_anonce ap with Some a => (a, ap) | None => random_bytes 32 ap end in
      let (replay, ap) := next_eapol_replay ap in
      ((anonce, replay), ap)
  end.

Definition m1_started (anonce : bytes) (replay : Z) (s : Station) : Station :=
  s <| st_anonce := Some anonce |> <| st_eapol_ready := true |> <| st_eapol_replay := replay |>
    <| st_m1_replay := replay |> <| st_ptk_candidates := [] |>.

(** Message 1 for the station as it is now. *)
Definition assoc_m1 (sta anonce : bytes) (replay sc : Z) (s : Station) (cipher : DataCipher) (ap : Ap) : bytes :=
  if ap_mld ap && bool_decide (is_Some (st_client_mld_mac s)) then
    build_eapol_m1_mld (ap_mac ap) sta anonce replay sc (key_mic s) (ap_mld_mac ap)
  else build_eapol_m1_for_key_length (ap_mac ap) sta anonce replay sc (key_mic s) (Z.of_nat (key_len cipher)).

(** The four-way handshake starts: association response, then message 1. *)
Definition start_four_way (now : Z) (sta : bytes) (cipher : DataCipher) (assoc : bytes) (ap : Ap)
    (out : Outgoing) : res (Ap * Outgoing) :=
  let '((anonce, replay), ap) := m1_nonce now sta ap in
  let ap := ap <| ap_pending_anonce :=
    <[sta := {| ph_anonce := anonce; ph_replay_counter := replay; ph_created_at := now |}]>
      (ap_pending_anonce ap) |> in
  let ap := schedule_maintenance (now + ANONCE_HOLD) ap in
  let! s := expect (ap_stations ap !! sta) in
  let ap := upd_station sta (m1_started anonce replay) ap in
  let (m1_sc, ap) := next_sc ap in
  let m1 := assoc_m1 sta anonce replay m1_sc (m1_started anonce replay s) cipher ap in
  let ap := upd_station sta (fun s =>
    eapol_sent now (s <| st_pending_eapol := Some (prepend_radiotap m1) |>)) ap in
  let ap := arm_eapol_timer sta ap in
  Val (ap, out_tx m1 (out_tx assoc out)).

(** The request is admitted: the answer, and message 1 unless message 3 is
    already on its way. *)
Definition admit_station (now : Z) (sta : bytes) (resp_subtype : Z) (cipher : DataCipher) (owe_dh : option bytes)
    (ap : Ap) (out : Outgoing) : res (Ap * Outgoing) :=
  let! '(assoc, ap) := assoc_response sta resp_subtype owe_dh ap in
  let pending_m3 := s ← ap_stations ap !! sta; if st_awaiting_m4 s then st_pending_eapol s else None in
  match pending_m3 with
  | Some m3 =>
      let out := out_tx assoc out in
      let ap := arm_eapol_timer sta (upd_station sta (eapol_sent now) ap) in
      Val (ap, out_push m3 out)
  | None => start_four_way now sta cipher assoc ap out
  end.

(** After the station record is updated: SAE must be confirmed, requests are
    spaced, and a key must be known where the network demands one. *)
Definition admit_keyed (fuel : nat) (now : Z) (sta : bytes) (reassoc : bool) (frame_body : bytes)
    (r : AssocRequest) (ap : Ap) (out : Outgoing) : res (Ap * Outgoing) :=
  let pmkids := default [] (parse_rsn_pmkids (ar_rsn r)) in
  let ap := pmksa_lookup now sta pmkids ap in
  if ar_requests_sae r && negb (length pmkids =? 0)%nat && negb (has_pmk sta ap) then
    Val (reject_assoc_status sta reassoc STATUS_INVALID_PMKID ap out)
  else
    let! '(owe, ap) := owe_exchange fuel sta frame_body ap in
    match owe with
    | Err status => Val (reject_assoc_status sta reassoc status ap out)
    | Ok owe_dh =>
        if match security_mode ap with Wpa3Sae | Owe => negb (has_pmk sta ap) | _ => false end then
          Val (reject_assoc sta reassoc ap out)
        else
          admit_station now sta (if reassoc then 0x03 else SUBTYPE_ASSOC_RESP) (ar_cipher r) owe_dh ap out
    end.

Definition sae_unconfirmed (s : Station) : bool :=
  bool_decide (is_Some (st_sae s)) && negb (st_sae_confirmed s).
Definition backing_off (now : Z) (s : Station) : bool :=
  match st_last_assoc s with Some t => duration_since now t <? BACKOFF | None => false end.

Definition handle_assoc_req (fuel : nat) (now : Z) (frame : Dot11) (ap : Ap) (out : Outgoing) :
    res (Ap * Outgoing) :=
  if negb (beq (addr1 frame) (ap_mac ap)) then Val (ap, out)
  else
    let sta := addr2 frame in
    let reassoc := subtype frame =? SUBTYPE_REASSOC_REQ in
    if ap_credential_reload_pending ap then Val (reject_assoc sta reassoc ap out)
    else
      let (allowed, ap) := allow_assoc_request sta now ap in
      if negb allowed then Val (ap, out)
      else if pmf_session_protected ap sta then
        let (sc, ap) := next_sc ap in
        sa_query_challenge now sta ap (out_tx (build_assoc_resp_comeback (ap_mac ap) sta 1000 sc) out)
      else
        let! checked := check_assoc sta reassoc (body frame) ap in
        match checked with
        | Err status => Val (reject_assoc_status sta reassoc status ap out)
        | Ok r =>
            let! client_wmm := request_wmm reassoc (body frame) in
            let ap := upd_station sta
              (note_request (ap_wmm ap) client_wmm (transition_mode ap) (ap_mld ap)
                 (association_link_id ap) (body frame) r)
              (station_entry now sta ap) in
            match ap_stations ap !! sta with
            | Some s =>
                if sae_unconfirmed s then Val (ap, out)
                else if backing_off now s then Val (ap, out)
                else
                  admit_keyed fuel now sta reassoc (body frame) r
                    (upd_station sta (fun s => s <| st_last_assoc := Some now |>) ap) out
            | None => Panic
            end
        end.

(** * Open-system authentication (ap/receive.rs) *)

(** A fresh authentication retires whatever session the record held. *)
Definition retire_session (now : Z) (gtk : bytes) (s : Station) : Station :=
  s <| st_last_auth := Some now |> <| st_anonce := None |> <| st_eapol_ready := false |>
    <| st_awaiting_m4 := false |> <| st_associated := false |> <| st_eapol_replay := 0 |>
    <| st_m1_replay := 0 |> <| st_ptk_candidates := [] |> <| st_last_rx_pn := replicate 17 0 |>
    <| st_last_rx_mgmt_pn := 0 |> <| st_sa_query := None |> <| st_sha256 := false |>
    <| st_owe := false |> <| st_psk_sha256 := false |> <| st_pmf := false |> <| st_sae_h2e := false |>
    <| st_kck := replicate 16 0 |> <| st_kek := replicate 16 0 |> <| st_tk := replicate 16 0 |>
    <| st_pairwise_tk := replicate 32 0 |> <| st_gtk := gtk |> <| st_group_rekeying := false |>
    <| st_pending_eapol := None |> <| st_pmk := None |>.

Definition auth_retransmit (now : Z) (s : Station) : bool :=
  match st_last_auth s with Some t => duration_since now t <? BACKOFF | None => false end.
Definition mid_handshake (s : Station) : bool :=
  bool_decide (is_Some (st_anonce s)) && st_eapol_ready s && negb (st_awaiting_m4 s).

(** The record after an open authentication, and the session it retired. *)
Definition restart_session (now : Z) (sta : bytes) (s : Station) (ap : Ap) : option bytes * Ap :=
  if auth_retransmit now s then (None, ap)
  else if mid_handshake s then
    (None, upd_station sta (fun s => s <| st_last_auth := Some now |>) ap)
  else
    let restarted := if st_associated s then Some (default sta (st_client_mld_mac s)) else None in
    let (gtk, ap) := random_bytes 16 ap in
    (restarted, upd_station sta (retire_session now gtk) ap).

Definition open_auth (now : Z) (sta : bytes) (ap : Ap) (out : Outgoing) : res (Ap * Outgoing) :=
  let ap := station_entry now sta ap in
  let! s := expect (ap_stations ap !! sta) in
  let (restarted, ap) := restart_session now sta s ap in
  let ap :=
    match restarted with
    | Some mac =>
        let ap := push_event (Disconnected mac 0) ap in
        if ap_strict_rekey ap && any_station st_associated ap then ap <| ap_group_rekey_due := true |> else ap
    | None => ap
    end in
  let (sc, ap) := next_sc (ap <| ap_sc := -1 |>) in
  Val (ap, out_tx (build_auth (ap_mac ap) sta sc) out).

End Association.

(** * Well-formed states

    What admission relies on besides [ap_ok]: the advertised configuration, the
    cached keys and the held nonces, and the bounds of the two tables. *)
Record admit_ok (ap : Ap) : Prop := {
  ad_bss : bss_ok ap;
  ad_cache : map_Forall (fun _ e => arr 32 (pe_pmk e)) (ap_pmksa_cache ap);
  ad_cache_size : (size (ap_pmksa_cache ap) <= PMKSA_CACHE_MAX)%nat;
  ad_pending : map_Forall (fun _ h => arr 32 (ph_anonce h) /\ u64_ok (ph_replay_counter h)) (ap_pending_anonce ap);
  ad_test : opt_ok (arr 32) (ap_test_anonce ap);
  ad_rates : (size (ap_request_rates ap) <= REQUEST_RATE_ENTRY_MAX)%nat
}.

(** The configuration, which no admission changes. *)
Definition fixed (ap : Ap) :=
  (ap_static ap, (ap_country ap, ap_punct ap, ap_bss_change_count ap, ap_mld_default_link_mask ap,
   ap_mld_eml_capability ap, ap_mld_driver_capability ap, ap_mld_link_phy_capabilities ap, ap_phy_mode ap),
   (ap_pending_csa ap, ap_rnr_6ghz ap, ap_wmm ap, ap_beacon_prot ap, ap_mgmt_rx_link ap),
   (ap_credential_passwords_by_mac ap, ap_wildcard_credential_password ap, ap_password ap,
    ap_sae_credentials_authoritative ap, ap_credential_reload_pending ap, ap_sae_token_key ap, ap_boottime ap)).

Definition carries (f : gmap bytes Station -> gmap bytes Station) (ap ap' : Ap) : Prop :=
  moves_stations f ap ap' /\ fixed ap' = fixed ap /\ admit_ok ap'.

Lemma bss_ok_fixed ap ap' : fixed ap' = fixed ap -> bss_ok ap -> bss_ok ap'.
Proof.
  unfold fixed, ap_static. intros E H. injection E. intros.
  destruct H. constructor;
    repeat match goal with X : _ ap' = _ ap |- _ => rewrite X; clear X end; assumption.
Qed.

Lemma admit_ok_cache ap cache :
  admit_ok ap -> map_Forall (fun _ e => arr 32 (pe_pmk e)) cache -> (size cache <= PMKSA_CACHE_MAX)%nat ->
  admit_ok (ap <| ap_pmksa_cache := cache |>).
Proof.
  intros [B Hc Hs Hp Ht Hr] Hc' Hs'. constructor; fields; try assumption. by apply (bss_ok_fixed ap).
Qed.

Lemma admit_ok_pending ap pending :
  admit_ok ap -> map_Forall (fun _ h => arr 32 (ph_anonce h) /\ u64_ok (ph_replay_counter h)) pending ->
  admit_ok (ap <| ap_pending_anonce := pending |>).
Proof.
  intros [B Hc Hs Hp Ht Hr] Hp'. constructor; fields; try assumption. by apply (bss_ok_fixed ap).
Qed.

Lemma carries_refl ap : ap_ok ap -> admit_ok ap -> carries id ap ap.
Proof. intros H A. split; [by split|]. by split. Qed.

Lemma carries_trans f g ap1 ap2 ap3 :
  carries f ap1 ap2 -> carries g ap2 ap3 -> carries (fun m => g (f m)) ap1 ap3.
Proof.
  intros (M1 & F1 & _) (M2 & F2 & A). split; [by eapply moves_trans|]. split; [congruence|done].
Qed.

(** Steps that leave the tables alone. *)
Lemma carries_same f ap ap' :
  moves_stations f ap ap' -> fixed ap' = fixed ap -> admit_ok ap ->
  ap_pmksa_cache ap' = ap_pmksa_cache ap -> ap_pending_anonce ap' = ap_pending_anonce ap ->
  ap_test_anonce ap' = ap_test_anonce ap -> ap_request_rates ap' = ap_request_rates ap ->
  carries f ap ap'.
Proof.
  intros M F A E1 E2 E3 E4. split; [done|]. split; [done|]. pose proof (bss_ok_fixed _ _ F (ad_bss _ A)) as B.
  destruct A. constructor; rewrite ?E1, ?E2, ?E3, ?E4; assumption.
Qed.

Lemma carries_upd sta f ap :
  ap_ok ap -> admit_ok ap -> (forall s, station_ok s -> station_ok (f s)) ->
  carries (alter f sta) ap (upd_station sta f ap).
Proof. intros H A Hf. apply carries_same; try done. by apply moves_upd. Qed.

Lemma carries_next_sc ap : ap_ok ap -> admit_ok ap -> carries id ap (next_sc ap).2.
Proof. intros H A. apply carries_same; try done. by apply moves_next_sc. Qed.

Lemma carries_next_aid ap : ap_ok ap -> admit_ok ap -> carries id ap (next_aid ap).2.
Proof. intros H A. apply carries_same; try done. split; [unfold next_aid; cbn [snd]; keep_ap_ok H|done]. Qed.

Lemma carries_next_replay ap : ap_ok ap -> admit_ok ap -> carries id ap (next_eapol_replay ap).2.
Proof. intros H A. apply carries_same; try done. by apply moves_next_replay. Qed.

Lemma carries_arm sta ap : ap_ok ap -> admit_ok ap -> carries (alter timer_armed sta) ap (arm_eapol_timer sta ap).
Proof.
  intros H A. apply carries_same; try done; [by apply moves_arm|..];
    unfold arm_eapol_timer; repeat case_match; done.
Qed.

Lemma carries_schedule d ap : ap_ok ap -> admit_ok ap -> carries id ap (schedule_maintenance d ap).
Proof.
  intros H A. apply carries_same; try done; [by apply schedule_maintenance_moves|..];
    unfold schedule_maintenance; repeat case_match; done.
Qed.

Lemma carries_random `{Entropy} n ap : ap_ok ap -> admit_ok ap -> carries id ap (random_bytes n ap).2.
Proof.
  intros Hk A. apply carries_same; try done. split; [unfold random_bytes; cbn [snd]; keep_ap_ok Hk|done].
Qed.

(** * Multi-link associations *)

(** No other station uses the address, as its own, its MLD's or a link's. *)
Definition unused_by_others (sta mac : bytes) (ap : Ap) : Prop :=
  forall other s, other <> sta -> ap_stations ap !! other = Some s ->
    other <> mac /\ st_client_mld_mac s <> Some mac /\ Forall (fun l => l.2 <> mac) (st_client_mld_links s).

Lemma peer_mac_unused sta mac ap :
  peer_mac_in_use_by_other_station sta mac ap = false <-> unused_by_others sta mac ap.
Proof.
  unfold peer_mac_in_use_by_other_station, unused_by_others. rewrite <- not_true_iff_false, existsb_exists.
  assert (Hs : forall other s, station_uses_mac mac other s = false <->
    other <> mac /\ st_client_mld_mac s <> Some mac /\ Forall (fun l => l.2 <> mac) (st_client_mld_links s)).
  { intros other s. unfold station_uses_mac. rewrite !orb_false_iff, bool_decide_eq_false.
    assert (He : existsb (fun l : Z * bytes => beq l.2 mac) (st_client_mld_links s) = false <->
      Forall (fun l => l.2 <> mac) (st_client_mld_links s)).
    { rewrite <- not_true_iff_false, existsb_exists, Forall_forall. split.
      - intros H l Hl E. apply H. exists l. split; [by apply list_elem_of_In|by apply beq_true].
      - intros H (l & Hl & E%beq_true). apply (H l); [by apply list_elem_of_In|done]. }
    rewrite He, <- (not_true_iff_false (beq other mac)), beq_true. tauto. }
  split.
  - intros H other s Hne Hlk. apply Hs. apply not_true_iff_false. intros Hu. apply H. exists (other, s).
    split; [by apply list_elem_of_In, elem_of_map_to_list|]. cbn [fst snd]. rewrite Hu, andb_true_r.
    apply negb_true_iff, not_true_iff_false. by rewrite beq_true.
  - intros H ([other s] & Hin & E). apply list_elem_of_In, elem_of_map_to_list in Hin. cbn [fst snd] in E.
    apply andb_prop in E as [E1%negb_true_iff E2]. apply not_true_iff_false in E1.
    assert (Hne : other <> sta) by (intros ->; by rewrite beq_refl in E1).
    apply (H other s Hne) in Hin. apply Hs in Hin. congruence.
Qed.

(** A link a client may ask for: configured, not the one of the request itself,
    with a proper address that nobody else has. *)
Record link_acceptable (sta client_mld : bytes) (ap : Ap) (l : Z * bytes) : Prop := {
  la_configured : l.1 ∈ configured_links ap;
  la_other : l.1 <> association_link_id ap;
  la_valid : is_valid_peer_mac l.2 = true;
  la_ap : l.2 ∉ ap_addrs ap;
  la_own : l.2 <> sta /\ l.2 <> client_mld;
  la_free : unused_by_others sta l.2 ap
}.

Record peer_acceptable (sta client_mld : bytes) (ap : Ap) : Prop := {
  pa_sta : is_valid_peer_mac sta = true;
  pa_mld : is_valid_peer_mac client_mld = true;
  pa_sta_ap : sta ∉ ap_addrs ap;
  pa_mld_ap : client_mld ∉ ap_addrs ap;
  pa_free : unused_by_others sta client_mld ap
}.

Lemma validate_links_spec sta client_mld ap ids macs profiles links :
  validate_links sta client_mld ap ids macs profiles = Some links <->
  links = profiles /\ Forall (link_acceptable sta client_mld ap) profiles /\
  NoDup (map fst profiles) /\ NoDup (map snd profiles) /\
  Forall (fun l => l.1 ∉ ids /\ l.2 ∉ macs) profiles.
Proof.
  revert ids macs links. induction profiles as [|[i m] ps IH]; intros ids macs links.
  { cbn. split; [intros [= <-]; repeat split; constructor|by intros [-> _]]. }
  cbn [validate_links map fst snd].
  match goal with |- context [if ?c then _ else _] => destruct c eqn:Ec end.
  - split; [done|]. intros (-> & Hall & Hn1 & Hn2 & Hd). exfalso.
    apply Forall_cons in Hall as [[L1 L2 L3 L4 [L5 L5'] L6] _]. apply Forall_cons in Hd as [[D1 D2] _].
    cbn [fst snd] in *. rewrite L3, (proj2 (peer_mac_unused sta m ap) L6) in Ec.
    rewrite (bool_decide_eq_true_2 (i ∈ configured_links ap)), (proj2 (Z.eqb_neq _ _)) in Ec by done.
    rewrite !bool_decide_eq_false_2 in Ec; [done|set_solver..].
  - rewrite !orb_false_iff in Ec. destruct Ec as [[[[[[[E1 E2] E3] E4] E5] E6] E7] E8].
    apply negb_false_iff, bool_decide_eq_true in E1. apply Z.eqb_neq in E2. apply negb_false_iff in E3.
    apply bool_decide_eq_false in E4, E5, E6, E7. apply peer_mac_unused in E8.
    assert (Ha : link_acceptable sta client_mld ap (i, m)) by (constructor; cbn [fst snd]; try done; set_solver).
    split.
    + intros H. apply bind_Some in H as (ls & H & [= <-]). apply IH in H as (-> & Hall & Hn1 & Hn2 & Hd).
      split; [done|]. split; [by constructor|].
      rewrite Forall_forall in Hd. split; [|split].
      * constructor; [|done]. intros ([i' m'] & Ei & Hin)%list_elem_of_fmap. cbn in Ei. subst i'.
        destruct (Hd _ Hin) as [Hd1 _]. cbn in Hd1. set_solver.
      * constructor; [|done]. intros ([i' m'] & Em & Hin)%list_elem_of_fmap. cbn in Em. subst m'.
        destruct (Hd _ Hin) as [_ Hd2]. cbn in Hd2. set_solver.
      * constructor; [done|]. apply Forall_forall. intros l Hl. destruct (Hd l Hl). set_solver.
    + intros (-> & Hall & Hn1 & Hn2 & Hd). apply Forall_cons in Hall as [_ Hall], Hd as [_ Hd].
      apply NoDup_cons in Hn1 as [Hi Hn1], Hn2 as [Hm Hn2].
      assert (H : validate_links sta client_mld ap ({[i]} ∪ ids) ({[m]} ∪ macs) ps = Some ps).
      { apply IH. do 4 (split; [done|]). rewrite Forall_forall in *. intros l Hl. destruct (Hd l Hl).
        assert (l.1 <> i) by (intros <-; apply Hi; by apply list_elem_of_fmap_2).
        assert (l.2 <> m) by (intros <-; apply Hm; by apply list_elem_of_fmap_2). set_solver. }
      by rewrite H.
Qed.

(** The links of a multi-link association are accepted exactly when the
    client's two addresses are proper and unused, and every Per-STA Profile
    names a configured link other than the one of the request, with a proper
    address of its own: no link twice, no address twice, none of the access
    point's, none of another station's.  Accepted links are those of the
    request, all of them. *)
Lemma mld_links_validated sta client_mld ies ap :
  exists profiles accepted, parse_mld_link_macs_checked ies = Val profiles /\
    validate_mld_assoc_links sta client_mld ies ap = Val accepted /\
    forall links, accepted = Some links <->
      profiles = Some links /\ peer_acceptable sta client_mld ap /\
      Forall (link_acceptable sta client_mld ap) links /\ NoDup (map fst links) /\ NoDup (map snd links).
Proof.
  unfold validate_mld_assoc_links, parse_mld_link_macs_checked at 1. rewrite parse_mld_link_profiles_spec.
  cbn [rmap rbind]. set (o := option_map _ _). exists o.
  match goal with |- context [if ?c then Val None else _] => destruct c eqn:Ec end.
  - exists None. do 2 (split; [done|]). intros links. split; [done|]. intros (_ & [A1 A2 A3 A4 A5] & _). exfalso.
    rewrite A1, A2, (proj2 (peer_mac_unused _ _ _) A5), !bool_decide_eq_false_2 in Ec by done. done.
  - rewrite !orb_false_iff in Ec. destruct Ec as [[[[E1 E2] E3] E4] E5].
    apply negb_false_iff in E1, E2. apply bool_decide_eq_false in E3, E4. apply peer_mac_unused in E5.
    unfold parse_mld_link_macs_checked. rewrite parse_mld_link_profiles_spec. cbn [rmap rbind]. fold o.
    eexists. do 2 (split; [done|]). intros links. destruct o as [ps|]; cbn [mbind option_bind]; [|naive_solver].
    rewrite validate_links_spec. split.
    + intros (-> & Hall & Hn1 & Hn2 & _). split; [done|]. split; [by constructor|]. done.
    + intros ([= ->] & _ & Hall & Hn1 & Hn2). do 4 (split; [done|]). apply Forall_forall. intros l _. by split; apply not_elem_of_empty.
Qed.

(** * The checks of a request *)

Lemma elements_wf ies : wf_bytes ies -> Forall (fun t => wf_bytes t.2) (elements ies).
Proof.
  intros H. rewrite <- (encode_split ies H) in H. apply wf_bytes_app_iff in H as [H _].
  induction (elements ies) as [|[id b] ts IH]; [constructor|].
  rewrite encode_elements_cons in H. apply wf_bytes_app_iff in H as [H1 H2].
  constructor; [|by apply IH]. unfold ie in H1. cbn [app fst snd] in *.
  apply Forall_cons in H1 as [_ H1]. by apply Forall_cons in H1 as [_ H1].
Qed.

Lemma first_some_in {A B} (f : A -> option B) l y :
  first_some f l = Some y -> exists x, x ∈ l /\ f x = Some y.
Proof.
  induction l as [|x l IH]; [done|]. rewrite first_some_cons. destruct (f x) as [b|] eqn:E.
  - intros [= ->]. exists x. split; [by left|done].
  - intros H. destruct (IH H) as (x' & Hin & Hx). exists x'. split; [by right|done].
Qed.

Lemma parse_mld_mac_arr ies m : wf_bytes ies -> parse_mld_mac ies = Val (Some m) -> arr 6 m.
Proof.
  rewrite parse_mld_mac_spec. intros Hw [= H]. apply first_some_in in H as (t & Hin & Ht).
  pose proof (elements_wf ies Hw) as He. rewrite Forall_forall in He. specialize (He t Hin).
  rewrite mld_mac_of_eq in Ht. unfold mle_data in Ht. destruct t.2 as [|x data]; [done|].
  destruct (_ && _); [|done]. apply Forall_cons in He as [_ He].
  destruct (Nat.leb_spec 9 (length data)); [|done]. cbn [andb] in Ht.
  destruct (_ && _); [|done]. injection Ht as <-. apply arr_sub; [done|lia|lia].
Qed.

(** The first Diffie-Hellman Parameter element. *)
Definition dh_of (t : Z * bytes) : option (Z * bytes) :=
  match t.2 with
  | x :: g0 :: g1 :: key => if (t.1 =? 255) && (x =? 32) then Some (le_val [g0; g1], key) else None
  | _ => None
  end.

Lemma parse_dh_param_spec ies : parse_dh_param ies = Val (first_some dh_of (elements ies)).
Proof.
  apply (walker_spec ies (fun i => i) _ (fun i => first_some dh_of (elements (drop i ies)))); [|lia].
  intros i Hi. unfold parse_dh_param_step. walk i; [leave| |leave].
  rewrite (slice_ok ies) by lia. cbn [rbind].
  rewrite first_some_cons. set (b := sub ies (i + 2) e).
  assert (Hl : length b = Z.to_nat (nth (i + 1) ies 0)) by (unfold b; rewrite length_sub; lia).
  unfold dh_of. cbn [fst snd].
  destruct (Nat.leb_spec 3 (Z.to_nat (nth (i + 1) ies 0))) as [H3|H3].
  - destruct b as [|x [|g0 [|g1 key]]] eqn:Eb; try (simpl in Hl; lia).
    destruct (nth i ies 0 =? 255); cbn [andb]; [|next].
    rewrite idx_ok by (simpl; lia). cbn [rbind nth].
    destruct (x =? 32); [|next].
    rewrite slice_ok, slice_from_ok by (simpl; lia). cbn [rbind]. leave.
  - rewrite andb_false_r. cbn [rbind]. next.
    destruct b as [|x [|g0 [|g1 key]]]; try done. simpl in Hl. lia.
Qed.

Lemma parse_dh_param_wf ies g k : wf_bytes ies -> parse_dh_param ies = Val (Some (g, k)) -> wf_bytes k.
Proof.
  rewrite parse_dh_param_spec. intros Hw [= H]. apply first_some_in in H as (t & Hin & Ht).
  pose proof (elements_wf ies Hw) as He. rewrite Forall_forall in He. specialize (He t Hin).
  unfold dh_of in Ht. destruct t.2 as [|x [|g0 [|g1 key]]]; try done.
  destruct (_ && _); [|done]. injection Ht as _ <-.
  do 3 (apply Forall_cons in He as [_ He]). exact He.
Qed.

(** The status codes of a refusal. *)
Definition refusal (status : Z) : Prop := status ∈ [1; 40; 43; 53; 77].

Lemma negotiate_refusal rsn mode supported status :
  negotiate_assoc_pairwise_cipher rsn mode supported = Err status -> refusal status.
Proof.
  unfold negotiate_assoc_pairwise_cipher, refusal. intros E.
  repeat case_match; try discriminate; injection E as <-; by apply (bool_decide_unpack _).
Qed.

Lemma validate_mld_total sta client_mld ies ap :
  exists o, validate_mld_assoc_links sta client_mld ies ap = Val o.
Proof.
  unfold validate_mld_assoc_links, parse_mld_link_macs_checked. rewrite parse_mld_link_profiles_spec.
  case_match; by eexists.
Qed.

Lemma assoc_mld_total sta ies ap :
  wf_bytes ies -> exists v, assoc_mld sta ies ap = Val v /\
    match v with
    | Err status => refusal status
    | Ok None => True
    | Ok (Some (m, _)) => arr 6 m /\ ap_mld ap = true /\
        forall prev, ap_stations ap !! sta ≫= st_client_mld_mac = Some prev -> prev = m
    end.
Proof.
  intros Hw. unfold assoc_mld. destruct (ap_mld ap); cbn [negb]; [|by eexists].
  destruct (parse_mld_mac ies) as [o| |] eqn:Em; try (by rewrite parse_mld_mac_spec in Em).
  rewrite has_basic_multi_link_spec. cbn [rbind].
  destruct o as [m|].
  2:{ eexists. split; [done|]. destruct (existsb _ _); [by apply (bool_decide_unpack _)|done]. }
  pose proof (parse_mld_mac_arr ies m Hw Em) as Hm.
  destruct (match ap_stations ap !! sta ≫= st_client_mld_mac with Some _ => _ | None => _ end) eqn:Ec;
    [eexists; split; [done|by apply (bool_decide_unpack _)]|].
  destruct (validate_mld_total sta m ies ap) as [[links|] ->]; cbn [rbind];
    eexists; (split; [done|]); [|by apply (bool_decide_unpack _)].
  split; [done|]. split; [done|]. intros prev Hp. rewrite Hp in Ec.
  apply negb_false_iff, beq_true in Ec. done.
Qed.

(** A request passes or is refused with a status; what passes is well formed. *)
Lemma check_assoc_total sta reassoc b ap :
  wf_bytes b -> exists v, check_assoc sta reassoc b ap = Val v /\
    match v with
    | Err status => refusal status
    | Ok r => ar_ies r = drop (assoc_ie_off reassoc) b /\
        negotiate_assoc_pairwise_cipher (ar_rsn r) (security_mode ap) (pairwise_ciphers ap) = Ok (ar_cipher r) /\
        ar_requests_sae r = rsn_has_akm (ar_rsn r) 8 /\
        (forall m links, ar_mld r = Some (m, links) -> arr 6 m /\ ap_mld ap = true /\
          forall prev, ap_stations ap !! sta ≫= st_client_mld_mac = Some prev -> prev = m)
    end.
Proof.
  intros Hw. unfold check_assoc. destruct (_ <? _)%nat; [eexists; split; [done|by apply (bool_decide_unpack _)]|].
  set (ies := drop _ b). assert (Hiw : wf_bytes ies) by (unfold ies; auto with bytes).
  rewrite find_ie_strict_spec. cbn [rbind].
  destruct (strict_answer _ _ _) as [[rsn|]|]; try (eexists; split; [done|by apply (bool_decide_unpack _)]).
  destruct (negotiate_assoc_pairwise_cipher rsn _ _) as [c|status] eqn:En;
    [|eexists; split; [done|by eapply negotiate_refusal]].
  match goal with |- context [rbind (if rsn_has_akm rsn 8 then ?x else Val true)] =>
    assert (Hh : exists b0, (if rsn_has_akm rsn 8 then x else Val true) = Val b0) end.
  { destruct (rsn_has_akm rsn 8); [|by eexists]. rewrite find_ie_consistent_spec. cbn [rbind]. by eexists. }
  destruct Hh as (hok & ->). cbn [rbind].
  destruct hok; cbn [negb]; [|eexists; split; [done|by apply (bool_decide_unpack _)]].
  destruct (assoc_mld_total sta ies ap Hiw) as (v & -> & Hv). cbn [rbind].
  destruct v as [mld|status]; eexists; (split; [done|]); [|done].
  cbn [ar_ies ar_rsn ar_cipher ar_requests_sae ar_mld]. do 3 (split; [done|]). intros m links ->. exact Hv.
Qed.

(** * The operations, one by one *)

(** What admission must not disturb in a record: the handshake and the keys. *)
Definition session (s : Station) :=
  ((st_associated s, st_eapol_ready s, st_awaiting_m4 s, st_anonce s, st_group_rekeying s),
   (st_kck s, st_kek s, st_tk s, st_pairwise_tk s, st_client_pn s, st_last_rx_pn s, st_last_rx_mgmt_pn s),
   (st_eapol_replay s, st_m1_replay s, st_ptk_candidates s, st_pending_eapol s),
   (st_sae s, st_sae_confirmed s, st_sae_commit s, st_sae_resp s)).

Definition note_ok (r : AssocRequest) : Prop :=
  wf_bytes (ar_ies r) /\ forall m links, ar_mld r = Some (m, links) -> arr 6 m.

(** The fields that [station_ok] constrains, less those of the request. *)
Definition core (s : Station) :=
  ((st_kck s, st_kek s, st_pairwise_tk s, st_client_pn s, st_last_rx_pn s, st_last_rx_mgmt_pn s),
   (st_eapol_replay s, st_m1_replay s, st_ptk_candidates s, st_anonce s, st_pmk s, st_eapol_retries s),
   (st_gtk s, st_gtk_key_id s, st_gtk_rsc s, st_igtk s, st_igtk_key_id s, st_igtk_ipn s)).

Lemma station_ok_core s s' :
  core s' = core s -> opt_ok (arr 6) (st_client_mld_mac s') -> wf_bytes (st_assoc_ies s') ->
  station_ok s -> station_ok s'.
Proof.
  unfold core. intros E Hm Hi H. injection E. intros.
  destruct H. constructor; repeat match goal with X : _ s' = _ s |- _ => rewrite X; clear X end; assumption.
Qed.

Lemma note_request_ok w cw tr mld link b r s :
  note_ok r -> station_ok s -> station_ok (note_request w cw tr mld link b r s).
Proof.
  intros [Hw Hm] H. apply (station_ok_core s); [unfold note_request; by repeat case_match| | |done].
  - pose proof (so_mld s H) as Hs. unfold note_request. destruct (ar_mld r) as [[m ls]|] eqn:E.
    + by apply (Hm m ls).
    + repeat case_match; exact Hs.
  - unfold note_request. repeat case_match; exact Hw.
Qed.

Lemma note_request_session w cw tr mld link b r s : session (note_request w cw tr mld link b r s) = session s.
Proof. unfold note_request. by repeat case_match. Qed.

Lemma station_new_ok mac now gtk igtk :
  arr 16 gtk -> arr 16 igtk -> station_ok (station_new mac now gtk igtk).
Proof.
  intros Hg Hi. constructor; unfold station_new; fields; try done;
    try (by apply (bool_decide_unpack _)); by left.
Qed.

Section Operations.
Context `{Entropy} `{!EntropyOk _} {P : Primitives} {Pok : PrimitivesOk P} {C : P256} {Cok : P256Ok C}.

(** The stations with a record for [sta]. *)
Definition entered (sta : bytes) (s0 : Station) (m : gmap bytes Station) : gmap bytes Station :=
  match m !! sta with Some _ => m | None => <[sta := s0]> m end.

Lemma entered_lookup sta s0 m : entered sta s0 m !! sta = Some (default s0 (m !! sta)).
Proof. unfold entered. destruct (m !! sta) eqn:E; [done|]. apply lookup_insert_eq. Qed.

Lemma entered_other sta s0 m k : k <> sta -> entered sta s0 m !! k = m !! k.
Proof. intros Hk. unfold entered. destruct (m !! sta); [done|]. by apply lookup_insert_ne. Qed.

Lemma station_entry_spec now sta ap :
  ap_ok ap -> admit_ok ap -> arr 6 sta ->
  exists gtk igtk, arr 16 gtk /\ arr 16 igtk /\
    carries (entered sta (station_new sta now gtk igtk)) ap (station_entry now sta ap) /\
    ap_pmksa_cache (station_entry now sta ap) = ap_pmksa_cache ap.
Proof.
  intros Hok A Hsta. set (g := os_random (ap_draws ap) 16). set (i := os_random (ap_draws ap + 1) 16).
  exists g, i. pose proof (os_random_arr (ap_draws ap) 16) as Hg. pose proof (os_random_arr (ap_draws ap + 1) 16) as Hi.
  split; [done|]. split; [done|]. unfold station_entry. destruct (ap_stations ap !! sta) as [s|] eqn:E.
  - split; [|done]. split; [split; [done|]; split; [done|]; unfold entered; by rewrite E|]. by split.
  - unfold random_bytes. fields. split; [|done]. apply carries_same; try done. split; [|split; [done|]].
    + assert (Hs : map_Forall (fun m s => arr 6 m /\ station_ok s) (<[sta := station_new sta now g i]> (ap_stations ap))).
      { apply map_Forall_insert_2; [|apply Hok]. split; [done|]. by apply station_new_ok. }
      fold g i. keep_ap_ok Hok.
    + unfold entered. rewrite E. done.
Qed.

(** ** The cached keys *)

Lemma expire_pmksa_spec now ap :
  ap_ok ap -> admit_ok ap -> carries id ap (expire_pmksa now ap) /\
  forall k e, ap_pmksa_cache (expire_pmksa now ap) !! k = Some e <->
    ap_pmksa_cache ap !! k = Some e /\ k.2 = pe_identity e /\ now < pe_expires_at e.
Proof.
  intros Hok A. split.
  - split; [split; [unfold expire_pmksa; keep_ap_ok Hok|done]|]. split; [done|].
    apply admit_ok_cache; [done| |etrans; [apply map_size_filter|apply A]].
    intros k e [Hk _]%map_lookup_filter_Some. exact (ad_cache _ A k e Hk).
  - intros k e. unfold expire_pmksa. fields. by rewrite map_lookup_filter_Some.
Qed.

Definition pmksa_keyed (o : option PmksaEntry) (s : Station) : Station :=
  match o with
  | Some e => s <| st_pmk := Some (pe_pmk e) |> <| st_sha256 := pe_sha256 e |> <| st_pmf := pe_sha256 e |>
  | None => s
  end.

(** A usable entry: for this identity, for one of the identifiers, unexpired. *)
Definition pmksa_usable (now : Z) (ap : Ap) (identity : bytes) (pmkids : list bytes) (e : PmksaEntry) : Prop :=
  exists pmkid, pmkid ∈ pmkids /\ ap_pmksa_cache ap !! (pmkid, identity) = Some e /\
    pe_identity e = identity /\ now < pe_expires_at e.

Lemma pmksa_lookup_spec now sta pmkids ap s :
  ap_ok ap -> admit_ok ap -> ap_stations ap !! sta = Some s ->
  exists o, carries (alter (pmksa_keyed o) sta) ap (pmksa_lookup now sta pmkids ap) /\
    opt_ok (pmksa_usable now ap (default sta (st_client_mld_mac s)) pmkids) o /\
    (o = None -> forall e, ~ pmksa_usable now ap (default sta (st_client_mld_mac s)) pmkids e).
Proof.
  intros Hok A Es. unfold pmksa_lookup. rewrite Es. cbn [mbind option_bind].
  set (identity := default sta (st_client_mld_mac s)).
  destruct (expire_pmksa_spec now ap Hok A) as [K Hx]. exists (cached_pmk (expire_pmksa now ap) identity pmkids).
  destruct (cached_pmk (expire_pmksa now ap) identity pmkids) as [e|] eqn:Ec; (split; [|split; [|done || idtac]]).
  - pose proof K as (M & _ & A'). pose proof M as (Hok' & _).
    pose proof (first_some_in _ _ _ Ec) as (pmkid & _ & Hk).
    apply (carries_trans id (alter (pmksa_keyed (Some e)) sta) _ _ _ K). apply carries_upd; [done|done|].
    intros s0 H0. cbn [pmksa_keyed].
    assert (Ho : opt_ok (arr 32) (Some (pe_pmk e))) by (exact (ad_cache _ A' _ _ Hk)). keep_station_ok H0.
  - pose proof (first_some_in _ _ _ Ec) as (pmkid & Hin & Hk). apply Hx in Hk as (Hk & Hid & Hexp).
    exists pmkid. by repeat split.
  - assert (E : alter (pmksa_keyed None) sta (ap_stations ap) = ap_stations ap).
    { apply map_eq. intros k. destruct (decide (k = sta)) as [->|]; [|by rewrite lookup_alter_ne].
      rewrite lookup_alter_eq. by destruct (ap_stations ap !! sta). }
    destruct K as ((M1 & M2 & M3) & F & A'). split; [|done]. split; [done|]. split; [done|]. by rewrite E.
  - done.
  - intros _ e (pmkid & Hin & Hk & Hid & Hexp). unfold cached_pmk in Ec.
    assert (He : ap_pmksa_cache (expire_pmksa now ap) !! (pmkid, identity) = Some e) by (by apply Hx).
    clear -Ec Hin He. induction Hin as [pm l|pm pm' l Hin IH]; cbn [omap list_omap] in Ec.
    + by rewrite He in Ec.
    + destruct (ap_pmksa_cache _ !! (pm', identity)); [done|]. by apply IH.
Qed.

(** The cache stays within its bound, and every entry keeps its identity. *)
Lemma cache_pmksa_spec `{!HashOrder} `{!HashOrderOk _} now id identity pmk sha ap :
  ap_ok ap -> admit_ok ap -> arr 32 pmk ->
  carries Datatypes.id ap (cache_pmksa now id identity pmk sha ap) /\
  ap_pmksa_cache (cache_pmksa now id identity pmk sha ap) !! (id, identity) =
    Some {| pe_identity := identity; pe_pmk := pmk; pe_sha256 := sha; pe_expires_at := now + PMKSA_LIFETIME |}.
Proof.
  intros Hok A Hp. destruct (expire_pmksa_spec now ap Hok A) as [K _]. unfold cache_pmksa.
  set (ap0 := expire_pmksa now ap) in *. clearbody ap0. destruct K as (M & F & A0). pose proof M as (Hok0 & _).
  set (cache := if _ && _ then _ else ap_pmksa_cache ap0). set (e := {| pe_identity := identity |}).
  assert (Hc : map_Forall (fun _ e => arr 32 (pe_pmk e)) cache /\ (size cache <= PMKSA_CACHE_MAX)%nat /\
    (is_Some (cache !! (id, identity)) \/ (size cache < PMKSA_CACHE_MAX)%nat)).
  { destruct A0 as [_ Hc Hs _ _ _]. unfold cache.
    destruct (Nat.leb_spec PMKSA_CACHE_MAX (size (ap_pmksa_cache ap0))) as [Hfull|]; cbn [andb]; [|auto].
    case_bool_decide as Hk; [|by split; [|split; [|left; apply not_eq_None_Some]]].
    assert (Hne : ap_pmksa_cache ap0 <> ∅) by (intros E; rewrite E, map_size_empty in Hfull; unfold PMKSA_CACHE_MAX in Hfull; lia).
    destruct (first_key_some _ Hne) as [v Hv]. rewrite Hv. apply first_key_in in Hv as [ev Hv].
    pose proof (map_size_delete_Some v (ap_pmksa_cache ap0) (ex_intro _ ev Hv)) as Hd.
    split; [by apply map_Forall_delete|]. unfold PMKSA_CACHE_MAX in *. split; [lia|]. right. lia. }
  destruct Hc as (Hc & Hs & Hroom). clearbody cache.
  assert (K1 : carries Datatypes.id ap (ap0 <| ap_pmksa_cache := <[(id, identity) := e]> cache |>)).
  { split; [|split; [done|]].
    - destruct M as (M1 & M2 & M3). split; [keep_ap_ok M1|done].
    - apply admit_ok_cache; [done|by apply map_Forall_insert_2|by apply size_insert_le]. }
  split.
  - apply (carries_trans Datatypes.id Datatypes.id _ _ _ K1). destruct K1 as ((K1 & _) & _ & K2). by apply carries_schedule.
  - unfold schedule_maintenance. repeat case_match; fields; apply lookup_insert_eq.
Qed.
(** ** OWE *)

(** From any point on, one of the next [fuel] draws is an acceptable scalar
    (all but one in 2^32 of the 32-octet strings are). *)
Definition entropy_yields (fuel : nat) : Prop :=
  forall d, exists n, (n < fuel)%nat /\ acceptable_scalar (os_random (d + N.of_nat n) 32) = true.

Lemma owe_private_drawn fuel d :
  (exists n, (n < fuel)%nat /\ acceptable_scalar (os_random (d + N.of_nat n) 32) = true) ->
  exists n d', loop fuel owe_private_step d = Val (os_random n 32, d') /\ acceptable_scalar (os_random n 32) = true.
Proof.
  revert d. induction fuel as [|fuel IH]; intros d (n & Hn & Ha); [lia|].
  cbn [loop]. unfold owe_private_step at 1.
  destruct (acceptable_scalar (os_random d 32)) eqn:E; cbn [rbind].
  - by exists d, (d + 1)%N.
  - destruct n as [|n]; [change (N.of_nat 0) with 0%N in Ha; rewrite N.add_0_r in Ha; congruence|].
    apply IH. exists n. split; [lia|]. by replace (d + 1 + N.of_nat n)%N with (d + N.of_nat (S n))%N by lia.
Qed.

Lemma owe_private_found fuel d :
  (exists n, (n < fuel)%nat /\ acceptable_scalar (os_random (d + N.of_nat n) 32) = true) ->
  exists b d', loop fuel owe_private_step d = Val (b, d') /\ arr 32 b /\ acceptable_scalar b = true.
Proof.
  intros (n & d' & -> & Ha)%owe_private_drawn. exists (os_random n 32), d'.
  split; [done|]. split; [apply os_random_arr|done].
Qed.

Lemma owe_keypair_ok fuel ap :
  ap_ok ap -> admit_ok ap -> entropy_yields fuel ->
  exists n public ap', let private := os_random n 32 in
    owe_keypair fuel ap = Val (private, public, ap') /\ arr 32 private /\
    acceptable_scalar private = true /\ arr 32 public /\ owe_public private = Val public /\ carries id ap ap'.
Proof.
  intros Hok A Hy. unfold owe_keypair. destruct (owe_private_drawn fuel (ap_draws ap) (Hy _)) as (n & d & -> & Ha).
  pose proof (os_random_arr n 32) as Hb. cbn [rbind].
  destruct (owe_public_ok _ Hb Ha) as (x & Hx & Hxa). rewrite Hx. cbn [rbind]. exists n, x. eexists. cbv zeta.
  do 5 (split; [done|]). apply carries_same; try done. split; [keep_ap_ok Hok|done].
Qed.

Lemma owe_keyed_ok pmk s : arr 32 pmk -> station_ok s -> station_ok (owe_keyed pmk s).
Proof. intros Hp Hs. unfold owe_keyed. assert (Ho : opt_ok (arr 32) (Some pmk)) by done. keep_station_ok Hs. Qed.

(** The change an OWE exchange makes: none, or the derived key. *)
Definition owe_change (pmk : option bytes) : Station -> Station :=
  match pmk with Some k => owe_keyed k | None => id end.

Lemma alter_id {A} (sta : bytes) (m : gmap bytes A) : alter id sta m = m.
Proof.
  apply map_eq. intros k. destruct (decide (k = sta)) as [->|]; [|by rewrite lookup_alter_ne].
  rewrite lookup_alter_eq. by destruct (m !! sta).
Qed.

Lemma carries_alter_id sta ap ap' : carries id ap ap' -> carries (alter id sta) ap ap'.
Proof. intros ((M1 & M2 & M3) & F & A). split; [|by split]. split; [done|]. split; [done|]. by rewrite alter_id. Qed.

(** What the Diffie-Hellman parameter of a request leads to: nothing when there
    is none or it is no point of the curve, a refusal of another group, or the
    key that is derived from it and a fresh private scalar, with the element that
    lets the station derive it too. *)
Inductive owe_result (ap : Ap) (b : bytes) : option bytes -> result (option bytes) Z -> Prop :=
  | owe_absent :
      ap_owe ap = false \/ (length b <= 4)%nat \/ parse_dh_param (drop 4 b) = Val None ->
      owe_result ap b None (Ok None)
  | owe_other_group group peer :
      ap_owe ap = true -> parse_dh_param (drop 4 b) = Val (Some (group, peer)) -> group <> 19 ->
      owe_result ap b None (Err STATUS_FINITE_CYCLIC_GROUP_NOT_SUPPORTED)
  | owe_no_point peer n public :
      ap_owe ap = true -> parse_dh_param (drop 4 b) = Val (Some (19, peer)) ->
      owe_public (os_random n 32) = Val public ->
      owe_derive (os_random n 32) peer peer public 19 = Val None -> owe_result ap b None (Ok None)
  | owe_agreed peer n public pmk pmkid :
      ap_owe ap = true -> parse_dh_param (drop 4 b) = Val (Some (19, peer)) ->
      acceptable_scalar (os_random n 32) = true -> owe_public (os_random n 32) = Val public ->
      owe_derive (os_random n 32) peer peer public 19 = Val (Some (pmk, pmkid)) ->
      owe_result ap b (Some pmk) (Ok (Some (build_dh_param_element 19 public))).

Lemma owe_exchange_spec fuel sta b ap :
  ap_ok ap -> admit_ok ap -> wf_bytes b -> entropy_yields fuel ->
  exists v pmk ap', owe_exchange fuel sta b ap = Val (v, ap') /\
    carries (alter (owe_change pmk) sta) ap ap' /\ owe_result ap b pmk v.
Proof.
  intros Hok A Hw Hy. unfold owe_exchange.
  assert (Hno : carries (alter (owe_change None) sta) ap ap) by (apply carries_alter_id, carries_refl; done).
  assert (Habs : forall c, c = false ->
      ap_owe ap = false \/ (length b <= 4)%nat \/ parse_dh_param (drop 4 b) = Val None ->
      exists v pmk ap', Val (Ok None : result (option bytes) Z, ap) = Val (v, ap') /\
        carries (alter (owe_change pmk) sta) ap ap' /\ owe_result ap b pmk v).
  { intros _ _ Hd. exists (Ok None), None, ap. split; [done|]. split; [done|]. by constructor. }
  destruct (ap_owe ap) eqn:Eo; cbn [andb]; [|apply (Habs false); auto].
  destruct (Nat.ltb_spec 4 (length b)) as [Hl|Hl]; [|apply (Habs false); auto].
  destruct (parse_dh_param (drop 4 b)) as [[[g k]|]| |] eqn:Ed; try (by rewrite parse_dh_param_spec in Ed);
    cbn [rbind]; [|apply (Habs false); auto].
  pose proof Ed as Hk. apply parse_dh_param_wf in Hk; [|auto with bytes].
  destruct (Z.eqb_spec g 19) as [->|Hg]; cbn [negb].
  2:{ eexists (Err _), None, ap. split; [done|]. split; [done|]. by eapply owe_other_group. }
  destruct (owe_keypair_ok fuel ap Hok A Hy) as (n & public & ap1 & -> & Hp & Ha & Hpub & Hx & K). cbn [rbind].
  destruct (owe_derive_total (os_random n 32) k k public 19 Hp Ha Hk) as (o & Eder & Ho); [apply Hpub|].
  rewrite Eder. cbn [rbind].
  destruct o as [[pmk pmkid]|].
  - destruct (Ho pmk pmkid eq_refl) as [Hpm _]. eexists (Ok (Some _)), (Some pmk), _. split; [done|].
    split; [|by eapply owe_agreed].
    pose proof K as ((Hok1 & _) & _ & A1).
    apply (carries_trans id (alter (owe_keyed pmk) sta) _ _ _ K). apply carries_upd; [done|done|].
    intros s Hs. by apply owe_keyed_ok.
  - exists (Ok None), None, ap1. split; [done|]. split; [by apply carries_alter_id|]. by eapply owe_no_point.
Qed.

(** ** The answer *)

(** An association response: its fixed fields, with status 0, and at its end
    the element of the OWE exchange when there was one. *)
Definition assoc_answer (mac sta : bytes) (resp_subtype sc : Z) (capability : bytes) (aid : Z) (dh : option bytes)
    (f : bytes) : Prop :=
  (exists before, f = before ++ default [] dh) /\
  take 30 f = dot11_header TYPE_MGMT resp_subtype 0 sta mac mac sc ++ capability ++ le_bytes 2 0 ++
              le_bytes 2 (Z.lor (Z.land aid 0x3fff) 0xc000).

Lemma link_resp_ies_total ap link : exists ies, link_resp_ies ap link = Val ies.
Proof.
  unfold link_resp_ies.
  change (resp_ies (ap_ssid ap) (ml_channel link) (ap_country ap) (ml_width link) (ml_band6 link) (ap_wmm ap)
            (ap_phy_mode ap) [] (ap_punct ap))
    with (resp_ies (ap_ssid ap) (ml_channel link) (ap_country ap) (ml_width link) (ml_band6 link) (ap_wmm ap)
            (ap_phy_mode ap) (encode_elements []) (ap_punct ap)).
  rewrite resp_ies_elements. by eexists.
Qed.

Lemma link_assoc_profile_total ap ids link :
  bss_ok ap -> link_ok link -> exists p, link_assoc_profile ap ids link = Val p.
Proof.
  intros B Hl. unfold link_assoc_profile.
  rewrite (ap_mld_assoc_profile_spec _ _ _ _ _ _ _ _ (link_args ap link B Hl)). cbn [rbind].
  set (ts := List.filter not_ssid _).
  assert (Hok : elements_ok ts) by (apply filter_ok, bss_elements_ok; done).
  pose proof (ap_capability_arr (ml_channel link) (ml_band6 link)) as [Hcl Hcw].
  destruct (link_phy_spec ap link (ap_capability (ml_channel link) (ml_band6 link) ++ le_bytes 2 0) ts B Hok)
    as (us & E & _).
  rewrite length_app, Hcl, length_le_bytes in E. cbn [Nat.add] in E. rewrite E. cbn [rbind].
  destruct ids as [rep|]; cbn [rbind]; [|apply per_sta_profile_total].
  destruct (link_resp_ies_total ap link) as (ies & ->). cbn [rbind].
  rewrite element_id_sets_spec. cbn [rbind]. apply per_sta_profile_total.
Qed.

Lemma mld_assoc_link_info_total ap requested :
  bss_ok ap -> exists info, mld_assoc_link_info_for requested ap = Val info.
Proof.
  intros B. unfold mld_assoc_link_info_for. destruct (negb (ap_mld ap)); [by eexists|].
  assert (Hr : exists ids, match association_link ap with
      | Some link => let! ies := link_resp_ies ap link in rmap Some (element_id_sets ies)
      | None => Val None end = Val ids).
  { destruct (association_link ap) as [link|]; [|by eexists].
    destruct (link_resp_ies_total ap link) as (ies & ->). cbn [rbind]. rewrite element_id_sets_spec. by eexists. }
  destruct Hr as (ids & ->). cbn [rbind].
  match goal with |- exists _, ?x = _ => assert (Hq : exists i, x = Val i /\ True) end;
    [|destruct Hq as (i & -> & _); by eexists].
  apply rfold_inv; [|done].
  intros info link _ Hin. destruct (negb _); [by eexists|].
  pose proof (active_links_wf ap B) as Hl. rewrite Forall_forall in Hl.
  destruct (link_assoc_profile_total ap ids link B (Hl link Hin)) as (p & ->). by eexists.
Qed.

Lemma association_link_ok ap : bss_ok ap -> link_ok (default (own_link ap) (association_link ap)).
Proof.
  intros B. unfold association_link. destruct (negb (ap_mld ap)); [by apply own_link_ok|].
  destruct (List.find _ _) as [l|] eqn:E; [|by apply own_link_ok]. apply List.find_some in E as [Hin _].
  pose proof (active_links_wf ap B) as Hl. rewrite Forall_forall in Hl. apply Hl. by apply list_elem_of_In.
Qed.

Lemma assoc_response_spec sta sub owe_dh ap :
  ap_ok ap -> admit_ok ap -> arr 6 sta ->
  exists f, assoc_response sta sub owe_dh ap = Val (f, (next_sc (next_aid ap).2).2) /\
    carries id ap (next_sc (next_aid ap).2).2 /\
    let link := default (own_link ap) (association_link ap) in
    assoc_answer (ml_mac link) sta sub (next_sc (next_aid ap).2).1 (ap_capability (ml_channel link) (ml_band6 link))
      (next_aid ap).1 owe_dh f.
Proof.
  intros Hok A [Hsl Hsw].
  pose proof (carries_next_aid ap Hok A) as K1. pose proof K1 as ((Hok1 & _) & _ & A1).
  pose proof (carries_next_sc _ Hok1 A1) as K2.
  pose proof (carries_trans id id _ _ _ K1 K2) as K. clear K1 K2 Hok1 A1.
  unfold assoc_response. destruct (next_aid ap) as [aid ap1] eqn:E1. cbn [fst snd] in *.
  destruct (next_sc ap1) as [sc ap2] eqn:E2. cbn [fst snd] in *.
  assert (Hs : exists n m, ap2 = ap <| ap_aid := n |> <| ap_sc := m |>)
    by (unfold next_sc in E2; unfold next_aid in E1; injection E1 as <- <-; injection E2 as <- <-; by eexists _, _).
  destruct Hs as (n & m & Hs). pose proof K as (M & F & A2). clear E1 E2.
  replace (default (own_link ap2) (association_link ap2)) with (default (own_link ap) (association_link ap))
    by (by rewrite Hs).
  set (link := default _ _). pose proof (association_link_ok ap (ad_bss _ A)) as Hl. fold link in Hl.
  assert (Hd : mld_tid_to_link_element ap2 = mld_tid_to_link_element ap /\
    forall i, mld_basic_element (association_link_id ap2) i ap2 = mld_basic_element (association_link_id ap) i ap)
    by (by rewrite Hs).
  unfold build_assoc_resp.
  change (resp_ies (ap_ssid ap2) (ml_channel link) (ap_country ap2) (ml_width link) (ml_band6 link) (ap_wmm ap2)
            (ap_phy_mode ap2) [] (ap_punct ap2))
    with (resp_ies (ap_ssid ap2) (ml_channel link) (ap_country ap2) (ml_width link) (ml_band6 link) (ap_wmm ap2)
            (ap_phy_mode ap2) (encode_elements []) (ap_punct ap2)).
  rewrite resp_ies_elements. cbn [rbind].
  set (us := bss_elements _ _ _ _ _ _ _ _ _ _).
  assert (Hus : Forall short_element us).
  { pose proof (ad_bss _ A2) as B2. apply (bss_elements_ok ap2 link [] []); try done. }
  set (head := dot11_header TYPE_MGMT sub 0 sta (ml_mac link) (ml_mac link) sc ++
    ap_capability (ml_channel link) (ml_band6 link) ++ le_bytes 2 0 ++
    le_bytes 2 (Z.lor (Z.land aid 0x3fff) 0xc000)).
  assert (Hh : length head = 30%nat).
  { unfold head, dot11_header. destruct Hl as (_ & [Hml _] & _).
    pose proof (ap_capability_arr (ml_channel link) (ml_band6 link)) as [Hc _].
    by rewrite !length_app, Hml, Hc, Hsl, !length_le_bytes. }
  replace (dot11_header _ _ _ _ _ _ _ ++ _) with (head ++ encode_elements us)
    by (unfold head; by rewrite <- !app_assoc).
  rewrite protect_capability_spec by done. cbn [rbind].
  match goal with |- context [rbind ?x _] => assert (Hx : exists tl, x = Val (head ++ tl)) end.
  { destruct (ap_stations ap2 !! sta) as [s|]; [|rewrite <- app_assoc; by eexists].
    destruct (_ && _); [|rewrite <- app_assoc; by eexists].
    destruct (mld_assoc_link_info_total ap2 (st_client_mld_links s) (ad_bss _ A2)) as (info & ->). cbn [rbind].
    unfold mld_basic_element, multi_link_ap_basic_capabilities.
    match goal with |- context [ext_ie 107 ?d] => destruct (ext_ie_total 107 d) as (basic & ->) end. cbn [rbind].
    assert (Ht : exists m, mld_tid_to_link_element ap2 = Val m).
    { unfold mld_tid_to_link_element. destruct (ap_mld_default_link_mask ap2) as [m2|]; [|by eexists].
      apply ext_ie_total. }
    destruct Ht as (tm & ->). cbn [rbind]. rewrite <- !app_assoc. by eexists. }
  destruct Hx as (tl & ->). cbn [rbind]. eexists. split; [done|]. split; [done|].
  unfold assoc_answer. split; [by eexists|]. rewrite <- app_assoc, <- Hh, take_app_length. done.
Qed.

(** ** Message 1 *)

(** The nonce to be used again: of the handshake in progress, or held. *)
Definition held_nonce (now : Z) (ap : Ap) (sta : bytes) (s : Station) : option (bytes * Z) :=
  union (if st_eapol_ready s then a ← st_anonce s; Some (a, st_eapol_replay s) else None)
    (h ← ap_pending_anonce ap !! sta;
     if duration_since now (ph_created_at h) <? ANONCE_HOLD then Some (ph_anonce h, ph_replay_counter h) else None).

Lemma m1_nonce_spec now sta ap s :
  ap_ok ap -> admit_ok ap -> ap_stations ap !! sta = Some s ->
  exists anonce replay ap', m1_nonce now sta ap = ((anonce, replay), ap') /\ arr 32 anonce /\ u64_ok replay /\
    carries id ap ap' /\
    match held_nonce now ap sta s with
    | Some held => (anonce, replay) = held
    | None => replay = ap_eapol_replay_counter ap' /\ 1 <= replay
    end.
Proof.
  intros Hok A Es. unfold m1_nonce. set (recent := filter _ (ap_pending_anonce ap)).
  set (ap0 := ap <| ap_pending_anonce := recent |>).
  assert (K : carries id ap ap0).
  { split; [split; [unfold ap0; keep_ap_ok Hok|done]|]. split; [done|]. apply admit_ok_pending; [done|].
    intros k h [Hk _]%map_lookup_filter_Some. exact (ad_pending _ A k h Hk). }
  pose proof K as ((Hok0 & _) & _ & A0).
  assert (Eh : (h ← recent !! sta; Some (ph_anonce h, ph_replay_counter h)) =
    (h ← ap_pending_anonce ap !! sta;
     if duration_since now (ph_created_at h) <? ANONCE_HOLD then Some (ph_anonce h, ph_replay_counter h) else None)).
  { unfold recent. rewrite map_lookup_filter. destruct (ap_pending_anonce ap !! sta) as [h|]; [|done].
    cbn [mbind option_bind]. case_guard as Hg; cbn [snd] in Hg.
    - by rewrite (proj2 (Z.ltb_lt _ _)).
    - change (mfail ≫= _) with (@None PendingHandshake). by rewrite (proj2 (Z.ltb_ge _ _)) by lia. }
  match goal with |- context [match union ?x ?y with _ => _ end] =>
    assert (Hx : union x y = held_nonce now ap sta s) end.
  { unfold held_nonce. rewrite <- Eh. change (ap_stations ap0) with (ap_stations ap).
    change (ap_pending_anonce ap0) with recent. by rewrite Es. }
  rewrite Hx. clear Hx.
  assert (Hheld : forall a r, held_nonce now ap sta s = Some (a, r) -> arr 32 a /\ u64_ok r).
  { intros a r. unfold held_nonce. pose proof (ap_ok_station ap sta s Hok Es) as Hs.
    pose proof (so_anonce s Hs) as Ha. pose proof (so_replay s Hs) as Hr.
    assert (Hp : (h ← ap_pending_anonce ap !! sta; if duration_since now (ph_created_at h) <? ANONCE_HOLD
      then Some (ph_anonce h, ph_replay_counter h) else None) = Some (a, r) -> arr 32 a /\ u64_ok r).
    { destruct (ap_pending_anonce ap !! sta) as [h|] eqn:E; [|done]. cbn [mbind option_bind].
      destruct (_ <? _); [|done]. intros [= <- <-]. exact (ad_pending _ A sta h E). }
    assert (Hu : forall o : option (bytes * Z), union None o = o) by (by intros [?|]).
    destruct (st_eapol_ready s); [|rewrite Hu; exact Hp]. destruct (st_anonce s) as [a0|]; [|by rewrite Hu].
    destruct (ap_pending_anonce ap !! sta ≫= _) as [p|]; intros [= <- <-]; by split. }
  destruct (held_nonce now ap sta s) as [[a r]|].
  - exists a, r, ap0. split; [done|]. destruct (Hheld a r eq_refl). done.
  - assert (Hd : exists a ap1, match ap_test_anonce ap0 with Some a => (a, ap0) | None => random_bytes 32 ap0 end = (a, ap1) /\
      arr 32 a /\ carries id ap0 ap1).
    { destruct (ap_test_anonce ap0) as [a|] eqn:Et.
      - exists a, ap0. split; [done|]. pose proof (ad_test _ A0) as Ha. rewrite Et in Ha. split; [done|]. by apply carries_refl.
      - eexists _, _. split; [reflexivity|]. split; [apply (os_random_arr (ap_draws ap0) 32)|exact (carries_random 32 ap0 Hok0 A0)]. }
    destruct Hd as (a & ap1 & -> & Ha & K1). pose proof K1 as ((Hok1 & _) & _ & A1).
    pose proof (carries_next_replay ap1 Hok1 A1) as K2. destruct (next_eapol_replay_spec ap1) as (Hr & Hc & _).
    destruct (next_eapol_replay ap1) as [r ap2]. cbn [fst snd] in *. exists a, r, ap2. split; [done|].
    split; [done|]. split; [unfold u64_ok; lia|].
    split; [exact (carries_trans id id _ _ _ K (carries_trans id id _ _ _ K1 K2))|]. split; [done|lia].
Qed.

(** The record once message 1 is queued. *)
Definition m1_sent (now : Z) (anonce : bytes) (replay : Z) (m1 : bytes) (s : Station) : Station :=
  timer_armed (eapol_sent now (m1_started anonce replay s <| st_pending_eapol := Some (prepend_radiotap m1) |>)).

Lemma eapol_sent_ok now s : station_ok s -> station_ok (eapol_sent now s).
Proof.
  intros Hs. unfold eapol_sent. assert (H0 : 0 <= 0 <= MAX_EAPOL_RETRIES) by (unfold MAX_EAPOL_RETRIES; lia).
  keep_station_ok Hs.
Qed.

Lemma m1_started_ok anonce replay s :
  arr 32 anonce -> u64_ok replay -> station_ok s -> station_ok (m1_started anonce replay s).
Proof.
  intros Ha Hr Hs. unfold m1_started. assert (Ho : opt_ok (arr 32) (Some anonce)) by done.
  destruct Hs; constructor; fields; try assumption; [constructor|apply Nat.le_0_l].
Qed.

Lemma assoc_m1_fixed sta a r sc s c ap ap' :
  fixed ap' = fixed ap -> assoc_m1 sta a r sc s c ap' = assoc_m1 sta a r sc s c ap.
Proof.
  unfold fixed, ap_static. intros E. injection E. intros. unfold assoc_m1.
  repeat match goal with X : _ ap' = _ ap |- _ => rewrite X; clear X end. done.
Qed.

Lemma start_four_way_spec now sta cipher assoc ap out s :
  ap_ok ap -> admit_ok ap -> ap_stations ap !! sta = Some s ->
  exists anonce replay sc ap',
    let m1 := assoc_m1 sta anonce replay sc (m1_started anonce replay s) cipher ap in
    start_four_way now sta cipher assoc ap out = Val (ap', out_tx m1 (out_tx assoc out)) /\
    arr 32 anonce /\ u64_ok replay /\ 0 <= sc < 2 ^ 16 /\
    carries (alter (m1_sent now anonce replay m1) sta) ap ap' /\
    (forall held, held_nonce now ap sta s = Some held -> (anonce, replay) = held).
Proof.
  intros Hok A Es. unfold start_four_way.
  destruct (m1_nonce_spec now sta ap s Hok A Es) as (a & r & ap1 & -> & Ha & Hr & K1 & Hheld).
  pose proof K1 as ((Hok1 & _ & S1) & _ & A1).
  set (ap2 := ap1 <| ap_pending_anonce := _ |>).
  assert (K2 : carries id ap1 ap2).
  { split; [split; [unfold ap2; keep_ap_ok Hok1|done]|]. split; [done|]. apply admit_ok_pending; [done|].
    apply map_Forall_insert_2; [by split|apply A1]. }
  clearbody ap2. pose proof K2 as ((Hok2 & _ & S2) & _ & A2).
  pose proof (carries_schedule (now + ANONCE_HOLD) ap2 Hok2 A2) as K3. set (ap3 := schedule_maintenance _ ap2) in *.
  clearbody ap3. pose proof K3 as ((Hok3 & _ & S3) & _ & A3).
  assert (E3 : ap_stations ap3 !! sta = Some s) by (unfold id in *; by rewrite S3, S2, S1).
  rewrite E3. cbn [expect rbind].
  pose proof (carries_upd sta (m1_started a r) ap3 Hok3 A3 (fun s0 => m1_started_ok a r s0 Ha Hr)) as K4.
  set (ap4 := upd_station sta (m1_started a r) ap3) in *. clearbody ap4. pose proof K4 as ((Hok4 & _ & S4) & _ & A4).
  pose proof (carries_next_sc ap4 Hok4 A4) as K5. pose proof (next_sc_range ap4) as Hsc.
  destruct (next_sc ap4) as [sc ap5]. cbn [fst snd] in *. pose proof K5 as ((Hok5 & _ & S5) & F5 & A5).
  assert (F : fixed ap5 = fixed ap).
  { destruct K1 as (_ & F1 & _), K2 as (_ & F2 & _), K3 as (_ & F3 & _), K4 as (_ & F4 & _). congruence. }
  rewrite (assoc_m1_fixed sta a r sc _ cipher ap ap5 F).
  set (m1 := assoc_m1 sta a r sc (m1_started a r s) cipher ap).
  set (queue := fun s0 : Station => eapol_sent now (s0 <| st_pending_eapol := Some (prepend_radiotap m1) |>)).
  assert (Hq : forall s0, station_ok s0 -> station_ok (queue s0)).
  { intros s0 H0. apply eapol_sent_ok. keep_station_ok H0. }
  pose proof (carries_upd sta queue ap5 Hok5 A5 Hq) as K6. set (ap6 := upd_station sta queue ap5) in *.
  clearbody ap6. pose proof K6 as ((Hok6 & _) & _ & A6).
  pose proof (carries_arm sta ap6 Hok6 A6) as K7.
  exists a, r, sc, (arm_eapol_timer sta ap6). split; [done|]. split; [done|]. split; [done|]. split; [done|]. split.
  - pose proof (carries_trans _ _ _ _ _ K1 (carries_trans _ _ _ _ _ K2 (carries_trans _ _ _ _ _ K3
      (carries_trans _ _ _ _ _ K4 (carries_trans _ _ _ _ _ K5 (carries_trans _ _ _ _ _ K6 K7)))))) as K.
    destruct K as ((G1 & G2 & G3) & GF & GA). split; [|by split]. split; [done|]. split; [done|].
    rewrite G3. unfold id. by rewrite !alter_alter.
  - intros held Hh. by rewrite Hh in Hheld.
Qed.

(** ** Admission proper *)

(** The message in flight after admission: message 3 again, or message 1. *)
Lemma admit_spec now sta sub cipher owe_dh ap out s :
  ap_ok ap -> admit_ok ap -> ap_stations ap !! sta = Some s ->
  let link := default (own_link ap) (association_link ap) in
  exists assoc sc aid f msg ap', admit_station now sta sub cipher owe_dh ap out = Val (ap', out_push msg (out_tx assoc out)) /\
    assoc_answer (ml_mac link) sta sub sc (ap_capability (ml_channel link) (ml_band6 link)) aid owe_dh assoc /\
    carries (alter f sta) ap ap' /\
    ((st_awaiting_m4 s = true /\ st_pending_eapol s = Some msg /\ (forall s, f s = timer_armed (eapol_sent now s))) \/
     (exists anonce replay m1_sc, arr 32 anonce /\ u64_ok replay /\ 0 <= m1_sc < 2 ^ 16 /\
        let m1 := assoc_m1 sta anonce replay m1_sc (m1_started anonce replay s) cipher ap in
        msg = prepend_radiotap m1 /\ f = m1_sent now anonce replay m1 /\
        (st_awaiting_m4 s = false \/ st_pending_eapol s = None) /\
        (forall held, held_nonce now ap sta s = Some held -> (anonce, replay) = held))).
Proof.
  intros Hok A Es link. unfold admit_station.
  destruct (assoc_response_spec sta sub owe_dh ap Hok A) as (assoc & -> & K & Hans);
    [by apply (ao_stations ap Hok _ _ Es)|]. cbn [rbind].
  set (ap1 := (next_sc (next_aid ap).2).2) in *.
  assert (Hp : ap_pending_anonce ap1 = ap_pending_anonce ap) by done.
  clearbody ap1. pose proof K as ((Hok1 & _ & S1) & F1 & A1).
  assert (E1 : ap_stations ap1 !! sta = Some s) by (unfold id in S1; by rewrite S1).
  rewrite E1. cbn [mbind option_bind].
  destruct (if st_awaiting_m4 s then st_pending_eapol s else None) as [m3|] eqn:Em.
  - assert (Hm : st_awaiting_m4 s = true /\ st_pending_eapol s = Some m3) by (by destruct (st_awaiting_m4 s)).
    destruct Hm as [Hm1 Hm2].
    pose proof (carries_upd sta (eapol_sent now) ap1 Hok1 A1 (eapol_sent_ok now)) as K2.
    set (ap2 := upd_station sta (eapol_sent now) ap1) in *. clearbody ap2. pose proof K2 as ((Hok2 & _) & _ & A2).
    pose proof (carries_arm sta ap2 Hok2 A2) as K3.
    do 2 eexists. exists (next_aid ap).1, (fun s => timer_armed (eapol_sent now s)), m3. eexists.
    split; [reflexivity|]. split; [exact Hans|]. split; [|by left].
    pose proof (carries_trans _ _ _ _ _ K (carries_trans _ _ _ _ _ K2 K3)) as ((G1 & G2 & G3) & GF & GA).
    split; [|by split]. split; [done|]. split; [done|]. rewrite G3. unfold id. by rewrite alter_alter.
  - destruct (start_four_way_spec now sta cipher assoc ap1 out s Hok1 A1 E1)
      as (a & r & sc & ap2 & Estart & Ha & Hr & Hsc & K2 & Hheld).
    rewrite Estart. rewrite (assoc_m1_fixed _ _ _ _ _ _ ap ap1 F1) in *.
    set (m1 := assoc_m1 sta a r sc (m1_started a r s) cipher ap) in *.
    do 2 eexists. exists (next_aid ap).1, (m1_sent now a r m1), (prepend_radiotap m1). eexists.
    split; [reflexivity|]. split; [exact Hans|]. split.
    + exact (carries_trans id _ _ _ _ K K2).
    + right. exists a, r, sc. do 5 (split; [done|]). split; [|].
      * destruct (st_awaiting_m4 s); [right|left]; done.
      * unfold held_nonce in *. rewrite <- Hp. exact Hheld.
Qed.

(** * The specification of admission *)

(** The subtype of the answer. *)
Definition resp_subtype_of (reassoc : bool) : Z := if reassoc then 0x03 else SUBTYPE_ASSOC_RESP.

(** A refusal is one response, with the status. *)
Definition refused_with (ap : Ap) (sta : bytes) (reassoc : bool) (status : Z) (out out' : Outgoing) : Prop :=
  exists sc, out' = out_tx (build_assoc_resp_reject (ap_mac ap) sta status (resp_subtype_of reassoc) sc) out.

Lemma carries_reject sta reassoc status ap out :
  ap_ok ap -> admit_ok ap ->
  exists ap' out', reject_assoc_status sta reassoc status ap out = (ap', out') /\
    refused_with ap sta reassoc status out out' /\ carries id ap ap'.
Proof.
  intros Hok A. pose proof (carries_next_sc ap Hok A) as K. unfold reject_assoc_status.
  destruct (next_sc ap) as [sc ap'] eqn:E. cbn [fst snd] in *.
  assert (Hm : ap_mac ap' = ap_mac ap) by (unfold next_sc in E; by injection E as <- <-).
  rewrite Hm. do 2 eexists. split; [reflexivity|]. split; [by exists sc|done].
Qed.

(** ** The record of a request *)

(** What a request leaves alone before its key is looked up: the handshake, the
    keys, the windows and everything but what it says of itself. *)
Definition unsaid (s : Station) :=
  (session s, (st_pmk s, st_mac s, st_last_auth s, st_last_assoc s, st_sae_h2e s, st_last_activity s),
   (st_gtk s, st_gtk_key_id s, st_gtk_rsc s, st_igtk s, st_igtk_key_id s, st_igtk_ipn s),
   (st_vlan_group_initialized s, st_eapol_tx s, st_eapol_retries s, st_eapol_acked s,
    st_eapol_timer_generation s, st_sa_query s)).

Definition request_link (ap : Ap) : option Z := if ap_mld ap then Some (association_link_id ap) else None.

(** The record [s0] of a request that passed the checks, from the record [s]:
    what the request says, and nothing else. *)
Record noted (ap : Ap) (fr : Dot11) (r : AssocRequest) (s s0 : Station) : Prop := {
  nt_unsaid : unsaid s0 = unsaid s;
  nt_traits : st_traits s0 = client_traits (body fr);
  nt_wmm : exists wmm, request_wmm (subtype fr =? SUBTYPE_REASSOC_REQ) (body fr) = Val wmm /\
    st_wmm s0 = ap_wmm ap && wmm;
  nt_fixed : st_capability s0 = le_val (sub (body fr) 0 2) /\ st_listen_interval s0 = le_val (sub (body fr) 2 4);
  nt_ies : st_assoc_ies s0 = ar_ies r;
  nt_cipher : st_pairwise_cipher s0 = ar_cipher r;
  nt_akm : (st_sha256 s0, st_psk_sha256 s0, st_owe s0) =
    match ar_selects_psk_sha256 r with
    | Some b => (b, b, false)
    | None => (st_sha256 s, st_psk_sha256 s, st_owe s)
    end;
  nt_pmf : st_pmf s0 =
    if transition_mode ap then ar_requests_pmf r
    else if bool_decide (is_Some (ar_selects_psk_sha256 r)) then false else st_pmf s;
  nt_link : st_assoc_link_id s0 = request_link ap;
  nt_mld : (st_client_mld_mac s0, st_client_mld_links s0) =
    match ar_mld r with
    | Some (mld, links) => (Some mld, links)
    | None => (st_client_mld_mac s, st_client_mld_links s)
    end
}.

(** ** The key of a request *)

Definition pmkids_of (r : AssocRequest) : list bytes := default [] (parse_rsn_pmkids (ar_rsn r)).

(** The cached entry that is taken: a usable one when there is one. *)
Definition cache_result (now : Z) (ap : Ap) (sta : bytes) (r : AssocRequest) (s : Station) (o : option PmksaEntry) : Prop :=
  let usable := pmksa_usable now ap (default sta (st_client_mld_mac s)) (pmkids_of r) in
  match o with Some e => usable e | None => forall e, ~ usable e end.

(** An SAE station that names keys the access point does not know. *)
Definition stale_pmkid (r : AssocRequest) (s : Station) : Prop :=
  ar_requests_sae r = true /\ pmkids_of r <> [] /\ st_pmk s = None.

(** A network that never falls back on the pre-shared key. *)
Definition needs_pmk (ap : Ap) : Prop := security_mode ap = Wpa3Sae \/ security_mode ap = Owe.

(** The record with the key the request ends up with: the one it had, that of a
    cached entry, or the one OWE agrees; or the status that refuses it. *)
Inductive key_decision (now : Z) (ap : Ap) (sta b : bytes) (r : AssocRequest) (s : Station) :
    Station -> result (option bytes) Z -> Prop :=
  | key_stale o :
      cache_result now ap sta r s o -> stale_pmkid r (pmksa_keyed o s) ->
      key_decision now ap sta b r s (pmksa_keyed o s) (Err STATUS_INVALID_PMKID)
  | key_group o status :
      cache_result now ap sta r s o -> ~ stale_pmkid r (pmksa_keyed o s) -> owe_result ap b None (Err status) ->
      key_decision now ap sta b r s (pmksa_keyed o s) (Err status)
  | key_missing o dh :
      cache_result now ap sta r s o -> ~ stale_pmkid r (pmksa_keyed o s) -> owe_result ap b None (Ok dh) ->
      needs_pmk ap -> st_pmk (pmksa_keyed o s) = None ->
      key_decision now ap sta b r s (pmksa_keyed o s) (Err STATUS_UNSPECIFIED_FAILURE)
  | key_found o pmk dh :
      cache_result now ap sta r s o -> ~ stale_pmkid r (pmksa_keyed o s) -> owe_result ap b pmk (Ok dh) ->
      (needs_pmk ap -> st_pmk (owe_change pmk (pmksa_keyed o s)) <> None) ->
      key_decision now ap sta b r s (owe_change pmk (pmksa_keyed o s)) (Ok dh).

(** ** The handshake of a request *)

(** What admission sends: the response, and message 3 again or message 1. *)
Definition handshake_message (now : Z) (ap : Ap) (sta : bytes) (cipher : DataCipher) (s s' : Station) (msg : bytes) : Prop :=
  (st_awaiting_m4 s = true /\ st_pending_eapol s = Some msg /\ s' = timer_armed (eapol_sent now s)) \/
  (exists anonce replay m1_sc, arr 32 anonce /\ u64_ok replay /\ 0 <= m1_sc < 2 ^ 16 /\
     let m1 := assoc_m1 sta anonce replay m1_sc (m1_started anonce replay s) cipher ap in
     msg = prepend_radiotap m1 /\ s' = m1_sent now anonce replay m1 s /\
     (st_awaiting_m4 s = false \/ st_pending_eapol s = None) /\
     (forall held, held_nonce now ap sta s = Some held -> (anonce, replay) = held)).

Definition answered (now : Z) (ap : Ap) (sta : bytes) (sub : Z) (cipher : DataCipher) (dh : option bytes)
    (s s' : Station) (out out' : Outgoing) : Prop :=
  let link := default (own_link ap) (association_link ap) in
  exists assoc sc aid msg, out' = out_push msg (out_tx assoc out) /\
    assoc_answer (ml_mac link) sta sub sc (ap_capability (ml_channel link) (ml_band6 link)) aid dh assoc /\
    handshake_message now ap sta cipher s s' msg.

Lemma fixed_link ap ap' : fixed ap' = fixed ap ->
  default (own_link ap') (association_link ap') = default (own_link ap) (association_link ap) /\
  security_mode ap' = security_mode ap /\ ap_owe ap' = ap_owe ap /\ ap_mac ap' = ap_mac ap /\ ap_mld ap' = ap_mld ap.
Proof.
  unfold fixed, ap_static. intros E. injection E. intros.
  unfold association_link, own_link, association_link_id, active_mld_links, security_mode.
  repeat match goal with X : _ ap' = _ ap |- _ => rewrite X; clear X end. done.
Qed.

Lemma answered_fixed now sta sub cipher dh s s' out out' ap ap' :
  fixed ap' = fixed ap -> ap_pending_anonce ap' = ap_pending_anonce ap ->
  answered now ap' sta sub cipher dh s s' out out' -> answered now ap sta sub cipher dh s s' out out'.
Proof.
  intros F Hp (assoc & sc & aid & msg & E & Ha & Hm). destruct (fixed_link ap ap' F) as (El & _). rewrite El in Ha.
  exists assoc, sc, aid, msg. split; [done|]. split; [done|]. destruct Hm as [Hm|(a & r & m & Ha1 & Hr & Hsc & Hm)]; [by left|right].
  exists a, r, m. do 3 (split; [done|]). rewrite (assoc_m1_fixed _ _ _ _ _ _ ap ap' F) in Hm.
  unfold held_nonce in *. by rewrite Hp in Hm.
Qed.

Lemma owe_result_fixed ap ap' b pmk v : ap_owe ap' = ap_owe ap -> owe_result ap' b pmk v -> owe_result ap b pmk v.
Proof.
  intros E [Ha|g k Ho Hd Hg|k n x Ho Hd Hx Hn|k n x p i Ho Hd Ha Hx Hn].
  - apply owe_absent. by rewrite <- E.
  - eapply owe_other_group; [by rewrite <- E|done|done].
  - eapply owe_no_point; try done. by rewrite <- E.
  - eapply owe_agreed; try done. by rewrite <- E.
Qed.

Lemma key_decision_fixed now sta b r s s1 v ap ap' :
  fixed ap' = fixed ap -> ap_pmksa_cache ap' = ap_pmksa_cache ap ->
  key_decision now ap' sta b r s s1 v -> key_decision now ap sta b r s s1 v.
Proof.
  intros F Ec Hk. destruct (fixed_link ap ap' F) as (_ & Em & Eo & _).
  assert (Hc : forall o, cache_result now ap' sta r s o -> cache_result now ap sta r s o)
    by (intros o; unfold cache_result, pmksa_usable; by rewrite Ec).
  assert (Hn : needs_pmk ap' = needs_pmk ap) by (unfold needs_pmk; by rewrite Em).
  destruct Hk as [o C1 St|o st C1 St Ow|o dh C1 St Ow Np Hp|o pmk dh C1 St Ow Np];
    [eapply key_stale|eapply key_group|eapply key_missing|eapply key_found];
    eauto using owe_result_fixed; by rewrite <- Hn.
Qed.

Lemma owe_exchange_pending fuel sta b ap v ap' :
  owe_exchange fuel sta b ap = Val (v, ap') -> ap_pending_anonce ap' = ap_pending_anonce ap.
Proof.
  unfold owe_exchange. destruct (_ && _); [|by intros [= _ <-]].
  destruct (parse_dh_param _) as [[[g k]|]| |]; cbn [rbind]; [|by intros [= _ <-]|done|done].
  destruct (negb _); [by intros [= _ <-]|]. unfold owe_keypair.
  destruct (loop _ _ _) as [[x d]| |]; cbn [rbind]; [|done|done].
  destruct (owe_public x); cbn [rbind]; [|done|done].
  destruct (owe_derive _ _ _ _ _) as [[[pmk i]|]| |]; cbn [rbind]; [| |done|done]; by intros [= _ <-].
Qed.

Lemma pmksa_lookup_pending now sta pmkids ap : ap_pending_anonce (pmksa_lookup now sta pmkids ap) = ap_pending_anonce ap.
Proof. unfold pmksa_lookup. by case_match. Qed.

(** The part of the handler that looks the key up: what it decides and answers. *)
Lemma admit_keyed_spec fuel now sta reassoc b r ap out s :
  ap_ok ap -> admit_ok ap -> ap_stations ap !! sta = Some s -> wf_bytes b -> entropy_yields fuel ->
  exists f s1 v ap' out', admit_keyed fuel now sta reassoc b r ap out = Val (ap', out') /\ carries (alter f sta) ap ap' /\
    key_decision now ap sta b r s s1 v /\
    match v with
    | Err status => f s = s1 /\ refused_with ap sta reassoc status out out'
    | Ok dh => answered now ap sta (resp_subtype_of reassoc) (ar_cipher r) dh s1 (f s) out out'
    end.
Proof.
  intros Hok A Es Hw Hy. unfold admit_keyed. fold (pmkids_of r).
  destruct (pmksa_lookup_spec now sta (pmkids_of r) ap s Hok A Es) as (o & K1 & Ho & Hnone).
  assert (Hc : cache_result now ap sta r s o) by (unfold cache_result; destruct o; [exact Ho|by apply Hnone]).
  clear Ho Hnone. pose proof (pmksa_lookup_pending now sta (pmkids_of r) ap) as Hp1.
  set (ap1 := pmksa_lookup now sta (pmkids_of r) ap) in *. clearbody ap1. pose proof K1 as ((Hok1 & _ & S1) & F1 & A1).
  assert (E1 : ap_stations ap1 !! sta = Some (pmksa_keyed o s)) by (by rewrite S1, lookup_alter_eq, Es).
  destruct (fixed_link ap ap1 F1) as (_ & Hmode & Howe & Hmac & _).
  assert (Hrej : forall status g ap2, carries (alter g sta) ap ap2 -> exists ap' out',
      Val (reject_assoc_status sta reassoc status ap2 out) = Val (ap', out') /\
      carries (alter g sta) ap ap' /\ refused_with ap sta reassoc status out out').
  { intros status g ap2 K. pose proof K as ((Hok2 & _) & F2 & A2).
    destruct (carries_reject sta reassoc status ap2 out Hok2 A2) as (ap3 & out3 & E & Hr & K3).
    destruct (fixed_link ap ap2 F2) as (_ & _ & _ & Hmac2 & _). unfold refused_with in *. rewrite Hmac2 in Hr.
    exists ap3, out3. split; [by rewrite E|]. split; [|done]. exact (carries_trans _ _ _ _ _ K K3). }
  assert (Hhas : forall x ap2, ap_stations ap2 !! sta = Some x -> negb (has_pmk sta ap2) = true <-> st_pmk x = None).
  { intros x ap2 E. unfold has_pmk. rewrite E, negb_true_iff, bool_decide_eq_false. destruct (st_pmk x); [|by split; [|intros _ []]].
    split; [intros []; by eexists|done]. }
  assert (Hids : negb (length (pmkids_of r) =? 0)%nat = true <-> pmkids_of r <> [])
    by (by destruct (pmkids_of r)).
  match goal with |- context [if ?c then Val _ else _] => assert (Hstale : c = true <-> stale_pmkid r (pmksa_keyed o s)) end.
  { unfold stale_pmkid. rewrite !andb_true_iff, Hids, (Hhas _ _ E1). tauto. }
  match goal with |- context [if ?c then Val _ else _] => destruct c end.
  { destruct (Hrej STATUS_INVALID_PMKID (pmksa_keyed o) ap1 K1) as (ap' & out' & E & K & Hr).
    exists (pmksa_keyed o), (pmksa_keyed o s), (Err STATUS_INVALID_PMKID), ap', out'.
    split; [exact E|]. split; [done|]. split; [|done]. apply key_stale; [done|]. by apply Hstale. }
  assert (Hst : ~ stale_pmkid r (pmksa_keyed o s)) by (intros X; by apply Hstale in X). clear Hstale.
  destruct (owe_exchange_spec fuel sta b ap1 Hok1 A1 Hw Hy) as (v & pmk & ap2 & Ex & K2 & Hv).
  pose proof (owe_exchange_pending _ _ _ _ _ _ Ex) as Hp2. rewrite Ex. cbn [rbind].
  pose proof (carries_trans _ _ _ _ _ K1 K2) as K12. apply (owe_result_fixed ap) in Hv; [|done].
  assert (K : carries (alter (fun s => owe_change pmk (pmksa_keyed o s)) sta) ap ap2).
  { destruct K12 as ((G1 & G2 & G3) & GF & GA). split; [|by split]. split; [done|]. split; [done|]. by rewrite G3, alter_alter. }
  clear K12. set (key := fun s => owe_change pmk (pmksa_keyed o s)) in *. pose proof K as ((Hok2 & _ & S2) & F2 & A2).
  assert (E2 : ap_stations ap2 !! sta = Some (key s)) by (by rewrite S2, lookup_alter_eq, Es).
  destruct (fixed_link ap ap2 F2) as (_ & Hmode2 & _ & _ & _).
  destruct v as [dh|status].
  2:{ destruct (Hrej status key ap2 K) as (ap' & out' & E & K' & Hr). exists key, (key s), (Err status), ap', out'.
      split; [exact E|]. split; [done|]. split; [|done]. unfold key. inversion Hv; subst. by apply key_group. }
  assert (Hpol : (match security_mode ap2 with Wpa3Sae | Owe => negb (has_pmk sta ap2) | _ => false end) = true <->
      needs_pmk ap /\ st_pmk (key s) = None).
  { unfold needs_pmk. rewrite Hmode2, <- (Hhas _ _ E2). destruct (security_mode ap); intuition congruence. }
  match goal with |- context [if ?c then Val _ else _] => destruct c end.
  { destruct (proj1 Hpol eq_refl) as [Hneed Hnone].
    destruct (Hrej STATUS_UNSPECIFIED_FAILURE key ap2 K) as (ap' & out' & E & K' & Hr).
    exists key, (key s), (Err STATUS_UNSPECIFIED_FAILURE), ap', out'. split; [exact E|]. split; [done|]. split; [|done].
    unfold key in *. destruct pmk as [pmk|]; [done|]. by eapply key_missing. }
  destruct (admit_spec now sta (resp_subtype_of reassoc) (ar_cipher r) dh ap2 out (key s) Hok2 A2 E2)
    as (assoc & sc & aid & g & msg & ap3 & Ea & Hans & K3 & Hmsg).
  exists (fun s => g (key s)), (key s), (Ok dh), ap3. eexists. split; [exact Ea|]. split.
  { pose proof (carries_trans _ _ _ _ _ K K3) as ((G1 & G2 & G3) & GF & GA). split; [|by split]. split; [done|].
    split; [done|]. by rewrite G3, alter_alter. }
  split.
  - apply (key_found _ _ _ _ _ _ o pmk dh); try done. intros Hn E. discriminate (proj2 Hpol (conj Hn E)).
  - apply (answered_fixed now sta _ _ dh (key s) _ out _ ap ap2 F2); [congruence|].
    exists assoc, sc, aid, msg. split; [done|]. split; [exact Hans|].
    destruct Hmsg as [(H1 & H2 & H3)|(a & rp & m & H1 & H2 & H3 & H4 & -> & H6 & H7)].
    + left. by rewrite H3.
    + right. exists a, rp, m. do 3 (split; [done|]). split; [done|]. split; [done|]. split; [exact H6|exact H7].
Qed.

(** ** The whole request *)

Lemma carries_rates m ap :
  ap_ok ap -> admit_ok ap -> (size m <= REQUEST_RATE_ENTRY_MAX)%nat -> carries id ap (ap <| ap_request_rates := m |>).
Proof.
  intros Hok A Hm. split; [split; [keep_ap_ok Hok|done]|]. split; [done|].
  destruct A as [B Hc Hs Hp Ht _]. constructor; fields; try assumption. by apply (bss_ok_fixed ap).
Qed.

Lemma carries_rate sta now ap :
  ap_ok ap -> admit_ok ap -> let ap1 := (allow_assoc_request sta now ap).2 in
  carries id ap ap1 /\ ap_pmksa_cache ap1 = ap_pmksa_cache ap /\ ap_pending_anonce ap1 = ap_pending_anonce ap /\
  ap_stations ap1 = ap_stations ap.
Proof.
  intros Hok A. pose proof (ad_rates _ A) as Hsz.
  destruct (rate_request_spec false sta now ap Hsz) as (rates & Hr & Hreq). unfold rate_request in Hreq.
  assert (Hrs : (size rates <= REQUEST_RATE_ENTRY_MAX)%nat).
  { destruct Hr as [->|[_ ->]]; [done|]. etrans; [apply map_size_filter|done]. }
  destruct Hreq as [[-> _]|(r & _ & -> & Hrn)]; cbn [snd]; (split; [by apply carries_rates|done]).
Qed.

Lemma note_request_last w cw tr mld link b r s :
  st_last_assoc (note_request w cw tr mld link b r s) = st_last_assoc s.
Proof. unfold note_request. by repeat case_match. Qed.

Lemma fixed_request_link ap ap' : fixed ap' = fixed ap ->
  ap_mld ap' = ap_mld ap /\ association_link_id ap' = association_link_id ap.
Proof.
  unfold fixed, ap_static. intros E. injection E. intros. split; [done|].
  unfold association_link_id, active_mld_links.
  repeat match goal with X : _ ap' = _ ap |- _ => rewrite X; clear X end. done.
Qed.

(** The record a request starts from: the one there is, or a new one. *)
Definition starts_from (now : Z) (ap : Ap) (sta : bytes) (s : Station) : Prop :=
  match ap_stations ap !! sta with
  | Some s0 => s = s0
  | None => exists gtk igtk, s = station_new sta now gtk igtk
  end.

Definition others_kept (sta : bytes) (ap ap' : Ap) : Prop :=
  forall k, k <> sta -> ap_stations ap' !! k = ap_stations ap !! k.

Lemma station_entry_pending now sta ap : ap_pending_anonce (station_entry now sta ap) = ap_pending_anonce ap.
Proof. unfold station_entry. by case_match. Qed.

Lemma request_wmm_total reassoc b : exists w, request_wmm reassoc b = Val w.
Proof. unfold request_wmm. destruct (_ <? _)%nat; [|by eexists]. rewrite has_wmm_ie_spec. by eexists. Qed.

Lemma starts_from_entered now ap sta gtk igtk :
  starts_from now ap sta (default (station_new sta now gtk igtk) (ap_stations ap !! sta)).
Proof. unfold starts_from. destruct (ap_stations ap !! sta); [done|]. by exists gtk, igtk. Qed.

Lemma check_assoc_note_ok sta reassoc b ap r :
  wf_bytes b -> check_assoc sta reassoc b ap = Val (Ok r) -> note_ok r /\ (4 <= length b)%nat.
Proof.
  intros Hw Hr. destruct (check_assoc_total sta reassoc b ap Hw) as (v & E & Hv). rewrite Hr in E. injection E as <-.
  destruct Hv as (Ei & _ & _ & Hm). split.
  - split; [rewrite Ei; auto with bytes|]. intros m links E. by apply (Hm m links).
  - unfold check_assoc in Hr. destruct (Nat.ltb_spec (length b) (assoc_ie_off reassoc)); [done|].
    unfold assoc_ie_off in *. destruct reassoc; lia.
Qed.

Lemma note_request_noted ap fr r w s :
  request_wmm (subtype fr =? SUBTYPE_REASSOC_REQ) (body fr) = Val w -> (4 <= length (body fr))%nat ->
  noted ap fr r s (note_request (ap_wmm ap) w (transition_mode ap) (ap_mld ap) (association_link_id ap) (body fr) r s).
Proof.
  intros Hw Hl. unfold note_request. rewrite (proj2 (Nat.leb_le _ _) Hl).
  destruct (ar_selects_psk_sha256 r) as [p|] eqn:Ep, (transition_mode ap) eqn:Et, (ar_mld r) as [[m ls]|] eqn:Em;
    (constructor; rewrite ?Ep, ?Et, ?Em; fields; try done; by exists w).
Qed.

(** The requests that pass every check, from the record [s]. *)
Definition passes (now : Z) (fr : Dot11) (ap : Ap) (r : AssocRequest) (s : Station) : Prop :=
  addr1 fr = ap_mac ap /\ ap_credential_reload_pending ap = false /\
  (allow_assoc_request (addr2 fr) now ap).1 = true /\
  check_assoc (addr2 fr) (subtype fr =? SUBTYPE_REASSOC_REQ) (body fr) (allow_assoc_request (addr2 fr) now ap).2 =
    Val (Ok r) /\
  starts_from now ap (addr2 fr) s.

Definition dated (now : Z) (s : Station) : Station := s <| st_last_assoc := Some now |>.

(** ** The whole request *)

Inductive assoc_outcome (now : Z) (fr : Dot11) (ap ap' : Ap) (out out' : Outgoing) : Prop :=
  | assoc_unheard :
      addr1 fr <> ap_mac ap \/
        (ap_credential_reload_pending ap = false /\ (allow_assoc_request (addr2 fr) now ap).1 = false) ->
      ap_stations ap' !! addr2 fr = ap_stations ap !! addr2 fr -> out' = out ->
      assoc_outcome now fr ap ap' out out'
  | assoc_reloading :
      addr1 fr = ap_mac ap -> ap_credential_reload_pending ap = true ->
      ap_stations ap' !! addr2 fr = ap_stations ap !! addr2 fr ->
      refused_with ap (addr2 fr) (subtype fr =? SUBTYPE_REASSOC_REQ) STATUS_UNSPECIFIED_FAILURE out out' ->
      assoc_outcome now fr ap ap' out out'
  | assoc_unacceptable status :
      addr1 fr = ap_mac ap -> ap_credential_reload_pending ap = false ->
      (allow_assoc_request (addr2 fr) now ap).1 = true ->
      check_assoc (addr2 fr) (subtype fr =? SUBTYPE_REASSOC_REQ) (body fr) (allow_assoc_request (addr2 fr) now ap).2 =
        Val (Err status) ->
      ap_stations ap' !! addr2 fr = ap_stations ap !! addr2 fr ->
      refused_with ap (addr2 fr) (subtype fr =? SUBTYPE_REASSOC_REQ) status out out' ->
      assoc_outcome now fr ap ap' out out'
  | assoc_deferred r s s0 :
      passes now fr ap r s -> noted ap fr r s s0 ->
      sae_unconfirmed s = true \/ backing_off now s = true ->
      ap_stations ap' !! addr2 fr = Some s0 -> out' = out ->
      assoc_outcome now fr ap ap' out out'
  | assoc_unkeyed r s s0 s1 status :
      passes now fr ap r s -> noted ap fr r s s0 -> sae_unconfirmed s = false -> backing_off now s = false ->
      key_decision now ap (addr2 fr) (body fr) r (dated now s0) s1 (Err status) ->
      ap_stations ap' !! addr2 fr = Some s1 ->
      refused_with ap (addr2 fr) (subtype fr =? SUBTYPE_REASSOC_REQ) status out out' ->
      assoc_outcome now fr ap ap' out out'
  | assoc_admitted r s s0 s1 s' dh :
      passes now fr ap r s -> noted ap fr r s s0 -> sae_unconfirmed s = false -> backing_off now s = false ->
      key_decision now ap (addr2 fr) (body fr) r (dated now s0) s1 (Ok dh) ->
      ap_stations ap' !! addr2 fr = Some s' ->
      answered now ap (addr2 fr) (resp_subtype_of (subtype fr =? SUBTYPE_REASSOC_REQ)) (ar_cipher r) dh s1 s' out out' ->
      assoc_outcome now fr ap ap' out out'.

(** The rest of the handler, once the checks have passed. *)
Lemma assoc_passed fuel now fr r w s gtk igtk ap ap2 out :
  let sta := addr2 fr in
  let reassoc := subtype fr =? SUBTYPE_REASSOC_REQ in
  let ap3 := upd_station sta (note_request (ap_wmm ap2) w (transition_mode ap2) (ap_mld ap2) (association_link_id ap2)
    (body fr) r) ap2 in
  ap_ok ap -> wf_bytes (body fr) -> entropy_yields fuel -> note_ok r /\ (4 <= length (body fr))%nat ->
  carries (entered sta (station_new sta now gtk igtk)) ap ap2 ->
  ap_pmksa_cache ap2 = ap_pmksa_cache ap -> ap_pending_anonce ap2 = ap_pending_anonce ap ->
  request_wmm reassoc (body fr) = Val w ->
  s = default (station_new sta now gtk igtk) (ap_stations ap !! sta) -> passes now fr ap r s ->
  exists ap' out',
    match ap_stations ap3 !! sta with
    | Some s =>
        if sae_unconfirmed s then Val (ap3, out)
        else if backing_off now s then Val (ap3, out)
        else admit_keyed fuel now sta reassoc (body fr) r (upd_station sta (fun s => s <| st_last_assoc := Some now |>) ap3) out
    | None => Panic
    end = Val (ap', out') /\
    ap_ok ap' /\ admit_ok ap' /\ fixed ap' = fixed ap /\ others_kept sta ap ap' /\ assoc_outcome now fr ap ap' out out'.
Proof.
  intros sta reassoc ap3 Hok Hw Hy [Hn Hl] K2 Ec Ep Hwmm Hs Hpass. pose proof K2 as ((Hok2 & _ & Est2) & F2 & A2).
  set (note := note_request (ap_wmm ap2) w (transition_mode ap2) (ap_mld ap2) (association_link_id ap2) (body fr) r) in *.
  assert (Hnote : noted ap fr r s (note s)).
  { pose proof (note_request_noted ap fr r w s Hwmm Hl) as Hx. unfold note. clear -Hx F2.
    destruct (fixed_request_link ap ap2 F2) as [-> ->]. destruct (fixed_link ap ap2 F2) as (_ & Em & _).
    unfold transition_mode in *. rewrite Em. assert (ap_wmm ap2 = ap_wmm ap) as ->; [|done].
    unfold fixed, ap_static in F2. by injection F2. }
  pose proof (carries_upd sta note ap2 Hok2 A2 ltac:(intros; by apply note_request_ok)) as K3. fold ap3 in K3.
  pose proof K3 as ((Hok3 & _ & Est3) & F3 & A3).
  assert (Hoth : forall k, k <> sta -> ap_stations ap3 !! k = ap_stations ap !! k).
  { intros k Hk. rewrite Est3, lookup_alter_ne, Est2 by done. by apply entered_other. }
  assert (E3 : ap_stations ap3 !! sta = Some (note s)) by (by rewrite Est3, lookup_alter_eq, Est2, entered_lookup, Hs).
  assert (Ec3 : ap_pmksa_cache ap3 = ap_pmksa_cache ap /\ ap_pending_anonce ap3 = ap_pending_anonce ap)
    by (split; [exact Ec|exact Ep]).
  clearbody ap3. rewrite E3. pose proof (nt_unsaid _ _ _ _ _ Hnote) as Hu.
  assert (Eu : sae_unconfirmed (note s) = sae_unconfirmed s)
    by (unfold unsaid, session in Hu; injection Hu; intros; unfold sae_unconfirmed;
        repeat match goal with X : _ (note s) = _ s |- _ => rewrite X; clear X end; reflexivity).
  assert (Eb : backing_off now (note s) = backing_off now s)
    by (unfold unsaid in Hu; injection Hu; intros; unfold backing_off;
        repeat match goal with X : _ (note s) = _ s |- _ => rewrite X; clear X end; reflexivity).
  rewrite Eu, Eb.
  destruct (sae_unconfirmed s) eqn:Eu'; [|destruct (backing_off now s) eqn:Eb'].
  1,2: exists ap3, out; split; [done|]; split; [done|]; split; [done|]; split; [congruence|]; split; [done|];
    eapply assoc_deferred; eauto.
  pose proof (carries_upd sta (dated now) ap3 Hok3 A3 ltac:(intros x Hx; unfold dated; keep_station_ok Hx))
    as K4. set (ap4 := upd_station sta (dated now) ap3) in *.
  assert (Ec4 : ap_pmksa_cache ap4 = ap_pmksa_cache ap /\ ap_pending_anonce ap4 = ap_pending_anonce ap) by exact Ec3.
  change (upd_station sta _ ap3) with ap4. clearbody ap4. pose proof K4 as ((Hok4 & _ & Est4) & F4 & A4).
  assert (E4 : ap_stations ap4 !! sta = Some (dated now (note s))) by (by rewrite Est4, lookup_alter_eq, E3).
  destruct (admit_keyed_spec fuel now sta reassoc (body fr) r ap4 out _ Hok4 A4 E4 Hw Hy)
    as (f & s1 & v & ap' & out' & E & ((Hok' & _ & Est') & F' & A') & Hk & Hr).
  assert (F : fixed ap4 = fixed ap) by congruence.
  exists ap', out'. split; [exact E|]. split; [done|]. split; [done|]. split; [congruence|].
  split; [intros k Hk'; by rewrite Est', lookup_alter_ne, Est4, lookup_alter_ne, Hoth by done|].
  assert (E' : ap_stations ap' !! sta = Some (f (dated now (note s)))) by (by rewrite Est', lookup_alter_eq, E4).
  apply (key_decision_fixed _ _ _ _ _ _ _ ap ap4 F (proj1 Ec4)) in Hk.
  destruct v as [dh|status].
  - eapply assoc_admitted; try done. by eapply (answered_fixed _ _ _ _ _ _ _ _ _ ap ap4 F (proj2 Ec4)).
  - destruct Hr as [Hf Hr]. destruct (fixed_link ap ap4 F) as (_ & _ & _ & Em & _).
    eapply assoc_unkeyed; try done; [etrans; [exact E'|by rewrite Hf]|]. unfold refused_with in *. by rewrite <- Em.
Qed.

Lemma handle_assoc_req_spec fuel now fr ap out :
  ap_ok ap -> admit_ok ap -> wf_bytes (body fr) -> arr 6 (addr2 fr) -> entropy_yields fuel ->
  pmf_session_protected ap (addr2 fr) = false ->
  exists ap' out', handle_assoc_req fuel now fr ap out = Val (ap', out') /\
    ap_ok ap' /\ admit_ok ap' /\ fixed ap' = fixed ap /\ others_kept (addr2 fr) ap ap' /\ assoc_outcome now fr ap ap' out out'.
Proof.
  intros Hok A Hw Hsta Hy Hpmf. unfold handle_assoc_req. set (sta := addr2 fr) in *.
  set (reassoc := subtype fr =? SUBTYPE_REASSOC_REQ).
  assert (Hstop : forall ap' out', carries id ap ap' ->
      (ap_stations ap' !! sta = ap_stations ap !! sta -> assoc_outcome now fr ap ap' out out') ->
      ap_ok ap' /\ admit_ok ap' /\ fixed ap' = fixed ap /\ others_kept sta ap ap' /\ assoc_outcome now fr ap ap' out out').
  { intros ap' out' ((K1 & _ & Es) & F & A') Ho. unfold id in Es. do 3 (split; [done|]).
    split; [by intros k _; rewrite Es|]. apply Ho. by rewrite Es. }
  destruct (beq (addr1 fr) (ap_mac ap)) eqn:Ea; cbn [negb].
  2:{ exists ap, out. split; [done|]. apply Hstop; [by apply carries_refl|]. intros Es. apply assoc_unheard; [left|done|done].
      intros E. rewrite E in Ea. by rewrite (proj2 (beq_true _ _) eq_refl) in Ea. }
  apply beq_true in Ea.
  destruct (ap_credential_reload_pending ap) eqn:Er.
  { destruct (carries_reject sta reassoc STATUS_UNSPECIFIED_FAILURE ap out Hok A) as (ap' & out' & E & Hr & K).
    exists ap', out'. unfold reject_assoc. split; [by rewrite E|]. apply Hstop; [done|]. intros. by apply assoc_reloading. }
  destruct (carries_rate sta now ap Hok A) as (K1 & Ec1 & Ep1 & Es1).
  destruct (allow_assoc_request sta now ap) as [allowed ap1] eqn:Eal. cbn [snd] in *.
  pose proof K1 as ((Hok1 & _ & _) & F1 & A1).
  destruct allowed; cbn [negb].
  2:{ exists ap1, out. split; [done|]. apply Hstop; [done|]. intros Es. apply assoc_unheard; [right|done|done].
      split; [done|]. fold sta. by rewrite Eal. }
  assert (Hp1 : pmf_session_protected ap1 sta = false) by (unfold pmf_session_protected in *; by rewrite Es1).
  rewrite Hp1. destruct (check_assoc_total sta reassoc (body fr) ap1 Hw) as (v & Ev & _). rewrite Ev. cbn [rbind].
  destruct v as [r|status].
  2:{ destruct (fixed_link ap ap1 F1) as (_ & _ & _ & Em & _).
      destruct (carries_reject sta reassoc status ap1 out Hok1 A1) as (ap' & out' & E & Hr & K).
      exists ap', out'. split; [by rewrite E|]. apply Hstop; [exact (carries_trans _ _ _ _ _ K1 K)|]. intros Es.
      unfold refused_with in Hr. rewrite Em in Hr.
      eapply assoc_unacceptable; try done; fold sta; by rewrite Eal. }
  destruct (request_wmm_total reassoc (body fr)) as (w & Ewmm). rewrite Ewmm. cbn [rbind].
  destruct (station_entry_spec now sta ap1 Hok1 A1 Hsta) as (gtk & igtk & _ & _ & K2 & Ec2).
  pose proof (station_entry_pending now sta ap1) as Ep2.
  pose proof (carries_trans _ _ _ _ _ K1 K2) as K12.
  assert (E : forall x, ap_wmm x = ap_wmm (station_entry now sta x) /\ transition_mode x = transition_mode (station_entry now sta x) /\
      ap_mld x = ap_mld (station_entry now sta x) /\ association_link_id x = association_link_id (station_entry now sta x)).
  { intros x. unfold station_entry. by destruct (ap_stations x !! sta). }
  destruct (E ap1) as (-> & -> & -> & ->). clear E.
  eapply (assoc_passed fuel now fr r w _ gtk igtk ap); try done; [by eapply check_assoc_note_ok|congruence|congruence|].
  split; [done|]. split; [done|]. fold sta reassoc. rewrite Eal. split; [done|]. split; [done|].
  apply starts_from_entered.
Qed.

(** C25: an association request from a station without a protected session is
    answered in one of six ways, whatever its body, and each says exactly what
    becomes of the station's record. A request to another address or beyond the
    request rate is ignored, one during a credential reload is refused with
    status 1 and one that fails a check with the status of that check, and the
    record stays as it is. A request that passes every check is first noted: its
    elements, cipher, AKM and PMF selection, WMM, traits, multi-link addresses and
    association link replace those of the record (also of a station that is
    associated without PMF), while its PMK, handshake, keys, windows, SAE
    exchange and group keys stay. If a SAE exchange is not confirmed or the last
    admission is within the back-off time, that is all and nothing is sent.
    Otherwise the key is settled: that of an unexpired PMKSA entry of this client
    for one of the identifiers it sent, or else the one the record had, unless
    OWE derives one from the Diffie-Hellman parameter and a fresh acceptable
    scalar. Then, with that key in the record, the request is refused with status
    53 (an SAE station that names unknown identifiers and has no key), 77 (a group
    other than 19) or 1 (no key where the mode needs one), or admitted: the
    response, with the element of the OWE exchange, is followed by message 3
    again, or by message 1 with the ANonce and replay counter of the handshake in
    progress or held for it. No other station's record changes, and the access
    point stays well formed. *)
Theorem association_admission fuel now fr ap out :
  ap_ok ap -> admit_ok ap -> wf_bytes (body fr) -> arr 6 (addr2 fr) -> entropy_yields fuel ->
  pmf_session_protected ap (addr2 fr) = false ->
  exists ap' out', handle_assoc_req fuel now fr ap out = Val (ap', out') /\
    ap_ok ap' /\ admit_ok ap' /\ fixed ap' = fixed ap /\ others_kept (addr2 fr) ap ap' /\ assoc_outcome now fr ap ap' out out'.
Proof. exact (handle_assoc_req_spec fuel now fr ap out). Qed.


(** ** A protected session *)

Lemma opens_to_fixed ap ap' sta s st b f :
  fixed ap' = fixed ap -> ap_stations ap' !! sta = ap_stations ap !! sta ->
  opens_to ap' sta s st b f -> opens_to ap sta s st b f.
Proof.
  unfold fixed, ap_static. intros E Es. injection E. intros.
  assert (Em : ap_mac ap' = ap_mac ap) by done.
  assert (Et : mld_mgmt_tx_sec_addrs ap' sta = mld_mgmt_tx_sec_addrs ap sta).
  { unfold mld_mgmt_tx_sec_addrs, station_mld. rewrite Es.
    assert (ap_mld ap' = ap_mld ap) as -> by done. by assert (ap_mld_mac ap' = ap_mld_mac ap) as -> by done. }
  unfold opens_to in *. by rewrite <- Em, <- Et.
Qed.

(** an association request that claims the address of a station with a
    protected session is answered with a comeback response and, while the
    station has packet numbers left, with an SA Query request protected under
    the session's key; the station's record changes by that query alone, so its
    keys, its handshake state and its replay windows stay, and no record of
    another station changes. *)
Lemma association_contested fuel now fr ap out s :
  ap_ok ap -> admit_ok ap -> addr1 fr = ap_mac ap -> ap_credential_reload_pending ap = false ->
  (allow_assoc_request (addr2 fr) now ap).1 = true ->
  ap_stations ap !! addr2 fr = Some s -> st_associated s = true -> st_pmf s = true ->
  exists sc id ap', 
    let out1 := out_tx (build_assoc_resp_comeback (ap_mac ap) (addr2 fr) 1000 sc) out in
    ap_ok ap' /\ others_kept (addr2 fr) ap ap' /\
    if st_client_pn s <=? MAX_PACKET_NUMBER then
      exists f, handle_assoc_req fuel now fr ap out = Val (ap', out_tx f out1) /\
        ap_stations ap' !! addr2 fr = Some (challenged id now s) /\
        opens_to ap (addr2 fr) s SUBTYPE_ACTION (sa_query_body false id) f
    else handle_assoc_req fuel now fr ap out = Val (ap', out1) /\ ap_stations ap' = ap_stations ap.
Proof.
  intros Hok A Ea Er Hal Es Has Hpmf. unfold handle_assoc_req. set (sta := addr2 fr) in *.
  rewrite (proj2 (beq_true _ _) Ea), Er. cbn [negb].
  destruct (carries_rate sta now ap Hok A) as (K1 & _ & _ & Es1).
  destruct (allow_assoc_request sta now ap) as [allowed ap1]. cbn [fst snd] in *. rewrite Hal. cbn [negb].
  pose proof K1 as ((Hok1 & _) & F1 & A1). assert (Hp : pmf_session_protected ap1 sta = true) by (unfold pmf_session_protected; by rewrite Es1, Es, Has, Hpmf).
  rewrite Hp.
  pose proof (carries_trans _ _ _ _ _ K1 (carries_next_sc ap1 Hok1 A1)) as ((Hok2 & _ & Es2) & F2 & _).
  destruct (next_sc ap1) as [sc ap2] eqn:En. cbn [snd] in *. unfold id in Es2.
  destruct (fixed_link ap ap2 F2) as (_ & _ & _ & Em & _). rewrite <- Es2 in Es.
  pose proof (sa_query_challenge_spec now sta ap2 (out_tx (build_assoc_resp_comeback (ap_mac ap1) sta 1000 sc) out) s
    Hok2 Es Has) as Hch. assert (Em1 : ap_mac ap1 = ap_mac ap) by apply (fixed_link ap ap1 F1). rewrite Em1 in *.
  exists sc, (sa_query_id_of ap2 s). rewrite Em. destruct (_ <=? _).
  - destruct Hch as (f & ap' & E & (H1 & _ & H3) & _ & Hop). exists ap'. split; [done|].
    split; [intros k Hk; by rewrite H3, lookup_insert_ne, Es2|]. exists f. split; [exact E|].
    split; [by rewrite H3, lookup_insert_eq|]. apply (opens_to_fixed ap ap2); [done|by rewrite Es2|done].
  - destruct Hch as (ap' & E & (H1 & _ & H3) & _). unfold id in H3. exists ap'. split; [done|].
    split; [intros k Hk; by rewrite H3, Es2|]. split; [exact E|]. by rewrite H3.
Qed.

(** ** Towards the four-way handshake *)

Definition idle (s : Station) : Prop :=
  st_group_rekeying s = false /\ st_awaiting_m4 s = false /\ st_associated s = false.

(** A station whose record, if there is one, is free to start a handshake. *)
Definition may_start (now : Z) (ap : Ap) (sta : bytes) : Prop :=
  forall s, ap_stations ap !! sta = Some s -> idle s /\ sae_unconfirmed s = false /\ backing_off now s = false.

Lemma may_start_from now ap sta s :
  may_start now ap sta -> starts_from now ap sta s -> idle s /\ sae_unconfirmed s = false /\ backing_off now s = false.
Proof.
  intros Hm Hs. unfold starts_from in Hs. destruct (ap_stations ap !! sta) as [s0|] eqn:E; [subst; by apply Hm|].
  by destruct Hs as (g & i & ->).
Qed.

Lemma idle_session s s' : session s' = session s -> idle s -> idle s'.
Proof. unfold session, idle. intros E. injection E. intros. split_and!; destruct_and!; congruence. Qed.

(** What the settled record keeps of the noted one. *)
Lemma key_decision_kept now ap sta b r s s1 v :
  key_decision now ap sta b r s s1 v ->
  session s1 = session s /\ st_assoc_ies s1 = st_assoc_ies s /\ st_pairwise_cipher s1 = st_pairwise_cipher s /\
  st_assoc_link_id s1 = st_assoc_link_id s /\
  (needs_pmk ap -> forall dh, v = Ok dh -> st_pmk s1 <> None).
Proof.
  assert (Hk : forall o pmk, let s1 := owe_change pmk (pmksa_keyed o s) in
    session s1 = session s /\ st_assoc_ies s1 = st_assoc_ies s /\ st_pairwise_cipher s1 = st_pairwise_cipher s /\
    st_assoc_link_id s1 = st_assoc_link_id s) by (intros [e|] [k|]; done).
  intros [o _ _|o st _ _ _|o dh _ _ _ _ _|o pmk dh _ _ _ Hn].
  1-3: destruct (Hk o None) as (H1 & H2 & H3 & H4); split_and!; done.
  destruct (Hk o pmk) as (H1 & H2 & H3 & H4). split_and!; try done. intros Hneed _ _. by apply Hn.
Qed.

(** C26: on an access point that is not multi-link and without operating channel
    validation, an association request that passes the checks, from a station
    that is neither associated nor within a handshake, SAE exchange or back-off
    time, either is refused for want of a key, with the status that the key
    lookup decides, or starts the four-way handshake: the response is followed by
    message 1, which carries the ANonce and the replay counter that the station's
    record now holds, no candidate keys are left, message 2 will be checked
    against the elements and the cipher of this request, and as soon as there is
    one PMK to expect (always so when the record has a key) the station is in the
    state from which message 2 with that PMK is accepted. *)
Theorem association_starts_handshake fuel now fr ap out r :
  ap_ok ap -> admit_ok ap -> wf_bytes (body fr) -> arr 6 (addr2 fr) -> entropy_yields fuel ->
  ap_mld ap = false -> ap_ocv ap = false ->
  addr1 fr = ap_mac ap -> ap_credential_reload_pending ap = false ->
  (allow_assoc_request (addr2 fr) now ap).1 = true ->
  check_assoc (addr2 fr) (subtype fr =? SUBTYPE_REASSOC_REQ) (body fr) (allow_assoc_request (addr2 fr) now ap).2 =
    Val (Ok r) ->
  may_start now ap (addr2 fr) ->
  exists s s0 s1 v ap' out', handle_assoc_req fuel now fr ap out = Val (ap', out') /\
    starts_from now ap (addr2 fr) s /\ noted ap fr r s s0 /\
    key_decision now ap (addr2 fr) (body fr) r (dated now s0) s1 v /\
    match v with
    | Err status => refused_with ap (addr2 fr) (subtype fr =? SUBTYPE_REASSOC_REQ) status out out'
    | Ok _ =>
        exists s' anonce assoc sc,
          out' = out_push (prepend_radiotap (build_eapol_m1_for_key_length (ap_mac ap) (addr2 fr) anonce
            (st_m1_replay s') sc (key_mic s') (Z.of_nat (key_len (ar_cipher r))))) (out_tx assoc out) /\
          ap_stations ap' !! addr2 fr = Some s' /\ st_pmk s' = st_pmk s1 /\ st_assoc_ies s' = ar_ies r /\
          st_pairwise_cipher s' = ar_cipher r /\ st_associated s' = false /\ st_ptk_candidates s' = [] /\
          (forall pmk, st_pmk s' = Some pmk -> awaits_m2 ap' (addr2 fr) s' anonce pmk) /\
          (forall pmk, pmk_candidates ap' (addr2 fr) s' = [pmk] -> awaits_m2 ap' (addr2 fr) s' anonce pmk)
    end.
Proof.
  intros Hok A Hw Hsta Hy Hmld Hocv Ea Er Hal Hr Hms.
  assert (Hp : pmf_session_protected ap (addr2 fr) = false).
  { unfold pmf_session_protected. destruct (ap_stations ap !! addr2 fr) as [s|] eqn:E; [|done].
    destruct (Hms s E) as ((_ & _ & ->) & _). done. }
  destruct (handle_assoc_req_spec fuel now fr ap out Hok A Hw Hsta Hy Hp) as (ap' & out' & E & _ & _ & F & _ & Ho).
  destruct (fixed_link ap ap' F) as (_ & Emode & _ & _ & Emld').
  assert (Eocv' : ap_ocv ap' = ap_ocv ap) by (unfold fixed, ap_static in F; by injection F).
  destruct Ho as [[Hx|[_ Hx]] _ _|_ Hx _ _|st _ _ _ Hx _ _|r' s s0 Hpass _ Hx _ _
    |r' s s0 s1 st Hpass Hn _ _ Hk Es' Href|r' s s0 s1 s' dh Hpass Hn _ _ Hk Es' Ha]; try congruence.
  - destruct Hpass as (_ & _ & _ & _ & Hs). destruct (may_start_from _ _ _ _ Hms Hs) as (_ & U & B). destruct Hx; congruence.
  - destruct Hpass as (_ & _ & _ & Hr' & Hs). assert (r' = r) as -> by congruence.
    by exists s, s0, s1, (Err st), ap', out'.
  - destruct Hpass as (_ & _ & _ & Hr' & Hs). assert (r' = r) as -> by congruence.
    exists s, s0, s1, (Ok dh), ap', out'. do 4 (split; [done|]).
    destruct (may_start_from _ _ _ _ Hms Hs) as (Hidle & _).
    destruct (key_decision_kept _ _ _ _ _ _ _ _ Hk) as (Kses & Kies & Kc & Klink & Kneed).
    destruct Hn as [Hu _ _ _ Hies Hc _ _ Hlink _].
    assert (Hses : session s0 = session s) by exact (f_equal (fun x => x.1.1.1) Hu).
    destruct (idle_session s s1) as (I1 & I2 & I3); [etrans; [exact Kses|exact Hses]|done|]. clear Hu Hidle Hs.
    destruct Ha as (assoc & sc & aid & msg & -> & _ & [(Hm & _)|(a & rp & m & _ & _ & _ & Em & -> & _)]); [congruence|].
    unfold assoc_m1 in *. rewrite Hmld in *. cbn [andb] in *. change (key_mic (m1_started a rp s1)) with (key_mic s1) in *.
    set (m1 := build_eapol_m1_for_key_length _ _ _ _ _ _ _) in *.
    exists (m1_sent now a rp m1 s1), a, assoc, m. split; [rewrite Em; reflexivity|].
    clearbody m1. split; [exact Es'|]. split; [done|]. split; [etrans; [exact Kies|exact Hies]|].
    split; [etrans; [exact Kc|exact Hc]|]. split; [exact I3|]. split; [done|].
    assert (Hawaits : forall pmk, pmk_candidates ap' (addr2 fr) (m1_sent now a rp m1 s1) = [pmk] ->
      awaits_m2 ap' (addr2 fr) (m1_sent now a rp m1 s1) a pmk).
    { intros pmk Hpm. constructor; [exact Es'| |by split_and!|done|exact Hpm|].
      - split_and!; [congruence|congruence|]. etrans; [exact Klink|]. etrans; [exact Hlink|].
        unfold request_link. by rewrite Hmld.
      - rewrite Emode. intros Hneed. by eapply Kneed. }
    split; [|exact Hawaits]. intros pmk Hpm. apply Hawaits. unfold pmk_candidates. by rewrite Hpm.
Qed.

End Operations.

(** * Witnesses *)

Lemma toy_entropy_yields : entropy_yields 1.
Proof.
  intros d. exists O. split; [lia|]. cbn [N.of_nat]. rewrite N.add_0_r.
  assert (E : os_random d 32 = os_random (d mod 256) 32).
  { cbn [os_random toy_entropy]. apply map_ext. intros j. rewrite N2Z.inj_mod.
    change (Z.of_N 256) with 256. rewrite (Z.add_mod (j * 7 + Z.of_N d * 13)), (Z.add_mod (j * 7)) by done.
    rewrite (Z.add_mod (j * 7 + Z.of_N d mod 256 * 13)), (Z.add_mod (j * 7) (Z.of_N d mod 256 * 13)) by done.
    by rewrite Z.mul_mod_idemp_l. }
  rewrite E. pose proof (N.mod_lt d 256 ltac:(done)) as Hd. revert Hd. generalize (d mod 256)%N. clear d E.
  intros d Hd.
  assert (Hall : forallb (fun n => acceptable_scalar (os_random (N.of_nat n) 32)) (seq 0 256) = true)
    by (vm_compute; reflexivity).
  rewrite forallb_forall in Hall. specialize (Hall (N.to_nat d)). rewrite N2Nat.id in Hall. apply Hall.
  apply in_seq. lia.
Qed.

Lemma demo_admit_ok : admit_ok demo_empty.
Proof.
  constructor; [apply demo_bss_ok|by intros ? ? [=]|by apply (bool_decide_unpack _)|by intros ? ? [=]|
    exact I|by apply (bool_decide_unpack _)].
Qed.

(** An association request for the demo's network, and what is made of it. *)
Definition demo_assoc_req : Dot11 := Eval vm_compute in
  received_frame (Val (dot11_header TYPE_MGMT SUBTYPE_ASSOC_REQ 0 demo_mac demo_sta demo_mac 5
    ++ [0x11; 0x00; 0x0a; 0x00] ++ RSN)).

Lemma association_admission_witness :
  exists ap' out', handle_assoc_req 1 8 demo_assoc_req demo_empty no_output = Val (ap', out') /\
    ap_ok ap' /\ admit_ok ap' /\ fixed ap' = fixed demo_empty /\ others_kept demo_sta demo_empty ap' /\
    assoc_outcome 8 demo_assoc_req demo_empty ap' no_output out'.
Proof.
  apply (association_admission 1 8 demo_assoc_req demo_empty no_output).
  - exact demo_empty_ok.
  - exact demo_admit_ok.
  - by apply (bool_decide_unpack _).
  - by apply (bool_decide_unpack _).
  - exact toy_entropy_yields.
  - reflexivity.
Defined.

Lemma demo_pmf_admit_ok : admit_ok demo_pmf_ap.
Proof.
  constructor; [apply (bss_ok_fixed demo_empty); [reflexivity|apply demo_bss_ok]|by intros ? ? [=]|
    by apply (bool_decide_unpack _)|by intros ? ? [=]|exact I|by apply (bool_decide_unpack _)].
Qed.

Definition demo_assoc_out : Ap * Outgoing := Eval vm_compute in
  returned (handle_assoc_req 1 8 demo_assoc_req demo_empty no_output).

Definition demo_assoc_checked : AssocRequest := Eval vm_compute in
  match check_assoc demo_sta false (body demo_assoc_req) (allow_assoc_request demo_sta 8 demo_empty).2 with
  | Val (Ok r) => r
  | _ => {| ar_ies := []; ar_rsn := []; ar_cipher := Ccmp128; ar_requests_sae := false; ar_requests_pmf := false;
            ar_selects_psk_sha256 := None; ar_mld := None |}
  end.

Lemma association_starts_handshake_witness :
  exists s' anonce assoc sc,
    demo_assoc_out.2 = out_push (prepend_radiotap (build_eapol_m1_for_key_length demo_mac demo_sta anonce (st_m1_replay s')
      sc (key_mic s') 16)) (out_tx assoc no_output) /\
    ap_stations demo_assoc_out.1 !! demo_sta = Some s' /\ st_assoc_ies s' = drop 4 (body demo_assoc_req) /\
    awaits_m2 demo_assoc_out.1 demo_sta s' anonce (ap_pmk demo_empty).
Proof.
  destruct (association_starts_handshake 1 8 demo_assoc_req demo_empty no_output demo_assoc_checked)
    as (s & s0 & s1 & v & ap' & out' & E & _ & _ & _ & Hv).
  - exact demo_empty_ok.
  - exact demo_admit_ok.
  - by apply (bool_decide_unpack _).
  - by apply (bool_decide_unpack _).
  - exact toy_entropy_yields.
  - reflexivity.
  - reflexivity.
  - reflexivity.
  - reflexivity.
  - reflexivity.
  - vm_compute. reflexivity.
  - intros x Hx. discriminate Hx.
  - assert (E' : handle_assoc_req 1 8 demo_assoc_req demo_empty no_output = Val demo_assoc_out) by (vm_compute; reflexivity).
    rewrite E' in E. injection E as <- <-. destruct v as [dh|st].
    + destruct Hv as (s' & a & assoc & sc & Ho & Hs & _ & Hi & _ & _ & _ & _ & Hw). exists s', a, assoc, sc.
      split; [exact Ho|]. split; [exact Hs|]. split; [exact Hi|]. apply Hw.
      assert (Hx : ap_stations demo_assoc_out.1 !! demo_sta = Some s') by exact Hs. revert Hx. clear. intros Hx.
      assert (Hc : option_map (pmk_candidates demo_assoc_out.1 demo_sta) (ap_stations demo_assoc_out.1 !! demo_sta) =
        Some [ap_pmk demo_empty]) by (vm_compute; reflexivity).
      rewrite Hx in Hc. by injection Hc.
    + exfalso. destruct Hv as [sc Ho]. apply (f_equal (fun o => length (out_frames o))) in Ho. discriminate Ho.
Defined.
