(* ===== verification/ApSae.v ===== *)
(** SAE authentication at the access point: src/ap/sae_auth.rs, the worker of
    src/ap/runtime.rs and the authentication half of src/ap/receive.rs. *)
From S2P Require Import Prelude Elements Crypto Security Frames Channels DataProt Kde Rsn Advert Mlo Eapol Sae Failures Ap ApConfig ApEapol Demo ApMgmt ApBeacon ApRates ApAdmit.

Definition STATUS_SUCCESS : Z := 0.
Definition STATUS_ANTI_CLOGGING_TOKEN_REQ : Z := 76.
Definition STATUS_SAE_H2E : Z := 126.
Definition SAE_WORK_QUEUE_MAX : nat := 15.
Definition SAE_COMMIT_LEN : nat := 98.

(** * Anti-clogging tokens *)

(** One element after the scalar and the element of a hash-to-element commit. *)
Definition commit_token_step (payload : bytes) (st : nat * bytes * option bytes) :
    res (nat * bytes * option bytes + option (bytes * option bytes)) :=
  let '(pos, commit, token) := st in
  if (pos <? length payload)%nat then
    if (length payload - pos <? 2)%nat then Val (inr None)
    else
      let! len := idx payload (pos + 1) in
      let stop := (pos + (2 + Z.to_nat len))%nat in
      if (length payload <? stop)%nat then Val (inr None)
      else
        let! b0 := idx payload pos in
        let! is_token :=
          if (b0 =? 255) && (len =? 33) then rmap (fun x => x =? 93) (idx payload (pos + 2)) else Val false in
        if is_token then
          match token with
          | Some _ => Val (inr None)
          | None => let! value := slice payload (pos + 3) stop in Val (inl (stop, commit, Some value))
          end
        else let! element := slice payload pos stop in Val (inl (stop, commit ++ element, token))
  else Val (inr (Some (commit, token))).

(** [sae_commit_token]: the commit without its token, and the token. *)
Definition sae_commit_token (payload : bytes) (h2e : bool) : res (option (bytes * option bytes)) :=
  if (length payload <? SAE_COMMIT_LEN)%nat then Val None
  else if negb h2e then
    if (SAE_COMMIT_LEN + 32 <=? length payload)%nat then
      let! token := slice payload 2 34 in
      let! group := slice payload 0 2 in
      let! rest := slice_from payload 34 in
      Val (Some (group ++ rest, Some token))
    else Val (Some (payload, None))
  else
    let! commit := slice payload 0 SAE_COMMIT_LEN in
    loop (S (length payload)) (commit_token_step payload) (SAE_COMMIT_LEN, commit, None).

(** "rustap-sae-token-v1" *)
Definition TOKEN_LABEL : bytes :=
  [0x72; 0x75; 0x73; 0x74; 0x61; 0x70; 0x2d; 0x73; 0x61; 0x65; 0x2d; 0x74; 0x6f; 0x6b; 0x65; 0x6e;
   0x2d; 0x76; 0x31].

(** [Instant::elapsed], in whole seconds. *)
Definition elapsed_secs (now since : Z) : Z := duration_since now since / secs 1.

Section SaeAuth.
Context `{Entropy} `{HashOrder} {P : Primitives} {C : P256}.

Definition sae_token_at (ap : Ap) (sta : bytes) (h2e : bool) (commit : bytes) (issued_at_secs : Z) : bytes :=
  let issued := be_bytes 8 issued_at_secs in
  let input := TOKEN_LABEL ++ issued ++ sta ++ [if h2e then 1 else 0] ++ commit in
  issued ++ take 24 (hmac_sha256 (ap_sae_token_key ap) input).

Definition sae_token (now : Z) (ap : Ap) (sta : bytes) (h2e : bool) (commit : bytes) : bytes :=
  sae_token_at ap sta h2e commit (elapsed_secs now (ap_boottime ap)).

Definition valid_sae_token (now : Z) (ap : Ap) (sta : bytes) (h2e : bool) (commit token : bytes) : bool :=
  let issued_at_secs := be_val (take 8 token) in
  let age := elapsed_secs now (ap_boottime ap) - issued_at_secs in
  if age <? 0 then false
  else if SAE_TOKEN_LIFETIME / secs 1 <? age then false
  else constant_time_eq (drop 8 token) (drop 8 (sae_token_at ap sta h2e commit issued_at_secs)).

Definition request_sae_token (now : Z) (sta : bytes) (h2e : bool) (commit : bytes) (ap : Ap) (out : Outgoing) :
    Ap * Outgoing :=
  match get_range commit 0 2 with
  | None => (ap, out)
  | Some group =>
      let token := sae_token now ap sta h2e commit in
      let b := group ++ (if h2e then [255; 33; 93] else []) ++ token in
      let (sc, ap) := next_sc ap in
      (ap, out_tx (build_sae_auth sta (ap_mac ap) (ap_mac ap) 0 sc 1 STATUS_ANTI_CLOGGING_TOKEN_REQ b) out)
  end.

(** An exchange that is neither confirmed nor given up. *)
Definition incomplete (s : Station) : bool := sae_unconfirmed s.
Definition sae_pending (ap : Ap) : gmap bytes PendingSaeCommit :=
  match ap_async_sae ap with Some w => as_pending w | None => ∅ end.

Definition incomplete_sae_count (ap : Ap) : nat :=
  size (filter (fun p : bytes * Station => incomplete p.2 = true) (ap_stations ap)) + size (sae_pending ap).

(** * The commit computation *)

Definition sae_auth_mld_mac (seq : Z) (payload : bytes) : res (option bytes) :=
  let from := if seq =? 1 then Some SAE_COMMIT_LEN else if seq =? 2 then Some (2 + 32)%nat else None in
  match from with
  | Some n => if (length payload <? n)%nat then Val None else parse_mld_mac (drop n payload)
  | None => Val None
  end.

Definition sae_result (job : SaeCommitJob) (outcome : SaeCommitOutcome) : SaeCommitResult := {|
  res_id := job_id job; res_sta := job_sta job; res_h2e := job_h2e job; res_peer_mld := job_peer_mld job;
  res_commit_payload := job_commit_payload job; res_outcome := outcome |}.

(** The exchange a job starts, before it has seen the peer's commit. *)
Definition sae_start (job : SaeCommitJob) : res (option Sae) :=
  if job_h2e job then
    rmap Some (new_h2e (job_ssid job) (job_password job) None (job_sae_ap job) (job_sae_sta job))
  else new_hunting_pecking (job_password job) (job_sae_ap job) (job_sae_sta job).

(** Commit and confirm, once the peer's commit is parsed. *)
Definition sae_answer (sae : Sae) : res SaeCommitOutcome :=
  let rejected_groups := peer_rejected_group_ids sae in
  if is_reflection sae then Val Reflection
  else
    let! '(processed, sae) := process_commit sae in
    match processed with
    | Err _ => Val Failed
    | Ok _ =>
        let! commit_body := write_commit sae in
        let! '(written, sae) := write_confirm sae in
        match written with
        | Err _ => Val Failed
        | Ok confirm_body => Val (Complete sae commit_body confirm_body rejected_groups)
        end
    end.

(** [compute_sae_commit]; the two secret scalars are drawn from the operating
    system's generator. *)
Definition compute_sae_commit (fuel : nat) (job : SaeCommitJob) (draws : N) : res (SaeCommitResult * N) :=
  let! sae := sae_start job in
  match sae with
  | None => Val (sae_result job Failed, draws)
  | Some sae =>
      let! '(parsed, sae) := parse_peer_commit sae (job_commit_payload job) in
      match parsed with
      | Err _ => Val (sae_result job Failed, draws)
      | Ok _ =>
          let! '(rand, draws) := loop fuel owe_private_step draws in
          let! '(mask, draws) := loop fuel owe_private_step draws in
          let! sae := prepare_commit sae rand mask in
          let! outcome := sae_answer sae in
          Val (sae_result job outcome, draws)
      end
  end.

(** * The two messages *)

(** A verified confirm completes the exchange and caches its key. *)
Definition sae_confirmed_station (now : Z) (sta : bytes) (sae : Sae) (ap : Ap) : Ap :=
  let identity := default sta (ap_stations ap !! sta ≫= st_client_mld_mac) in
  let ap := upd_station sta (fun s => s <| st_sae_confirmed := true |>) ap in
  if (length (sae_pmkid sae) =? 16)%nat && (length (sae_pmk sae) =? 32)%nat then
    cache_pmksa now (sae_pmkid sae) identity (sae_pmk sae) true ap
  else ap.

Definition finish_sae_confirm (now : Z) (sta payload : bytes) (ap : Ap) : res Ap :=
  match ap_stations ap !! sta ≫= st_sae with
  | None => Val ap
  | Some sae =>
      let! '(checked, sae) := check_confirm sae payload in
      let ap := upd_station sta (fun s => s <| st_sae := Some sae |>) ap in
      match checked with
      | Ok _ => Val (sae_confirmed_station now sta sae ap)
      | Err ReplayedConfirm => Val ap
      | Err _ => Val (record_failure sta SaeFailure ap)
      end
  end.

(** The record after our commit and confirm have been sent. *)
Definition sae_committed (now : Z) (sae : Sae) (h2e : bool) (peer_mld : option bytes) (resp : list bytes)
    (commit_payload : bytes) (s : Station) : Station :=
  let s := s <| st_sae := Some sae |> <| st_pmk := Some (sae_pmk sae) |> <| st_sae_confirmed := false |>
             <| st_sae_h2e := h2e |> <| st_sha256 := true |> <| st_psk_sha256 := false |> <| st_pmf := true |> in
  let s := match peer_mld with Some mld => s <| st_client_mld_mac := Some mld |> | None => s end in
  s <| st_sae_resp := resp |> <| st_sae_commit := commit_payload |> <| st_last_activity := now |>.

Definition finish_sae_commit (now : Z) (result : SaeCommitResult) (pending_confirm : option bytes) (ap : Ap)
    (out : Outgoing) : res (Ap * Outgoing) :=
  let sta := res_sta result in
  match res_outcome result with
  | Complete sae commit_body confirm_body _ =>
      let! ml := match res_peer_mld result with Some _ => multi_link_auth (ap_mld_mac ap) | None => Val [] end in
      let resp_status := if res_h2e result then STATUS_SAE_H2E else STATUS_SUCCESS in
      let (sc1, ap) := next_sc (ap <| ap_sc := -1 |>) in
      let commit := build_sae_auth sta (ap_mac ap) (ap_mac ap) 0 sc1 1 resp_status (commit_body ++ ml) in
      let (sc2, ap) := next_sc ap in
      let confirm := build_sae_auth sta (ap_mac ap) (ap_mac ap) 0 sc2 2 STATUS_SUCCESS (confirm_body ++ ml) in
      if negb (length (sae_pmk sae) =? 32)%nat then Panic
      else
        let ap := upd_station sta
          (sae_committed now sae (res_h2e result) (res_peer_mld result) [commit; confirm] (res_commit_payload result))
          (station_entry now sta ap) in
        let ap := schedule_maintenance (now + SAE_AUTH_TIMEOUT) ap in
        let out := out_tx confirm (out_tx commit out) in
        match pending_confirm with
        | Some payload => let! ap := finish_sae_confirm now sta payload ap in Val (ap, out)
        | None => Val (ap, out)
        end
  | _ => Val (record_failure sta SaeFailure ap, out)
  end.

(** * The worker (ap/runtime.rs)

    The two channels and the thread are the lists of [AsyncSae]. *)
Definition upd_worker (f : AsyncSae -> AsyncSae) (ap : Ap) : Ap :=
  ap <| ap_async_sae := option_map f (ap_async_sae ap) |>.

(** [spawned]: the operating system has started the thread. *)
Definition enable_async_sae (spawned : bool) (ap : Ap) : Ap :=
  match ap_async_sae ap with
  | Some _ => ap
  | None =>
      if spawned then
        ap <| ap_async_sae := Some {| as_jobs := []; as_working := None; as_results := []; as_alive := true;
                                      as_pending := ∅; as_next_id := 1 |} |>
      else ap
  end.

(** The thread takes the oldest job, and later sends its result; a computation
    that panics ends the thread. *)
Definition worker_take (w : AsyncSae) : AsyncSae :=
  match as_working w, as_jobs w with
  | None, job :: rest => if as_alive w then w <| as_working := Some job |> <| as_jobs := rest |> else w
  | _, _ => w
  end.
Definition worker_answer (fuel : nat) (draws : N) (w : AsyncSae) : AsyncSae :=
  match as_working w with
  | Some job =>
      match compute_sae_commit fuel job draws with
      | Val (r, _) => w <| as_working := None |> <| as_results := as_results w ++ [r] |>
      | Panic => w <| as_working := None |> <| as_alive := false |>
      | OutOfFuel => w
      end
  | None => w
  end.

Definition queue_sae_commit (now : Z) (job : SaeCommitJob) (ap : Ap) (out : Outgoing) : res (Ap * Outgoing) :=
  let! w := expect (ap_async_sae ap) in
  let job := {| job_id := as_next_id w; job_sta := job_sta job; job_h2e := job_h2e job; job_ssid := job_ssid job;
                job_password := job_password job; job_sae_ap := job_sae_ap job; job_sae_sta := job_sae_sta job;
                job_peer_mld := job_peer_mld job; job_commit_payload := job_commit_payload job |} in
  let w := w <| as_next_id := Z.max 1 (u64 (as_next_id w + 1)) |> in
  let ap := ap <| ap_async_sae := Some w |> in
  if negb (as_alive w) then Val ((record_failure (job_sta job) SaeFailure ap) <| ap_async_sae := None |>, out)
  else if (SAE_WORK_QUEUE_MAX <=? length (as_jobs w))%nat then
    Val (request_sae_token now (job_sta job) (job_h2e job) (job_commit_payload job) ap out)
  else
    let pending := {| ps_id := job_id job; ps_commit_payload := job_commit_payload job; ps_queued_at := now;
                      ps_confirm := None |} in
    let w := w <| as_jobs := as_jobs w ++ [job] |> <| as_pending := <[job_sta job := pending]> (as_pending w) |> in
    Val (schedule_maintenance (now + SAE_AUTH_TIMEOUT) (ap <| ap_async_sae := Some w |>), out).

(** One turn of [poll_sae_work]. *)
Definition pending_matches (w : AsyncSae) (result : SaeCommitResult) : option PendingSaeCommit :=
  match as_pending w !! res_sta result with
  | Some p =>
      if (ps_id p =? res_id result) && beq (ps_commit_payload p) (res_commit_payload result) then Some p else None
  | None => None
  end.
Definition poll_step (now : Z) (st : Ap * Outgoing) : res (Ap * Outgoing + Ap * Outgoing) :=
  let (ap, out) := st in
  match ap_async_sae ap with
  | None => Val (inr (ap, out))
  | Some w =>
      match as_results w with
      | [] => Val (inr (if as_alive w then (ap, out) else (ap <| ap_async_sae := None |>, out)))
      | result :: rest =>
          let w := w <| as_results := rest |> in
          match pending_matches w result with
          | None => Val (inl (ap <| ap_async_sae := Some w |>, out))
          | Some p =>
              let w := w <| as_pending := delete (res_sta result) (as_pending w) |> in
              rmap inl (finish_sae_commit now result (ps_confirm p) (ap <| ap_async_sae := Some w |>) out)
          end
      end
  end.
Definition poll_sae_work (now : Z) (ap : Ap) (out : Outgoing) : res (Ap * Outgoing) :=
  let results := match ap_async_sae ap with Some w => length (as_results w) | None => O end in
  loop (S (S results)) (poll_step now) (ap, out).

(** * Authentication frames *)

(** The identities of the exchange: the peer's MLD address, if it has one, the
    access point's and the station's. *)
Definition sae_peer_mld (sta commit_payload : bytes) (ap : Ap) : res (option bytes) :=
  if ap_mld ap then
    let! auth_mld := sae_auth_mld_mac 1 commit_payload in
    Val (match auth_mld with Some m => Some m | None => ap_stations ap !! sta ≫= st_client_mld_mac end)
  else Val None.
Definition sae_ap_identity (peer_mld : option bytes) (ap : Ap) : bytes :=
  match peer_mld with
  | Some _ => ap_mld_mac ap
  | None => match association_link ap with Some link => ml_mac link | None => ap_mac ap end
  end.

Definition sae_reject (sta : bytes) (status : Z) (b : bytes) (ap : Ap) (out : Outgoing) : Ap * Outgoing :=
  let (sc, ap) := next_sc ap in
  (ap, out_tx (build_sae_auth sta (ap_mac ap) (ap_mac ap) 0 sc 1 status b) out).

(** The answer we have already given to the same commit. *)
Definition cached_answer (sta commit_payload : bytes) (ap : Ap) : option (list bytes) :=
  match ap_stations ap !! sta with
  | Some s =>
      if sae_unconfirmed s && negb (length (st_sae_resp s) =? 0)%nat && beq (st_sae_commit s) commit_payload
      then Some (st_sae_resp s) else None
  | None => None
  end.
Definition already_queued (sta commit_payload : bytes) (ap : Ap) : bool :=
  match sae_pending ap !! sta with
  | Some p => beq (ps_commit_payload p) commit_payload
  | None => false
  end.
Definition existing_exchange (sta : bytes) (ap : Ap) : bool :=
  match ap_stations ap !! sta with Some s => sae_unconfirmed s | None => false end ||
  bool_decide (is_Some (sae_pending ap !! sta)).

(** The exchange a commit asks for: the addresses it is between and the password
    they share, if there is one. *)
Definition exchange_job (sta : bytes) (h2e : bool) (commit_payload : bytes) (ap : Ap) : res (option SaeCommitJob) :=
  let! peer_mld := sae_peer_mld sta commit_payload ap in
  let sae_sta := default sta peer_mld in
  Val (option_map (fun password =>
    {| job_id := 0; job_sta := sta; job_h2e := h2e; job_ssid := ap_ssid ap; job_password := password;
       job_sae_ap := sae_ap_identity peer_mld ap; job_sae_sta := sae_sta; job_peer_mld := peer_mld;
       job_commit_payload := commit_payload |})
    (sae_password_for ap sae_sta (option_map (fun _ => sta) peer_mld))).

(** A commit that has passed the anti-clogging checks is worked on. *)
Definition start_sae_commit (fuel : nat) (now : Z) (sta : bytes) (h2e : bool) (commit_payload : bytes) (ap : Ap)
    (out : Outgoing) : res (Ap * Outgoing) :=
  let! job := exchange_job sta h2e commit_payload ap in
  match job with
  | None => Val (record_failure sta SaeFailure ap, out)
  | Some job =>
      match ap_async_sae ap with
      | Some _ => queue_sae_commit now job ap out
      | None =>
          let! '(result, draws) := compute_sae_commit fuel job (ap_draws ap) in
          finish_sae_commit now result None (ap <| ap_draws := draws |>) out
      end
  end.

Definition handle_sae_commit (fuel : nat) (now : Z) (sta : bytes) (h2e : bool) (payload : bytes) (ap : Ap)
    (out : Outgoing) : res (Ap * Outgoing) :=
  let! stripped := sae_commit_token payload h2e in
  match stripped with
  | None => Val (record_failure sta SaeFailure ap, out)
  | Some (commit_payload, supplied_token) =>
      if already_queued sta commit_payload ap then Val (ap, out)
      else
        match cached_answer sta commit_payload ap with
        | Some frames => Val (ap, foldl (fun out f => out_tx f out) out frames)
        | None =>
            let count := incomplete_sae_count ap in
            let existing := existing_exchange sta ap in
            if negb existing && (SAE_INCOMPLETE_MAX <=? count)%nat then
              Val (request_sae_token now sta h2e commit_payload ap out)
            else if (existing || (SAE_ANTI_CLOGGING_THRESHOLD <=? count)%nat) &&
                    negb (match supplied_token with
                          | Some token => valid_sae_token now ap sta h2e commit_payload token
                          | None => false
                          end) then
              Val (request_sae_token now sta h2e commit_payload ap out)
            else if bool_decide (is_Some (sae_pending ap !! sta)) then Val (ap, out)
            else start_sae_commit fuel now sta h2e commit_payload ap out
        end
  end.

Definition handle_sae_auth (fuel : nat) (now : Z) (sta : bytes) (seq status : Z) (payload : bytes) (ap : Ap)
    (out : Outgoing) : res (Ap * Outgoing) :=
  if (seq =? 1) && negb ((status =? STATUS_SUCCESS) || (status =? STATUS_SAE_H2E)) then
    Val (sae_reject sta STATUS_UNSPECIFIED_FAILURE [] ap out)
  else if seq =? 1 then
    match get_range payload 0 2 with
    | None => Val (record_failure sta SaeFailure ap, out)
    | Some group =>
        if negb (le_val group =? SAE_GROUP_19) then
          Val (sae_reject sta STATUS_FINITE_CYCLIC_GROUP_NOT_SUPPORTED group ap out)
        else handle_sae_commit fuel now sta (status =? STATUS_SAE_H2E) payload ap out
    end
  else if seq =? 2 then
    match sae_pending ap !! sta with
    | Some p =>
        Val (upd_worker (fun w => w <| as_pending :=
          <[sta := {| ps_id := ps_id p; ps_commit_payload := ps_commit_payload p; ps_queued_at := ps_queued_at p;
                      ps_confirm := Some payload |}]> (as_pending w) |>) ap, out)
    | None => let! ap := finish_sae_confirm now sta payload ap in Val (ap, out)
    end
  else Val (ap, out).

Definition handle_auth_req (fuel : nat) (now : Z) (frame : Dot11) (ap : Ap) (out : Outgoing) : res (Ap * Outgoing) :=
  if negb (beq (addr1 frame) (ap_mac ap)) then Val (ap, out)
  else
    let sta := addr2 frame in
    let! auth := parse_auth (body frame) in
    match auth with
    | None => Val (ap, out)
    | Some auth =>
        let (allowed, ap) := allow_auth_request sta now ap in
        if negb allowed then Val (ap, out)
        else if pmf_session_protected ap sta then sa_query_challenge now sta ap out
        else if auth_algo auth =? AUTH_ALG_SAE then
          if ap_sae_enabled ap then
            handle_sae_auth fuel now sta (auth_seq auth) (auth_status auth) (auth_payload auth) ap out
          else Val (ap, out)
        else open_auth now sta ap out
    end.

End SaeAuth.

(** * The computation *)

(** An exchange that can check a confirm: keyed, both commits present, both
    elements finite. *)
Record sae_ready (s : Sae) : Prop := {
  sr_kck : wf_bytes (sae_kck s);
  sr_pmk : arr 32 (sae_pmk s);
  sr_pmkid : arr 16 (sae_pmkid s);
  sr_element : commit_element s <> Infinity;
  sr_peer : exists v Q, peer_scalar s = Some v /\ peer_element s = Some Q /\ Q <> Infinity
}.

Section Computation.
Context `{Entropy} `{!EntropyOk _} {P : Primitives} {Pok : PrimitivesOk P} {C : P256} {Cok : P256Ok C}.

(** A wire point at infinity is the identity, and the identity has no other. *)
Lemma repr_infinity Q p : repr Q p -> is_identity p = true -> Q = Infinity.
Proof. intros [HQ _] Hi. unfold point_from_p256 in HQ. rewrite Hi in HQ. by injection HQ as <-. Qed.

Lemma pneg_infinity Q p : repr Q (pneg p) -> is_identity p = false -> Q <> Infinity.
Proof.
  intros [_ HQ] Hi ->. cbn in HQ. injection HQ as HQ. assert (E : p = identity).
  { rewrite <- (pneg_neg p), <- HQ. symmetry. apply pneg_unique. apply padd_identity. }
  by rewrite (proj2 (is_identity_true p) E) in Hi.
Qed.

Lemma hunt_found_repr password salt found c o :
  hunt_step password salt found c = Val o -> (forall q, found = Some q -> exists p, repr q p) ->
  forall q, o = Some q -> exists p, repr q p.
Proof.
  unfold hunt_step. intros E Hf q ->. destruct (sha256_prf _ _ _ _) as [v| |]; cbn [rbind] in E; [|done|done].
  destruct (idx _ _) as [b| |]; cbn [rbind] in E; [|done|done].
  unfold point_from_compressed in E. destruct (from_sec1_bytes _) as [p|]; unfold rmap in E; cbn [rbind] in E.
  - destruct (from_p256_repr p) as (Q & EQ & HQ). rewrite EQ in E. cbn [rbind] in E.
    destruct found as [q'|]; [injection E as <-; by apply (Hf q')|]. destruct (_ <? _); [|done]. injection E as <-. by exists p.
  - destruct found as [q'|]; [injection E as <-; by apply (Hf q')|done].
Qed.

Lemma hunt_fold_repr password salt counters : wf_bytes password -> wf_bytes salt -> Forall is_byte counters ->
  exists o, rfold (hunt_step password salt) None counters = Val o /\ forall q, o = Some q -> exists p, repr q p.
Proof.
  intros Hp Hs Hc. apply (rfold_inv (fun o => forall q, o = Some q -> exists p, repr q p)); [|done].
  intros found c Hf Hin. rewrite Forall_forall in Hc.
  destruct (hunt_step_total password salt found c Hp Hs (Hc c Hin)) as (o & E & _).
  exists o. split; [done|]. by eapply hunt_found_repr.
Qed.

Definition job_ok (job : SaeCommitJob) : Prop :=
  wf_bytes (job_ssid job) /\ wf_bytes (job_password job) /\ arr 6 (job_sae_ap job) /\ arr 6 (job_sae_sta job) /\
  wf_bytes (job_commit_payload job).

(** The password element of a job, if it can be found. *)
Lemma sae_start_ok job : job_ok job ->
  exists o, sae_start job = Val o /\
    forall s, o = Some s -> exists Q p higher, s = sae_with Q higher /\ repr Q p.
Proof.
  intros (Hs & Hp & [_ Ha] & [_ Hb] & _). unfold sae_start. destruct (job_h2e job).
  - unfold new_h2e. destruct (derive_pt_ok _ _ Hs Hp) as (T & t & -> & HT). cbn [rbind].
    unfold derive_pwe_from_pt. destruct (max_min_addr _ _) as [mx mn].
    destruct (scalar_mul_repr (be_val (hkdf_extract (replicate 32 0) [mx; mn]) mod (curve_n - 1) + 1) T t HT)
      as (s & Q & _ & -> & HQ).
    cbn [rbind rmap]. eexists. split; [done|]. intros ? [= <-]. exists Q, (pmul t s). eexists. done.
  - unfold new_hunting_pecking, derive_pwe_hunting_pecking.
    assert (Hm : wf_bytes (let (mx, mn) := max_min_addr (job_sae_ap job) (job_sae_sta job) in mx ++ mn))
      by (unfold max_min_addr; destruct (lex_leb _ _); by apply wf_bytes_app).
    destruct (max_min_addr _ _) as [mx mn]. unfold HUNT_ITERATIONS.
    destruct (hunt_fold_repr (job_password job) (mx ++ mn) (seqZ 1 40) Hp Hm)
      as (o & -> & Ho); [by apply (bool_decide_unpack _)|].
    unfold obind. cbn [rbind]. destruct o as [Q|]; [|by exists None].
    eexists. split; [done|]. intros ? [= <-]. destruct (Ho Q eq_refl) as (p & HQ). exists Q, p. eexists. done.
Qed.

(** An end that has committed under the element [p] and holds a peer's commit. *)
Definition answering (s : Sae) (p : ProjectivePoint) (r m : Scalar) : Prop :=
  committed s p r m /\ own_rejected_groups s = None /\ wf_bytes (default [] (peer_rejected_groups s)) /\
  send_confirm s = 0 /\ last_peer_send_confirm s = None /\
  exists v Q q, peer_scalar s = Some v /\ 1 < v < curve_n /\ peer_element s = Some Q /\ Q <> Infinity /\ repr Q q.

(** The same end at any point of the exchange of confirms. *)
Definition holding (s : Sae) (p : ProjectivePoint) (r m : Scalar) : Prop :=
  committed s p r m /\ own_rejected_groups s = None /\ wf_bytes (default [] (peer_rejected_groups s)) /\
  exists v Q q, peer_scalar s = Some v /\ 1 < v < curve_n /\ peer_element s = Some Q /\ Q <> Infinity /\ repr Q q.

Lemma answering_holding s p r m : answering s p r m -> holding s p r m.
Proof. intros (H1 & H2 & H3 & _ & _ & H4). exact (conj H1 (conj H2 (conj H3 H4))). Qed.

Lemma process_commit_total s p r m :
  holding s p r m ->
  exists v s', process_commit s = Val (v, s') /\
    match v with
    | Ok _ => exists keys ab, arr 64 keys /\ s' = Sae.keyed s keys ab
    | Err e => e = BadElement /\ s' = s
    end.
Proof.
  intros ((Hp & Hr & Hc & _) & Ho & Hw & v & Q & q & Hv & Hvn & HQ & _ & Hq).
  unfold process_commit. rewrite Hv, HQ.
  destruct (scalar_mul_repr v _ _ Hp) as (t & K1 & _ & E2 & R1). rewrite E2. cbn [rbind].
  destruct (point_add_repr _ _ _ _ R1 Hq) as (K2 & E3 & R2). rewrite E3. cbn [rbind].
  rewrite (proj2 R2). cbn [expect rbind]. rewrite Hr. cbn [rbind].
  destruct (from_p256_repr (pmul (padd (pmul p t) q) r)) as (K & EK & _). rewrite EK. cbn [rbind].
  destruct K as [|x y]; [by exists (Err BadElement), s|].
  destruct (scalar_to_p256_ok v) as (b & _ & Hb). rewrite Z.mod_small in Hb by lia.
  destruct (derive_keys_spec s (scalar_pad x PRIME_LEN) v (sadd r m) b) as (keys & s' & _ & Hl & E4 & ->).
  { apply wf_be_bytes. }
  { split; [rewrite Ho; constructor|done]. }
  { done. }
  { done. }
  exists (Ok tt). eexists. split; [by rewrite E4|]. by exists keys, (sadd (sadd r m) b).
Qed.

Lemma write_commit_total s p r m : answering s p r m -> commit_element s <> Infinity ->
  exists b, write_commit s = Val b /\ wf_bytes b /\ (SAE_COMMIT_LEN <= length b)%nat.
Proof.
  intros ((_ & _ & _ & He) & Ho & _) Hf.
  destruct (point_bin_roundtrip _ _ He Hf) as (xy & Hb & Ha & _).
  destruct (commit_core s xy Hb Ha) as [E Hl]. rewrite Ho, app_nil_r in E. eexists. split; [exact E|].
  rewrite Hl. split; [|done]. unfold scalar_to_bin, scalar_pad. destruct Ha. auto with bytes.
Qed.

Definition outcome_ok (o : SaeCommitOutcome) : Prop :=
  match o with
  | Complete s commit_body confirm_body _ => sae_ready s /\ wf_bytes commit_body /\ wf_bytes confirm_body
  | _ => True
  end.

(** The answer to a peer's commit. *)
Lemma sae_answer_spec s p r m : answering s p r m -> commit_element s <> Infinity ->
  exists o, sae_answer s = Val o /\ outcome_ok o.
Proof.
  intros A Hf. unfold sae_answer. destruct (is_reflection s); [by eexists|].
  destruct (process_commit_total s p r m (answering_holding _ _ _ _ A)) as (v & s' & -> & Hv). cbn [rbind].
  destruct v as [[]|e]; [|by eexists]. destruct Hv as (keys & ab & [Hkl Hkw] & ->).
  assert (A' : answering (Sae.keyed s keys ab) p r m) by exact A.
  destruct (write_commit_total _ p r m A' Hf) as (c & -> & Hc & _). cbn [rbind].
  assert (R : sae_ready (Sae.keyed s keys ab)).
  { destruct A as (_ & _ & _ & _ & _ & v & Q & q & Hv & _ & HQ & HQi & _).
    constructor; unfold Sae.keyed; fields; [auto with bytes|apply arr_sub; [done|lia|done]|
      apply arr_sub; [apply (arr_wf 32), to_repr_arr|rewrite (arr_length _ _ (to_repr_arr _)); lia|done]|done|].
    by exists v, Q. }
  destruct A' as (_ & _ & _ & Hsc & _ & v & Q & q & Hv & _ & HQ & HQi & _).
  unfold write_confirm. rewrite Hsc, Hv, HQ. cbn [expect rbind].
  change (0 =? 0xffff) with false. cbn iota.
  match goal with |- context [cn_confirm ?a ?b ?c ?d ?e ?f] =>
    destruct (cn_confirm_total a b c d e f) as (f' & Ef & Hfl & Hfw); [done|done|apply R|] end.
  rewrite Ef. cbn [rbind]. eexists. split; [done|]. cbn iota.
  split; [|auto with bytes]. destruct R. by constructor; fields.
Qed.

Lemma prepare_commit_inv_ok s rand mask r m p :
  repr (pwe s) p -> from_repr rand = Some r -> from_repr mask = Some m ->
  own_rejected_groups s = None -> wf_bytes (default [] (peer_rejected_groups s)) ->
  send_confirm s = 0 -> last_peer_send_confirm s = None ->
  (exists v Q q, peer_scalar s = Some v /\ 1 < v < curve_n /\ peer_element s = Some Q /\ Q <> Infinity /\ repr Q q) ->
  exists s', prepare_commit s rand mask = Val s' /\ answering s' p r m.
Proof.
  intros Hp Hr Hm Ho Hw Hs Hl Hq. destruct (prepare_commit_ok s rand mask r m p Hp Hr Hm)
    as (s' & E & Hc & H1 & H2 & H3 & H4 & _). exists s'. split; [done|].
  destruct (prepare_commit_inv s rand mask s' p Hp E) as (_ & _ & _ & _ & _ & _ & H5 & H6).
  split; [done|]. rewrite H1, H2, H3, H4, H5, H6. by split_and!.
Qed.

(** Should our own element be the point at infinity, nothing is sent. *)
Lemma sae_answer_infinite s p r m : answering s p r m -> commit_element s = Infinity ->
  sae_answer s = Panic \/ sae_answer s = Val Reflection \/ sae_answer s = Val Failed.
Proof.
  intros A Hf. unfold sae_answer. destruct (is_reflection s); [auto|].
  destruct (process_commit_total s p r m (answering_holding _ _ _ _ A)) as (v & s' & -> & Hv). cbn [rbind].
  destruct v as [[]|e]; [|auto]. destruct Hv as (keys & ab & _ & ->).
  unfold write_commit. change (commit_element (Sae.keyed s keys ab)) with (commit_element s). rewrite Hf. auto.
Qed.

(** The password element of the job is the point at infinity. *)
Definition infinite_element (job : SaeCommitJob) : Prop :=
  exists s, sae_start job = Val (Some s) /\ pwe s = Infinity.

Lemma compute_spec fuel job draws : job_ok job -> entropy_yields fuel ->
  (compute_sae_commit fuel job draws = Panic /\ infinite_element job) \/
  exists o draws', compute_sae_commit fuel job draws = Val (sae_result job o, draws') /\ outcome_ok o.
Proof.
  intros J Hy. destruct (sae_start_ok job J) as (o & E & Ho). unfold compute_sae_commit. rewrite E. cbn [rbind].
  destruct o as [s|]; [|right; by exists Failed, draws].
  destruct (Ho s eq_refl) as (Q & p & higher & Es & HQ).
  destruct J as (_ & _ & _ & _ & Hw). destruct (parse_peer_commit_total s _ Hw) as (v & s1 & -> & Hv). cbn [rbind].
  destruct v as [u|e]; [|right; by exists Failed, draws].
  destruct Hv as (v & T & rej & -> & Hvn & HT & (t & Ht) & Hrej & _).
  destruct (owe_private_found fuel draws (Hy draws)) as (rand & d1 & -> & Hr & Har). cbn [rbind].
  destruct (owe_private_found fuel d1 (Hy d1)) as (mask & d2 & -> & Hm & Ham). cbn [rbind].
  destruct (acceptable_scalar_repr rand Hr Har) as (rs & Ers & _).
  destruct (acceptable_scalar_repr mask Hm Ham) as (ms & Ems & Hms).
  unfold secret_scalar, expect in Ers, Ems.
  destruct (from_repr rand) as [r|] eqn:Er; [|done]. injection Ers as ->.
  destruct (from_repr mask) as [m|] eqn:Em; [|done]. injection Ems as ->.
  destruct (prepare_commit_inv_ok (store_commit s v T rej) rand mask rs ms p) as (s2 & Ep & A); try done;
    [by rewrite Es|by rewrite Es|by rewrite Es|by rewrite Es|by exists v, T, t|]. rewrite Ep. cbn [rbind].
  destruct (is_identity (pmul p ms)) eqn:Ei.
  - assert (Hn : infinite_element job).
    { exists s. split; [done|]. apply pmul_prime_order in Ei as [Ei|Ei]; [|done]. rewrite Es. by apply (repr_infinity _ p). }
    destruct (decide (commit_element s2 = Infinity)) as [Hf|Hf].
    + destruct (sae_answer_infinite s2 p rs ms A Hf) as [->|[->| ->]]; cbn [rbind]; [by left|right; by repeat eexists..].
    + destruct (sae_answer_spec s2 p rs ms A Hf) as (o & -> & Hok). right. cbn [rbind]. by repeat eexists.
  - right. destruct (sae_answer_spec s2 p rs ms A) as (o & -> & Hok); [|cbn [rbind]; by repeat eexists].
    destruct A as ((_ & _ & _ & He) & _). by eapply pneg_infinity.
Qed.
End Computation.

(** * Confirms *)

(** Every exchange in progress can check a confirm. *)
Definition sae_states (ap : Ap) : Prop := map_Forall (fun _ s => opt_ok sae_ready (st_sae s)) (ap_stations ap).

Definition sae_stored (sae : Sae) (s : Station) : Station := s <| st_sae := Some sae |>.
Definition sae_accepted (sae : Sae) (s : Station) : Station := (sae_stored sae s) <| st_sae_confirmed := true |>.

(** The entry a confirmed exchange leaves in the cache. *)
Definition sae_pmksa (now : Z) (identity : bytes) (sae : Sae) : PmksaEntry :=
  {| pe_identity := identity; pe_pmk := sae_pmk sae; pe_sha256 := true; pe_expires_at := now + PMKSA_LIFETIME |}.

Section Confirm.
Context `{Entropy} `{!EntropyOk _} `{HashOrder} `{!HashOrderOk _}.
Context {P : Primitives} {Pok : PrimitivesOk P} {C : P256} {Cok : P256Ok C}.

Lemma check_confirm_total s data : sae_ready s ->
  exists v s', check_confirm s data = Val (v, s') /\ sae_ready s' /\
    sae_pmk s' = sae_pmk s /\ sae_pmkid s' = sae_pmkid s /\ forall e, v = Err e -> s' = s.
Proof.
  intros R. destruct R as [Hk Hp Hi He (v & Q & Hv & HQ & HQi)]. unfold check_confirm.
  assert (R : sae_ready s) by (constructor; try done; by exists v, Q).
  destruct (Nat.ltb_spec (length data) (2 + 32)) as [|Hl]; [by exists (Err BadFormat), s|].
  rewrite slice_ok by lia. cbn [rbind]. rewrite Hv, HQ.
  set (sc := le_val _). destruct (cn_confirm_total s sc v Q (commit_scalar s) (commit_element s)) as (f & -> & _);
    [done..|]. cbn [rbind]. rewrite slice_ok by lia. cbn [rbind].
  destruct (negb _); [by exists (Err BadConfirm), s|].
  assert (R' : sae_ready (s <| last_peer_send_confirm := Some sc |>)) by (constructor; fields; try done; by exists v, Q).
  destruct (last_peer_send_confirm s) as [h|]; [destruct (_ <=? _); [by exists (Err ReplayedConfirm), s|]|];
    exists (Ok tt); by eexists.
Qed.

Lemma carries_failure sta k ap : ap_ok ap -> admit_ok ap -> carries id ap (record_failure sta k ap).
Proof.
  intros Hok A. apply carries_same; [by apply moves_failure|..]; try done; unfold record_failure;
    destruct (record_failure_entry _ _ _ _); done.
Qed.

Lemma record_failure_async sta k ap : ap_async_sae (record_failure sta k ap) = ap_async_sae ap.
Proof. unfold record_failure. by destruct (record_failure_entry _ _ _ _). Qed.

Lemma cache_pmksa_async now i m k b ap : ap_async_sae (cache_pmksa now i m k b ap) = ap_async_sae ap.
Proof. unfold cache_pmksa, schedule_maintenance. by repeat case_match. Qed.

Lemma carries_alter_after (f : Station -> Station) sta ap ap1 ap2 :
  carries (alter f sta) ap ap1 -> carries id ap1 ap2 -> carries (alter f sta) ap ap2.
Proof. intros K1 K2. exact (carries_trans _ _ _ _ _ K1 K2). Qed.

(** A confirm is checked against the exchange the station has started; only
    one that verifies changes more than the failure log. *)
Lemma finish_sae_confirm_spec now sta payload ap :
  ap_ok ap -> admit_ok ap -> sae_states ap ->
  exists f ap', finish_sae_confirm now sta payload ap = Val ap' /\ carries (alter f sta) ap ap' /\
    ap_async_sae ap' = ap_async_sae ap /\
    match ap_stations ap !! sta ≫= st_sae with
    | None => f = id
    | Some sae => exists v sae', check_confirm sae payload = Val (v, sae') /\ sae_ready sae' /\
        match v with
        | Ok _ => f = sae_accepted sae' /\ sae_pmk sae' = sae_pmk sae /\
            ap_pmksa_cache ap' !! (sae_pmkid sae, default sta (ap_stations ap !! sta ≫= st_client_mld_mac))
              = Some (sae_pmksa now (default sta (ap_stations ap !! sta ≫= st_client_mld_mac)) sae)
        | Err _ => sae' = sae /\ f = sae_stored sae
        end
    end.
Proof.
  intros Hok A Hs. unfold finish_sae_confirm. destruct (ap_stations ap !! sta ≫= st_sae) as [sae|] eqn:E.
  2:{ exists id, ap. split; [done|]. split; [by apply carries_alter_id, carries_refl|done]. }
  assert (R : sae_ready sae).
  { destruct (ap_stations ap !! sta) as [s|] eqn:Es; [|done]. cbn in E.
    pose proof (Hs sta s Es) as Hr. cbn beta in Hr. by rewrite E in Hr. }
  destruct (check_confirm_total sae payload R) as (v & sae' & Ev & R' & Ek & Ei & He). rewrite Ev. cbn [rbind].
  assert (K1 : carries (alter (sae_stored sae') sta) ap (upd_station sta (sae_stored sae') ap))
    by (apply carries_upd; [done|done|intros s Hst; unfold sae_stored; keep_station_ok Hst]).
  change (fun s => s <| st_sae := Some sae' |>) with (sae_stored sae').
  set (ap1 := upd_station sta (sae_stored sae') ap) in *. pose proof K1 as ((Hok1 & _ & S1) & F1 & A1).
  assert (Hasy : ap_async_sae ap1 = ap_async_sae ap) by done.
  destruct v as [[]|e].
  - assert (Hid : default sta (ap_stations ap1 !! sta ≫= st_client_mld_mac) =
                  default sta (ap_stations ap !! sta ≫= st_client_mld_mac)).
    { rewrite S1, lookup_alter_eq. by destruct (ap_stations ap !! sta). }
    unfold sae_confirmed_station. rewrite Hid. set (identity := default sta (ap_stations ap !! sta ≫= st_client_mld_mac)) in *.
    rewrite (arr_length _ _ (sr_pmk _ R')), (arr_length _ _ (sr_pmkid _ R')). cbn [Nat.eqb andb].
    set (ap2 := upd_station sta (fun s => s <| st_sae_confirmed := true |>) ap1).
    assert (K2 : carries (alter (sae_accepted sae') sta) ap ap2).
    { pose proof (carries_upd sta (fun s => s <| st_sae_confirmed := true |>) ap1 Hok1 A1
        ltac:(intros s Hst; keep_station_ok Hst)) as K2.
      pose proof (carries_trans _ _ _ _ _ K1 K2) as ((G1 & G2 & G3) & GF & GA). split; [|by split].
      split; [done|]. split; [done|]. fold ap2 in G3. by rewrite G3, alter_alter. }
    pose proof K2 as ((Hok2 & _) & _ & A2).
    destruct (cache_pmksa_spec now (sae_pmkid sae') identity (sae_pmk sae') true ap2 Hok2 A2 (sr_pmk _ R')) as (K3 & Hc).
    exists (sae_accepted sae'). eexists. split; [reflexivity|]. split; [by apply (carries_alter_after _ _ _ ap2)|].
    split; [by rewrite cache_pmksa_async|]. exists (Ok tt), sae'. split; [done|]. split; [done|]. split; [done|].
    split; [done|]. rewrite Ei in Hc. rewrite Ei. rewrite Hc. unfold sae_pmksa. by rewrite Ek.
  - pose proof (He e eq_refl) as ->.
    destruct (decide (e = ReplayedConfirm)) as [->|Hne].
    + exists (sae_stored sae), ap1. split; [done|]. split; [done|]. split; [done|]. by exists (Err ReplayedConfirm), sae.
    + exists (sae_stored sae), (record_failure sta SaeFailure ap1). split; [by destruct e|].
      split; [apply (carries_alter_after _ _ _ ap1); [done|by apply carries_failure]|].
      split; [by rewrite record_failure_async|]. by exists (Err e), sae.
Qed.
End Confirm.

(** * What a step of the SAE machinery may do *)

Definition queued_ok (job : SaeCommitJob) : Prop :=
  job_ok job /\ arr 6 (job_sta job) /\ opt_ok (arr 6) (job_peer_mld job).
Definition result_ok (r : SaeCommitResult) : Prop :=
  arr 6 (res_sta r) /\ opt_ok (arr 6) (res_peer_mld r) /\ outcome_ok (res_outcome r).
Definition worker_ok (w : AsyncSae) : Prop :=
  Forall queued_ok (as_jobs w) /\ opt_ok queued_ok (as_working w) /\ Forall result_ok (as_results w).

Record sae_inv (ap : Ap) : Prop := {
  si_ap : ap_ok ap;
  si_admit : admit_ok ap;
  si_states : sae_states ap;
  si_worker : opt_ok worker_ok (ap_async_sae ap)
}.

(** The stations with an exchange in progress, here or at the worker. *)
Definition unfinished (ap : Ap) : gset bytes :=
  dom (filter (fun p : bytes * Station => incomplete p.2 = true) (ap_stations ap)) ∪ dom (sae_pending ap).

(** A record whose exchange has been completed by a confirm that verifies. *)
Definition confirm_verified `{Primitives} `{P256} (s : Station) : Prop :=
  exists sae payload sae', check_confirm sae payload = Val (Ok tt, sae') /\ st_sae s = Some sae'.

Record sae_moves `{Primitives} `{P256} (ap ap' : Ap) : Prop := {
  sm_inv : sae_inv ap';
  sm_fixed : fixed ap' = fixed ap;
  sm_confirmed : forall k s', ap_stations ap' !! k = Some s' -> st_sae_confirmed s' = true ->
    (exists s, ap_stations ap !! k = Some s /\ st_sae_confirmed s = true /\ st_sae s' = st_sae s) \/ confirm_verified s'
}.

Lemma unfinished_elem ap k :
  k ∈ unfinished ap <-> (exists s, ap_stations ap !! k = Some s /\ incomplete s = true) \/ is_Some (sae_pending ap !! k).
Proof.
  unfold unfinished. rewrite elem_of_union, !elem_of_dom. split; (intros [H|H]; [left|by right]).
  - destruct H as (s & Hs). apply map_lookup_filter_Some in Hs as [Hs Hi]. by exists s.
  - destruct H as (s & Hs & Hi). exists s. by apply map_lookup_filter_Some.
Qed.

Lemma unfinished_count ap : (size (unfinished ap) <= incomplete_sae_count ap)%nat.
Proof.
  unfold unfinished, incomplete_sae_count. rewrite size_union_alt, size_dom.
  apply Nat.add_le_mono_l. rewrite <- (size_dom (sae_pending ap)). apply subseteq_size, subseteq_difference_l. done.
Qed.

Lemma unfinished_same ap ap' :
  ap_stations ap' = ap_stations ap -> ap_async_sae ap' = ap_async_sae ap -> unfinished ap' = unfinished ap.
Proof. intros E1 E2. unfold unfinished, sae_pending. by rewrite E1, E2. Qed.

Section Moves.
Context `{Entropy} `{!EntropyOk _} `{HashOrder} `{!HashOrderOk _}.
Context {P : Primitives} {Pok : PrimitivesOk P} {C : P256} {Cok : P256Ok C}.

Lemma sae_moves_refl ap : sae_inv ap -> sae_moves ap ap.
Proof. intros I. constructor; [done|done|]. intros k s' Hs Hc. left. by exists s'. Qed.

Lemma sae_moves_trans ap ap1 ap2 : sae_moves ap ap1 -> sae_moves ap1 ap2 -> sae_moves ap ap2.
Proof.
  intros [I1 F1 C1] [I2 F2 C2]. constructor; [done|congruence|]. intros k s2 Hs Hc.
  destruct (C2 k s2 Hs Hc) as [(s1 & Hs1 & Hc1 & E)|V]; [|by right].
  destruct (C1 k s1 Hs1 Hc1) as [(s & Hs0 & Hc0 & E0)|(sae & pl & sae' & V & E0)].
  - left. exists s. split; [done|]. split; [done|]. congruence.
  - right. exists sae, pl, sae'. split; [done|]. congruence.
Qed.

(** A step that changes the stations by [g] and leaves the worker alone. *)
Lemma sae_moves_stations g ap ap' :
  sae_inv ap -> carries g ap ap' -> opt_ok worker_ok (ap_async_sae ap') ->
  (forall k s', g (ap_stations ap) !! k = Some s' ->
     (exists s, ap_stations ap !! k = Some s /\ (st_sae_confirmed s' = true -> st_sae_confirmed s = true) /\
        st_sae s' = st_sae s) \/
     (opt_ok sae_ready (st_sae s') /\ (st_sae_confirmed s' = true -> confirm_verified s'))) ->
  sae_moves ap ap'.
Proof.
  intros I ((Hok & _ & E) & F & A) Ha Hg. constructor; [constructor; try done| done |].
  - intros k s' Hs. cbn beta. rewrite E in Hs. destruct (Hg k s' Hs) as [(s & Hs0 & _ & ->)|[R _]]; [|done].
    exact (si_states ap I k s Hs0).
  - intros k s' Hs Hc. rewrite E in Hs. destruct (Hg k s' Hs) as [(s & Hs0 & Hc0 & Es)|[_ V]]; [left|right; auto].
    exists s. auto.
Qed.

(** ... that changes no station. *)
Lemma sae_moves_id ap ap' :
  sae_inv ap -> carries id ap ap' -> opt_ok worker_ok (ap_async_sae ap') -> sae_moves ap ap'.
Proof.
  intros I K Ha. apply (sae_moves_stations id); try done. intros k s' Hs. left. by exists s'.
Qed.

Lemma failure_moves sta ap : sae_inv ap -> sae_moves ap (record_failure sta SaeFailure ap) /\
  unfinished (record_failure sta SaeFailure ap) = unfinished ap.
Proof.
  intros I. pose proof (carries_failure sta SaeFailure ap (si_ap _ I) (si_admit _ I)) as K. split.
  - apply sae_moves_id; [done|done|]. rewrite record_failure_async. apply I.
  - apply unfinished_same; [apply K|apply record_failure_async].
Qed.

Lemma confirm_moves now sta payload ap : sae_inv ap ->
  exists ap', finish_sae_confirm now sta payload ap = Val ap' /\ sae_moves ap ap' /\
    unfinished ap' ⊆ unfinished ap /\ ap_async_sae ap' = ap_async_sae ap.
Proof.
  intros I. destruct (finish_sae_confirm_spec now sta payload ap (si_ap _ I) (si_admit _ I) (si_states _ I))
    as (f & ap' & E & K & Ha & Hf). exists ap'. split; [done|].
  assert (Hst : forall s, ap_stations ap !! sta = Some s ->
    st_sae (f s) = st_sae s /\ st_sae_confirmed (f s) = st_sae_confirmed s \/
    (opt_ok sae_ready (st_sae (f s)) /\ confirm_verified (f s) /\ incomplete (f s) = false)).
  { intros s Hs. rewrite Hs in Hf. cbn [mbind option_bind] in Hf. destruct (st_sae s) as [sae|] eqn:Es.
    - destruct Hf as (v & sae' & Ec & R & Hv). destruct v as [[]|e].
      + destruct Hv as (-> & _). right. split; [exact R|]. split; [by exists sae, payload, sae'|].
        unfold incomplete, sae_unconfirmed, sae_accepted. fields. apply andb_false_r.
      + destruct Hv as [-> ->]. by left.
    - subst f. by left. }
  split; [|split; [|done]].
  - apply (sae_moves_stations _ _ _ I K); [rewrite Ha; apply I|]. intros k s' Hs.
    apply lookup_alter_Some in Hs as [(-> & s & Hs & ->)|[_ Hs]]; [|left; by exists s'].
    destruct (Hst s Hs) as [[E1 E2]|(R & V & _)]; [left; exists s; by rewrite E2|right; auto].
  - intros k. rewrite !unfinished_elem. unfold sae_pending. rewrite Ha. intros [(s' & Hs & Hi)|Hp]; [left|by right].
    destruct K as ((_ & _ & Em) & _). rewrite Em in Hs.
    apply lookup_alter_Some in Hs as [(-> & s & Hs & ->)|[_ Hs]]; [|by exists s'].
    destruct (Hst s Hs) as [[E1 E2]|(_ & _ & Hn)]; [|congruence]. exists s. split; [done|].
    unfold incomplete, sae_unconfirmed in *. by rewrite <- E1, <- E2.
Qed.
End Moves.

(** * The commit and its answer *)

Section Answer.
Context `{Entropy} `{!EntropyOk _} `{HashOrder} `{!HashOrderOk _}.
Context {P : Primitives} {Pok : PrimitivesOk P} {C : P256} {Cok : P256Ok C}.

Lemma finish_sae_commit_confirm now r payload ap out :
  finish_sae_commit now r (Some payload) ap out =
    rbind (finish_sae_commit now r None ap out) (fun '(ap', out') =>
      match res_outcome r with
      | Complete _ _ _ _ => rmap (fun ap => (ap, out')) (finish_sae_confirm now (res_sta r) payload ap')
      | _ => Val (ap', out')
      end).
Proof.
  unfold finish_sae_commit. destruct (res_outcome r) as [sae c f rej| |]; [|done|done].
  destruct (match res_peer_mld r with Some _ => _ | None => _ end) as [ml| |]; cbn [rbind]; [|done|done].
  repeat (case_match; cbn [rbind rmap]; try done).
Qed.

Lemma sae_committed_ok now sae h2e mld resp commit s :
  arr 32 (sae_pmk sae) -> opt_ok (arr 6) mld -> station_ok s ->
  station_ok (sae_committed now sae h2e mld resp commit s).
Proof.
  intros Hp Hm Hs. unfold sae_committed. destruct mld as [m|]; keep_station_ok Hs.
Qed.

(** The two frames of the answer. *)
Definition answer_frames (ap : Ap) (r : SaeCommitResult) (sc1 sc2 : Z) (commit_body confirm_body ml : bytes) :
    list bytes :=
  [build_sae_auth (res_sta r) (ap_mac ap) (ap_mac ap) 0 sc1 1
     (if res_h2e r then STATUS_SAE_H2E else STATUS_SUCCESS) (commit_body ++ ml);
   build_sae_auth (res_sta r) (ap_mac ap) (ap_mac ap) 0 sc2 2 STATUS_SUCCESS (confirm_body ++ ml)].

Lemma finish_sae_commit_spec now r ap out sae commit_body confirm_body rejected :
  ap_ok ap -> admit_ok ap -> result_ok r -> res_outcome r = Complete sae commit_body confirm_body rejected ->
  exists gtk igtk sc1 sc2 ml ap',
    let frames := answer_frames ap r sc1 sc2 commit_body confirm_body ml in
    finish_sae_commit now r None ap out = Val (ap', foldl (fun out f => out_tx f out) out frames) /\
    carries (fun m => alter (sae_committed now sae (res_h2e r) (res_peer_mld r) frames (res_commit_payload r)) (res_sta r)
               (entered (res_sta r) (station_new (res_sta r) now gtk igtk) m)) ap ap' /\
    ap_async_sae ap' = ap_async_sae ap /\ ap_pmksa_cache ap' = ap_pmksa_cache ap /\
    (res_peer_mld r = None -> ml = []).
Proof.
  intros Hok A (Hsta & Hmld & Ho) Er. rewrite Er in Ho. destruct Ho as (R & _). unfold finish_sae_commit. rewrite Er.
  assert (Hml : exists ml, match res_peer_mld r with Some _ => multi_link_auth (ap_mld_mac ap) | None => Val [] end = Val ml
    /\ (res_peer_mld r = None -> ml = [])).
  { destruct (res_peer_mld r); [|by exists []]. destruct (ext_ie_total 107 ([0x00; 0x00] ++ [7] ++ ap_mld_mac ap)) as (ml & E).
    by exists ml. }
  destruct Hml as (ml & -> & Hml). cbn [rbind]. rewrite (arr_length _ _ (sr_pmk _ R)). cbn [Nat.eqb negb].
  set (ap0 := ap <| ap_sc := -1 |>).
  assert (K0 : carries id ap ap0) by (apply carries_same; try done; split; [unfold ap0; keep_ap_ok Hok|done]).
  pose proof K0 as ((Hok0 & _) & _ & A0). pose proof (carries_next_sc ap0 Hok0 A0) as K1.
  destruct (next_sc ap0) as [sc1 ap1] eqn:E1. cbn [snd] in K1.
  assert (Hm1 : ap_mac ap1 = ap_mac ap) by (unfold next_sc in E1; by injection E1 as _ <-).
  pose proof K1 as ((Hok1 & _) & _ & A1). pose proof (carries_next_sc ap1 Hok1 A1) as K2.
  destruct (next_sc ap1) as [sc2 ap2] eqn:E2. cbn [snd] in K2.
  assert (Hm2 : ap_mac ap2 = ap_mac ap) by (unfold next_sc in E2; by injection E2 as _ <-).
  assert (Hs2 : ap_async_sae ap2 = ap_async_sae ap /\ ap_pmksa_cache ap2 = ap_pmksa_cache ap)
    by (unfold next_sc in E1, E2; injection E2 as _ <-; by injection E1 as _ <-).
  pose proof (carries_trans _ _ _ _ _ K0 (carries_trans _ _ _ _ _ K1 K2)) as K02.
  pose proof K2 as ((Hok2 & _) & _ & A2).
  destruct (station_entry_spec now (res_sta r) ap2 Hok2 A2 Hsta) as (gtk & igtk & Hg & Hi & K3 & Ec3).
  assert (Ha3 : ap_async_sae (station_entry now (res_sta r) ap2) = ap_async_sae ap2) by (unfold station_entry; by case_match).
  set (ap3 := station_entry now (res_sta r) ap2) in *. clearbody ap3. pose proof K3 as ((Hok3 & _) & _ & A3).
  exists gtk, igtk, sc1, sc2, ml. rewrite Hm1, Hm2.
  set (frames := answer_frames ap r sc1 sc2 commit_body confirm_body ml).
  pose proof (carries_upd (res_sta r) (sae_committed now sae (res_h2e r) (res_peer_mld r) frames (res_commit_payload r)) ap3
    Hok3 A3 ltac:(intros; apply sae_committed_ok; [apply R|done|done])) as K4.
  set (ap4 := upd_station _ _ ap3) in *. pose proof K4 as ((Hok4 & _) & _ & A4).
  pose proof (carries_schedule (now + SAE_AUTH_TIMEOUT) ap4 Hok4 A4) as K5.
  eexists. split; [reflexivity|]. split; [|split; [|split; [|done]]].
  - exact (carries_trans _ _ _ _ _ K02 (carries_trans _ _ _ _ _ K3 (carries_trans _ _ _ _ _ K4 K5))).
  - unfold schedule_maintenance. destruct Hs2 as [<- _]. rewrite <- Ha3. by repeat case_match.
  - unfold schedule_maintenance. destruct Hs2 as [_ <-]. rewrite <- Ec3. by repeat case_match.
Qed.

Lemma unfinished_async ap ap' :
  ap_stations ap' = ap_stations ap -> (forall k, is_Some (sae_pending ap' !! k) -> k ∈ unfinished ap) ->
  unfinished ap' ⊆ unfinished ap.
Proof.
  intros E Hp k. rewrite !unfinished_elem, E. intros [Hs|Hk]; [by left|]. apply unfinished_elem, Hp, Hk.
Qed.

(** A finished computation concerns its own station only. *)
Lemma commit_moves now r confirm ap out : sae_inv ap -> result_ok r ->
  exists ap' out', finish_sae_commit now r confirm ap out = Val (ap', out') /\ sae_moves ap ap' /\
    unfinished ap' ⊆ {[res_sta r]} ∪ unfinished ap /\ ap_async_sae ap' = ap_async_sae ap.
Proof.
  intros I Hr.
  assert (Hn : exists ap' out', finish_sae_commit now r None ap out = Val (ap', out') /\ sae_moves ap ap' /\
    unfinished ap' ⊆ {[res_sta r]} ∪ unfinished ap /\ ap_async_sae ap' = ap_async_sae ap).
  { destruct (res_outcome r) as [sae cb fb rej| |] eqn:Eo.
    2,3: destruct (failure_moves (res_sta r) ap I) as [M E]; exists (record_failure (res_sta r) SaeFailure ap), out;
      unfold finish_sae_commit; rewrite Eo; split; [done|]; split; [done|]; rewrite E;
      split; [apply union_subseteq_r|apply record_failure_async].
    destruct (finish_sae_commit_spec now r ap out sae cb fb rej (si_ap _ I) (si_admit _ I) Hr Eo)
      as (gtk & igtk & sc1 & sc2 & ml & ap' & E & K & Ha & _). cbn zeta in E, K.
    set (frames := answer_frames ap r sc1 sc2 cb fb ml) in *. exists ap'. eexists. split; [exact E|].
    destruct Hr as (_ & _ & Ho). rewrite Eo in Ho. destruct Ho as (R & _).
    assert (Hst : forall s, st_sae (sae_committed now sae (res_h2e r) (res_peer_mld r) frames (res_commit_payload r) s) = Some sae /\
      st_sae_confirmed (sae_committed now sae (res_h2e r) (res_peer_mld r) frames (res_commit_payload r) s) = false)
      by (intros s; unfold sae_committed; by destruct (res_peer_mld r)).
    split; [|split; [|done]].
    - apply (sae_moves_stations _ _ _ I K); [rewrite Ha; apply I|]. intros k s' Hs.
      apply lookup_alter_Some in Hs as [(-> & s & _ & ->)|[Hk Hs]].
      + right. destruct (Hst s) as [-> ->]. by split.
      + left. rewrite entered_other in Hs by done. by exists s'.
    - intros k. rewrite elem_of_union, elem_of_singleton, !unfinished_elem. unfold sae_pending. rewrite Ha.
      destruct (decide (k = res_sta r)) as [->|Hk]; [by left|]. intros [(s' & Hs & Hi)|Hp]; right; [left|by right].
      destruct K as ((_ & _ & Em) & _). rewrite Em, lookup_alter_ne, entered_other in Hs by done. by exists s'. }
  destruct Hn as (ap1 & out1 & E1 & M1 & U1 & A1). destruct confirm as [payload|]; [|by exists ap1, out1].
  rewrite finish_sae_commit_confirm, E1. cbn [rbind].
  destruct (res_outcome r) as [sae cb fb rej| |]; [|by exists ap1, out1|by exists ap1, out1].
  destruct (confirm_moves now (res_sta r) payload ap1 (sm_inv _ _ M1)) as (ap2 & -> & M2 & U2 & A2). cbn [rmap].
  exists ap2, out1. split; [done|]. split; [by apply (sae_moves_trans _ ap1)|]. split; [by etrans|congruence].
Qed.
End Answer.
