(* ===== verification/ApExchange.v ===== *)
(** SAE authentication at the access point as a whole (src/ap/sae_auth.rs,
    src/ap/receive.rs): what a frame, the worker and a poll may do, runs of
    them, the anti-clogging token's round trip, an exchange with an honest
    station, and Authentication frames. *)
From S2P Require Import Prelude Elements Crypto Security Frames Channels DataProt Kde Rsn Advert Mlo Eapol Sae Failures Ap ApConfig ApEapol Demo ApMgmt ApBeacon ApRates ApAdmit ApSae.

(** * The token container *)

Lemma sae_commit_token_total payload h2e : wf_bytes payload ->
  exists o, sae_commit_token payload h2e = Val o /\
    forall c t, o = Some (c, t) -> wf_bytes c /\ (SAE_COMMIT_LEN <= length c)%nat /\ opt_ok (arr 32) t.
Proof.
  intros Hw. unfold sae_commit_token.
  destruct (Nat.ltb_spec (length payload) SAE_COMMIT_LEN) as [|Hl]; [by exists None|].
  assert (SAE_COMMIT_LEN = 98%nat) as E98 by done. rewrite E98 in *. destruct h2e; cbn [negb].
  - rewrite slice_ok by lia. cbn [rbind].
    apply (loop_spec (fun st => let '(pos, c, t) := st in wf_bytes c /\ (98 <= length c)%nat /\ opt_ok (arr 32) t)
      (fun o => forall c t, o = Some (c, t) -> wf_bytes c /\ (98 <= length c)%nat /\ opt_ok (arr 32) t)
      (fun st => let '(pos, _, _) := st in length payload - pos)%nat).
    + intros [[pos c] t] (Hc & Hcl & Ht). unfold commit_token_step.
      destruct (Nat.ltb_spec pos (length payload)); [|by eexists; split; [done|]; intros ?? [= <- <-]].
      destruct (Nat.ltb_spec (length payload - pos) 2); [by eexists|].
      rewrite idx_ok by lia. cbn [rbind]. set (len := nth (pos + 1) payload 0).
      destruct (Nat.ltb_spec (length payload) (pos + (2 + Z.to_nat len))); [by eexists|].
      rewrite idx_ok by lia. cbn [rbind].
      assert (Hk : exists b, (if (nth pos payload 0 =? 255) && (len =? 33) then rmap (fun x => x =? 93) (idx payload (pos + 2))
        else Val false) = Val b /\ (b = true -> len = 33)).
      { destruct (_ && _) eqn:E; [|by exists false]. apply andb_prop in E as [_ E%Z.eqb_eq].
        rewrite idx_ok by lia. by eexists. }
      destruct Hk as (b & -> & Hb). cbn [rbind]. destruct b.
      * specialize (Hb eq_refl). destruct t as [t|]; [by eexists|]. rewrite slice_ok by lia. cbn [rbind].
        eexists. split; [done|]. split; [|lia]. split; [done|]. split; [done|]. apply arr_sub; [done|lia|lia].
      * rewrite slice_ok by lia. cbn [rbind]. eexists. split; [done|]. split; [|lia].
        split; [auto with bytes|]. split; [rewrite length_app; lia|done].
    + split; [auto with bytes|]. split; [rewrite length_sub by lia; lia|done].
    + lia.
  - destruct (Nat.leb_spec (98 + 32) (length payload)) as [Hl2|].
    + rewrite !slice_ok by lia. cbn [rbind]. unfold slice_from. rewrite slice_ok by lia. cbn [rbind].
      eexists. split; [done|]. intros ?? [= <- <-]. split; [auto with bytes|].
      split; [rewrite length_app, !length_sub by lia; lia|]. apply arr_sub; [done|lia|lia].
    + eexists. split; [done|]. intros ?? [= <- <-]. by split.
Qed.

(** Unless the peer's payload ends in the middle of an element, the container
    it adds to its commit is found and removed. *)
Lemma token_container_removed commit more token fuel :
  arr 32 token -> (SAE_COMMIT_LEN <= length commit)%nat ->
  loop (S (S fuel)) (commit_token_step (commit ++ [255; 33; 93] ++ token)) (length commit, more, None)
    = Val (Some (more, Some token)).
Proof.
  intros [Hl Hw] Hc. set (payload := commit ++ [255; 33; 93] ++ token).
  assert (Hlen : length payload = (length commit + 35)%nat) by (unfold payload; rewrite !length_app, Hl; simpl; lia).
  assert (Hat : forall i, byte_at payload (length commit + i) = byte_at ([255; 33; 93] ++ token) i).
  { intros i. unfold payload. rewrite app_nth2 by lia. f_equal. lia. }
  assert (Hn : forall i, nth (length commit + i) payload 0 = nth i ([255; 33; 93] ++ token) 0) by exact Hat.
  assert (H0 : nth (length commit) payload 0 = 255) by (rewrite <- (Nat.add_0_r (length commit)); apply Hn).
  assert (Ht : sub payload (length commit + 3) (length commit + 35) = token).
  { unfold payload. replace (commit ++ [255; 33; 93] ++ token) with ((commit ++ [255; 33; 93]) ++ token ++ [])
      by (by rewrite app_nil_r, <- app_assoc). apply sub_exact; rewrite length_app; simpl; lia. }
  assert (E1 : commit_token_step payload (length commit, more, None) = Val (inl ((length commit + 35)%nat, more, Some token))).
  { unfold commit_token_step. rewrite (proj2 (Nat.ltb_lt _ _)) by lia. rewrite (proj2 (Nat.ltb_ge _ _)) by lia.
    rewrite idx_ok by lia. rewrite Hn. cbn [nth app rbind]. change (Z.to_nat 33) with 33%nat.
    rewrite (proj2 (Nat.ltb_ge _ _)) by lia. rewrite idx_ok by lia. cbn [rbind]. rewrite H0.
    cbn [Z.eqb Pos.eqb andb]. rewrite idx_ok by lia. rewrite Hn. cbn [nth app rmap rbind Z.eqb Pos.eqb].
    change (length commit + (2 + 33))%nat with (length commit + 35)%nat. rewrite slice_ok by lia. cbn [rbind]. by rewrite Ht. }
  assert (E2 : commit_token_step payload ((length commit + 35)%nat, more, Some token) = Val (inr (Some (more, Some token)))).
  { unfold commit_token_step. by rewrite (proj2 (Nat.ltb_ge _ _)) by lia. }
  cbn [loop]. rewrite E1. cbn [rbind]. by rewrite E2.
Qed.

(** * The worker's steps *)

Section Steps.
Context `{Entropy} `{!EntropyOk _} `{HashOrder} `{!HashOrderOk _}.
Context {P : Primitives} {Pok : PrimitivesOk P} {C : P256} {Cok : P256Ok C}.

Lemma carries_async w ap : ap_ok ap -> admit_ok ap -> carries id ap (ap <| ap_async_sae := w |>).
Proof. intros Hok A. apply carries_same; try done. split; [keep_ap_ok Hok|done]. Qed.

Lemma carries_draws d ap : ap_ok ap -> admit_ok ap -> carries id ap (ap <| ap_draws := d |>).
Proof. intros Hok A. apply carries_same; try done. split; [keep_ap_ok Hok|done]. Qed.

Lemma async_moves w ap : sae_inv ap -> opt_ok worker_ok w -> sae_moves ap (ap <| ap_async_sae := w |>).
Proof. intros I Hw. apply sae_moves_id; [done|apply carries_async; apply I|done]. Qed.

Lemma worker_take_ok w : worker_ok w -> worker_ok (worker_take w).
Proof.
  intros (Hj & Hw & Hr). unfold worker_take. destruct (as_working w) as [j|] eqn:E; [by rewrite <- E in Hw|].
  destruct (as_jobs w) as [|job rest] eqn:Ej; [split; [by rewrite Ej|]; split; [by rewrite E|done]|].
  apply Forall_cons in Hj as [Hj Hrest].
  destruct (as_alive w); [by split|]. split; [by rewrite Ej; constructor|]. split; [by rewrite E|done].
Qed.

Lemma worker_answer_ok fuel draws w : entropy_yields fuel -> worker_ok w -> worker_ok (worker_answer fuel draws w).
Proof.
  intros Hy (Hj & Hw & Hr). unfold worker_answer. destruct (as_working w) as [job|] eqn:E; [|split; [done|]; split; [by rewrite E|done]].
  destruct Hw as (J & Hsta & Hmld).
  destruct (compute_spec fuel job draws J Hy) as [[-> _]|(o & d & -> & Ho)]; [by split|].
  split; [done|]. split; [done|]. fields. apply Forall_app. split; [done|]. constructor; [by split_and!|constructor].
Qed.

Lemma worker_pending_kept fuel draws w :
  as_pending (worker_take w) = as_pending w /\ as_pending (worker_answer fuel draws w) = as_pending w.
Proof.
  split; [unfold worker_take|unfold worker_answer]; by repeat case_match.
Qed.

Lemma next_sc_async ap : ap_async_sae (next_sc ap).2 = ap_async_sae ap.
Proof. done. Qed.

Lemma next_sc_moves ap : sae_inv ap -> sae_moves ap (next_sc ap).2 /\ unfinished (next_sc ap).2 = unfinished ap.
Proof.
  intros I. pose proof (carries_next_sc ap (si_ap _ I) (si_admit _ I)) as K.
  split; [apply sae_moves_id; [done|done|apply I]|by apply unfinished_same].
Qed.

Lemma request_moves now sta h2e commit ap out : sae_inv ap ->
  exists ap' out', request_sae_token now sta h2e commit ap out = (ap', out') /\ sae_moves ap ap' /\ unfinished ap' = unfinished ap.
Proof.
  intros I. unfold request_sae_token. destruct (get_range commit 0 2).
  - pose proof (next_sc_moves ap I) as K. destruct (next_sc ap) as [sc ap']. cbn [snd] in K. eexists _, _. by split.
  - exists ap, out. split; [done|]. split; [by apply sae_moves_refl|done].
Qed.

Lemma schedule_async d ap : ap_async_sae (schedule_maintenance d ap) = ap_async_sae ap.
Proof. unfold schedule_maintenance. by repeat case_match. Qed.

Lemma queue_moves now job ap out w : sae_inv ap -> queued_ok job -> ap_async_sae ap = Some w ->
  exists ap' out', queue_sae_commit now job ap out = Val (ap', out') /\ sae_moves ap ap' /\
    unfinished ap' ⊆ {[job_sta job]} ∪ unfinished ap.
Proof.
  intros I Hj Ew. unfold queue_sae_commit. rewrite Ew. cbn [expect rbind].
  pose proof (si_worker _ I) as Hw. rewrite Ew in Hw. cbn in Hw.
  set (w1 := w <| as_next_id := _ |>). set (job1 := {| job_id := as_next_id w |}).
  assert (Hw1 : worker_ok w1) by exact Hw. assert (Hj1 : queued_ok job1) by exact Hj.
  pose proof (async_moves (Some w1) ap I Hw1) as M1. set (ap1 := ap <| ap_async_sae := Some w1 |>) in *.
  assert (U1 : unfinished ap1 = unfinished ap) by (unfold unfinished, sae_pending, ap1; fields; by rewrite Ew).
  destruct (as_alive w1); cbn [negb].
  2:{ destruct (failure_moves (job_sta job) ap1 (sm_inv _ _ M1)) as [M2 U2]. eexists _, _. split; [reflexivity|].
      split; [eapply sae_moves_trans; [done|]; eapply sae_moves_trans; [exact M2|]; apply async_moves; [apply M2|done]|].
      etrans; [|apply union_subseteq_r]. rewrite <- U1, <- U2. apply unfinished_async; [done|]. intros k [x Hx].
      unfold sae_pending in Hx. fields_in Hx. by rewrite lookup_empty in Hx. }
  destruct (Nat.leb_spec SAE_WORK_QUEUE_MAX (length (as_jobs w1))) as [|Hroom].
  { destruct (request_moves now (job_sta job) (job_h2e job) (job_commit_payload job) ap1 out (sm_inv _ _ M1))
      as (ap' & out' & E & M2 & U2). exists ap', out'. split; [by rewrite <- E|].
    split; [by eapply sae_moves_trans|]. rewrite U2, U1. apply union_subseteq_r. }
  set (pend := {| ps_id := _ |}). set (w2 := w1 <| as_jobs := _ |> <| as_pending := _ |>).
  assert (Hw2 : worker_ok w2).
  { destruct Hw1 as (H1 & H2 & H3). unfold w2. split; [fields; apply Forall_app; by split; [|constructor]|by split]. }
  pose proof (async_moves (Some w2) ap1 (sm_inv _ _ M1) Hw2) as M2. set (ap2 := ap1 <| ap_async_sae := Some w2 |>) in *.
  destruct (sm_inv _ _ M2) as [Hok2 A2 _ _]. eexists _, _. split; [reflexivity|]. split.
  - eapply sae_moves_trans; [exact M1|]. eapply sae_moves_trans; [exact M2|].
    apply sae_moves_id; [apply M2|by apply carries_schedule|rewrite schedule_async; exact Hw2].
  - rewrite (unfinished_same ap2) by (first [apply schedule_async|by apply (carries_schedule _ ap2 Hok2 A2)]).
    intros k. rewrite elem_of_union, elem_of_singleton, !unfinished_elem. intros [Hs|Hp]; [right; by left|].
    unfold sae_pending, ap2, w2 in Hp. fields_in Hp. destruct (decide (k = job_sta job)) as [->|Hk]; [by left|].
    right. right. unfold sae_pending. rewrite Ew. by rewrite lookup_insert_ne in Hp.
Qed.

Definition results_left (ap : Ap) : nat := match ap_async_sae ap with Some w => length (as_results w) | None => O end.

Lemma poll_step_moves now ap out : sae_inv ap ->
  exists r, poll_step now (ap, out) = Val r /\
    let ap' := match r with inl st | inr st => st.1 end in
    sae_moves ap ap' /\ unfinished ap' ⊆ unfinished ap /\
    match r with inl _ => (results_left ap' < results_left ap)%nat | inr _ => True end.
Proof.
  intros I. unfold poll_step. pose proof (si_worker _ I) as Hw.
  destruct (ap_async_sae ap) as [w|] eqn:Ew; [|eexists; split; [done|]; split; [by apply sae_moves_refl|done]].
  destruct (as_results w) as [|r rest] eqn:Er.
  - eexists. split; [reflexivity|]. cbn zeta. destruct (as_alive w); cbn [fst]; [split; [by apply sae_moves_refl|done]|].
    split; [by apply async_moves|]. split; [|done]. apply unfinished_async; [done|]. intros k [x Hx].
    unfold sae_pending in Hx. fields_in Hx. by rewrite lookup_empty in Hx.
  - destruct Hw as (Hj & Hwk & Hr). rewrite Er in Hr. apply Forall_cons in Hr as [Hr Hrest].
    set (w1 := w <| as_results := rest |>). assert (Hw1 : worker_ok w1) by by split.
    destruct (pending_matches w1 r) as [p|] eqn:Ep.
    + assert (Hin : res_sta r ∈ unfinished ap).
      { apply unfinished_elem. right. unfold sae_pending. rewrite Ew. unfold pending_matches in Ep.
        change (as_pending w1) with (as_pending w) in Ep. by destruct (as_pending w !! res_sta r). }
      set (w2 := w1 <| as_pending := delete (res_sta r) (as_pending w1) |>).
      pose proof (async_moves (Some w2) ap I Hw1) as M1. set (ap1 := ap <| ap_async_sae := Some w2 |>) in *.
      destruct (commit_moves now r (ps_confirm p) ap1 out (sm_inv _ _ M1) Hr) as (ap' & out' & E & M2 & U & A2).
      rewrite E. cbn [rmap rbind]. eexists. split; [reflexivity|]. cbn [fst]. split; [by eapply sae_moves_trans|]. split.
      * etrans; [exact U|]. apply union_subseteq. split; [by apply singleton_subseteq_l|].
        apply unfinished_async; [done|]. intros k Hk. apply unfinished_elem. right. unfold sae_pending in *. rewrite Ew.
        unfold ap1, w2 in Hk. fields_in Hk. destruct Hk as [x Hx]. apply lookup_delete_Some in Hx as [_ Hx]. by exists x.
      * assert (results_left ap' = length rest) as -> by (unfold results_left; by rewrite A2). unfold results_left.
        rewrite Ew, Er. cbn [length]. lia.
    + eexists. split; [reflexivity|]. cbn [fst]. split; [by apply async_moves|]. split.
      * apply unfinished_async; [done|]. intros k Hk. apply unfinished_elem. right. unfold sae_pending in *. by rewrite Ew.
      * change (results_left (ap <| ap_async_sae := Some w1 |>)) with (length rest). unfold results_left.
        rewrite Ew, Er. cbn [length]. lia.
Qed.

(** Every result is taken; each concerns a station whose exchange was pending. *)
Lemma poll_moves now ap out : sae_inv ap ->
  exists ap' out', poll_sae_work now ap out = Val (ap', out') /\ sae_moves ap ap' /\ unfinished ap' ⊆ unfinished ap.
Proof.
  intros I.
  destruct (loop_spec (fun st : Ap * Outgoing => sae_moves ap st.1 /\ unfinished st.1 ⊆ unfinished ap)
    (fun st : Ap * Outgoing => sae_moves ap st.1 /\ unfinished st.1 ⊆ unfinished ap)
    (fun st => results_left st.1) (poll_step now)) with (fuel := S (S (results_left ap))) (s := (ap, out))
    as ([ap' out'] & E & M & U).
  - intros [ap1 out1] [M1 U1]. cbn [fst] in *. destruct (poll_step_moves now ap1 out1 (sm_inv _ _ M1)) as (r & E & M & U & Hm).
    exists r. split; [done|]. cbn zeta in M, U, Hm.
    pose proof (sae_moves_trans _ _ _ M1 M) as M2. pose proof (transitivity U U1) as U2. by destruct r.
  - cbn [fst]. split; [by apply sae_moves_refl|done].
  - cbn. lia.
  - exists ap', out'. split; [exact E|done].
Qed.

(** Every password is an octet string; none of these operations changes one. *)
Definition passwords_wf (ap : Ap) : Prop :=
  forall identity link p, sae_password_for ap identity link = Some p -> wf_bytes p.

Lemma passwords_fixed ap ap' : fixed ap' = fixed ap -> passwords_wf ap -> passwords_wf ap'.
Proof.
  unfold fixed, passwords_wf, sae_password_for. intros E Hp identity link. injection E. intros.
  specialize (Hp identity link). repeat match goal with X : _ ap' = _ ap |- _ => rewrite X in *; clear X end. auto.
Qed.

(** The exchange the commit of [sta] asks for is one the access point would
    compute itself (no worker has been started, or its thread has ended), and its
    password element is the point at infinity. *)
Definition unusable_exchange (sta : bytes) (seq status : Z) (payload : bytes) (ap : Ap) : Prop :=
  seq = 1 /\ ap_async_sae ap = None /\
  exists commit token job, sae_commit_token payload (status =? STATUS_SAE_H2E) = Val (Some (commit, token)) /\
    exchange_job sta (status =? STATUS_SAE_H2E) commit ap = Val (Some job) /\ infinite_element job.

Lemma sae_peer_mld_total sta commit ap : ap_ok ap -> wf_bytes commit ->
  exists o, sae_peer_mld sta commit ap = Val o /\ opt_ok (arr 6) o.
Proof.
  intros Hok Hw. unfold sae_peer_mld. destruct (ap_mld ap); [|by exists None].
  unfold sae_auth_mld_mac. cbn [Z.eqb Pos.eqb].
  assert (Hm : exists o, (if (length commit <? SAE_COMMIT_LEN)%nat then Val None else parse_mld_mac (drop SAE_COMMIT_LEN commit)) = Val o
    /\ opt_ok (arr 6) o).
  { destruct (_ <? _)%nat; [by exists None|]. pose proof (parse_mld_mac_spec (drop SAE_COMMIT_LEN commit)) as E.
    set (o := first_some _ _) in E. exists o. split; [exact E|]. clearbody o. destruct o as [m|]; [|done].
    apply (parse_mld_mac_arr (drop SAE_COMMIT_LEN commit)); [auto with bytes|exact E]. }
  destruct Hm as (o & -> & Ho). cbn [rbind]. eexists. split; [done|]. destruct o as [m|]; [done|].
  destruct (ap_stations ap !! sta) as [s|] eqn:Es; [|done]. exact (so_mld s (ap_ok_station _ _ _ Hok Es)).
Qed.

Lemma sae_ap_identity_arr mld ap : ap_ok ap -> arr 6 (sae_ap_identity mld ap).
Proof.
  intros Hok. unfold sae_ap_identity. destruct mld; [apply Hok|]. unfold association_link.
  destruct (ap_mld ap); [|apply Hok]. destruct (find _ _) as [l|] eqn:E; [|apply Hok].
  apply find_some in E as [E _]. pose proof (ao_links ap Hok) as Hl. rewrite Forall_forall in Hl.
  cbn [negb]. unfold active_mld_links in E. destruct (ap_mld ap && _); [by apply Hl, list_elem_of_In|].
  destruct E as [<-|[]]. apply Hok.
Qed.

Lemma exchange_job_sta sta h2e commit ap job : exchange_job sta h2e commit ap = Val (Some job) -> job_sta job = sta.
Proof.
  unfold exchange_job. intros (m & _ & [= E])%rbind_val_inv. destruct (sae_password_for _ _ _); [|done]. by injection E as <-.
Qed.

Lemma exchange_job_total sta h2e commit ap : sae_inv ap -> passwords_wf ap -> arr 6 sta -> wf_bytes commit ->
  exists o, exchange_job sta h2e commit ap = Val o /\ opt_ok queued_ok o.
Proof.
  intros I Hpw Hsta Hw. unfold exchange_job.
  destruct (sae_peer_mld_total sta commit ap (si_ap _ I) Hw) as (mld & -> & Hmld). cbn [rbind].
  eexists. split; [done|]. destruct (sae_password_for _ _ _) as [password|] eqn:Ep; [|done].
  assert (Hd : arr 6 (default sta mld)) by by destruct mld.
  split; [|by split]. split; [apply (bo_ssid ap), I|]. split; [by eapply Hpw|].
  split; [apply sae_ap_identity_arr, I|]. by split.
Qed.

Lemma start_moves fuel now sta h2e commit ap out :
  sae_inv ap -> passwords_wf ap -> arr 6 sta -> wf_bytes commit -> entropy_yields fuel ->
  (start_sae_commit fuel now sta h2e commit ap out = Panic /\ ap_async_sae ap = None /\
   exists job, exchange_job sta h2e commit ap = Val (Some job) /\ infinite_element job) \/
  exists ap' out', start_sae_commit fuel now sta h2e commit ap out = Val (ap', out') /\ sae_moves ap ap' /\
    unfinished ap' ⊆ {[sta]} ∪ unfinished ap.
Proof.
  intros I Hpw Hsta Hw Hy. unfold start_sae_commit.
  destruct (exchange_job_total sta h2e commit ap I Hpw Hsta Hw) as (o & Ej & J). rewrite Ej. cbn [rbind].
  destruct o as [job|].
  2:{ right. destruct (failure_moves sta ap I) as [M U]. eexists _, _. split; [reflexivity|]. split; [done|].
      rewrite U. apply union_subseteq_r. }
  cbn in J. pose proof (exchange_job_sta _ _ _ _ _ Ej) as Hs.
  destruct (ap_async_sae ap) as [w|] eqn:Ew; [right; rewrite <- Hs; by apply (queue_moves now job ap out w)|].
  destruct (compute_spec fuel job (ap_draws ap) (proj1 J) Hy) as [[-> Hn]|(o & d & -> & Ho)];
    [left; split; [done|split; [done|by exists job]]|right]. cbn [rbind].
  pose proof (carries_draws d ap (si_ap _ I) (si_admit _ I)) as K. set (ap1 := ap <| ap_draws := d |>) in *.
  assert (M1 : sae_moves ap ap1) by (apply sae_moves_id; [done|done|apply I]).
  destruct (commit_moves now (sae_result job o) None ap1 out (sm_inv _ _ M1)) as (ap' & out' & E & M2 & U & _);
    [split; [apply J|split; [apply J|done]]|].
  exists ap', out'. split; [exact E|]. split; [by eapply sae_moves_trans|]. rewrite <- Hs. exact U.
Qed.

(** ** What a frame may start *)

Definition token_presented (now : Z) (ap : Ap) (sta payload : bytes) : Prop :=
  exists h2e commit token, sae_commit_token payload h2e = Val (Some (commit, Some token)) /\
    valid_sae_token now ap sta h2e commit token = true.

(** A new exchange needs room, and past the threshold a token. *)
Definition exchange_allowed (now : Z) (ap : Ap) (sta payload : bytes) : Prop :=
  sta ∈ unfinished ap \/
  ((incomplete_sae_count ap < SAE_INCOMPLETE_MAX)%nat /\
   ((incomplete_sae_count ap < SAE_ANTI_CLOGGING_THRESHOLD)%nat \/ token_presented now ap sta payload)).

Definition frame_effect (now : Z) (sta payload : bytes) (ap ap' : Ap) : Prop :=
  sae_moves ap ap' /\
  (unfinished ap' ⊆ unfinished ap \/
   (unfinished ap' ⊆ {[sta]} ∪ unfinished ap /\ exchange_allowed now ap sta payload)).

Lemma existing_unfinished sta ap : existing_exchange sta ap = true <-> sta ∈ unfinished ap.
Proof.
  rewrite unfinished_elem. unfold existing_exchange. rewrite orb_true_iff, bool_decide_eq_true. split; (intros [E|E]; [left|by right]).
  - destruct (ap_stations ap !! sta) as [s|]; [by exists s|done].
  - by destruct E as (s & -> & E).
Qed.

Definition returns_or (hole : Prop) (r : res (Ap * Outgoing)) (Q : Ap -> Prop) : Prop :=
  (r = Panic /\ hole) \/ exists ap' out', r = Val (ap', out') /\ Q ap'.

Lemma returns_here hole ap out (Q : Ap -> Prop) : Q ap -> returns_or hole (Val (ap, out)) Q.
Proof. intros HQ. right. by exists ap, out. Qed.

Lemma returns_hole (hole hole' : Prop) r Q : (hole -> hole') -> returns_or hole r Q -> returns_or hole' r Q.
Proof. intros Hh [[E Hp]|Hr]; [left; auto|by right]. Qed.

Lemma request_returns hole now sta' payload' sta h2e commit ap out :
  sae_inv ap -> returns_or hole (Val (request_sae_token now sta h2e commit ap out)) (frame_effect now sta' payload' ap).
Proof.
  intros I. destruct (request_moves now sta h2e commit ap out I) as (ap' & out' & -> & M & U).
  apply returns_here. split; [done|left]. by rewrite U.
Qed.

Lemma commit_frame_moves fuel now sta h2e payload ap out :
  sae_inv ap -> passwords_wf ap -> arr 6 sta -> wf_bytes payload -> entropy_yields fuel ->
  returns_or (ap_async_sae ap = None /\ exists commit token job,
      sae_commit_token payload h2e = Val (Some (commit, token)) /\
      exchange_job sta h2e commit ap = Val (Some job) /\ infinite_element job)
    (handle_sae_commit fuel now sta h2e payload ap out) (frame_effect now sta payload ap).
Proof.
  intros I Hpw Hsta Hw Hy. unfold handle_sae_commit.
  assert (Hquiet : frame_effect now sta payload ap ap) by (split; [by apply sae_moves_refl|by left]).
  destruct (sae_commit_token_total payload h2e Hw) as (o & Eo & Ho). rewrite Eo. cbn [rbind].
  destruct o as [[commit token]|].
  2:{ destruct (failure_moves sta ap I) as [M U]. apply returns_here. split; [done|left]. by rewrite U. }
  destruct (Ho commit token eq_refl) as (Hc & _ & _).
  destruct (already_queued sta commit ap); [by apply returns_here|].
  destruct (cached_answer sta commit ap); [by apply returns_here|].
  destruct (negb (existing_exchange sta ap) && _) eqn:Ecap; [by apply request_returns|].
  destruct (_ && negb _) eqn:Etok; [by apply request_returns|].
  case_bool_decide; [by apply returns_here|].
  destruct (start_moves fuel now sta h2e commit ap out I Hpw Hsta Hc Hy)
    as [(-> & Ha & job & Ej & Hn)|(ap' & out' & -> & M & U)];
    [left; split; [done|]; split; [done|]; by exists commit, token, job|].
  apply returns_here. split; [done|right]. split; [done|]. unfold exchange_allowed. rewrite <- existing_unfinished.
  destruct (existing_exchange sta ap); [by left|right]. cbn [negb andb orb] in *.
  apply Nat.leb_gt in Ecap. split; [done|]. apply andb_false_iff in Etok as [Etok|Etok]; [left; by apply Nat.leb_gt|right].
  apply negb_false_iff in Etok. destruct token as [t|]; [|done]. by exists h2e, commit, t.
Qed.

Lemma sae_frame_moves fuel now sta seq status payload ap out :
  sae_inv ap -> passwords_wf ap -> arr 6 sta -> wf_bytes payload -> entropy_yields fuel ->
  returns_or (unusable_exchange sta seq status payload ap)
    (handle_sae_auth fuel now sta seq status payload ap out) (frame_effect now sta payload ap).
Proof.
  intros I Hpw Hsta Hw Hy. unfold handle_sae_auth.
  assert (Hrej : forall hole status b, returns_or hole (Val (sae_reject sta status b ap out)) (frame_effect now sta payload ap)).
  { intros hole st b. pose proof (next_sc_moves ap I) as K. unfold sae_reject. destruct (next_sc ap) as [sc ap']. cbn [snd] in K.
    apply returns_here. split; [apply K|left]. by destruct K as [_ ->]. }
  assert (Hquiet : frame_effect now sta payload ap ap) by (split; [by apply sae_moves_refl|by left]).
  destruct (Z.eqb_spec seq 1) as [Hs|_]; cbn [andb].
  - destruct (_ || _); cbn [negb]; [|by apply Hrej]. destruct (get_range payload 0 2).
    2:{ destruct (failure_moves sta ap I) as [M U]. apply returns_here. split; [done|left]. by rewrite U. }
    destruct (negb _); [by apply Hrej|]. eapply returns_hole; [|by apply commit_frame_moves]. by intros [Ha Hj].
  - destruct (seq =? 2); [|by apply returns_here]. destruct (sae_pending ap !! sta) as [p|] eqn:Ep.
    + unfold sae_pending in Ep. destruct (ap_async_sae ap) as [w|] eqn:Ew; [|by rewrite lookup_empty in Ep].
      unfold upd_worker. rewrite Ew. cbn [option_map]. apply returns_here. pose proof (si_worker _ I) as Hwk. rewrite Ew in Hwk.
      split; [by apply async_moves|left]. apply unfinished_async; [done|]. intros k Hk. apply unfinished_elem. right.
      unfold sae_pending in *. rewrite Ew. fields_in Hk. destruct (decide (k = sta)) as [->|Hne]; [by rewrite Ep|].
      by rewrite lookup_insert_ne in Hk.
    + destruct (confirm_moves now sta payload ap I) as (ap' & -> & M & U & _). cbn [rbind].
      apply returns_here. split; [done|by left].
Qed.
End Steps.

(** * Runs *)

(** What happens to the SAE machinery: frames, the two moves of the thread and
    the poll of [tick]; each at a time. *)
Inductive sae_event :=
| SaeFrame (sta : bytes) (seq status : Z) (payload : bytes)
| WorkerTakes
| WorkerAnswers (draws : N)
| Polled.

Definition event_ok (ev : sae_event) : Prop :=
  match ev with SaeFrame sta _ _ payload => arr 6 sta /\ wf_bytes payload | _ => True end.

Section Runs.
Context `{Entropy} `{!EntropyOk _} `{HashOrder} `{!HashOrderOk _}.
Context {P : Primitives} {Pok : PrimitivesOk P} {C : P256} {Cok : P256Ok C}.

Definition sae_event_step (fuel : nat) (now : Z) (ev : sae_event) (ap : Ap) (out : Outgoing) : res (Ap * Outgoing) :=
  match ev with
  | SaeFrame sta seq status payload => handle_sae_auth fuel now sta seq status payload ap out
  | WorkerTakes => Val (upd_worker worker_take ap, out)
  | WorkerAnswers draws => Val (upd_worker (worker_answer fuel draws) ap, out)
  | Polled => poll_sae_work now ap out
  end.

Fixpoint sae_run (fuel : nat) (evs : list (Z * sae_event)) (ap : Ap) (out : Outgoing) : res (Ap * Outgoing) :=
  match evs with
  | [] => Val (ap, out)
  | (now, ev) :: rest => let! '(ap, out) := sae_event_step fuel now ev ap out in sae_run fuel rest ap out
  end.

(** The event is a commit that [unusable_exchange] describes. *)
Definition event_unusable (ev : sae_event) (ap : Ap) : Prop :=
  match ev with SaeFrame sta seq status payload => unusable_exchange sta seq status payload ap | _ => False end.

(** No frame of the run carries a token that is valid when it arrives. *)
Definition tokenless (ap : Ap) (evs : list (Z * sae_event)) : Prop :=
  forall now sta seq status payload, (now, SaeFrame sta seq status payload) ∈ evs -> ~ token_presented now ap sta payload.

Lemma token_presented_fixed now ap ap' sta payload :
  fixed ap' = fixed ap -> token_presented now ap' sta payload -> token_presented now ap sta payload.
Proof.
  unfold fixed. intros E (h & c & t & Et & Hv). injection E. intros. exists h, c, t. split; [done|]. rewrite <- Hv.
  unfold valid_sae_token, sae_token_at. assert (ap_boottime ap' = ap_boottime ap) as -> by done.
  by assert (ap_sae_token_key ap' = ap_sae_token_key ap) as -> by done.
Qed.

(** The effect of an event on the number of unfinished exchanges. *)
Definition bounded (evs : list (Z * sae_event)) (ap ap' : Ap) : Prop :=
  ((size (unfinished ap) <= SAE_INCOMPLETE_MAX)%nat -> (size (unfinished ap') <= SAE_INCOMPLETE_MAX)%nat) /\
  (tokenless ap evs -> (size (unfinished ap') <= max SAE_ANTI_CLOGGING_THRESHOLD (size (unfinished ap)))%nat).

Lemma bounded_subset evs ap ap' : unfinished ap' ⊆ unfinished ap -> bounded evs ap ap'.
Proof. intros Hs%subseteq_size. split; intros; lia. Qed.

Lemma bounded_allowed now sta seq status payload ap ap' :
  unfinished ap' ⊆ {[sta]} ∪ unfinished ap -> exchange_allowed now ap sta payload ->
  bounded [(now, SaeFrame sta seq status payload)] ap ap'.
Proof.
  intros Hs Ha. destruct Ha as [Hin|[Hcap Htok]].
  { apply bounded_subset. etrans; [exact Hs|]. apply union_subseteq. split; [by apply singleton_subseteq_l|done]. }
  pose proof (unfinished_count ap) as Hc. apply subseteq_size in Hs.
  assert (Hu : (size ({[sta]} ∪ unfinished ap) <= S (size (unfinished ap)))%nat).
  { rewrite size_union_alt, size_singleton. pose proof (subseteq_size (unfinished ap ∖ {[sta]}) (unfinished ap)) as Hd.
    specialize (Hd ltac:(by apply subseteq_difference_l)). lia. }
  split; [lia|]. intros Ht. destruct Htok as [Hl|Hp]; [unfold SAE_ANTI_CLOGGING_THRESHOLD in *; lia|].
  exfalso. by apply (Ht now sta seq status payload); [apply list_elem_of_here|].
Qed.

Lemma sae_event_moves fuel now ev ap out :
  sae_inv ap -> passwords_wf ap -> event_ok ev -> entropy_yields fuel ->
  returns_or (event_unusable ev ap) (sae_event_step fuel now ev ap out) (fun ap' => sae_moves ap ap' /\ bounded [(now, ev)] ap ap').
Proof.
  intros I Hpw Hev Hy.
  assert (Hworker : forall f, (forall w, worker_ok w -> worker_ok (f w)) -> (forall w, as_pending (f w) = as_pending w) ->
    returns_or False (Val (upd_worker f ap, out)) (fun ap' => sae_moves ap ap' /\ bounded [(now, ev)] ap ap')).
  { intros f Hf Hp. apply returns_here. unfold upd_worker. pose proof (si_worker _ I) as Hw. split.
    - apply async_moves; [done|]. destruct (ap_async_sae ap); [by apply Hf|done].
    - apply bounded_subset, unfinished_async; [done|]. intros k Hk. apply unfinished_elem. right.
      unfold sae_pending in *. fields_in Hk. destruct (ap_async_sae ap); [|done]. cbn [option_map] in Hk. by rewrite Hp in Hk. }
  destruct ev as [sta seq status payload| |draws|]; cbn [sae_event_step event_unusable].
  - destruct Hev as [Hsta Hw].
    destruct (sae_frame_moves fuel now sta seq status payload ap out I Hpw Hsta Hw Hy) as [E|(ap' & out' & E & M & U)]; [by left|].
    right. exists ap', out'. split; [done|]. split; [done|].
    destruct U as [U|[U Ha]]; [by apply bounded_subset|by apply bounded_allowed].
  - apply Hworker; [apply worker_take_ok|]. intros w. by apply (worker_pending_kept 0 0).
  - apply Hworker; [by intros w; apply worker_answer_ok|]. intros w. apply worker_pending_kept.
  - destruct (poll_moves now ap out I) as (ap' & out' & -> & M & U). apply returns_here. split; [done|by apply bounded_subset].
Qed.

(** A run that panics does so at one event, in the state the events before it
    lead to. *)
Definition run_panics (fuel : nat) (evs : list (Z * sae_event)) (ap : Ap) (out : Outgoing) : Prop :=
  sae_run fuel evs ap out = Panic /\ exists before now ev after ap1 out1, evs = before ++ (now, ev) :: after /\
    sae_run fuel before ap out = Val (ap1, out1) /\ sae_event_step fuel now ev ap1 out1 = Panic /\ event_unusable ev ap1.

Lemma sae_run_moves fuel evs ap out :
  sae_inv ap -> passwords_wf ap -> Forall (fun e => event_ok e.2) evs -> entropy_yields fuel ->
  run_panics fuel evs ap out \/
  exists ap' out', sae_run fuel evs ap out = Val (ap', out') /\ sae_moves ap ap' /\ bounded evs ap ap'.
Proof.
  intros I Hpw Hev Hy. revert ap out I Hpw. induction evs as [|[now ev] evs IH]; intros ap out I Hpw.
  { right. exists ap, out. split; [done|]. split; [by apply sae_moves_refl|by apply bounded_subset]. }
  apply Forall_cons in Hev as [Hev Hrest]. unfold run_panics. cbn [sae_run snd] in *.
  destruct (sae_event_moves fuel now ev ap out I Hpw Hev Hy) as [[E Hn]|(ap1 & out1 & E & M1 & B1 & B1')]; rewrite E; cbn [rbind].
  { left. split; [done|]. by exists [], now, ev, evs, ap, out. }
  destruct (IH Hrest ap1 out1 (sm_inv _ _ M1)) as [(E2 & pre & n & e & post & ap2 & out2 & -> & Er & Es & Hh)|(ap2 & out2 & E2 & M2 & B2 & B2')];
    [by apply (passwords_fixed ap); [apply M1|]| |].
  { left. split; [done|]. exists ((now, ev) :: pre), n, e, post, ap2, out2. split; [done|]. split; [|done].
    cbn [sae_run]. by rewrite E. }
  right. exists ap2, out2. split; [done|]. split; [by eapply sae_moves_trans|]. split; [auto|]. intros Ht.
  assert (H1 : tokenless ap [(now, ev)]).
  { intros n sta seq st pl Hin. apply (Ht n sta seq st pl). apply list_elem_of_singleton in Hin as ->. apply list_elem_of_here. }
  assert (H2 : tokenless ap1 evs).
  { intros n sta seq st pl Hin Hp. apply (Ht n sta seq st pl); [by apply list_elem_of_further|].
    eapply token_presented_fixed; [apply M1|done]. }
  specialize (B1' H1). specialize (B2' H2). lia.
Qed.

(** C28: however the frames of any stations, the moves of the worker and the polls
    interleave, the number of stations with an unfinished SAE exchange never
    passes 64, and frames without a valid anti-clogging token never bring it
    past 5. The run returns, but for one case: if it panics, it does so at a
    commit that finds the access point without its worker, and the password
    element of the exchange that very commit asks for (with the station's
    password and the two addresses) is the point at infinity. *)
Theorem sae_exchanges_bounded fuel evs ap out :
  sae_inv ap -> passwords_wf ap -> Forall (fun e => event_ok e.2) evs -> entropy_yields fuel ->
  (size (unfinished ap) <= SAE_INCOMPLETE_MAX)%nat ->
  run_panics fuel evs ap out \/
  exists ap' out', sae_run fuel evs ap out = Val (ap', out') /\ sae_inv ap' /\ fixed ap' = fixed ap /\
    (size (unfinished ap') <= SAE_INCOMPLETE_MAX)%nat /\
    (tokenless ap evs -> (size (unfinished ap') <= max SAE_ANTI_CLOGGING_THRESHOLD (size (unfinished ap)))%nat).
Proof.
  intros I Hpw Hev Hy Hsz. destruct (sae_run_moves fuel evs ap out I Hpw Hev Hy) as [E|(ap' & out' & E & M & B1 & B2)]; [by left|].
  right. exists ap', out'. split; [done|]. split; [apply M|]. split; [apply M|]. auto.
Qed.

(** in the same runs a station counts as authenticated by SAE only through a
    confirm that verifies: a record that is confirmed at the end was confirmed
    at the start and holds the same exchange, or some confirm has been checked
    against its exchange and accepted. *)
Lemma sae_confirmed_by_confirm fuel evs ap out ap' out' k s' :
  sae_inv ap -> passwords_wf ap -> Forall (fun e => event_ok e.2) evs -> entropy_yields fuel ->
  sae_run fuel evs ap out = Val (ap', out') -> ap_stations ap' !! k = Some s' -> st_sae_confirmed s' = true ->
  (exists s, ap_stations ap !! k = Some s /\ st_sae_confirmed s = true /\ st_sae s' = st_sae s) \/ confirm_verified s'.
Proof.
  intros I Hpw Hev Hy E Hs Hc. destruct (sae_run_moves fuel evs ap out I Hpw Hev Hy) as [[E' _]|(ap1 & out1 & E' & M & _)];
    [congruence|]. rewrite E in E'. injection E' as <- <-. by apply (sm_confirmed _ _ M k).
Qed.
End Runs.

(** * The token's round trip *)

Definition not_token (t : Z * bytes) : Prop := ~ (t.1 = 255 /\ length t.2 = 33%nat /\ nth 0 t.2 0 = 93).

(** What a station sends once it has been given a token. *)
Definition with_token (h2e : bool) (commit token : bytes) : bytes :=
  if h2e then commit ++ [255; 33; 93] ++ token else take 2 commit ++ token ++ drop 2 commit.

Lemma commit_element_kept pre t rest acc :
  short_element t -> not_token t ->
  commit_token_step (pre ++ (t.1 :: Z.of_nat (length t.2) :: t.2) ++ rest) (length pre, acc, None) =
    Val (inl ((length pre + (2 + length t.2))%nat, acc ++ t.1 :: Z.of_nat (length t.2) :: t.2, None)).
Proof.
  destruct t as [id d]. unfold short_element, not_token. cbn [fst snd]. intros Hs Hn.
  set (payload := pre ++ (id :: Z.of_nat (length d) :: d) ++ rest).
  assert (Hlen : length payload = (length pre + (2 + length d) + length rest)%nat)
    by (unfold payload; rewrite !length_app; simpl; lia).
  assert (Hat : forall i, nth (length pre + i) payload 0 = nth i ((id :: Z.of_nat (length d) :: d) ++ rest) 0).
  { intros i. unfold payload. rewrite app_nth2 by lia. f_equal. lia. }
  assert (H0 : nth (length pre) payload 0 = id) by (rewrite <- (Nat.add_0_r (length pre)), Hat; done).
  unfold commit_token_step. rewrite (proj2 (Nat.ltb_lt _ _)) by lia. rewrite (proj2 (Nat.ltb_ge _ _)) by lia.
  rewrite idx_ok by lia. rewrite Hat. cbn [nth app rbind]. rewrite Nat2Z.id.
  rewrite (proj2 (Nat.ltb_ge _ _)) by lia. rewrite idx_ok by lia. cbn [rbind]. rewrite H0.
  assert (Ht : (if (id =? 255) && (Z.of_nat (length d) =? 33) then rmap (fun x => x =? 93) (idx payload (length pre + 2))
    else Val false) = Val false).
  { destruct (Z.eqb_spec id 255) as [->|]; cbn [andb]; [|done]. destruct (Z.eqb_spec (Z.of_nat (length d)) 33); [|done].
    rewrite idx_ok by lia. rewrite Hat. cbn [nth app rmap rbind]. rewrite app_nth1 by lia.
    destruct (Z.eqb_spec (nth 0 d 0) 93); [|done]. exfalso. apply Hn. split; [done|]. split; [lia|done]. }
  assert (Hsub : sub payload (length pre) (length pre + (2 + length d)) = id :: Z.of_nat (length d) :: d)
    by (unfold payload; apply sub_exact; simpl; lia).
  rewrite Ht. cbn [rbind]. rewrite slice_ok by lia. cbn [rbind]. by rewrite Hsub.
Qed.

Lemma commit_elements_kept rest ts : Forall short_element ts -> Forall not_token ts -> forall pre acc fuel,
  loop (length ts + fuel) (commit_token_step (pre ++ encode_elements ts ++ rest)) (length pre, acc, None) =
    loop fuel (commit_token_step (pre ++ encode_elements ts ++ rest))
      ((length pre + length (encode_elements ts))%nat, acc ++ encode_elements ts, None).
Proof.
  induction ts as [|t ts IH]; intros Hs Hn pre acc fuel.
  { change (encode_elements []) with (@nil Z). cbn [length Nat.add]. by rewrite Nat.add_0_r, app_nil_r. }
  apply Forall_cons in Hs as [Hst Hs]. apply Forall_cons in Hn as [Hnt Hn].
  set (e := t.1 :: Z.of_nat (length t.2) :: t.2).
  assert (He : encode_elements (t :: ts) = e ++ encode_elements ts).
  { unfold encode_elements. cbn [map concat]. unfold ie, e, u8. by rewrite Z.mod_small by (unfold short_element in Hst; lia). }
  rewrite He, <- app_assoc. cbn [length Nat.add loop].
  pose proof (commit_element_kept pre t (encode_elements ts ++ rest) acc Hst Hnt) as E. fold e in E. rewrite E. cbn [rbind].
  replace (length pre + (2 + length t.2))%nat with (length (pre ++ e)) by (rewrite length_app; done).
  replace (pre ++ e ++ encode_elements ts ++ rest) with ((pre ++ e) ++ encode_elements ts ++ rest) by (by rewrite <- app_assoc).
  rewrite IH by done. by rewrite !length_app, <- !app_assoc, <- !Nat.add_assoc.
Qed.

(** The commit of a station: the core, then elements none of which is a token. *)
Definition plain_commit (commit : bytes) : Prop :=
  exists core ts, commit = core ++ encode_elements ts /\ length core = SAE_COMMIT_LEN /\
    Forall short_element ts /\ Forall not_token ts.

Lemma length_encode_elements ts : (length ts <= length (encode_elements ts))%nat.
Proof.
  induction ts as [|t ts IH]; [done|]. unfold encode_elements in *. cbn [map concat length]. rewrite length_app. simpl. lia.
Qed.

(** The token a station adds to its commit is the one the access point reads,
    and the commit it is bound to is the one without it. *)
Lemma with_token_read h2e commit token : plain_commit commit -> arr 32 token ->
  sae_commit_token (with_token h2e commit token) h2e = Val (Some (commit, Some token)).
Proof.
  intros (core & ts & -> & Hc & Hs & Hn) Ht. pose proof Ht as [Htl Htw]. unfold sae_commit_token, with_token.
  pose proof (length_encode_elements ts) as Hts. destruct h2e; cbn [negb].
  - set (commit := core ++ encode_elements ts). set (payload := commit ++ [255; 33; 93] ++ token).
    assert (Hpl : length payload = (98 + length (encode_elements ts) + 35)%nat)
      by (unfold payload, commit; rewrite !length_app, Hc, Htl; simpl; unfold SAE_COMMIT_LEN; lia).
    rewrite (proj2 (Nat.ltb_ge _ _)) by (unfold SAE_COMMIT_LEN; lia).
    rewrite slice_ok by (unfold SAE_COMMIT_LEN; lia). cbn [rbind].
    assert (Hcore : sub payload 0 SAE_COMMIT_LEN = core).
    { unfold payload, commit. rewrite <- app_assoc, sub_app_l by lia. by rewrite <- Hc, sub_all. }
    rewrite Hcore. rewrite <- Hc.
    assert (Ep : payload = core ++ encode_elements ts ++ [255; 33; 93] ++ token) by (unfold payload, commit; by rewrite <- app_assoc).
    replace (S (length payload)) with (length ts + (S (S (length payload - length ts - 1))))%nat by lia.
    rewrite Ep at 2. rewrite commit_elements_kept by done. rewrite <- Ep.
    replace (length core + length (encode_elements ts))%nat with (length commit) by (unfold commit; by rewrite length_app).
    apply token_container_removed; [done|]. unfold commit. rewrite length_app. lia.
  - set (commit := core ++ encode_elements ts). assert (Hcl : (98 <= length commit)%nat)
      by (unfold commit; rewrite length_app, Hc; unfold SAE_COMMIT_LEN; lia).
    set (payload := take 2 commit ++ token ++ drop 2 commit).
    assert (Hpl : length payload = (length commit + 32)%nat)
      by (unfold payload; rewrite !length_app, length_take, length_drop, Htl; lia).
    unfold SAE_COMMIT_LEN. rewrite (proj2 (Nat.ltb_ge _ _)), (proj2 (Nat.leb_le _ _)) by lia.
    rewrite !slice_ok by lia. cbn [rbind]. unfold slice_from. rewrite slice_ok by lia. cbn [rbind].
    assert (H2 : length (take 2 commit) = 2%nat) by (rewrite length_take; lia).
    assert (E1 : sub payload 2 34 = token) by (unfold payload; apply sub_exact; lia).
    assert (E2 : sub payload 0 2 = take 2 commit) by (unfold payload; rewrite sub_app_l by lia; apply sub_all; lia).
    assert (E3 : sub payload 34 (length payload) = drop 2 commit).
    { rewrite Hpl. unfold payload. rewrite app_assoc. rewrite sub_app_r by (rewrite length_app; lia).
      rewrite length_app, H2, Htl. apply sub_whole; rewrite ?length_drop; lia. }
    by rewrite E1, E2, E3, take_drop.
Qed.

Section Token.
Context `{Entropy} `{!EntropyOk _} `{HashOrder} `{!HashOrderOk _}.
Context {P : Primitives} {Pok : PrimitivesOk P} {C : P256} {Cok : P256Ok C}.

Lemma sae_token_at_arr ap sta h2e commit issued :
  wf_bytes (ap_sae_token_key ap) -> wf_bytes sta -> wf_bytes commit -> arr 32 (sae_token_at ap sta h2e commit issued).
Proof.
  intros Hk Hs Hc. unfold sae_token_at.
  destruct (hmac_sha256_arr (ap_sae_token_key ap)
    (TOKEN_LABEL ++ be_bytes 8 issued ++ sta ++ [if h2e then 1 else 0] ++ commit)) as [Hl Hw]; [done| |].
  { assert (wf_bytes TOKEN_LABEL) by by apply (bool_decide_unpack _).
    assert (wf_bytes [if h2e then 1 else 0]) by (destruct h2e; by apply (bool_decide_unpack _)). auto 8 with bytes. }
  split; [rewrite length_app, length_be_bytes, length_take; lia|auto with bytes].
Qed.

(** A token is valid for the commit it was issued for, for its lifetime, and
    one with another time stamp or authenticator is not. *)
Lemma valid_token_spec now ap sta h2e commit token :
  wf_bytes (ap_sae_token_key ap) -> wf_bytes sta -> wf_bytes commit -> wf_bytes token ->
  let issued := be_val (take 8 token) in
  let age := elapsed_secs now (ap_boottime ap) - issued in
  valid_sae_token now ap sta h2e commit token = true <->
    0 <= age <= 10 /\ drop 8 token = drop 8 (sae_token_at ap sta h2e commit issued).
Proof.
  intros Hk Hs Hc Hw. cbn zeta. unfold valid_sae_token. change (SAE_TOKEN_LIFETIME / secs 1) with 10.
  set (issued := be_val (take 8 token)). set (age := _ - issued).
  destruct (sae_token_at_arr ap sta h2e commit issued Hk Hs Hc) as [_ Hwt].
  destruct (Z.ltb_spec age 0); [split; [done|lia]|]. destruct (Z.ltb_spec 10 age); [split; [done|lia]|].
  rewrite constant_time_eq_spec by auto with bytes. rewrite beq_true. intuition lia.
Qed.

Definition elapsed_ok (now : Z) (ap : Ap) : Prop := elapsed_secs now (ap_boottime ap) < 2 ^ 64.

Lemma issued_token_valid t0 t1 ap ap' sta h2e commit :
  wf_bytes (ap_sae_token_key ap) -> wf_bytes sta -> wf_bytes commit -> elapsed_ok t0 ap -> fixed ap' = fixed ap ->
  valid_sae_token t1 ap' sta h2e commit (sae_token t0 ap sta h2e commit) = true <->
    0 <= elapsed_secs t1 (ap_boottime ap) - elapsed_secs t0 (ap_boottime ap) <= 10.
Proof.
  intros Hk Hs Hc He F. unfold fixed in F. injection F. intros.
  assert (Eb : ap_boottime ap' = ap_boottime ap) by done. assert (Ek : ap_sae_token_key ap' = ap_sae_token_key ap) by done.
  assert (Et : forall h c n, sae_token_at ap' sta h c n = sae_token_at ap sta h c n)
    by (intros; unfold sae_token_at; by rewrite Ek).
  rewrite valid_token_spec; [|by rewrite Ek|done|done|by apply (arr_wf 32), sae_token_at_arr].
  assert (E8 : take 8 (sae_token t0 ap sta h2e commit) = be_bytes 8 (elapsed_secs t0 (ap_boottime ap)))
    by (unfold sae_token, sae_token_at; apply take_app_length'; by rewrite length_be_bytes).
  assert (Hpos : 0 <= elapsed_secs t0 (ap_boottime ap))
    by (unfold elapsed_secs, duration_since; apply Z.div_pos; [lia|by vm_compute]).
  rewrite E8, Et, Eb, be_bytes_small by (unfold elapsed_ok in He; simpl; lia). unfold sae_token. tauto.
Qed.

(** anti-clogging does not shut out a station that answers. The token request
    for a commit carries a token; the same commit with that token, sent within
    the token's lifetime of ten seconds while the access point has room, is
    worked on; and sent later it is answered by another token request. *)
Lemma token_admits fuel t0 t1 sta h2e commit ap ap' out :
  wf_bytes (ap_sae_token_key ap) -> wf_bytes sta -> wf_bytes commit -> plain_commit commit -> elapsed_ok t0 ap ->
  fixed ap' = fixed ap ->
  already_queued sta commit ap' = false -> cached_answer sta commit ap' = None -> sae_pending ap' !! sta = None ->
  (SAE_ANTI_CLOGGING_THRESHOLD <= incomplete_sae_count ap' < SAE_INCOMPLETE_MAX)%nat ->
  exists sc token,
    (request_sae_token t0 sta h2e commit ap out).2 =
      out_tx (build_sae_auth sta (ap_mac ap) (ap_mac ap) 0 sc 1 STATUS_ANTI_CLOGGING_TOKEN_REQ
        (take 2 commit ++ (if h2e then [255; 33; 93] else []) ++ token)) out /\
    handle_sae_commit fuel t1 sta h2e (with_token h2e commit token) ap' out =
      if (0 <=? elapsed_secs t1 (ap_boottime ap) - elapsed_secs t0 (ap_boottime ap)) &&
         (elapsed_secs t1 (ap_boottime ap) - elapsed_secs t0 (ap_boottime ap) <=? 10)
      then start_sae_commit fuel t1 sta h2e commit ap' out
      else Val (request_sae_token t1 sta h2e commit ap' out).
Proof.
  intros Hk Hs Hw Hp He F Hq Hca Hpend Hcount. set (token := sae_token t0 ap sta h2e commit).
  assert (Ht : arr 32 token) by by apply sae_token_at_arr.
  assert (Hlen : (2 <= length commit)%nat).
  { destruct Hp as (core & ts & -> & Hc & _). rewrite length_app, Hc. unfold SAE_COMMIT_LEN. lia. }
  exists ((next_sc ap).1), token. split.
  { unfold request_sae_token, get_range. rewrite (proj2 (Nat.leb_le 2 _)) by done. cbn [Nat.leb andb].
    fold token. destruct (next_sc ap) as [sc ap1] eqn:En. assert (Em : ap_mac ap1 = ap_mac ap) by (unfold next_sc in En; by injection En as _ <-).
    cbn [fst snd]. by rewrite Em. }
  unfold handle_sae_commit. rewrite with_token_read by done. cbn [rbind]. rewrite Hq, Hca.
  rewrite (proj2 (Nat.leb_gt _ _)) by lia. rewrite andb_false_r.
  rewrite (proj2 (Nat.leb_le SAE_ANTI_CLOGGING_THRESHOLD _)) by lia. rewrite orb_true_r. cbn [andb]. rewrite Hpend.
  assert (Hv := issued_token_valid t0 t1 ap ap' sta h2e commit Hk Hs Hw He F). fold token in Hv.
  destruct (valid_sae_token t1 ap' sta h2e commit token) eqn:Ev; cbn [negb].
  - destruct (proj1 Hv eq_refl) as [Hv1 Hv2]. by rewrite (proj2 (Z.leb_le _ _) Hv1), (proj2 (Z.leb_le _ _) Hv2).
  - destruct (Z.leb_spec 0 (elapsed_secs t1 (ap_boottime ap) - elapsed_secs t0 (ap_boottime ap))); cbn [andb]; [|done].
    destruct (Z.leb_spec (elapsed_secs t1 (ap_boottime ap) - elapsed_secs t0 (ap_boottime ap)) 10); [|done].
    discriminate (proj2 Hv (conj ltac:(lia) ltac:(lia))).
Qed.
End Token.

(** * An exchange with an honest station *)

Section Honest.
Context `{Entropy} `{!EntropyOk _} `{HashOrder} `{!HashOrderOk _}.
Context {P : Primitives} {Pok : PrimitivesOk P} {C : P256} {Cok : P256Ok C}.

Lemma prepare_store s rand mask s' v Q rej :
  prepare_commit s rand mask = Val s' ->
  prepare_commit (store_commit s v Q rej) rand mask = Val (store_commit s' v Q rej).
Proof.
  unfold prepare_commit. change (pwe (store_commit s v Q rej)) with (pwe s).
  destruct (secret_scalar rand) as [r| |]; cbn [rbind]; [|done|done].
  destruct (secret_scalar mask) as [m| |]; cbn [rbind]; [|done|done].
  destruct (expect (point_to_p256 (pwe s))) as [p| |]; cbn [rbind]; [|done|done].
  destruct (point_from_p256 _) as [M| |]; cbn [rbind]; [|done|done].
  destruct (negate M) as [E| |]; cbn [rbind]; [|done|done]. by intros [= <-].
Qed.

(** Both ends of an exchange, each with its secrets drawn: [sa] is the access
    point's, [sb] the station's, which does not give up on the commit [ca]. *)
Record honest (ssid password mac sta ra ma : bytes) (sa sb : Sae) (ca cb : bytes) (sb2 : Sae) : Prop := {
  ho_wf : wf_bytes ssid /\ wf_bytes password /\ mac <> sta;
  ho_ap : exists sa0, new_h2e ssid password None mac sta = Val sa0 /\ prepare_commit sa0 ra ma = Val sa;
  ho_sta : exists sb0 rb mb, new_h2e ssid password None sta mac = Val sb0 /\ prepare_commit sb0 rb mb = Val sb;
  ho_presentable : presentable sa /\ presentable sb;
  ho_fresh : commit_scalar sa <> commit_scalar sb;
  ho_commits : write_commit sa = Val ca /\ write_commit sb = Val cb;
  ho_goes_on : exists sb1, parse_peer_commit sb ca = Val (Ok tt, sb1) /\ process_commit sb1 = Val (Ok tt, sb2)
}.

Lemma write_confirm_total s v Q :
  send_confirm s = 0 -> wf_bytes (sae_kck s) -> commit_element s <> Infinity ->
  peer_scalar s = Some v -> peer_element s = Some Q -> Q <> Infinity ->
  exists m, write_confirm s = Val (Ok m, s <| send_confirm := 1 |>).
Proof.
  intros Hs Hk Hf Hv HQ HQi. unfold write_confirm. rewrite Hs, Hv, HQ. change (0 =? 0xffff) with false. cbn iota.
  cbn [expect rbind]. fields. match goal with |- context [cn_confirm ?a ?b ?c ?d ?e ?f] =>
    destruct (cn_confirm_total a b c d e f) as (m & -> & _); [done|done|exact Hk|] end.
  cbn [rbind]. by eexists.
Qed.

(** Two keyed ends of one exchange accept each other's first confirm, and not
    the same confirm again. *)
Lemma confirmed_by_other a b keys ab :
  heard a b -> heard b a -> arr 64 keys -> commit_element a <> Infinity -> commit_element b <> Infinity ->
  send_confirm a = 0 -> send_confirm b = 0 -> last_peer_send_confirm a = None -> last_peer_send_confirm b = None ->
  exists f a3 b3 m b4 a4, write_confirm (Sae.keyed a keys ab) = Val (Ok f, a3) /\
    (sae_pmk a3 = sae_pmk (Sae.keyed b keys ab) /\ sae_pmkid a3 = sae_pmkid (Sae.keyed b keys ab)) /\
    check_confirm (Sae.keyed b keys ab) f = Val (Ok tt, b3) /\ write_confirm b3 = Val (Ok m, b4) /\
    check_confirm a3 m = Val (Ok tt, a4) /\ check_confirm a4 m = Val (Err ReplayedConfirm, a4).
Proof.
  intros Hab Hba [Hkl Hkw] Fa Fb Na Nb La Lb. set (a2 := Sae.keyed a keys ab). set (b2 := Sae.keyed b keys ab).
  assert (Hw : wf_bytes (sub keys 0 32)) by auto with bytes.
  destruct (write_confirm_total a2 (commit_scalar b) (commit_element b)) as (f & Ef); try done; try apply Hab.
  set (a3 := a2 <| send_confirm := 1 |>) in Ef.
  destruct (confirm_accepted a2 b2 f a3) as [_ Cb]; try done; [change (send_confirm a2) with (send_confirm a); lia|].
  change (last_peer_send_confirm b2) with (last_peer_send_confirm b) in Cb. rewrite Lb in Cb. cbn in Cb.
  set (b3 := b2 <| last_peer_send_confirm := Some 1 |>) in Cb.
  destruct (write_confirm_total b3 (commit_scalar a) (commit_element a)) as (m & Em); try done; try apply Hba.
  set (b4 := b3 <| send_confirm := 1 |>) in Em.
  destruct (confirm_accepted b3 a3 m b4) as [_ Ca]; try done; [change (send_confirm b3) with (send_confirm b); lia|].
  change (last_peer_send_confirm a3) with (last_peer_send_confirm a) in Ca. rewrite La in Ca. cbn in Ca.
  set (a4 := a3 <| last_peer_send_confirm := Some 1 |>) in Ca.
  destruct (confirm_accepted b3 a4 m b4) as [_ Cr]; try done; [change (send_confirm b3) with (send_confirm b); lia|].
  cbn in Cr. exists f, a3, b3, m, b4, a4. split; [exact Ef|]. split; [done|]. split; [exact Cb|]. split; [exact Em|]. by split.
Qed.

(** The access point's half: what it computes from the station's commit, and
    that the two ends then accept each other's confirm, once. *)
Lemma honest_exchange ssid password mac sta ra ma sa sb ca cb sb2 :
  honest ssid password mac sta ra ma sa sb ca cb sb2 ->
  exists sa0 sa0' sa1 sa3 confirm,
    new_h2e ssid password None mac sta = Val sa0 /\ parse_peer_commit sa0 cb = Val (Ok tt, sa0') /\
    prepare_commit sa0' ra ma = Val sa1 /\ sae_answer sa1 = Val (Complete sa3 ca confirm []) /\
    (sae_ready sa3 /\ wf_bytes confirm) /\ sae_pmk sa3 = sae_pmk sb2 /\ sae_pmkid sa3 = sae_pmkid sb2 /\
    exists sb3 m sb4 sa4, check_confirm sb2 confirm = Val (Ok tt, sb3) /\ write_confirm sb3 = Val (Ok m, sb4) /\
      check_confirm sa3 m = Val (Ok tt, sa4) /\ check_confirm sa4 m = Val (Err ReplayedConfirm, sa4).
Proof.
  intros [(Hss & Hpw & Hab) (sa0 & Ha0 & Ha) (sb0 & rb & mb & Hb0 & Hb) [Pa Pb] Hne [Wa Wb] (sb1 & Rb & Gb)].
  destruct (new_h2e_pair ssid password mac sta Hss Hpw Hab) as (Q & p & xa & xb & Ea & Eb & HQ & Gxa & Gxb & Hord).
  rewrite Ha0 in Ea. injection Ea as <-. rewrite Hb0 in Eb. injection Eb as <-.
  assert (Hpa : repr (pwe sa0) p) by (by rewrite Gxa). assert (Hpb : repr (pwe sb0) p) by (by rewrite Gxb).
  destruct (prepare_commit_inv sa0 ra ma sa p Hpa Ha) as (sra & sma & Ca & Oa & Qa & Da & Na & La).
  destruct (prepare_commit_inv sb0 rb mb sb p Hpb Hb) as (srb & smb & Cb & Ob & Qb & Db & Nb & Lb).
  rewrite Gxa in Oa, Qa, Na, La. rewrite Gxb in Ob, Qb, Nb, Lb.
  cbn [own_rejected_groups peer_rejected_groups send_confirm last_peer_send_confirm sae_with] in *.
  destruct (commit_sent sa sb p _ _ Ca Pa Oa) as (ca' & Wa' & Ra). rewrite Wa in Wa'. injection Wa' as <-.
  rewrite Rb in Ra. injection Ra as ->. destruct (commit_sent sb sa0 p _ _ Cb Pb Ob) as (cb' & Wb' & Rsa).
  rewrite Wb in Wb'. injection Wb' as <-. set (sb1 := store_commit sb _ _ _) in *.
  pose proof (prepare_store _ _ _ _ (commit_scalar sb) (commit_element sb) None Ha) as Ep.
  set (sa1 := store_commit sa _ _ _) in Ep. exists sa0. eexists. exists sa1.
  assert (Hh : heard sa1 sb1 /\ heard sb1 sa1) by (unfold heard, sa1, sb1, store_commit; fields; by rewrite Oa, Ob).
  assert (Hg : groups_wf sa1 /\ groups_wf sb1)
    by (unfold groups_wf, sa1, sb1, store_commit; fields; rewrite Oa, Ob; repeat split; constructor).
  assert (Hd : own_addr_higher sa1 = negb (own_addr_higher sb1))
    by (unfold sa1, sb1, store_commit; fields; by rewrite Da, Db).
  destruct (process_commit_agree sa1 sb1 p sra sma srb smb Ca Cb (proj1 Hh) (proj2 Hh) Hd (proj1 Hg) (proj2 Hg))
    as (r & sa2 & x & Ea & Eb & Hr). rewrite Gb in Eb. injection Eb as <- <-.
  destruct Hr as (keys & ab & [Hkl Hkw] & -> & ->).
  assert (Ans : answering sa1 p sra sma).
  { split; [exact Ca|]. split; [exact Oa|]. split; [constructor|]. split; [exact Na|]. split; [exact La|].
    exists (commit_scalar sb), (commit_element sb), (pneg (pmul p smb)). split; [done|].
    split; [split; [apply Pb|by eapply committed_scalar_lt]|]. split; [done|]. split; [apply Pb|apply Cb]. }
  destruct (confirmed_by_other sa1 sb1 keys ab) as (f & sa3 & sb3 & m & sb4 & sa4 & Ef & Hkeep & E1 & E2 & E3 & E4);
    try done; [apply Pa|apply Pb|].
  assert (Eans : sae_answer sa1 = Val (Complete sa3 ca f [])).
  { unfold sae_answer. rewrite Ea. assert (is_reflection sa1 = false) as ->.
    { unfold is_reflection. rewrite bool_decide_eq_false_2; [done|]. intros [= E]. by apply Hne. }
    cbn [rbind]. change (write_commit (Sae.keyed sa1 keys ab)) with (write_commit sa). rewrite Wa, Ef. done. }
  exists sa3, f. split; [done|]. split; [exact Rsa|]. split; [exact Ep|]. split; [exact Eans|].
  destruct (sae_answer_spec sa1 p sra sma Ans (proj1 Pa)) as (o & Eo & Hok). rewrite Eans in Eo. injection Eo as <-.
  split; [split; apply Hok|]. destruct Hkeep as [Hk1 Hk2]. split; [by rewrite Hk1|]. split; [by rewrite Hk2|].
  by exists sb3, m, sb4, sa4.
Qed.

Lemma prepared_rejected s0 s rand mask :
  prepare_commit s0 rand mask = Val s -> own_rejected_groups s = own_rejected_groups s0.
Proof.
  unfold prepare_commit. intros (r & _ & E)%rbind_val_inv. apply rbind_val_inv in E as (m & _ & E).
  apply rbind_val_inv in E as (p & _ & E). apply rbind_val_inv in E as (q & _ & E).
  apply rbind_val_inv in E as (e & _ & E). by injection E as <-.
Qed.

Lemma new_h2e_rejected ssid password a b s : new_h2e ssid password None a b = Val s -> own_rejected_groups s = None.
Proof.
  unfold new_h2e. intros (pt & _ & E)%rbind_val_inv. apply rbind_val_inv in E as (q & _ & E). by injection E as <-.
Qed.

(** A commit without rejected groups is its core, and names group 19. *)
Lemma write_commit_shape s b : write_commit s = Val b -> own_rejected_groups s = None ->
  length b = SAE_COMMIT_LEN /\ get_range b 0 2 = Some (le_bytes 2 SAE_GROUP_19) /\ wf_bytes b.
Proof.
  unfold write_commit. intros (e & Ee & E)%rbind_val_inv Ho. rewrite Ho in E. injection E as <-.
  destruct (commit_element s) as [|x y]; [done|]. cbn in Ee. injection Ee as <-. cbn [rejected_groups_element].
  unfold scalar_to_bin, scalar_pad. split; [rewrite !length_app, !length_le_bytes, !length_be_bytes; done|].
  split; [|auto 10 with bytes]. unfold get_range. rewrite length_app, length_le_bytes. cbn [Nat.leb Nat.add andb].
  f_equal; by vm_compute.
Qed.

Lemma plain_commit_token b : length b = SAE_COMMIT_LEN -> sae_commit_token b true = Val (Some (b, None)).
Proof.
  intros Hl. unfold sae_commit_token. rewrite Hl. rewrite (proj2 (Nat.ltb_ge _ _)) by done. cbn [negb].
  rewrite slice_ok by lia. cbn [rbind]. rewrite sub_all by done. cbn [loop]. unfold commit_token_step at 1.
  by rewrite Hl, (proj2 (Nat.ltb_ge _ _)).
Qed.

(** What the commit of an honest station asks for. *)
Definition honest_job (id : Z) (ssid password mac sta cb : bytes) : SaeCommitJob :=
  {| job_id := id; job_sta := sta; job_h2e := true; job_ssid := ssid; job_password := password; job_sae_ap := mac;
     job_sae_sta := sta; job_peer_mld := None; job_commit_payload := cb |}.

(** A commit that is let through, of a station that is not a multi-link device. *)
Lemma honest_commit_started fuel now ap out sta password cb :
  sae_peer_mld sta cb ap = Val None -> sae_password_for ap sta None = Some password ->
  sta ∉ unfinished ap -> (incomplete_sae_count ap < SAE_ANTI_CLOGGING_THRESHOLD)%nat ->
  length cb = SAE_COMMIT_LEN -> get_range cb 0 2 = Some (le_bytes 2 SAE_GROUP_19) ->
  let job := honest_job 0 (ap_ssid ap) password (sae_ap_identity None ap) sta cb in
  handle_sae_auth fuel now sta 1 STATUS_SAE_H2E cb ap out =
    match ap_async_sae ap with
    | Some _ => queue_sae_commit now job ap out
    | None =>
        let! '(result, draws) := compute_sae_commit fuel job (ap_draws ap) in
        finish_sae_commit now result None (ap <| ap_draws := draws |>) out
    end.
Proof.
  intros Hm Hpw Hnew Hcount Hl Hg.
  unfold handle_sae_auth. cbn [Z.eqb Pos.eqb andb negb orb]. change (STATUS_SAE_H2E =? STATUS_SUCCESS) with false.
  change (STATUS_SAE_H2E =? STATUS_SAE_H2E) with true. cbn [negb orb]. rewrite Hg.
  change (le_val (le_bytes 2 SAE_GROUP_19) =? SAE_GROUP_19) with true. cbn [negb].
  unfold handle_sae_commit. rewrite plain_commit_token by done. cbn [rbind].
  assert (Hex : existing_exchange sta ap = false).
  { destruct (existing_exchange sta ap) eqn:E; [|done]. by apply existing_unfinished in E. }
  pose proof Hex as Hex'. unfold existing_exchange in Hex'. apply orb_false_iff in Hex' as [Hu Hp%bool_decide_eq_false].
  assert (Hp' : sae_pending ap !! sta = None) by (by apply eq_None_not_Some).
  assert (Hq : already_queued sta cb ap = false) by (unfold already_queued; by rewrite Hp').
  assert (Hc : cached_answer sta cb ap = None).
  { unfold cached_answer. destruct (ap_stations ap !! sta) as [s|]; [|done]. by rewrite Hu. }
  rewrite Hq, Hc, Hex. cbn [negb andb orb]. unfold SAE_ANTI_CLOGGING_THRESHOLD, SAE_INCOMPLETE_MAX in *.
  rewrite (proj2 (Nat.leb_gt _ _)), (proj2 (Nat.leb_gt _ _)) by lia. cbn [andb].
  rewrite (bool_decide_eq_false_2 _ Hp).
  unfold start_sae_commit, exchange_job. rewrite Hm. cbn [rbind option_map from_option id default]. by rewrite Hpw.
Qed.

Lemma honest_computed fuel id ssid password mac sta ra ma ca cb d0 d1 d2 :
  loop fuel owe_private_step d0 = Val (ra, d1) -> loop fuel owe_private_step d1 = Val (ma, d2) ->
  forall sa0 sa0' sa1 sa3 confirm,
    new_h2e ssid password None mac sta = Val sa0 -> parse_peer_commit sa0 cb = Val (Ok tt, sa0') ->
    prepare_commit sa0' ra ma = Val sa1 -> sae_answer sa1 = Val (Complete sa3 ca confirm []) ->
    let job := honest_job id ssid password mac sta cb in
    compute_sae_commit fuel job d0 = Val (sae_result job (Complete sa3 ca confirm []), d2).
Proof.
  intros L1 L2 sa0 sa0' sa1 sa3 confirm E0 E1 E2 E3. unfold compute_sae_commit, sae_start, honest_job.
  cbn [job_h2e job_ssid job_password job_sae_ap job_sae_sta job_commit_payload].
  rewrite E0. cbn [rmap rbind]. rewrite E1. cbn [rbind]. rewrite L1. cbn [rbind]. rewrite L2. cbn [rbind].
  rewrite E2. cbn [rbind]. by rewrite E3.
Qed.

(** A worker with nothing to do. *)
Definition idle (w : AsyncSae) : Prop :=
  as_alive w = true /\ as_jobs w = [] /\ as_working w = None /\ as_results w = [].

(** From the commit to the answer: the access point computes it at once, or its
    worker does, and the answer leaves at the next poll. *)
Definition commit_handling (t0 t1 : Z) (sta cb : bytes) (draws : N) (ap : Ap) : list (Z * sae_event) :=
  (t0, SaeFrame sta 1 STATUS_SAE_H2E cb) ::
  match ap_async_sae ap with
  | Some _ => [(t0, WorkerTakes); (t0, WorkerAnswers draws); (t1, Polled)]
  | None => []
  end.

(** Where the two secrets of the answer come from. *)
Definition secret_draws (draws : N) (ap : Ap) : N :=
  match ap_async_sae ap with Some _ => draws | None => ap_draws ap end.

(** A poll that finds one result, of the exchange that is pending. *)
Lemma poll_one now ap out w r p ap1 out1 :
  ap_async_sae ap = Some w -> as_alive w = true -> as_results w = [r] ->
  pending_matches (w <| as_results := [] |>) r = Some p -> ps_confirm p = None ->
  let w' := w <| as_results := [] |> <| as_pending := delete (res_sta r) (as_pending w) |> in
  finish_sae_commit now r None (ap <| ap_async_sae := Some w' |>) out = Val (ap1, out1) -> ap_async_sae ap1 = Some w' ->
  poll_sae_work now ap out = Val (ap1, out1).
Proof.
  intros Ew Hl Er Ep Ec w' Ef Ea. unfold poll_sae_work. rewrite Ew, Er. cbn [length loop].
  unfold poll_step at 1. rewrite Ew, Er, Ep, Ec.
  change (as_pending (w <| as_results := [] |>)) with (as_pending w). fold w'. rewrite Ef. cbn [rmap rbind loop].
  unfold poll_step at 1. rewrite Ea. change (as_results w') with (@nil SaeCommitResult).
  change (as_alive w') with (as_alive w). by rewrite Hl.
Qed.

Lemma confirm_frame_handled fuel now ap out sta m sae v sae' s :
  sae_inv ap -> sae_pending ap !! sta = None -> ap_stations ap !! sta = Some s -> st_sae s = Some sae ->
  check_confirm sae m = Val (v, sae') ->
  exists ap', handle_sae_auth fuel now sta 2 STATUS_SUCCESS m ap out = Val (ap', out) /\ sae_inv ap' /\
    sae_pending ap' !! sta = None /\
    match v with
    | Ok _ => ap_stations ap' = alter (sae_accepted sae') sta (ap_stations ap) /\
        ap_pmksa_cache ap' !! (sae_pmkid sae, default sta (st_client_mld_mac s))
          = Some (sae_pmksa now (default sta (st_client_mld_mac s)) sae)
    | Err _ => ap_stations ap' = ap_stations ap
    end.
Proof.
  intros I Ha Es Esae Ec. unfold handle_sae_auth. cbn [Z.eqb Pos.eqb andb].
  rewrite Ha.
  destruct (confirm_moves now sta m ap I) as (ap' & E & M & _ & Ha').
  destruct (finish_sae_confirm_spec now sta m ap (si_ap _ I) (si_admit _ I) (si_states _ I)) as (f & x & Ex & K & _ & Hf).
  rewrite E in Ex. injection Ex as <-. rewrite E. cbn [rbind]. exists ap'. split; [done|]. split; [apply M|].
  split; [unfold sae_pending in *; by rewrite Ha'|].
  rewrite Es in Hf. cbn [mbind option_bind] in Hf. rewrite Esae in Hf. destruct Hf as (v1 & sae1 & Ec1 & _ & Hv).
  rewrite Ec in Ec1. injection Ec1 as <- <-. destruct K as ((_ & _ & Em) & _). destruct v.
  - destruct Hv as (-> & _ & Hc). split; [done|exact Hc].
  - destruct Hv as [-> ->]. rewrite Em. apply fin_maps.alter_id. intros s0 Hs0. rewrite Es in Hs0. injection Hs0 as <-.
    unfold sae_stored. destruct s. by cbn in *; subst.
Qed.

Lemma committed_accepted now sae sae' h2e resp commit s :
  let s' := sae_accepted sae' (sae_committed now sae h2e None resp commit s) in
  st_sae_confirmed s' = true /\ st_pmk s' = Some (sae_pmk sae) /\ st_pmf s' = true /\ st_sae s' = Some sae' /\
  st_client_mld_mac s' = st_client_mld_mac s.
Proof. done. Qed.

(** The answer to the commit of an honest station, and the record it leaves. *)
Lemma honest_answered now id ap0 out sta mac password ssid ra ma sa sb ca cb sb2 sa3 confirm :
  sae_inv ap0 -> arr 6 sta -> honest ssid password mac sta ra ma sa sb ca cb sb2 ->
  sae_ready sa3 -> wf_bytes confirm ->
  exists sc1 sc2 ap1 s1,
    finish_sae_commit now (sae_result (honest_job id ssid password mac sta cb) (Complete sa3 ca confirm [])) None ap0 out =
      Val (ap1, out_tx (build_sae_auth sta (ap_mac ap0) (ap_mac ap0) 0 sc2 2 STATUS_SUCCESS confirm)
                 (out_tx (build_sae_auth sta (ap_mac ap0) (ap_mac ap0) 0 sc1 1 STATUS_SAE_H2E ca) out)) /\
    sae_inv ap1 /\ ap_async_sae ap1 = ap_async_sae ap0 /\ ap_stations ap1 !! sta = Some s1 /\ st_sae s1 = Some sa3 /\
    st_pmk s1 = Some (sae_pmk sa3) /\ st_pmf s1 = true /\
    default sta (st_client_mld_mac s1) = default sta (ap_stations ap0 !! sta ≫= st_client_mld_mac).
Proof.
  intros I Hsta Ho R Hcw. set (r := sae_result _ _). assert (Hr : result_ok r).
  { split; [done|]. split; [done|]. destruct (ho_commits _ _ _ _ _ _ _ _ _ _ _ Ho) as [Wa _].
    destruct (ho_ap _ _ _ _ _ _ _ _ _ _ _ Ho) as (x & Hx & Hp). split; [done|]. split; [|exact Hcw].
    apply (write_commit_shape sa ca Wa). rewrite (prepared_rejected _ _ _ _ Hp). by eapply new_h2e_rejected. }
  destruct (finish_sae_commit_spec now r ap0 out sa3 ca confirm [] (si_ap _ I) (si_admit _ I) Hr eq_refl)
    as (gtk & igtk & sc1 & sc2 & ml & ap1 & E & K & Ha & _ & Hml). cbn zeta in E, K. rewrite (Hml eq_refl) in E, K.
  destruct (commit_moves now r None ap0 out I Hr) as (ap1' & out1' & E' & M1 & _). rewrite E in E'. injection E' as <- <-.
  unfold answer_frames in E. rewrite !app_nil_r in E. cbn [foldl] in E.
  destruct K as ((_ & _ & Es1) & _). set (s := default (station_new sta now gtk igtk) (ap_stations ap0 !! sta)).
  exists sc1, sc2, ap1. eexists. split; [exact E|]. split; [apply M1|]. split; [exact Ha|].
  split; [rewrite Es1; cbn [res_sta r sae_result honest_job job_sta]; by rewrite lookup_alter_eq, entered_lookup|].
  split; [done|]. split; [done|]. split; [done|]. fold s. clear. unfold s. by destruct (ap_stations ap0 !! sta).
Qed.

(** The four events that take a commit through an idle worker. *)
Lemma honest_commit_worked fuel t0 t1 draws ap out sta password ra ma sa sb ca cb sb2 d1 d2 w sa0 sa0' sa1 sa3 confirm :
  sae_inv ap -> ap_async_sae ap = Some w -> idle w -> arr 6 sta ->
  sae_peer_mld sta cb ap = Val None -> sae_password_for ap sta None = Some password ->
  sta ∉ unfinished ap -> (incomplete_sae_count ap < SAE_ANTI_CLOGGING_THRESHOLD)%nat ->
  loop fuel owe_private_step draws = Val (ra, d1) -> loop fuel owe_private_step d1 = Val (ma, d2) ->
  honest (ap_ssid ap) password (sae_ap_identity None ap) sta ra ma sa sb ca cb sb2 ->
  length cb = SAE_COMMIT_LEN -> get_range cb 0 2 = Some (le_bytes 2 SAE_GROUP_19) -> wf_bytes cb ->
  new_h2e (ap_ssid ap) password None (sae_ap_identity None ap) sta = Val sa0 ->
  parse_peer_commit sa0 cb = Val (Ok tt, sa0') -> prepare_commit sa0' ra ma = Val sa1 ->
  sae_answer sa1 = Val (Complete sa3 ca confirm []) -> sae_ready sa3 -> wf_bytes confirm ->
  exists id ap0, sae_inv ap0 /\ ap_stations ap0 = ap_stations ap /\ ap_mac ap0 = ap_mac ap /\
    sae_pending ap0 !! sta = None /\
    forall ap1 out1, ap_async_sae ap1 = ap_async_sae ap0 ->
      finish_sae_commit t1 (sae_result (honest_job id (ap_ssid ap) password (sae_ap_identity None ap) sta cb)
        (Complete sa3 ca confirm [])) None ap0 out = Val (ap1, out1) ->
      sae_run fuel ((t0, SaeFrame sta 1 STATUS_SAE_H2E cb) :: [(t0, WorkerTakes); (t0, WorkerAnswers draws); (t1, Polled)]) ap out
        = Val (ap1, out1).
Proof.
  intros I Ew (Hal & Hj & Hwk & Hres) Hsta Hm Hpw Hnew Hcount L1 L2 Ho Hl Hg Hcb E0 E1 E2 E3 R Hcw.
  pose proof (honest_commit_started fuel t0 ap out sta password cb Hm Hpw Hnew Hcount Hl Hg) as Eq. cbn zeta in Eq.
  rewrite Ew in Eq. set (id := as_next_id w).
  set (job := honest_job id (ap_ssid ap) password (sae_ap_identity None ap) sta cb).
  set (pend := {| ps_id := id; ps_commit_payload := cb; ps_queued_at := t0; ps_confirm := None |}).
  set (r := sae_result job (Complete sa3 ca confirm [])).
  set (w1 := w <| as_next_id := Z.max 1 (u64 (id + 1)) |> <| as_jobs := [job] |> <| as_pending := <[sta := pend]> (as_pending w) |>).
  set (apq := schedule_maintenance (t0 + SAE_AUTH_TIMEOUT) (ap <| ap_async_sae := Some w1 |>)).
  assert (Eq1 : handle_sae_auth fuel t0 sta 1 STATUS_SAE_H2E cb ap out = Val (apq, out)).
  { rewrite Eq. unfold queue_sae_commit. rewrite Ew. cbn [expect rbind].
    change (as_alive (w <| as_next_id := _ |>)) with (as_alive w). rewrite Hal. cbn [negb].
    change (as_jobs (w <| as_next_id := _ |>)) with (as_jobs w). rewrite Hj. reflexivity. }
  assert (Jq : queued_ok (honest_job 0 (ap_ssid ap) password (sae_ap_identity None ap) sta cb)).
  { destruct (ho_wf _ _ _ _ _ _ _ _ _ _ _ Ho) as (Hss & Hp & _). split; [|by split].
    split; [done|]. split; [done|]. split; [apply sae_ap_identity_arr, I|]. by split. }
  destruct (queue_moves t0 _ ap out w I Jq Ew) as (x & o & Ex & Mq & _). rewrite <- Eq, Eq1 in Ex. injection Ex as <- <-.
  assert (Aq : ap_async_sae apq = Some w1) by (unfold apq; by rewrite schedule_async).
  set (w2 := w1 <| as_jobs := [] |> <| as_results := [r] |>).
  set (ap3 := apq <| ap_async_sae := Some w2 |>).
  assert (Et : upd_worker (worker_answer fuel draws) (upd_worker worker_take apq) = ap3).
  { assert (Hw : worker_answer fuel draws (worker_take w1) = w2).
    { unfold worker_take. change (as_working w1) with (as_working w). change (as_alive w1) with (as_alive w).
      rewrite Hwk, Hal. change (as_jobs w1) with [job]. cbn iota. unfold worker_answer.
      change (as_working (w1 <| as_working := Some job |> <| as_jobs := [] |>)) with (Some job). cbn iota.
      unfold job. rewrite (honest_computed fuel id (ap_ssid ap) password _ sta ra ma ca cb draws d1 d2 L1 L2 sa0 sa0' sa1 sa3 confirm E0 E1 E2 E3).
      change (as_results (w1 <| as_working := Some _ |> <| as_jobs := [] |>)) with (as_results w). rewrite Hres.
      unfold w2, w1, r, job. clear -Hwk. destruct w. cbn in Hwk. subst. reflexivity. }
    unfold upd_worker. rewrite Aq. unfold ap3. rewrite <- Hw. destruct apq. reflexivity. }
  set (w4 := w2 <| as_results := [] |> <| as_pending := delete sta (as_pending w2) |>).
  exists id, (ap3 <| ap_async_sae := Some w4 |>).
  assert (Hs3 : ap_stations apq = ap_stations ap /\ ap_mac apq = ap_mac ap)
    by (unfold apq, schedule_maintenance; by repeat case_match).
  split; [|split; [apply Hs3|split; [apply Hs3|split; [unfold sae_pending; fields; apply lookup_delete_eq|]]]].
  { change (sae_inv (apq <| ap_async_sae := Some w4 |>)). apply (async_moves (Some w4) apq (sm_inv _ _ Mq)).
    split; [constructor|]. split; [|constructor]. change (as_working w4) with (as_working w). by rewrite Hwk. }
  intros ap1 out1 Ha1 Ef. cbn [sae_run sae_event_step]. rewrite Eq1. cbn [rbind]. rewrite Et.
  erewrite (poll_one t1 ap3 out w2 r pend ap1 out1); [done|done|exact Hal|done| |done|exact Ef|exact Ha1].
  unfold pending_matches. change (as_pending (w2 <| as_results := [] |>)) with (as_pending w1). unfold w1. fields.
  change (res_sta r) with sta. rewrite lookup_insert_eq. cbn [ps_id ps_commit_payload pend]. rewrite Z.eqb_refl.
  change (res_commit_payload r) with cb. by rewrite beq_refl.
Qed.

(** C27: SAE authentication with hash-to-element completes, with the worker the
    production set-up starts and without it. A station that knows the password,
    is not a multi-link device (the access point may be one) and is not busy
    with another exchange sends its commit, below the anti-clogging threshold;
    both commits can be read (a finite element, a scalar above one) and differ.
    Without a worker the access point answers at once with its commit and its
    confirm; with an idle worker it queues the commit, the worker takes it and
    computes the same answer from its own secrets, and the answer leaves at the
    next poll. If the station accepts the commit, it also accepts the confirm,
    and the access point accepts the station's: the record is confirmed,
    management frames are protected, its PMK is the station's, and the PMKSA
    cache holds that key under the station's PMKID. The same confirm sent again
    changes no record. *)
Theorem sae_authentication_completes fuel t0 t1 t2 t3 draws ap out sta password ra ma sa sb ca cb sb2 d1 d2 :
  sae_inv ap -> (forall w, ap_async_sae ap = Some w -> idle w) -> arr 6 sta ->
  sae_peer_mld sta cb ap = Val None -> sae_password_for ap sta None = Some password ->
  sta ∉ unfinished ap -> (incomplete_sae_count ap < SAE_ANTI_CLOGGING_THRESHOLD)%nat ->
  loop fuel owe_private_step (secret_draws draws ap) = Val (ra, d1) -> loop fuel owe_private_step d1 = Val (ma, d2) ->
  honest (ap_ssid ap) password (sae_ap_identity None ap) sta ra ma sa sb ca cb sb2 ->
  exists confirm sc1 sc2 ap1 sb3 m sb4 ap2 s2 ap3,
    let out1 := out_tx (build_sae_auth sta (ap_mac ap) (ap_mac ap) 0 sc2 2 STATUS_SUCCESS confirm)
                 (out_tx (build_sae_auth sta (ap_mac ap) (ap_mac ap) 0 sc1 1 STATUS_SAE_H2E ca) out) in
    let identity := default sta (ap_stations ap !! sta ≫= st_client_mld_mac) in
    sae_run fuel (commit_handling t0 t1 sta cb draws ap) ap out = Val (ap1, out1) /\
    check_confirm sb2 confirm = Val (Ok tt, sb3) /\ write_confirm sb3 = Val (Ok m, sb4) /\
    handle_sae_auth fuel t2 sta 2 STATUS_SUCCESS m ap1 out1 = Val (ap2, out1) /\
    ap_stations ap2 !! sta = Some s2 /\ st_sae_confirmed s2 = true /\ st_pmk s2 = Some (sae_pmk sb2) /\
    st_pmf s2 = true /\
    ap_pmksa_cache ap2 !! (sae_pmkid sb2, identity) = Some (sae_pmksa t2 identity sb2) /\
    handle_sae_auth fuel t3 sta 2 STATUS_SUCCESS m ap2 out1 = Val (ap3, out1) /\ ap_stations ap3 = ap_stations ap2.
Proof.
  intros I Hidle Hsta Hm Hpw Hnew Hcount L1 L2 Ho.
  destruct (honest_exchange _ _ _ _ _ _ _ _ _ _ _ Ho) as (sa0 & sa0' & sa1 & sa3 & confirm & E0 & E1 & E2 & E3 & [R Hcw] & Ek & Ei
    & sb3 & m & sb4 & sa4 & C1 & C2 & C3 & C4).
  assert (Hshape : length cb = SAE_COMMIT_LEN /\ get_range cb 0 2 = Some (le_bytes 2 SAE_GROUP_19) /\ wf_bytes cb).
  { destruct (ho_sta _ _ _ _ _ _ _ _ _ _ _ Ho) as (sb0 & rb & mb & Hb0 & Hb). apply (write_commit_shape sb); [apply Ho|].
    rewrite (prepared_rejected _ _ _ _ Hb). by eapply new_h2e_rejected. }
  destruct Hshape as (Hl & Hg & Hcb).
  assert (Hrun : exists id t ap0, sae_inv ap0 /\ ap_stations ap0 = ap_stations ap /\ ap_mac ap0 = ap_mac ap /\
    sae_pending ap0 !! sta = None /\ forall ap1 out1, ap_async_sae ap1 = ap_async_sae ap0 ->
      finish_sae_commit t (sae_result (honest_job id (ap_ssid ap) password (sae_ap_identity None ap) sta cb)
        (Complete sa3 ca confirm [])) None ap0 out = Val (ap1, out1) ->
      sae_run fuel (commit_handling t0 t1 sta cb draws ap) ap out = Val (ap1, out1)).
  { unfold commit_handling, secret_draws in *. destruct (ap_async_sae ap) as [w|] eqn:Ew.
    - destruct (honest_commit_worked fuel t0 t1 draws ap out sta password ra ma sa sb ca cb sb2 d1 d2 w sa0 sa0' sa1 sa3 confirm)
        as (id & ap0 & Hall); try done; [by apply Hidle|]. by exists id, t1, ap0.
    - exists 0, t0, (ap <| ap_draws := d2 |>). pose proof (carries_draws d2 ap (si_ap _ I) (si_admit _ I)) as K0.
      split; [apply (sae_moves_id ap); [done|done|apply I]|]. split; [done|]. split; [done|].
      split; [unfold sae_pending; fields; by rewrite Ew|]. intros ap1 out1 _ Ef. cbn [sae_run sae_event_step].
      rewrite (honest_commit_started fuel t0 ap out sta password cb Hm Hpw Hnew Hcount Hl Hg), Ew.
      rewrite (honest_computed fuel 0 (ap_ssid ap) password _ sta ra ma ca cb _ d1 d2 L1 L2 sa0 sa0' sa1 sa3 confirm E0 E1 E2 E3).
      cbn [rbind]. by rewrite Ef. }
  destruct Hrun as (id & t & ap0 & I0 & Es0 & Em0 & Hp0 & Hrun).
  destruct (honest_answered t id ap0 out sta _ _ _ ra ma sa sb ca cb sb2 sa3 confirm I0 Hsta Ho R Hcw)
    as (sc1 & sc2 & ap1 & s1 & Ef & I1 & Ha1 & Hs1 & Hsae & F2 & F3 & Hid). rewrite Em0 in Ef. rewrite Es0 in Hid.
  specialize (Hrun _ _ Ha1 Ef). assert (Hp1 : sae_pending ap1 !! sta = None) by (unfold sae_pending in *; by rewrite Ha1).
  set (out1 := out_tx _ _) in Hrun.
  destruct (confirm_frame_handled fuel t2 ap1 out1 sta m sa3 (Ok tt) sa4 s1) as (ap2 & Ec & I2 & Hp2 & Es2 & Hc); [done..|].
  assert (Hs2 : ap_stations ap2 !! sta = Some (sae_accepted sa4 s1)) by (by rewrite Es2, lookup_alter_eq, Hs1).
  destruct (confirm_frame_handled fuel t3 ap2 out1 sta m sa4 (Err ReplayedConfirm) sa4 (sae_accepted sa4 s1))
    as (ap3 & Ec3 & _ & _ & Es3); [done..|].
  exists confirm, sc1, sc2, ap1, sb3, m, sb4, ap2, (sae_accepted sa4 s1), ap3. cbn zeta. fold out1.
  split; [exact Hrun|]. split; [exact C1|]. split; [exact C2|]. split; [exact Ec|].
  split; [exact Hs2|]. split; [done|]. split; [by rewrite <- Ek|]. split; [exact F3|].
  split; [|split; [exact Ec3|exact Es3]]. rewrite Hid, Ei in Hc. rewrite Hc. unfold sae_pmksa. by rewrite Ek.
Qed.
End Honest.

(** * Authentication frames *)

Section Authentication.
Context `{Entropy} `{!EntropyOk _} `{HashOrder} `{!HashOrderOk _}.
Context {P : Primitives} {Pok : PrimitivesOk P} {C : P256} {Cok : P256Ok C}.

Lemma carries_auth_rate sta now ap :
  ap_ok ap -> admit_ok ap -> let ap1 := (allow_auth_request sta now ap).2 in
  carries id ap ap1 /\ ap_stations ap1 = ap_stations ap /\ ap_events ap1 = ap_events ap.
Proof.
  intros Hok A. pose proof (ad_rates _ A) as Hsz.
  destruct (rate_request_spec true sta now ap Hsz) as (rates & Hr & Hreq). unfold rate_request in Hreq.
  assert (Hrs : (size rates <= REQUEST_RATE_ENTRY_MAX)%nat).
  { destruct Hr as [->|[_ ->]]; [done|]. etrans; [apply map_size_filter|done]. }
  destruct Hreq as [[-> _]|(r & _ & -> & Hrn)]; cbn [snd]; (split; [by apply carries_rates|done]).
Qed.

Lemma retire_session_ok now gtk s : arr 16 gtk -> station_ok s -> station_ok (retire_session now gtk s).
Proof.
  intros Hg Hs. unfold retire_session. destruct Hs. constructor; fields; try assumption; try exact I;
    try (by apply (bool_decide_unpack _)); try done; try (by constructor).
Qed.

(** What an open authentication makes of the record. *)
Definition restarted (now : Z) (s s' : Station) : Prop :=
  if auth_retransmit now s then s' = s
  else if mid_handshake s then s' = s <| st_last_auth := Some now |>
  else exists gtk, arr 16 gtk /\ s' = retire_session now gtk s.

(** A session that ends with the restart is reported. *)
Definition restart_events (now : Z) (sta : bytes) (s : Station) : list ApEvent :=
  if auth_retransmit now s || mid_handshake s || negb (st_associated s) then []
  else [Disconnected (default sta (st_client_mld_mac s)) 0].

(** Ending an associated session may leave a group rekey due. *)
Definition restart_report (restarted : option bytes) (ap : Ap) : Ap :=
  match restarted with
  | Some mac =>
      let ap := push_event (Disconnected mac 0) ap in
      if ap_strict_rekey ap && any_station st_associated ap then ap <| ap_group_rekey_due := true |> else ap
  | None => ap
  end.

Lemma carries_report r ap : ap_ok ap -> admit_ok ap -> carries id ap (restart_report r ap).
Proof.
  intros Hok A. destruct r as [mac|]; [|by apply carries_refl]. cbn [restart_report].
  set (b := _ && _). clearbody b.
  destruct b; (apply carries_same; [split; [unfold push_event; keep_ap_ok Hok|done]|done..]).
Qed.

Lemma report_events r ap :
  ap_events (restart_report r ap) = ap_events ap ++ match r with Some mac => [Disconnected mac 0] | None => [] end.
Proof. destruct r; cbn [restart_report]; [|by rewrite app_nil_r]. destruct (_ && _); done. Qed.

Lemma upd_station_insert sta f ap s : ap_stations ap !! sta = Some s ->
  ap_stations (upd_station sta f ap) = <[sta := f s]> (ap_stations ap).
Proof. intros Es. unfold upd_station. fields. apply map_eq. intros k. destruct (decide (k = sta)) as [->|Hk];
    [by rewrite lookup_alter_eq, lookup_insert_eq, Es|by rewrite lookup_alter_ne, lookup_insert_ne]. Qed.

Lemma restart_session_spec now sta s ap :
  ap_ok ap -> admit_ok ap -> ap_stations ap !! sta = Some s ->
  let r := restart_session now sta s ap in
  exists s', restarted now s s' /\ ap_ok r.2 /\ admit_ok r.2 /\ fixed r.2 = fixed ap /\
    ap_stations r.2 = <[sta := s']> (ap_stations ap) /\ ap_events r.2 = ap_events ap /\
    match r.1 with Some mac => [Disconnected mac 0] | None => [] end = restart_events now sta s.
Proof.
  intros Hok A Hs. unfold restart_session, restarted, restart_events. destruct (auth_retransmit now s).
  { exists s. split_and!; try done. cbn [snd]. by rewrite insert_id. }
  destruct (mid_handshake s).
  { destruct (carries_upd sta (fun s => s <| st_last_auth := Some now |>) ap Hok A) as ((H1 & _ & H3) & F & A'); [intros t Ht; keep_station_ok Ht|].
    eexists. split; [done|]. cbn [fst snd]. split; [done|]. split; [done|]. split; [done|]. split; [|done].
    by apply upd_station_insert. }
  cbn [orb]. unfold random_bytes. set (gtk := os_random (ap_draws ap) 16). cbn [fst snd].
  assert (Hg : arr 16 gtk) by apply os_random_arr.
  pose proof (carries_draws (ap_draws ap + 1) ap Hok A) as ((Hok1 & _) & F1 & A1).
  set (ap1 := ap <| ap_draws := _ |>) in *.
  assert (Es : ap_stations ap1 !! sta = Some s) by exact Hs.
  destruct (carries_upd sta (retire_session now gtk) ap1 Hok1 A1) as ((H1 & _ & H3) & F & A'); [intros; by apply retire_session_ok|].
  exists (retire_session now gtk s). split; [by exists gtk|]. split; [done|]. split; [done|]. split; [congruence|].
  split; [by apply (upd_station_insert sta _ ap1)|]. split; [done|]. by destruct (st_associated s).
Qed.

(** An answer to an open authentication is the first frame of a fresh sequence. *)
Lemma open_auth_spec now sta ap out :
  ap_ok ap -> admit_ok ap -> arr 6 sta ->
  exists s s' ap', open_auth now sta ap out = Val (ap', out_tx (build_auth (ap_mac ap) sta 0) out) /\
    starts_from now ap sta s /\ restarted now s s' /\ ap_ok ap' /\ admit_ok ap' /\ fixed ap' = fixed ap /\
    ap_stations ap' = <[sta := s']> (ap_stations ap) /\ ap_events ap' = ap_events ap ++ restart_events now sta s.
Proof.
  intros Hok A Hsta. destruct (station_entry_spec now sta ap Hok A Hsta) as (gtk & igtk & _ & _ & ((Hok1 & _ & E1) & F1 & A1) & _).
  assert (Ev1 : ap_events (station_entry now sta ap) = ap_events ap).
  { unfold station_entry, random_bytes. by destruct (ap_stations ap !! sta). }
  unfold open_auth. set (ap1 := station_entry now sta ap) in *. clearbody ap1.
  set (s := default (station_new sta now gtk igtk) (ap_stations ap !! sta)).
  assert (Es : ap_stations ap1 !! sta = Some s) by (rewrite E1; apply entered_lookup).
  rewrite Es. cbn [expect rbind].
  destruct (restart_session_spec now sta s ap1 Hok1 A1 Es) as (s' & Hr & Hok2 & A2 & F2 & E2 & Ev2 & Hev).
  destruct (restart_session now sta s ap1) as [r ap2]. cbn [fst snd] in *.
  change (match r with Some mac => _ | None => ap2 end) with (restart_report r ap2).
  pose proof (report_events r ap2) as Ev3. pose proof (carries_report r ap2 Hok2 A2) as ((Hok3 & _ & E3) & F3 & A3).
  set (ap3 := restart_report r ap2) in *. clearbody ap3. unfold id in E3. cbn [next_sc].
  set (ap4 := ap3 <| ap_sc := -1 |> <| ap_sc := _ |>).
  assert (K : carries id ap3 ap4) by (apply carries_same; try done; split; [unfold ap4; keep_ap_ok Hok3|done]).
  destruct K as ((Hok4 & _ & E4) & F4 & A4). exists s, s', ap4.
  assert (Em : ap_mac ap4 = ap_mac ap) by (destruct (fixed_link ap ap4) as (_ & _ & _ & Em & _); [congruence|done]).
  split; [unfold next_sc; fold ap4; rewrite Em; reflexivity|]. split; [apply starts_from_entered|].
  split; [done|]. split; [done|]. split; [done|]. split; [congruence|]. split.
  - rewrite E4. unfold id. rewrite E3, E2, E1. unfold entered, s. destruct (ap_stations ap !! sta); [done|]. apply insert_insert_eq.
  - change (ap_events ap4) with (ap_events ap3). by rewrite Ev3, Ev2, Ev1, Hev.
Qed.

(** an open-system Authentication frame that the rate limit lets through and
    that does not come from a station with a protected session is answered with
    success, and restarts the station's session: within the backoff window of
    the previous one the record is left as it was, in the middle of a four-way
    handshake only the time is noted, and otherwise the keys, the replay
    counters, the pending handshake and the association are gone and a fresh
    group key is held, the end of an association being reported.  No other
    station changes. *)
Lemma open_authentication fuel now fr a ap out :
  ap_ok ap -> admit_ok ap -> arr 6 (addr2 fr) -> addr1 fr = ap_mac ap ->
  parse_auth (body fr) = Val (Some a) -> auth_algo a <> AUTH_ALG_SAE ->
  (allow_auth_request (addr2 fr) now ap).1 = true -> pmf_session_protected ap (addr2 fr) = false ->
  exists s s' ap', handle_auth_req fuel now fr ap out = Val (ap', out_tx (build_auth (ap_mac ap) (addr2 fr) 0) out) /\
    starts_from now ap (addr2 fr) s /\ restarted now s s' /\ ap_ok ap' /\ admit_ok ap' /\ fixed ap' = fixed ap /\
    ap_stations ap' = <[addr2 fr := s']> (ap_stations ap) /\
    ap_events ap' = ap_events ap ++ restart_events now (addr2 fr) s.
Proof.
  intros Hok A Hsta Ea Hp Hal Hallow Hpm. unfold handle_auth_req. rewrite (proj2 (beq_true _ _) Ea). cbn [negb].
  rewrite Hp. cbn [rbind]. destruct (carries_auth_rate (addr2 fr) now ap Hok A) as (((Hok1 & _) & F1 & A1) & E1 & Ev1).
  destruct (allow_auth_request (addr2 fr) now ap) as [ok ap1]. cbn [fst snd] in *. rewrite Hallow. cbn [negb].
  assert (Hp1 : pmf_session_protected ap1 (addr2 fr) = false) by (unfold pmf_session_protected in *; by rewrite E1).
  rewrite Hp1, (proj2 (Z.eqb_neq _ _) Hal).
  destruct (open_auth_spec now (addr2 fr) ap1 out Hok1 A1 Hsta) as (s & s' & ap' & E & Hs & Hr & Hok' & A' & F' & E' & Ev').
  assert (Em : ap_mac ap1 = ap_mac ap) by apply (fixed_link ap ap1 F1). rewrite Em in E.
  exists s, s', ap'. split; [done|]. split; [by unfold starts_from in *; rewrite E1 in Hs|]. split; [done|].
  split; [done|]. split; [done|]. split; [congruence|]. split; congruence.
Qed.

(** an Authentication frame that carries the address of a station whose
    session is protected does not disturb that session, whatever algorithm it
    names: the access point holds the key and the association and asks the
    station itself with an SA Query that only it can answer. *)
Lemma authentication_contested fuel now fr a ap out s :
  ap_ok ap -> admit_ok ap -> addr1 fr = ap_mac ap -> parse_auth (body fr) = Val (Some a) ->
  (allow_auth_request (addr2 fr) now ap).1 = true ->
  ap_stations ap !! addr2 fr = Some s -> st_associated s = true -> st_pmf s = true ->
  exists id ap', ap_ok ap' /\ others_kept (addr2 fr) ap ap' /\
    if st_client_pn s <=? MAX_PACKET_NUMBER then
      exists f, handle_auth_req fuel now fr ap out = Val (ap', out_tx f out) /\
        ap_stations ap' !! addr2 fr = Some (challenged id now s) /\
        opens_to ap (addr2 fr) s SUBTYPE_ACTION (sa_query_body false id) f
    else handle_auth_req fuel now fr ap out = Val (ap', out) /\ ap_stations ap' = ap_stations ap.
Proof.
  intros Hok A Ea Hp Hallow Es Has Hpmf. unfold handle_auth_req. rewrite (proj2 (beq_true _ _) Ea). cbn [negb].
  rewrite Hp. cbn [rbind]. destruct (carries_auth_rate (addr2 fr) now ap Hok A) as (((Hok1 & _) & F1 & A1) & E1 & _).
  destruct (allow_auth_request (addr2 fr) now ap) as [ok ap1]. cbn [fst snd] in *. rewrite Hallow. cbn [negb].
  assert (Hp1 : pmf_session_protected ap1 (addr2 fr) = true) by (unfold pmf_session_protected; by rewrite E1, Es, Has, Hpmf).
  rewrite Hp1. rewrite <- E1 in Es. pose proof (sa_query_challenge_spec now (addr2 fr) ap1 out s Hok1 Es Has) as Hch.
  exists (sa_query_id_of ap1 s). destruct (_ <=? _).
  - destruct Hch as (f & ap' & E & (H1 & _ & H3) & _ & Hop). exists ap'. split; [done|].
    split; [intros k Hk; by rewrite H3, lookup_insert_ne, E1|]. exists f. split; [exact E|].
    split; [by rewrite H3, lookup_insert_eq|]. apply (opens_to_fixed ap ap1); [done|by rewrite E1|done].
  - destruct Hch as (ap' & E & (H1 & _ & H3) & _). unfold id in H3. exists ap'. split; [done|].
    split; [intros k Hk; by rewrite H3, E1|]. split; [exact E|]. by rewrite H3.
Qed.

End Authentication.

(** * Witnesses *)

Lemma demo_sae_inv : sae_inv demo_empty.
Proof. constructor; [exact demo_empty_ok|exact demo_admit_ok|by intros ? ? [=]|exact I]. Qed.

Lemma demo_passwords_wf : passwords_wf demo_empty.
Proof.
  intros identity link p E. assert (Hp : Some p = Some demo_psk); [|injection Hp as ->; by apply (bool_decide_unpack _)].
  rewrite <- E. destruct link; reflexivity.
Qed.

(** An exchange with the demo access point, whose secrets are the first it
    draws, and a station with secrets of its own. *)
Definition demo_ra : bytes * N := Eval vm_compute in returned (loop 1 owe_private_step (ap_draws demo_empty)).
Definition demo_ma : bytes * N := Eval vm_compute in returned (loop 1 owe_private_step demo_ra.2).
Definition demo_sae_start (own peer rand mask : bytes) : res Sae :=
  let! s := new_h2e demo_ssid demo_psk None own peer in prepare_commit s rand mask.
Definition demo_sae_ap : Sae := Eval vm_compute in
  returned (demo_sae_start demo_mac demo_sta demo_ra.1 demo_ma.1).
Definition demo_sae_sta : Sae := Eval vm_compute in
  returned (demo_sae_start demo_sta demo_mac (be_bytes 32 4242) (be_bytes 32 99)).
Definition demo_ca : bytes := Eval vm_compute in returned (write_commit demo_sae_ap).
Definition demo_cb : bytes := Eval vm_compute in returned (write_commit demo_sae_sta).
Definition demo_keyed (s : Sae) (commit : bytes) : res Sae :=
  let! '(_, s) := parse_peer_commit s commit in let! '(_, s) := process_commit s in Val s.
Definition demo_sae_sta2 : Sae := Eval vm_compute in returned (demo_keyed demo_sae_sta demo_ca).

Lemma demo_sae_start_split own peer rand mask s : demo_sae_start own peer rand mask = Val s ->
  exists s0, new_h2e demo_ssid demo_psk None own peer = Val s0 /\ prepare_commit s0 rand mask = Val s.
Proof. unfold demo_sae_start. intros (s0 & E & H)%rbind_val_inv. exists s0. split; [exact E|exact H]. Qed.

Lemma demo_honest :
  honest demo_ssid demo_psk demo_mac demo_sta demo_ra.1 demo_ma.1 demo_sae_ap demo_sae_sta demo_ca demo_cb demo_sae_sta2.
Proof.
  constructor.
  - split; [by apply (bool_decide_unpack _)|]. split; [by apply (bool_decide_unpack _)|discriminate].
  - apply demo_sae_start_split. vm_compute. reflexivity.
  - destruct (demo_sae_start_split demo_sta demo_mac (be_bytes 32 4242) (be_bytes 32 99) demo_sae_sta) as (s0 & E0 & E1);
      [vm_compute; reflexivity|]. exists s0, (be_bytes 32 4242), (be_bytes 32 99). split; [exact E0|exact E1].
  - split; (split; [discriminate|vm_compute; reflexivity]).
  - vm_compute. discriminate.
  - split; vm_compute; reflexivity.
  - assert (E : demo_keyed demo_sae_sta demo_ca = Val demo_sae_sta2) by (vm_compute; reflexivity).
    eexists. split; [vm_compute; reflexivity|]. vm_compute. reflexivity.
Qed.

(** The demo access point as the production set-up leaves it. *)
Definition demo_async : Ap := Eval vm_compute in enable_async_sae true demo_empty.

Lemma demo_async_inv : sae_inv demo_async.
Proof.
  assert (E : demo_async = demo_empty <| ap_async_sae := ap_async_sae demo_async |>) by (vm_compute; reflexivity).
  rewrite E. apply (async_moves _ demo_empty demo_sae_inv). by repeat constructor.
Qed.

Lemma sae_authentication_completes_witness :
  exists ap1 out1 sb3 confirm m sb4 ap2 s2,
    sae_run 1 [(8, SaeFrame demo_sta 1 STATUS_SAE_H2E demo_cb); (8, WorkerTakes); (8, WorkerAnswers (ap_draws demo_empty)); (9, Polled)]
      demo_async no_output = Val (ap1, out1) /\
    check_confirm demo_sae_sta2 confirm = Val (Ok tt, sb3) /\ write_confirm sb3 = Val (Ok m, sb4) /\
    handle_sae_auth 1 10 demo_sta 2 STATUS_SUCCESS m ap1 out1 = Val (ap2, out1) /\
    ap_stations ap2 !! demo_sta = Some s2 /\ st_sae_confirmed s2 = true /\ st_pmk s2 = Some (sae_pmk demo_sae_sta2).
Proof.
  destruct (sae_authentication_completes 1 8 9 10 11 (ap_draws demo_empty) demo_async no_output demo_sta demo_psk demo_ra.1 demo_ma.1
    demo_sae_ap demo_sae_sta demo_ca demo_cb demo_sae_sta2 demo_ra.2 demo_ma.2)
    as (confirm & sc1 & sc2 & ap1 & sb3 & m & sb4 & ap2 & s2 & ap3 & H1 & H2 & H3 & H4 & H5 & H6 & H7 & _).
  - exact demo_async_inv.
  - intros w E. by injection E as <-.
  - by apply (bool_decide_unpack _).
  - reflexivity.
  - reflexivity.
  - by apply (bool_decide_unpack _).
  - vm_compute. lia.
  - vm_compute. reflexivity.
  - vm_compute. reflexivity.
  - exact demo_honest.
  - eexists ap1, _, sb3, confirm, m, sb4, ap2, s2. split; [exact H1|]. by split_and!.
Defined.

(** The frames of that exchange as a run. *)
Definition demo_station_confirm : bytes := Eval vm_compute in
  match write_confirm demo_sae_sta2 with Val (Ok m, _) => m | _ => [] end.
Definition demo_run : list (Z * sae_event) :=
  [(8, SaeFrame demo_sta 1 STATUS_SAE_H2E demo_cb); (9, Polled); (9, SaeFrame demo_sta 2 STATUS_SUCCESS demo_station_confirm)].
Definition demo_run_end : Ap * Outgoing := Eval vm_compute in
  returned (sae_run 1 demo_run demo_empty no_output).
Definition demo_confirmed : Station := Eval vm_compute in demo_lookup demo_run_end.1.

Lemma demo_run_ok : Forall (fun e => event_ok e.2) demo_run.
Proof. repeat constructor; cbn [event_ok snd]; try exact I; by apply (bool_decide_unpack _). Qed.

Lemma sae_exchanges_bounded_witness :
  run_panics 1 demo_run demo_empty no_output \/
  exists ap' out', sae_run 1 demo_run demo_empty no_output = Val (ap', out') /\ sae_inv ap' /\ fixed ap' = fixed demo_empty /\
    (size (unfinished ap') <= SAE_INCOMPLETE_MAX)%nat /\
    (tokenless demo_empty demo_run -> (size (unfinished ap') <= max SAE_ANTI_CLOGGING_THRESHOLD (size (unfinished demo_empty)))%nat).
Proof.
  apply (sae_exchanges_bounded 1 demo_run demo_empty no_output).
  - exact demo_sae_inv.
  - exact demo_passwords_wf.
  - exact demo_run_ok.
  - exact toy_entropy_yields.
  - by apply (bool_decide_unpack _).
Defined.

(** The access point busy with five other exchanges. *)
Definition busy_pending : gmap bytes PendingSaeCommit := Eval vm_compute in
  list_to_map (map (fun n => (be_bytes 6 n, {| ps_id := n; ps_commit_payload := []; ps_queued_at := 0; ps_confirm := None |}))
    [1; 2; 3; 4; 5]).
Definition demo_busy : Ap := Eval vm_compute in
  upd_worker (fun w => w <| as_pending := busy_pending |>) (enable_async_sae true demo_empty).

Lemma demo_cb_plain : plain_commit demo_cb.
Proof. exists demo_cb, []. split; [by rewrite app_nil_r|]. split; [reflexivity|]. by split; constructor. Qed.

(** Open authentications: of a station without a session, and in the name of a
    station with a protected one. *)
Definition demo_open_auth : Dot11 := Eval vm_compute in
  received_frame (Val (dot11_header TYPE_MGMT SUBTYPE_AUTH 0 demo_mac demo_sta demo_mac 5 ++ le_bytes 2 0 ++ le_bytes 2 1 ++ le_bytes 2 0)).
Definition demo_auth_body : AuthBody := Eval vm_compute in returned_some (parse_auth (body demo_open_auth)).
