(* ===== verification/ApTimers.v ===== *)
(** The access point's clock: src/ap/lifecycle.rs.  The heap of handshake
    timers, the maintenance deadline, [tick] and what the transport reports of
    the frames it sent. *)
From S2P Require Import Prelude Elements Crypto Security Frames Channels DataProt Kde Rsn Advert Mlo Eapol Sae Failures Ap ApConfig ApEapol Demo ApMgmt ApKeys ApBeacon ApRates ApAdmit ApSae ApExchange.

(** * The heap of timers

    [BinaryHeap<Reverse<(Instant, u64, [u8; 6])>>]: a bag of which the least
    entry is taken, in the order of tuples. *)
Definition timer : Type := Z * Z * bytes.

Fixpoint bytes_before (a b : bytes) : bool :=
  match a, b with
  | [], _ :: _ => true
  | x :: a, y :: b => (x <? y) || ((x =? y) && bytes_before a b)
  | _, [] => false
  end.

Definition timer_before (a b : timer) : bool :=
  let '(d1, g1, m1) := a in
  let '(d2, g2, m2) := b in
  (d1 <? d2) || ((d1 =? d2) && ((g1 <? g2) || ((g1 =? g2) && bytes_before m1 m2))).

Fixpoint pop_timer (heap : list timer) : option (timer * list timer) :=
  match heap with
  | [] => None
  | t :: heap =>
      match pop_timer heap with
      | None => Some (t, [])
      | Some (least, rest) =>
          if timer_before least t then Some (least, t :: rest) else Some (t, least :: rest)
      end
  end.

(** * Reports of the transport *)

Definition note_eapol_acked (now : Z) (sta : bytes) (ap : Ap) : Ap :=
  arm_eapol_timer sta (upd_station sta (fun s =>
    if negb (st_awaiting_m4 s) && negb (st_group_rekeying s) then
      s <| st_eapol_acked := true |> <| st_eapol_tx := now |>
    else s) ap).

Definition note_eapol_transmitted (now : Z) (sta : bytes) (ap : Ap) : Ap :=
  arm_eapol_timer sta (upd_station sta (fun s =>
    s <| st_eapol_tx := now |> <| st_eapol_retries := 0 |> <| st_eapol_acked := false |>) ap).

Definition response_lost (s : Station) : Station :=
  let s := s <| st_pending_eapol := None |> <| st_eapol_ready := false |> <| st_awaiting_m4 := false |>
             <| st_ptk_candidates := [] |> in
  let s :=
    if st_associated s then s
    else s <| st_kck := replicate 16 0 |> <| st_kek := replicate 16 0 |> <| st_tk := replicate 16 0 |>
           <| st_pairwise_tk := replicate 32 0 |> in
  s <| st_eapol_retries := 0 |> <| st_eapol_acked := false |>.

Definition note_assoc_response_not_acked (sta : bytes) (ap : Ap) : Ap :=
  cancel_eapol_timer sta (upd_station sta response_lost ap).

(** * Maintenance *)

Definition unresponsive (now : Z) (ap : Ap) (sta : bytes) : bool :=
  match ap_stations ap !! sta ≫= st_sa_query with
  | Some (_, started) => SA_QUERY_TIMEOUT <=? duration_since now started
  | None => false
  end.

Definition disconnect_all (reason : Z) (ap : Ap) (stas : list bytes) : Ap :=
  foldl (fun ap sta => disconnect sta reason ap) ap stas.

(** [consider], applied to every deadline that is left. *)
Definition consider (now : Z) (next : option Z) (deadline : Z) : option Z :=
  if (now <? deadline) && match next with Some current => deadline <? current | None => true end
  then Some deadline else next.

Definition station_deadlines (s : Station) : list Z :=
  (if negb (st_associated s) && bool_decide (is_Some (st_sae s)) && negb (st_sae_confirmed s)
   then [st_last_activity s + SAE_AUTH_TIMEOUT] else [])
  ++ match st_sa_query s with Some (_, started) => [started + SA_QUERY_TIMEOUT] | None => [] end.

Definition deadlines_left (ap : Ap) : list Z :=
  map (fun p => ph_created_at p.2 + ANONCE_HOLD) (map_to_list (ap_pending_anonce ap))
  ++ concat (map (fun p => station_deadlines p.2) (map_to_list (ap_stations ap)))
  ++ map (fun p => pe_expires_at p.2) (map_to_list (ap_pmksa_cache ap))
  ++ map (fun p => ps_queued_at p.2 + SAE_AUTH_TIMEOUT) (map_to_list (sae_pending ap)).

(** [order]: the order in which the station map is traversed. *)
Definition run_deadline_maintenance (now : Z) (order : list bytes) (ap : Ap) : Ap :=
  let ap := ap <| ap_pending_anonce :=
    filter (fun p : bytes * PendingHandshake => duration_since now (ph_created_at p.2) < ANONCE_HOLD)
      (ap_pending_anonce ap) |> in
  let ap := upd_worker (fun w => w <| as_pending :=
    filter (fun p : bytes * PendingSaeCommit => duration_since now (ps_queued_at p.2) < SAE_AUTH_TIMEOUT)
      (as_pending w) |>) ap in
  let ap := disconnect_all 15 ap (List.filter (stale_sae now ap) order) in
  let ap := disconnect_all 15 ap (List.filter (unresponsive now ap) order) in
  let ap := expire_pmksa now ap in
  ap <| ap_maintenance_deadline := foldl (consider now) None (deadlines_left ap) |>.

(** * Handshake timers *)

(** What the record of a station remembers of a retransmission. *)
Definition resent (now : Z) (s : Station) : Station :=
  s <| st_eapol_tx := now |> <| st_eapol_retries := st_eapol_retries s + 1 |> <| st_eapol_acked := false |>
    <| st_eapol_timer_generation := u64 (st_eapol_timer_generation s + 1) |>.

Definition fire_timer (now generation : Z) (mac : bytes) (ap : Ap) (out : Outgoing) : Ap * Outgoing :=
  match ap_stations ap !! mac with
  | None => (ap, out)
  | Some s =>
      match st_pending_eapol s with
      | None => (ap, out)
      | Some frame =>
          if negb (st_eapol_timer_generation s =? generation) then (ap, out)
          else if MAX_EAPOL_RETRIES <=? st_eapol_retries s then
            let ap := disconnect mac 15 ap in
            (ap, out_tx (build_deauth (ap_mac ap) mac 15) out)
          else
            let ap := upd_station mac (resent now) ap in
            (ap <| ap_eapol_deadlines :=
                     (now + EAPOL_TIMEOUT, st_eapol_timer_generation (resent now s), mac)
                     :: ap_eapol_deadlines ap |>, out_push frame out)
      end
  end.

Definition timer_step (now : Z) (st : Ap * Outgoing) : res (Ap * Outgoing + Ap * Outgoing) :=
  let (ap, out) := st in
  match pop_timer (ap_eapol_deadlines ap) with
  | Some ((deadline, generation, mac), rest) =>
      if deadline <=? now then
        Val (inl (fire_timer now generation mac (ap <| ap_eapol_deadlines := rest |>) out))
      else Val (inr (ap, out))
  | None => Val (inr (ap, out))
  end.

(** A timer fires once at most, and what it sets is later than now. *)
Definition run_timers (now : Z) (ap : Ap) (out : Outgoing) : res (Ap * Outgoing) :=
  loop (S (length (ap_eapol_deadlines ap))) (timer_step now) (ap, out).

Definition periodic_rekey (now : Z) (ap : Ap) : bool :=
  (0 <? ap_group_rekey_secs ap) && (secs (ap_group_rekey_secs ap) <=? duration_since now (ap_last_group_rekey ap)).

Definition rekey_due `{Primitives} `{Entropy} (now : Z) (order : list bytes) (ap : Ap) (out : Outgoing) :
    res (Ap * Outgoing) :=
  if ap_group_rekey_due ap || periodic_rekey now ap then
    let! '(frames, ap) := rekey_gtk now order (ap <| ap_group_rekey_due := false |>) in
    Val (ap, foldl (fun out f => out_push f out) out frames)
  else Val (ap, out).

Definition maintenance_due (now : Z) (ap : Ap) : bool :=
  match ap_maintenance_deadline ap with Some deadline => deadline <=? now | None => false end.

Definition tick `{Primitives} `{P256} `{Entropy} `{HashOrder} (now : Z) (order : list bytes) (ap : Ap) :
    res (Ap * Outgoing) :=
  let! '(ap, out) := poll_sae_work now ap no_output in
  let ap := if maintenance_due now ap then run_deadline_maintenance now order ap else ap in
  let! '(ap, out) := rekey_due now order ap out in
  run_timers now ap out.

(** * Accessors *)

Definition station_uses_sha256 (sta : bytes) (ap : Ap) : bool :=
  match ap_stations ap !! sta with Some s => st_sha256 s | None => false end.
Definition station_uses_pmf (sta : bytes) (ap : Ap) : bool :=
  match ap_stations ap !! sta with Some s => st_pmf s | None => false end.
Definition station_uses_wmm (sta : bytes) (ap : Ap) : bool :=
  match ap_stations ap !! sta with Some s => st_wmm s | None => false end.
Definition bss_short_preamble (ap : Ap) : bool :=
  forallb (fun p => negb (Z.land (st_capability p.2) (Z.shiftl 1 5) =? 0))
    (List.filter (fun p => bool_decide (is_Some (st_last_assoc p.2))) (map_to_list (ap_stations ap))).

Definition HT_CAP_GREEN_FIELD : Z := Z.shiftl 1 4.
Definition HT_OPMODE_NON_GF_PRESENT : Z := Z.shiftl 1 2.

(** A station whose HT capability element lacks the green-field bit. *)
Definition non_greenfield (s : Station) : res bool :=
  let! cap := find_ie (st_assoc_ies s) 45 in
  match cap with
  | Some cap => Val ((2 <=? length cap)%nat && (Z.land (le_val (take 2 cap)) HT_CAP_GREEN_FIELD =? 0))
  | None => Val false
  end.

Definition bss_ht_opmode (ap : Ap) : res Z :=
  let! found := rmapM non_greenfield
    (map snd (List.filter (fun p => bool_decide (is_Some (st_last_assoc p.2))) (map_to_list (ap_stations ap)))) in
  Val (if existsb id found then HT_OPMODE_NON_GF_PRESENT else 0).

(** Any address of a non-AP MLD leads to the record of its association link;
    [order]: the order in which the station map is traversed. *)
Definition station_has_mld (mld : bytes) (s : Station) : bool := bool_decide (st_client_mld_mac s = Some mld).
Definition station_has_link (mac : bytes) (s : Station) : bool := existsb (fun l => beq l.2 mac) (st_client_mld_links s).
Definition find_station (f : Station -> bool) (order : list bytes) (ap : Ap) : option bytes :=
  List.find (fun m => match ap_stations ap !! m with Some s => f s | None => false end) order.
Definition station_link_for_mld (order : list bytes) (mld : bytes) (ap : Ap) : option bytes :=
  find_station (station_has_mld mld) order ap.
Definition station_link_for_peer (order : list bytes) (peer : bytes) (ap : Ap) : option bytes :=
  match ap_stations ap !! peer with
  | Some _ => Some peer
  | None => find_station (fun s => station_has_mld peer s || station_has_link peer s) order ap
  end.

(** What the transport and the control interface take away. *)
Definition drain_removed_stations (ap : Ap) : list bytes * Ap := (ap_removed_stations ap, ap <| ap_removed_stations := [] |>).
Definition drain_key_install_stations (ap : Ap) : list bytes * Ap :=
  (ap_key_install_stations ap, ap <| ap_key_install_stations := [] |>).
Definition drain_key_ready_stations (ap : Ap) : list bytes * Ap :=
  (ap_key_ready_stations ap, ap <| ap_key_ready_stations := [] |>).
Definition drain_events (ap : Ap) : list ApEvent * Ap := (ap_events ap, ap <| ap_events := [] |>).

Definition station_assoc_ies (sta : bytes) (ap : Ap) : option bytes := option_map st_assoc_ies (ap_stations ap !! sta).
Definition station_listen_interval (sta : bytes) (ap : Ap) : option Z := option_map st_listen_interval (ap_stations ap !! sta).
Definition station_capability (sta : bytes) (ap : Ap) : option Z := option_map st_capability (ap_stations ap !! sta).
Definition station_mld_mac (sta : bytes) (ap : Ap) : option bytes := ap_stations ap !! sta ≫= st_client_mld_mac.
Definition station_mld_link_macs (sta : bytes) (ap : Ap) : list (Z * bytes) :=
  match ap_stations ap !! sta with Some s => st_client_mld_links s | None => [] end.

(** ** Hooks of the tests

    They move a clock into the past. *)
Definition upd_stations (f : Station -> Station) (ap : Ap) : Ap := ap <| ap_stations := f <$> ap_stations ap |>.

(** [checked_sub]: an instant before the clock's origin leaves the clock alone. *)
Definition test_expire_group_rekey (now : Z) (ap : Ap) : Ap :=
  let ago := secs (Z.min (ap_group_rekey_secs ap + 1) (2 ^ 64 - 1)) in
  ap <| ap_last_group_rekey := if ago <=? now then now - ago else ap_last_group_rekey ap |>.
Definition test_clear_auth_backoff (ap : Ap) : Ap :=
  (upd_stations (fun s => s <| st_last_auth := None |> <| st_last_assoc := None |>) ap) <| ap_request_rates := ∅ |>.
Definition has_pending (ap : Ap) (sta : bytes) : bool :=
  match ap_stations ap !! sta with Some s => bool_decide (is_Some (st_pending_eapol s)) | None => false end.
Definition test_expire_eapol (now : Z) (order : list bytes) (ap : Ap) : Ap :=
  let past := now - EAPOL_TIMEOUT - millis 1 in
  let armed := List.filter (has_pending ap) order in
  let ap := upd_stations (fun s => match st_pending_eapol s with Some _ => s <| st_eapol_tx := past |> | None => s end) ap in
  foldl (fun ap sta => arm_eapol_timer sta ap) ap armed.
Definition test_expire_sa_query (now : Z) (ap : Ap) : Ap :=
  let past := now - SA_QUERY_TIMEOUT - millis 1 in
  (upd_stations (fun s =>
     match st_sa_query s with Some (trans, _) => s <| st_sa_query := Some (trans, past) |> | None => s end) ap)
    <| ap_maintenance_deadline := Some now |>.
Definition test_expire_incomplete_sae (now : Z) (ap : Ap) : Ap :=
  let past := now - SAE_AUTH_TIMEOUT - millis 1 in
  (upd_stations (fun s =>
     if bool_decide (is_Some (st_sae s)) && negb (st_sae_confirmed s) then s <| st_last_activity := past |> else s) ap)
    <| ap_maintenance_deadline := Some now |>.
Definition test_expire_sae_tokens (ap : Ap) : Ap := ap <| ap_boottime := ap_boottime ap - (SAE_TOKEN_LIFETIME + secs 1) |>.
Definition test_cache_pmksa `{HashOrder} (now : Z) (id : bytes) (ap : Ap) : Ap :=
  cache_pmksa now id (take 6 id) (replicate 32 0) true ap.
Definition test_expire_pmksa (now : Z) (ap : Ap) : Ap :=
  expire_pmksa now (ap <| ap_pmksa_cache := (fun e => {| pe_identity := pe_identity e; pe_pmk := pe_pmk e;
    pe_sha256 := pe_sha256 e; pe_expires_at := now - millis 1 |}) <$> ap_pmksa_cache ap |>).
Definition pmksa_len (ap : Ap) : nat := size (ap_pmksa_cache ap).

(** * The heap *)

Definition due_at (t : timer) : Z := t.1.1.

Lemma timer_before_due a b : timer_before a b = false -> due_at b <= due_at a.
Proof.
  destruct a as [[d1 g1] m1], b as [[d2 g2] m2]. unfold due_at. cbn [fst timer_before]. intros H.
  apply orb_false_iff in H as [H _]. apply Z.ltb_ge in H. lia.
Qed.

(** The entry taken is due no later than any other. *)
Lemma pop_timer_spec heap : match pop_timer heap with
  | None => heap = []
  | Some (t, rest) => heap ≡ₚ t :: rest /\ Forall (fun u => due_at t <= due_at u) rest
  end.
Proof.
  induction heap as [|t heap IH]; [done|]. cbn [pop_timer].
  destruct (pop_timer heap) as [[least rest]|]; [|by subst heap; split].
  destruct IH as [Hp Hl]. destruct (timer_before least t) eqn:Eb.
  - split; [rewrite Hp; apply Permutation_swap|]. constructor; [|done].
    destruct t as [[d g] m], least as [[d' g'] m']. unfold due_at in *. cbn [fst timer_before] in *.
    apply orb_true_iff in Eb as [Eb|Eb]; [apply Z.ltb_lt in Eb; lia|].
    apply andb_true_iff in Eb as [Eb _]. apply Z.eqb_eq in Eb. lia.
  - pose proof (timer_before_due _ _ Eb) as Hd. split; [by rewrite Hp|]. constructor; [done|].
    eapply Forall_impl; [exact Hl|]. cbn. intros u. lia.
Qed.

Lemma pop_timer_Some heap t rest : pop_timer heap = Some (t, rest) ->
  heap ≡ₚ t :: rest /\ Forall (fun u => due_at t <= due_at u) rest.
Proof. intros E. pose proof (pop_timer_spec heap) as H. by rewrite E in H. Qed.

(** The timers that are due. *)
Definition due_count (now : Z) (heap : list timer) : nat :=
  length (List.filter (fun t => due_at t <=? now) heap).

Lemma due_count_perm now h1 h2 : h1 ≡ₚ h2 -> due_count now h1 = due_count now h2.
Proof.
  unfold due_count. induction 1 as [|t h1 h2 _ IH|t u h|h1 h2 h3 _ IH1 _ IH2]; cbn [List.filter];
    [done|by destruct (_ <=? _); cbn [length]; rewrite ?IH|by do 2 destruct (_ <=? _)|congruence].
Qed.

Lemma due_count_bound now h : (due_count now h <= length h)%nat.
Proof. unfold due_count. induction h as [|t h IH]; cbn [List.filter length]; [done|]. destruct (_ <=? _); cbn [length]; lia. Qed.

Lemma timeout_pos : 0 < EAPOL_TIMEOUT.
Proof. by vm_compute. Qed.

(** What one timer leaves in the heap is later than now. *)
Lemma fire_timer_heap now g m ap out :
  let ap' := (fire_timer now g m ap out).1 in
  (ap_eapol_deadlines ap' = ap_eapol_deadlines ap \/
   exists s, ap_stations ap !! m = Some s /\
     ap_eapol_deadlines ap' = (now + EAPOL_TIMEOUT, st_eapol_timer_generation (resent now s), m) :: ap_eapol_deadlines ap).
Proof.
  unfold fire_timer. destruct (ap_stations ap !! m) as [s|] eqn:Es; [|by left].
  destruct (st_pending_eapol s); [|by left]. destruct (_ =? g); cbn [negb]; [|by left].
  destruct (_ <=? _); [left|right; by exists s]. cbn [fst]. unfold disconnect. rewrite Es. by repeat case_match.
Qed.

(** The loop takes every timer that is due, and ends. *)
Lemma run_timers_ind (I : Ap -> Outgoing -> Prop) now :
  (forall t rest ap out, pop_timer (ap_eapol_deadlines ap) = Some (t, rest) -> due_at t <= now -> I ap out ->
     let r := fire_timer now t.1.2 t.2 (ap <| ap_eapol_deadlines := rest |>) out in I r.1 r.2) ->
  forall ap out, I ap out ->
  exists ap' out', run_timers now ap out = Val (ap', out') /\ I ap' out' /\
    Forall (fun t => now < due_at t) (ap_eapol_deadlines ap').
Proof.
  intros Hstep ap out HI.
  destruct (loop_spec (fun st => I st.1 st.2)
    (fun st => I st.1 st.2 /\ Forall (fun t => now < due_at t) (ap_eapol_deadlines st.1))
    (fun st => due_count now (ap_eapol_deadlines st.1)) (timer_step now)) with
    (fuel := S (length (ap_eapol_deadlines ap))) (s := (ap, out)) as ([ap' out'] & E & Hq); cbn [fst snd]; [|done| |].
  - intros [ap1 out1] H1. cbn [fst snd] in *. unfold timer_step. pose proof (pop_timer_spec (ap_eapol_deadlines ap1)) as Hp.
    destruct (pop_timer (ap_eapol_deadlines ap1)) as [[[[d g] m] rest]|] eqn:Ep;
      [|eexists; split; [reflexivity|]; split; [done|]; cbn [fst]; by rewrite Hp].
    destruct Hp as [Hp Hl]. destruct (Z.leb_spec d now) as [Hd|Hd]; (eexists; split; [reflexivity|]).
    + specialize (Hstep (d, g, m) rest ap1 out1 Ep Hd H1). cbn zeta in Hstep. cbn [fst snd] in Hstep.
      destruct (fire_timer_heap now g m (ap1 <| ap_eapol_deadlines := rest |>) out1) as [E|(s & _ & E)];
        destruct (fire_timer _ _ _ _ _) as [ap2 out2]; cbn [fst snd] in *; (split; [exact Hstep|]);
        rewrite E; rewrite (due_count_perm now _ _ Hp); fields; unfold due_count; cbn [List.filter];
        change (due_at (d, g, m)) with d; rewrite (proj2 (Z.leb_le d now)) by done; cbn [length].
      * lia.
      * change (due_at (now + EAPOL_TIMEOUT, _, _)) with (now + EAPOL_TIMEOUT).
        rewrite (proj2 (Z.leb_gt _ now)) by (pose proof timeout_pos; lia). lia.
    + split; [done|]. rewrite Hp. constructor; [exact Hd|]. eapply Forall_impl; [exact Hl|].
      cbn beta. intros u Hu. change (due_at (d, g, m)) with d in Hu. lia.
  - apply Nat.lt_succ_r, due_count_bound.
  - exists ap', out'. split; [exact E|]. exact Hq.
Qed.

(** * A station that does not answer *)

(** A handshake frame waits for its answer, and its timer is set for [d]. *)
Definition waits (sta f : bytes) (d : Z) (ap : Ap) (s : Station) : Prop :=
  ap_stations ap !! sta = Some s /\ st_pending_eapol s = Some f /\
  (d, st_eapol_timer_generation s, sta) ∈ ap_eapol_deadlines ap.

(** How often a frame is sent. *)
Definition copies (f : bytes) (out : Outgoing) : nat := length (filter (fun x => x = f) (out_frames out)).

(** The frame was sent again, once for every retransmission that is counted, and
    its timer is set anew. *)
Definition sent_again (now : Z) (sta f : bytes) (s : Station) (ap : Ap) (out : Outgoing) : Prop :=
  exists s', waits sta f (now + EAPOL_TIMEOUT) ap s' /\ st_eapol_retries s < st_eapol_retries s' <= MAX_EAPOL_RETRIES /\
    st_eapol_retries s' - st_eapol_retries s <= Z.of_nat (copies f out).

(** The station was given up and told so, after every retransmission. *)
Definition given_up (sta f mac : bytes) (s : Station) (ap : Ap) (out : Outgoing) : Prop :=
  ap_stations ap !! sta = None /\ RADIOTAP_TX ++ build_deauth mac sta 15 ∈ out_frames out /\
  MAX_EAPOL_RETRIES - st_eapol_retries s <= Z.of_nat (copies f out).

Lemma copies_push f g out : copies f (out_push g out) = (copies f out + if decide (g = f) then 1 else 0)%nat.
Proof.
  unfold copies. change (out_frames (out_push g out)) with (out_frames out ++ [g]).
  rewrite filter_app, length_app, filter_cons, filter_nil. by destruct (decide (g = f)).
Qed.

Lemma copies_sent f out : (0 < copies f out)%nat -> f ∈ out_frames out.
Proof.
  unfold copies. destruct (filter _ _) as [|x l] eqn:E; cbn [length]; [lia|]. intros _.
  assert (Hx : x ∈ filter (fun x => x = f) (out_frames out)) by (rewrite E; apply list_elem_of_here).
  by apply list_elem_of_filter in Hx as [-> Hx].
Qed.

Lemma fire_timer_other now g m ap out sta : m <> sta ->
  let r := fire_timer now g m ap out in
  ap_stations r.1 !! sta = ap_stations ap !! sta /\
  (forall d g', (d, g', sta) ∈ ap_eapol_deadlines ap -> (d, g', sta) ∈ ap_eapol_deadlines r.1).
Proof.
  intros Hne r. split.
  - unfold r, fire_timer. destruct (ap_stations ap !! m) as [s|] eqn:Es; [|done].
    destruct (st_pending_eapol s); [|done]. destruct (negb _); [done|]. destruct (_ <=? _); cbn [fst].
    + by rewrite disconnect_stations, lookup_delete_ne.
    + unfold upd_station. fields. by rewrite lookup_alter_ne.
  - intros d g' Hin. destruct (fire_timer_heap now g m ap out) as [E|(s & _ & E)]; unfold r; rewrite E; [done|].
    by apply elem_of_cons; right.
Qed.

Lemma fire_timer_fields now g m ap out :
  let r := fire_timer now g m ap out in
  ap_mac r.1 = ap_mac ap /\ (forall x, x ∈ out_frames out -> x ∈ out_frames r.2) /\
  (forall f, copies f out <= copies f r.2)%nat.
Proof.
  unfold fire_timer. destruct (ap_stations ap !! m) as [s|] eqn:Es; [|done].
  destruct (st_pending_eapol s) as [f|]; [|done]. destruct (negb _); [done|]. destruct (_ <=? _); cbn [fst snd].
  - split; [unfold disconnect; rewrite Es; by repeat case_match|].
    split; [intros x Hx; cbn [out_frames out_tx out_push]; apply elem_of_app; by left|].
    intros h. unfold out_tx. rewrite copies_push. lia.
  - split; [done|]. split; [intros x Hx; cbn [out_frames out_push]; apply elem_of_app; by left|].
    intros h. rewrite copies_push. lia.
Qed.

(** A timer of the waiting station: another session's, or its own. *)
Lemma fire_timer_own now g sta ap out s f : ap_stations ap !! sta = Some s -> st_pending_eapol s = Some f ->
  let r := fire_timer now g sta ap out in
  if st_eapol_timer_generation s =? g then
    if MAX_EAPOL_RETRIES <=? st_eapol_retries s then
      ap_stations r.1 !! sta = None /\ RADIOTAP_TX ++ build_deauth (ap_mac ap) sta 15 ∈ out_frames r.2
    else
      (exists s', waits sta f (now + EAPOL_TIMEOUT) r.1 s' /\ st_eapol_retries s' = st_eapol_retries s + 1) /\
      copies f r.2 = S (copies f out) /\ st_eapol_retries s < MAX_EAPOL_RETRIES
  else r = (ap, out).
Proof.
  intros Es Ef. unfold fire_timer. rewrite Es, Ef. destruct (_ =? g); cbn [negb]; [|done].
  destruct (Z.leb_spec MAX_EAPOL_RETRIES (st_eapol_retries s)) as [Hm|Hm]; cbn [fst snd].
  - split; [by rewrite disconnect_stations, lookup_delete_eq|]. cbn [out_frames out_tx out_push].
    apply elem_of_app. right. assert (ap_mac (disconnect sta 15 ap) = ap_mac ap) as ->;
      [unfold disconnect; rewrite Es; by repeat case_match|]. by apply list_elem_of_singleton.
  - split; [exists (resent now s); split|split; [|done]].
    + split; [unfold upd_station; fields; by rewrite lookup_alter_eq, Es|]. split; [exact Ef|].
      fields. by apply elem_of_cons; left.
    + done.
    + rewrite copies_push, decide_True by done. lia.
Qed.

(** Where a waiting station is in a run of the timers. *)
Definition waiting_in (now d : Z) (sta f mac : bytes) (s : Station) (ap : Ap) (out : Outgoing) : Prop :=
  ap_mac ap = mac /\ (waits sta f d ap s \/ sent_again now sta f s ap out \/ given_up sta f mac s ap out).

Lemma waits_pop sta f d ap s t rest :
  waits sta f d ap s -> pop_timer (ap_eapol_deadlines ap) = Some (t, rest) ->
  t = (d, st_eapol_timer_generation s, sta) \/ waits sta f d (ap <| ap_eapol_deadlines := rest |>) s.
Proof.
  intros (Es & Ef & Hin) Ep. apply pop_timer_Some in Ep as [Hp _]. rewrite Hp in Hin.
  apply elem_of_cons in Hin as [<-|Hin]; [by left|]. right. by split_and!.
Qed.

Lemma waiting_step now d sta f mac s t rest ap out :
  d <= now -> pop_timer (ap_eapol_deadlines ap) = Some (t, rest) -> due_at t <= now ->
  waiting_in now d sta f mac s ap out ->
  let r := fire_timer now t.1.2 t.2 (ap <| ap_eapol_deadlines := rest |>) out in
  waiting_in now d sta f mac s r.1 r.2.
Proof.
  intros Hd Ep Ht (Em & HW). destruct t as [[d' g] m]. unfold due_at in Ht. cbn [fst snd] in *.
  set (ap0 := ap <| ap_eapol_deadlines := rest |>). pose proof (fire_timer_fields now g m ap0 out) as (Emac & Hout & Hcopy).
  pose proof (fire_timer_other now g m ap0 out sta) as Hother. pose proof (fire_timer_own now g sta ap0 out) as Hown.
  specialize (Hcopy f).
  change (ap_mac ap0) with (ap_mac ap) in *. change (ap_stations ap0) with (ap_stations ap) in *. rewrite Em in *.
  split; [done|].
  assert (Hgen : forall d0 s0, waits sta f d0 ap s0 ->
    0 <= st_eapol_retries s0 - st_eapol_retries s <= Z.of_nat (copies f out) ->
    waits sta f d0 ap0 s0 \/ (d0, st_eapol_timer_generation s0, sta) = (d', g, m) ->
    waits sta f d0 (fire_timer now g m ap0 out).1 s0 \/ sent_again now sta f s (fire_timer now g m ap0 out).1 (fire_timer now g m ap0 out).2 \/
    given_up sta f mac s (fire_timer now g m ap0 out).1 (fire_timer now g m ap0 out).2).
  { intros d0 s0 (E0 & F0 & _) Hr Hcase. destruct (decide (m = sta)) as [->|Hne].
    - specialize (Hown s0 f E0 F0). cbn zeta in Hown. destruct (Z.eqb_spec (st_eapol_timer_generation s0) g) as [Eg|Eg].
      + destruct (Z.leb_spec MAX_EAPOL_RETRIES (st_eapol_retries s0)).
        { destruct Hown as [G1 G2]. right. right. split; [done|]. split; [done|lia]. }
        destruct Hown as ((s1 & W & R) & Hc & _). right. left. exists s1. split; [done|]. rewrite Hc. lia.
      + rewrite Hown. cbn [fst snd]. destruct Hcase as [W|[= _ Eg']]; [by left|congruence].
    - destruct (Hother Hne) as [E1 H1]. destruct Hcase as [(_ & _ & Hin)|[= _ _ Em']]; [|congruence].
      left. split; [by rewrite E1|]. split; [done|]. by apply H1. }
  destruct HW as [W|[(s0 & W & R & O)|(G1 & G2 & G3)]].
  - destruct (waits_pop sta f d ap s (d', g, m) rest W Ep) as [Et|W']; (destruct (Hgen d s W) as [?|?]; [lia| |by left|by right]).
    + by right.
    + by left.
  - destruct (waits_pop sta f _ ap s0 (d', g, m) rest W Ep) as [[= Et _ _]|W'].
    { pose proof timeout_pos. lia. }
    destruct (Hgen _ s0 W) as [W1|?]; [lia|by left| |by right]. right. left. exists s0. split; [done|]. split; [done|]. lia.
  - right. right. split; [|split; [by apply Hout|lia]]. destruct (decide (m = sta)) as [->|Hne]; [|by rewrite (proj1 (Hother Hne))].
    unfold fire_timer. change (ap_stations ap0) with (ap_stations ap). by rewrite G1.
Qed.

(** When the timers run and the timer of a waiting station is due, the frame is
    sent again or the station is given up. *)
Lemma timers_serve now d sta f s ap out : d <= now -> waits sta f d ap s ->
  exists ap' out', run_timers now ap out = Val (ap', out') /\ ap_mac ap' = ap_mac ap /\
    (sent_again now sta f s ap' out' \/ given_up sta f (ap_mac ap) s ap' out').
Proof.
  intros Hd W. destruct (run_timers_ind (waiting_in now d sta f (ap_mac ap) s) now) with (ap := ap) (out := out)
    as (ap' & out' & E & (Em & HW) & Hdue).
  - intros t rest ap1 out1 Ep Ht HI. by apply (waiting_step now d).
  - split; [done|by left].
  - exists ap', out'. split; [done|]. split; [done|]. destruct HW as [(_ & _ & Hin)|HW]; [|done].
    rewrite Forall_forall in Hdue. specialize (Hdue _ Hin). unfold due_at in Hdue. cbn in Hdue. lia.
Qed.

Lemma timers_none now sta ap out : ap_stations ap !! sta = None ->
  exists ap' out', run_timers now ap out = Val (ap', out') /\ ap_stations ap' !! sta = None.
Proof.
  intros Hn. destruct (run_timers_ind (fun ap _ => ap_stations ap !! sta = None) now) with (ap := ap) (out := out)
    as (ap' & out' & E & HN & _); [|done|by exists ap', out'].
  intros [[d g] m] rest ap1 out1 _ _ H1. cbn [fst snd]. destruct (decide (m = sta)) as [->|Hne].
  - unfold fire_timer. change (ap_stations (ap1 <| ap_eapol_deadlines := rest |>)) with (ap_stations ap1). by rewrite H1.
  - by rewrite (proj1 (fire_timer_other now g m (ap1 <| ap_eapol_deadlines := rest |>) out1 sta Hne)).
Qed.

(** Whatever else happens leaves the record of a silent station and its timers
    alone. *)
Definition undisturbed (sta : bytes) (ap ap' : Ap) : Prop :=
  ap_mac ap' = ap_mac ap /\ ap_stations ap' !! sta = ap_stations ap !! sta /\
  forall d g, (d, g, sta) ∈ ap_eapol_deadlines ap -> (d, g, sta) ∈ ap_eapol_deadlines ap'.

(** Runs of the timers at given times, with their output. *)
Inductive silent (sta : bytes) : list (Z * Outgoing) -> Ap -> Ap -> Prop :=
| silent_end ap ap' : undisturbed sta ap ap' -> silent sta [] ap ap'
| silent_run now out rest ap ap0 ap1 ap' :
    undisturbed sta ap ap0 -> run_timers now ap0 no_output = Val (ap1, out) -> silent sta rest ap1 ap' ->
    silent sta ((now, out) :: rest) ap ap'.

(** The first run is not before [d], and each is a timeout after the last. *)
Fixpoint paced (d : Z) (ts : list (Z * Outgoing)) : Prop :=
  match ts with [] => True | (now, _) :: ts => d <= now /\ paced (now + EAPOL_TIMEOUT) ts end.

Lemma undisturbed_waits sta f d ap ap' s : undisturbed sta ap ap' -> waits sta f d ap s -> waits sta f d ap' s.
Proof. intros (_ & E & H) (Es & Ef & Hin). split; [by rewrite E|]. split; [done|]. by apply H. Qed.

Lemma silent_none sta ts ap ap' : silent sta ts ap ap' -> ap_stations ap !! sta = None -> ap_stations ap' !! sta = None.
Proof.
  induction 1 as [ap ap' (_ & E & _)|now out rest ap ap0 ap1 ap' (_ & E & _) Er _ IH]; intros Hn; [by rewrite E|].
  rewrite <- E in Hn. destruct (timers_none now sta ap0 no_output Hn) as (ap2 & out2 & Er' & Hn'). rewrite Er in Er'.
  injection Er' as <- <-. by apply IH.
Qed.

(** C29: a handshake frame that is not answered is sent again until the retry limit
    is reached, and not longer: of runs of the timers that are a second apart
    (the retransmission timeout), the first when the timer of the frame is due,
    each sends the frame again, up to one that tells the station it is
    deauthenticated and after which its record is gone. That run comes when the
    frame has been sent again as often as the limit of three allows, not before,
    and no later than after that many runs. It holds whatever the access point
    does for other stations between the runs. *)
Theorem unanswered_station_dropped sta f d ts : forall ap ap' s,
  waits sta f d ap s -> st_eapol_retries s <= MAX_EAPOL_RETRIES -> silent sta ts ap ap' -> paced d ts ->
  MAX_EAPOL_RETRIES - st_eapol_retries s < Z.of_nat (length ts) ->
  exists sent last rest, ts = sent ++ last :: rest /\
    Z.of_nat (length sent) <= MAX_EAPOL_RETRIES - st_eapol_retries s /\
    Forall (fun o => f ∈ out_frames o.2) sent /\
    MAX_EAPOL_RETRIES - st_eapol_retries s <= Z.of_nat (sum_list_with (fun o => copies f o.2) (sent ++ [last])) /\
    RADIOTAP_TX ++ build_deauth (ap_mac ap) sta 15 ∈ out_frames last.2 /\
    ap_stations ap' !! sta = None.
Proof.
  intros ap ap' s W Hr Hs. revert d s W Hr. induction Hs as [ap ap' U|now out rest ap ap0 ap1 ap' U Er Hs IH];
    intros d s W Hr Hp Hlen; [cbn [length] in Hlen; lia|]. destruct Hp as [Hd Hp].
  pose proof (undisturbed_waits _ _ _ _ _ _ U W) as W0. destruct U as (Em & _ & _).
  destruct (timers_serve now d sta f s ap0 no_output Hd W0) as (ap2 & out2 & Er' & Em2 & HW). rewrite Er in Er'.
  injection Er' as <- <-. rewrite Em in Em2, HW. destruct HW as [(s1 & W1 & R1 & O1)|(G1 & G2 & G3)].
  - destruct (IH (now + EAPOL_TIMEOUT) s1 W1 ltac:(lia) Hp) as (sent & lst & rst & -> & Hl & Hf & Hc & Hdea & Hgone).
    { cbn [length] in Hlen. lia. }
    exists ((now, out) :: sent), lst, rst. split; [done|]. split; [cbn [length]; lia|].
    split; [constructor; [|done]; apply copies_sent; cbn [snd]; lia|].
    split; [change (((now, out) :: sent) ++ [lst]) with ((now, out) :: (sent ++ [lst])); cbn [sum_list_with snd]; lia|].
    split; [by rewrite <- Em2|done].
  - exists [], (now, out), rest. split; [done|]. split; [cbn [length]; lia|]. split; [constructor|].
    split; [cbn; lia|]. split; [done|]. by apply (silent_none _ _ _ _ Hs).
Qed.

(** * Maintenance *)

Lemma disconnect_all_stations reason l ap : forall k,
  ap_stations (disconnect_all reason ap l) !! k = if bool_decide (k ∈ l) then None else ap_stations ap !! k.
Proof.
  unfold disconnect_all. revert ap. induction l as [|m l IH]; intros ap k; cbn [foldl]; [done|].
  rewrite IH, disconnect_stations. destruct (decide (k = m)) as [->|Hne].
  - rewrite lookup_delete_eq, (bool_decide_eq_true_2 (m ∈ m :: l)) by (by apply elem_of_cons; left). by case_match.
  - rewrite lookup_delete_ne by done. assert (bool_decide (k ∈ l) = bool_decide (k ∈ m :: l)) as ->; [|done].
    apply bool_decide_ext. rewrite elem_of_cons. naive_solver.
Qed.

(** Removing stations touches nothing that expires. *)
Lemma disconnect_all_tables reason l ap :
  let ap' := disconnect_all reason ap l in
  ap_pending_anonce ap' = ap_pending_anonce ap /\ ap_pmksa_cache ap' = ap_pmksa_cache ap /\
  ap_async_sae ap' = ap_async_sae ap.
Proof.
  unfold disconnect_all. revert ap. induction l as [|m l IH]; intros ap; [done|]. cbn [foldl].
  destruct (IH (disconnect m reason ap)) as (-> & -> & ->). unfold disconnect. by repeat case_match.
Qed.

Lemma consider_min now init x : now < x ->
  consider now init x = Some (match init with Some c => Z.min c x | None => x end).
Proof.
  intros Hx. unfold consider. rewrite (proj2 (Z.ltb_lt _ _) Hx). destruct init as [c|]; [|done]. cbn [andb].
  destruct (Z.ltb_spec x c); f_equal; lia.
Qed.

Lemma consider_least now l : Forall (fun x => now < x) l ->
  match foldl (consider now) None l with
  | None => l = []
  | Some d => d ∈ l /\ Forall (fun x => d <= x) l
  end.
Proof.
  assert (Hs : forall l c, Forall (fun x => now < x) l -> exists d, foldl (consider now) (Some c) l = Some d /\
    (d = c \/ d ∈ l) /\ d <= c /\ Forall (fun x => d <= x) l).
  { clear l. induction l as [|x l IH]; intros c H; cbn [foldl]; [exists c; split_and!; auto; lia|].
    apply Forall_cons in H as [Hx Hl]. rewrite (consider_min _ _ _ Hx). destruct (IH (Z.min c x) Hl) as (d & -> & Hin & Hle & Hall).
    exists d. split; [done|]. rewrite elem_of_cons. split; [destruct Hin as [->|Hin]; [|auto]; destruct (Z.min_spec c x); intuition lia|].
    split; [lia|]. constructor; [lia|done]. }
  intros H. destruct l as [|x l]; [done|]. apply Forall_cons in H as [Hx Hl]. cbn [foldl]. rewrite (consider_min _ _ _ Hx).
  destruct (Hs l x Hl) as (d & -> & Hin & Hle & Hall). rewrite elem_of_cons. split; [done|by constructor].
Qed.

(** Nothing that has run out, and nothing without an answer, is left. *)
Definition expired (now : Z) (ap : Ap) (sta : bytes) : bool := stale_sae now ap sta || unresponsive now ap sta.

Lemma maintenance_stations now order ap : iteration_order ap order -> forall k,
  ap_stations (run_deadline_maintenance now order ap) !! k = if expired now ap k then None else ap_stations ap !! k.
Proof.
  intros [_ Hin] k. unfold run_deadline_maintenance, expire_pmksa. fields.
  set (ap1 := upd_worker _ (ap <| ap_pending_anonce := _ |>)).
  assert (E1 : ap_stations ap1 = ap_stations ap) by done. clearbody ap1.
  set (stale := List.filter (stale_sae now ap1) order). set (ap2 := disconnect_all 15 ap1 stale).
  assert (E2 : forall k, ap_stations ap2 !! k = if bool_decide (k ∈ stale) then None else ap_stations ap !! k)
    by (intros; unfold ap2; by rewrite disconnect_all_stations, E1).
  assert (Hm : forall f, (forall ap m, f ap m = true -> is_Some (ap_stations ap !! m)) -> forall ap0,
    (forall m, is_Some (ap_stations ap0 !! m) -> is_Some (ap_stations ap !! m)) ->
    forall m, m ∈ List.filter (f ap0) order <-> f ap0 m = true).
  { intros f Hf ap0 H0 m. rewrite list_elem_of_In, List.filter_In, <- list_elem_of_In. split; [by intros []|].
    intros E. split; [|done]. apply Hin, H0, (Hf ap0), E. }
  assert (Hstale : forall ap m, stale_sae now ap m = true -> is_Some (ap_stations ap !! m))
    by (intros ap0 m; unfold stale_sae; destruct (ap_stations ap0 !! m); [by eexists|done]).
  assert (Hun : forall ap m, unresponsive now ap m = true -> is_Some (ap_stations ap !! m))
    by (intros ap0 m; unfold unresponsive; destruct (ap_stations ap0 !! m); [by eexists|done]).
  rewrite disconnect_all_stations, E2.
  assert (Hs : forall m, m ∈ stale <-> stale_sae now ap m = true).
  { intros m. unfold stale. rewrite (Hm _ Hstale) by (intros; by rewrite <- E1). unfold stale_sae. by rewrite E1. }
  assert (Hu : k ∈ List.filter (unresponsive now ap2) order <-> stale_sae now ap k = false /\ unresponsive now ap k = true).
  { rewrite (Hm _ Hun) by (intros m; rewrite E2; case_bool_decide; [by intros []|done]).
    unfold unresponsive. rewrite E2. destruct (stale_sae now ap k) eqn:Es.
    - rewrite bool_decide_eq_true_2 by (by apply Hs). cbn. naive_solver.
    - rewrite bool_decide_eq_false_2 by (rewrite Hs; congruence). naive_solver. }
  unfold expired. destruct (stale_sae now ap k) eqn:Es; cbn [orb].
  - rewrite (bool_decide_eq_true_2 (k ∈ stale)) by (by apply Hs). by case_match.
  - rewrite (bool_decide_eq_false_2 (k ∈ stale)) by (rewrite Hs; congruence).
    destruct (unresponsive now ap k); [rewrite bool_decide_eq_true_2 by (by apply Hu); done|].
    rewrite bool_decide_eq_false_2; [done|]. rewrite Hu. by intros [].
Qed.

Lemma maintenance_tables now order ap :
  let ap' := run_deadline_maintenance now order ap in
  ap_pending_anonce ap' =
    filter (fun p : bytes * PendingHandshake => duration_since now (ph_created_at p.2) < ANONCE_HOLD) (ap_pending_anonce ap) /\
  ap_pmksa_cache ap' = ap_pmksa_cache (expire_pmksa now ap) /\
  ap_async_sae ap' = option_map (fun w => w <| as_pending :=
    filter (fun p : bytes * PendingSaeCommit => duration_since now (ps_queued_at p.2) < SAE_AUTH_TIMEOUT) (as_pending w) |>)
    (ap_async_sae ap) /\
  ap_maintenance_deadline ap' = foldl (consider now) None (deadlines_left ap').
Proof.
  intros ap'. unfold ap', run_deadline_maintenance. clear ap'. set (ap0 := upd_worker _ (ap <| ap_pending_anonce := _ |>)).
  set (l1 := List.filter (stale_sae now ap0) order). destruct (disconnect_all_tables 15 l1 ap0) as (A1 & C1 & W1).
  set (ap1 := disconnect_all 15 ap0 l1) in *. clearbody ap1.
  set (l2 := List.filter (unresponsive now ap1) order). destruct (disconnect_all_tables 15 l2 ap1) as (A2 & C2 & W2).
  set (ap2 := disconnect_all 15 ap1 l2) in *. clearbody ap2. unfold expire_pmksa. fields.
  split; [by rewrite A2, A1|]. split; [by rewrite C2, C1|]. split; [by rewrite W2, W1|done].
Qed.

Lemma not_expired_later now t0 d : 0 < d -> duration_since now t0 < d -> now < t0 + d.
Proof. unfold duration_since. lia. Qed.

(** C30: a run of the maintenance removes exactly what has run out: held nonces
    after ten seconds, jobs at the SAE worker and unfinished SAE exchanges after
    five, stations that left an SA Query unanswered for 1024 milliseconds, cached
    keys at their expiry. What is left expires later than now, and the next
    maintenance is set for the earliest of it, or for never when nothing is left. *)
Theorem maintenance_complete now order ap :
  iteration_order ap order ->
  let ap' := run_deadline_maintenance now order ap in
  (forall k, ap_stations ap' !! k = if expired now ap k then None else ap_stations ap !! k) /\
  (forall k h, ap_pending_anonce ap' !! k = Some h <->
     ap_pending_anonce ap !! k = Some h /\ duration_since now (ph_created_at h) < ANONCE_HOLD) /\
  (forall k p, sae_pending ap' !! k = Some p <->
     sae_pending ap !! k = Some p /\ duration_since now (ps_queued_at p) < SAE_AUTH_TIMEOUT) /\
  (forall k e, ap_pmksa_cache ap' !! k = Some e <->
     ap_pmksa_cache ap !! k = Some e /\ k.2 = pe_identity e /\ now < pe_expires_at e) /\
  Forall (fun d => now < d) (deadlines_left ap') /\
  match ap_maintenance_deadline ap' with
  | None => deadlines_left ap' = []
  | Some d => d ∈ deadlines_left ap' /\ Forall (fun d' => d <= d') (deadlines_left ap')
  end.
Proof.
  intros Hord ap'. pose proof (maintenance_stations now order ap Hord) as Hst.
  pose proof (maintenance_tables now order ap) as (Ha & Hc & Hw & Hd). fold ap' in Hst, Ha, Hc, Hw, Hd. clearbody ap'.
  assert (Hp : forall k h, ap_pending_anonce ap' !! k = Some h <->
    ap_pending_anonce ap !! k = Some h /\ duration_since now (ph_created_at h) < ANONCE_HOLD)
    by (intros; by rewrite Ha, map_lookup_filter_Some).
  assert (Hq : forall k p, sae_pending ap' !! k = Some p <->
    sae_pending ap !! k = Some p /\ duration_since now (ps_queued_at p) < SAE_AUTH_TIMEOUT).
  { intros k p. unfold sae_pending. rewrite Hw. destruct (ap_async_sae ap) as [w|]; cbn [option_map];
      [fields; by rewrite map_lookup_filter_Some|]. rewrite lookup_empty. naive_solver. }
  assert (He : forall k e, ap_pmksa_cache ap' !! k = Some e <->
    ap_pmksa_cache ap !! k = Some e /\ k.2 = pe_identity e /\ now < pe_expires_at e).
  { intros k e. rewrite Hc. unfold expire_pmksa. fields. by rewrite map_lookup_filter_Some. }
  assert (Hlater : Forall (fun d => now < d) (deadlines_left ap')).
  { unfold deadlines_left. rewrite !Forall_app. split_and!.
    - apply Forall_map, Forall_forall. intros [k h] Hin%elem_of_map_to_list. apply Hp in Hin as [_ Hin].
      by apply not_expired_later.
    - apply Forall_concat, Forall_map, Forall_forall. intros [k s] Hin%elem_of_map_to_list. cbn [snd].
      rewrite Hst in Hin. destruct (expired now ap k) eqn:Ex; [done|]. unfold expired, stale_sae, unresponsive in Ex.
      rewrite Hin in Ex. cbn [mbind option_bind] in Ex. apply orb_false_iff in Ex as [Ex1 Ex2].
      unfold station_deadlines. apply Forall_app. split.
      + destruct (negb (st_associated s)); [|constructor]. destruct (st_sae s) as [sae|] eqn:Es; [|constructor].
        destruct (negb (st_sae_confirmed s)); [|constructor]. cbn. constructor; [|constructor].
        apply not_expired_later; [done|]. apply Z.leb_gt. exact Ex1.
      + destruct (st_sa_query s) as [[t0 st0]|]; constructor; [|constructor]. apply not_expired_later; [done|]. by apply Z.leb_gt.
    - apply Forall_map, Forall_forall. intros [k e] Hin%elem_of_map_to_list. by apply He in Hin as (_ & _ & Hin).
    - apply Forall_map, Forall_forall. intros [k p] Hin%elem_of_map_to_list. apply Hq in Hin as [_ Hin].
      by apply not_expired_later. }
  do 5 (split; [done|]). rewrite Hd. by apply consider_least.
Qed.

(** * Witnesses *)

Lemma undisturbed_refl sta ap : undisturbed sta ap ap.
Proof. by split_and!. Qed.

(** The demo's station, which has been sent message 3 and stays silent. *)
Fixpoint timer_runs (ts : list Z) (ap : Ap) : list (Z * Outgoing) * Ap :=
  match ts with
  | [] => ([], ap)
  | t :: ts =>
      match run_timers t ap no_output with
      | Val (ap, out) => let (rest, ap) := timer_runs ts ap in ((t, out) :: rest, ap)
      | _ => ([], ap)
      end
  end.

Lemma timer_runs_silent sta ts ap : silent sta (timer_runs ts ap).1 ap (timer_runs ts ap).2.
Proof.
  revert ap. induction ts as [|t ts IH]; intros ap; cbn [timer_runs]; [constructor; apply undisturbed_refl|].
  destruct (run_timers t ap no_output) as [[ap1 out]| |] eqn:E; try (constructor; apply undisturbed_refl).
  specialize (IH ap1). destruct (timer_runs ts ap1) as [rest ap2]. cbn [fst snd] in *.
  by apply (silent_run sta t out rest ap ap ap1); [apply undisturbed_refl|..].
Qed.

Definition demo_times : list Z := [secs 1; secs 2; secs 3; secs 4; secs 5].
Definition demo_silence : list (Z * Outgoing) * Ap := Eval vm_compute in timer_runs demo_times demo_after_m2.1.
Definition demo_m3 : bytes := Eval vm_compute in default [] (st_pending_eapol demo_waiting).
Definition demo_timer : timer := Eval vm_compute in
  match ap_eapol_deadlines demo_after_m2.1 with t :: _ => t | [] => (0, 0, []) end.

Lemma unanswered_station_dropped_witness :
  exists sent last rest, demo_silence.1 = sent ++ last :: rest /\ (length sent <= 3)%nat /\
    Forall (fun o => demo_m3 ∈ out_frames o.2) sent /\
    (3 <= sum_list_with (fun o => copies demo_m3 o.2) (sent ++ [last]))%nat /\
    RADIOTAP_TX ++ build_deauth demo_mac demo_sta 15 ∈ out_frames last.2 /\
    ap_stations demo_silence.2 !! demo_sta = None.
Proof.
  destruct (unanswered_station_dropped demo_sta demo_m3 (due_at demo_timer) demo_silence.1 demo_after_m2.1 demo_silence.2 demo_waiting)
    as (sent & lst & rest & H1 & H2 & H3 & H4 & H5 & H6).
  - split; [reflexivity|]. split; [reflexivity|]. by apply (bool_decide_unpack _).
  - vm_compute. discriminate.
  - assert (E : timer_runs demo_times demo_after_m2.1 = demo_silence) by (vm_compute; reflexivity).
    pose proof (timer_runs_silent demo_sta demo_times demo_after_m2.1) as Hs. rewrite E in Hs. exact Hs.
  - vm_compute. intuition discriminate.
  - vm_compute. reflexivity.
  - exists sent, lst, rest. split; [exact H1|]. change (MAX_EAPOL_RETRIES - st_eapol_retries demo_waiting) with 3 in H2, H4.
    split; [lia|]. split; [exact H3|]. split; [lia|]. split; [exact H5|exact H6].
Defined.

(** A station in the middle of an SAE exchange, six seconds after its last
    frame. *)
Definition demo_half_open : Ap := Eval vm_compute in
  with_station (demo_station <| st_sae := st_sae demo_confirmed |>).

Lemma maintenance_complete_witness :
  ap_stations (run_deadline_maintenance (secs 6) [demo_sta] demo_half_open) !! demo_sta = None.
Proof.
  destruct (maintenance_complete (secs 6) [demo_sta] demo_half_open) as (H & _).
  - split; [apply NoDup_singleton|]. intros m. rewrite list_elem_of_singleton.
    split; [intros ->; by eexists|]. intros [s Hs].
    assert (E : ap_stations demo_half_open = <[demo_sta := demo_station <| st_sae := st_sae demo_confirmed |>]> ∅) by reflexivity.
    rewrite E in Hs. by apply lookup_insert_Some in Hs as [[<- _]|[_ Hs]].
  - rewrite (H demo_sta). vm_compute. reflexivity.
Defined.
