(* ===== verification/ApEffects.v ===== *)
(** What the operations of the access point leave alone: the tables of admission
    and the SAE worker, the SAE exchange of a station, and whether a station is
    associated.  One relation with three switches, its rules, and a lemma for
    each handler. *)
From S2P Require Import Prelude Elements Crypto Security Frames Channels DataProt Kde Rsn Advert Mlo Eapol Sae Failures Ap ApConfig ApEapol Demo Handshake ApData ApMgmt ApKeys ApBeacon ApRates ApAdmit ApSae ApExchange ApTimers.

(** Which parts an operation may change. *)
Record effects := { on_tables : bool; on_sae : bool; on_association : bool }.
Definition none : effects := {| on_tables := false; on_sae := false; on_association := false |}.
Definition handshake : effects := {| on_tables := false; on_sae := false; on_association := true |}.
Definition admission : effects := {| on_tables := true; on_sae := true; on_association := false |}.
(** Admission without SAE. *)
Definition association : effects := {| on_tables := true; on_sae := false; on_association := false |}.

(** The configuration and the tables of admission; held nonces may only go. *)
Definition steady (ap ap' : Ap) : Prop :=
  fixed ap' = fixed ap /\ ap_pmksa_cache ap' = ap_pmksa_cache ap /\ ap_async_sae ap' = ap_async_sae ap /\
  ap_test_anonce ap' = ap_test_anonce ap /\ ap_request_rates ap' = ap_request_rates ap /\
  forall k h, ap_pending_anonce ap' !! k = Some h -> ap_pending_anonce ap !! k = Some h.

Definition calm (e : effects) (s s' : Station) : Prop :=
  (on_sae e = false -> st_sae s' = st_sae s /\ (st_sae_confirmed s' = true -> st_sae_confirmed s = true)) /\
  (on_association e = false -> st_associated s' = true -> st_associated s = true).

(** Every record at the end goes back to one at the start, or to a new one. *)
Definition traced (e : effects) (ap ap' : Ap) : Prop :=
  forall k s', ap_stations ap' !! k = Some s' ->
    exists s, (ap_stations ap !! k = Some s \/ exists now g i, s = station_new k now g i) /\ calm e s s'.

Definition quiet (e : effects) (ap ap' : Ap) : Prop :=
  (on_tables e = false -> steady ap ap') /\ traced e ap ap' /\ (on_sae e = false -> ap_async_sae ap' = ap_async_sae ap).

Ltac keeps_tables := unfold steady; split_and!; auto.

#[export] Instance steady_preorder : PreOrder steady.
Proof.
  split; [by intros ap; keeps_tables|]. intros ap1 ap2 ap3 (F1 & C1 & A1 & T1 & R1 & P1) (F2 & C2 & A2 & T2 & R2 & P2).
  unfold steady; split_and!; try congruence. intros k h Hk. by apply P1, P2.
Qed.

#[export] Instance calm_preorder e : PreOrder (calm e).
Proof.
  split; [by split|]. intros s1 s2 s3 [S1 A1] [S2 A2]. split; [|auto].
  intros He. destruct (S1 He), (S2 He). split; [congruence|auto].
Qed.

#[export] Instance quiet_preorder e : PreOrder (quiet e).
Proof.
  split.
  - intros ap. split; [done|]. split; [|done]. intros k s Hs. exists s. split; [by left|done].
  - intros ap1 ap2 ap3 (S1 & T1 & A1) (S2 & T2 & A2). split; [intros He; etrans; eauto|].
    split; [|intros He; rewrite (A2 He); auto]. intros k s3 Hs3.
    destruct (T2 k s3 Hs3) as (s2 & [Hs2|Hnew] & C2); [|exists s2; split; [by right|done]].
    destruct (T1 k s2 Hs2) as (s1 & Hs1 & C1). exists s1. split; [done|]. by etrans.
Qed.

Lemma traced_here e ap k s s' : ap_stations ap !! k = Some s -> calm e s s' ->
  exists s, (ap_stations ap !! k = Some s \/ exists now g i, s = station_new k now g i) /\ calm e s s'.
Proof. intros Hs Hc. exists s. split; [by left|done]. Qed.

(** ** Rules *)

Section Rules.
Context `{Entropy} (e : effects).

Lemma quiet_step ap ap1 ap2 : quiet e ap ap1 -> steady ap1 ap2 -> traced e ap1 ap2 -> quiet e ap ap2.
Proof. intros Hq Hs Ht. etrans; [exact Hq|]. split; [done|]. split; [done|]. intros _. apply Hs. Qed.

Lemma quiet_same ap ap1 ap2 : quiet e ap ap1 -> ap_stations ap2 = ap_stations ap1 ->
  (on_tables e = false -> steady ap1 ap2) -> (on_sae e = false -> ap_async_sae ap2 = ap_async_sae ap1) -> quiet e ap ap2.
Proof.
  intros Hq Hs Ht Ha. etrans; [exact Hq|]. split; [done|]. split; [|done]. intros k s. rewrite Hs. intros E. exists s. split; [by left|done].
Qed.

Lemma quiet_upd sta f ap ap1 : quiet e ap ap1 -> (forall s, calm e s (f s)) -> quiet e ap (upd_station sta f ap1).
Proof.
  intros Hq Hf. apply (quiet_step _ ap1); [exact Hq|by keeps_tables|]. intros k s Hs. unfold upd_station in Hs.
  fields_in Hs. apply lookup_alter_Some in Hs as [(-> & s0 & Hs & ->)|[_ Hs]]; [by apply (traced_here _ _ _ s0)|]. by apply (traced_here _ _ _ s).
Qed.

(** A record rewritten from itself. *)
Lemma quiet_insert sta s s' ap ap1 : quiet e ap ap1 -> ap_stations ap1 !! sta = Some s -> calm e s s' ->
  quiet e ap (ap1 <| ap_stations := <[sta := s']> (ap_stations ap1) |>).
Proof.
  intros Hq Es Hc. apply (quiet_step _ ap1); [exact Hq|by keeps_tables|]. intros k s1 Hs. fields_in Hs.
  apply lookup_insert_Some in Hs as [[-> <-]|[_ Hs]]; [by apply (traced_here _ _ _ s)|]. by apply (traced_here _ _ _ s1).
Qed.

Lemma quiet_disconnect sta r ap ap1 : quiet e ap ap1 -> quiet e ap (disconnect sta r ap1).
Proof.
  intros Hq. apply (quiet_step _ ap1); [exact Hq| |].
  - unfold disconnect. repeat case_match; by keeps_tables.
  - intros k s Hs. rewrite disconnect_stations in Hs. apply lookup_delete_Some in Hs as [_ Hs]. by apply (traced_here _ _ _ s).
Qed.

Lemma quiet_entry now sta ap ap1 : quiet e ap ap1 -> quiet e ap (station_entry now sta ap1).
Proof.
  intros Hq. unfold station_entry. destruct (ap_stations ap1 !! sta) eqn:Es; [done|].
  apply (quiet_step _ ap1); [exact Hq|by keeps_tables|]. intros k s Hs. unfold random_bytes in Hs. fields_in Hs.
  apply lookup_insert_Some in Hs as [[-> <-]|[_ Hs]]; [|by apply (traced_here _ _ _ s)]. eexists. split; [right; by do 3 eexists|done].
Qed.

Lemma quiet_failure sta k ap ap1 : quiet e ap ap1 -> quiet e ap (record_failure sta k ap1).
Proof.
  intros Hq. eapply quiet_same; [exact Hq|apply record_failure_stations| |]; intros _; unfold record_failure;
    destruct (record_failure_entry _ _ _ _); [by keeps_tables|done].
Qed.

Lemma quiet_arm sta ap ap1 : quiet e ap ap1 -> quiet e ap (arm_eapol_timer sta ap1).
Proof.
  intros Hq. apply (quiet_step _ ap1); [exact Hq| |].
  - unfold arm_eapol_timer. repeat case_match; by keeps_tables.
  - intros k s Hs. rewrite arm_eapol_timer_stations in Hs. apply lookup_alter_Some in Hs as [(-> & s0 & Hs & ->)|[_ Hs]].
    + apply (traced_here _ _ _ s0); [done|]. by split.
    + by apply (traced_here _ _ _ s).
Qed.

Lemma quiet_schedule d ap ap1 : quiet e ap ap1 -> quiet e ap (schedule_maintenance d ap1).
Proof.
  intros Hq. unfold schedule_maintenance. repeat case_match; try done; (eapply quiet_same; [exact Hq|done|intros _; by keeps_tables|done]).
Qed.

Lemma held_nonce_dropped sta m ap ap1 : quiet e ap ap1 -> m = delete sta (ap_pending_anonce ap1) ->
  quiet e ap (ap1 <| ap_pending_anonce := m |>).
Proof.
  intros Hq ->. eapply quiet_same; [exact Hq|done| |done]. intros _. unfold steady. split_and!; try done.
  intros k h. fields. intros E. by apply lookup_delete_Some in E as [_ E].
Qed.

(** A step that returns its state in a pair. *)
Lemma quiet_pair {A} (r : A * Ap) x ap ap1 : r = (x, ap1) -> quiet e ap r.2 -> quiet e ap ap1.
Proof. by intros ->. Qed.

Lemma quiet_fold {A} (f : Ap -> A -> Ap) l : (forall ap1 a, quiet e ap1 (f ap1 a)) ->
  forall ap ap1, quiet e ap ap1 -> quiet e ap (foldl f ap1 l).
Proof. intros Hf. induction l as [|a l IH]; intros ap ap1 Hq; [done|]. cbn [foldl]. apply IH. by etrans. Qed.

Lemma quiet_rfold {A B} (f : B * Ap -> A -> res (B * Ap)) l :
  (forall b ap1 a b' ap2, f (b, ap1) a = Val (b', ap2) -> quiet e ap1 ap2) ->
  forall b ap1 b' ap2, rfold f (b, ap1) l = Val (b', ap2) -> quiet e ap1 ap2.
Proof.
  intros Hf. induction l as [|a l IH]; intros b ap1 b' ap2 E; cbn [rfold] in E; [by injection E as _ <-|].
  apply rbind_val_inv in E as ([b1 ap3] & E1 & E2). etrans; [by eapply Hf|by eapply IH].
Qed.
End Rules.

(** What is quiet for one operation is so for one that may do more. *)
Lemma quiet_weaken e e' ap ap' :
  (on_tables e' = false -> on_tables e = false) -> (on_sae e' = false -> on_sae e = false) ->
  (on_association e' = false -> on_association e = false) -> quiet e ap ap' -> quiet e' ap ap'.
Proof.
  intros H1 H2 H3 (S & T & A). split; [auto|]. split; [|auto]. intros k s' Hs. destruct (T k s' Hs) as (s & Ho & [C1 C2]).
  exists s. split; [done|]. split; auto.
Qed.

Lemma none_quiet e ap ap' : quiet none ap ap' -> quiet e ap ap'.
Proof. by apply quiet_weaken. Qed.

(** ** Automation

    [walk E] follows the branches of a handler that has returned; [quiet]
    collects the updates of the branch. *)
Ltac walk E :=
  cbv beta zeta in E;
  lazymatch type of E with
  | rbind _ _ = Val _ => let x := fresh "x" in let H := fresh "Hcall" in
      apply rbind_val_inv in E as (x & H & E); lazymatch type of x with (_ * _)%type => destruct x as [? ?]; cbn [fst snd] in * | _ => idtac end; walk E
  | (if ?b then _ else _) = Val _ => let H := fresh "Hif" in destruct b eqn:H; walk E
  | (let (_, _) := ?p in _) = Val _ => let H := fresh "Hlet" in destruct p as [? ?] eqn:H; walk E
  | match ?x with _ => _ end = Val _ => let H := fresh "Hcase" in destruct x eqn:H; walk E
  | Val _ = Val _ => injection E; clear E; intros; simplify_eq
  | Panic = Val _ => discriminate E
  | OutOfFuel = Val _ => discriminate E
  | _ => idtac
  end.

Create HintDb calms discriminated.

Ltac calm_station :=
  intros; first
    [ solve [auto with calms]
    | solve [split; intros; fields; auto; first [assumption | discriminate | congruence]]
    | idtac ].

Create HintDb calls discriminated.

Ltac quiet :=
  lazymatch goal with
  | |- quiet _ ?ap ?ap => reflexivity
  | |- quiet _ _ (upd_station _ _ _) => apply quiet_upd; [quiet|calm_station]
  | |- quiet _ _ (disconnect _ _ _) => apply quiet_disconnect; quiet
  | |- quiet _ _ (record_failure _ _ _) => apply quiet_failure; quiet
  | |- quiet _ _ (arm_eapol_timer _ _) => apply quiet_arm; quiet
  | |- quiet _ _ (schedule_maintenance _ _) => apply quiet_schedule; quiet
  | |- quiet _ _ (station_entry _ _ _) => apply quiet_entry; quiet
  | |- quiet _ _ (set_field ap_pending_anonce (delete ?sta _) _) => apply (held_nonce_dropped _ sta); [quiet|reflexivity]
  | |- quiet _ _ (set_field ?f ?v ?ap1) => apply (quiet_same _ _ ap1);
      [quiet|generalize v ap1; done|generalize v ap1; intros ? ? Htab; first [discriminate Htab|congruence|by keeps_tables]
      |generalize v ap1; intros ? ? Htab; first [discriminate Htab|congruence|done]]
  | |- quiet _ _ (push_event _ ?ap1) => apply (quiet_same _ _ ap1); [quiet|generalize ap1; done|generalize ap1; intros; by keeps_tables|generalize ap1; done]
  | |- quiet _ _ (next_sc ?ap1).2 => apply (quiet_same _ _ ap1); [quiet|generalize ap1; done|generalize ap1; intros; by keeps_tables|generalize ap1; done]
  | |- quiet _ _ (next_aid ?ap1).2 => apply (quiet_same _ _ ap1); [quiet|generalize ap1; done|generalize ap1; intros; by keeps_tables|generalize ap1; done]
  | |- quiet _ _ (next_eapol_replay ?ap1).2 => apply (quiet_same _ _ ap1); [quiet|generalize ap1; done|generalize ap1; intros; by keeps_tables|generalize ap1; done]
  | |- quiet _ _ (random_bytes _ ?ap1).2 => apply (quiet_same _ _ ap1); [quiet|generalize ap1; done|generalize ap1; intros; by keeps_tables|generalize ap1; done]
  | |- quiet _ _ (_, ?ap1).2 => cbn [snd]; quiet
  | |- quiet _ _ ((if ?b then _ else _).1) => destruct b; cbn [fst]; quiet
  | |- quiet _ _ ((if ?b then _ else _).2) => destruct b; cbn [snd]; quiet
  | |- quiet _ _ ((match ?b with _ => _ end).2) => destruct b; cbn [snd]; quiet
  | |- quiet _ _ (if ?b then _ else _) => destruct b; quiet
  | |- quiet _ _ (match ?b with _ => _ end) => destruct b; quiet
  | H : ?r = (_, ?ap1) |- quiet _ _ ?ap1 =>
      first [etrans; [|solve [eauto 3 with calls]]; quiet|apply (quiet_pair _ _ _ _ _ H); quiet]
  | |- quiet _ _ _ => etrans; [|solve [eauto with calls]]; quiet
  end.

Section Handlers.
Context `{Entropy} `{HashOrder} {P : Primitives} {C : P256}.
Context (e : effects).

(** ** Protected management *)

Lemma next_pairwise_pn_quiet sta ap pn ap1 : next_pairwise_pn sta ap = Some (pn, ap1) -> quiet e ap ap1.
Proof.
  unfold next_pairwise_pn. destruct (ap_stations ap !! sta) as [s|] eqn:Es; [|done]. cbn [mbind option_bind].
  unfold next_client_pn. destruct (_ <? _); [done|]. cbn [mbind option_bind]. intros [= _ <-].
  eapply quiet_insert; [done|done|]. calm_station.
Qed.
#[local] Hint Resolve next_pairwise_pn_quiet : calls.

Lemma protected_tx_quiet sta build ap o ap1 : protected_tx sta build ap = Val (o, ap1) -> quiet e ap ap1.
Proof. unfold protected_tx. intros E. walk E; quiet. Qed.
#[local] Hint Resolve protected_tx_quiet : calls.

Lemma protected_mgmt_body_quiet frame rx ap o ap1 : protected_mgmt_body frame rx ap = Val (o, ap1) -> quiet e ap ap1.
Proof. unfold protected_mgmt_body. intros E. walk E; quiet. Qed.
#[local] Hint Resolve protected_mgmt_body_quiet : calls.

Lemma sa_query_challenge_quiet now sta ap out r : sa_query_challenge now sta ap out = Val r -> quiet e ap r.1.
Proof. unfold sa_query_challenge, sa_query_trans. intros E. walk E; cbn [fst]; quiet. Qed.

Lemma handle_robust_mgmt_quiet frame rx ap ap1 : handle_robust_mgmt frame rx ap = Val ap1 -> quiet e ap ap1.
Proof. unfold handle_robust_mgmt. intros E. walk E; quiet. Qed.

Lemma sa_query_answered_calm t s : calm e s (sa_query_answered t s).
Proof. unfold sa_query_answered. repeat case_match; calm_station. Qed.
#[local] Hint Resolve sa_query_answered_calm : calms.

Lemma handle_action_quiet frame rx ap out r : handle_action frame rx ap out = Val r -> quiet e ap r.1.
Proof. unfold handle_action, handle_unprotected_action. intros E. walk E; cbn [fst]; quiet. Qed.

Lemma deauth_frame_quiet sta reason ap r : deauth_frame sta reason ap = Val r -> quiet e ap r.2.
Proof.
  unfold deauth_frame, protected_deauth, rmap. intros E. walk E. cbn [snd]. walk Hcall. unfold prepended in *.
  cbn [fst snd] in *. simplify_eq. quiet.
Qed.

(** ** Data and advertisement *)

Lemma handle_data_uplink_quiet frame ap out r : handle_data_uplink frame ap out = Val r -> quiet e ap r.1.
Proof. unfold handle_data_uplink. intros E. walk E; cbn [fst]; quiet. Qed.

Lemma pairwise_tx_key_quiet eth dst src ap k ap1 : pairwise_tx_key eth dst src ap = Val (Some (k, ap1)) -> quiet e ap ap1.
Proof.
  unfold pairwise_tx_key, next_client_pn. intros E. walk E; (eapply quiet_insert; [reflexivity|eassumption|]);
    match goal with X : (if _ then _ else _) = Some _ |- _ => destruct (_ <? _) in X; [discriminate|injection X as _ <-] end; calm_station.
Qed.
#[local] Hint Resolve pairwise_tx_key_quiet : calls.

Lemma tx_key_for_quiet eth ap k ap1 : tx_key_for eth ap = Val (Some (k, ap1)) -> quiet e ap ap1.
Proof. unfold tx_key_for, group_tx_key, next_group_pn. intros E. walk E; [|quiet..]. repeat case_match; simplify_eq. quiet. Qed.
#[local] Hint Resolve tx_key_for_quiet : calls.

Lemma deliver_to_station_quiet eth ap r : deliver_to_station eth ap = Val r -> quiet e ap r.2.
Proof. unfold deliver_to_station. intros E. walk E; cbn [snd]; quiet. Qed.

Lemma send_probe_resp_quiet now dst ap out r : send_probe_resp now dst ap out = Val r -> quiet e ap r.1.
Proof. unfold send_probe_resp. intros E. walk E; cbn [fst]; quiet. Qed.

Lemma handle_probe_req_quiet now frame ap out r : handle_probe_req now frame ap out = Val r -> quiet e ap r.1.
Proof. unfold handle_probe_req. intros E. walk E; cbn [fst]; try quiet; by eapply send_probe_resp_quiet. Qed.

(** ** Group rekey, timers and reports *)

Lemma send_msg1_quiet now ids r g sta ap f ap1 : send_msg1 now ids r g sta ap = Val (f, ap1) -> quiet e ap ap1.
Proof. unfold send_msg1. intros E. walk E; quiet. Qed.
#[local] Hint Resolve send_msg1_quiet : calls.

Lemma rekey_station_quiet now g fs ap sta fs' ap1 : rekey_station now g (fs, ap) sta = Val (fs', ap1) -> quiet e ap ap1.
Proof. unfold rekey_station. intros E. walk E; quiet. Qed.

Lemma rekey_own_station_quiet now rsc fs ap sta fs' ap1 :
  rekey_own_station now rsc (fs, ap) sta = Val (fs', ap1) -> quiet e ap ap1.
Proof. unfold rekey_own_station. intros E. walk E; quiet. Qed.

Lemma rotate_base_keys_quiet now ap : quiet e ap (rotate_base_keys now ap).
Proof.
  unfold rotate_base_keys. destruct (random_bytes 16 ap) as [igtk ap1] eqn:E1. destruct (random_bytes 32 _) as [gtk ap2] eqn:E2. quiet.
Qed.
Lemma rotate_bss_keys_quiet now ap : quiet e ap (rotate_bss_keys now ap).
Proof.
  unfold rotate_bss_keys. destruct (random_bytes 32 ap) as [gtk ap1] eqn:E1. destruct (random_bytes 16 _) as [igtk ap2] eqn:E2. quiet.
Qed.

Lemma rekey_gtk_quiet now order ap fs ap1 : rekey_gtk now order ap = Val (fs, ap1) -> quiet e ap ap1.
Proof.
  unfold rekey_gtk, rekey_gtk_per_sta. intros E. destruct (any_station _ _); [walk E; quiet|].
  destruct (ap_per_sta_vif ap); cbv zeta in E; apply (quiet_rfold e) in E.
  - etrans; [apply rotate_base_keys_quiet|exact E].
  - intros. by eapply rekey_own_station_quiet.
  - etrans; [apply rotate_bss_keys_quiet|exact E].
  - intros. by eapply rekey_station_quiet.
Qed.
#[local] Hint Resolve rekey_gtk_quiet : calls.

Lemma rekey_due_quiet now order ap out r : rekey_due now order ap out = Val r -> quiet e ap r.1.
Proof. unfold rekey_due. intros E. walk E; cbn [fst]; quiet. Qed.

Lemma resent_calm now s : calm e s (resent now s).
Proof. unfold resent. calm_station. Qed.
#[local] Hint Resolve resent_calm : calms.

Lemma fire_timer_quiet now g m ap out : quiet e ap (fire_timer now g m ap out).1.
Proof. unfold fire_timer. repeat case_match; cbn [fst]; quiet. Qed.

Lemma run_timers_quiet now ap out r : run_timers now ap out = Val r -> quiet e ap r.1.
Proof.
  destruct (run_timers_ind (fun ap1 _ => quiet e ap ap1) now) with (ap := ap) (out := out) as (ap' & out' & E & H' & _).
  - intros t rest ap1 out1 _ _ H1. cbn zeta. etrans; [|apply fire_timer_quiet]. quiet.
  - done.
  - rewrite E. intros [= <-]. exact H'.
Qed.

Lemma note_eapol_acked_quiet now sta ap : quiet e ap (note_eapol_acked now sta ap).
Proof. unfold note_eapol_acked. apply quiet_arm, quiet_upd; [done|]. intros s. destruct (_ && _); calm_station. Qed.
Lemma note_eapol_transmitted_quiet now sta ap : quiet e ap (note_eapol_transmitted now sta ap).
Proof. unfold note_eapol_transmitted. quiet. Qed.
Lemma note_assoc_response_not_acked_quiet sta ap : quiet e ap (note_assoc_response_not_acked sta ap).
Proof.
  unfold note_assoc_response_not_acked, cancel_eapol_timer. apply quiet_upd; [|calm_station]. apply quiet_upd; [done|].
  intros s. assert (E : st_sae (response_lost s) = st_sae s /\ st_sae_confirmed (response_lost s) = st_sae_confirmed s /\
    st_associated (response_lost s) = st_associated s) by (unfold response_lost; cbv zeta; case_match; by split_and!).
  destruct E as (E1 & E2 & E3). split; [by rewrite E1, E2|by rewrite E3].
Qed.

Lemma disconnect_all_quiet r ap l : quiet e ap (disconnect_all r ap l).
Proof. apply quiet_fold; [|done]. intros. quiet. Qed.

Lemma prune_idle_quiet now d order ap r : prune_idle now d order ap = Val r -> quiet e ap r.2.
Proof.
  unfold prune_idle. cbv zeta. destruct r as [fs ap']. intros E. cbn [snd]. apply (quiet_rfold e) in E.
  - etrans; [apply (disconnect_all_quiet 15)|exact E].
  - intros b ap1 a b' ap2 E1. walk E1. apply quiet_disconnect. by eapply (deauth_frame_quiet _ _ _ (_, _)).
Qed.

Lemma kick_quiet mac ap r : kick mac ap = Val r -> quiet e ap r.2.
Proof.
  unfold kick. intros E. walk E; cbn [snd]; [|done]. apply quiet_disconnect. by eapply (deauth_frame_quiet _ _ _ (_, _)).
Qed.

Lemma group_deauth_quiet reason ap r : group_deauth reason ap = Val r -> quiet e ap r.2.
Proof. unfold group_deauth. intros E. walk E; cbn [snd]; quiet. Qed.

(** ** The handshake *)

Lemma build_m3_quiet sta s a k r ap m ap1 : build_m3 sta s a k r ap = Val (m, ap1) -> quiet e ap ap1.
Proof. unfold build_m3. cbv zeta. intros E. walk E; quiet. Qed.
#[local] Hint Resolve build_m3_quiet : calls.

Lemma accept_m2_quiet now sta s a pmk k kd ap out r : accept_m2 now sta s a pmk k kd ap out = Val r -> quiet e ap r.1.
Proof.
  unfold accept_m2, btm_request_frame. intros E. walk E; cbn [fst]; quiet.
Qed.

Lemma handle_m2_quiet now sta s eapol ek ap out r : handle_m2 now sta s eapol ek ap out = Val r -> quiet e ap r.1.
Proof. unfold handle_m2. intros E. walk E; cbn [fst]; try quiet; by eapply accept_m2_quiet. Qed.

Lemma handle_group_msg2_quiet now sta s eapol ek ap ap1 : handle_group_msg2 now sta s eapol ek ap = Val ap1 -> quiet e ap ap1.
Proof. unfold handle_group_msg2. intros E. walk E; quiet. Qed.
#[local] Hint Resolve handle_group_msg2_quiet : calls.

(** Message 4 alone begins an association. *)
Lemma install_ptk_calm c s : on_association e = true -> calm e s (install_ptk c s).
Proof. intros He. split; intros; [|congruence]. unfold install_ptk. cbv zeta. case_match; by split. Qed.
#[local] Hint Resolve install_ptk_calm : calms.

Lemma handle_m4_quiet sta s eapol ek ap ap1 : on_association e = true -> handle_m4 sta s eapol ek ap = Val ap1 -> quiet e ap ap1.
Proof.
  intros He. unfold handle_m4. intros E. walk E; quiet.
Qed.
#[local] Hint Resolve handle_m4_quiet : calls.

Lemma handle_eapol_quiet now frame ap out r : on_association e = true -> handle_eapol now frame ap out = Val r -> quiet e ap r.1.
Proof.
  intros He. unfold handle_eapol. intros E. walk E; cbn [fst]; try quiet. by eapply handle_m2_quiet.
Qed.

End Handlers.

(** * Admission begins no association either *)

Section Admission.
Context `{Entropy} `{HashOrder} {P : Primitives} {C : P256} (e : effects).
Hypothesis tables_may_change : on_tables e = true.

Lemma quiet_stations ap ap1 ap2 : quiet e ap ap1 -> ap_stations ap2 = ap_stations ap1 ->
  (on_sae e = false -> ap_async_sae ap2 = ap_async_sae ap1) -> quiet e ap ap2.
Proof. intros Hq Es Ea. apply (quiet_same _ _ ap1); [done|done|congruence|done]. Qed.

Lemma request_rate_quiet sta now ap o ap1 : request_rate_entry sta now ap = (o, ap1) -> quiet e ap ap1.
Proof. unfold request_rate_entry. intros E. apply (quiet_stations _ ap); [done|..]; repeat case_match; simplify_eq; done. Qed.

Lemma allow_auth_quiet sta now ap b ap1 : allow_auth_request sta now ap = (b, ap1) -> quiet e ap ap1.
Proof.
  unfold allow_auth_request. intros E. destruct (request_rate_entry sta now ap) as [o ap2] eqn:Er. apply request_rate_quiet in Er.
  apply (quiet_stations _ ap2); [done|..]; repeat case_match; simplify_eq; done.
Qed.
Lemma allow_assoc_quiet sta now ap b ap1 : allow_assoc_request sta now ap = (b, ap1) -> quiet e ap ap1.
Proof.
  unfold allow_assoc_request. intros E. destruct (request_rate_entry sta now ap) as [o ap2] eqn:Er. apply request_rate_quiet in Er.
  apply (quiet_stations _ ap2); [done|..]; repeat case_match; simplify_eq; done.
Qed.

Lemma cache_pmksa_quiet now i m k b ap ap1 : quiet e ap ap1 -> quiet e ap (cache_pmksa now i m k b ap1).
Proof.
  intros Hq. apply (quiet_stations _ ap1); [done|..]; unfold cache_pmksa, schedule_maintenance; cbv zeta; by repeat case_match.
Qed.

Lemma reject_quiet sta reassoc status ap out : quiet e ap (reject_assoc_status sta reassoc status ap out).1.
Proof. by apply (quiet_stations _ ap). Qed.

Lemma pmksa_lookup_quiet now sta ids ap ap1 : quiet e ap ap1 -> quiet e ap (pmksa_lookup now sta ids ap1).
Proof.
  intros Hq. unfold pmksa_lookup, expire_pmksa. cbv zeta. case_match; [apply quiet_upd; [|calm_station]|]; by apply (quiet_stations _ ap1).
Qed.

Lemma owe_keypair_quiet fuel ap p ap1 : owe_keypair fuel ap = Val (p, ap1) -> quiet e ap ap1.
Proof. unfold owe_keypair. intros E. walk E. by apply (quiet_stations _ ap). Qed.
#[local] Hint Resolve owe_keypair_quiet : calls.

Lemma owe_exchange_quiet fuel sta b ap o ap1 : owe_exchange fuel sta b ap = Val (o, ap1) -> quiet e ap ap1.
Proof. unfold owe_exchange, owe_keyed. intros E. walk E; quiet. Qed.
#[local] Hint Resolve owe_exchange_quiet : calls.

Lemma m1_nonce_quiet now sta ap p ap1 : m1_nonce now sta ap = (p, ap1) -> quiet e ap ap1.
Proof. intros E. apply (quiet_stations _ ap); [done|..]; revert E; unfold m1_nonce;
  repeat case_match; intros; unfold next_eapol_replay, random_bytes in *; simplify_eq; done. Qed.
#[local] Hint Resolve m1_nonce_quiet allow_auth_quiet allow_assoc_quiet : calls.

Lemma note_request_calm w cw tr mld link b r s : calm e s (note_request w cw tr mld link b r s).
Proof.
  pose proof (note_request_session w cw tr mld link b r s) as E. unfold session in E. injection E. intros.
  split; intros; [split|]; congruence.
Qed.
#[local] Hint Resolve note_request_calm : calms.

Lemma assoc_response_quiet sta st dh ap f ap1 : assoc_response sta st dh ap = Val (f, ap1) -> quiet e ap ap1.
Proof. unfold assoc_response. intros E. walk E; quiet. Qed.
#[local] Hint Resolve assoc_response_quiet : calls.

Lemma start_four_way_quiet now sta c a ap out r : start_four_way now sta c a ap out = Val r -> quiet e ap r.1.
Proof. unfold start_four_way, eapol_sent, m1_started. intros E. walk E; cbn [fst]; quiet. Qed.

Lemma admit_station_quiet now sta st c dh ap out r : admit_station now sta st c dh ap out = Val r -> quiet e ap r.1.
Proof.
  unfold admit_station, eapol_sent. intros E. walk E; cbn [fst]; try quiet. etrans; [|by eapply start_four_way_quiet]. quiet.
Qed.

Lemma admit_keyed_quiet fuel now sta re b r0 ap out r : admit_keyed fuel now sta re b r0 ap out = Val r -> quiet e ap r.1.
Proof.
  unfold admit_keyed. intros E. assert (Hl : quiet e ap (pmksa_lookup now sta (default [] (parse_rsn_pmkids (ar_rsn r0))) ap))
    by (by apply pmksa_lookup_quiet).
  revert E. cbv zeta. generalize dependent (pmksa_lookup now sta (default [] (parse_rsn_pmkids (ar_rsn r0))) ap). intros ap1 Hl E.
  etrans; [exact Hl|]. walk E.
  - apply reject_quiet.
  - etrans; [by eapply owe_exchange_quiet|]. apply reject_quiet.
  - etrans; [by eapply owe_exchange_quiet|]. by eapply admit_station_quiet.
  - etrans; [by eapply owe_exchange_quiet|]. apply reject_quiet.
Qed.

Lemma handle_assoc_req_quiet fuel now frame ap out r : handle_assoc_req fuel now frame ap out = Val r -> quiet e ap r.1.
Proof.
  unfold handle_assoc_req. intros E. walk E; cbn [fst]; try quiet; try apply reject_quiet.
  - etrans; [|by eapply sa_query_challenge_quiet]. quiet.
  - etrans; [|by eapply admit_keyed_quiet]. quiet.
  - etrans; [|apply reject_quiet]. quiet.
Qed.

Lemma retire_session_calm now gtk s : calm e s (retire_session now gtk s).
Proof. split; [by intros _|intros _ [=]]. Qed.
#[local] Hint Resolve retire_session_calm : calms.

Lemma restart_session_quiet now sta s ap o ap1 : restart_session now sta s ap = (o, ap1) -> quiet e ap ap1.
Proof.
  unfold restart_session. destruct (random_bytes 16 ap) as [gtk ap2] eqn:E2. repeat case_match; intros; simplify_eq; quiet.
Qed.
#[local] Hint Resolve restart_session_quiet : calls.

Lemma open_auth_quiet now sta ap out r : open_auth now sta ap out = Val r -> quiet e ap r.1.
Proof. unfold open_auth. intros E. walk E; cbn [fst]; quiet. Qed.

End Admission.

(** ** SAE *)

Section SaeEffects.
Context `{Entropy} `{HashOrder} {P : Primitives} {C : P256}.
Local Notation stations_kept := (quiet_stations admission eq_refl).
#[local] Hint Resolve allow_auth_quiet allow_assoc_quiet : calls.


Lemma finish_sae_confirm_quiet now sta payload ap ap1 : finish_sae_confirm now sta payload ap = Val ap1 -> quiet admission ap ap1.
Proof.
  unfold finish_sae_confirm, sae_confirmed_station. intros E. walk E; try quiet.
  cbv zeta. case_match; [apply (cache_pmksa_quiet admission eq_refl)|]; quiet.
Qed.

Lemma sae_committed_calm now sae h2e mld resp c s : calm admission s (sae_committed now sae h2e mld resp c s).
Proof. split; [intros [=]|]. intros _. unfold sae_committed. cbv zeta. by destruct mld. Qed.
#[local] Hint Resolve sae_committed_calm finish_sae_confirm_quiet : calms calls.

Lemma finish_sae_commit_quiet now res c ap out r : finish_sae_commit now res c ap out = Val r -> quiet admission ap r.1.
Proof. unfold finish_sae_commit. intros E. walk E; cbn [fst]; quiet. Qed.

Lemma request_token_quiet now sta h2e c ap ap1 out : quiet admission ap ap1 ->
  quiet admission ap (request_sae_token now sta h2e c ap1 out).1.
Proof. intros Hq. apply (stations_kept ap ap1); [done|..]; unfold request_sae_token; case_match; done. Qed.

Lemma queue_sae_commit_quiet now job ap out r : queue_sae_commit now job ap out = Val r -> quiet admission ap r.1.
Proof.
  unfold queue_sae_commit. intros E. walk E; cbn [fst]; try quiet. apply request_token_quiet. quiet.
Qed.

Lemma start_sae_commit_quiet fuel now sta h2e c ap out r :
  start_sae_commit fuel now sta h2e c ap out = Val r -> quiet admission ap r.1.
Proof.
  unfold start_sae_commit. intros E. walk E; cbn [fst]; try quiet; [by eapply queue_sae_commit_quiet|].
  etrans; [|by eapply finish_sae_commit_quiet]. quiet.
Qed.

Lemma handle_sae_commit_quiet fuel now sta h2e p ap out r :
  handle_sae_commit fuel now sta h2e p ap out = Val r -> quiet admission ap r.1.
Proof.
  unfold handle_sae_commit. intros E. walk E; cbn [fst]; try quiet; try (by apply request_token_quiet).
  by eapply start_sae_commit_quiet.
Qed.

Lemma handle_sae_auth_quiet fuel now sta seq st p ap out r :
  handle_sae_auth fuel now sta seq st p ap out = Val r -> quiet admission ap r.1.
Proof.
  unfold handle_sae_auth. intros E. walk E; cbn [fst]; try quiet; try (by apply (stations_kept ap ap)).
  by eapply handle_sae_commit_quiet.
Qed.

Lemma handle_auth_req_quiet fuel now frame ap out r : handle_auth_req fuel now frame ap out = Val r -> quiet admission ap r.1.
Proof.
  unfold handle_auth_req. intros E. walk E; cbn [fst]; try quiet.
  - etrans; [|by eapply sa_query_challenge_quiet]. quiet.
  - etrans; [|by eapply handle_sae_auth_quiet]. quiet.
  - etrans; [|by eapply open_auth_quiet]. quiet.
Qed.

Lemma poll_sae_work_quiet now ap out r : poll_sae_work now ap out = Val r -> quiet admission ap r.1.
Proof.
  unfold poll_sae_work. cbv zeta. generalize (S (S (match ap_async_sae ap with Some w => length (as_results w) | None => O end))).
  intros fuel. revert ap out. induction fuel as [|fuel IH]; intros ap out E; [done|]. cbn [loop] in E.
  apply rbind_val_inv in E as (st & Es & E).
  assert (Hq : match st with inl s => quiet admission ap s.1 | inr v => quiet admission ap v.1 end).
  { clear E IH. unfold poll_step, rmap in Es. walk Es; cbn [fst]; try solve [quiet].
    etrans; [|by eapply (finish_sae_commit_quiet _ _ _ _ _ (_, _))]. quiet. }
  destruct st as [[ap1 out1]|v]; [etrans; [exact Hq|by eapply IH]|by injection E as <-].
Qed.

Lemma maintenance_quiet now order ap : quiet admission ap (run_deadline_maintenance now order ap).
Proof.
  unfold run_deadline_maintenance. set (ap0 := upd_worker _ (ap <| ap_pending_anonce := _ |>)).
  assert (Q0 : quiet admission ap ap0) by (by apply (stations_kept ap ap)). clearbody ap0.
  set (l1 := List.filter _ order). pose proof (disconnect_all_quiet admission 15 ap0 l1) as Q1.
  set (ap1 := disconnect_all 15 ap0 l1) in *. clearbody ap1.
  set (l2 := List.filter _ order). pose proof (disconnect_all_quiet admission 15 ap1 l2) as Q2.
  set (ap2 := disconnect_all 15 ap1 l2) in *. clearbody ap2. cbv zeta.
  apply (stations_kept ap ap2); [|reflexivity|done]. etrans; [exact Q0|]. by etrans.
Qed.

Lemma tick_quiet now order ap r : tick now order ap = Val r -> quiet admission ap r.1.
Proof.
  unfold tick. intros E. apply rbind_val_inv in E as ([ap1 out1] & E1 & E). apply poll_sae_work_quiet in E1. cbn [fst] in E1.
  apply rbind_val_inv in E as ([ap2 out2] & E2 & E). apply (rekey_due_quiet admission) in E2. cbn [fst] in E2.
  apply (run_timers_quiet admission) in E. etrans; [exact E1|]. etrans; [|exact E]. etrans; [|exact E2].
  case_match; [apply maintenance_quiet|done].
Qed.

End SaeEffects.
