(* ===== verification/ApSystem.v ===== *)
(** The access point as a whole: [handle_incoming] of src/ap/receive.rs, which
    sends a received frame to its handler, and the runs of the state machine:
    received frames, ticks, deliveries, reports of the transmitter and
    administrative actions in any order. *)
From S2P Require Import Prelude Elements Crypto Security Frames Channels DataProt Kde Rsn Advert Mlo Eapol Sae Failures Roaming Ap ApConfig ApEapol Demo Handshake ApData ApMgmt ApKeys ApBeacon ApRates ApAdmit ApSae ApExchange ApTimers ApEffects.

(** * The dispatch *)

(** The address filter: a frame for this access point, or a group-addressed
    frame of somebody else. *)
Definition addressed (frame : Dot11) (ap : Ap) : bool :=
  let a1 := addr1 frame in
  if negb (beq a1 (ap_mac ap)) then
    if is_multicast a1 || is_broadcast a1 then negb (beq (addr2 frame) (ap_mac ap)) else false
  else true.

Section Dispatch.
Context `{Entropy} `{HashOrder} {P : Primitives} {C : P256}.

(** [fuel] bounds the search for an OWE or SAE secret, [now] is the clock. *)
Definition dispatch (fuel : nat) (now : Z) (rx : ManagementRx) (frame : Dot11) (ap : Ap) (out : Outgoing) :
    res (Ap * Outgoing) :=
  if (frame_type frame =? TYPE_DATA) && protected frame then
    if to_ds frame then handle_data_uplink frame ap out else Val (ap, out)
  else
    let! eapol := is_eapol frame in
    if eapol then handle_eapol now frame ap out
    else if frame_type frame =? TYPE_MGMT then
      let st := subtype frame in
      if st =? SUBTYPE_PROBE_REQ then handle_probe_req now frame ap out
      else if st =? SUBTYPE_AUTH then handle_auth_req fuel now frame ap out
      else if (st =? SUBTYPE_ASSOC_REQ) || (st =? SUBTYPE_REASSOC_REQ) then handle_assoc_req fuel now frame ap out
      else if (st =? SUBTYPE_DEAUTH) || (st =? SUBTYPE_DISASSOC) then
        let! ap := handle_robust_mgmt frame rx ap in Val (ap, out)
      else if st =? SUBTYPE_ACTION then handle_action frame rx ap out
      else Val (ap, out)
    else Val (ap, out).

Definition heard (now : Z) (s : Station) : Station := s <| st_last_activity := now |>.

(** What [handle_incoming_from] takes in: a frame with a good checksum, behind a
    radiotap header, that parses and is addressed to this access point. *)
Definition accepted_frame (ap : Ap) (octets : bytes) : res (option Dot11) :=
  let! bad := radiotap_bad_fcs octets in
  if bad then Val None
  else
    let! stripped := strip_radiotap octets in
    match stripped with
    | None => Val None
    | Some b =>
        let! parsed := parse b in
        Val (match parsed with
             | Some frame => if addressed frame ap then Some frame else None
             | None => None
             end)
    end.

Definition handle_incoming_from (fuel : nat) (now : Z) (rx : ManagementRx) (octets : bytes) (ap : Ap) :
    res (Ap * Outgoing) :=
  let out := no_output in
  let! accepted := accepted_frame ap octets in
  match accepted with
  | None => Val (ap, out)
  | Some frame => dispatch fuel now rx frame (upd_station (addr2 frame) (heard now) ap) out
  end.

Definition handle_incoming (fuel : nat) (now : Z) (octets : bytes) (ap : Ap) : res (Ap * Outgoing) :=
  handle_incoming_from fuel now Userspace octets ap.
Definition handle_kernel_incoming (fuel : nat) (now : Z) (octets : bytes) (ap : Ap) : res (Ap * Outgoing) :=
  handle_incoming_from fuel now Kernel octets ap.

End Dispatch.

(** * Runs of the access point *)

(** Whatever the loops around the state machine do to it.  [order] is the order
    in which the station map is visited; the worker's moves are the thread of
    src/ap/runtime.rs. *)
Inductive ap_event :=
| Received (rx : ManagementRx) (octets : bytes)
| Ticked (order : list bytes)
| WorkerTook
| WorkerAnswered (draws : N)
| Delivered (eth : bytes)
| Acked (sta : bytes)
| Transmitted (sta : bytes)
| ResponseLost (sta : bytes)
| Kicked (sta : bytes)
| Pruned (max_idle : Z) (order : list bytes)
| GroupDeauthed (reason : Z).

(** The arguments are octets, and a walk of the station map visits a key once. *)
Definition ap_event_ok (ev : ap_event) : Prop :=
  match ev with
  | Received _ octets => wf_bytes octets
  | Ticked order => NoDup order
  | Delivered eth => wf_bytes eth /\ Z.of_nat (length eth) < 2 ^ 16
  | GroupDeauthed reason => 0 <= reason < 2 ^ 16
  | _ => True
  end.

Section Runs.
Context `{Entropy} `{HashOrder} {P : Primitives} {C : P256}.

Definition frames_only (r : list bytes * Ap) : Ap * Outgoing := (r.2, foldl (fun out f => out_push f out) no_output r.1).

Definition ap_step (fuel : nat) (now : Z) (ev : ap_event) (ap : Ap) : res (Ap * Outgoing) :=
  match ev with
  | Received rx octets => handle_incoming_from fuel now rx octets ap
  | Ticked order => tick now order ap
  | WorkerTook => Val (upd_worker worker_take ap, no_output)
  | WorkerAnswered draws => Val (upd_worker (worker_answer fuel draws) ap, no_output)
  | Delivered eth => rmap frames_only (deliver_to_station eth ap)
  | Acked sta => Val (note_eapol_acked now sta ap, no_output)
  | Transmitted sta => Val (note_eapol_transmitted now sta ap, no_output)
  | ResponseLost sta => Val (note_assoc_response_not_acked sta ap, no_output)
  | Kicked sta => rmap (fun r => frames_only (option_list r.1, r.2)) (kick sta ap)
  | Pruned max_idle order => rmap frames_only (prune_idle now max_idle order ap)
  | GroupDeauthed reason => rmap (fun r => frames_only ([r.1], r.2)) (group_deauth reason ap)
  end.

(** A run returns the state at its end and what was sent at each event. *)
Fixpoint ap_run (fuel : nat) (evs : list (Z * ap_event)) (ap : Ap) : res (Ap * list Outgoing) :=
  match evs with
  | [] => Val (ap, [])
  | (now, ev) :: rest =>
      let! '(ap, out) := ap_step fuel now ev ap in
      let! '(ap, outs) := ap_run fuel rest ap in
      Val (ap, out :: outs)
  end.

Lemma ap_run_app fuel evs1 evs2 : forall ap,
  ap_run fuel (evs1 ++ evs2) ap =
  (let! '(ap1, outs1) := ap_run fuel evs1 ap in
   let! '(ap2, outs2) := ap_run fuel evs2 ap1 in Val (ap2, outs1 ++ outs2)).
Proof.
  induction evs1 as [|[now ev] evs IH]; intros ap; cbn [app ap_run rbind].
  - by destruct (ap_run fuel evs2 ap) as [[? ?]| |].
  - destruct (ap_step fuel now ev ap) as [[ap1 out]| |]; cbn [rbind]; [|done..]. rewrite IH.
    destruct (ap_run fuel evs ap1) as [[ap2 o2]| |]; cbn [rbind]; [|done..]. by destruct (ap_run fuel evs2 ap2) as [[? ?]| |].
Qed.

End Runs.

(** * No octets stop the access point *)

(** What a step may do, seen from the invariant: see [sae_moves]. *)
Section Moves.
Context `{Entropy} `{!EntropyOk _} `{HashOrder} `{!HashOrderOk _}.
Context {P : Primitives} {Pok : PrimitivesOk P} {C : P256} {Cok : P256Ok C}.

Lemma quiet_moves e ap ap' :
  on_sae e = false -> quiet e ap ap' -> sae_inv ap -> ap_ok ap' -> admit_ok ap' -> fixed ap' = fixed ap -> sae_moves ap ap'.
Proof.
  intros He (_ & T & Ha) I Hok A F. constructor; [constructor; [done|done| |]|done|].
  - intros k s' Hs. destruct (T k s' Hs) as (s & [Hs0|(t0 & g & i & ->)] & Cs & _); destruct (Cs He) as [-> _]; [|done].
    exact (si_states ap I k s Hs0).
  - rewrite (Ha He). apply I.
  - intros k s' Hs Hc. destruct (T k s' Hs) as (s & [Hs0|(t0 & g & i & ->)] & Cs & _); destruct (Cs He) as [Es Ec].
    + left. exists s. auto.
    + by apply Ec in Hc.
Qed.

(** An operation that leaves the tables of admission alone. *)
Lemma steady_admit ap ap' : steady ap ap' -> admit_ok ap -> admit_ok ap'.
Proof.
  intros (F & Ec & _ & Et & Er & Hp) [B Hc Hs Hpend Ht Hr]. constructor; rewrite ?Ec, ?Et, ?Er; try done; [by apply (bss_ok_fixed ap)|].
  intros k h Hk. by apply (Hpend k), Hp.
Qed.

Lemma still_moves e ap ap' :
  on_tables e = false -> on_sae e = false -> quiet e ap ap' -> sae_inv ap -> ap_ok ap' -> sae_moves ap ap'.
Proof.
  intros Ht He Q I Hok. pose proof (proj1 Q Ht) as S. apply (quiet_moves e); try done; [by eapply steady_admit, I|apply S].
Qed.
End Moves.

(** The handlers, one by one. *)
Section Handlers.
Context `{Entropy} `{!EntropyOk _} `{HashOrder} `{!HashOrderOk _}.
Context {P : Primitives} {Pok : PrimitivesOk P} {C : P256} {Cok : P256Ok C}.

Definition ends_in (r : res (Ap * Outgoing)) (Q : Ap -> Prop) : Prop := exists ap' out', r = Val (ap', out') /\ Q ap'.

Lemma returns_still e r ap :
  sae_inv ap -> on_tables e = false -> on_sae e = false ->
  ends_in r ap_ok -> (forall x, r = Val x -> quiet e ap x.1) -> ends_in r (sae_moves ap).
Proof.
  intros I Ht He (ap' & out' & E & Hok) Q. exists ap', out'. split; [done|].
  exact (still_moves e ap ap' Ht He (Q _ E) I Hok).
Qed.

Lemma uplink_moves frame ap out : sae_inv ap -> dot11_ok frame -> ends_in (handle_data_uplink frame ap out) (sae_moves ap).
Proof.
  intros I Hd. apply (returns_still none); try done; [|by intros x; apply handle_data_uplink_quiet].
  destruct (handle_data_uplink_steps frame ap out (si_ap _ I) Hd) as (ap' & out' & E & St). exists ap', out'.
  split; [done|]. eapply uplink_step_ok; [apply I|exact St].
Qed.

Lemma eapol_moves now frame ap out : sae_inv ap -> dot11_ok frame -> ends_in (handle_eapol now frame ap out) (sae_moves ap).
Proof.
  intros I Hd. apply (returns_still handshake); try done; [|by intros x; apply handle_eapol_quiet].
  destruct (handle_eapol_steps now frame ap out (si_ap _ I)) as (ap' & out' & E & St); [apply Hd|]. exists ap', out'.
  split; [done|]. eapply eapol_step_ok; [apply I|exact St].
Qed.

Lemma probe_moves now frame ap out : sae_inv ap -> dot11_ok frame -> ends_in (handle_probe_req now frame ap out) (sae_moves ap).
Proof.
  intros I Hd. apply (returns_still none); try done; [|by intros x; apply handle_probe_req_quiet].
  destruct (probe_answers now frame ap out (si_ap _ I)) as (o & Ho & Ha); [apply I|apply Hd|].
  pose proof (si_ap _ I) as Hok. pose proof (next_sc_ok ap Hok) as Hsc. destruct o as [s|].
  - destruct (_ || _); [destruct Ha as (rsn & more & f & E & _)|]; do 2 eexists; split; [exact E|done|exact Ha|done].
  - do 2 eexists; split; [exact Ha|done].
Qed.

Lemma robust_moves frame rx ap out : sae_inv ap -> dot11_ok frame ->
  ends_in (let! ap := handle_robust_mgmt frame rx ap in Val (ap, out)) (sae_moves ap).
Proof.
  intros I Hd. apply (returns_still none); try done.
  2:{ intros x E. apply rbind_val_inv in E as (ap1 & E & [= <-]). by eapply handle_robust_mgmt_quiet. }
  pose proof (si_ap _ I) as Hok. unfold handle_robust_mgmt. destruct (ap_stations ap !! addr2 frame) as [s|]; [|by exists ap, out].
  destruct (negb (st_pmf s)); [do 2 eexists; split; [done|by apply disconnect_ok]|].
  destruct (protected_mgmt_body_spec frame rx ap Hok Hd) as (o & ap1 & -> & M).
  pose proof (proj1 (mgmt_body_moves _ _ _ _ _ Hok M)) as Hok1. cbn [rbind].
  destruct o; do 2 eexists; (split; [done|]); [by apply disconnect_ok|done].
Qed.

Lemma parse_sa_query_total b : exists o, parse_sa_query b = Val o.
Proof.
  unfold parse_sa_query. destruct (Nat.leb_spec 4 (length b)); [|by eexists]. rust_steps. destruct (_ =? _); [|by eexists].
  rust_steps. by eexists.
Qed.

(** A query of the station is answered, under its next packet number. *)
Lemma sa_response_sent sta t ap : ap_ok ap ->
  exists o ap', protected_tx sta (fun cipher sc pn tk sec =>
    build_protected_sa_query_for_cipher_sec cipher (ap_mac ap) sta false true t sc pn tk sec) ap = Val (o, ap') /\ ap_ok ap'.
Proof.
  intros Hok. destruct (sa_query_body_ok true t) as [Hw Hl]. destruct (ap_stations ap !! sta) as [s|] eqn:Es.
  - pose proof (protected_tx_spec sta SUBTYPE_ACTION (sa_query_body true t) ap s Hok Es ltac:(done) Hw Hl) as Htx.
    change (protected_tx sta _ ap) with (protected_tx sta (mgmt_frame SUBTYPE_ACTION sta (ap_mac ap) (sa_query_body true t)) ap).
    destruct (_ && _); [destruct Htx as (f & ap' & E & M & _); exists (Some f), ap'; split; [exact E|apply M]|by exists None, ap].
  - unfold protected_tx, installed_pairwise_key. rewrite Es. by exists None, ap.
Qed.

Lemma action_moves frame rx ap out : sae_inv ap -> dot11_ok frame -> ends_in (handle_action frame rx ap out) (sae_moves ap).
Proof.
  intros I Hd. apply (returns_still none); try done; [|by intros x; apply handle_action_quiet].
  pose proof (si_ap _ I) as Hok. assert (Hw : wf_bytes (body frame)) by apply Hd. unfold handle_action. destruct (negb _).
  - unfold handle_unprotected_action. destruct (parse_twt_setup_total (body frame) Hw) as (o & -> & Ho). cbn [rbind].
    destruct o as [[dialog e]|].
    + destruct (Ho dialog e eq_refl) as (rest & Eb & _ & _ & Hl & _). destruct (is_associated _ _); [|by exists ap, out].
      assert (We : wf_bytes e) by (rewrite Eb in Hw; repeat apply wf_bytes_app_iff in Hw as [? Hw]; done).
      pose proof (next_sc_ok ap Hok) as H1. unfold next_sc in *. cbn [fst snd] in *.
      destruct (build_twt_setup_response_spec (ap_mac ap) (addr2 frame) dialog e
        (u16 ((ap_sc ap + 1) mod 4096 * 16)) We ltac:(lia)) as (rt & E & _). fields. rewrite E. cbn [rbind]. by do 2 eexists.
    + destruct (parse_btm_response_total (body frame)) as (b & -> & _). by exists ap, out.
  - destruct (protected_mgmt_body_spec frame rx ap Hok Hd) as (o & ap1 & -> & M).
    pose proof (proj1 (mgmt_body_moves _ _ _ _ _ Hok M)) as Hok1. cbn [rbind]. destruct o as [plain|]; [|by exists ap1, out].
    destruct (parse_sa_query_total plain) as ([[action t]|] & ->); cbn [rbind]; [|by exists ap1, out].
    destruct (_ =? _).
    + do 2 eexists. split; [done|]. apply ap_ok_upd; [done|]. intros s _ Hs. unfold sa_query_answered. repeat case_match; try done. keep_station_ok Hs.
    + destruct (_ =? _); [|by exists ap1, out].
      destruct (sa_response_sent (addr2 frame) t ap1 Hok1) as (f & ap2 & -> & Hok2). cbn [rbind]. by do 2 eexists.
Qed.

Lemma challenge_returns now sta ap out : sae_inv ap -> pmf_session_protected ap sta = true ->
  ends_in (sa_query_challenge now sta ap out) (sae_moves ap).
Proof.
  intros I Hp. apply (returns_still none); try done; [|by intros x; apply sa_query_challenge_quiet].
  unfold pmf_session_protected in Hp. destruct (ap_stations ap !! sta) as [s|] eqn:Es; [|done]. apply andb_true_iff in Hp as [Ha _].
  pose proof (sa_query_challenge_spec now sta ap out s (si_ap _ I) Es Ha) as Hc.
  destruct (_ <=? _); [destruct Hc as (f & ap' & E & M & _)|destruct Hc as (ap' & E & M & _)]; do 2 eexists; (split; [exact E|apply M]).
Qed.

(** A handler that may also find an exchange's password element unusable. *)
Lemma returns_moves hole r ap ap1 : sae_moves ap ap1 -> ends_in r (sae_moves ap1) -> returns_or hole r (sae_moves ap).
Proof. intros M (ap' & out' & E & M'). right. exists ap', out'. split; [done|]. by eapply sae_moves_trans. Qed.

Lemma auth_payload_wf b a : wf_bytes b -> parse_auth b = Val (Some a) -> wf_bytes (auth_payload a).
Proof.
  intros Hw E. destruct (parse_auth_total b Hw) as (o & E' & _ & Ho). rewrite E in E'. injection E' as <-.
  rewrite (Ho a eq_refl) in Hw. repeat apply wf_bytes_app_iff in Hw as [_ Hw]. done.
Qed.

Lemma open_moves now sta ap out : sae_inv ap -> arr 6 sta -> ends_in (open_auth now sta ap out) (sae_moves ap).
Proof.
  intros I Hsta. destruct (open_auth_spec now sta ap out (si_ap _ I) (si_admit _ I) Hsta)
    as (s & s' & ap' & E & _ & _ & Hok & A & F & _). do 2 eexists. split; [exact E|].
  apply (quiet_moves association); try done. by apply (open_auth_quiet association eq_refl _ _ _ _ _ E).
Qed.

(** An authentication frame with a commit whose exchange the access point would
    compute itself, under an unusable element. *)
Definition unusable_auth (frame : Dot11) (ap : Ap) : Prop :=
  exists a, parse_auth (body frame) = Val (Some a) /\ auth_algo a = AUTH_ALG_SAE /\
    unusable_exchange (addr2 frame) (auth_seq a) (auth_status a) (auth_payload a) ap.

(** The exchange asked for depends on the configuration and on the station's
    multi-link address only. *)
Lemma exchange_job_same sta h2e commit ap ap' : fixed ap' = fixed ap ->
  (ap_stations ap' !! sta ≫= st_client_mld_mac) = (ap_stations ap !! sta ≫= st_client_mld_mac) ->
  exchange_job sta h2e commit ap' = exchange_job sta h2e commit ap.
Proof.
  intros F Es. unfold exchange_job, sae_peer_mld. rewrite Es. unfold fixed, ap_static in F. injection F. intros.
  unfold sae_ap_identity, sae_password_for, association_link, association_link_id, active_mld_links.
  repeat match goal with X : _ ap' = _ ap |- _ => rewrite X; clear X end. done.
Qed.

Lemma unusable_same sta seq status payload ap ap' : fixed ap' = fixed ap -> ap_async_sae ap' = ap_async_sae ap ->
  (ap_stations ap' !! sta ≫= st_client_mld_mac) = (ap_stations ap !! sta ≫= st_client_mld_mac) ->
  unusable_exchange sta seq status payload ap' -> unusable_exchange sta seq status payload ap.
Proof.
  intros F Ea Es (H1 & H2 & c & t & j & H3 & H4 & H5). split; [done|]. split; [by rewrite <- Ea|].
  exists c, t, j. split; [done|]. split; [|done]. rewrite <- H4. symmetry. by apply exchange_job_same.
Qed.

Lemma auth_moves fuel now frame ap out : sae_inv ap -> passwords_wf ap -> dot11_ok frame -> entropy_yields fuel ->
  returns_or (unusable_auth frame ap) (handle_auth_req fuel now frame ap out) (sae_moves ap).
Proof.
  intros I Hpw Hd Hy. assert (Hw : wf_bytes (body frame)) by apply Hd. assert (Ha2 : arr 6 (addr2 frame)) by apply Hd.
  assert (Hid : forall o, returns_or (unusable_auth frame ap) (Val (ap, o)) (sae_moves ap)) by (intros; by apply returns_here, sae_moves_refl).
  unfold handle_auth_req. destruct (negb _); [done|].
  destruct (parse_auth_total (body frame) Hw) as (o & Ep & _ & Ho). rewrite Ep. cbn [rbind]. destruct o as [a|]; [|done].
  destruct (carries_auth_rate (addr2 frame) now ap (si_ap _ I) (si_admit _ I)) as (((Hok1 & _) & F1 & A1) & _ & _).
  assert (Hpre : ap_stations (allow_auth_request (addr2 frame) now ap).2 = ap_stations ap /\
    ap_async_sae (allow_auth_request (addr2 frame) now ap).2 = ap_async_sae ap).
  { split; [|unfold allow_auth_request, request_rate_entry; cbv zeta; destruct (_ && _); [done|by destruct (allow_request _ _ _ _) as [? [? ?]]]]. by apply (carries_auth_rate _ _ ap (si_ap _ I) (si_admit _ I)). }
  destruct Hpre as [Es1 Ea1].
  destruct (allow_auth_request (addr2 frame) now ap) as [ok ap1] eqn:El. cbn [snd] in *.
  assert (M1 : sae_moves ap ap1) by (apply (quiet_moves association); [done|by eapply (allow_auth_quiet association eq_refl)|done..]).
  pose proof (sm_inv _ _ M1) as I1. destruct (negb ok); [by apply returns_here|].
  destruct (pmf_session_protected ap1 (addr2 frame)) eqn:Epm.
  { eapply returns_moves; [exact M1|]. by apply challenge_returns. }
  destruct (Z.eqb_spec (auth_algo a) AUTH_ALG_SAE) as [Hal|_].
  - destruct (ap_sae_enabled ap1); [|by apply returns_here].
    destruct (sae_frame_moves fuel now (addr2 frame) (auth_seq a) (auth_status a) (auth_payload a) ap1 out I1) as [[Ep' Hu]|(ap2 & out2 & E & M2 & _)];
      [by apply (passwords_fixed ap)|done|by eapply auth_payload_wf|done| |].
    { left. split; [done|]. exists a. split; [done|]. split; [done|]. apply (unusable_same _ _ _ _ ap ap1); [done|done|by rewrite Es1|done]. }
    right. exists ap2, out2. split; [done|]. by eapply sae_moves_trans.
  - eapply returns_moves; [exact M1|]. by apply open_moves.
Qed.

Lemma assoc_moves fuel now frame ap out : sae_inv ap -> dot11_ok frame -> entropy_yields fuel ->
  ends_in (handle_assoc_req fuel now frame ap out) (sae_moves ap).
Proof.
  intros I Hd Hy. pose proof (si_ap _ I) as Hok. pose proof (si_admit _ I) as A.
  assert (Hfin : forall ap' out', handle_assoc_req fuel now frame ap out = Val (ap', out') -> ap_ok ap' -> admit_ok ap' ->
    fixed ap' = fixed ap -> ends_in (handle_assoc_req fuel now frame ap out) (sae_moves ap)).
  { intros ap' out' E H1 H2 H3. exists ap', out'. split; [done|]. apply (quiet_moves association); try done.
    by apply (handle_assoc_req_quiet association eq_refl _ _ _ _ _ _ E). }
  destruct (pmf_session_protected ap (addr2 frame)) eqn:Epm.
  2:{ destruct (handle_assoc_req_spec fuel now frame ap out Hok A) as (ap' & out' & E & H1 & H2 & H3 & _); try done; [apply Hd..|].
      by eapply Hfin. }
  unfold handle_assoc_req. assert (Hstill : forall o, ends_in (Val (ap, o)) (sae_moves ap))
    by (intros o; exists ap, o; split; [done|by apply sae_moves_refl]).
  destruct (negb (beq _ _)); [done|]. destruct (ap_credential_reload_pending ap).
  { pose proof (carries_next_sc ap Hok A) as K. unfold reject_assoc, reject_assoc_status. destruct (next_sc ap) as [sc ap1] eqn:En.
    do 2 eexists. split; [done|]. apply sae_moves_id; [done|exact K|]. injection En as _ <-. apply I. }
  destruct (carries_rate (addr2 frame) now ap Hok A) as (((Hok1 & _) & F1 & A1) & _ & _ & Es1).
  destruct (allow_assoc_request (addr2 frame) now ap) as [ok ap1] eqn:El. cbn [snd] in *.
  assert (M1 : sae_moves ap ap1) by (apply (quiet_moves association); [done|by eapply (allow_assoc_quiet association eq_refl)|done..]).
  pose proof (sm_inv _ _ M1) as I1. destruct (negb ok); [by exists ap1, out|].
  assert (Ep1 : pmf_session_protected ap1 (addr2 frame) = true) by (unfold pmf_session_protected in *; by rewrite Es1).
  rewrite Ep1. pose proof (next_sc_moves ap1 I1) as [M2 _]. assert (Es2 : ap_stations (next_sc ap1).2 = ap_stations ap1) by done.
  destruct (next_sc ap1) as [sc ap2]. cbn [snd] in *.
  destruct (challenge_returns now (addr2 frame) ap2 (out_tx (build_assoc_resp_comeback (ap_mac ap2) (addr2 frame) 1000 sc) out))
    as (ap' & out' & E & M3); [apply M2|unfold pmf_session_protected in *; by rewrite Es2|].
  exists ap', out'. split; [exact E|]. eapply sae_moves_trans; [exact M1|]. by eapply sae_moves_trans.
Qed.

(** ** The dispatch *)

Lemma returns_weaken hole r ap : ends_in r (sae_moves ap) -> returns_or hole r (sae_moves ap).
Proof. intros Hr. by right. Qed.

Lemma dispatch_moves fuel now rx frame ap out : sae_inv ap -> passwords_wf ap -> dot11_ok frame -> entropy_yields fuel ->
  returns_or (unusable_auth frame ap) (dispatch fuel now rx frame ap out) (sae_moves ap).
Proof.
  intros I Hpw Hd Hy. assert (Hid : returns_or (unusable_auth frame ap) (Val (ap, out)) (sae_moves ap)) by (apply returns_here, sae_moves_refl, I).
  unfold dispatch. destruct (_ && protected frame).
  { destruct (to_ds frame); [|done]. by apply returns_weaken, uplink_moves. }
  destruct (is_eapol_total frame) as (b & -> & _). cbn [rbind]. destruct b; [by apply returns_weaken, eapol_moves|].
  destruct (frame_type frame =? TYPE_MGMT); [|done]. cbv zeta.
  repeat (destruct (_ =? _); cbn [orb]); try done;
    first [by apply returns_weaken, probe_moves|by apply auth_moves|by apply returns_weaken, assoc_moves
          |by apply returns_weaken, robust_moves|by apply returns_weaken, action_moves].
Qed.

Lemma accepted_frame_total ap octets : wf_bytes octets ->
  exists o, accepted_frame ap octets = Val o /\ forall frame, o = Some frame -> dot11_ok frame /\ addressed frame ap = true.
Proof.
  intros Hw. unfold accepted_frame. destruct (radiotap_bad_fcs_total octets) as (b & ->). cbn [rbind].
  destruct b; [by exists None|]. destruct (strip_radiotap_total octets) as (s & -> & Hs). cbn [rbind].
  destruct s as [f|]; [|by exists None]. destruct (Hs f eq_refl) as (h & ->). apply wf_bytes_app_iff in Hw as [_ Hw].
  destruct (parse_sound f Hw) as (o & -> & Ho). cbn [rbind]. eexists. split; [done|]. intros frame.
  destruct o as [d|]; [|done]. destruct (addressed d ap) eqn:Ea; [|done]. intros [= <-].
  destruct (Ho d eq_refl) as (dur & a4 & Hok & _). done.
Qed.

Lemma heard_moves now sta ap : sae_inv ap -> sae_moves ap (upd_station sta (heard now) ap).
Proof.
  intros I. apply (still_moves none); try done; [apply quiet_upd; [done|by intros s; split]|].
  apply ap_ok_upd; [apply I|]. intros s _ Hs. unfold heard. keep_station_ok Hs.
Qed.

(** The event delivers such a frame. *)
Definition unusable_event (ev : ap_event) (ap : Ap) : Prop :=
  match ev with
  | Received _ octets => exists frame, accepted_frame ap octets = Val (Some frame) /\ unusable_auth frame ap
  | _ => False
  end.

Lemma incoming_moves fuel now rx octets ap : sae_inv ap -> passwords_wf ap -> wf_bytes octets -> entropy_yields fuel ->
  returns_or (unusable_event (Received rx octets) ap) (handle_incoming_from fuel now rx octets ap) (sae_moves ap).
Proof.
  intros I Hpw Hw Hy. unfold handle_incoming_from.
  destruct (accepted_frame_total ap octets Hw) as (o & Ef & Ho). rewrite Ef. cbn [rbind].
  destruct o as [frame|]; [|by apply returns_here, sae_moves_refl]. destruct (Ho frame eq_refl) as [Hd _].
  pose proof (heard_moves now (addr2 frame) ap I) as M1.
  destruct (dispatch_moves fuel now rx frame (upd_station (addr2 frame) (heard now) ap) no_output (sm_inv _ _ M1))
    as [[Ep (a & E1 & E2 & Hu)]|(ap' & out' & E & M2)]; [by apply (passwords_fixed ap)|done|done| |].
  { left. split; [done|]. exists frame. split; [done|]. exists a. split; [done|]. split; [done|].
    apply (unusable_same _ _ _ _ ap (upd_station (addr2 frame) (heard now) ap)); [done|done| |exact Hu]. unfold upd_station. fields. rewrite lookup_alter_eq. by destruct (ap_stations ap !! addr2 frame). }
  right. exists ap', out'. split; [done|]. by eapply sae_moves_trans.
Qed.

(** ** Timers, rekeys and the rest of [tick] *)

Lemma disconnect_moves sta r ap : sae_inv ap -> sae_moves ap (disconnect sta r ap).
Proof.
  intros I. apply (still_moves none); try done; [by apply quiet_disconnect|]. apply disconnect_ok, I.
Qed.

Lemma disconnect_all_moves r l : forall ap, sae_inv ap -> sae_moves ap (disconnect_all r ap l).
Proof.
  induction l as [|m l IH]; intros ap I; [by apply sae_moves_refl|].
  pose proof (disconnect_moves m r ap I) as M. eapply sae_moves_trans; [exact M|]. apply (IH (disconnect m r ap)), M.
Qed.

Lemma maintenance_moves now order ap : sae_inv ap -> sae_moves ap (run_deadline_maintenance now order ap).
Proof.
  intros I. unfold run_deadline_maintenance.
  set (pend := filter _ (ap_pending_anonce ap)). set (ap0 := ap <| ap_pending_anonce := pend |>).
  assert (M0 : sae_moves ap ap0).
  { apply sae_moves_id; [done| |apply I]. split; [|split; [done|]].
    - split; [|done]. pose proof (si_ap _ I) as Hok. unfold ap0. keep_ap_ok Hok.
    - destruct (si_admit _ I) as [B Hc Hs Hp Ht Hr]. constructor; try done; [by apply (bss_ok_fixed ap)|].
      intros k h Hk. change (pend !! k = Some h) in Hk. apply map_lookup_filter_Some in Hk as [Hk _]. by apply (Hp k). }
  eapply sae_moves_trans; [exact M0|]. pose proof (sm_inv _ _ M0) as I0. clearbody ap0. clear M0 pend.
  set (g := fun w : AsyncSae => w <| as_pending := _ |>). assert (M1 : sae_moves ap0 (upd_worker g ap0)).
  { apply async_moves; [done|]. pose proof (si_worker _ I0) as Hw. by destruct (ap_async_sae ap0). }
  eapply sae_moves_trans; [exact M1|]. pose proof (sm_inv _ _ M1) as I1. set (ap1 := upd_worker g ap0) in *. clearbody ap1. clear M1 g.
  set (l1 := List.filter (stale_sae now ap1) order).
  pose proof (disconnect_all_moves 15 l1 ap1 I1) as M2. eapply sae_moves_trans; [exact M2|].
  pose proof (sm_inv _ _ M2) as I2. set (ap2 := disconnect_all 15 ap1 l1) in *. clearbody ap2. clear M2 l1.
  set (l2 := List.filter (unresponsive now ap2) order).
  pose proof (disconnect_all_moves 15 l2 ap2 I2) as M3. eapply sae_moves_trans; [exact M3|].
  pose proof (sm_inv _ _ M3) as I3. set (ap3 := disconnect_all 15 ap2 l2) in *. clearbody ap3. clear M3 l2.
  destruct (expire_pmksa_spec now ap3 (si_ap _ I3) (si_admit _ I3)) as [K _].
  assert (M4 : sae_moves ap3 (expire_pmksa now ap3)) by (apply sae_moves_id; [done|done|apply I3]).
  eapply sae_moves_trans; [exact M4|]. apply (still_moves none); try done; [|apply M4|].
  - apply (quiet_same _ _ (expire_pmksa now ap3)); done.
  - pose proof (si_ap _ (sm_inv _ _ M4)) as H4. keep_ap_ok H4.
Qed.

Lemma resent_ok now s : st_eapol_retries s < MAX_EAPOL_RETRIES -> station_ok s -> station_ok (resent now s).
Proof.
  intros Hr Hs. unfold resent. assert (0 <= st_eapol_retries s + 1 <= MAX_EAPOL_RETRIES) by (pose proof (so_retries s Hs); lia).
  keep_station_ok Hs.
Qed.

Lemma fire_timer_ok now g m ap out : ap_ok ap -> ap_ok (fire_timer now g m ap out).1.
Proof.
  intros Hok. unfold fire_timer. destruct (ap_stations ap !! m) as [s|] eqn:Es; [|done]. destruct (st_pending_eapol s); [|done].
  destruct (negb _); [done|]. destruct (Z.leb_spec MAX_EAPOL_RETRIES (st_eapol_retries s)); cbn [fst]; [by apply disconnect_ok|].
  assert (Hok1 : ap_ok (upd_station m (resent now) ap)).
  { apply ap_ok_upd; [done|]. intros s0 Hs0. rewrite Es in Hs0. injection Hs0 as <-. by apply resent_ok. }
  generalize dependent (upd_station m (resent now) ap). intros ap1 Hok1. keep_ap_ok Hok1.
Qed.

Lemma run_timers_moves now ap out : sae_inv ap -> ends_in (run_timers now ap out) (sae_moves ap).
Proof.
  intros I. apply (returns_still none); try done; [|by intros x; apply run_timers_quiet].
  destruct (run_timers_ind (fun ap1 _ => ap_ok ap1) now) with (ap := ap) (out := out) as (ap' & out' & E & Hok & _); [|apply I|by exists ap', out'].
  intros t rest ap1 out1 _ _ Hok1. cbn zeta. apply fire_timer_ok. keep_ap_ok Hok1.
Qed.

Lemma rekey_returns now order ap : sae_inv ap -> NoDup order ->
  exists frames ap', rekey_gtk now order ap = Val (frames, ap') /\ sae_moves ap ap'.
Proof.
  intros I Hnd. pose proof (si_ap _ I) as Hok.
  assert (Hfin : (exists frames ap', rekey_gtk now order ap = Val (frames, ap') /\ ap_ok ap') ->
    exists frames ap', rekey_gtk now order ap = Val (frames, ap') /\ sae_moves ap ap').
  { intros (fs & ap' & E & H'). exists fs, ap'. split; [done|]. apply (still_moves none); try done. by eapply rekey_gtk_quiet. }
  apply Hfin. unfold rekey_gtk, rekey_gtk_per_sta. destruct (any_station _ _); [by do 2 eexists|].
  assert (Hassoc : forall ap0, Forall (fun sta => is_Some (ap_stations ap0 !! sta)) (List.filter (is_associated ap0) order) /\
    NoDup (List.filter (is_associated ap0) order)).
  { intros ap0. split; [|by apply NoDup_ListNoDup, List.NoDup_filter, NoDup_ListNoDup]. apply Forall_forall. intros m Hm.
    apply list_elem_of_In, List.filter_In in Hm as [_ Hm]. unfold is_associated in Hm. by destruct (ap_stations ap0 !! m). }
  destruct (ap_per_sta_vif ap); cbv zeta.
  - destruct (rotate_base_keys_spec now ap Hok) as (Hok0 & _ & St0 & _ & _ & _ & Hrsc). rewrite Hrsc.
    set (ap0 := rotate_base_keys now ap) in *. clearbody ap0. destruct (Hassoc ap0) as [Ha Hn].
    destruct (rekey_fold ap_static (rekey_own_station now 0) (fun _ _ _ _ _ => True) (ap_static ap)) with
      (l := List.filter (is_associated ap0) order) (frames := @nil bytes) (ap := ap0) as (fs & ap' & E & H' & _); try done; [|by do 2 eexists].
    intros frames ap1 sta s Hok1 S1 Es.
    destruct (rekey_own_station_spec now (ap_static ap) (ap_mac ap1) (ap_mld ap1) frames ap1 sta s) as (f & s' & ap2 & E & M & S2 & _ & C2); try done.
    by exists f, s', ap2.
  - destruct (rotate_bss_keys_spec now ap Hok) as (Hok0 & _ & St0 & _ & _ & _ & _ & _ & _ & Hg & _).
    set (ap0 := rotate_bss_keys now ap) in *. clearbody ap0. destruct (Hassoc ap0) as [Ha Hn].
    destruct (rekey_fold ap_static (rekey_station now (bss_keys ap0)) (fun _ _ _ _ _ => True) (ap_static ap)) with
      (l := List.filter (is_associated ap0) order) (frames := @nil bytes) (ap := ap0) as (fs & ap' & E & H' & _); try done; [|by do 2 eexists].
    intros frames ap1 sta s Hok1 S1 Es.
    destruct (rekey_station_spec now (bss_keys ap0) (ap_static ap) (ap_mac ap1) (ap_mld ap1) frames ap1 sta s) as (f & s' & ap2 & E & M & S2 & _ & C2); try done.
    by exists f, s', ap2.
Qed.

(** ** Deliveries, reports and administration *)

Lemma tx_key_for_ok eth ap : ap_ok ap -> wf_bytes eth -> (14 <= length eth)%nat ->
  exists o, tx_key_for eth ap = Val o /\ forall k ap', o = Some (k, ap') -> tx_key_ok k /\ ap_ok ap'.
Proof.
  intros Hok Hw Hl. unfold tx_key_for. destruct (_ || _).
  - eexists. split; [done|]. intros k ap' E. pose proof (group_tx_key_spec ap Hok) as Hg. rewrite E in Hg. by destruct Hg as (? & ? & _).
  - assert (Hsrc : arr 6 (sub eth 6 12)) by (split; [rewrite length_sub; lia|auto with bytes]).
    destruct (ap_stations ap !! sub eth 0 6) as [s|] eqn:Es.
    + pose proof (pairwise_tx_key_spec eth (sub eth 0 6) (sub eth 6 12) ap s Hok Hw Hsrc Es) as Hp. destruct (_ && _).
      * destruct Hp as (k & ap' & -> & Hk & Hok' & _). eexists. split; [done|]. by intros ? ? [= <- <-].
      * rewrite Hp. by exists None.
    + unfold pairwise_tx_key. rewrite Es. by exists None.
Qed.

Lemma deliver_returns eth ap : ap_ok ap -> wf_bytes eth -> Z.of_nat (length eth) < 2 ^ 16 ->
  exists frames ap', deliver_to_station eth ap = Val (frames, ap') /\ ap_ok ap'.
Proof.
  intros Hok Hw Hlen. unfold deliver_to_station. destruct (Nat.ltb_spec (length eth) 14); [by do 2 eexists|].
  destruct (_ && _); [by do 2 eexists|]. destruct (tx_key_for_ok eth ap Hok Hw) as (o & -> & Hk); [lia|]. cbn [rbind].
  destruct o as [[k ap1]|]; [|by do 2 eexists]. destruct (Hk k ap1 eq_refl) as [Hkey Hok1].
  pose proof (next_sc_ok ap1 Hok1) as Hok2. pose proof (next_sc_range ap1) as Hsc. destruct (next_sc ap1) as [sc ap2]. cbn [fst snd] in *.
  assert (Hd : arr 6 (sub eth 0 6)) by (split; [rewrite length_sub; lia|auto with bytes]).
  assert (Hs : arr 6 (sub eth 6 12)) by (split; [rewrite length_sub; lia|auto with bytes]).
  destruct (default _ (tx_sec k)) as [[s1 s2] s3] eqn:Esec. destruct (tk_key k Hkey) as [Hkl Hkw].
  assert (Hs3 : arr 6 s1 /\ arr 6 s2 /\ arr 6 s3).
  { pose proof (tk_sec k Hkey) as Hx. unfold sec_addrs_ok in Hx.
    destruct (tx_sec k) as [[[x1 x2] x3]|]; cbn in Esec; injection Esec as <- <- <-; [done|]. split; [done|split; [apply Hok2|done]]. }
  destruct Hs3 as (Hs1 & Hs2 & Hs3). rewrite slice_prefix by done. cbn [rbind].
  destruct (protected_data_roundtrip (tx_cipher k) (sub eth 0 6) (ap_mac ap2) (sub eth 6 12) s1 s2 s3 (Some (s1, s2, s3))
    (Z.lor FC_FROMDS FC_PROTECTED) sc (tx_pn k) (tx_key_id k) (take (key_len (tx_cipher k)) (tx_tk k))
    (be_val (sub eth 12 14)) (drop 14 eth) (tx_tid k)) as (f & d & -> & _); try done; try apply Hok2; try apply Hkey.
  - split; [rewrite length_take; lia|by apply wf_bytes_take].
  - auto with bytes.
  - rewrite length_drop. lia.
  - by do 2 eexists.
Qed.

Lemma deauth_frame_returns sta reason ap : ap_ok ap ->
  exists f ap', deauth_frame sta reason ap = Val (f, ap') /\ ap_ok ap'.
Proof.
  intros Hok. unfold deauth_frame, protected_deauth. set (b := le_bytes 2 reason).
  assert (Hbw : wf_bytes b) by (unfold b; auto with bytes). assert (Hbl : Z.of_nat (length b) < 2 ^ 16) by done.
  assert (Hp : exists o ap', protected_tx sta (mgmt_frame SUBTYPE_DEAUTH sta (ap_mac ap) b) ap = Val (o, ap') /\ ap_ok ap').
  { destruct (ap_stations ap !! sta) as [s|] eqn:Es.
    - pose proof (protected_tx_spec sta SUBTYPE_DEAUTH b ap s Hok Es ltac:(done) Hbw Hbl) as Htx.
      destruct (_ && _); [destruct Htx as (f & ap' & E & M & _); exists (Some f), ap'; split; [exact E|apply M]|by exists None, ap].
    - unfold protected_tx, installed_pairwise_key. rewrite Es. by exists None, ap. }
  destruct Hp as (o & ap' & E & Hok'). change (protected_tx sta _ ap) with (protected_tx sta (mgmt_frame SUBTYPE_DEAUTH sta (ap_mac ap) b) ap).
  rewrite E. cbn [rmap rbind prepended fst snd]. by do 2 eexists.
Qed.

Lemma acked_ok now sta ap : ap_ok ap -> ap_ok (note_eapol_acked now sta ap).
Proof.
  intros Hok. apply arm_eapol_timer_ok, ap_ok_upd; [done|]. intros s _ Hs. destruct (_ && _); [|done]. keep_station_ok Hs.
Qed.

Lemma transmitted_ok now sta ap : ap_ok ap -> ap_ok (note_eapol_transmitted now sta ap).
Proof.
  intros Hok. apply arm_eapol_timer_ok, ap_ok_upd; [done|]. intros s _ Hs. assert (0 <= 0 <= MAX_EAPOL_RETRIES) by done.
  keep_station_ok Hs.
Qed.

Lemma response_lost_ok s : station_ok s -> station_ok (response_lost s).
Proof.
  intros Hs. assert (0 <= 0 <= MAX_EAPOL_RETRIES) by done. assert (arr 16 (replicate 16 0)) by (by apply (bool_decide_unpack _)).
  assert (arr 32 (replicate 32 0)) by (by apply (bool_decide_unpack _)). unfold response_lost. cbv zeta.
  destruct (st_associated _); destruct Hs; constructor; fields; try assumption; try (by constructor); cbn; lia.
Qed.

Lemma response_lost_moves sta ap : ap_ok ap -> ap_ok (note_assoc_response_not_acked sta ap).
Proof.
  intros Hok. unfold note_assoc_response_not_acked, cancel_eapol_timer.
  apply ap_ok_upd; [apply ap_ok_upd; [done|intros; by apply response_lost_ok]|]. intros s _ Hs. keep_station_ok Hs.
Qed.

Lemma prune_returns now max_idle order ap : sae_inv ap ->
  exists frames ap', prune_idle now max_idle order ap = Val (frames, ap') /\ ap_ok ap'.
Proof.
  intros I. unfold prune_idle. cbv zeta. change (foldl _ ap _) with (disconnect_all 15 ap (List.filter (stale_sae now ap) order)).
  pose proof (si_ap _ (sm_inv _ _ (disconnect_all_moves 15 (List.filter (stale_sae now ap) order) ap I))) as Hok1.
  set (ap1 := disconnect_all _ _ _) in *. clearbody ap1.
  generalize (List.filter (ApMgmt.idle now max_idle ap1) order). intros l.
  match goal with |- context [rfold ?g _ _] => set (serve := g) end. generalize (@nil bytes).
  generalize dependent ap1. induction l as [|m l IH]; intros ap1 Hok1 fs; [by do 2 eexists|]. cbn [rfold]. unfold serve at 1.
  destruct (deauth_frame_returns m 4 ap1 Hok1) as (f & ap2 & -> & Hok2). cbn [rbind]. by apply IH, disconnect_ok.
Qed.

(** ** The steps and runs of the access point *)

Lemma tick_moves now order ap : sae_inv ap -> NoDup order -> ends_in (tick now order ap) (sae_moves ap).
Proof.
  intros I Hnd. unfold tick. destruct (poll_moves now ap no_output I) as (ap1 & out1 & -> & M1 & _). cbn [rbind].
  assert (M2 : sae_moves ap (if maintenance_due now ap1 then run_deadline_maintenance now order ap1 else ap1)).
  { destruct (maintenance_due _ _); [|done]. eapply sae_moves_trans; [exact M1|]. apply maintenance_moves, M1. }
  set (ap2 := if maintenance_due _ _ then _ else _) in *. clearbody ap2. clear M1.
  assert (M3 : ends_in (rekey_due now order ap2 out1) (sae_moves ap)).
  { unfold rekey_due. destruct (_ || _); [|by exists ap2, out1]. set (ap3 := ap2 <| ap_group_rekey_due := false |>).
    assert (M3 : sae_moves ap2 ap3).
    { apply (still_moves none); try done; [by apply (quiet_same _ _ ap2)|apply M2|]. pose proof (si_ap _ (sm_inv _ _ M2)) as Hok. unfold ap3. keep_ap_ok Hok. }
    destruct (rekey_returns now order ap3 (sm_inv _ _ M3) Hnd) as (fs & ap4 & -> & M4). cbn [rbind].
    do 2 eexists. split; [done|]. eapply sae_moves_trans; [exact M2|]. by eapply sae_moves_trans. }
  destruct M3 as (ap3 & out3 & -> & M3). cbn [rbind]. destruct (run_timers_moves now ap3 out3 (sm_inv _ _ M3)) as (ap4 & out4 & -> & M4).
  do 2 eexists. split; [done|]. by eapply sae_moves_trans.
Qed.

Lemma still_frames {A} (g : A * Ap -> list bytes) (r : res (A * Ap)) ap : sae_inv ap ->
  (exists a ap', r = Val (a, ap') /\ ap_ok ap') -> (forall x, r = Val x -> quiet none ap x.2) ->
  ends_in (rmap (fun x => frames_only (g x, x.2)) r) (sae_moves ap).
Proof.
  intros I (a & ap' & E & Hok) Q. rewrite E. do 2 eexists. split; [reflexivity|]. cbn [snd].
  exact (still_moves none ap ap' eq_refl eq_refl (Q _ E) I Hok).
Qed.

Lemma ap_step_moves fuel now ev ap : sae_inv ap -> passwords_wf ap -> ap_event_ok ev -> entropy_yields fuel ->
  returns_or (unusable_event ev ap) (ap_step fuel now ev ap) (sae_moves ap).
Proof.
  intros I Hpw Hev Hy. pose proof (si_ap _ I) as Hok.
  assert (Hstill : forall ap', quiet none ap ap' -> ap_ok ap' -> returns_or False (Val (ap', no_output)) (sae_moves ap))
    by (intros; apply returns_here; by apply (still_moves none)).
  assert (Hworker : forall f, (forall w, worker_ok w -> worker_ok (f w)) -> returns_or False (Val (upd_worker f ap, no_output)) (sae_moves ap)).
  { intros f Hf. apply returns_here, async_moves; [done|]. pose proof (si_worker _ I) as Hw. destruct (ap_async_sae ap); [by apply Hf|done]. }
  destruct ev as [rx octets|order| |draws|eth|sta|sta|sta|sta|max_idle order|reason]; cbn [ap_step ap_event_ok] in *.
  - by apply incoming_moves.
  - by apply returns_weaken, tick_moves.
  - apply Hworker, worker_take_ok.
  - apply Hworker. intros w. by apply worker_answer_ok.
  - destruct Hev as [Hw Hl]. apply returns_weaken, (still_frames fst); [done|by apply deliver_returns|intros x; apply deliver_to_station_quiet].
  - apply Hstill; [apply note_eapol_acked_quiet|by apply acked_ok].
  - apply Hstill; [apply note_eapol_transmitted_quiet|by apply transmitted_ok].
  - apply Hstill; [apply note_assoc_response_not_acked_quiet|by apply response_lost_moves].
  - apply returns_weaken, (still_frames (fun r => option_list r.1)); [done| |intros x; apply kick_quiet].
    unfold kick. destruct (ap_stations ap !! sta); [|by do 2 eexists].
    destruct (deauth_frame_returns sta 3 ap Hok) as (f & ap' & -> & Hok'). cbn [rbind]. do 2 eexists. split; [done|by apply disconnect_ok].
  - apply returns_weaken, (still_frames fst); [done|by apply prune_returns|intros x; apply prune_idle_quiet].
  - apply returns_weaken, (still_frames (fun r => [r.1])); [done| |intros x; apply group_deauth_quiet].
    destruct (group_deauth_frame reason ap Hok Hev) as (f & d & ap' & E & Hok' & _). by do 2 eexists.
Qed.
End Handlers.

(** * Properties of runs *)

Section Safety.
Context `{Entropy} `{!EntropyOk _} `{HashOrder} `{!HashOrderOk _}.
Context {P : Primitives} {Pok : PrimitivesOk P} {C : P256} {Cok : P256Ok C}.

(** A run that panics does so at one event, in the state the events before it
    lead to. *)
Definition ap_run_panics (fuel : nat) (evs : list (Z * ap_event)) (ap : Ap) : Prop :=
  ap_run fuel evs ap = Panic /\ exists before now ev after ap1 outs, evs = before ++ (now, ev) :: after /\
    ap_run fuel before ap = Val (ap1, outs) /\ ap_step fuel now ev ap1 = Panic /\ unusable_event ev ap1.

Lemma ap_run_moves fuel evs : forall ap,
  sae_inv ap -> passwords_wf ap -> Forall (fun e => ap_event_ok e.2) evs -> entropy_yields fuel ->
  ap_run_panics fuel evs ap \/
  exists ap' outs, ap_run fuel evs ap = Val (ap', outs) /\ length outs = length evs /\ sae_moves ap ap'.
Proof.
  unfold ap_run_panics. induction evs as [|[now ev] evs IH]; intros ap I Hpw Hev Hy.
  { right. exists ap, []. split; [done|]. split; [done|by apply sae_moves_refl]. }
  apply Forall_cons in Hev as [Hev Hrest]. cbn [ap_run snd] in *.
  destruct (ap_step_moves fuel now ev ap I Hpw Hev Hy) as [[E Hn]|(ap1 & out1 & E & M1)]; rewrite E; cbn [rbind].
  { left. split; [done|]. by exists [], now, ev, evs, ap, []. }
  destruct (IH ap1 (sm_inv _ _ M1)) as [(E2 & pre & n & e & post & ap2 & outs & -> & Er & Es & Hh)|(ap2 & outs & -> & Hl & M2)];
    [by apply (passwords_fixed ap), Hpw; apply M1|done|done| |].
  { left. rewrite E2. split; [done|]. exists ((now, ev) :: pre), n, e, post, ap2, (out1 :: outs). split; [done|].
    split; [|done]. cbn [ap_run]. rewrite E. cbn [rbind]. by rewrite Er. }
  right. exists ap2, (out1 :: outs). cbn [rbind length]. split; [done|]. split; [congruence|by eapply sae_moves_trans].
Qed.

(** C14: nothing that is received, and nothing else that happens, stops the access
    point, but for one hole: a run of received frames (any octets, in either
    reception mode), ticks, deliveries, moves of the SAE worker, reports of the
    transmitter and administrative actions, at any times and in any order,
    returns. At its end every key, counter and window has its width, every table
    its bound, no configuration has changed, and a station counts as
    authenticated by SAE only if it did before, in the same exchange, or a
    confirm has been verified. If it panics instead, it does so at the reception
    of an SAE commit that finds the access point without its worker (none was
    started, or its thread has ended), and the password element of the very
    exchange that commit asks for, with the station's password and the two
    addresses, is the point at infinity. *)
Theorem ap_run_safe fuel evs ap :
  sae_inv ap -> passwords_wf ap -> Forall (fun e => ap_event_ok e.2) evs -> entropy_yields fuel ->
  ap_run_panics fuel evs ap \/
  exists ap' outs, ap_run fuel evs ap = Val (ap', outs) /\ length outs = length evs /\ sae_inv ap' /\ fixed ap' = fixed ap /\
    forall k s', ap_stations ap' !! k = Some s' -> st_sae_confirmed s' = true ->
      (exists s, ap_stations ap !! k = Some s /\ st_sae_confirmed s = true /\ st_sae s' = st_sae s) \/ confirm_verified s'.
Proof.
  intros I Hpw Hev Hy. destruct (ap_run_moves fuel evs ap I Hpw Hev Hy) as [E|(ap' & outs & E & Hl & M)]; [by left|].
  right. exists ap', outs. split; [done|]. split; [done|]. split; [apply M|]. split; [apply M|]. apply M.
Qed.

(** ** Who becomes associated *)

(** [fr], received in the state [ap], is a message 4 that ends the handshake of
    its transmitter, whose record is [s]. *)
Definition message_4 (ap : Ap) (s : Station) (fr : Dot11) : Prop :=
  exists eapol ek c, addr1 fr = ap_mac ap /\ key_frame fr eapol ek /\ st_awaiting_m4 s = true /\
    c ∈ st_ptk_candidates s /\ m3_replay_counter c = ek_replay_counter ek /\
    authenticates (key_mic s) eapol ek (expected_mld ap s) c.

Definition begins (k : bytes) (ap : Ap) (ev : ap_event) : Prop :=
  exists rx octets fr s, ev = Received rx octets /\ accepted_frame ap octets = Val (Some fr) /\ addr2 fr = k /\
    ap_stations ap !! k = Some s /\ message_4 ap s fr.

Lemma worker_quiet f ap : quiet admission ap (upd_worker f ap).
Proof. by apply (quiet_stations admission eq_refl _ ap). Qed.

(** All handlers but that of EAPOL frames. *)
Lemma dispatch_quiet fuel now rx fr ap out r : dispatch fuel now rx fr ap out = Val r ->
  quiet admission ap r.1 \/ handle_eapol now fr ap out = Val r.
Proof.
  unfold dispatch. intros E. destruct (_ && _).
  { left. destruct (to_ds fr); [by eapply handle_data_uplink_quiet|by injection E as <-]. }
  apply rbind_val_inv in E as (b & _ & E). destruct b; [by right|left].
  destruct (_ =? TYPE_MGMT); [|by injection E as <-]. cbv zeta in E.
  destruct (_ =? SUBTYPE_PROBE_REQ); [by eapply handle_probe_req_quiet|].
  destruct (_ =? SUBTYPE_AUTH); [by eapply handle_auth_req_quiet|].
  destruct (_ || _); [by eapply (handle_assoc_req_quiet admission eq_refl)|].
  destruct (_ || _).
  { apply rbind_val_inv in E as (ap1 & E & [= <-]). by eapply handle_robust_mgmt_quiet. }
  destruct (_ =? _); [by eapply handle_action_quiet|by injection E as <-].
Qed.

Lemma eapol_begins now fr ap out r k s' : ap_ok ap -> dot11_ok fr -> handle_eapol now fr ap out = Val r ->
  ap_stations r.1 !! k = Some s' -> st_associated s' = true ->
  (exists s, ap_stations ap !! k = Some s /\ st_associated s = true) \/
  (k = addr2 fr /\ exists s, ap_stations ap !! k = Some s /\ message_4 ap s fr).
Proof.
  intros Hok Hd E Hs Ha. destruct r as [ap' out']. cbn [fst] in Hs.
  assert (St : eapol_step now fr ap out ap' out') by (apply handle_eapol_step; [done|apply Hd|done]).
  destruct (decide (k = addr2 fr)) as [->|Hk].
  2:{ left. destruct (eapol_step_local _ _ _ _ _ _ Hok St) as [_ Hl]. rewrite Hl in Hs by done. by exists s'. }
  destruct (ap_stations ap !! addr2 fr) as [s|] eqn:Es.
  - destruct (eapol_step_station _ _ _ _ _ _ s s' Hok St Es Hs) as [|Hg|eapol ek c R Haw Hc Hr Hau|eapol ek an pmk q R A|eapol ek an pmk q r m3 R A Hr].
    3:{ right. split; [done|]. exists s. split; [done|]. exists eapol, ek, c. destruct R as (Ra & _ & Rk). done. }
    all: left; exists s; (split; [done|]); revert Ha; unfold group_acked, m3_sent, timer_armed, m3_pending, m2_kept, m2_pinned; by fields.
  - exfalso. pose proof (handle_eapol_quiet handshake now fr ap out _ eq_refl E) as (_ & T & _). cbn [fst] in T.
    unfold handle_eapol in E. rewrite Es in E. destruct (negb _); injection E as <- _; congruence.
Qed.

Lemma heard_lookup now sta ap k s1 : ap_stations (upd_station sta (heard now) ap) !! k = Some s1 ->
  exists s, ap_stations ap !! k = Some s /\ (s1 = s \/ s1 = heard now s).
Proof.
  rewrite upd_station_lookup. destruct (decide (k = sta)) as [->|]; [|intros E; exists s1; auto].
  destruct (ap_stations ap !! sta) as [s|]; [|done]. intros [= <-]. exists s. auto.
Qed.

Lemma incoming_begins fuel now rx octets ap r k s' : ap_ok ap -> wf_bytes octets ->
  handle_incoming_from fuel now rx octets ap = Val r -> ap_stations r.1 !! k = Some s' -> st_associated s' = true ->
  (exists s, ap_stations ap !! k = Some s /\ st_associated s = true) \/ begins k ap (Received rx octets).
Proof.
  intros Hok Hw E Hs Ha. unfold handle_incoming_from in E.
  destruct (accepted_frame_total ap octets Hw) as (o & Eo & Ho). rewrite Eo in E. cbn [rbind] in E.
  destruct o as [fr|]; [|injection E as <-; left; by exists s']. destruct (Ho fr eq_refl) as [Hd _].
  assert (Hheard : forall s1, ap_stations (upd_station (addr2 fr) (heard now) ap) !! k = Some s1 -> st_associated s1 = true ->
    exists s, ap_stations ap !! k = Some s /\ st_associated s = true).
  { intros s1 E1 A1. destruct (heard_lookup _ _ _ _ _ E1) as (s & Es & [-> | ->]); by exists s. }
  assert (Hok1 : ap_ok (upd_station (addr2 fr) (heard now) ap)).
  { apply ap_ok_upd; [done|]. intros s _ Hx. unfold heard. keep_station_ok Hx. }
  destruct (dispatch_quiet _ _ _ _ _ _ _ E) as [(_ & T & _)|Ee].
  - left. destruct (T k s' Hs) as (s1 & [Es1|(t0 & g & i & ->)] & _ & Hc); [|by specialize (Hc eq_refl Ha)].
    apply (Hheard s1 Es1 (Hc eq_refl Ha)).
  - destruct (eapol_begins _ _ _ _ _ _ _ Hok1 Hd Ee Hs Ha) as [(s1 & Es1 & A1)|(-> & s1 & Es1 & M)]; [left; by apply (Hheard s1)|right].
    destruct (heard_lookup _ _ _ _ _ Es1) as (s & Es & Hs1). exists rx, octets, fr, s. do 4 (split; [done|]).
    destruct M as (eapol & ek & c & M). exists eapol, ek, c. destruct Hs1 as [-> | ->]; exact M.
Qed.

Lemma ap_step_quiet fuel now ev ap r : ap_step fuel now ev ap = Val r ->
  match ev with Received _ _ => True | _ => quiet admission ap r.1 end.
Proof.
  assert (Hf : forall (A : Type) (g : A * Ap -> list bytes) (c : res (A * Ap)) x, rmap (fun y => frames_only (g y, y.2)) c = Val x ->
    exists y, c = Val y /\ x.1 = y.2).
  { intros A g c x E. destruct c as [y| |]; [|done..]. injection E as <-. by exists y. }
  destruct ev as [rx octets|order| |draws|eth|sta|sta|sta|sta|max_idle order|reason]; cbn [ap_step]; [done| |intros [= <-]; apply worker_quiet..| | | | | | |].
  - apply tick_quiet.
  - intros E. destruct (Hf _ fst _ _ E) as (y & E1 & ->). by eapply deliver_to_station_quiet.
  - intros [= <-]. apply note_eapol_acked_quiet.
  - intros [= <-]. apply note_eapol_transmitted_quiet.
  - intros [= <-]. apply note_assoc_response_not_acked_quiet.
  - intros E. destruct (Hf _ (fun r => option_list r.1) _ _ E) as (y & E1 & ->). by eapply kick_quiet.
  - intros E. destruct (Hf _ fst _ _ E) as (y & E1 & ->). by eapply prune_idle_quiet.
  - intros E. destruct (Hf _ (fun r => [r.1]) _ _ E) as (y & E1 & ->). by eapply group_deauth_quiet.
Qed.

Lemma ap_step_begins fuel now ev ap r k s' : ap_ok ap -> ap_event_ok ev -> ap_step fuel now ev ap = Val r ->
  ap_stations r.1 !! k = Some s' -> st_associated s' = true ->
  (exists s, ap_stations ap !! k = Some s /\ st_associated s = true) \/ begins k ap ev.
Proof.
  intros Hok Hev E Hs Ha. pose proof (ap_step_quiet _ _ _ _ _ E) as Q.
  assert (Hq : quiet admission ap r.1 -> exists s, ap_stations ap !! k = Some s /\ st_associated s = true).
  { intros (_ & T & _). destruct (T k s' Hs) as (s & [Es|(t0 & g & i & ->)] & _ & Hc); [exists s; auto|by specialize (Hc eq_refl Ha)]. }
  destruct ev; try (left; by apply Hq). by eapply incoming_begins.
Qed.

(** C6: a station is associated only by a message 4.  If it is associated at the
    end of a run of any events and was not at its start, then some event of the
    run is the reception of an unprotected EAPOL frame from that station to this
    access point, when the access point waited for message 4, whose MIC verifies
    under one of the candidate keys kept for the replay counter it carries.
    Authentication, association, management and data frames, timers and
    administrative actions never associate anybody. *)
Theorem associated_only_by_message_4 fuel evs ap ap' outs k s' :
  sae_inv ap -> passwords_wf ap -> Forall (fun e => ap_event_ok e.2) evs -> entropy_yields fuel ->
  ap_run fuel evs ap = Val (ap', outs) -> ap_stations ap' !! k = Some s' -> st_associated s' = true ->
  (exists s, ap_stations ap !! k = Some s /\ st_associated s = true) \/
  exists before now ev after ap1 outs1, evs = before ++ (now, ev) :: after /\
    ap_run fuel before ap = Val (ap1, outs1) /\ begins k ap1 ev.
Proof.
  intros I Hpw Hev Hy E Hs Ha. revert ap outs I Hpw E. induction evs as [|[now ev] evs IH]; intros ap outs I Hpw E; cbn [ap_run] in E.
  { injection E as -> _. left. by exists s'. }
  apply Forall_cons in Hev as [Hev Hrest]. cbn [snd] in Hev.
  destruct (ap_step_moves fuel now ev ap I Hpw Hev Hy) as [[E1 _]|(ap1 & out1 & E1 & M1)]; rewrite E1 in E; [done|]. cbn [rbind] in E.
  apply rbind_val_inv in E as ([ap2 outs2] & E2 & [= -> _]).
  destruct (IH Hrest ap1 outs2 (sm_inv _ _ M1)) as [(s & Es & As)|(before & now1 & ev1 & after & ap3 & outs3 & -> & E3 & B)];
    [by apply (passwords_fixed ap), Hpw; apply M1|done| |].
  - destruct (ap_step_begins fuel now ev ap _ k s (si_ap _ I) Hev E1 Es As) as [Hl|B]; [by left|right].
    exists [], now, ev, evs, ap, []. done.
  - right. exists ((now, ev) :: before), now1, ev1, after, ap3, (out1 :: outs3). split; [done|]. split; [|done].
    cbn [ap_run]. rewrite E1. cbn [rbind]. by rewrite E3.
Qed.
End Safety.

(** * Witnesses

    A station joins the demo access point over the air: authentication,
    association, messages 2 and 4; then it is sent a packet and the clock ticks. *)
Definition from_air (frame : bytes) : ap_event := Received Userspace (RADIOTAP_TX ++ frame).

Definition demo_requests : list (Z * ap_event) := Eval vm_compute in
  [(secs 1, from_air (build_auth_req demo_mac demo_sta 1));
   (secs 2, from_air (build_assoc_req_for_cipher demo_mac demo_sta demo_ssid 2 Ccmp128))].
Definition demo_asked := Eval vm_compute in returned (ap_run 1 demo_requests demo_empty).
Definition demo_requested : Ap := Eval vm_compute in demo_asked.1.
Definition demo_challenged : Station := Eval vm_compute in demo_lookup demo_requested.
Definition demo_join_ptk : Ptk := Eval vm_compute in
  returned (derive_ptk false 16 (ap_pmk demo_empty) demo_mac demo_sta (default [] (st_anonce demo_challenged)) demo_snonce).
Definition demo_join_m2 : list (Z * ap_event) := Eval vm_compute in
  [(secs 2, from_air (returned (build_eapol_m2 demo_mac demo_sta demo_snonce (ptk_kck demo_join_ptk) (st_assoc_ies demo_challenged)
     (st_m1_replay demo_challenged) 3 HmacSha1 None)))].
Definition demo_answered := Eval vm_compute in returned (ap_run 1 demo_join_m2 demo_requested).
Definition demo_derived : Ap := Eval vm_compute in demo_answered.1.
Definition demo_join_m4 : list (Z * ap_event) := Eval vm_compute in
  [(secs 3, from_air (returned (build_eapol_m4 demo_mac demo_sta (ptk_kck demo_join_ptk) (ap_eapol_replay_counter demo_derived) 4 HmacSha1)))].
Definition demo_after : list (Z * ap_event) :=
  [(secs 4, Delivered (demo_sta ++ demo_other ++ [0x08; 0x00; 1; 2; 3])); (secs 5, Ticked [demo_sta])].
Definition demo_join : list (Z * ap_event) := demo_requests ++ demo_join_m2 ++ demo_join_m4 ++ demo_after.
Definition demo_joined := Eval vm_compute in returned (ap_run 1 demo_join demo_empty).

Example demo_join_associates : option_map st_associated (ap_stations demo_joined.1 !! demo_sta) = Some true.
Proof. reflexivity. Qed.

Lemma demo_join_ok : Forall (fun e => ap_event_ok e.2) demo_join.
Proof.
  unfold demo_join, demo_requests, demo_join_m2, demo_join_m4, demo_after. cbn [app].
  repeat (apply Forall_cons; split; [cbn [snd ap_event_ok]|]); [by apply (bool_decide_unpack _)..| | |constructor].
  - split; [by apply (bool_decide_unpack _)|reflexivity].
  - apply NoDup_singleton.
Qed.

Definition demo_joined_ap : Ap := Eval vm_compute in demo_joined.1.
Definition demo_joined_outs : list Outgoing := Eval vm_compute in demo_joined.2.
Lemma demo_join_run : ap_run 1 demo_join demo_empty = Val (demo_joined_ap, demo_joined_outs).
Proof. vm_compute. reflexivity. Qed.

Lemma ap_run_safe_witness :
  exists ap' outs, ap_run 1 demo_join demo_empty = Val (ap', outs) /\ length outs = 6%nat /\ sae_inv ap' /\ fixed ap' = fixed demo_empty.
Proof.
  destruct (ap_run_safe 1 demo_join demo_empty) as [[E _]|(ap' & outs & E & Hl & I & F & _)].
  - exact demo_sae_inv.
  - exact demo_passwords_wf.
  - exact demo_join_ok.
  - exact toy_entropy_yields.
  - rewrite demo_join_run in E. discriminate E.
  - exists ap', outs. split; [exact E|]. split; [exact Hl|]. split; [exact I|exact F].
Defined.

Lemma associated_only_by_message_4_witness :
  exists before now ev after ap1 outs1, demo_join = before ++ (now, ev) :: after /\
    ap_run 1 before demo_empty = Val (ap1, outs1) /\ begins demo_sta ap1 ev.
Proof.
  destruct (associated_only_by_message_4 1 demo_join demo_empty demo_joined_ap demo_joined_outs demo_sta (demo_lookup demo_joined_ap))
    as [(s & Es & _)|B].
  - exact demo_sae_inv.
  - exact demo_passwords_wf.
  - exact demo_join_ok.
  - exact toy_entropy_yields.
  - exact demo_join_run.
  - vm_compute. reflexivity.
  - vm_compute. reflexivity.
  - discriminate Es.
  - exact B.
Defined.
