(* ===== verification/ApSession.v ===== *)
(** A protected session among other stations' frames: which frames touch which
    record, and why nobody but the station itself can end its session. *)
From S2P Require Import Prelude Elements Crypto Security Frames Channels DataProt Kde Rsn Advert Mlo Eapol Sae Failures Roaming Ap ApConfig ApEapol Demo Handshake FourWay ApData ApMgmt ApKeys ApBeacon ApRates ApAdmit ApSae ApExchange ApTimers ApEffects ApSystem.

(** * A frame touches the record of its transmitter alone

    [others_kept sta]: every record but that of [sta] stays; the SAE handlers,
    which [handle_auth_req] calls, keep it. *)
#[export] Instance others_preorder sta : PreOrder (others_kept sta).
Proof.
  split; [by intros ap k|]. intros ap1 ap2 ap3 O1 O2 k Hk. by rewrite O2, O1.
Qed.

Section Rules.
Context `{Entropy} `{HashOrder} (sta : bytes).

Lemma others_same ap ap1 ap2 : others_kept sta ap ap1 -> ap_stations ap2 = ap_stations ap1 -> others_kept sta ap ap2.
Proof. intros O E k Hk. rewrite E. by apply O. Qed.

Lemma others_upd f ap ap1 : others_kept sta ap ap1 -> others_kept sta ap (upd_station sta f ap1).
Proof. intros O k Hk. rewrite upd_station_lookup, decide_False by done. by apply O. Qed.

Lemma others_insert s ap ap' : ap_stations ap' = <[sta := s]> (ap_stations ap) -> others_kept sta ap ap'.
Proof. intros E k Hk. by rewrite E, lookup_insert_ne. Qed.

Lemma others_failure m kind ap ap1 : others_kept sta ap ap1 -> others_kept sta ap (record_failure m kind ap1).
Proof. intros O. eapply others_same; [exact O|]. apply record_failure_stations. Qed.

Lemma others_disconnect r ap ap1 : others_kept sta ap ap1 -> others_kept sta ap (disconnect sta r ap1).
Proof. intros O k Hk. rewrite disconnect_stations, lookup_delete_ne by done. by apply O. Qed.

Lemma others_entry now ap ap1 : others_kept sta ap ap1 -> others_kept sta ap (station_entry now sta ap1).
Proof.
  intros O k Hk. unfold station_entry, random_bytes. destruct (ap_stations ap1 !! sta); fields; rewrite ?lookup_insert_ne by done; by apply O.
Qed.

Lemma others_schedule d ap ap1 : others_kept sta ap ap1 -> others_kept sta ap (schedule_maintenance d ap1).
Proof. intros O. eapply others_same; [exact O|]. unfold schedule_maintenance. by repeat case_match. Qed.

Lemma others_cache now i m p b ap ap1 : others_kept sta ap ap1 -> others_kept sta ap (cache_pmksa now i m p b ap1).
Proof. intros O. eapply others_same; [exact O|]. unfold cache_pmksa, schedule_maintenance. cbv zeta. by repeat case_match. Qed.
End Rules.

Ltac others :=
  lazymatch goal with
  | |- others_kept _ ?ap ?ap => reflexivity
  | |- others_kept _ _ (upd_station _ _ _) => apply others_upd; others
  | |- others_kept _ _ (disconnect _ _ _) => apply others_disconnect; others
  | |- others_kept _ _ (record_failure _ _ _) => apply others_failure; others
  | |- others_kept _ _ (station_entry _ _ _) => apply others_entry; others
  | |- others_kept _ _ (schedule_maintenance _ _) => apply others_schedule; others
  | |- others_kept _ _ (cache_pmksa _ _ _ _ _ _) => apply others_cache; others
  | |- others_kept ?s _ (set_field ?f ?v ?ap1) => apply (others_same s _ ap1); [others|generalize v ap1; done]
  | |- others_kept ?s _ (upd_worker ?f ?ap1) => apply (others_same s _ ap1); [others|generalize f ap1; done]
  | |- others_kept ?s _ (next_sc ?ap1).2 => apply (others_same s _ ap1); [others|generalize ap1; done]
  | |- others_kept _ _ (if ?b then _ else _) => destruct b; others
  | |- others_kept _ _ _ => idtac
  end.

Section SaeLocal.
Context `{Entropy} `{HashOrder} {P : Primitives} {C : P256}.

Lemma finish_confirm_others now sta payload ap ap1 : finish_sae_confirm now sta payload ap = Val ap1 -> others_kept sta ap ap1.
Proof. unfold finish_sae_confirm, sae_confirmed_station. intros E. walk E; cbv zeta; others. Qed.

Lemma finish_commit_others now res c ap out r : finish_sae_commit now res c ap out = Val r -> others_kept (res_sta res) ap r.1.
Proof.
  unfold finish_sae_commit, next_sc. intros E. walk E; cbn [fst]; others. etrans; [|by eapply finish_confirm_others]. others.
Qed.

Lemma request_token_others now sta m h2e c ap ap1 out : others_kept m ap ap1 -> others_kept m ap (request_sae_token now sta h2e c ap1 out).1.
Proof. intros O. apply (others_same m ap ap1); [done|]. unfold request_sae_token. by case_match. Qed.

Lemma queue_others now job m ap out r : queue_sae_commit now job ap out = Val r -> others_kept m ap r.1.
Proof.
  unfold queue_sae_commit. intros E. walk E; cbn [fst]; others. apply request_token_others. others.
Qed.

Lemma compute_sta fuel job d r d' : compute_sae_commit fuel job d = Val (r, d') -> res_sta r = job_sta job.
Proof. unfold compute_sae_commit, sae_result. intros E. walk E; done. Qed.

Lemma start_commit_others fuel now sta h2e c ap out r : start_sae_commit fuel now sta h2e c ap out = Val r -> others_kept sta ap r.1.
Proof.
  unfold start_sae_commit. intros E. walk E; cbn [fst]; others; [by eapply queue_others|].
  match goal with X : compute_sae_commit _ _ _ = Val _ |- _ => apply compute_sta in X end.
  match goal with X : exchange_job _ _ _ _ = _ |- _ => apply exchange_job_sta in X; subst sta end.
  match goal with X : res_sta _ = job_sta _ |- _ => rewrite <- X end.
  etrans; [|by eapply finish_commit_others]. others.
Qed.

Lemma sae_auth_others fuel now sta seq st p ap out r : handle_sae_auth fuel now sta seq st p ap out = Val r -> others_kept sta ap r.1.
Proof.
  unfold handle_sae_auth, handle_sae_commit, sae_reject, next_sc. intros E.
  walk E; cbn [fst]; others; try (by apply request_token_others); [by eapply start_commit_others|by eapply finish_confirm_others].
Qed.
End SaeLocal.

(** * The session of a station with management-frame protection *)

(** Its handshake is over, and management frames are protected. *)
Definition protected_session (s : Station) : Prop :=
  st_associated s = true /\ st_pmf s = true /\ st_eapol_ready s = false /\ st_awaiting_m4 s = false.

(** The session goes on: it is protected as before, under the same keys; no packet
    number comes back and no replay window reopens. *)
Record session_kept (s s' : Station) : Prop := {
  sk_session : protected_session s -> protected_session s';
  sk_keys : (st_kck s', st_kek s', st_pairwise_tk s', st_pairwise_cipher s') = (st_kck s, st_kek s, st_pairwise_tk s, st_pairwise_cipher s);
  sk_pn : st_client_pn s <= st_client_pn s';
  sk_mgmt : st_last_rx_mgmt_pn s <= st_last_rx_mgmt_pn s';
  sk_windows : forall i w, st_last_rx_pn s !! i = Some w -> exists w', st_last_rx_pn s' !! i = Some w' /\ w <= w'
}.

(** [fr] says goodbye for the station [k]: a deauthentication or disassociation
    that is authentic under its key and newer than its replay window. *)
Definition farewell `{Primitives} (ap : Ap) (k : bytes) (fr : Dot11) : Prop :=
  addr2 fr = k /\ frame_type fr = TYPE_MGMT /\ (subtype fr = SUBTYPE_DEAUTH \/ subtype fr = SUBTYPE_DISASSOC) /\
  protected fr = true /\
  exists s pn plain, ap_stations ap !! k = Some s /\ mgmt_verified fr ap s pn plain.

#[export] Instance session_kept_preorder : PreOrder session_kept.
Proof.
  split.
  - intros s. constructor; [done|done|lia|lia|]. intros i w E. exists w. split; [done|lia].
  - intros s1 s2 s3 [S1 K1 P1 M1 W1] [S2 K2 P2 M2 W2]. constructor; [auto|congruence|lia|lia|].
    intros i w E. destruct (W1 i w E) as (w1 & E1 & L1). destruct (W2 i w1 E1) as (w2 & E2 & L2). exists w2. split; [done|lia].
Qed.

(** The changes that keep it. *)
Lemma kept_same s s' :
  (st_associated s', st_pmf s', st_eapol_ready s', st_awaiting_m4 s') = (st_associated s, st_pmf s, st_eapol_ready s, st_awaiting_m4 s) ->
  (st_kck s', st_kek s', st_pairwise_tk s', st_pairwise_cipher s') = (st_kck s, st_kek s, st_pairwise_tk s, st_pairwise_cipher s) ->
  st_client_pn s <= st_client_pn s' -> st_last_rx_mgmt_pn s <= st_last_rx_mgmt_pn s' -> st_last_rx_pn s' = st_last_rx_pn s ->
  session_kept s s'.
Proof.
  intros E1 E2 Hp Hm Hw. injection E1. intros. constructor; try done.
  - unfold protected_session. intros (A & B & C & D). split_and!; congruence.
  - intros i w E. rewrite Hw. exists w. split; [done|lia].
Qed.

Lemma kept_window i pn s w : st_last_rx_pn s !! i = Some w -> w < pn -> session_kept s (advance_window i pn s).
Proof.
  intros Ew Hlt. constructor; try done; unfold advance_window; fields; try lia. intros j v Ej.
  destruct (decide (j = i)) as [->|Hj].
  - rewrite Ew in Ej. injection Ej as <-. exists pn. rewrite list_lookup_insert_eq; [split; [done|lia]|]. by eapply lookup_lt_Some.
  - rewrite list_lookup_insert_ne by done. exists v. split; [done|lia].
Qed.

Lemma kept_challenged trans now s : session_kept s (challenged trans now s).
Proof. apply kept_same; unfold challenged, pn_used; fields; try done; lia. Qed.

Lemma kept_mgmt pn s : st_last_rx_mgmt_pn s < pn -> session_kept s (mgmt_window pn s).
Proof. intros. apply kept_same; unfold mgmt_window; fields; try done; lia. Qed.

Definition goes_on (k : bytes) (s : Station) (ap : Ap) : Prop := exists s', ap_stations ap !! k = Some s' /\ session_kept s s'.

Lemma goes_on_same k s ap ap' : goes_on k s ap -> ap_stations ap' !! k = ap_stations ap !! k -> goes_on k s ap'.
Proof. intros (s' & Es & K) E. exists s'. by rewrite E. Qed.

Lemma goes_on_others sta k s ap ap' : goes_on k s ap -> others_kept sta ap ap' -> k <> sta -> goes_on k s ap'.
Proof. intros G O Hk. eapply goes_on_same; [exact G|]. by apply O. Qed.

Lemma goes_on_upd k s f ap : goes_on k s ap -> (forall x, session_kept x (f x)) -> goes_on k s (upd_station k f ap).
Proof.
  intros (s' & Es & K) Hf. exists (f s'). rewrite upd_station_lookup, decide_True, Es by done. split; [done|]. by etrans.
Qed.

Lemma goes_on_insert k s s1 s2 ap ap' : goes_on k s ap -> ap_stations ap !! k = Some s1 ->
  ap_stations ap' = <[k := s2]> (ap_stations ap) -> session_kept s1 s2 -> goes_on k s ap'.
Proof. intros (s' & Es & K) E1 E2 K2. exists s2. rewrite E2, lookup_insert_eq. split; [done|]. assert (s' = s1) as -> by congruence. by etrans. Qed.

(** ** The handlers *)

Section Session.
Context `{Entropy} `{!EntropyOk _} `{HashOrder} `{!HashOrderOk _}.
Context {P : Primitives} {Pok : PrimitivesOk P} {C : P256} {Cok : P256Ok C}.
Context (k : bytes) (s : Station).
Hypothesis session_up : protected_session s.

Lemma uplink_goes_on fr ap out r : ap_ok ap -> dot11_ok fr -> handle_data_uplink fr ap out = Val r -> goes_on k s ap -> goes_on k s r.1.
Proof.
  intros Hok Hd E G. destruct (handle_data_uplink_steps fr ap out Hok Hd) as (ap' & out' & E' & St). rewrite E in E'. injection E' as ->. cbn [fst].
  inversion St as [| |s0 pn|s0 pn et l3 iso Hf]; subst; try done; [by eapply goes_on_same; [exact G|]; rewrite record_failure_stations|].
  destruct (decide (k = addr2 fr)) as [->|Hk]; [|eapply (goes_on_others (addr2 fr)); [exact G|apply others_upd; reflexivity|done]].
  destruct Hf as (_ & _ & _ & _ & Es & _ & _ & w & Ew & Hlt & _). destruct G as (s' & Es' & K). rewrite Es in Es'. injection Es' as <-.
  exists (advance_window (replay_index fr) pn s0). rewrite upd_station_lookup, decide_True, Es by done. split; [done|].
  etrans; [exact K|]. by eapply kept_window.
Qed.

Lemma eapol_goes_on now fr ap out r : ap_ok ap -> dot11_ok fr -> handle_eapol now fr ap out = Val r -> goes_on k s ap -> goes_on k s r.1.
Proof.
  intros Hok Hd E G. destruct r as [ap' out']. cbn [fst].
  assert (St : eapol_step now fr ap out ap' out') by (apply handle_eapol_step; [done|apply Hd|done]).
  destruct (decide (k = addr2 fr)) as [->|Hk].
  2:{ destruct (eapol_step_local _ _ _ _ _ _ Hok St) as [_ Hl]. by eapply goes_on_same; [exact G|apply Hl]. }
  pose proof G as (s1 & Es1 & K1). destruct (sk_session _ _ K1 session_up) as (_ & _ & Hr & Ha).
  assert (Hno : forall s2 ek, ap_stations ap !! addr2 fr = Some s2 -> m2_expected ap s2 ek -> False).
  { intros s2 ek Es2 [[?|?] _]; congruence. }
  inversion St as [|s2 ? ? R Hg|s2 eapol ek c R Hw|s2 eapol ek an R Han Hexp|s2 eapol ek an pmk q ap1 R A M|s2 eapol ek an pmk q r0 m3 tl ap1 o1 R A Hr0 M]; subst.
  - done.
  - apply goes_on_upd; [done|]. intros x. apply kept_same; unfold group_acked; fields; try done; lia.
  - destruct R as (_ & Es2 & _). congruence.
  - destruct R as (_ & Es2 & _). by destruct (Hno s2 ek).
  - destruct R as (_ & Es2 & _), A as (_ & Hexp & _). by destruct (Hno s2 ek).
  - destruct R as (_ & Es2 & _), A as (_ & Hexp & _). by destruct (Hno s2 ek).
Qed.

Lemma probe_goes_on now fr ap out r : sae_inv ap -> dot11_ok fr -> handle_probe_req now fr ap out = Val r -> goes_on k s ap -> goes_on k s r.1.
Proof.
  intros I Hd E G. destruct (probe_answers now fr ap out (si_ap _ I)) as (o & _ & Ha); [apply I|apply Hd|].
  assert (Hsc : goes_on k s (next_sc ap).2) by (by eapply goes_on_same).
  destruct o as [ssid|]; [destruct (_ || _); [destruct Ha as (rsn & more & f & E' & _)|rename Ha into E']|rename Ha into E'];
    rewrite E in E'; injection E' as ->; done.
Qed.

Lemma challenge_goes_on now sta ap out r : ap_ok ap -> pmf_session_protected ap sta = true ->
  sa_query_challenge now sta ap out = Val r -> goes_on k s ap -> goes_on k s r.1.
Proof.
  intros Hok Hp E G. unfold pmf_session_protected in Hp. destruct (ap_stations ap !! sta) as [s1|] eqn:Es1; [|done]. apply andb_true_iff in Hp as [Ha _].
  pose proof (sa_query_challenge_spec now sta ap out s1 Hok Es1 Ha) as Hc. destruct (_ <=? _).
  - destruct Hc as (f & ap' & E' & (_ & _ & M) & _). rewrite E in E'. injection E' as ->. cbn [fst].
    destruct (decide (k = sta)) as [->|Hk]; [|eapply (goes_on_others sta); [exact G|by eapply others_insert|done]].
    eapply goes_on_insert; [exact G|exact Es1|exact M|]. apply kept_challenged.
  - destruct Hc as (ap' & E' & (_ & _ & M) & _). rewrite E in E'. injection E' as ->. cbn [fst].
    eapply goes_on_same; [exact G|]. by rewrite M.
Qed.

Lemma goes_on_protected ap : goes_on k s ap -> pmf_session_protected ap k = true.
Proof. intros (s' & Es & K). unfold pmf_session_protected. rewrite Es. by destruct (sk_session _ _ K session_up) as (-> & -> & _). Qed.

Lemma auth_goes_on fuel now fr ap out r : sae_inv ap -> dot11_ok fr -> handle_auth_req fuel now fr ap out = Val r -> goes_on k s ap -> goes_on k s r.1.
Proof.
  intros I Hd E G. unfold handle_auth_req in E. destruct (negb _); [by injection E as <-|].
  apply rbind_val_inv in E as (o & _ & E). destruct o as [a|]; [|by injection E as <-].
  destruct (carries_auth_rate (addr2 fr) now ap (si_ap _ I) (si_admit _ I)) as (((Hok1 & _) & F1 & A1) & E1 & _).
  destruct (allow_auth_request (addr2 fr) now ap) as [ok ap1]. cbn [snd] in *.
  assert (G1 : goes_on k s ap1) by (eapply goes_on_same; [exact G|by rewrite E1]).
  destruct (negb ok); [by injection E as <-|]. destruct (pmf_session_protected ap1 (addr2 fr)) eqn:Epm; [by eapply challenge_goes_on|].
  assert (Hk : k <> addr2 fr) by (intros Hk; pose proof (goes_on_protected ap1 G1); congruence).
  destruct (_ =? AUTH_ALG_SAE).
  - destruct (ap_sae_enabled ap1); [|by injection E as <-]. eapply (goes_on_others (addr2 fr)); [exact G1|by eapply sae_auth_others|done].
  - destruct (open_auth_spec now (addr2 fr) ap1 out Hok1 A1) as (s1 & s2 & ap2 & E2 & _ & _ & _ & _ & _ & Est & _); [apply Hd|].
    rewrite E in E2. injection E2 as ->. eapply (goes_on_others (addr2 fr)); [exact G1|by eapply others_insert|done].
Qed.

Lemma assoc_goes_on fuel now fr ap out r : sae_inv ap -> dot11_ok fr -> entropy_yields fuel ->
  handle_assoc_req fuel now fr ap out = Val r -> goes_on k s ap -> goes_on k s r.1.
Proof.
  intros I Hd Hy E G. pose proof (si_ap _ I) as Hok. pose proof (si_admit _ I) as A.
  destruct (pmf_session_protected ap (addr2 fr)) eqn:Epm.
  2:{ assert (Hk : k <> addr2 fr) by (intros Hk; pose proof (goes_on_protected ap G); congruence).
      destruct (handle_assoc_req_spec fuel now fr ap out Hok A) as (ap' & out' & E' & _ & _ & _ & O & _); try done; [apply Hd..|].
      rewrite E in E'. injection E' as ->. by eapply (goes_on_others (addr2 fr)). }
  unfold handle_assoc_req in E. destruct (negb _); [by injection E as <-|]. destruct (ap_credential_reload_pending ap).
  { injection E as <-. by eapply goes_on_same. }
  destruct (carries_rate (addr2 fr) now ap Hok A) as (((Hok1 & _) & F1 & A1) & _ & _ & Es1).
  destruct (allow_assoc_request (addr2 fr) now ap) as [ok ap1]. cbn [snd] in *.
  assert (G1 : goes_on k s ap1) by (eapply goes_on_same; [exact G|by rewrite Es1]).
  assert (Ep1 : pmf_session_protected ap1 (addr2 fr) = true) by (unfold pmf_session_protected in *; by rewrite Es1).
  destruct (negb ok); [by injection E as <-|]. rewrite Ep1 in E. unfold next_sc in E.
  pose proof (next_sc_ok ap1 Hok1) as Hok2. unfold next_sc in Hok2. cbn [snd] in Hok2.
  eapply challenge_goes_on; [exact Hok2|exact Ep1|exact E|]. by eapply goes_on_same.
Qed.

Lemma robust_goes_on fr ap r : sae_inv ap -> dot11_ok fr -> handle_robust_mgmt fr Userspace ap = Val r -> goes_on k s ap ->
  frame_type fr = TYPE_MGMT -> subtype fr = SUBTYPE_DEAUTH \/ subtype fr = SUBTYPE_DISASSOC ->
  goes_on k s r \/ farewell ap k fr.
Proof.
  intros I Hd E G Hty Hst. pose proof (si_ap _ I) as Hok. unfold handle_robust_mgmt in E.
  destruct (ap_stations ap !! addr2 fr) as [s1|] eqn:Es1; [|injection E as <-; by left].
  destruct (decide (k = addr2 fr)) as [Hk|Hk].
  - pose proof (goes_on_protected ap G) as Hp. unfold pmf_session_protected in Hp. rewrite Hk, Es1 in Hp.
    apply andb_true_iff in Hp as [_ Hp]. rewrite Hp in E. cbn [negb] in E.
    destruct (protected_mgmt_body_spec fr Userspace ap Hok Hd) as (o & ap1 & E1 & M). rewrite E1 in E. cbn [rbind] in E.
    inversion M as [|Hpr _|s2 _ Hrx|s2 pn plain Hpr _ Es2 Ha Hv Hw]; subst o ap1; [| |done|]; injection E as <-.
    + by left.
    + left. eapply goes_on_same; [exact G|]. by rewrite record_failure_stations.
    + right. rewrite Hk. do 4 (split; [done|]). exists s2, pn, plain. exact (conj Es2 Hv).
  - left. destruct (negb (st_pmf s1)).
    { injection E as <-. eapply (goes_on_others (addr2 fr)); [exact G|apply others_disconnect; reflexivity|done]. }
    destruct (protected_mgmt_body_spec fr Userspace ap Hok Hd) as (o & ap1 & E1 & M). rewrite E1 in E. cbn [rbind] in E.
    eapply (goes_on_others (addr2 fr)); [exact G| |done].
    inversion M; subst; cbn beta iota in E; injection E as <-; others.
Qed.

Lemma response_goes_on sta t ap o ap' : ap_ok ap -> protected_tx sta (fun cipher sc pn tk sec =>
    build_protected_sa_query_for_cipher_sec cipher (ap_mac ap) sta false true t sc pn tk sec) ap = Val (o, ap') ->
  goes_on k s ap -> goes_on k s ap'.
Proof.
  intros Hok E G. destruct (sa_query_body_ok true t) as [Hw Hl].
  change (protected_tx sta _ ap) with (protected_tx sta (mgmt_frame SUBTYPE_ACTION sta (ap_mac ap) (sa_query_body true t)) ap) in E.
  destruct (ap_stations ap !! sta) as [s1|] eqn:Es1.
  - pose proof (protected_tx_spec sta SUBTYPE_ACTION (sa_query_body true t) ap s1 Hok Es1 ltac:(done) Hw Hl) as Htx.
    destruct (_ && _); [|rewrite E in Htx; by injection Htx as _ ->].
    destruct Htx as (f & ap2 & E2 & (_ & _ & M) & _). rewrite E in E2. injection E2 as _ <-.
    destruct (decide (k = sta)) as [->|Hk]; [|eapply (goes_on_others sta); [exact G|by eapply others_insert|done]].
    eapply goes_on_insert; [exact G|exact Es1|exact M|]. apply kept_same; unfold pn_used; fields; try done; lia.
  - unfold protected_tx, installed_pairwise_key in E. rewrite Es1 in E. by injection E as _ <-.
Qed.

Lemma action_goes_on fr ap out r : sae_inv ap -> dot11_ok fr -> handle_action fr Userspace ap out = Val r -> goes_on k s ap -> goes_on k s r.1.
Proof.
  intros I Hd E G. pose proof (si_ap _ I) as Hok. unfold handle_action in E. destruct (negb _).
  - unfold handle_unprotected_action in E. walk E; cbn [fst]; try done.
    match goal with X : next_sc _ = _ |- _ => injection X as _ <- end. by eapply goes_on_same.
  - destruct (protected_mgmt_body_spec fr Userspace ap Hok Hd) as (o & ap1 & E1 & M). rewrite E1 in E. cbn [rbind] in E.
    pose proof (proj1 (mgmt_body_moves _ _ _ _ _ Hok M)) as Hok1.
    assert (G1 : goes_on k s ap1).
    { inversion M as [|Hpr _|s2 _ Hrx|s2 pn plain Hpr _ Es2 Ha Hv Hw]; subst o ap1; try done;
        [eapply goes_on_same; [exact G|]; by rewrite record_failure_stations|].
      destruct (decide (k = addr2 fr)) as [Hk|Hk]; [|eapply (goes_on_others (addr2 fr)); [exact G|apply others_upd; reflexivity|done]].
      eapply (goes_on_insert k s s2 (mgmt_window pn s2)); [exact G|by rewrite Hk|rewrite Hk; by apply upd_station_insert|].
      apply kept_mgmt. destruct Hv as (_ & [Hlt _] & _). exact Hlt. }
    clear M. destruct o as [plain|]; [|by injection E as <-]. apply rbind_val_inv in E as (q & _ & E).
    destruct q as [[action t]|]; [|by injection E as <-]. destruct (_ =? SA_QUERY_RESPONSE).
    + injection E as <-. cbn [fst]. destruct (decide (k = addr2 fr)) as [->|Hk]; [|eapply (goes_on_others (addr2 fr)); [exact G1|apply others_upd; reflexivity|done]].
      apply goes_on_upd; [done|]. intros x. unfold sa_query_answered. repeat case_match; try done. apply kept_same; fields; try done; lia.
    + destruct (_ =? _); [|by injection E as <-]. apply rbind_val_inv in E as ([f ap2] & E2 & E). injection E as <-. cbn [fst].
      by eapply response_goes_on.
Qed.

(** ** Every frame *)

Lemma dispatch_goes_on fuel now fr ap out r : sae_inv ap -> dot11_ok fr -> entropy_yields fuel ->
  dispatch fuel now Userspace fr ap out = Val r -> goes_on k s ap -> goes_on k s r.1 \/ farewell ap k fr.
Proof.
  intros I Hd Hy E G. unfold dispatch in E. destruct (_ && protected fr).
  { left. destruct (to_ds fr); [by eapply uplink_goes_on; [apply I|..]|by injection E as <-]. }
  apply rbind_val_inv in E as (b & _ & E). destruct b; [left; by eapply eapol_goes_on; [apply I|..]|].
  destruct (Z.eqb_spec (frame_type fr) TYPE_MGMT) as [Hty|]; [|injection E as <-; by left]. cbv zeta in E.
  destruct (_ =? SUBTYPE_PROBE_REQ); [left; by eapply probe_goes_on|].
  destruct (_ =? SUBTYPE_AUTH); [left; by eapply auth_goes_on|].
  destruct (_ || _); [left; by eapply assoc_goes_on|].
  destruct ((subtype fr =? SUBTYPE_DEAUTH) || _) eqn:Hst.
  { apply rbind_val_inv in E as (ap1 & E & [= <-]). eapply robust_goes_on; try done.
    apply orb_true_iff in Hst as [Hst|Hst]; apply Z.eqb_eq in Hst; auto. }
  left. destruct (_ =? SUBTYPE_ACTION); [by eapply action_goes_on|by injection E as <-].
Qed.

Lemma incoming_goes_on fuel now octets ap r : sae_inv ap -> wf_bytes octets -> entropy_yields fuel ->
  handle_incoming fuel now octets ap = Val r -> goes_on k s ap ->
  goes_on k s r.1 \/ exists fr, accepted_frame ap octets = Val (Some fr) /\ farewell ap k fr.
Proof.
  intros I Hw Hy E G. unfold handle_incoming, handle_incoming_from in E.
  destruct (accepted_frame_total ap octets Hw) as (o & Eo & Ho). rewrite Eo in E. cbn [rbind] in E.
  destruct o as [fr|]; [|injection E as <-; by left]. destruct (Ho fr eq_refl) as [Hd _].
  pose proof (sm_inv _ _ (heard_moves now (addr2 fr) ap I)) as I1. set (ap1 := upd_station (addr2 fr) (heard now) ap) in *.
  assert (G1 : goes_on k s ap1).
  { destruct (decide (k = addr2 fr)) as [->|Hk]; [|eapply (goes_on_others (addr2 fr)); [exact G|apply others_upd; reflexivity|done]].
    apply goes_on_upd; [done|]. intros x. apply kept_same; unfold heard; fields; try done; lia. }
  destruct (dispatch_goes_on fuel now fr ap1 no_output r I1 Hd Hy E G1) as [?|(Ha & Hty & Hst & Hpr & s1 & pn & plain & Es1 & Hv)]; [by left|right].
  exists fr. split; [done|]. do 4 (split; [done|]). unfold ap1 in Es1. rewrite upd_station_lookup, decide_True in Es1 by done.
  destruct (ap_stations ap !! k) as [s0|] eqn:Es0; [|done]. injection Es1 as <-.
  exists s0, pn, plain. split; [done|].
  destruct Hv as (Hpn & Hlt & s1 & s2 & s3 & ct & tag & Esec & Hb & Hau). split; [exact Hpn|]. split; [exact Hlt|].
  exists s1, s2, s3, ct, tag. split; [|split; [exact Hb|exact Hau]]. rewrite Esec. f_equal.
  unfold mld_mgmt_rx_sec_addrs, station_mld, ap1. rewrite Ha, upd_station_lookup, decide_True, Es0 by done. by fields.
Qed.
End Session.

(** ** Any number of frames *)

Definition over_the_air (frames : list (Z * bytes)) : list (Z * ap_event) := map (fun f => (f.1, Received Userspace f.2)) frames.

Section Frames.
Context `{Entropy} `{!EntropyOk _} `{HashOrder} `{!HashOrderOk _}.
Context {P : Primitives} {Pok : PrimitivesOk P} {C : P256} {Cok : P256Ok C}.

(** C7: frames from the air cannot disturb a session that has management-frame
    protection.  Whatever octets are received, from whomever they claim to come
    and however many they are, a station whose handshake is over and who
    negotiated the protection stays associated under the same KCK, KEK and
    temporal key, its transmit packet number never decreases and no replay
    window reopens; unless one of the frames is a deauthentication or
    disassociation that verifies under that same temporal key with a packet
    number above the window reached so far. *)
Theorem protected_session_undisturbed fuel frames ap ap' outs k s :
  sae_inv ap -> passwords_wf ap -> Forall (fun f => wf_bytes f.2) frames -> entropy_yields fuel ->
  ap_stations ap !! k = Some s -> protected_session s ->
  ap_run fuel (over_the_air frames) ap = Val (ap', outs) ->
  (exists s', ap_stations ap' !! k = Some s' /\ session_kept s s') \/
  exists before now octets after ap1 outs1 fr s1, frames = before ++ (now, octets) :: after /\
    ap_run fuel (over_the_air before) ap = Val (ap1, outs1) /\ ap_stations ap1 !! k = Some s1 /\ session_kept s s1 /\
    accepted_frame ap1 octets = Val (Some fr) /\ farewell ap1 k fr.
Proof.
  intros I Hpw Hw Hy Es Hs. assert (G : goes_on k s ap) by (by exists s). clear Es. revert ap outs I Hpw G.
  induction frames as [|[now octets] frames IH]; intros ap outs I Hpw G E; cbn [over_the_air map ap_run fst snd] in E.
  { injection E as -> _. by left. }
  apply Forall_cons in Hw as [Hw Hrest]. cbn [snd] in Hw. apply rbind_val_inv in E as ([ap1 out1] & E1 & E). cbn [ap_step] in E1.
  apply rbind_val_inv in E as ([ap2 outs2] & E2 & [= -> _]).
  destruct (incoming_goes_on k s Hs fuel now octets ap _ I Hw Hy E1 G) as [G1|(fr & Ef & Hf)].
  - destruct (incoming_moves fuel now Userspace octets ap I Hpw Hw Hy) as [[Ep _]|(ap3 & out3 & E3 & M)]; [congruence|].
    assert (ap3 = ap1) as -> by congruence.
    destruct (IH Hrest ap1 outs2 (sm_inv _ _ M)) as [G2|(before & t & o & after & ap4 & outs4 & fr & s1 & -> & E4 & R)];
      [by apply (passwords_fixed ap), Hpw; apply M|exact G1|exact E2|by left|right].
    exists ((now, octets) :: before), t, o, after, ap4, (out1 :: outs4), fr, s1. split; [done|]. split; [|done].
    cbn [over_the_air map ap_run fst snd ap_step]. rewrite E1. cbn [rbind]. unfold over_the_air in E4. by rewrite E4.
  - right. destruct G as (s1 & Es1 & K1). exists [], now, octets, frames, ap, [], fr, s1. done.
Qed.
End Frames.

(** * Witness

    The demo station's protected session, while somebody else asks for
    authentication and association in its name and sends it a forged
    deauthentication. *)
Definition demo_forgeries : list (Z * bytes) := Eval vm_compute in
  map (fun f => (f.1, RADIOTAP_TX ++ f.2))
    [(secs 1, build_auth_req demo_mac demo_sta 1);
     (secs 2, build_assoc_req_for_cipher demo_mac demo_sta demo_ssid 2 Ccmp128);
     (secs 3, build_deauth demo_sta demo_mac 7);
     (secs 4, dot11_header TYPE_MGMT SUBTYPE_DEAUTH FC_PROTECTED demo_mac demo_sta demo_mac 0 ++ replicate 26 0);
     (secs 5, build_auth_req demo_mac demo_other 1)].

Lemma demo_pmf_inv : sae_inv demo_pmf_ap.
Proof.
  constructor; [exact demo_pmf_ap_ok| | |exact I].
  - apply (steady_admit demo_empty); [|exact demo_admit_ok]. unfold steady. split_and!; done.
  - intros k s Hs. change (<[demo_sta := demo_pmf_station]> (∅ : gmap bytes Station) !! k = Some s) in Hs.
    apply lookup_insert_Some in Hs as [[_ <-]|[_ Hs]]; [exact I|discriminate Hs].
Qed.

Lemma demo_pmf_passwords : passwords_wf demo_pmf_ap.
Proof. by apply (passwords_fixed demo_empty), demo_passwords_wf. Qed.

Definition demo_forged := Eval vm_compute in returned (ap_run 1 (over_the_air demo_forgeries) demo_pmf_ap).
Definition demo_forged_ap : Ap := Eval vm_compute in demo_forged.1.
Definition demo_forged_outs : list Outgoing := Eval vm_compute in demo_forged.2.

Lemma protected_session_undisturbed_witness :
  (exists s', ap_stations demo_forged_ap !! demo_sta = Some s' /\ session_kept demo_pmf_station s') \/
  exists before now octets after ap1 outs1 fr s1, demo_forgeries = before ++ (now, octets) :: after /\
    ap_run 1 (over_the_air before) demo_pmf_ap = Val (ap1, outs1) /\ ap_stations ap1 !! demo_sta = Some s1 /\
    session_kept demo_pmf_station s1 /\ accepted_frame ap1 octets = Val (Some fr) /\ farewell ap1 demo_sta fr.
Proof.
  apply (protected_session_undisturbed 1 demo_forgeries demo_pmf_ap demo_forged_ap demo_forged_outs demo_sta demo_pmf_station).
  - exact demo_pmf_inv.
  - exact demo_pmf_passwords.
  - unfold demo_forgeries. repeat (apply Forall_cons; split; [by apply (bool_decide_unpack _)|]). constructor.
  - exact toy_entropy_yields.
  - reflexivity.
  - split; [reflexivity|]. split; [reflexivity|]. split; reflexivity.
  - vm_compute. reflexivity.
Defined.

(** In that run the station is still there, asked twice whether it is itself. *)
Example demo_forgeries_survived :
  option_map st_associated (ap_stations demo_forged_ap !! demo_sta) = Some true /\
  map (fun o => length (out_frames o)) demo_forged_outs = [1; 2; 0; 0; 1]%nat.
Proof. vm_compute. done. Qed.
