(* ===== verification/Client.v ===== *)
(** The station side of the program: the state of src/client/mod.rs, the
    features and counters of src/client/configuration.rs, the session reset and
    the EAPOL classification of src/client/session.rs, and the accessors of
    src/client/inspection.rs.

    An operation whose name the access point uses too carries the prefix
    [client_].  [Instant] is a number of nanoseconds, and what reads the clock
    takes the reading [now] as an argument.  The random octets of the SNonce are
    the draws of [os_random]; [cl_draws] counts them. *)
From S2P Require Import Prelude Elements Crypto Security Frames Channels DataProt Kde Rsn Advert Mlo Eapol Sae Failures Ap.

(** * State *)

Definition AUTH_ASSOC_TIMEOUT : Z := secs 3.
Definition FOUR_WAY_TIMEOUT : Z := secs 5.
Definition LINK_SILENCE_TIMEOUT : Z := secs 20.
Definition PMKSA_CACHE_LIFETIME : Z := secs (12 * 60 * 60).

Record ClientOut := { co_frames : list bytes; co_to_network : list bytes }.
#[export] Instance client_out_eta : Eta ClientOut := fun r => {|
  co_frames := co_frames r; co_to_network := co_to_network r |}.

Definition client_silent : ClientOut := {| co_frames := []; co_to_network := [] |}.
Definition client_push (f : bytes) (out : ClientOut) : ClientOut :=
  out <| co_frames := co_frames out ++ [f] |>.
(** [ClientOut::tx]: the radiotap header, then the frame. *)
Definition client_tx (frame : bytes) (out : ClientOut) : ClientOut := client_push (RADIOTAP_TX ++ frame) out.

(** A PTK derived from a message 1 that no message 3 has vouched for yet. *)
Record PendingPtk := {
  pp_anonce : bytes;
  pp_snonce : bytes;
  pp_replay : Z;
  pp_kck : bytes;
  pp_kek : bytes;
  pp_tk : bytes;
  pp_pairwise_tk : bytes
}.

Record Client := {
  cl_mac : bytes;
  cl_ssid : bytes;
  cl_pmk : bytes;
  cl_bssid : option bytes;
  cl_target_bssid : option bytes;
  cl_connected : Z;
  cl_eapol_state : Z;
  cl_anonce : bytes;
  cl_snonce : bytes;
  cl_kck : bytes;
  cl_kek : bytes;
  cl_tk : bytes;
  cl_pairwise_tk : bytes;
  cl_pairwise_cipher : DataCipher;
  cl_ptk_installed : bool;
  cl_pending_ptk : option PendingPtk;
  cl_gtk : bytes;
  cl_gtk_set : bool;
  cl_gtk_key_id : Z;
  cl_sc : Z;
  cl_client_pn : Z;
  cl_last_rx_pn : list Z;
  cl_last_rx_gpn : list Z;
  cl_last_rx_mgmt_pn : Z;
  cl_last_rx_igtk_ipn : Z;
  cl_igtk_key_id : option Z;
  cl_eapol_replay : Z;
  cl_test_snonce : option bytes;
  cl_password : bytes;
  cl_sae_enabled : bool;
  cl_sae_h2e : bool;
  cl_sae : option Sae;
  cl_sae_pmk : option bytes;
  cl_igtk : option bytes;
  cl_bigtk : option bytes;
  cl_cached_pmksa : option (bytes * bytes * bytes);
  cl_cached_pmksa_at : option Z;
  cl_pmksa_reconnect : bool;
  cl_ocv : bool;
  cl_channel : Z;
  cl_owe : bool;
  cl_owe_priv : option bytes;
  cl_owe_pub : option bytes;
  cl_wmm : bool;
  cl_ap_wmm : bool;
  cl_wmm_negotiated : bool;
  cl_wmm_tid_override : option Z;
  cl_mld_mac : option bytes;
  cl_link1_mac : option bytes;
  cl_ap_mld_mac : option bytes;
  cl_psk_sha256 : bool;
  cl_pause_m3 : bool;
  cl_state_since : Z;
  cl_last_ap_seen : Z;
  cl_draws : N
}.

#[export] Instance client_eta : Eta Client := fun r => {|
  cl_mac := cl_mac r; cl_ssid := cl_ssid r; cl_pmk := cl_pmk r; cl_bssid := cl_bssid r;
  cl_target_bssid := cl_target_bssid r; cl_connected := cl_connected r;
  cl_eapol_state := cl_eapol_state r; cl_anonce := cl_anonce r; cl_snonce := cl_snonce r;
  cl_kck := cl_kck r; cl_kek := cl_kek r; cl_tk := cl_tk r; cl_pairwise_tk := cl_pairwise_tk r;
  cl_pairwise_cipher := cl_pairwise_cipher r; cl_ptk_installed := cl_ptk_installed r;
  cl_pending_ptk := cl_pending_ptk r; cl_gtk := cl_gtk r; cl_gtk_set := cl_gtk_set r;
  cl_gtk_key_id := cl_gtk_key_id r; cl_sc := cl_sc r; cl_client_pn := cl_client_pn r;
  cl_last_rx_pn := cl_last_rx_pn r; cl_last_rx_gpn := cl_last_rx_gpn r;
  cl_last_rx_mgmt_pn := cl_last_rx_mgmt_pn r; cl_last_rx_igtk_ipn := cl_last_rx_igtk_ipn r;
  cl_igtk_key_id := cl_igtk_key_id r; cl_eapol_replay := cl_eapol_replay r;
  cl_test_snonce := cl_test_snonce r; cl_password := cl_password r;
  cl_sae_enabled := cl_sae_enabled r; cl_sae_h2e := cl_sae_h2e r; cl_sae := cl_sae r;
  cl_sae_pmk := cl_sae_pmk r; cl_igtk := cl_igtk r; cl_bigtk := cl_bigtk r;
  cl_cached_pmksa := cl_cached_pmksa r; cl_cached_pmksa_at := cl_cached_pmksa_at r;
  cl_pmksa_reconnect := cl_pmksa_reconnect r; cl_ocv := cl_ocv r; cl_channel := cl_channel r;
  cl_owe := cl_owe r; cl_owe_priv := cl_owe_priv r; cl_owe_pub := cl_owe_pub r;
  cl_wmm := cl_wmm r; cl_ap_wmm := cl_ap_wmm r; cl_wmm_negotiated := cl_wmm_negotiated r;
  cl_wmm_tid_override := cl_wmm_tid_override r; cl_mld_mac := cl_mld_mac r;
  cl_link1_mac := cl_link1_mac r; cl_ap_mld_mac := cl_ap_mld_mac r;
  cl_psk_sha256 := cl_psk_sha256 r; cl_pause_m3 := cl_pause_m3 r;
  cl_state_since := cl_state_since r; cl_last_ap_seen := cl_last_ap_seen r;
  cl_draws := cl_draws r |}.

(** * Features and counters (client/configuration.rs) *)

Definition set_sae_pmk (pmk : option bytes) (c : Client) : Client := c <| cl_sae_pmk := pmk |>.

Definition set_cached_pmksa (now : Z) (pmksa : option (bytes * bytes * bytes)) (c : Client) : Client :=
  c <| cl_cached_pmksa_at := option_map (fun _ => now) pmksa |> <| cl_cached_pmksa := pmksa |>.

Definition expire_cached_pmksa (now : Z) (c : Client) : Client :=
  match cl_cached_pmksa_at c with
  | Some cached_at =>
      if PMKSA_CACHE_LIFETIME <=? duration_since now cached_at then set_cached_pmksa now None c else c
  | None => c
  end.

Definition enable_mld (mld_mac link1_mac ap_mld_mac : bytes) (c : Client) : Client :=
  c <| cl_mld_mac := Some mld_mac |> <| cl_link1_mac := Some link1_mac |>
    <| cl_ap_mld_mac := Some ap_mld_mac |>.
Definition set_target_bssid (bssid : bytes) (c : Client) : Client := c <| cl_target_bssid := Some bssid |>.
Definition client_set_channel (channel : Z) (c : Client) : Client := c <| cl_channel := channel |>.
Definition client_set_pairwise_cipher (cipher : DataCipher) (c : Client) : Client :=
  c <| cl_pairwise_cipher := cipher |>.
Definition set_pause_m3 (c : Client) : Client := c <| cl_pause_m3 := true |>.
Definition client_set_wmm (wmm : bool) (c : Client) : Client := c <| cl_wmm := wmm |>.
Definition set_wmm_tid (tid : option Z) (c : Client) : Client :=
  c <| cl_wmm_tid_override := option_map (fun t => Z.land t 0x07) tid |>.
Definition client_enable_ocv (c : Client) : Client := c <| cl_ocv := true |>.
Definition client_enable_owe (c : Client) : Client := c <| cl_owe := true |>.
Definition client_enable_sae (c : Client) : Client := c <| cl_sae_enabled := true |>.
Definition client_enable_psk_sha256 (c : Client) : Client := c <| cl_psk_sha256 := true |>.
Definition use_hunting_pecking (c : Client) : Client := c <| cl_sae_h2e := false |>.
Definition set_test_snonce (snonce : bytes) (c : Client) : Client := c <| cl_test_snonce := Some snonce |>.

Definition client_key_mic (c : Client) : KeyMic :=
  if cl_psk_sha256 c then AesCmacV3 else key_mic_select (bool_decide (is_Some (cl_sae_pmk c))) (cl_owe c).

Definition client_mld_mgmt_rx_sec_addrs (c : Client) : option addrs :=
  sta_mld ← cl_mld_mac c; ap_mld ← cl_ap_mld_mac c; Some (sta_mld, ap_mld, ap_mld).
Definition client_mld_mgmt_tx_sec_addrs (c : Client) : option addrs :=
  sta_mld ← cl_mld_mac c; ap_mld ← cl_ap_mld_mac c; Some (ap_mld, sta_mld, ap_mld).

(** [with_wmm]: the element is appended when both ends speak WMM. *)
Definition with_wmm (c : Client) (frame : bytes) : bytes :=
  if cl_wmm c && cl_ap_wmm c then frame ++ wmm_information else frame.

Definition client_next_sc (c : Client) : Z * Client :=
  let sc := (cl_sc c + 1) mod 4096 in
  (u16 (sc * 16), c <| cl_sc := sc |>).

Definition client_next_pn (c : Client) : option (Z * Client) :=
  if MAX_PACKET_NUMBER <? cl_client_pn c then None
  else Some (cl_client_pn c, c <| cl_client_pn := cl_client_pn c + 1 |>).

Definition client_security_mode (c : Client) : SecurityMode :=
  if cl_owe c then Owe else if cl_sae_enabled c then Wpa3Sae else Wpa2.

Definition has_wmm_step (ies : bytes) (offset : nat) : res (nat + bool) :=
  if (offset + 2 <=? length ies)%nat then
    let! l := idx ies (offset + 1) in
    let stop := (offset + 2 + Z.to_nat l)%nat in
    if (length ies <? stop)%nat then Val (inr false)
    else
      let! body := slice ies (offset + 2) stop in
      let! id := idx ies offset in
      let! here :=
        if (id =? 221) && (6 <=? length body)%nat then
          let! oui := slice body 0 4 in
          let! subtype := idx body 4 in
          Val (beq oui [0x00; 0x50; 0xf2; 0x02] && ((subtype =? 0) || (subtype =? 1)))
        else Val false in
      if (here : bool) then Val (inr true) else Val (inl stop)
  else Val (inr false).

Definition has_wmm (ies : bytes) : res bool := loop (S (length ies)) (has_wmm_step ies) 0%nat.

Section New.
Context {P : Primitives}.

Definition client_new (now : Z) (ssid psk mac : bytes) : Client := {|
  cl_mac := mac; cl_ssid := ssid; cl_pmk := pbkdf2_pmk psk ssid; cl_bssid := None;
  cl_target_bssid := None; cl_connected := 0; cl_eapol_state := 0; cl_anonce := replicate 32 0;
  cl_snonce := replicate 32 0; cl_kck := replicate 16 0; cl_kek := replicate 16 0;
  cl_tk := replicate 16 0; cl_pairwise_tk := replicate 32 0; cl_pairwise_cipher := Ccmp128;
  cl_ptk_installed := false; cl_pending_ptk := None; cl_gtk := replicate 16 0; cl_gtk_set := false;
  cl_gtk_key_id := 1; cl_sc := 0; cl_client_pn := 1; cl_last_rx_pn := replicate 17 0;
  cl_last_rx_gpn := replicate 17 0; cl_last_rx_mgmt_pn := 0; cl_last_rx_igtk_ipn := 0;
  cl_igtk_key_id := None; cl_eapol_replay := 0; cl_test_snonce := None; cl_password := psk;
  cl_sae_enabled := false; cl_sae_h2e := true; cl_sae := None; cl_sae_pmk := None; cl_igtk := None;
  cl_bigtk := None; cl_cached_pmksa := None; cl_cached_pmksa_at := None; cl_pmksa_reconnect := false;
  cl_ocv := false; cl_channel := 1; cl_owe := false; cl_owe_priv := None; cl_owe_pub := None;
  cl_wmm := true; cl_ap_wmm := false; cl_wmm_negotiated := false; cl_wmm_tid_override := None;
  cl_mld_mac := None; cl_link1_mac := None; cl_ap_mld_mac := None; cl_psk_sha256 := false;
  cl_pause_m3 := false; cl_state_since := now; cl_last_ap_seen := now; cl_draws := 0 |}.

End New.

(** * Session state (client/session.rs) *)

Definition rsn_accepted (r : result unit Z) : bool := match r with Ok _ => true | Err _ => false end.

(** The RSN element of a beacon against what this station is configured for. *)
Definition beacon_security_valid (c : Client) (rsn : bytes) : bool :=
  if cl_sae_enabled c then
    rsn_accepted (validate_assoc_rsn_for_cipher rsn Transition (cl_pairwise_cipher c))
    && rsn_has_akm rsn 8 && rsn_has_mfpc rsn
  else if cl_psk_sha256 c then rsn_accepted (validate_psk_sha256_rsn_for_cipher rsn (cl_pairwise_cipher c))
  else rsn_accepted (validate_assoc_rsn_for_cipher rsn (client_security_mode c) (cl_pairwise_cipher c)).

Definition is_some {A} (o : option A) : bool := match o with Some _ => true | None => false end.

Definition beacon_matches (c : Client) (frame : Dot11) : res bool :=
  if cl_psk_sha256 c && is_some (cl_mld_mac c) then Val false
  else if negb (beq (addr1 frame) (replicate 6 0xff)) || negb (beq (addr2 frame) (addr3 frame))
          || (length (body frame) <? 12)%nat then Val false
  else if match cl_target_bssid c with Some t => negb (beq (addr3 frame) t) | None => false end
  then Val false
  else
    let! ies := slice_from (body frame) 12 in
    let! ssid := find_ie_strict ies 0 in
    match ssid with
    | Ok (Some ssid) =>
        if negb (beq ssid (cl_ssid c)) then Val false
        else
          let! rsn := find_ie_strict ies 48 in
          match rsn with
          | Ok (Some rsn) =>
              if negb (beacon_security_valid c rsn) then Val false
              else if cl_sae_enabled c && cl_sae_h2e c then
                let! rsnxe := find_ie_strict ies 244 in
                match rsnxe with
                | Ok (Some rsnxe) => Val (rsnxe_has_sae_h2e rsnxe)
                | _ => Val false
                end
              else Val true
          | _ => Val false
          end
    | _ => Val false
    end.

Definition is_from_selected_ap (c : Client) (frame : Dot11) : bool :=
  match cl_bssid c with
  | Some bssid => beq (addr2 frame) bssid && beq (addr3 frame) bssid
  | None => false
  end.

Definition reset_session_keys (c : Client) : Client :=
  c <| cl_anonce := replicate 32 0 |> <| cl_snonce := replicate 32 0 |> <| cl_kck := replicate 16 0 |>
    <| cl_kek := replicate 16 0 |> <| cl_tk := replicate 16 0 |> <| cl_pairwise_tk := replicate 32 0 |>
    <| cl_gtk := replicate 16 0 |> <| cl_gtk_set := false |> <| cl_ptk_installed := false |>
    <| cl_pending_ptk := None |> <| cl_client_pn := 1 |> <| cl_last_rx_pn := replicate 17 0 |>
    <| cl_last_rx_gpn := replicate 17 0 |> <| cl_last_rx_mgmt_pn := 0 |> <| cl_last_rx_igtk_ipn := 0 |>
    <| cl_igtk_key_id := None |> <| cl_eapol_replay := 0 |> <| cl_eapol_state := 0 |>
    <| cl_igtk := None |> <| cl_bigtk := None |> <| cl_owe_priv := None |> <| cl_owe_pub := None |>
    <| cl_pmksa_reconnect := false |> <| cl_ap_wmm := false |> <| cl_wmm_negotiated := false |>.

(** [disconnect] of client/sae_auth.rs. *)
Definition client_disconnect (c : Client) : Client :=
  set_sae_pmk None ((reset_session_keys (c <| cl_connected := 0 |>))
    <| cl_bssid := None |> <| cl_gtk_key_id := 1 |> <| cl_sae := None |>).

Definition set_connected_state (now state : Z) (c : Client) : Client :=
  c <| cl_connected := state |> <| cl_state_since := now |>.

Definition note_ap_activity (now : Z) (c : Client) : Client := c <| cl_last_ap_seen := now |>.

Definition client_timed_out (now : Z) (c : Client) : bool :=
  let s := cl_connected c in
  if s =? 1 then AUTH_ASSOC_TIMEOUT <=? duration_since now (cl_state_since c)
  else if (s =? 2) || (s =? 3) then FOUR_WAY_TIMEOUT <=? duration_since now (cl_state_since c)
  else if s =? 4 then LINK_SILENCE_TIMEOUT <=? duration_since now (cl_last_ap_seen c)
  else false.

Definition client_maintenance (now : Z) (c : Client) : Client * bool :=
  let timed_out := client_timed_out now c in
  (if timed_out then client_disconnect c else c, timed_out).

(** * What an EAPOL-Key message is *)

Definition valid_m1 (c : Client) (ek : EapolKey) : bool :=
  ek_is_pairwise ek && ek_key_ack ek && negb (ek_install ek) && negb (ek_has_key_mic ek)
  && negb (ek_secure ek) && negb (ek_error ek) && negb (ek_request ek)
  && negb (ek_encrypted_key_data ek)
  && (ek_descriptor_version ek =? mic_version (client_key_mic c))
  && (ek_key_length ek =? Z.of_nat (key_len (cl_pairwise_cipher c)))
  && negb (beq (ek_nonce ek) (replicate 32 0)).

(** The ANonce of the message 1 being answered, or of the installed PTK. *)
Definition m3_nonce_matches (c : Client) (ek : EapolKey) : bool :=
  match cl_pending_ptk c with Some p => beq (ek_nonce ek) (pp_anonce p) | None => false end
  || (cl_ptk_installed c && beq (ek_nonce ek) (cl_anonce c)).

Definition valid_m3 (c : Client) (ek : EapolKey) : bool :=
  ek_is_pairwise ek && ek_key_ack ek && ek_install ek && ek_has_key_mic ek && ek_secure ek
  && negb (ek_error ek) && negb (ek_request ek) && ek_encrypted_key_data ek
  && (ek_descriptor_version ek =? mic_version (client_key_mic c))
  && (ek_key_length ek =? Z.of_nat (key_len (cl_pairwise_cipher c)))
  && m3_nonce_matches c ek && negb (length (ek_key_data ek) =? 0)%nat.

Definition is_m1_retry (c : Client) (ek : EapolKey) : bool :=
  match cl_pending_ptk c with
  | Some p => (pp_replay p <=? ek_replay_counter ek) && beq (ek_nonce ek) (pp_anonce p)
  | None => false
  end.

Definition is_m1_fresh (c : Client) (ek : EapolKey) : bool := cl_eapol_replay c <? ek_replay_counter ek.

Definition valid_group_m1 (c : Client) (ek : EapolKey) : bool :=
  negb (ek_is_pairwise ek) && ek_key_ack ek && negb (ek_install ek) && ek_has_key_mic ek
  && ek_secure ek && negb (ek_error ek) && negb (ek_request ek) && ek_encrypted_key_data ek
  && (ek_descriptor_version ek =? mic_version (client_key_mic c))
  && beq (ek_nonce ek) (replicate 32 0) && negb (length (ek_key_data ek) =? 0)%nat.

(** An EAPOL-Key frame in the payload of a protected data frame. *)
Definition ethernet_eapol_key (ethernet : bytes) : res (option (bytes * EapolKey)) :=
  if (length ethernet <? 18)%nat then Val None
  else
    let! t := slice ethernet 12 14 in
    if negb (beq t (be_bytes 2 ETHERTYPE_EAPOL)) then Val None
    else
      let! eapol := slice_from ethernet 14 in
      match get eapol 1, get eapol 2, get eapol 3 with
      | Some 3, Some h, Some l =>
          let stop := (4 + Z.to_nat (be_val [h; l]))%nat in
          if (length eapol <? stop)%nat then Val None
          else
            let! eapol := slice eapol 0 stop in
            let! b := slice_from eapol 4 in
            let? key := parse_eapol_key b in
            Val (Some (eapol, key))
      | _, _, _ => Val None
      end.

(** * Accessors (client/inspection.rs) *)

Definition pairwise_key (c : Client) : res (option (bytes * DataCipher)) :=
  if cl_ptk_installed c then
    let! k := slice (cl_pairwise_tk c) 0 (key_len (cl_pairwise_cipher c)) in
    Val (Some (k, cl_pairwise_cipher c))
  else Val None.

Definition group_key (c : Client) : option (Z * bytes) :=
  if cl_gtk_set c then Some (cl_gtk_key_id c, cl_gtk c) else None.

Section Verify.
Context {P : Primitives}.

(** [verify_beacon] with the BIGTK, [verify_group_mgmt] with the IGTK. *)
Definition verify_under (key : option bytes) (radiotap_frame : bytes) : res bool :=
  match key with
  | None => Val false
  | Some key =>
      let! body := strip_radiotap radiotap_frame in
      match body with
      | None => Val false
      | Some body =>
          let! frame := parse body in
          match frame with
          | None => Val false
          | Some f => bip_verify key (fc0 f) (fc1 f) (addr1 f) (addr2 f) (addr3 f) (Frames.body f)
          end
      end
  end.

Definition verify_beacon (c : Client) (radiotap_frame : bytes) : res bool :=
  verify_under (cl_bigtk c) radiotap_frame.
Definition verify_group_mgmt (c : Client) (radiotap_frame : bytes) : res bool :=
  verify_under (cl_igtk c) radiotap_frame.

End Verify.
