(* ===== verification/ClientKeys.v ===== *)
(** The supplicant: src/client/handshake.rs and src/client/group_keys.rs, the
    protected uplink of src/client/data.rs that carries its answers once a key
    is installed, and the EAPOL dispatch of src/client/receive.rs. *)
From S2P Require Import Prelude Elements Crypto Security Frames Channels DataProt Kde Rsn Advert Mlo Eapol Sae Failures Ap ApData Client.

(** * Multi-link constants (src/mlo/handshake.rs) *)

Definition AMLD_RSN_SAE : bytes :=
  [0x30; 0x1a; 0x01; 0x00; 0x00; 0x0f; 0xac; 0x04; 0x01; 0x00; 0x00; 0x0f; 0xac; 0x04; 0x01; 0x00;
   0x00; 0x0f; 0xac; 0x08; 0xcc; 0x00; 0x00; 0x00; 0x00; 0x0f; 0xac; 0x0c].

(** * Key installation *)

Definition packet_number (b : bytes) : Z := le_val (b ++ [0; 0]).

(** [(gtk.len() == 16).then_some(..)] *)
Definition gtk_of_16 (key_id rsc : Z) (gtk : bytes) : option (Z * Z * bytes) :=
  if (length gtk =? 16)%nat then Some (key_id, rsc, gtk) else None.

(** The group keys of an unwrapped key-data block: (id, packet number, key). *)
Definition delivered_gtk (unwrapped : bytes) (key_rsc : Z) : res (option (Z * Z * bytes)) :=
  let! plain := parse_gtk_kde_full unwrapped in
  match plain ≫= (fun '(key_id, gtk) => gtk_of_16 key_id key_rsc gtk) with
  | Some k => Val (Some k)
  | None =>
      let! mlo := parse_mlo_gtk_kde_full unwrapped in
      Val (mlo ≫= (fun '(_, key_id, pn, gtk) => gtk_of_16 key_id (packet_number pn) gtk))
  end.

Definition delivered_igtk (unwrapped : bytes) : res (option (Z * bytes * bytes)) :=
  let! plain := parse_igtk_kde unwrapped in
  match plain with
  | Some k => Val (Some k)
  | None => let! mlo := parse_mlo_igtk_kde unwrapped in Val (option_map drop_link mlo)
  end.

Definition delivered_bigtk (unwrapped : bytes) : res (option bytes) :=
  let! plain := parse_bigtk_kde unwrapped in
  match plain with
  | Some (_, _, bigtk) => Val (Some bigtk)
  | None =>
      let! mlo := parse_mlo_bigtk_kde unwrapped in
      Val match mlo with Some (_, _, _, bigtk) => Some bigtk | None => None end
  end.

(** A group key that is already installed keeps its replay window. *)
Definition install_gtk (key_id rsc : Z) (gtk : bytes) (c : Client) : Client :=
  if cl_gtk_set c && beq (cl_gtk c) gtk then c
  else c <| cl_gtk := gtk |> <| cl_gtk_set := true |> <| cl_gtk_key_id := key_id |>
         <| cl_last_rx_gpn := replicate 17 rsc |>.

Definition install_igtk (igtk : option (Z * bytes * bytes)) (c : Client) : Client :=
  match igtk with
  | Some (id, ipn, key) =>
      if bool_decide (cl_igtk c = Some key) then c
      else c <| cl_igtk := Some key |> <| cl_igtk_key_id := Some id |>
             <| cl_last_rx_igtk_ipn := packet_number ipn |>
  | None => c
  end.

Definition install_bigtk (bigtk : option bytes) (c : Client) : Client :=
  match bigtk with
  | Some key => if bool_decide (cl_bigtk c = Some key) then c else c <| cl_bigtk := Some key |>
  | None => c
  end.

Definition install_group_keys (unwrapped : bytes) (key_rsc : Z) (c : Client) : res (bool * Client) :=
  if 0x0000ffffffffffff <? key_rsc then Val (false, c)
  else
    let! gtk := delivered_gtk unwrapped key_rsc in
    let! igtk := delivered_igtk unwrapped in
    match gtk with
    | None => Val (false, c)
    | Some (gtk_key_id, gtk_rsc, gtk) =>
        if is_some (cl_sae_pmk c) && negb (is_some igtk) then Val (false, c)
        else
          let c := install_igtk igtk (install_gtk gtk_key_id gtk_rsc gtk c) in
          let! bigtk := delivered_bigtk unwrapped in
          Val (true, install_bigtk bigtk c)
    end.

(** [same_temporal_key] of [commit_pending_ptk]. *)
Definition same_pending_key (c : Client) (p : PendingPtk) : bool :=
  let n := key_len (cl_pairwise_cipher c) in
  cl_ptk_installed c && constant_time_eq (take n (cl_pairwise_tk c)) (take n (pp_pairwise_tk p)).

Definition commit_pending_ptk (c : Client) : Client :=
  match cl_pending_ptk c with
  | None => c
  | Some p =>
      let same := same_pending_key c p in
      let c := c <| cl_pending_ptk := None |> <| cl_anonce := pp_anonce p |> <| cl_snonce := pp_snonce p |>
                 <| cl_kck := pp_kck p |> <| cl_kek := pp_kek p |> <| cl_tk := pp_tk p |>
                 <| cl_pairwise_tk := pp_pairwise_tk p |> in
      if same then c
      else c <| cl_client_pn := 1 |> <| cl_last_rx_pn := replicate 17 0 |> <| cl_last_rx_mgmt_pn := 0 |>
  end.

Section Supplicant.
Context `{Entropy} {P : Primitives}.

(** * Protected uplink (client/data.rs) *)

Definition encrypt_uplink (eth : bytes) (c : Client) : res (option bytes * Client) :=
  match cl_bssid c with
  | None => Val (None, c)
  | Some bssid =>
      if (cl_connected c <? 4) || (length eth <? 14)%nat then Val (None, c)
      else
        let! dst := slice eth 0 6 in
        let! ethertype := slice eth 12 14 in
        let! inner := slice_from eth 14 in
        match client_next_pn c with
        | None => Val (None, c)
        | Some (pn, c) =>
            let (sc, c) := client_next_sc c in
            let! tk := slice (cl_pairwise_tk c) 0 (key_len (cl_pairwise_cipher c)) in
            let! qos_tid :=
              if cl_wmm_negotiated c then
                match cl_wmm_tid_override c with
                | Some t => Val (Some t)
                | None => rmap Some (wmm_tid eth)
                end
              else Val None in
            let '(sec_a1, sec_a2, sec_a3) :=
              match cl_mld_mac c, cl_ap_mld_mac c with
              | Some mld, Some ap_mld => (ap_mld, mld, if beq dst bssid then ap_mld else dst)
              | _, _ => (bssid, cl_mac c, dst)
              end in
            let! frame := build_protected_data_sec (cl_pairwise_cipher c) bssid (cl_mac c) dst
              sec_a1 sec_a2 sec_a3 (Z.lor FC_TODS FC_PROTECTED) sc pn 0 tk (be_val ethertype) inner qos_tid in
            Val (Some (RADIOTAP_TX ++ frame), c)
        end
  end.

(** [tx_eapol]: the answer travels the way the message came. *)
Definition tx_eapol (frame : bytes) (protected_transport : bool) (c : Client) (out : ClientOut) :
    res (Client * ClientOut) :=
  if negb protected_transport then Val (c, client_tx frame out)
  else
    match cl_bssid c with
    | None => Val (c, out)
    | Some bssid =>
        let! eapol := (let? d := parse frame in eapol_frame d) in
        match eapol with
        | None => Val (c, out)
        | Some eapol =>
            let! '(encrypted, c) :=
              encrypt_uplink (bssid ++ cl_mac c ++ be_bytes 2 ETHERTYPE_EAPOL ++ eapol) c in
            Val (c, match encrypted with Some f => client_push f out | None => out end)
        end
    end.

(** * Messages 1 and 2 *)

Definition client_sha256 (c : Client) : bool := is_some (cl_sae_pmk c) || cl_psk_sha256 c.

(** The PTK candidate for a message 1, as the two branches of [send_eapol2] fill it. *)
Definition derive_pending (c : Client) (bssid anonce snonce : bytes) (replay : Z) : res PendingPtk :=
  let pmk := default (cl_pmk c) (cl_sae_pmk c) in
  let aa := default bssid (cl_ap_mld_mac c) in
  let spa := default (cl_mac c) (cl_mld_mac c) in
  let tk_len := key_len (cl_pairwise_cipher c) in
  let! ptk :=
    if client_sha256 c then derive_ptk_sha256_len pmk aa spa anonce snonce (32 + tk_len)
    else custom_prf512 pmk aa spa anonce snonce in
  let! kck := slice ptk 0 16 in
  let! kek := slice ptk 16 32 in
  let! tk := slice ptk 32 48 in
  let! pairwise_tk := slice ptk 32 (32 + tk_len) in
  Val {| pp_anonce := anonce; pp_snonce := snonce; pp_replay := replay; pp_kck := kck; pp_kek := kek;
         pp_tk := tk; pp_pairwise_tk := pairwise_tk ++ replicate (32 - tk_len) 0 |}.

(** The RSN elements message 2 repeats from the association request, and the
    multi-link identities after them. *)
Definition supplicant_rsn (c : Client) : bytes :=
  if is_some (cl_mld_mac c) then AMLD_RSN_SAE ++ RSNXE_H2E
  else if cl_psk_sha256 c then RSN_PSK_SHA256
  else if cl_owe c then RSN_OWE
  else if client_sha256 c then RSN_WPA3 ++ RSNXE_H2E
  else RSN.

Definition message_2_rsn (c : Client) : bytes :=
  let supp_rsn := supplicant_rsn c in
  let supp_rsn :=
    if is_some (cl_mld_mac c) then supp_rsn
    else <[13%nat := suite_type (cl_pairwise_cipher c)]> supp_rsn in
  match cl_mld_mac c with
  | None => supp_rsn
  | Some mld =>
      supp_rsn ++ [0xdd; 0x0a; 0x00; 0x0f; 0xac; 0x03] ++ mld
      ++ match cl_link1_mac c with
         | Some l1 => [0xdd; 0x0b; 0x00; 0x0f; 0xac; 0x13; 0x01] ++ l1
         | None => []
         end
  end.

Definition client_oci (c : Client) : option (Z * Z) :=
  if cl_ocv c then Some (operating_class (cl_channel c) 20 false, cl_channel c) else None.

(** [self.test_snonce.unwrap_or_else(random_bytes)] *)
Definition draw_snonce (c : Client) : bytes * Client :=
  match cl_test_snonce c with
  | Some s => (s, c)
  | None => (os_random (cl_draws c) 32, c <| cl_draws := (cl_draws c + 1)%N |>)
  end.

Definition send_eapol2 (ek : EapolKey) (protected_transport : bool) (c : Client) (out : ClientOut) :
    res (Client * ClientOut) :=
  match cl_bssid c with
  | None => Val (c, out)
  | Some bssid =>
      let (snonce, c) := draw_snonce c in
      let! pending := derive_pending c bssid (ek_nonce ek) snonce (ek_replay_counter ek) in
      let (sc, c) := client_next_sc c in
      let c := c <| cl_pending_ptk := Some pending |> in
      let! message_2 := build_eapol_m2 bssid (cl_mac c) snonce (pp_kck pending) (message_2_rsn c)
        (pp_replay pending) sc (client_key_mic c) (client_oci c) in
      let! '(c, out) := tx_eapol message_2 protected_transport c out in
      Val (c <| cl_eapol_state := 1 |>, out)
  end.

(** A duplicate message 1 is answered with the SNonce of the first answer. *)
Definition send_eapol2_retry (ek : EapolKey) (protected_transport : bool) (c : Client) (out : ClientOut) :
    res (Client * ClientOut) :=
  let original_override := cl_test_snonce c in
  let c := c <| cl_test_snonce := option_map pp_snonce (cl_pending_ptk c) |> in
  let! '(c, out) := send_eapol2 ek protected_transport c out in
  Val (c <| cl_test_snonce := original_override |>, out).

(** * Messages 3 and 4 *)

Definition retry_m3 (c : Client) (ek : EapolKey) : bool :=
  negb (cl_pause_m3 c) && (cl_eapol_state c =? 2) && cl_ptk_installed c
  && (cl_eapol_replay c <=? ek_replay_counter ek).

Definition fresh_m3 (c : Client) (ek : EapolKey) : bool :=
  match cl_pending_ptk c with Some p => pp_replay p <=? ek_replay_counter ek | None => false end
  && (cl_pause_m3 c || (cl_eapol_replay c <? ek_replay_counter ek)).

(** Operating Channel Validation of message 3. *)
Definition m3_oci_accepted (c : Client) (unwrapped : bytes) : res bool :=
  if cl_ocv c then
    let! oci := parse_oci_kde unwrapped in
    match oci with
    | Some (oc, ch) => Val ((ch =? cl_channel c) && oci_class_matches_band oc (cl_channel c) false)
    | None => Val false
    end
  else Val true.

(** The key data of a verified message 3; [None] drops the message. *)
Definition m3_install (ek : EapolKey) (c : Client) : res (option Client) :=
  match cl_pending_ptk c with
  | None => Val None
  | Some p =>
      let? unwrapped := aes_unwrap (pp_kek p) (ek_key_data ek) in
      let! oci_ok := m3_oci_accepted c unwrapped in
      if negb oci_ok then Val None
      else
        let! '(installed, c) := install_group_keys unwrapped (ek_rsc ek) c in
        if negb installed then Val None
        else Val (Some (commit_pending_ptk (c <| cl_eapol_replay := ek_replay_counter ek |>)))
  end.

(** Message 4 and the state it leaves. *)
Definition send_message_4 (now : Z) (bssid : bytes) (protected_transport : bool) (c : Client) (out : ClientOut) :
    res (Client * ClientOut) :=
  let (sc, c) := client_next_sc c in
  let! message_4 := build_eapol_m4_mld bssid (cl_mac c) (cl_kck c) (cl_eapol_replay c) sc
    (client_key_mic c) (cl_mld_mac c) in
  let! '(c, out) := tx_eapol message_4 protected_transport c out in
  let c := note_ap_activity now (set_connected_state now 4 c) in
  Val (c <| cl_ptk_installed := true |> <| cl_eapol_state := 2 |>, out).

(** The key the MIC of a message 3 is checked with. *)
Definition m3_kck (c : Client) (ek : EapolKey) : option bytes :=
  if retry_m3 c ek then Some (cl_kck c) else option_map pp_kck (cl_pending_ptk c).

Definition send_eapol4 (now : Z) (eapol_frame : bytes) (ek : EapolKey) (protected_transport : bool)
    (c : Client) (out : ClientOut) : res (Client * ClientOut) :=
  match cl_bssid c with
  | None => Val (c, out)
  | Some bssid =>
      if negb (cl_pause_m3 c) && negb (retry_m3 c ek) && negb (fresh_m3 c ek) then Val (c, out)
      else
        match m3_kck c ek with
        | None => Val (c, out)
        | Some kck =>
            let! mic_valid := eapol_mic_valid (client_key_mic c) kck eapol_frame ek in
            if negb mic_valid then Val (c, out)
            else
              let! accepted :=
                if retry_m3 c ek then Val (Some (c <| cl_eapol_replay := ek_replay_counter ek |>))
                else m3_install ek c in
              match accepted with
              | None => Val (c, out)
              | Some c =>
                  if cl_pause_m3 c then Val (c, out) else send_message_4 now bssid protected_transport c out
              end
        end
  end.

(** * The group handshake *)

Definition handle_group_rekey (eapol_frame : bytes) (ek : EapolKey) (protected_transport : bool)
    (c : Client) (out : ClientOut) : res (Client * ClientOut) :=
  match cl_bssid c with
  | None => Val (c, out)
  | Some bssid =>
      let mic := client_key_mic c in
      let! mic_valid := eapol_mic_valid mic (cl_kck c) eapol_frame ek in
      if negb mic_valid then Val (c, out)
      else if ek_replay_counter ek <? cl_eapol_replay c then Val (c, out)
      else
        let! accepted :=
          if cl_eapol_replay c <? ek_replay_counter ek then
            let? unwrapped := aes_unwrap (cl_kek c) (ek_key_data ek) in
            let! '(installed, c) := install_group_keys unwrapped (ek_rsc ek) c in
            if negb installed then Val None
            else Val (Some (c <| cl_eapol_replay := ek_replay_counter ek |>))
          else Val (Some c) in
        match accepted with
        | None => Val (c, out)
        | Some c =>
            let (sc, c) := client_next_sc c in
            let! message_2 := build_group_key_msg2 bssid (cl_mac c) (cl_kck c) (ek_replay_counter ek) sc mic in
            tx_eapol message_2 protected_transport c out
        end
  end.

(** * Dispatch (client/receive.rs) *)

(** [if out.frames.len() != before { self.note_ap_activity() }] *)
Definition note_if_answered (now : Z) (before : nat) (r : Client * ClientOut) : Client * ClientOut :=
  let (c, out) := r in
  (if (length (co_frames out) =? before)%nat then c else note_ap_activity now c, out).

(** What the supplicant makes of a pairwise message in its current state. *)
Definition pairwise_message (now : Z) (eapol : bytes) (ek : EapolKey) (protected_transport : bool)
    (c : Client) (out : ClientOut) : res (Client * ClientOut) :=
  if (4 <=? cl_connected c) && (cl_eapol_state c =? 2) then
    if valid_m3 c ek then send_eapol4 now eapol ek protected_transport c out
    else if valid_m1 c ek && is_m1_fresh c ek then send_eapol2 ek protected_transport c out
    else Val (c, out)
  else if cl_eapol_state c =? 0 then
    if valid_m1 c ek then send_eapol2 ek protected_transport c out else Val (c, out)
  else if cl_eapol_state c =? 1 then
    if valid_m3 c ek then send_eapol4 now eapol ek protected_transport c out
    else if valid_m1 c ek && is_m1_retry c ek then send_eapol2_retry ek protected_transport c out
    else if valid_m1 c ek && is_m1_fresh c ek then send_eapol2 ek protected_transport c out
    else Val (c, out)
  else Val (c, out).

(** An unprotected message without a MIC is refused once a PMF session has its key. *)
Definition refused_in_clear (ek : EapolKey) (protected_transport : bool) (c : Client) : bool :=
  negb protected_transport && cl_ptk_installed c && is_some (cl_sae_pmk c) && ek_is_pairwise ek
  && negb (ek_has_key_mic ek).

Definition handle_eapol_key (now : Z) (eapol : bytes) (ek : EapolKey) (protected_transport : bool)
    (c : Client) (out : ClientOut) : res (Client * ClientOut) :=
  if refused_in_clear ek protected_transport c then Val (c, out)
  else
    let before := length (co_frames out) in
    if (4 <=? cl_connected c) && negb (ek_is_pairwise ek) then
      if valid_group_m1 c ek then
        let! r := handle_group_rekey eapol ek protected_transport c out in
        Val (note_if_answered now before r)
      else Val (c, out)
    else
      let! r := pairwise_message now eapol ek protected_transport c out in
      Val (note_if_answered now before r).

End Supplicant.
