(* ===== verification/ClientRx.v ===== *)
(** The station's receive path: src/client/receive.rs with the SAE exchange of
    src/client/sae_auth.rs, the protected management frames of
    src/client/management.rs and the multi-link association request of
    src/mlo/handshake.rs; and the Ethernet helpers of src/client/data.rs. *)
From S2P Require Import Prelude Elements Crypto Security Frames Channels DataProt Kde Rsn Advert Mlo Eapol Sae Failures Roaming Ap ApConfig ApEapol Demo ApData ApMgmt ApBeacon ApRates ApAdmit ApSae Client ClientKeys.

(** * The multi-link association request *)

Definition AMLD_RATES : bytes := [0x01; 0x08; 0x02; 0x04; 0x0b; 0x16; 0x0c; 0x12; 0x18; 0x24].
Definition AMLD_EXTRATES : bytes := [0x32; 0x04; 0x30; 0x48; 0x60; 0x6c].
Definition AMLD_HTCAP : bytes :=
  [0x2d; 0x1a; 0x7e; 0x10; 0x1b; 0xff; 0xff; 0x00; 0x00; 0x00; 0x00; 0x00; 0x00; 0x00; 0x00; 0x00;
   0x00; 0x01; 0x00; 0x00; 0x00; 0x00; 0x00; 0x00; 0x00; 0x00; 0x00; 0x00].
Definition AMLD_EXTCAP : bytes :=
  [0x7f; 0x0a; 0x04; 0x00; 0x4a; 0x02; 0x01; 0x40; 0x00; 0x40; 0x00; 0x01].
Definition AMLD_HECAP : bytes :=
  [0xff; 0x16; 0x23; 0x01; 0x78; 0xc8; 0x1a; 0x40; 0x00; 0x02; 0xbf; 0xce; 0x00; 0x00; 0x00; 0x00;
   0x00; 0x00; 0x00; 0x00; 0xfa; 0xff; 0xfa; 0xff].
Definition AMLD_EHTCAP : bytes :=
  [0xff; 0x11; 0x6c; 0x07; 0x00; 0x7c; 0x00; 0x00; 0xfe; 0xff; 0xff; 0x07; 0x01; 0x00; 0x88; 0x88;
   0x88; 0x00; 0x00].
Definition AMLD_WMM : bytes := [0xdd; 0x07; 0x00; 0x50; 0xf2; 0x02; 0x00; 0x01; 0x00].
(** The constant of the source spells the five elements out. *)
Definition AMLD_LINK1_PROFILE_IES : bytes := AMLD_RATES ++ AMLD_EXTRATES ++ AMLD_HTCAP ++ AMLD_HECAP ++ AMLD_EHTCAP.

Definition multi_link_sta (mld_mac link1_mac : bytes) : res bytes :=
  let prof := [0x31; 0x00] ++ [7] ++ link1_mac ++ [0x30; 0x04] ++ AMLD_LINK1_PROFILE_IES in
  ext_ie 107 ([0x00; 0x01] ++ [9] ++ mld_mac ++ [0x00; 0x00] ++ [0] ++ [u8 (Z.of_nat (length prof))] ++ prof).

Definition build_assoc_req_mld (ap_bssid sta_link0 mld_mac link1_mac ssid : bytes) (sc : Z) : res bytes :=
  let! mle := multi_link_sta mld_mac link1_mac in
  Val (dot11_header TYPE_MGMT SUBTYPE_ASSOC_REQ FC_TODS ap_bssid sta_link0 ap_bssid sc
       ++ [0x30; 0x04] ++ [0x05; 0x00] ++ ie 0 ssid ++ AMLD_RATES ++ AMLD_EXTRATES ++ AMLD_RSN_SAE
       ++ AMLD_HTCAP ++ AMLD_EXTCAP ++ AMLD_HECAP ++ mle ++ AMLD_EHTCAP ++ RSNXE_H2E ++ AMLD_WMM).

(** * Ethernet helpers *)

(** The 32-bit sum of the big-endian words; a last odd octet is the high one. *)
Fixpoint inet_sum (data : bytes) : Z :=
  match data with
  | a :: b :: rest => be_val [a; b] + inet_sum rest
  | [a] => Z.shiftl a 8
  | [] => 0
  end.

Definition inet_fold_step (sum : Z) : res (Z + Z) :=
  if Z.shiftr sum 16 =? 0 then Val (inr (Z.lxor (u16 sum) 0xffff))
  else Val (inl (Z.land sum 0xFFFF + Z.shiftr sum 16)).

(** The accumulator is a [u32], so two foldings are enough. *)
Definition inet_checksum (data : bytes) : res Z := loop 4 inet_fold_step (inet_sum data).

(** "barely-ap-rust-ping" *)
Definition PING_TEXT : bytes :=
  [0x62; 0x61; 0x72; 0x65; 0x6c; 0x79; 0x2d; 0x61; 0x70; 0x2d; 0x72; 0x75; 0x73; 0x74; 0x2d; 0x70;
   0x69; 0x6e; 0x67].

Definition build_ping (c : Client) (dst_mac src_ip dst_ip : bytes) (tos : Z) : res bytes :=
  let icmp := [8; 0; 0; 0; 0x12; 0x34; 0x00; 0x01] ++ PING_TEXT in
  let! ck := inet_checksum icmp in
  let icmp := splice icmp 2 (be_bytes 2 ck) in
  let total := Z.of_nat (20 + length icmp) in
  let ip := [0x45; tos] ++ be_bytes 2 (u16 total) ++ [0; 0; 0; 0; 64; 1; 0; 0] ++ src_ip ++ dst_ip in
  let! ipck := inet_checksum ip in
  let ip := splice ip 10 (be_bytes 2 ipck) ++ icmp in
  Val (dst_mac ++ cl_mac c ++ [0x08; 0x00] ++ ip).

Definition build_arp_reply (c : Client) (req_eth my_ip : bytes) : res (option bytes) :=
  if (length req_eth <? 14 + 28)%nat then Val None
  else
    let! ethertype := slice req_eth 12 14 in
    if negb (beq ethertype [0x08; 0x06]) then Val None
    else
      let! arp := slice req_eth 14 (14 + 28) in
      let! htype := slice arp 0 2 in
      let! ptype := slice arp 2 4 in
      let! oper := slice arp 6 8 in
      if negb (beq htype [0x00; 0x01]) || negb (beq ptype [0x08; 0x00]) || negb (beq oper [0x00; 0x01])
      then Val None
      else
        let! target_ip := slice arp 24 28 in
        if negb (beq target_ip my_ip) then Val None
        else
          let! sender_mac := slice arp 8 14 in
          let! sender_ip := slice arp 14 18 in
          Val (Some (sender_mac ++ cl_mac c ++ [0x08; 0x06]
                     ++ [0x00; 0x01; 0x08; 0x00; 0x06; 0x04; 0x00; 0x02]
                     ++ cl_mac c ++ my_ip ++ sender_mac ++ sender_ip)).

Section Rx.
Context `{Entropy} {P : Primitives} {C : P256}.

(** * SAE (client/sae_auth.rs) *)

(** The multi-link element an MLD appends to its Authentication frames. *)
Definition with_mld_element (c : Client) (payload : bytes) : res bytes :=
  match cl_mld_mac c with
  | Some mld => let! e := multi_link_auth mld in Val (payload ++ e)
  | None => Val payload
  end.

Definition commit_status (c : Client) : Z := if cl_sae_h2e c then STATUS_SAE_H2E else STATUS_SUCCESS.

Definition send_sae (bssid : bytes) (seq status : Z) (payload : bytes) (c : Client) (out : ClientOut) :
    Client * ClientOut :=
  let (sc, c) := client_next_sc c in
  (c, client_tx (build_sae_auth bssid (cl_mac c) bssid 0 sc seq status payload) out).

(** The exchange with its password element. *)
Definition client_sae_new (c : Client) (bssid : bytes) : res (option Sae) :=
  let sae_sta := default (cl_mac c) (cl_mld_mac c) in
  let sae_ap := default bssid (cl_ap_mld_mac c) in
  if cl_sae_h2e c then rmap Some (new_h2e (cl_ssid c) (cl_password c) None sae_sta sae_ap)
  else new_hunting_pecking (cl_password c) sae_sta sae_ap.

(** [prepare_commit(None)] draws its two scalars from the system's generator. *)
Definition start_sae (fuel : nat) (bssid : bytes) (c : Client) (out : ClientOut) : res (Client * ClientOut) :=
  let! sae := client_sae_new c bssid in
  match sae with
  | None => Val (c, out)
  | Some sae =>
      let! '(rand, draws) := loop fuel owe_private_step (cl_draws c) in
      let! '(mask, draws) := loop fuel owe_private_step draws in
      let c := c <| cl_draws := draws |> in
      let! sae := prepare_commit sae rand mask in
      let! commit := write_commit sae in
      let! commit := with_mld_element c commit in
      let (c, out) := send_sae bssid 1 (commit_status c) commit c out in
      Val (c <| cl_sae := Some sae |>, out)
  end.

(** The token of an anti-clogging request. *)
Definition requested_token (h2e : bool) (payload : bytes) : res (option bytes) :=
  if h2e then
    if negb (length payload =? 2 + 3 + 32)%nat then Val None
    else
      let! b2 := idx payload 2 in
      let! b3 := idx payload 3 in
      let! b4 := idx payload 4 in
      if negb (b2 =? 255) || negb (b3 =? 33) || negb (b4 =? 93) then Val None
      else let! t := slice_from payload 5 in Val (Some t)
  else if negb (length payload =? 2 + 32)%nat then Val None
  else let! t := slice_from payload 2 in Val (Some t).

(** [commit.splice(2..2, token)] panics on a commit shorter than two octets. *)
Definition commit_with_token (h2e : bool) (commit token : bytes) : res bytes :=
  if h2e then Val (commit ++ [255; 33; 93] ++ token)
  else let! _ := slice_from commit 2 in Val (take 2 commit ++ token ++ drop 2 commit).

Definition resend_commit (payload : bytes) (c : Client) (out : ClientOut) : res (Client * ClientOut) :=
  let! token := requested_token (cl_sae_h2e c) payload in
  match token, cl_sae c with
  | Some token, Some sae =>
      let! commit := write_commit sae in
      let! commit := commit_with_token (cl_sae_h2e c) commit token in
      let! commit := with_mld_element c commit in
      match cl_bssid c with
      | None => Val (c, out)
      | Some bssid => Val (send_sae bssid 1 (commit_status c) commit c out)
      end
  | _, _ => Val (c, out)
  end.

(** The AP's commit: derive the keys and confirm.  [sae] stays changed when a
    step fails. *)
Definition answer_commit (fuel : nat) (payload : bytes) (c : Client) (out : ClientOut) :
    res (Client * ClientOut) :=
  match cl_sae c with
  | None => Val (c, out)
  | Some sae =>
      let! '(parsed, sae) := parse_peer_commit sae payload in
      let c := c <| cl_sae := Some sae |> in
      match parsed with
      | Err _ => Val (c, out)
      | Ok _ =>
          if is_reflection sae then Val (c, out)
          else
            let! '(processed, sae) := process_commit sae in
            let c := c <| cl_sae := Some sae |> in
            match processed with
            | Err _ => Val (c, out)
            | Ok _ =>
                let! '(written, sae) := write_confirm sae in
                let c := c <| cl_sae := Some sae |> in
                match written with
                | Err _ =>
                    let c := c <| cl_sae := None |> in
                    match cl_bssid c with
                    | Some bssid => start_sae fuel bssid c out
                    | None => Val (c, out)
                    end
                | Ok confirm =>
                    let! confirm := with_mld_element c confirm in
                    match cl_bssid c with
                    | None => Val (c, out)
                    | Some bssid => Val (send_sae bssid 2 STATUS_SUCCESS confirm c out)
                    end
                end
            end
      end
  end.

(** The association request of an SAE station. *)
Definition assoc_after_sae (bssid : bytes) (c : Client) (out : ClientOut) : res (Client * ClientOut) :=
  let (sc, c) := client_next_sc c in
  match cl_mld_mac c, cl_link1_mac c with
  | Some mld, Some l1 =>
      let! f := build_assoc_req_mld bssid (cl_mac c) mld l1 (cl_ssid c) sc in
      Val (c, client_tx f out)
  | _, _ =>
      Val (c, client_tx (with_wmm c (build_assoc_req_sae_for_cipher bssid (cl_mac c) (cl_ssid c) sc
                                       (cl_pairwise_cipher c))) out)
  end.

(** The AP's confirm: [copy_from_slice] panics on keys of another length. *)
Definition accept_confirm (now : Z) (payload : bytes) (c : Client) (out : ClientOut) :
    res (Client * ClientOut) :=
  match cl_sae c with
  | None => Val (c, out)
  | Some sae =>
      let! '(checked, sae) := check_confirm sae payload in
      let c := c <| cl_sae := Some sae |> in
      match checked with
      | Err _ => Val (c, out)
      | Ok _ =>
          if negb (length (sae_pmk sae) =? 32)%nat || negb (length (sae_pmkid sae) =? 16)%nat then Panic
          else
            let c := set_sae_pmk (Some (sae_pmk sae)) c in
            match cl_bssid c with
            | None => Val (c, out)
            | Some bssid =>
                let c := set_cached_pmksa now (Some (bssid, sae_pmkid sae, sae_pmk sae)) c in
                assoc_after_sae bssid c out
            end
      end
  end.

Definition client_handle_sae_auth (fuel : nat) (now seq status : Z) (payload : bytes) (c : Client)
    (out : ClientOut) : res (Client * ClientOut) :=
  if (seq =? 1) && (status =? STATUS_ANTI_CLOGGING_TOKEN_REQ) then resend_commit payload c out
  else if seq =? 1 then
    if negb (status =? commit_status c) then Val (c, out) else answer_commit fuel payload c out
  else if seq =? 2 then
    if negb (status =? STATUS_SUCCESS) then Val (c, out) else accept_confirm now payload c out
  else Val (c, out).

(** * Robust management frames (client/management.rs) *)

Definition open_mgmt (c : Client) (frame : Dot11) : res (option bytes) :=
  let! tk := slice (cl_pairwise_tk c) 0 (key_len (cl_pairwise_cipher c)) in
  decrypt_protected_mgmt_sec (cl_pairwise_cipher c) frame tk (client_mld_mgmt_rx_sec_addrs c).

(** A packet number above every one seen is recorded; any other is refused. *)
Definition fresh_mgmt_pn (frame : Dot11) (c : Client) : res (option Client) :=
  let! pn := ccmp_pn frame in
  Val match pn with
      | Some pn => if cl_last_rx_mgmt_pn c <? pn then Some (c <| cl_last_rx_mgmt_pn := pn |>) else None
      | None => None
      end.

(** The answer to an SA Query request. *)
Definition answer_sa_query (trans_id : Z) (c : Client) (out : ClientOut) : res (Client * ClientOut) :=
  match cl_bssid c with
  | None => Val (c, out)
  | Some bssid =>
      match client_next_pn c with
      | None => Val (c, out)
      | Some (pn, c) =>
          let (sc, c) := client_next_sc c in
          let! tk := slice (cl_pairwise_tk c) 0 (key_len (cl_pairwise_cipher c)) in
          let! f := build_protected_sa_query_for_cipher_sec (cl_pairwise_cipher c) bssid (cl_mac c) true true
            trans_id sc pn tk (client_mld_mgmt_tx_sec_addrs c) in
          Val (c, client_tx f out)
      end
  end.

Definition client_handle_action (frame : Dot11) (c : Client) (out : ClientOut) : res (Client * ClientOut) :=
  if negb (is_some (cl_sae_pmk c)) || negb (protected frame) || negb (cl_ptk_installed c) then Val (c, out)
  else
    let! plain := open_mgmt c frame in
    match plain with
    | None => Val (c, out)
    | Some plain =>
        let! fresh := fresh_mgmt_pn frame c in
        match fresh with
        | None => Val (c, out)
        | Some c =>
            if (4 <=? length plain)%nat && (byte_at plain 0 =? ACTION_CATEGORY_WNM)
               && (byte_at plain 1 =? WNM_BTM_REQUEST)
            then Val (if negb (Z.land (byte_at plain 3) 0x04 =? 0) then client_disconnect c else c, out)
            else
              let! query := parse_sa_query plain in
              match query with
              | Some (action, trans_id) =>
                  if action =? SA_QUERY_REQUEST then answer_sa_query trans_id c out else Val (c, out)
              | None => Val (c, out)
              end
        end
    end.

Definition is_group_addr (a : bytes) : bool := negb (Z.land (byte_at a 0) 0x01 =? 0).

(** A Deauthentication or Disassociation that is believed, with the replay
    counter it moved. *)
Definition accept_farewell (frame : Dot11) (c : Client) : res (option Client) :=
  if negb (is_some (cl_sae_pmk c)) then Val (Some c)
  else if is_group_addr (addr1 frame) then
    match cl_igtk c with
    | None => Val None
    | Some igtk =>
        let! valid := bip_verify igtk (fc0 frame) (fc1 frame) (addr1 frame) (addr2 frame) (addr3 frame)
          (body frame) in
        if negb valid then Val None
        else
          let! ipn := bip_ipn (body frame) in
          Val match ipn with
              | Some ipn =>
                  if cl_last_rx_igtk_ipn c <? ipn then Some (c <| cl_last_rx_igtk_ipn := ipn |>) else None
              | None => None
              end
    end
  else if cl_ptk_installed c && protected frame then
    let! plain := open_mgmt c frame in
    match plain with Some _ => fresh_mgmt_pn frame c | None => Val None end
  else Val None.

Definition client_handle_robust_mgmt (frame : Dot11) (c : Client) (out : ClientOut) : res (Client * ClientOut) :=
  if subtype frame =? SUBTYPE_ACTION then client_handle_action frame c out
  else
    let! accept := accept_farewell frame c in
    Val match accept with Some c => (client_disconnect c, out) | None => (c, out) end.

(** * Receive dispatch (client/receive.rs) *)

Definition send_open_auth (bssid : bytes) (c : Client) (out : ClientOut) : Client * ClientOut :=
  let (sc, c) := client_next_sc c in
  (c, client_tx (build_auth_req bssid (cl_mac c) sc) out).

(** The DS Parameter Set of a beacon. *)
Definition learn_channel (frame : Dot11) (c : Client) : res Client :=
  if (12 <? length (body frame))%nat then
    let! ies := slice_from (body frame) 12 in
    let! ds := find_ie ies 3 in
    Val match ds with Some (channel :: _) => c <| cl_channel := channel |> | _ => c end
  else Val c.

(** A matching beacon starts an association. *)
Definition start_join (fuel : nat) (now : Z) (frame : Dot11) (c : Client) (out : ClientOut) :
    res (Client * ClientOut) :=
  let bssid := addr2 frame in
  let c := (reset_session_keys (expire_cached_pmksa now c)) <| cl_bssid := Some bssid |> in
  let! ies := slice_from (body frame) 12 in
  let! wmm := has_wmm ies in
  let c := note_ap_activity now (set_connected_state now 1 (c <| cl_ap_wmm := wmm |>)) in
  let! c := learn_channel frame c in
  let sae_or_open :=
    if cl_sae_enabled c then start_sae fuel bssid c out else Val (send_open_auth bssid c out) in
  match cl_cached_pmksa c with
  | Some (cbssid, _, pmk) =>
      if beq cbssid bssid then
        Val (send_open_auth bssid ((set_sae_pmk (Some pmk) c) <| cl_pmksa_reconnect := true |>) out)
      else sae_or_open
  | None => sae_or_open
  end.

(** The association request that follows open-system authentication. *)
Definition send_assoc_req (fuel : nat) (bssid : bytes) (c : Client) (out : ClientOut) :
    res (Client * ClientOut) :=
  let (sc, c) := client_next_sc c in
  let ssid := cl_ssid c in
  match (if cl_pmksa_reconnect c then cl_cached_pmksa c else None) with
  | Some (_, pmkid, _) =>
      Val (c, client_tx (with_wmm c (build_assoc_req_pmkid bssid (cl_mac c) ssid pmkid sc)) out)
  | None =>
      if cl_owe c then
        let! '(private, draws) := loop fuel owe_private_step (cl_draws c) in
        let! public := owe_public private in
        let c := c <| cl_draws := draws |> <| cl_owe_priv := Some private |> <| cl_owe_pub := Some public |> in
        Val (c, client_tx (with_wmm c (build_assoc_req_owe bssid (cl_mac c) ssid
                                         (build_dh_param_element 19 public) sc)) out)
      else
        match cl_mld_mac c, cl_link1_mac c with
        | Some mld, Some l1 =>
            let! f := build_assoc_req_mld bssid (cl_mac c) mld l1 ssid sc in Val (c, client_tx f out)
        | _, _ =>
            let f :=
              if cl_psk_sha256 c then
                build_assoc_req_psk_sha256_for_cipher bssid (cl_mac c) ssid sc (cl_pairwise_cipher c)
              else build_assoc_req_for_cipher bssid (cl_mac c) ssid sc (cl_pairwise_cipher c) in
            Val (c, client_tx (with_wmm c f) out)
        end
  end.

Definition handle_auth_frame (fuel : nat) (now : Z) (frame : Dot11) (c : Client) (out : ClientOut) :
    res (Client * ClientOut) :=
  if negb (beq (addr1 frame) (cl_mac c)) || negb (is_from_selected_ap c frame) then Val (c, out)
  else
    let! auth := parse_auth (body frame) in
    match auth with
    | None => Val (c, out)
    | Some auth =>
        if auth_algo auth =? AUTH_ALG_SAE then
          if negb (cl_sae_enabled c) then Val (c, out)
          else
            let! '(c, out) := client_handle_sae_auth fuel now (auth_seq auth) (auth_status auth)
              (auth_payload auth) c out in
            Val (if (length (co_frames out) =? 0)%nat then c else note_ap_activity now c, out)
        else if negb (auth_algo auth =? AUTH_ALG_OPEN) || negb (auth_seq auth =? 2)
                || negb (auth_status auth =? STATUS_SUCCESS)
                || (cl_sae_enabled c && negb (cl_pmksa_reconnect c))
        then Val (c, out)
        else
          let c := (note_ap_activity now c) <| cl_bssid := Some (addr2 frame) |> in
          send_assoc_req fuel (addr2 frame) c out
    end.

(** The PMK of an OWE association, from the AP's Diffie-Hellman element. *)
Definition owe_response_pmk (c : Client) (ies : bytes) : res (option bytes) :=
  match cl_owe_priv c, cl_owe_pub c with
  | Some private, Some own =>
      let! dh := parse_dh_param ies in
      match dh with
      | Some (group, ap_pub) => rmap (option_map fst) (owe_derive private ap_pub own ap_pub group)
      | None => Val None
      end
  | _, _ => Val None
  end.

(** The state after a successful association response. *)
Definition associated_state (now : Z) (ies : bytes) (c : Client) : res Client :=
  if cl_sae_enabled c && negb (is_some (cl_sae_pmk c)) then Val c
  else
    let! wmm := (if cl_wmm c then if is_some (cl_mld_mac c) then Val true else has_wmm ies else Val false) in
    Val (note_ap_activity now (set_connected_state now 2 (c <| cl_wmm_negotiated := wmm |>))).

Definition client_handle_assoc_resp (now : Z) (frame : Dot11) (c : Client) : res Client :=
  if negb (beq (addr1 frame) (cl_mac c)) || negb (is_from_selected_ap c frame) || (length (body frame) <? 6)%nat
  then Val c
  else
    let! st := slice (body frame) 2 4 in
    let! ies := slice_from (body frame) 6 in
    let status := le_val st in
    if negb (status =? STATUS_SUCCESS) then
      Val (if (status =? STATUS_INVALID_PMKID) && cl_pmksa_reconnect c
           then client_disconnect (set_cached_pmksa now None c) else c)
    else if cl_owe c then
      let! derived := owe_response_pmk c ies in
      match derived with
      | None => Val c
      | Some pmk => associated_state now ies (set_sae_pmk (Some pmk) c)
      end
    else associated_state now ies c.

Definition handle_eapol_frame (now : Z) (frame : Dot11) (c : Client) (out : ClientOut) :
    res (Client * ClientOut) :=
  if negb (from_ds frame) || negb (beq (addr1 frame) (cl_mac c)) || negb (is_from_selected_ap c frame)
  then Val (c, out)
  else
    let! eapol := eapol_frame frame in
    let! ek := (let? b := eapol_key_body frame in parse_eapol_key b) in
    match eapol, ek with
    | Some eapol, Some ek => handle_eapol_key now eapol ek false c out
    | _, _ => Val (c, out)
    end.

(** The security addresses of a downlink frame from a multi-link AP. *)
Definition downlink_sec_addrs (use_group : bool) (frame : Dot11) (c : Client) : option addrs :=
  match cl_mld_mac c, cl_ap_mld_mac c, cl_bssid c with
  | Some mld, Some ap_mld, Some bssid =>
      if use_group then None else Some (mld, ap_mld, if beq (addr3 frame) bssid then ap_mld else addr3 frame)
  | _, _, _ => None
  end.

Definition downlink_window (use_group : bool) (c : Client) : list Z :=
  if use_group then cl_last_rx_gpn c else cl_last_rx_pn c.

Definition downlink_seen (use_group : bool) (i : nat) (pn : Z) (c : Client) : Client :=
  if use_group then c <| cl_last_rx_gpn := <[i := pn]> (cl_last_rx_gpn c) |>
  else c <| cl_last_rx_pn := <[i := pn]> (cl_last_rx_pn c) |>.

Definition open_downlink (use_group : bool) (frame : Dot11) (c : Client) : res (option bytes) :=
  let sec := downlink_sec_addrs use_group frame c in
  if use_group then decrypt_protected_data_sec Ccmp128 frame (cl_gtk c) true sec
  else
    let! tk := slice (cl_pairwise_tk c) 0 (key_len (cl_pairwise_cipher c)) in
    decrypt_protected_data_sec (cl_pairwise_cipher c) frame tk true sec.

(** A decrypted frame: EAPOL stays with the supplicant, the rest goes to the
    network. *)
Definition deliver_downlink (now : Z) (use_group : bool) (eth : bytes) (c : Client) (out : ClientOut) :
    res (Client * ClientOut) :=
  if bool_decide (get_range eth 12 14 = Some (be_bytes 2 ETHERTYPE_EAPOL)) then
    if use_group then Val (c, out)
    else
      let! key := ethernet_eapol_key eth in
      match key with
      | Some (eapol, ek) => handle_eapol_key now eapol ek true c out
      | None => Val (c, out)
      end
  else Val (c, out <| co_to_network := co_to_network out ++ [eth] |>).

Definition handle_downlink (now : Z) (frame : Dot11) (c : Client) (out : ClientOut) :
    res (Client * ClientOut) :=
  if is_fragment frame || is_amsdu frame then Val (c, out)
  else
    let! key_id := ccmp_key_id frame in
    let group_ra := is_group_addr (addr1 frame) in
    if negb group_ra && negb (beq (addr1 frame) (cl_mac c)) then Val (c, out)
    else
      let use_group := (key_id =? cl_gtk_key_id c) && negb (key_id =? 0) in
      if use_group && negb group_ra then Val (c, out)
      else if negb use_group && (group_ra || negb (key_id =? 0)) then Val (c, out)
      else
        let! opn := ccmp_pn frame in
        match opn with
        | None => Val (c, out)
        | Some pn =>
            let i := replay_index frame in
            let! last := idx (downlink_window use_group c) i in
            if pn <=? last then Val (c, out)
            else
              let! decrypted := open_downlink use_group frame c in
              match decrypted with
              | None => Val (c, out)
              | Some eth =>
                  deliver_downlink now use_group eth (note_ap_activity now (downlink_seen use_group i pn c)) out
              end
        end.

Definition is_robust (frame : Dot11) : bool :=
  (subtype frame =? SUBTYPE_DEAUTH) || (subtype frame =? SUBTYPE_DISASSOC) || (subtype frame =? SUBTYPE_ACTION).

Definition client_dispatch (fuel : nat) (now : Z) (frame : Dot11) (c : Client) (out : ClientOut) :
    res (Client * ClientOut) :=
  let is_mgmt := frame_type frame =? TYPE_MGMT in
  let! beacon_matches :=
    if is_mgmt && (subtype frame =? SUBTYPE_BEACON) then beacon_matches c frame else Val false in
  if is_mgmt && (2 <=? cl_connected c) && is_robust frame then
    if negb (is_from_selected_ap c frame) then Val (c, out) else client_handle_robust_mgmt frame c out
  else if (cl_connected c =? 0) && beacon_matches then start_join fuel now frame c out
  else if (cl_connected c =? 1) && is_mgmt && (subtype frame =? SUBTYPE_AUTH) then
    handle_auth_frame fuel now frame c out
  else if (cl_connected c =? 1) && is_mgmt && (subtype frame =? SUBTYPE_ASSOC_RESP) then
    let! c := client_handle_assoc_resp now frame c in Val (c, out)
  else if (0 <? cl_connected c) && is_mgmt && (subtype frame =? SUBTYPE_BEACON)
          && bool_decide (cl_bssid c = Some (addr3 frame)) && beacon_matches then
    Val (note_ap_activity now c, out)
  else
    let! eapol := is_eapol frame in
    if (1 <? cl_connected c) && eapol then handle_eapol_frame now frame c out
    else if (3 <? cl_connected c) && (frame_type frame =? TYPE_DATA) && protected frame && from_ds frame then
      handle_downlink now frame c out
    else Val (c, out).

(** [ignore_bad_fcs] is the environment variable RUSTAP_CLIENT_IGNORE_BAD_FCS. *)
Definition client_handle_incoming (fuel : nat) (ignore_bad_fcs : bool) (now : Z) (radiotap_frame : bytes)
    (c : Client) : res (Client * ClientOut) :=
  let out := client_silent in
  let! bad_fcs := radiotap_bad_fcs radiotap_frame in
  let! stripped := strip_radiotap radiotap_frame in
  if bad_fcs && negb ignore_bad_fcs then Val (c, out)
  else
    match stripped with
    | None => Val (c, out)
    | Some b =>
        let! frame := parse b in
        match frame with
        | None => Val (c, out)
        | Some frame =>
            if beq (addr2 frame) (cl_mac c) then Val (c, out) else client_dispatch fuel now frame c out
        end
    end.

(** * The events of a station *)

Inductive client_event :=
| Heard (now : Z) (ignore_bad_fcs : bool) (radiotap_frame : bytes)
| Uplink (eth : bytes)
| Tick (now : Z).

Definition client_step (fuel : nat) (e : client_event) (c : Client) : res (Client * ClientOut) :=
  match e with
  | Heard now ignore f => client_handle_incoming fuel ignore now f c
  | Uplink eth =>
      let! '(f, c) := encrypt_uplink eth c in
      Val (c, match f with Some f => client_push f client_silent | None => client_silent end)
  | Tick now => Val ((client_maintenance now c).1, client_silent)
  end.

End Rx.
