(* ===== verification/ClientOk.v ===== *)
(** The well-formedness of a station's state and what its supplicant does to it:
    every handler of ClientKeys.v returns, keeps [client_ok] and changes what its
    equation says. *)
From S2P Require Import Prelude Elements Crypto Security Frames Channels DataProt Kde Rsn Advert Mlo Eapol Sae Failures Ap ApConfig ApEapol Demo ApData ApMgmt ApBeacon ApRates ApAdmit ApSae Client ClientKeys ClientRx.

(** * Well-formedness *)

Definition window_ok (w : list Z) : Prop := length w = 17%nat /\ Forall pn_ok w.

Record pending_ok (p : PendingPtk) : Prop := {
  po_anonce : arr 32 (pp_anonce p);
  po_snonce : arr 32 (pp_snonce p);
  po_replay : u64_ok (pp_replay p);
  po_kck : arr 16 (pp_kck p);
  po_kek : arr 16 (pp_kek p);
  po_tk : arr 16 (pp_tk p);
  po_pairwise_tk : arr 32 (pp_pairwise_tk p)
}.

(** The configuration of a station, which no event changes. *)
Record client_config_ok (c : Client) : Prop := {
  cc_mac : arr 6 (cl_mac c);
  cc_ssid : wf_bytes (cl_ssid c);
  cc_pmk : arr 32 (cl_pmk c);
  cc_password : wf_bytes (cl_password c);
  cc_test_snonce : opt_ok (arr 32) (cl_test_snonce c);
  cc_tid : opt_ok (fun t => 0 <= t < 8) (cl_wmm_tid_override c);
  cc_mld : opt_ok (arr 6) (cl_mld_mac c);
  cc_link1 : opt_ok (arr 6) (cl_link1_mac c);
  cc_ap_mld : opt_ok (arr 6) (cl_ap_mld_mac c)
}.

Record client_ok (c : Client) : Prop := {
  co_config : client_config_ok c;
  co_bssid : opt_ok (arr 6) (cl_bssid c);
  co_kck : arr 16 (cl_kck c);
  co_kek : arr 16 (cl_kek c);
  co_pairwise_tk : arr 32 (cl_pairwise_tk c);
  co_pending : opt_ok pending_ok (cl_pending_ptk c);
  co_gtk : arr 16 (cl_gtk c);
  co_client_pn : 1 <= cl_client_pn c <= MAX_PACKET_NUMBER + 1;
  co_rx_pn : window_ok (cl_last_rx_pn c);
  co_rx_gpn : window_ok (cl_last_rx_gpn c);
  co_rx_mgmt : pn_ok (cl_last_rx_mgmt_pn c);
  co_rx_igtk : pn_ok (cl_last_rx_igtk_ipn c);
  co_replay : u64_ok (cl_eapol_replay c);
  co_sae_pmk : opt_ok (arr 32) (cl_sae_pmk c);
  co_igtk : opt_ok (arr 16) (cl_igtk c);
  co_bigtk : opt_ok (arr 16) (cl_bigtk c);
  co_channel : is_byte (cl_channel c);
  co_connected : 0 <= cl_connected c <= 4;
  co_installed : cl_ptk_installed c = true <-> cl_connected c = 4;
  co_pause : cl_pause_m3 c = true -> cl_connected c <> 4
}.

(** Every update of fields that [client_ok] does not mention, or for which the
    context has what it says of them: a fact about an unchanged field is the
    fact about the field of the updated record. *)
Ltac keep_fact L := first [exact L|assumption|fields; assumption|fields; try done].
Ltac keep_config K :=
  constructor;
  [keep_fact (cc_mac _ K)|keep_fact (cc_ssid _ K)|keep_fact (cc_pmk _ K)|keep_fact (cc_password _ K)
  |keep_fact (cc_test_snonce _ K)|keep_fact (cc_tid _ K)|keep_fact (cc_mld _ K)|keep_fact (cc_link1 _ K)
  |keep_fact (cc_ap_mld _ K)].
Ltac keep_client_ok H :=
  let K := fresh in pose proof (co_config _ H) as K; constructor;
  [keep_config K|keep_fact (co_bssid _ H)|keep_fact (co_kck _ H)|keep_fact (co_kek _ H)
  |keep_fact (co_pairwise_tk _ H)|keep_fact (co_pending _ H)|keep_fact (co_gtk _ H)|keep_fact (co_client_pn _ H)
  |keep_fact (co_rx_pn _ H)|keep_fact (co_rx_gpn _ H)|keep_fact (co_rx_mgmt _ H)|keep_fact (co_rx_igtk _ H)
  |keep_fact (co_replay _ H)|keep_fact (co_sae_pmk _ H)|keep_fact (co_igtk _ H)|keep_fact (co_bigtk _ H)
  |keep_fact (co_channel _ H)|keep_fact (co_connected _ H)|keep_fact (co_installed _ H)|keep_fact (co_pause _ H)].

Lemma arr_zeros n : arr n (replicate n 0).
Proof. split; [apply length_replicate|]. apply wf_bytes_replicate. unfold is_byte. lia. Qed.

Lemma window_fresh rsc : pn_ok rsc -> window_ok (replicate 17 rsc).
Proof. intros H. split; [done|]. by apply Forall_replicate. Qed.

Lemma pn_ok_0 : pn_ok 0.
Proof. unfold pn_ok, MAX_PACKET_NUMBER. lia. Qed.
#[local] Hint Resolve arr_zeros window_fresh pn_ok_0 : core.

Lemma packet_number_ok b : arr 6 b -> pn_ok (packet_number b).
Proof.
  intros [Hl Hw]. unfold packet_number. change [0; 0] with (replicate 2 0). rewrite le_val_app_zero.
  pose proof (le_val_bound b Hw) as H. rewrite Hl in H. unfold pn_ok, MAX_PACKET_NUMBER.
  change (256 ^ Z.of_nat 6) with (2 ^ 48) in H. lia.
Qed.

(** * Sessions *)

Lemma client_new_ok `{Pok : PrimitivesOk} now ssid psk mac :
  arr 6 mac -> wf_bytes ssid -> wf_bytes psk -> client_ok (client_new now ssid psk mac).
Proof.
  intros Hm Hs Hp. unfold client_new.
  constructor; cbn -[replicate]; auto; try (unfold u64_ok, is_byte, MAX_PACKET_NUMBER; lia); try done.
  constructor; cbn -[replicate]; try done. by apply pbkdf2_hmac_sha1_arr.
Qed.

(** What is left of a session once its keys are gone. *)
Lemma reset_ok c : client_ok c -> cl_connected c <> 4 -> client_ok (reset_session_keys c).
Proof.
  intros H Hc. pose proof (co_installed c H). unfold reset_session_keys.
  pose proof (arr_zeros 16). pose proof (arr_zeros 32). pose proof (window_fresh 0 pn_ok_0). pose proof pn_ok_0.
  assert (forall A (Q : A -> Prop), opt_ok Q None) as Hnone by done.
  pose proof (Hnone _ (arr 16)). pose proof (Hnone _ (arr 32)). pose proof (Hnone _ (arr 6)). pose proof (Hnone _ pending_ok).
  assert (1 <= 1 <= MAX_PACKET_NUMBER + 1) by (unfold MAX_PACKET_NUMBER; lia).
  assert (u64_ok 0) by (unfold u64_ok; lia).
  assert (false = true <-> cl_connected c = 4) by (split; [done|tauto]).
  keep_client_ok H.
Qed.

Lemma client_disconnect_ok c : client_ok c -> client_ok (client_disconnect c).
Proof.
  intros H. unfold client_disconnect, set_sae_pmk, reset_session_keys.
  pose proof (arr_zeros 16). pose proof (arr_zeros 32). pose proof (window_fresh 0 pn_ok_0). pose proof pn_ok_0.
  assert (forall A (Q : A -> Prop), opt_ok Q None) as Hnone by done.
  pose proof (Hnone _ (arr 16)). pose proof (Hnone _ (arr 32)). pose proof (Hnone _ (arr 6)). pose proof (Hnone _ pending_ok).
  assert (1 <= 1 <= MAX_PACKET_NUMBER + 1) by (unfold MAX_PACKET_NUMBER; lia).
  assert (u64_ok 0) by (unfold u64_ok; lia). assert (0 <= 0 <= 4) by lia.
  assert (false = true <-> 0 = 4) by done. assert (cl_pause_m3 c = true -> 0 <> 4) by done.
  keep_client_ok H.
Qed.

Lemma next_sc_client c : client_ok c ->
  client_ok (client_next_sc c).2 /\ 0 <= (client_next_sc c).1 < 2 ^ 16.
Proof.
  intros H. unfold client_next_sc. cbn [fst snd]. split; [keep_client_ok H|]. unfold u16. apply Z.mod_pos_bound. lia.
Qed.

Lemma expire_ok now c : client_ok c -> client_ok (expire_cached_pmksa now c).
Proof. intros H. unfold expire_cached_pmksa, set_cached_pmksa. repeat case_match; try done. keep_client_ok H. Qed.

(** * The protected uplink *)

(** The station after it has taken packet and sequence numbers. *)
Definition counted (c : Client) (pn sc : Z) : Client := c <| cl_client_pn := pn |> <| cl_sc := sc |>.

Lemma counted_same c : counted c (cl_client_pn c) (cl_sc c) = c.
Proof. by destruct c. Qed.

Lemma counted_ok c pn sc : client_ok c -> 1 <= pn <= MAX_PACKET_NUMBER + 1 -> client_ok (counted c pn sc).
Proof. intros H Hpn. unfold counted. keep_client_ok H. Qed.

Section Uplink.
Context {E0 : Entropy} {E0ok : EntropyOk E0} {P : Primitives} {Pok : PrimitivesOk P}.

Lemma client_tk_ok c : client_ok c ->
  slice (cl_pairwise_tk c) 0 (key_len (cl_pairwise_cipher c))
    = Val (take (key_len (cl_pairwise_cipher c)) (cl_pairwise_tk c)) /\
  arr (key_len (cl_pairwise_cipher c)) (take (key_len (cl_pairwise_cipher c)) (cl_pairwise_tk c)).
Proof.
  intros H. destruct (co_pairwise_tk c H) as [Hl Hw].
  assert (key_len (cl_pairwise_cipher c) <= 32)%nat by (destruct (cl_pairwise_cipher c); cbn; lia).
  rewrite slice_prefix by lia. split; [done|]. split; [rewrite length_take; lia|auto with bytes].
Qed.

Lemma uplink_tid_ok c eth : client_ok c -> wf_bytes eth ->
  exists t, (if cl_wmm_negotiated c then
     match cl_wmm_tid_override c with Some t => Val (Some t) | None => rmap Some (wmm_tid eth) end
     else Val None) = Val t /\ tid_ok t.
Proof.
  intros H Hw. destruct (cl_wmm_negotiated c); [|by exists None].
  pose proof (cc_tid c (co_config c H)) as Ht. destruct (cl_wmm_tid_override c) as [t|].
  - exists (Some t). split; [done|]. cbn in *. lia.
  - destruct (wmm_tid_total eth Hw) as (t & -> & Hr). exists (Some t). split; [done|]. cbn. lia.
Qed.

(** A packet is sent under the next packet number, or not at all. *)
Lemma encrypt_uplink_ok eth c :
  client_ok c -> wf_bytes eth -> Z.of_nat (length eth) < 2 ^ 16 ->
  exists o pn sc, encrypt_uplink eth c = Val (o, counted c pn sc) /\
    cl_client_pn c <= pn <= MAX_PACKET_NUMBER + 1 /\
    match o with
    | Some _ => pn = cl_client_pn c + 1 /\ cl_connected c = 4
    | None => pn = cl_client_pn c
    end.
Proof.
  intros H Hw Hlen. pose proof (co_client_pn c H) as Hpn. pose proof (co_connected c H) as Hcn.
  assert (Hnone : exists (o : option bytes) pn sc, Val (None, c) = Val (o, counted c pn sc) /\
    cl_client_pn c <= pn <= MAX_PACKET_NUMBER + 1 /\
    match o with Some _ => pn = cl_client_pn c + 1 /\ cl_connected c = 4 | None => pn = cl_client_pn c end).
  { exists None, (cl_client_pn c), (cl_sc c). rewrite counted_same. split; [done|]. split; [lia|done]. }
  unfold encrypt_uplink. pose proof (co_bssid c H) as Hb. destruct (cl_bssid c) as [bssid|]; [|done].
  destruct (Z.ltb_spec (cl_connected c) 4); [done|]. cbn [orb].
  destruct (Nat.ltb_spec (length eth) 14); [done|]. rust_steps.
  unfold client_next_pn. destruct (Z.ltb_spec MAX_PACKET_NUMBER (cl_client_pn c)); [done|].
  set (sc' := (cl_sc c + 1) mod 4096).
  change (client_next_sc (c <| cl_client_pn := cl_client_pn c + 1 |>))
    with (u16 (sc' * 16), counted c (cl_client_pn c + 1) sc').
  assert (Hok1 : client_ok (counted c (cl_client_pn c + 1) sc')) by (apply counted_ok; [done|lia]).
  destruct (client_tk_ok _ Hok1) as [E Htk]. rewrite E. cbn [rbind]. clear E.
  destruct (uplink_tid_ok _ eth Hok1 Hw) as (tid & E & Htid). rewrite E. cbn [rbind]. clear E.
  revert Htk. unfold counted. fields. intros Htk.
  pose proof (co_config c H) as Hc.
  destruct (match cl_mld_mac c with Some _ => _ | None => _ end) as [[s1 s2] s3] eqn:Es.
  assert (Hd : arr 6 (sub eth 0 6)) by (apply arr_sub; [done|lia|done]).
  assert (Hs : arr 6 s1 /\ arr 6 s2 /\ arr 6 s3).
  { pose proof (cc_mld c Hc). pose proof (cc_ap_mld c Hc). pose proof (cc_mac c Hc).
    destruct (cl_mld_mac c), (cl_ap_mld_mac c); injection Es as <- <- <-; cbn in *; repeat case_match; done. }
  destruct Hs as (Hs1 & Hs2 & Hs3).
  destruct (protected_data_roundtrip (cl_pairwise_cipher c) bssid (cl_mac c) (sub eth 0 6) s1 s2 s3
    (Some (s1, s2, s3)) (Z.lor FC_TODS FC_PROTECTED) (u16 (sc' * 16)) (cl_client_pn c) 0
    (take (key_len (cl_pairwise_cipher c)) (cl_pairwise_tk c)) (be_val (sub eth 12 14)) (drop 14 eth) tid)
    as (f & d & E & _); try done; auto with bytes.
  { apply Hc. }
  { unfold u16. apply Z.mod_pos_bound. lia. }
  { rewrite length_drop. lia. }
  rewrite E. cbn [rbind]. eexists _, _, _. split; [reflexivity|]. split; [lia|]. split; lia.
Qed.

Lemma eapol_rx_length frame d ek fr : eapol_rx frame d ek fr -> length fr = (99 + length (ek_key_data ek))%nat.
Proof.
  intros (_ & Hw & Hf & b & Hb & Hek).
  destruct (eapol_frame_total d Hw) as (o & E & Ho). rewrite Hf in E. injection E as <-.
  destruct (Ho fr eq_refl) as (_ & _ & Hfw & H4 & _).
  destruct (eapol_key_body_total d Hw) as (o & E & Hbs). rewrite Hb in E. injection E as <-.
  destruct (Hbs b eq_refl) as (Hbw & _ & _ & f & Ef & _ & Eb). rewrite Hf in Ef. injection Ef as <-.
  destruct (parse_eapol_key_total b Hbw) as (o & E & He). rewrite Hek in E. injection E as <-.
  destruct (He ek eq_refl) as (_ & _ & Hl & _). subst b. rewrite length_drop in Hl. lia.
Qed.

(** A frame one of the builders made is what [tx_eapol] wraps. *)
Lemma tx_eapol_ok frame protected_transport c out d ek fr :
  client_ok c -> eapol_rx frame d ek fr -> Z.of_nat (length fr) < 2 ^ 15 ->
  exists pn sc out', tx_eapol frame protected_transport c out = Val (counted c pn sc, out') /\
    cl_client_pn c <= pn <= MAX_PACKET_NUMBER + 1 /\ co_to_network out' = co_to_network out /\
    (protected_transport = false -> pn = cl_client_pn c /\ sc = cl_sc c /\ out' = client_tx frame out).
Proof.
  intros H (Hp & Hw & Hf & _) Hlen. pose proof (co_client_pn c H). unfold tx_eapol.
  assert (Hsame : exists pn sc out', Val (c, out) = Val (counted c pn sc, out') /\
    cl_client_pn c <= pn <= MAX_PACKET_NUMBER + 1 /\ co_to_network out' = co_to_network out).
  { exists (cl_client_pn c), (cl_sc c), out. rewrite counted_same. split; [done|]. split; [lia|done]. }
  destruct protected_transport; cbn [negb].
  2: { exists (cl_client_pn c), (cl_sc c). eexists. rewrite counted_same. split; [done|]. split; [lia|done]. }
  pose proof (co_bssid c H) as Hb. destruct (cl_bssid c) as [bssid|].
  2: { destruct Hsame as (pn & sc & out' & E & ? & ?). by exists pn, sc, out'. }
  rewrite Hp. cbn [obind rbind]. rewrite Hf. cbn [rbind].
  destruct (eapol_frame_total d Hw) as (o & E & Ho). rewrite Hf in E. injection E as <-.
  destruct (Ho fr eq_refl) as (_ & _ & Hfw & _).
  pose proof (cc_mac c (co_config c H)) as Hm. cbn in Hb.
  destruct (encrypt_uplink_ok (bssid ++ cl_mac c ++ be_bytes 2 ETHERTYPE_EAPOL ++ fr) c H) as (o & pn & sc & E & Hpn & _).
  { destruct Hb, Hm. auto 10 with bytes. }
  { destruct Hb, Hm. rewrite !length_app, length_be_bytes. lia. }
  rewrite E. cbn [rbind]. exists pn, sc. eexists. split; [done|]. split; [done|]. split; [by destruct o|done].
Qed.

(** * Message 1 *)

(** The identities and the PMK a station derives its PTK from. *)
Definition client_pmk (c : Client) : bytes := default (cl_pmk c) (cl_sae_pmk c).
Definition client_spa (c : Client) : bytes := default (cl_mac c) (cl_mld_mac c).
Definition client_aa (c : Client) (bssid : bytes) : bytes := default bssid (cl_ap_mld_mac c).

Lemma opt_default {A} (Q : A -> Prop) a o : Q a -> opt_ok Q o -> Q (default a o).
Proof. by destruct o. Qed.

(** The candidate holds the keys the authenticator derives. *)
Lemma derive_pending_ok c bssid an sn r :
  client_ok c -> arr 6 bssid -> arr 32 an -> arr 32 sn -> u64_ok r ->
  exists p k, derive_pending c bssid an sn r = Val p /\ pending_ok p /\
    derive_ptk (client_sha256 c) (key_len (cl_pairwise_cipher c)) (client_pmk c) (client_aa c bssid)
      (client_spa c) an sn = Val k /\
    pp_anonce p = an /\ pp_snonce p = sn /\ pp_replay p = r /\ pp_kck p = ptk_kck k /\
    pp_kek p = ptk_kek k /\ pp_pairwise_tk p = ptk_tk k.
Proof.
  intros Hok Hb Han Hsn Hr. pose proof (co_config c Hok) as Hc.
  assert (Hp : arr 32 (client_pmk c)) by (unfold client_pmk; apply opt_default; [apply Hc|apply Hok]).
  assert (Haa : arr 6 (client_aa c bssid)) by (unfold client_aa; apply opt_default; [done|apply Hc]).
  assert (Hspa : arr 6 (client_spa c)) by (unfold client_spa; apply opt_default; apply Hc).
  destruct Hp as [_ Hp], Haa as [_ Haa], Hspa as [_ Hspa]. destruct (Han) as [_ Hanw], (Hsn) as [_ Hsnw].
  set (n := key_len (cl_pairwise_cipher c)).
  assert (Hn : n = 16%nat \/ n = 32%nat) by (unfold n; destruct (cl_pairwise_cipher c); auto).
  assert (exists ptk m, (if client_sha256 c then derive_ptk_sha256_len (client_pmk c) (client_aa c bssid) (client_spa c) an sn (32 + n)
             else custom_prf512 (client_pmk c) (client_aa c bssid) (client_spa c) an sn) = Val ptk /\
             arr m ptk /\ (32 + n <= m)%nat) as (ptk & m & E & [Hl Hw] & Hm).
  { destruct (client_sha256 c).
    - destruct (derive_ptk_sha256_ok (client_pmk c) (client_aa c bssid) (client_spa c) an sn (32 + n)) as (k & E & Hk);
        try done; [lia|]. by exists k, (32 + n)%nat.
    - destruct (custom_prf512_ok (client_pmk c) (client_aa c bssid) (client_spa c) an sn) as (k & E & Hk); try done.
      exists k, 64%nat. split; [done|]. split; [done|lia]. }
  unfold derive_pending, derive_ptk. fold (client_pmk c) (client_aa c bssid) (client_spa c). fold n.
  rewrite E. cbn [rbind]. rust_steps. do 2 eexists. split; [reflexivity|]. split; [|done].
  constructor; cbn [pp_anonce pp_snonce pp_replay pp_kck pp_kek pp_tk pp_pairwise_tk]; try done; try (apply arr_sub; [done|lia|done]).
  assert (length (sub ptk 32 (32 + n)) = n) by (rewrite length_sub; lia).
  split; [rewrite length_app, length_replicate; lia|]. apply wf_bytes_app; [auto with bytes|apply arr_zeros].
Qed.

Lemma message_2_rsn_ok c : client_ok c ->
  wf_bytes (message_2_rsn c) /\ Z.of_nat (length (message_2_rsn c)) < 2 ^ 14.
Proof.
  intros Hok. pose proof (co_config c Hok) as Hc. pose proof (cc_mld c Hc) as H1. pose proof (cc_link1 c Hc) as H2.
  unfold message_2_rsn, supplicant_rsn. destruct (cl_mld_mac c) as [mld|]; cbn [is_some].
  - cbn in H1. destruct H1 as [Hl1 Hw1].
    assert (Hx : forall l, wf_bytes l -> (length l <= 20)%nat ->
      wf_bytes ((AMLD_RSN_SAE ++ RSNXE_H2E) ++ [221; 10; 0; 15; 172; 3] ++ mld ++ l) /\
      Z.of_nat (length ((AMLD_RSN_SAE ++ RSNXE_H2E) ++ [221; 10; 0; 15; 172; 3] ++ mld ++ l)) < 2 ^ 14).
    { intros l Hl Hll. split.
      - repeat apply wf_bytes_app; try done; by apply (bool_decide_unpack _).
      - rewrite !length_app. cbn [length AMLD_RSN_SAE RSNXE_H2E]. lia. }
    destruct (cl_link1_mac c) as [l1|]; [|by apply Hx; [constructor|cbn; lia]].
    destruct H2 as [Hl2 Hw2]. apply Hx; [|rewrite length_app; cbn [length]; lia].
    apply wf_bytes_app; [by apply (bool_decide_unpack _)|done].
  - repeat case_match; destruct (cl_pairwise_cipher c); (split; [by apply (bool_decide_unpack _)|by vm_compute]).
Qed.

Lemma client_oci_ok c : client_ok c ->
  match client_oci c with Some (oc, ch) => is_byte oc /\ is_byte ch | None => True end.
Proof.
  intros Hok. unfold client_oci. destruct (cl_ocv c); [|done]. split; [apply operating_class_byte|apply Hok].
Qed.

(** The state after message 2: a candidate, and no other key. *)
Definition m2_sent (p : PendingPtk) (draws : N) (pn sc : Z) (c : Client) : Client :=
  (counted (c <| cl_draws := draws |> <| cl_pending_ptk := Some p |>) pn sc) <| cl_eapol_state := 1 |>.

Lemma m2_sent_ok p draws pn sc c : client_ok c -> pending_ok p -> 1 <= pn <= MAX_PACKET_NUMBER + 1 ->
  client_ok (m2_sent p draws pn sc c).
Proof.
  intros Hok Hp Hpn. unfold m2_sent, counted. assert (opt_ok pending_ok (Some p)) by done. keep_client_ok Hok.
Qed.

Lemma send_eapol2_ok ek protected_transport c out :
  client_ok c -> eapol_key_ok ek ->
  (cl_bssid c = None /\ send_eapol2 ek protected_transport c out = Val (c, out)) \/
  exists bssid p draws pn sc out', cl_bssid c = Some bssid /\
    send_eapol2 ek protected_transport c out = Val (m2_sent p draws pn sc c, out') /\
    pending_ok p /\ cl_client_pn c <= pn <= MAX_PACKET_NUMBER + 1 /\ co_to_network out' = co_to_network out /\
    pp_snonce p = (draw_snonce c).1 /\ derive_pending c bssid (ek_nonce ek) (pp_snonce p) (ek_replay_counter ek) = Val p /\
    (protected_transport = false -> pn = cl_client_pn c /\ exists f, out' = client_tx f out /\
      build_eapol_m2 bssid (cl_mac c) (pp_snonce p) (pp_kck p) (message_2_rsn c) (ek_replay_counter ek)
        (u16 (sc * 16)) (client_key_mic c) (client_oci c) = Val f).
Proof.
  intros Hok (_ & _ & Hrc & Hn & _). unfold send_eapol2. pose proof (co_bssid c Hok) as Hb.
  destruct (cl_bssid c) as [bssid|] eqn:Eb; [right|by left].
  destruct (draw_snonce c) as [sn c1] eqn:Ed.
  assert (Hd : arr 32 sn /\ exists d, c1 = c <| cl_draws := d |>).
  { unfold draw_snonce in Ed. pose proof (cc_test_snonce c (co_config c Hok)) as Ht.
    destruct (cl_test_snonce c) as [t|]; injection Ed as <- <-.
    - split; [done|]. exists (cl_draws c). by destruct c.
    - split; [apply os_random_arr|]. by eexists. }
  destruct Hd as (Hsn & draws & ->). cbn [fst].
  assert (Hok1 : client_ok (c <| cl_draws := draws |>)) by keep_client_ok Hok.
  destruct (derive_pending_ok _ bssid (ek_nonce ek) sn (ek_replay_counter ek) Hok1 Hb Hn Hsn Hrc)
    as (p & k & Ep & Hp & _ & E1 & E2 & E3 & _).
  rewrite Ep. cbn [rbind]. set (q := (cl_sc c + 1) mod 4096).
  change (client_next_sc (c <| cl_draws := draws |>)) with (u16 (q * 16), c <| cl_draws := draws |> <| cl_sc := q |>).
  cbv beta iota zeta. set (c2 := c <| cl_draws := draws |> <| cl_sc := q |> <| cl_pending_ptk := Some p |>).
  assert (Hok2 : client_ok c2) by (assert (opt_ok pending_ok (Some p)) by done; unfold c2; keep_client_ok Hok).
  destruct (message_2_rsn_ok c2 Hok2) as [Hrw Hrl].
  destruct (eapol_m2_rx bssid (cl_mac c2) sn (pp_kck p) (message_2_rsn c2) (pp_replay p) (u16 (q * 16))
    (client_key_mic c2) (client_oci c2)) as (f & d & fr & m & kd & Ef & Ekd & Hrx & _); try done.
  { apply (co_config _ Hok2). } { apply Hp. } { lia. } { rewrite E3. apply Hrc. }
  { unfold u16. apply Z.mod_pos_bound. lia. } { by apply client_oci_ok. }
  rewrite Ef. cbn [rbind].
  destruct (tx_eapol_ok f protected_transport c2 out d _ fr Hok2 Hrx) as (pn & sc & out' & Et & Hpn & Hnet & Hun).
  { rewrite (eapol_rx_length _ _ _ _ Hrx). cbn [ek_key_data built_key]. rewrite Ekd, length_app.
    assert (length (match client_oci c2 with Some (oc, ch) => oci_kde oc ch | None => [] end) <= 9)%nat
      by (destruct (client_oci c2) as [[? ?]|]; cbn; lia). lia. }
  rewrite Et. cbn [rbind].
  exists bssid, p, draws, pn, sc, out'.
  split; [done|]. split; [done|]. split; [done|]. split; [exact Hpn|]. split; [done|]. split; [done|].
  split; [by rewrite E2|]. intros Hf. destruct (Hun Hf) as (-> & -> & ->). split; [done|].
  exists f. split; [done|]. rewrite E2. rewrite <- E3. exact Ef.
Qed.

(** Message 2 leaves the SNonce override alone. *)
Lemma m2_sent_restore p draws pn sc t c :
  (m2_sent p draws pn sc (c <| cl_test_snonce := t |>)) <| cl_test_snonce := cl_test_snonce c |> = m2_sent p draws pn sc c.
Proof. destruct c. vm_compute. reflexivity. Qed.

(** The answer to a repeated message 1 keeps the SNonce. *)
Lemma send_eapol2_retry_ok ek protected_transport c out q :
  client_ok c -> eapol_key_ok ek -> cl_pending_ptk c = Some q ->
  (cl_bssid c = None /\ send_eapol2_retry ek protected_transport c out = Val (c, out)) \/
  exists bssid p draws pn sc out', cl_bssid c = Some bssid /\
    send_eapol2_retry ek protected_transport c out = Val (m2_sent p draws pn sc c, out') /\
    pending_ok p /\ cl_client_pn c <= pn <= MAX_PACKET_NUMBER + 1 /\ co_to_network out' = co_to_network out /\
    pp_snonce p = pp_snonce q /\ pp_anonce p = ek_nonce ek.
Proof.
  intros Hok Hek Hq. unfold send_eapol2_retry. rewrite Hq. cbn [option_map].
  pose proof (co_pending c Hok) as Hp. rewrite Hq in Hp. cbn in Hp.
  set (c0 := c <| cl_test_snonce := Some (pp_snonce q) |>).
  assert (Hok0 : client_ok c0).
  { assert (opt_ok (arr 32) (Some (pp_snonce q))) by apply Hp. unfold c0. keep_client_ok Hok. }
  destruct (send_eapol2_ok ek protected_transport c0 out Hok0 Hek)
    as [(Eb & E)|(b & p & draws & pn & sc & out' & Eb & E & Hpo & Hpn & Hnet & Hsn & Hd & _)];
    rewrite E; cbn [rbind].
  - left. split; [exact Eb|]. unfold c0. by destruct c.
  - right. exists b, p, draws, pn, sc, out'. split; [exact Eb|].
    split; [unfold c0; rewrite (m2_sent_restore p draws pn sc (Some (pp_snonce q)) c); reflexivity|]. split; [done|]. split; [exact Hpn|]. split; [done|].
    split; [exact Hsn|]. pose proof (co_bssid c Hok) as Hb. rewrite (Eb : cl_bssid c = Some b) in Hb.
    destruct Hek as (_ & _ & Hrc & Hn & _).
    destruct (derive_pending_ok c0 b (ek_nonce ek) (pp_snonce p) (ek_replay_counter ek) Hok0 Hb Hn (po_snonce _ Hpo) Hrc)
      as (p' & k & Ep & _ & _ & E1 & _). rewrite Hd in Ep. injection Ep as <-. exact E1.
Qed.

(** * Group keys *)

(** The fields a delivery of group keys may change. *)
Definition with_group (gtk : bytes) (set : bool) (id : Z) (gpn : list Z) (igtk : option bytes) (igtk_id : option Z)
    (ipn : Z) (bigtk : option bytes) (c : Client) : Client :=
  c <| cl_gtk := gtk |> <| cl_gtk_set := set |> <| cl_gtk_key_id := id |> <| cl_last_rx_gpn := gpn |>
    <| cl_igtk := igtk |> <| cl_igtk_key_id := igtk_id |> <| cl_last_rx_igtk_ipn := ipn |> <| cl_bigtk := bigtk |>.

(** A group key that is delivered again keeps its replay window. *)
Record group_moved (c c' : Client) : Prop := {
  gm_fields : exists g s i w ik ii ip b, c' = with_group g s i w ik ii ip b c;
  gm_ok : client_ok c';
  gm_gtk : cl_gtk_set c = true -> cl_gtk c' = cl_gtk c -> cl_last_rx_gpn c' = cl_last_rx_gpn c;
  gm_igtk : cl_igtk c <> None -> cl_igtk c' = cl_igtk c -> cl_last_rx_igtk_ipn c' = cl_last_rx_igtk_ipn c
}.

Lemma with_group_same c : with_group (cl_gtk c) (cl_gtk_set c) (cl_gtk_key_id c) (cl_last_rx_gpn c) (cl_igtk c)
  (cl_igtk_key_id c) (cl_last_rx_igtk_ipn c) (cl_bigtk c) c = c.
Proof. destruct c. vm_compute. reflexivity. Qed.

Lemma with_group_gtk g k w c :
  c <| cl_gtk := g |> <| cl_gtk_set := true |> <| cl_gtk_key_id := k |> <| cl_last_rx_gpn := w |>
  = with_group g true k w (cl_igtk c) (cl_igtk_key_id c) (cl_last_rx_igtk_ipn c) (cl_bigtk c) c.
Proof. destruct c. vm_compute. reflexivity. Qed.

Lemma with_group_igtk g s k w ik ii ip b x y z c :
  (with_group g s k w ik ii ip b c) <| cl_igtk := x |> <| cl_igtk_key_id := y |> <| cl_last_rx_igtk_ipn := z |>
  = with_group g s k w x y z b c.
Proof. vm_compute. reflexivity. Qed.

Lemma with_group_bigtk g s k w ik ii ip b x c :
  (with_group g s k w ik ii ip b c) <| cl_bigtk := x |> = with_group g s k w ik ii ip x c.
Proof. vm_compute. reflexivity. Qed.

Lemma with_group_ok g s i w ik ii ip b c : client_ok c -> arr 16 g -> window_ok w -> opt_ok (arr 16) ik -> pn_ok ip ->
  opt_ok (arr 16) b -> client_ok (with_group g s i w ik ii ip b c).
Proof. intros Hok ? ? ? ? ?. unfold with_group. keep_client_ok Hok. Qed.

(** The three installations are one update. *)
Lemma install_keys_moved k rsc g ik b c : client_ok c -> arr 16 g -> pn_ok rsc ->
  opt_ok (fun '(_, ipn, key) => arr 6 ipn /\ arr 16 key) ik -> opt_ok (arr 16) b ->
  group_moved c (install_bigtk b (install_igtk ik (install_gtk k rsc g c))).
Proof.
  intros Hok Hg Hr Hi Hb.
  set (same := cl_gtk_set c && beq (cl_gtk c) g).
  set (g' := if same then cl_gtk c else g). set (s' := if same then cl_gtk_set c else true).
  set (k' := if same then cl_gtk_key_id c else k). set (w' := if same then cl_last_rx_gpn c else replicate 17 rsc).
  set (isame := match ik with Some (_, _, key) => bool_decide (cl_igtk c = Some key) | None => true end).
  set (ik' := if isame then cl_igtk c else match ik with Some (_, _, key) => Some key | None => None end).
  set (ii' := if isame then cl_igtk_key_id c else match ik with Some (id, _, _) => Some id | None => None end).
  set (ip' := if isame then cl_last_rx_igtk_ipn c else match ik with Some (_, ipn, _) => packet_number ipn | None => 0 end).
  set (b' := match b with Some key => Some key | None => cl_bigtk c end).
  assert (E : install_bigtk b (install_igtk ik (install_gtk k rsc g c)) = with_group g' s' k' w' ik' ii' ip' b' c).
  { transitivity (install_bigtk b (install_igtk ik (with_group g' s' k' w' (cl_igtk c) (cl_igtk_key_id c)
      (cl_last_rx_igtk_ipn c) (cl_bigtk c) c))).
    { f_equal. f_equal. unfold install_gtk. fold same. unfold g', s', k', w'. destruct same;
        [rewrite with_group_same; reflexivity|apply with_group_gtk]. }
    transitivity (install_bigtk b (with_group g' s' k' w' ik' ii' ip' (cl_bigtk c) c)).
    { f_equal. unfold install_igtk, ik', ii', ip', isame. destruct ik as [[[id ipn] key]|]; [|done].
      change (cl_igtk (with_group g' s' k' w' (cl_igtk c) (cl_igtk_key_id c) (cl_last_rx_igtk_ipn c) (cl_bigtk c) c))
        with (cl_igtk c). destruct (bool_decide _); [reflexivity|apply with_group_igtk]. }
    unfold install_bigtk, b'. destruct b as [key|]; [|done].
    change (cl_bigtk (with_group g' s' k' w' ik' ii' ip' (cl_bigtk c) c)) with (cl_bigtk c).
    case_bool_decide as Eb; [rewrite <- Eb; reflexivity|apply with_group_bigtk]. }
  rewrite E. constructor.
  - by repeat eexists.
  - apply with_group_ok; [done|..].
    + unfold g'. destruct same; [apply Hok|done].
    + unfold w'. destruct same; [apply Hok|by apply window_fresh].
    + unfold ik'. destruct isame; [apply Hok|]. destruct ik as [[[? ?] ?]|]; [apply Hi|done].
    + unfold ip'. destruct isame; [apply Hok|]. destruct ik as [[[? ?] ?]|]; [apply packet_number_ok, Hi|apply pn_ok_0].
    + unfold b'. destruct b; [done|apply Hok].
  - change (cl_gtk (with_group g' s' k' w' ik' ii' ip' b' c)) with g'.
    change (cl_last_rx_gpn (with_group g' s' k' w' ik' ii' ip' b' c)) with w'.
    intros Hs Hgg. unfold w', g' in *. destruct same eqn:Es; [done|]. exfalso. unfold same in Es.
    rewrite Hs, <- Hgg, beq_refl in Es. done.
  - change (cl_igtk (with_group g' s' k' w' ik' ii' ip' b' c)) with ik'.
    change (cl_last_rx_igtk_ipn (with_group g' s' k' w' ik' ii' ip' b' c)) with ip'.
    intros Hs Hii. unfold ip', ik' in *. destruct isame eqn:Es; [done|]. exfalso. unfold isame in Es.
    destruct ik as [[[? ?] key]|]; [|done]. by rewrite <- Hii, bool_decide_eq_true_2 in Es.
Qed.

End Uplink.
