(* ===== verification/ClientSafe.v ===== *)
(** Key reinstallation and authenticity on the station side: what a received
    EAPOL-Key message can do to a session. *)
From S2P Require Import Prelude Elements Crypto Security Frames Channels DataProt Kde Rsn Advert Mlo Eapol Sae Failures Ap ApConfig ApEapol Demo ApData ApMgmt ApBeacon ApRates ApAdmit ApSae Client ClientKeys ClientRx ClientOk.

(** * The state a message may touch *)

(** What no EAPOL message changes: the configuration and the association. *)
Definition association_of (c : Client) :=
  (cl_mac c, cl_ssid c, cl_pmk c, cl_bssid c, cl_target_bssid c, cl_pairwise_cipher c, cl_test_snonce c,
   cl_password c, (cl_sae_enabled c, cl_sae_h2e c, cl_sae c, cl_sae_pmk c),
   (cl_cached_pmksa c, cl_cached_pmksa_at c, cl_pmksa_reconnect c, cl_ocv c, cl_channel c),
   (cl_owe c, cl_owe_priv c, cl_owe_pub c, cl_wmm c, cl_ap_wmm c, cl_wmm_negotiated c, cl_wmm_tid_override c),
   (cl_mld_mac c, cl_link1_mac c, cl_ap_mld_mac c, cl_psk_sha256 c, cl_pause_m3 c)).

(** The installed keys, their replay state and the state of the link. *)
Definition session_of (c : Client) :=
  (cl_connected c, cl_ptk_installed c, cl_eapol_replay c,
   (cl_anonce c, cl_snonce c, cl_kck c, cl_kek c, cl_tk c, cl_pairwise_tk c),
   (cl_gtk c, cl_gtk_set c, cl_gtk_key_id c, cl_igtk c, cl_igtk_key_id c, cl_bigtk c),
   (cl_last_rx_pn c, cl_last_rx_gpn c, cl_last_rx_mgmt_pn c, cl_last_rx_igtk_ipn c)).

(** No packet number is used, and no replay window opened, a second time under
    the same key. *)
Record no_rollback (c c' : Client) : Prop := {
  nr_pairwise : cl_ptk_installed c = true -> cl_pairwise_tk c' = cl_pairwise_tk c ->
    cl_client_pn c <= cl_client_pn c' /\ Forall2 Z.le (cl_last_rx_pn c) (cl_last_rx_pn c') /\
    cl_last_rx_mgmt_pn c <= cl_last_rx_mgmt_pn c';
  nr_gtk : cl_gtk_set c = true -> cl_gtk c' = cl_gtk c -> Forall2 Z.le (cl_last_rx_gpn c) (cl_last_rx_gpn c');
  nr_igtk : cl_igtk c <> None -> cl_igtk c' = cl_igtk c -> cl_last_rx_igtk_ipn c <= cl_last_rx_igtk_ipn c';
  nr_replay : cl_eapol_replay c <= cl_eapol_replay c'
}.

(** A change that keeps every key and moves the counters forward only. *)
Record forward (c c' : Client) : Prop := {
  fw_keys : cl_pairwise_tk c' = cl_pairwise_tk c /\ cl_gtk c' = cl_gtk c /\ cl_igtk c' = cl_igtk c;
  fw_set : (cl_ptk_installed c = true -> cl_ptk_installed c' = true) /\ (cl_gtk_set c = true -> cl_gtk_set c' = true);
  fw_pn : cl_client_pn c <= cl_client_pn c';
  fw_rx : Forall2 Z.le (cl_last_rx_pn c) (cl_last_rx_pn c');
  fw_gpn : Forall2 Z.le (cl_last_rx_gpn c) (cl_last_rx_gpn c');
  fw_mgmt : cl_last_rx_mgmt_pn c <= cl_last_rx_mgmt_pn c';
  fw_igtk : cl_last_rx_igtk_ipn c <= cl_last_rx_igtk_ipn c';
  fw_replay : cl_eapol_replay c <= cl_eapol_replay c'
}.

Lemma windows_refl (l : list Z) : Forall2 Z.le l l.
Proof. apply Forall_Forall2_diag, Forall_true. intros; lia. Qed.
Lemma windows_trans (l k m : list Z) : Forall2 Z.le l k -> Forall2 Z.le k m -> Forall2 Z.le l m.
Proof. intros H1 H2. etrans; eassumption. Qed.
#[local] Hint Resolve windows_refl Z.le_refl : core.

Lemma forward_refl c : forward c c.
Proof. constructor; auto. Qed.

Lemma forward_no_rollback c c' : forward c c' -> no_rollback c c'.
Proof. intros F. constructor; intros; try apply F. split; [apply F|split; apply F]. Qed.

Lemma forward_then c c1 c2 : forward c c1 -> no_rollback c1 c2 -> no_rollback c c2.
Proof.
  intros [(K1 & K2 & K3) [S1 S2] F1 F2 F3 F4 F5 F6] [N1 N2 N3 N4]. constructor.
  - intros Hi Ht. destruct N1 as (A & B & D); [auto|congruence|].
    split; [lia|]. split; [by eapply windows_trans|lia].
  - intros Hg Ht. eapply windows_trans; [exact F3|]. apply N2; [auto|congruence].
  - intros Hg Ht. rewrite <- K3 in Hg. specialize (N3 Hg ltac:(congruence)). lia.
  - lia.
Qed.

Lemma then_forward c c1 c2 : no_rollback c c1 -> forward c1 c2 -> no_rollback c c2.
Proof.
  intros [N1 N2 N3 N4] [(K1 & K2 & K3) _ F1 F2 F3 F4 F5 F6]. constructor.
  - intros Hi Ht. destruct N1 as (A & B & D); [done|congruence|].
    split; [lia|]. split; [by eapply windows_trans|lia].
  - intros Hg Ht. eapply windows_trans; [|exact F3]. apply N2; [done|congruence].
  - intros Hg Ht. specialize (N3 Hg ltac:(congruence)). lia.
  - lia.
Qed.

Lemma counted_forward c pn sc : cl_client_pn c <= pn -> forward c (counted c pn sc).
Proof. intros H. unfold counted. constructor; fields; auto. Qed.

(** * Who vouches for a message *)

(** The message carries a MIC under the installed key, or under the key of the
    candidate derived from this station's own nonce, and is not older than what
    has been authenticated. *)
Definition vouched `{Primitives} (c : Client) (eapol : bytes) (ek : EapolKey) : Prop :=
  ek_has_key_mic ek = true /\ cl_eapol_replay c <= ek_replay_counter ek /\
  ((cl_ptk_installed c = true /\ eapol_mic_valid (client_key_mic c) (cl_kck c) eapol ek = Val true) \/
   exists p, cl_pending_ptk c = Some p /\ pp_replay p <= ek_replay_counter ek /\
     cl_eapol_replay c < ek_replay_counter ek /\
     eapol_mic_valid (client_key_mic c) (pp_kck p) eapol ek = Val true).

(** * Delivered keys *)

Lemma find_kde_wf kd ty : wf_bytes kd -> exists o, find_vendor_kde kd ty = Val o /\ opt_ok wf_bytes o.
Proof.
  intros Hw. rewrite find_vendor_kde_spec. eexists. split; [done|].
  destruct (List.find _ _) as [t|] eqn:E; [|done]. apply find_some in E as [Hin _].
  pose proof (elements_wf kd Hw) as He. rewrite Forall_forall in He. by apply He, list_elem_of_In.
Qed.

Lemma parse_gtk_total kd : wf_bytes kd ->
  exists o, parse_gtk_kde_full kd = Val o /\ opt_ok (fun '(_, g) => wf_bytes g) o.
Proof.
  intros Hw. unfold parse_gtk_kde_full. destruct (find_kde_wf kd 0x01 Hw) as ([b|] & -> & Hb); cbn [obind rbind];
    [|by exists None]. cbn in Hb.
  destruct (Nat.ltb_spec (length b) 22); [by exists None|]. rust_steps. eexists. split; [done|]. cbn. auto with bytes.
Qed.

Lemma parse_mlo_gtk_total kd : wf_bytes kd ->
  exists o, parse_mlo_gtk_kde_full kd = Val o /\ opt_ok (fun '(_, _, pn, g) => arr 6 pn /\ wf_bytes g) o.
Proof.
  intros Hw. unfold parse_mlo_gtk_kde_full. destruct (find_kde_wf kd 0x10 Hw) as ([b|] & -> & Hb); cbn [obind rbind];
    [|by exists None]. cbn in Hb.
  destruct (Nat.ltb_spec (length b) 12); [by exists None|]. rust_steps. eexists. split; [done|]. cbn [opt_ok].
  split; [apply arr_sub; [done|lia|done]|auto with bytes].
Qed.

Lemma parse_mgmt_key_total kd ty mlo : wf_bytes kd ->
  exists o, parse_management_key_kde kd ty mlo = Val o /\ opt_ok (fun '(_, _, ipn, key) => arr 6 ipn /\ arr 16 key) o.
Proof.
  intros Hw. unfold parse_management_key_kde. destruct (find_kde_wf kd ty Hw) as ([b|] & -> & Hb); cbn [obind rbind];
    [|by exists None]. cbn in Hb.
  destruct (Nat.ltb_spec (length b) (4 + 2 + 6 + (if mlo then 1 else 0) + 16)); [by exists None|].
  destruct mlo; rust_steps; (eexists; split; [done|]); cbn [opt_ok]; (split; apply arr_sub; [done|lia|done|done|lia|done]).
Qed.

Lemma delivered_gtk_total kd rsc : wf_bytes kd -> pn_ok rsc ->
  exists o, delivered_gtk kd rsc = Val o /\ opt_ok (fun '(_, pn, g) => pn_ok pn /\ arr 16 g) o.
Proof.
  intros Hw Hr. unfold delivered_gtk. destruct (parse_gtk_total kd Hw) as (o1 & -> & H1). cbn [rbind].
  destruct (parse_mlo_gtk_total kd Hw) as (o2 & E2 & H2).
  destruct (o1 ≫= _) as [k|] eqn:E1.
  - exists (Some k). split; [done|]. apply bind_Some in E1 as ([i g] & -> & E). cbn in H1. unfold gtk_of_16 in E.
    destruct (Nat.eqb_spec (length g) 16); [|done]. by injection E as <-.
  - rewrite E2. cbn [rbind]. eexists. split; [done|]. destruct o2 as [[[[l i] pn] g]|]; [|done]. cbn in *.
    destruct H2 as [Hp Hg]. unfold gtk_of_16. destruct (Nat.eqb_spec (length g) 16); [|done].
    split; [by apply packet_number_ok|done].
Qed.

Lemma delivered_igtk_total kd : wf_bytes kd ->
  exists o, delivered_igtk kd = Val o /\ opt_ok (fun '(_, ipn, key) => arr 6 ipn /\ arr 16 key) o.
Proof.
  intros Hw. unfold delivered_igtk, parse_igtk_kde, parse_mlo_igtk_kde.
  destruct (parse_mgmt_key_total kd 0x09 false Hw) as (o1 & -> & H1). unfold rmap. cbn [rbind].
  destruct o1 as [[[[l i] ipn] key]|]; cbn [option_map drop_link].
  - eexists. split; [done|]. exact H1.
  - destruct (parse_mgmt_key_total kd 0x11 true Hw) as (o2 & -> & H2). cbn [rbind]. eexists. split; [done|].
    by destruct o2 as [[[[? ?] ?] ?]|].
Qed.

Lemma delivered_bigtk_total kd : wf_bytes kd -> exists o, delivered_bigtk kd = Val o /\ opt_ok (arr 16) o.
Proof.
  intros Hw. unfold delivered_bigtk, parse_bigtk_kde, parse_mlo_bigtk_kde.
  destruct (parse_mgmt_key_total kd 0x0e false Hw) as (o1 & -> & H1). unfold rmap. cbn [rbind].
  destruct o1 as [[[[l i] ipn] key]|]; cbn [option_map drop_link].
  - eexists. split; [done|]. apply H1.
  - destruct (parse_mgmt_key_total kd 0x12 true Hw) as (o2 & -> & H2). cbn [rbind]. eexists. split; [done|].
    destruct o2 as [[[[? ?] ?] ?]|]; [apply H2|done].
Qed.

Lemma group_moved_refl c : client_ok c -> group_moved c c.
Proof.
  intros Hok. constructor; [|done..]. do 8 eexists. symmetry. apply with_group_same.
Qed.

Lemma install_group_keys_ok kd rsc c : client_ok c -> wf_bytes kd -> u64_ok rsc ->
  exists b c', install_group_keys kd rsc c = Val (b, c') /\ group_moved c c' /\ (b = false -> c' = c).
Proof.
  intros Hok Hw Hr. unfold install_group_keys.
  assert (Hno : exists (b : bool) c', Val (false, c) = Val (b, c') /\ group_moved c c' /\ (b = false -> c' = c))
    by (exists false, c; split; [done|]; split; [by apply group_moved_refl|done]).
  destruct (Z.ltb_spec 0x0000ffffffffffff rsc); [done|].
  assert (Hp : pn_ok rsc) by (unfold pn_ok, u64_ok, MAX_PACKET_NUMBER in *; lia).
  destruct (delivered_gtk_total kd rsc Hw Hp) as (g & -> & Hg). cbn [rbind].
  destruct (delivered_igtk_total kd Hw) as (i & -> & Hi). cbn [rbind].
  destruct g as [[[k pn] g]|]; [|done]. cbn in Hg. destruct (is_some (cl_sae_pmk c) && negb (is_some i)); [done|].
  destruct (delivered_bigtk_total kd Hw) as (b & -> & Hb). cbn [rbind]. exists true. eexists. split; [done|].
  split; [|done]. destruct Hg. by apply install_keys_moved.
Qed.

Lemma group_moved_forward c c' : group_moved c c' ->
  association_of c' = association_of c /\ cl_connected c' = cl_connected c /\ cl_ptk_installed c' = cl_ptk_installed c /\
  cl_pending_ptk c' = cl_pending_ptk c /\ cl_eapol_state c' = cl_eapol_state c /\ cl_draws c' = cl_draws c /\
  no_rollback c c' /\ cl_pairwise_tk c' = cl_pairwise_tk c /\ cl_client_pn c' = cl_client_pn c /\
  cl_last_rx_pn c' = cl_last_rx_pn c /\ cl_last_rx_mgmt_pn c' = cl_last_rx_mgmt_pn c /\ cl_eapol_replay c' = cl_eapol_replay c /\
  cl_kck c' = cl_kck c.
Proof.
  intros [(g & s & i & w & ik & ii & ip & b & E) _ G1 G2].
  assert (F : forall A (f : Client -> A), f (with_group g s i w ik ii ip b c) = f c -> f c' = f c) by (intros; by subst).
  do 6 (split; [apply F; unfold association_of, with_group; reflexivity|]).
  split; [|do 5 (split; [apply F; unfold with_group; reflexivity|]); apply F; unfold with_group; reflexivity].
  constructor.
  - intros _ _. rewrite (F _ cl_client_pn), (F _ cl_last_rx_pn), (F _ cl_last_rx_mgmt_pn)
      by (unfold with_group; reflexivity). auto.
  - intros Hs Hg. rewrite (G1 Hs Hg). auto.
  - intros Hs Hg. rewrite (G2 Hs Hg). auto.
  - rewrite (F _ cl_eapol_replay) by (unfold with_group; reflexivity). auto.
Qed.

(** * The installation of a PTK *)

(** The fields a commitment of the candidate [p] changes. *)
Definition with_ptk (p : PendingPtk) (pn : Z) (w : list Z) (m : Z) (c : Client) : Client :=
  c <| cl_pending_ptk := None |> <| cl_anonce := pp_anonce p |> <| cl_snonce := pp_snonce p |>
    <| cl_kck := pp_kck p |> <| cl_kek := pp_kek p |> <| cl_tk := pp_tk p |>
    <| cl_pairwise_tk := pp_pairwise_tk p |>
    <| cl_client_pn := pn |> <| cl_last_rx_pn := w |> <| cl_last_rx_mgmt_pn := m |>.

Lemma with_ptk_same p c :
  c <| cl_pending_ptk := None |> <| cl_anonce := pp_anonce p |> <| cl_snonce := pp_snonce p |>
    <| cl_kck := pp_kck p |> <| cl_kek := pp_kek p |> <| cl_tk := pp_tk p |>
    <| cl_pairwise_tk := pp_pairwise_tk p |>
  = with_ptk p (cl_client_pn c) (cl_last_rx_pn c) (cl_last_rx_mgmt_pn c) c.
Proof. vm_compute. reflexivity. Qed.

Lemma commit_spec c p : cl_pending_ptk c = Some p ->
  commit_pending_ptk c =
    if same_pending_key c p then with_ptk p (cl_client_pn c) (cl_last_rx_pn c) (cl_last_rx_mgmt_pn c) c
    else with_ptk p 1 (replicate 17 0) 0 c.
Proof.
  intros E. unfold commit_pending_ptk. rewrite E. cbv zeta. destruct (same_pending_key c p); [apply with_ptk_same|reflexivity].
Qed.

Lemma with_ptk_ok p pn w m c : client_ok c -> pending_ok p -> 1 <= pn <= MAX_PACKET_NUMBER + 1 -> window_ok w -> pn_ok m ->
  client_ok (with_ptk p pn w m c).
Proof.
  intros Hok [? ? ? ? ? ? ?] ? ? ?. assert (opt_ok pending_ok None) by done. unfold with_ptk. keep_client_ok Hok.
Qed.

(** The candidate replaces the session's key; its counters restart only with a
    temporal key of another content. *)
Lemma commit_ok c p : client_ok c -> cl_pending_ptk c = Some p ->
  client_ok (commit_pending_ptk c) /\ association_of (commit_pending_ptk c) = association_of c /\
  cl_connected (commit_pending_ptk c) = cl_connected c /\ cl_ptk_installed (commit_pending_ptk c) = cl_ptk_installed c /\
  cl_kck (commit_pending_ptk c) = pp_kck p /\ cl_kek (commit_pending_ptk c) = pp_kek p /\
  cl_pairwise_tk (commit_pending_ptk c) = pp_pairwise_tk p /\
  cl_eapol_replay (commit_pending_ptk c) = cl_eapol_replay c /\ no_rollback c (commit_pending_ptk c).
Proof.
  intros Hok Hp. pose proof (co_pending c Hok) as Hpo. rewrite Hp in Hpo. cbn in Hpo. rewrite (commit_spec c p Hp).
  assert (Hall : forall pn w m, 1 <= pn <= MAX_PACKET_NUMBER + 1 -> window_ok w -> pn_ok m ->
    (cl_ptk_installed c = true -> pp_pairwise_tk p = cl_pairwise_tk c ->
      pn = cl_client_pn c /\ w = cl_last_rx_pn c /\ m = cl_last_rx_mgmt_pn c) ->
    let c' := with_ptk p pn w m c in
    client_ok c' /\ association_of c' = association_of c /\ cl_connected c' = cl_connected c /\
    cl_ptk_installed c' = cl_ptk_installed c /\ cl_kck c' = pp_kck p /\ cl_kek c' = pp_kek p /\
    cl_pairwise_tk c' = pp_pairwise_tk p /\ cl_eapol_replay c' = cl_eapol_replay c /\ no_rollback c c').
  { intros pn w m H1 H2 H3 H4. cbv zeta. split; [by apply with_ptk_ok|].
    split; [unfold association_of, with_ptk; reflexivity|].
    do 6 (split; [unfold with_ptk; reflexivity|]). unfold with_ptk. constructor; fields; auto.
    intros Hi Ht. destruct (H4 Hi Ht) as (-> & -> & ->). auto. }
  destruct (same_pending_key c p) eqn:Es; apply Hall; try apply Hok; auto.
  - unfold MAX_PACKET_NUMBER. lia.
  - by apply window_fresh, pn_ok_0.
  - apply pn_ok_0.
  - intros Hi Ht. exfalso. unfold same_pending_key in Es. rewrite Hi, Ht in Es. cbn [andb] in Es.
    rewrite constant_time_eq_spec, beq_refl in Es; [done|..]; apply wf_bytes_take, Hok.
Qed.

Section Effects.
Context {E0 : Entropy} {E0ok : EntropyOk E0} {P : Primitives} {Pok : PrimitivesOk P}.

Lemma m3_oci_total c kd : exists v, m3_oci_accepted c kd = Val v.
Proof.
  unfold m3_oci_accepted. destruct (cl_ocv c); [|by eexists]. rewrite parse_oci_kde_spec. cbn [rbind].
  destruct (option_map _ _) as [[? ?]|]; by eexists.
Qed.

(** A verified message 3 is dropped without a trace, or installs its keys. *)
Lemma m3_install_ok ek c p : client_ok c -> eapol_key_ok ek -> cl_pending_ptk c = Some p ->
  cl_eapol_replay c <= ek_replay_counter ek ->
  exists o, m3_install ek c = Val o /\
    forall c1, o = Some c1 ->
      client_ok c1 /\ association_of c1 = association_of c /\ cl_connected c1 = cl_connected c /\
      cl_ptk_installed c1 = cl_ptk_installed c /\ no_rollback c c1 /\ cl_eapol_replay c1 = ek_replay_counter ek /\
      cl_kck c1 = pp_kck p /\ cl_kek c1 = pp_kek p /\ cl_pairwise_tk c1 = pp_pairwise_tk p.
Proof.
  intros Hok (_ & _ & Hrc & _ & Hrsc & _ & Hkd & _) Hp Hle. unfold m3_install. rewrite Hp.
  pose proof (co_pending c Hok) as Hpo. rewrite Hp in Hpo. cbn in Hpo.
  destruct (aes_unwrap_total (pp_kek p) (ek_key_data ek) (po_kek p Hpo) Hkd) as (o & -> & Ho).
  destruct o as [kd|]; cbn [obind rbind]; [|by exists None]. destruct (Ho kd eq_refl) as [_ Hkw].
  destruct (m3_oci_total c kd) as (v & ->). cbn [rbind]. destruct v; cbn [negb]; [|by exists None].
  destruct (install_group_keys_ok kd (ek_rsc ek) c Hok Hkw Hrsc) as (b & c1 & -> & G & _). cbn [rbind].
  destruct b; cbn [negb]; [|by exists None]. eexists. split; [done|]. intros c2 [= <-].
  destruct (group_moved_forward c c1 G) as (F1 & F2 & F3 & F4 & _ & _ & F7 & F8 & F9 & F10 & F11 & F12 & _).
  pose proof (gm_ok _ _ G) as Hok1.
  set (c3 := c1 <| cl_eapol_replay := ek_replay_counter ek |>).
  assert (Hok3 : client_ok c3) by (unfold c3; assert (u64_ok (ek_replay_counter ek)) by done; keep_client_ok Hok1).
  assert (Hp3 : cl_pending_ptk c3 = Some p) by (unfold c3; fields; congruence).
  destruct (commit_ok c3 p Hok3 Hp3) as (K1 & K2 & K3 & K4 & K5 & K6 & K7 & K8 & [N1 N2 N3 N4]).
  assert (Ha : association_of c3 = association_of c1) by (unfold association_of, c3; reflexivity).
  assert (Hcn : cl_connected c3 = cl_connected c1 /\ cl_ptk_installed c3 = cl_ptk_installed c1 /\
    cl_eapol_replay c3 = ek_replay_counter ek) by (unfold c3; fields; done). destruct Hcn as (Hc1 & Hc2 & Hc3).
  split; [done|]. split; [congruence|]. split; [congruence|]. split; [congruence|].
  split; [|split; [congruence|done]].
  destruct F7 as [M1 M2 M3 M4].
  assert (G3 : cl_gtk c3 = cl_gtk c1 /\ cl_gtk_set c3 = cl_gtk_set c1 /\ cl_last_rx_gpn c3 = cl_last_rx_gpn c1 /\
    cl_igtk c3 = cl_igtk c1 /\ cl_last_rx_igtk_ipn c3 = cl_last_rx_igtk_ipn c1 /\
    cl_pairwise_tk c3 = cl_pairwise_tk c1 /\ cl_client_pn c3 = cl_client_pn c1 /\
    cl_last_rx_pn c3 = cl_last_rx_pn c1 /\ cl_last_rx_mgmt_pn c3 = cl_last_rx_mgmt_pn c1)
    by (unfold c3; fields; done).
  destruct G3 as (g1 & g2 & g3 & g4 & g5 & g6 & g7 & g8 & g9).
  assert (Gc : cl_gtk (commit_pending_ptk c3) = cl_gtk c1 /\ cl_igtk (commit_pending_ptk c3) = cl_igtk c1 /\
    cl_last_rx_gpn (commit_pending_ptk c3) = cl_last_rx_gpn c1 /\
    cl_last_rx_igtk_ipn (commit_pending_ptk c3) = cl_last_rx_igtk_ipn c1).
  { rewrite (commit_spec c3 p Hp3), <- g1, <- g3, <- g4, <- g5. destruct (same_pending_key c3 p); by split_and!. }
  destruct Gc as (h1 & h2 & h3 & h4).
  constructor.
  - intros Hi Ht. rewrite <- F3, <- Hc2 in Hi. rewrite <- F8, <- g6 in Ht. specialize (N1 Hi Ht).
    by rewrite g7, g8, g9, F9, F10, F11 in N1.
  - intros Hs Hgt. rewrite h3. apply M2; [done|]. congruence.
  - intros Hs Hgt. rewrite h4. apply M3; [done|]. congruence.
  - rewrite Hc3 in N4. lia.
Qed.

(** What a message does to the station that receives it. *)
Record eapol_effect (eapol : bytes) (ek : EapolKey) (c c' : Client) : Prop := {
  ee_ok : client_ok c';
  ee_association : association_of c' = association_of c;
  ee_rollback : no_rollback c c';
  ee_session : session_of c' = session_of c \/ vouched c eapol ek;
  ee_connected : cl_connected c' = cl_connected c \/ (2 <= cl_connected c /\ cl_connected c' = 4)
}.

Lemma effect_none eapol ek c : client_ok c -> eapol_effect eapol ek c c.
Proof. intros Hok. constructor; auto. apply forward_no_rollback, forward_refl. Qed.

Lemma effect_note eapol ek now c c' : eapol_effect eapol ek c c' -> eapol_effect eapol ek c (note_ap_activity now c').
Proof.
  intros [H1 H2 H3 H4 H5]. unfold note_ap_activity. constructor.
  - keep_client_ok H1.
  - rewrite <- H2. unfold association_of. reflexivity.
  - eapply then_forward; [exact H3|]. constructor; fields; auto.
  - destruct H4 as [H4|]; [left|by right]. rewrite <- H4. unfold session_of. reflexivity.
  - exact H5.
Qed.

(** A candidate is no more than a candidate. *)
Lemma effect_m2 eapol ek p draws pn sc c : client_ok c -> pending_ok p ->
  cl_client_pn c <= pn <= MAX_PACKET_NUMBER + 1 -> eapol_effect eapol ek c (m2_sent p draws pn sc c).
Proof.
  intros Hok Hp Hpn. pose proof (co_client_pn c Hok). constructor.
  - apply m2_sent_ok; [done|done|lia].
  - unfold association_of, m2_sent, counted. reflexivity.
  - apply forward_no_rollback. unfold m2_sent, counted. constructor; fields; auto; lia.
  - left. unfold session_of, m2_sent, counted. reflexivity.
  - left. unfold m2_sent, counted. reflexivity.
Qed.

(** The station that has sent message 4. *)
Definition m4_sent (now pn sc : Z) (c : Client) : Client :=
  (counted c pn sc) <| cl_connected := 4 |> <| cl_state_since := now |> <| cl_last_ap_seen := now |>
    <| cl_ptk_installed := true |> <| cl_eapol_state := 2 |>.

Lemma m4_sent_counted now pn sc q c :
  m4_sent now pn sc (c <| cl_sc := q |>) = m4_sent now pn sc c.
Proof. vm_compute. reflexivity. Qed.

Lemma m4_sent_ok now pn sc c : client_ok c -> cl_pause_m3 c = false -> 1 <= pn <= MAX_PACKET_NUMBER + 1 ->
  client_ok (m4_sent now pn sc c).
Proof.
  intros Hok Hpa Hpn. unfold m4_sent, counted. assert (true = true <-> 4 = 4) by done.
  assert (cl_pause_m3 c = true -> 4 <> 4) by (rewrite Hpa; done). assert (0 <= 4 <= 4) by lia. keep_client_ok Hok.
Qed.

Lemma send_message_4_ok now bssid protected_transport c out :
  client_ok c -> arr 6 bssid ->
  exists pn sc out', send_message_4 now bssid protected_transport c out = Val (m4_sent now pn sc c, out') /\
    cl_client_pn c <= pn <= MAX_PACKET_NUMBER + 1 /\ co_to_network out' = co_to_network out /\
    (protected_transport = false -> pn = cl_client_pn c /\ exists f, out' = client_tx f out /\
       build_eapol_m4_mld bssid (cl_mac c) (cl_kck c) (cl_eapol_replay c) (u16 (sc * 16)) (client_key_mic c)
         (cl_mld_mac c) = Val f).
Proof.
  intros Hok Hb. unfold send_message_4. set (q := (cl_sc c + 1) mod 4096).
  change (client_next_sc c) with (u16 (q * 16), c <| cl_sc := q |>). cbv beta iota zeta.
  set (c1 := c <| cl_sc := q |>). assert (Hok1 : client_ok c1) by (unfold c1; keep_client_ok Hok).
  pose proof (co_config c1 Hok1) as Hc1.
  destruct (eapol_m4_rx bssid (cl_mac c1) (cl_kck c1) (cl_eapol_replay c1) (u16 (q * 16)) (client_key_mic c1) (cl_mld_mac c1))
    as (f & d & fr & m & kd & Ef & Ekd & Hrx & _); try done; try apply Hok1; try apply Hc1.
  { unfold u16. apply Z.mod_pos_bound. lia. }
  rewrite Ef. cbn [rbind].
  destruct (tx_eapol_ok f protected_transport c1 out d _ fr Hok1 Hrx) as (pn & sc & out' & Et & Hpn & Hnet & Hun).
  { rewrite (eapol_rx_length _ _ _ _ Hrx). cbn [ek_key_data built_key]. rewrite Ekd.
    pose proof (cc_mld c1 Hc1) as Hm. destruct (cl_mld_mac c1) as [mm|]; [|cbn; lia].
    destruct Hm as [Hm _]. unfold mac_addr_kde. rewrite length_app, Hm. cbn. lia. }
  rewrite Et. cbn [rbind]. exists pn, sc, out'.
  split; [rewrite <- (m4_sent_counted now pn sc q c); reflexivity|]. split; [exact Hpn|]. split; [done|].
  intros Hf. destruct (Hun Hf) as (-> & -> & ->). split; [done|]. exists f. split; [done|exact Ef].
Qed.

(** Message 4 follows an accepted message 3. *)
Lemma effect_m4 eapol ek now pn sc c c1 :
  client_ok c1 -> association_of c1 = association_of c -> cl_pause_m3 c = false -> no_rollback c c1 ->
  cl_client_pn c1 <= pn <= MAX_PACKET_NUMBER + 1 -> 2 <= cl_connected c -> vouched c eapol ek ->
  eapol_effect eapol ek c (m4_sent now pn sc c1).
Proof.
  intros Hok1 Ha Hpa Hn Hpn Hcn Hv. pose proof (co_client_pn c1 Hok1).
  assert (Hpa1 : cl_pause_m3 c1 = false).
  { rewrite <- Hpa. change ((association_of c1).2.2 = (association_of c).2.2). by rewrite Ha. }
  constructor.
  - apply m4_sent_ok; [done|done|lia].
  - rewrite <- Ha. unfold association_of, m4_sent, counted. reflexivity.
  - eapply then_forward; [exact Hn|]. unfold m4_sent, counted. constructor; fields; auto. lia.
  - by right.
  - right. split; [done|]. unfold m4_sent, counted. reflexivity.
Qed.

Lemma mic_total c kck eapol ek : arr 16 kck -> wf_bytes eapol -> eapol_key_ok ek ->
  exists v, eapol_mic_valid (client_key_mic c) kck eapol ek = Val v.
Proof.
  intros Hk He Hek. destruct (eapol_mic_valid_total (client_key_mic c) kck eapol ek Hk He) as (v & E & _);
    [apply Hek|by exists v].
Qed.

Lemma send_eapol4_ok now eapol ek protected_transport c out :
  client_ok c -> wf_bytes eapol -> eapol_key_ok ek -> ek_has_key_mic ek = true -> cl_pause_m3 c = false ->
  2 <= cl_connected c ->
  exists c' out', send_eapol4 now eapol ek protected_transport c out = Val (c', out') /\
    co_to_network out' = co_to_network out /\ eapol_effect eapol ek c c'.
Proof.
  intros Hok He Hek Hmic Hpa Hcn. unfold send_eapol4. pose proof (co_bssid c Hok) as Hb.
  assert (Hdrop : exists c' out', Val (c, out) = Val (c', out') /\ co_to_network out' = co_to_network out /\
    eapol_effect eapol ek c c') by (exists c, out; split; [done|]; split; [done|]; by apply effect_none).
  destruct (cl_bssid c) as [bssid|]; [|done]. cbn in Hb. rewrite Hpa. cbn [negb andb].
  unfold m3_kck. destruct (retry_m3 c ek) eqn:Er; cbn [negb andb].
  - destruct (mic_total c (cl_kck c) eapol ek (co_kck c Hok) He Hek) as (v & Ev). rewrite Ev. cbn [rbind].
    destruct v; cbn [negb]; [|done].
    unfold retry_m3 in Er. rewrite !andb_true_iff, Z.eqb_eq, Z.leb_le in Er. destruct Er as [[_ Hi] Hle].
    set (c1 := c <| cl_eapol_replay := ek_replay_counter ek |>).
    destruct Hek as (K1 & K2 & Hrc & K3).
    assert (Hok1 : client_ok c1) by (unfold c1; assert (u64_ok (ek_replay_counter ek)) by done; keep_client_ok Hok).
    assert (E1 : cl_pause_m3 c1 = false) by exact Hpa. cbn [rbind]. rewrite E1.
    destruct (send_message_4_ok now bssid protected_transport c1 out Hok1 Hb) as (pn & sc & out' & E & Hpn & Hnet & _).
    rewrite E. exists (m4_sent now pn sc c1), out'. split; [done|]. split; [done|].
    assert (Hn : no_rollback c c1) by (apply forward_no_rollback; unfold c1; constructor; fields; auto).
    apply effect_m4; try done. split; [done|]. split; [done|]. left. exact (conj Hi Ev).
  - destruct (fresh_m3 c ek) eqn:Ef; cbn [negb]; [|done].
    destruct (cl_pending_ptk c) as [p|] eqn:Ep; [|done]. cbn [option_map].
    pose proof (co_pending c Hok) as Hpo. rewrite Ep in Hpo. cbn in Hpo.
    destruct (mic_total c (pp_kck p) eapol ek (po_kck p Hpo) He Hek) as (v & Ev). rewrite Ev. cbn [rbind].
    destruct v; cbn [negb]; [|done].
    unfold fresh_m3 in Ef. rewrite Ep, Hpa, andb_true_iff, Z.leb_le in Ef. cbn [orb] in Ef.
    rewrite Z.ltb_lt in Ef. destruct Ef as [Hr Hlt].
    destruct (m3_install_ok ek c p Hok Hek Ep ltac:(lia)) as (o & Eo & Ho). rewrite Eo. cbn [rbind].
    destruct o as [c1|]; [|done]. destruct (Ho c1 eq_refl) as (Hok1 & Ha & _ & _ & Hn & _).
    assert (E1 : cl_pause_m3 c1 = false).
    { rewrite <- Hpa. change ((association_of c1).2.2 = (association_of c).2.2). by rewrite Ha. }
    rewrite E1.
    destruct (send_message_4_ok now bssid protected_transport c1 out Hok1 Hb) as (pn & sc & out' & E & Hpn & Hnet & _).
    rewrite E. exists (m4_sent now pn sc c1), out'. split; [done|]. split; [done|].
    apply effect_m4; try done. split; [done|]. split; [lia|]. right. exists p. exact (conj Ep (conj Hr (conj Hlt Ev))).
Qed.

Lemma handle_group_rekey_ok eapol ek protected_transport c out :
  client_ok c -> wf_bytes eapol -> eapol_key_ok ek -> ek_has_key_mic ek = true -> cl_connected c = 4 ->
  exists c' out', handle_group_rekey eapol ek protected_transport c out = Val (c', out') /\
    co_to_network out' = co_to_network out /\ eapol_effect eapol ek c c'.
Proof.
  intros Hok He Hek Hmic Hcn. unfold handle_group_rekey. pose proof (co_bssid c Hok) as Hb.
  assert (Hdrop : exists c' out', Val (c, out) = Val (c', out') /\ co_to_network out' = co_to_network out /\
    eapol_effect eapol ek c c') by (exists c, out; split; [done|]; split; [done|]; by apply effect_none).
  destruct (cl_bssid c) as [bssid|]; [|done]. cbn in Hb.
  destruct (mic_total c (cl_kck c) eapol ek (co_kck c Hok) He Hek) as (v & Ev). rewrite Ev. cbn [rbind].
  destruct v; cbn [negb]; [|done].
  destruct (Z.ltb_spec (ek_replay_counter ek) (cl_eapol_replay c)) as [|Hge]; [done|].
  assert (Hi : cl_ptk_installed c = true) by (by apply (co_installed c Hok)).
  assert (Hv : vouched c eapol ek) by (split; [done|]; split; [done|]; left; exact (conj Hi Ev)).
  pose proof Hek as (_ & _ & Hrc & _ & Hrsc & _ & Hkd & _).
  assert (Hsend : forall c1, client_ok c1 -> association_of c1 = association_of c -> no_rollback c c1 ->
    cl_connected c1 = cl_connected c ->
    exists c' out', (let (sc, c) := client_next_sc c1 in
      let! message_2 := build_group_key_msg2 bssid (cl_mac c) (cl_kck c) (ek_replay_counter ek) sc (client_key_mic c1) in
      tx_eapol message_2 protected_transport c out) = Val (c', out') /\
      co_to_network out' = co_to_network out /\ eapol_effect eapol ek c c').
  { intros c1 Hok1 Ha Hn Hc1. destruct (client_next_sc c1) as [q c2] eqn:Eq.
    destruct (next_sc_client c1 Hok1) as [Hok2 Hq]. rewrite Eq in Hok2, Hq. cbn [fst snd] in *.
    assert (E2 : c2 = c1 <| cl_sc := cl_sc c2 |>) by (unfold client_next_sc in Eq; injection Eq as _ <-; reflexivity).
    destruct (group_msg2_rx bssid (cl_mac c2) (cl_kck c2) (ek_replay_counter ek) q (client_key_mic c1))
      as (f & d & fr & m & Ef & Hrx & _); try done; try apply Hok2.
    rewrite Ef. cbn [rbind].
    destruct (tx_eapol_ok f protected_transport c2 out d _ fr Hok2 Hrx) as (pn & sc & out' & Et & Hpn & Hnet & _).
    { rewrite (eapol_rx_length _ _ _ _ Hrx). cbn [ek_key_data built_key length]. lia. }
    rewrite Et. exists (counted c2 pn sc), out'. split; [done|]. split; [done|]. pose proof (co_client_pn _ Hok2).
    constructor.
    - apply counted_ok; [done|lia].
    - rewrite <- Ha, E2. unfold association_of, counted. reflexivity.
    - eapply then_forward; [exact Hn|]. rewrite E2 in *. fields_in Hpn. unfold counted. constructor; fields; auto. lia.
    - by right.
    - left. rewrite <- Hc1, E2. unfold counted. reflexivity. }
  destruct (Z.ltb_spec (cl_eapol_replay c) (ek_replay_counter ek)) as [Hlt|].
  - destruct (aes_unwrap_total (cl_kek c) (ek_key_data ek) (co_kek c Hok) Hkd) as (o & -> & Ho).
    destruct o as [kd|]; cbn [obind rbind]; [|done]. destruct (Ho kd eq_refl) as [_ Hkw].
    destruct (install_group_keys_ok kd (ek_rsc ek) c Hok Hkw Hrsc) as (b & c1 & -> & G & _). cbn [rbind].
    destruct b; cbn [negb rbind]; [|done].
    destruct (group_moved_forward c c1 G) as (F1 & F2 & _ & _ & _ & _ & F7 & _ & _ & _ & _ & F12 & _).
    pose proof (gm_ok _ _ G) as Hok1.
    set (c2 := c1 <| cl_eapol_replay := ek_replay_counter ek |>).
    assert (Hmic2 : client_key_mic c = client_key_mic c2).
    { destruct G as [(g & s & i & w & ik & ii & ip & b & ->) _ _ _]. unfold client_key_mic, c2, with_group. reflexivity. }
    rewrite Hmic2. apply Hsend.
    + unfold c2. assert (u64_ok (ek_replay_counter ek)) by done. keep_client_ok Hok1.
    + rewrite <- F1. unfold association_of, c2. reflexivity.
    + eapply then_forward; [exact F7|]. unfold c2. constructor; fields; auto. lia.
    + rewrite <- F2. unfold c2. reflexivity.
  - cbn [rbind]. apply Hsend; auto. apply forward_no_rollback, forward_refl.
Qed.

(** * Dispatch *)

Lemma valid_m3_mic c ek : valid_m3 c ek = true -> ek_has_key_mic ek = true.
Proof. unfold valid_m3. rewrite !andb_true_iff. tauto. Qed.
Lemma valid_group_mic c ek : valid_group_m1 c ek = true -> ek_has_key_mic ek = true.
Proof. unfold valid_group_m1. rewrite !andb_true_iff. tauto. Qed.

Lemma handle_eapol_key_ok now eapol ek protected_transport c out :
  client_ok c -> wf_bytes eapol -> eapol_key_ok ek -> cl_pause_m3 c = false -> 2 <= cl_connected c ->
  exists c' out', handle_eapol_key now eapol ek protected_transport c out = Val (c', out') /\
    co_to_network out' = co_to_network out /\ eapol_effect eapol ek c c'.
Proof.
  intros Hok He Hek Hpa Hcn. unfold handle_eapol_key. pose proof (co_connected c Hok) as Hr.
  set (Q := fun r : res (Client * ClientOut) => exists c' out', r = Val (c', out') /\
    co_to_network out' = co_to_network out /\ eapol_effect eapol ek c c').
  assert (Hdrop : Q (Val (c, out))) by (exists c, out; split; [done|]; split; [done|]; by apply effect_none).
  assert (Hnote : forall r, Q r -> Q (let! r := r in Val (note_if_answered now (length (co_frames out)) r))).
  { intros r (c' & out' & -> & Hn & Hf). cbn [rbind note_if_answered]. do 2 eexists. split; [done|]. split; [done|].
    destruct (_ =? _)%nat; [done|by apply effect_note]. }
  assert (H2 : Q (send_eapol2 ek protected_transport c out)).
  { destruct (send_eapol2_ok ek protected_transport c out Hok Hek)
      as [(_ & E)|(b & p & d & pn & sc & out' & _ & E & Hpo & Hpn & Hnet & _)]; rewrite E; [done|].
    do 2 eexists. split; [done|]. split; [done|]. by apply effect_m2. }
  assert (H4 : valid_m3 c ek = true -> Q (send_eapol4 now eapol ek protected_transport c out))
    by (intros Hv; apply send_eapol4_ok; try done; by eapply valid_m3_mic).
  assert (Hr2 : is_m1_retry c ek = true -> Q (send_eapol2_retry ek protected_transport c out)).
  { unfold is_m1_retry. destruct (cl_pending_ptk c) as [q|] eqn:Eq; [|done]. intros _.
    destruct (send_eapol2_retry_ok ek protected_transport c out q Hok Hek Eq)
      as [(_ & E)|(b & p & d & pn & sc & out' & _ & E & Hpo & Hpn & Hnet & _)]; rewrite E; [done|].
    do 2 eexists. split; [done|]. split; [done|]. by apply effect_m2. }
  assert (Hpw : Q (pairwise_message now eapol ek protected_transport c out)).
  { unfold pairwise_message. destruct (_ && (_ =? 2)).
    - destruct (valid_m3 c ek); [by apply H4|]. by destruct (valid_m1 c ek && is_m1_fresh c ek).
    - destruct (_ =? 0); [by destruct (valid_m1 c ek)|]. destruct (_ =? 1); [|done].
      destruct (valid_m3 c ek); [by apply H4|]. destruct (valid_m1 c ek); cbn [andb]; [|done].
      destruct (is_m1_retry c ek); [by apply Hr2|]. by destruct (is_m1_fresh c ek). }
  destruct (refused_in_clear ek protected_transport c); [done|]. cbv zeta.
  destruct (Z.leb_spec 4 (cl_connected c)) as [Hc4|Hc4]; cbn [andb].
  - destruct (ek_is_pairwise ek) eqn:Epw; cbn [negb].
    2: { destruct (valid_group_m1 c ek) eqn:Ev; [|done]. apply Hnote.
         apply handle_group_rekey_ok; try done; [by eapply valid_group_mic|lia]. }
    by apply Hnote.
  - by apply Hnote.
Qed.

End Effects.
