(* ===== verification/ClientRun.v ===== *)
(** The station over time: every received octet string, uplink packet and tick
    is handled, and what a session can lose or gain by it. *)
From S2P Require Import Prelude Elements Crypto Security Frames Channels DataProt Kde Rsn Advert Mlo Eapol Sae Failures Roaming Ap ApConfig ApEapol Demo ApData ApMgmt ApBeacon ApRates ApAdmit ApSae ApExchange ApSystem Client ClientKeys ClientRx ClientOk ClientSafe.

(** * The SAE exchange a station holds *)

(** The keys of an exchange: none yet, or all three. *)
Definition sae_keys_ok (s : Sae) : Prop :=
  (sae_kck s = [] /\ sae_pmk s = [] /\ sae_pmkid s = []) \/
  (wf_bytes (sae_kck s) /\ arr 32 (sae_pmk s) /\ arr 16 (sae_pmkid s)).

Section Sae.
Context {E0 : Entropy} {E0ok : EntropyOk E0} {P : Primitives} {Pok : PrimitivesOk P} {C : P256} {Cok : P256Ok C}.

(** A commit of our own, finite, and of the peer's nothing or a valid one. *)
Record sae_held (s : Sae) : Prop := {
  sh_committed : exists p r m, committed s p r m;
  sh_finite : commit_element s <> Infinity;
  sh_own : own_rejected_groups s = None;
  sh_rejected : wf_bytes (default [] (peer_rejected_groups s));
  sh_confirm : 0 <= send_confirm s <= 0xffff;
  sh_keys : sae_keys_ok s;
  sh_peer : (peer_scalar s = None /\ peer_element s = None) \/
    exists v Q q, peer_scalar s = Some v /\ 1 < v < curve_n /\ peer_element s = Some Q /\ Q <> Infinity /\ repr Q q
}.

(** The peer's commit is held, and no key has been derived from it. *)
Definition unkeyed_confirm (c : Client) : Prop :=
  exists s, cl_sae c = Some s /\ sae_kck s = [] /\ peer_scalar s <> None.

Record client_inv (c : Client) : Prop := {
  ci_ok : client_ok c;
  ci_sae : opt_ok sae_held (cl_sae c);
  ci_cache : opt_ok (fun '(b, i, k) => arr 6 b /\ arr 16 i /\ arr 32 k) (cl_cached_pmksa c);
  ci_owe_priv : opt_ok (fun k => arr 32 k /\ acceptable_scalar k = true) (cl_owe_priv c);
  ci_owe_pub : opt_ok wf_bytes (cl_owe_pub c)
}.

(** What no event changes. *)
Definition config_of (c : Client) :=
  (cl_mac c, cl_ssid c, cl_pmk c, cl_target_bssid c, cl_pairwise_cipher c, cl_test_snonce c, cl_password c,
   (cl_sae_enabled c, cl_sae_h2e c, cl_ocv c, cl_owe c, cl_wmm c, cl_wmm_tid_override c),
   (cl_mld_mac c, cl_link1_mac c, cl_ap_mld_mac c, cl_psk_sha256 c, cl_pause_m3 c)).

(** A station on its way into a BSS, of the configuration of [c0]. *)
Record joining (c0 c : Client) : Prop := {
  jn_inv : client_inv c;
  jn_config : config_of c = config_of c0;
  jn_connected : cl_connected c <= 2
}.

Ltac keep_joining J :=
  let I := fresh in let Ok := fresh in
  pose proof (jn_inv _ _ J) as I; pose proof (ci_ok _ I) as Ok;
  constructor; [constructor; [keep_client_ok Ok|..]; fields; try assumption; try apply I
               |rewrite <- (jn_config _ _ J); unfold config_of; reflexivity
               |fields; try assumption; try apply (jn_connected _ _ J)].

Lemma joining_sc c0 c q : joining c0 c -> joining c0 (c <| cl_sc := q |>).
Proof. intros J. keep_joining J. Qed.
Lemma joining_draws c0 c d : joining c0 c -> joining c0 (c <| cl_draws := d |>).
Proof. intros J. keep_joining J. Qed.
Lemma joining_sae c0 c s : joining c0 c -> opt_ok sae_held s -> joining c0 (c <| cl_sae := s |>).
Proof. intros J Hs. keep_joining J. Qed.
Lemma joining_pmk c0 c k : joining c0 c -> opt_ok (arr 32) k -> joining c0 (set_sae_pmk k c).
Proof. intros J Hk. unfold set_sae_pmk. keep_joining J. Qed.
Lemma joining_cache c0 c now e : joining c0 c -> opt_ok (fun '(b, i, k) => arr 6 b /\ arr 16 i /\ arr 32 k) e ->
  joining c0 (set_cached_pmksa now e c).
Proof. intros J He. unfold set_cached_pmksa. keep_joining J. Qed.
Lemma joining_note c0 c now : joining c0 c -> joining c0 (note_ap_activity now c).
Proof. intros J. unfold note_ap_activity. keep_joining J. Qed.
Lemma joining_reconnect c0 c b : joining c0 c -> joining c0 (c <| cl_pmksa_reconnect := b |>).
Proof. intros J. keep_joining J. Qed.
Lemma joining_bssid c0 c b : joining c0 c -> arr 6 b -> joining c0 (c <| cl_bssid := Some b |>).
Proof. intros J Hb. assert (opt_ok (arr 6) (Some b)) by done. keep_joining J. Qed.
Lemma joining_wmm c0 c b : joining c0 c -> joining c0 (c <| cl_ap_wmm := b |>).
Proof. intros J. keep_joining J. Qed.
Lemma joining_negotiated c0 c b : joining c0 c -> joining c0 (c <| cl_wmm_negotiated := b |>).
Proof. intros J. keep_joining J. Qed.
Lemma joining_channel c0 c b : joining c0 c -> is_byte b -> joining c0 (c <| cl_channel := b |>).
Proof. intros J Hb. keep_joining J. Qed.
Lemma joining_owe c0 c k b : joining c0 c -> arr 32 k -> acceptable_scalar k = true -> wf_bytes b ->
  joining c0 (c <| cl_owe_priv := Some k |> <| cl_owe_pub := Some b |>).
Proof. intros J Hk Ha Hb. keep_joining J; done. Qed.
Lemma joining_state c0 c now s : joining c0 c -> 0 <= s <= 2 -> joining c0 (set_connected_state now s c).
Proof.
  intros J Hs. pose proof (jn_connected _ _ J) as Hc.
  pose proof (co_installed c (ci_ok c (jn_inv _ _ J))) as Hi.
  assert (0 <= s <= 4) by lia. assert (cl_ptk_installed c = true <-> s = 4) by (split; [intros E; apply Hi in E; lia|lia]).
  assert (cl_pause_m3 c = true -> s <> 4) by lia. unfold set_connected_state. keep_joining J. fields. lia.
Qed.
Lemma joining_disconnect c0 c : client_inv c -> config_of c = config_of c0 -> joining c0 (client_disconnect c).
Proof.
  intros I Hc. constructor; [constructor; [by apply client_disconnect_ok; apply I|..]| |].
  - exact Logic.I.
  - unfold client_disconnect, set_sae_pmk, reset_session_keys. fields. apply I.
  - exact Logic.I.
  - exact Logic.I.
  - rewrite <- Hc. unfold config_of, client_disconnect, set_sae_pmk, reset_session_keys. reflexivity.
  - unfold client_disconnect, set_sae_pmk, reset_session_keys. fields. lia.
Qed.

(** * Joining a BSS *)

(** A handler that returns a station still joining, unless the [hole] opens. *)
Definition joins (hole : Prop) (c0 : Client) (r : res (Client * ClientOut)) : Prop :=
  (r = Panic /\ hole) \/ exists c' out', r = Val (c', out') /\ joining c0 c'.

Lemma joins_val hole c0 c out : joining c0 c -> joins hole c0 (Val (c, out)).
Proof. intros J. right. by exists c, out. Qed.

Lemma joins_weaken (hole hole' : Prop) c0 r : (hole -> hole') -> joins hole c0 r -> joins hole' c0 r.
Proof. intros Hh [[E H]|H]; [left; split; auto|by right]. Qed.

Lemma joining_mac c0 c : joining c0 c -> arr 6 (cl_mac c).
Proof. intros J. apply (co_config c (ci_ok c (jn_inv _ _ J))). Qed.

Lemma send_sae_joining c0 bssid seq status payload c out : joining c0 c ->
  joining c0 (send_sae bssid seq status payload c out).1.
Proof. intros J. by apply joining_sc. Qed.

Lemma joins_send hole c0 bssid seq status payload c out : joining c0 c ->
  joins hole c0 (Val (send_sae bssid seq status payload c out)).
Proof.
  intros J. pose proof (send_sae_joining c0 bssid seq status payload c out J) as J'.
  destruct (send_sae _ _ _ _ _ _) as [c' out']. by apply joins_val.
Qed.

Lemma with_mld_total c payload : exists b, with_mld_element c payload = Val b.
Proof.
  unfold with_mld_element. destruct (cl_mld_mac c) as [m|]; [|by eexists].
  unfold multi_link_auth. destruct (ext_ie_total 107 ([0; 0] ++ [7] ++ m)) as (e & ->). by eexists.
Qed.

(** The exchange of a station is the one the access point would start with the
    addresses exchanged. *)
Definition client_job (c : Client) (bssid : bytes) : SaeCommitJob := {|
  job_id := 0; job_sta := []; job_h2e := cl_sae_h2e c; job_ssid := cl_ssid c; job_password := cl_password c;
  job_sae_ap := client_spa c; job_sae_sta := client_aa c bssid; job_peer_mld := None; job_commit_payload := [] |}.

Lemma client_job_ok c bssid : client_ok c -> arr 6 bssid -> job_ok (client_job c bssid).
Proof.
  intros Hok Hb. pose proof (co_config c Hok) as Hc. unfold job_ok, client_job. cbn.
  split; [apply Hc|]. split; [apply Hc|].
  split; [unfold client_spa; apply opt_default; apply Hc|]. split; [|constructor].
  unfold client_aa. apply opt_default; [done|apply Hc].
Qed.

(** The password element the station shares with the access point [bssid] is the
    point at infinity. *)
Definition unusable_with (bssid : bytes) (c : Client) : Prop := infinite_element (client_job c bssid).

Lemma client_job_config c c' bssid : config_of c' = config_of c -> client_job c' bssid = client_job c bssid.
Proof.
  unfold config_of. intros E. injection E. intros. unfold client_job, client_spa, client_aa.
  repeat match goal with X : _ c' = _ c |- _ => rewrite X; clear X end. done.
Qed.

(** Our commit: the exchange is held, or its element cannot be sent. *)
Lemma committed_held s p r m sent : repr (pwe s) p -> committed sent p r m -> commit_element sent <> Infinity ->
  own_rejected_groups sent = None -> peer_rejected_groups sent = None -> peer_scalar sent = None ->
  peer_element sent = None -> send_confirm sent = 0 -> sae_kck sent = [] -> sae_pmk sent = [] -> sae_pmkid sent = [] ->
  sae_held sent.
Proof.
  intros _ Hc Hf Ho Hr Hs He Hn K1 K2 K3. constructor; try done.
  - by exists p, r, m.
  - rewrite Hr. constructor.
  - rewrite Hn. lia.
  - by left.
  - by left.
Qed.

Lemma start_sae_joins fuel bssid c0 c out : joining c0 c -> arr 6 bssid -> entropy_yields fuel ->
  joins (unusable_with bssid c0) c0 (start_sae fuel bssid c out).
Proof.
  intros J Hb Hy. pose proof (client_job_ok c bssid (ci_ok c (jn_inv _ _ J)) Hb) as Hj. unfold start_sae.
  change (client_sae_new c bssid) with (sae_start (client_job c bssid)).
  destruct (sae_start_ok _ Hj) as (o & E & Ho). rewrite E. cbn [rbind].
  destruct o as [s|]; [|by apply joins_val].
  destruct (Ho s eq_refl) as (Q & p & higher & Es & HQ).
  destruct (owe_private_found fuel (cl_draws c) (Hy _)) as (rand & d1 & -> & Hr & Har). cbn [rbind].
  destruct (owe_private_found fuel d1 (Hy d1)) as (mask & d2 & -> & Hm & Ham). cbn [rbind].
  destruct (acceptable_scalar_repr rand Hr Har) as (rs & Ers & _).
  destruct (acceptable_scalar_repr mask Hm Ham) as (ms & Ems & Hms).
  unfold secret_scalar, expect in Ers, Ems.
  destruct (from_repr rand) as [r|] eqn:Er; [|done]. injection Ers as ->.
  destruct (from_repr mask) as [m|] eqn:Em; [|done]. injection Ems as ->.
  assert (Hpwe : repr (pwe s) p) by (rewrite Es; exact HQ).
  destruct (prepare_commit_ok s rand mask rs ms p Hpwe Er Em) as (s1 & Ep & Hc & H1 & H2 & H3 & H4 & _).
  assert (Hkeep : send_confirm s1 = send_confirm s /\ sae_kck s1 = sae_kck s /\ sae_pmk s1 = sae_pmk s /\
    sae_pmkid s1 = sae_pmkid s).
  { unfold prepare_commit, secret_scalar in Ep. rewrite Er, Em in Ep. cbn [expect rbind] in Ep.
    destruct (point_to_p256 (pwe s)); cbn [expect rbind] in Ep; [|done].
    destruct (point_from_p256 _); cbn [rbind] in Ep; [|done|done]. destruct (negate _); cbn [rbind] in Ep; [|done|done].
    injection Ep as <-. by fields. }
  destruct Hkeep as (K1 & K2 & K3 & K4). rewrite Ep. cbn [rbind].
  destruct (commit_element s1) as [|x y] eqn:Ef.
  - left. unfold write_commit. rewrite Ef. split; [done|].
    unfold unusable_with. rewrite <- (client_job_config c0 c bssid (jn_config _ _ J)). exists s. split; [exact E|]. destruct (is_identity (pmul p ms)) eqn:Ei.
    + apply pmul_prime_order in Ei as [Ei|Ei]; [|done]. by apply (repr_infinity _ p).
    + exfalso. destruct Hc as (_ & _ & _ & He). by apply (pneg_infinity _ _ He Ei).
  - assert (Hfin : commit_element s1 <> Infinity) by (by rewrite Ef).
    assert (Hheld : sae_held s1).
    { apply (committed_held s p rs ms); try done; rewrite ?H1, ?H2, ?H3, ?H4, ?K1, ?K2, ?K3, ?K4, Es; done. }
    destruct Hc as (_ & _ & _ & He). destruct (point_bin_roundtrip _ _ He Hfin) as (xy & Hbin & Ha & _).
    destruct (commit_core s1 xy Hbin Ha) as [Ew _]. rewrite Ew. cbn [rbind].
    match goal with |- context [with_mld_element ?c' ?b'] => destruct (with_mld_total c' b') as (b & ->) end.
    cbn [rbind]. set (c1 := c <| cl_draws := d2 |>).
    assert (J1 : joining c0 c1) by (by apply joining_draws).
    pose proof (send_sae_joining c0 bssid 1 (commit_status c1) b c1 out J1) as J2.
    destruct (send_sae bssid 1 (commit_status c1) b c1 out) as [c2 out2]. apply joins_val. by apply joining_sae.
Qed.

(** A repeated commit carries the token; the exchange is the same. *)
Lemma held_commit s : sae_held s -> exists b, write_commit s = Val b /\ (2 <= length b)%nat.
Proof.
  intros [(p & r & m & _ & _ & _ & He) Hf _ _ _ _ _]. destruct (point_bin_roundtrip _ _ He Hf) as (xy & Hb & Ha & _).
  destruct (commit_core s xy Hb Ha) as [E Hl]. eexists. split; [exact E|]. rewrite length_app, Hl. unfold COMMIT_LEN, PRIME_LEN. lia.
Qed.

Lemma requested_token_total h2e payload : exists o, requested_token h2e payload = Val o.
Proof.
  unfold requested_token. destruct h2e.
  - destruct (Nat.eqb_spec (length payload) (2 + 3 + 32)); cbn [negb]; [|by eexists]. rust_steps.
    destruct (_ || _); [by eexists|]. rust_steps. by eexists.
  - destruct (Nat.eqb_spec (length payload) (2 + 32)); cbn [negb]; [|by eexists]. rust_steps. by eexists.
Qed.

Lemma resend_commit_joins hole payload c0 c out : joining c0 c -> joins hole c0 (resend_commit payload c out).
Proof.
  intros J. unfold resend_commit. destruct (requested_token_total (cl_sae_h2e c) payload) as (o & ->). cbn [rbind].
  pose proof (ci_sae c (jn_inv _ _ J)) as Hs.
  destruct o as [token|]; [|by apply joins_val]. destruct (cl_sae c) as [s|]; [|by apply joins_val].
  destruct (held_commit s Hs) as (b & -> & Hl). cbn [rbind].
  assert (exists b', commit_with_token (cl_sae_h2e c) b token = Val b') as (b' & ->).
  { unfold commit_with_token. destruct (cl_sae_h2e c); [by eexists|]. rust_steps. by eexists. }
  cbn [rbind]. destruct (with_mld_total c b') as (b2 & ->). cbn [rbind].
  destruct (cl_bssid c); [by apply joins_send|by apply joins_val].
Qed.

(** Accepting the peer's commit keeps the exchange held. *)
Lemma held_stored s v Q rej : sae_held s -> 1 < v < curve_n -> Q <> Infinity -> (exists q, repr Q q) ->
  wf_bytes (default [] rej) -> sae_held (store_commit s v Q rej).
Proof.
  intros [Hc Hf Ho _ Hn Hk _] Hv HQ (q & Hq) Hr. unfold store_commit.
  constructor; fields; try assumption. right. by exists v, Q, q.
Qed.

Lemma held_keyed s keys ab : sae_held s -> arr 64 keys -> sae_held (Sae.keyed s keys ab).
Proof.
  intros [Hc Hf Ho Hr Hn _ Hp] [Hl Hw]. constructor; try assumption. right. unfold Sae.keyed. fields.
  split; [auto with bytes|]. split; apply arr_sub; try lia; [done| |].
  - apply (arr_wf 32), to_repr_arr.
  - rewrite (arr_length _ _ (to_repr_arr ab)). lia.
Qed.

Lemma held_confirm s : sae_held s -> peer_scalar s <> None -> wf_bytes (sae_kck s) ->
  exists v s', write_confirm s = Val (v, s') /\ sae_held s'.
Proof.
  intros Hh Hp Hk. pose proof Hh as [Hc Hf Ho Hr Hn Hks [[Hs _]|(v & Q & q & Hv & Hvn & HQ & HQi & Hq)]]; [done|].
  unfold write_confirm. destruct (Z.eqb_spec (send_confirm s) 0xffff); [by exists (Err SendConfirmExhausted), s|].
  rewrite Hv, HQ. cbn [expect rbind].
  match goal with |- context [cn_confirm ?a ?b ?c ?d ?e ?f] =>
    destruct (cn_confirm_total a b c d e f) as (m & -> & _); [done|done|by fields|] end.
  cbn [rbind]. do 2 eexists. split; [done|]. constructor; fields; try assumption; [lia|]. right. by exists v, Q, q.
Qed.

Lemma answer_commit_joins fuel payload c0 c out : joining c0 c -> wf_bytes payload -> entropy_yields fuel ->
  joins (exists b, cl_bssid c = Some b /\ unusable_with b c0) c0 (answer_commit fuel payload c out).
Proof.
  intros J Hw Hy. unfold answer_commit. pose proof (ci_sae c (jn_inv _ _ J)) as Hs.
  destruct (cl_sae c) as [s|]; [|by apply joins_val]. cbn in Hs.
  destruct (parse_peer_commit_total s payload Hw) as (v & s1 & -> & Hv). cbn [rbind].
  destruct v as [[]|e]; [|subst s1; apply joins_val; by apply joining_sae].
  destruct Hv as (v & Q & rej & -> & Hvn & HQ & Hq & Hr & _).
  pose proof (held_stored s v Q rej Hs Hvn HQ Hq Hr) as H1. set (s1 := store_commit s v Q rej) in *.
  assert (J1 : joining c0 (c <| cl_sae := Some s1 |>)) by (by apply joining_sae).
  destruct (is_reflection s1); [by apply joins_val|].
  pose proof H1 as [(p & r & m & Hc) _ Ho Hrj _ _ [[Hn _]|Hp]]; [done|].
  assert (A : holding s1 p r m) by exact (conj Hc (conj Ho (conj Hrj Hp))).
  destruct (process_commit_total s1 p r m A) as (pv & s2 & -> & Hpv). cbn [rbind].
  set (c1 := c <| cl_sae := Some s1 |>) in *.
  destruct pv as [[]|e]; [|destruct Hpv as [_ ->]; apply joins_val; by apply joining_sae].
  destruct Hpv as (keys & ab & Hkeys & ->). pose proof (held_keyed s1 keys ab H1 Hkeys) as H2.
  destruct (held_confirm (Sae.keyed s1 keys ab) H2) as (cv & s3 & -> & H3); [done|destruct Hkeys; unfold Sae.keyed; fields; auto with bytes|].
  cbn [rbind]. set (c2 := c1 <| cl_sae := Some (Sae.keyed s1 keys ab) |>).
  assert (J3 : joining c0 (c2 <| cl_sae := Some s3 |>)) by (do 2 (apply joining_sae; [|done]); done).
  set (c3 := c2 <| cl_sae := Some s3 |>) in *. destruct cv as [f|e].
  - destruct (with_mld_total c3 f) as (f' & ->). cbn [rbind].
    destruct (cl_bssid c3); [by apply joins_send|by apply joins_val].
  - assert (J4 : joining c0 (c3 <| cl_sae := None |>)) by (by apply joining_sae).
    pose proof (co_bssid _ (ci_ok _ (jn_inv _ _ J4))) as Hb.
    change (cl_bssid (c3 <| cl_sae := None |>)) with (cl_bssid c) in *.
    destruct (cl_bssid c) as [b|]; [|by apply joins_val].
    eapply joins_weaken; [|by apply start_sae_joins]. intros Hu. by exists b.
Qed.

Lemma build_assoc_req_mld_total bssid sta mld l1 ssid sc : exists f, build_assoc_req_mld bssid sta mld l1 ssid sc = Val f.
Proof.
  unfold build_assoc_req_mld, multi_link_sta. cbv zeta.
  match goal with |- context [ext_ie ?x ?d] => destruct (ext_ie_total x d) as (e & ->) end. by eexists.
Qed.

Lemma assoc_after_sae_joins hole bssid c0 c out : joining c0 c -> joins hole c0 (assoc_after_sae bssid c out).
Proof.
  intros J. unfold assoc_after_sae. destruct (client_next_sc c) as [q c1] eqn:E.
  assert (J1 : joining c0 c1) by (unfold client_next_sc in E; injection E as _ <-; by apply joining_sc).
  destruct (cl_mld_mac c1) as [mld|]; [|by apply joins_val]. destruct (cl_link1_mac c1) as [l1|]; [|by apply joins_val].
  destruct (build_assoc_req_mld_total bssid (cl_mac c1) mld l1 (cl_ssid c1) q) as (f & ->). by apply joins_val.
Qed.

(** A confirm can only go wrong on an exchange that has no key. *)
Lemma accept_confirm_joins now payload c0 c out : joining c0 c ->
  joins (unkeyed_confirm c) c0 (accept_confirm now payload c out).
Proof.
  intros J. unfold accept_confirm. pose proof (ci_sae c (jn_inv _ _ J)) as Hs.
  destruct (cl_sae c) as [s|] eqn:Ecs; [|by apply joins_val]. cbn in Hs.
  pose proof Hs as [Hc Hf Ho Hr Hn Hks Hp].
  assert (Hcf : exists v s', check_confirm s payload = Val (v, s') /\ sae_held s' /\ sae_kck s' = sae_kck s /\
    sae_pmk s' = sae_pmk s /\ sae_pmkid s' = sae_pmkid s /\ (v = Ok tt -> peer_scalar s <> None)).
  { unfold check_confirm. destruct (Nat.ltb_spec (length payload) (2 + 32)) as [|Hl]; [by exists (Err BadFormat), s|].
    rust_steps. destruct Hp as [[E1 E2]|(v & Q & q & Hv & Hvn & HQ & HQi & Hq)].
    - rewrite E1. by exists (Err NotReady), s.
    - rewrite Hv, HQ. set (sc := le_val _).
      destruct (cn_confirm_total s sc v Q (commit_scalar s) (commit_element s)) as (f & -> & _); [done|done| |].
      { destruct Hks as [[-> _]|[Hk _]]; [constructor|done]. }
      cbn [rbind]. rust_steps. destruct (negb _); [by exists (Err BadConfirm), s|].
      assert (Hh : sae_held (s <| last_peer_send_confirm := Some sc |>))
        by (constructor; fields; try assumption; right; by exists v, Q, q).
      destruct (last_peer_send_confirm s) as [h|]; [destruct (_ <=? _); [by exists (Err ReplayedConfirm), s|]|];
        exists (Ok tt); by eexists. }
  destruct Hcf as (v & s1 & -> & H1 & K1 & K2 & K3 & Hpeer). cbn [rbind].
  assert (J1 : joining c0 (c <| cl_sae := Some s1 |>)) by (by apply joining_sae).
  destruct v as [[]|e]; [|by apply joins_val]. specialize (Hpeer eq_refl).
  destruct Hks as [(E1 & E2 & E3)|(_ & Hpmk & Hid)].
  - rewrite K2, E2. cbn [length Nat.eqb negb orb]. left. split; [done|]. by exists s.
  - rewrite K2, K3. destruct (Hpmk) as [-> _], (Hid) as [-> _]. cbn [Nat.eqb negb orb].
    set (c1 := c <| cl_sae := Some s1 |>) in *.
    assert (J2 : joining c0 (set_sae_pmk (Some (sae_pmk s)) c1)) by (by apply joining_pmk).
    pose proof (co_bssid _ (ci_ok _ (jn_inv _ _ J2))) as Hb.
    destruct (cl_bssid (set_sae_pmk (Some (sae_pmk s)) c1)) as [b|]; [|by apply joins_val].
    apply assoc_after_sae_joins. apply joining_cache; [done|]. done.
Qed.

Lemma client_sae_joins fuel now seq status payload c0 c out : joining c0 c -> wf_bytes payload -> entropy_yields fuel ->
  joins ((exists b, cl_bssid c = Some b /\ unusable_with b c0) \/ unkeyed_confirm c) c0 (client_handle_sae_auth fuel now seq status payload c out).
Proof.
  intros J Hw Hy. unfold client_handle_sae_auth. repeat case_match; try by apply joins_val.
  - by apply resend_commit_joins.
  - eapply joins_weaken; [|by apply answer_commit_joins]. by left.
  - eapply joins_weaken; [|by apply accept_confirm_joins]. by right.
Qed.

(** ** Beacons *)

(** A WMM information or parameter element. *)
Definition is_wmm (t : Z * bytes) : bool :=
  (t.1 =? 221) && (6 <=? length t.2)%nat
  && (beq (sub t.2 0 4) [0x00; 0x50; 0xf2; 0x02] && ((nth 4 t.2 0 =? 0) || (nth 4 t.2 0 =? 1))).

Lemma has_wmm_spec ies : has_wmm ies = Val (existsb is_wmm (elements ies)).
Proof.
  apply (walker_spec ies (fun i => i) _ (fun i => existsb is_wmm (elements (drop i ies)))); [|lia].
  intros i Hi. unfold has_wmm_step. walk i; [leave| |leave].
  rust_steps. cbn [existsb]. set (t := (nth i ies 0, sub ies (i + 2) e)).
  assert (Hl : length (sub ies (i + 2) e) = Z.to_nat (nth (i + 1) ies 0)) by (rewrite length_sub by lia; unfold e; lia).
  unfold is_wmm. cbn [fst snd t].
  destruct ((nth i ies 0 =? 221) && (6 <=? length (sub ies (i + 2) e))%nat) eqn:Hg; cbn [andb rbind].
  - apply andb_true_iff in Hg as [_ Hg]. apply Nat.leb_le in Hg. rewrite slice_ok, idx_ok by lia. cbn [rbind].
    destruct (beq _ _ && _); [leave|next].
  - next.
Qed.

Lemma beacon_matches_total c frame : exists v, beacon_matches c frame = Val v /\
  (v = true -> (12 <= length (body frame))%nat).
Proof.
  unfold beacon_matches. destruct (_ && _); [by exists false|].
  destruct (negb (beq (addr1 frame) _)); [by exists false|]. destruct (negb (beq (addr2 frame) _)); [by exists false|].
  destruct (Nat.ltb_spec (length (body frame)) 12) as [|Hl]; [by exists false|]. cbn [orb].
  destruct (match cl_target_bssid c with Some _ => _ | None => _ end); [by exists false|]. rust_steps.
  rewrite !find_ie_strict_spec. cbn [rbind].
  assert (Hall : forall v : bool, exists v', Val v = Val v' /\ (v' = true -> (12 <= length (body frame))%nat)) by eauto.
  repeat case_match; auto.
Qed.

Lemma learn_channel_joining frame c0 c : joining c0 c -> wf_bytes (body frame) ->
  exists c', learn_channel frame c = Val c' /\ joining c0 c'.
Proof.
  intros J Hw. unfold learn_channel. destruct (Nat.ltb_spec 12 (length (body frame))); [|by exists c]. rust_steps.
  rewrite find_ie_spec. cbn [rbind]. eexists. split; [done|].
  destruct (head _) as [[|ch ds]|] eqn:E; [done| |done]. apply joining_channel; [done|].
  apply head_Some_elem_of in E. unfold bodies in E. apply list_elem_of_fmap in E as (t & E & Ht).
  apply list_elem_of_filter in Ht as [_ Ht].
  pose proof (elements_wf (drop 12 (body frame)) ltac:(auto with bytes)) as He. rewrite Forall_forall in He.
  specialize (He t Ht). rewrite <- E in He. by apply Forall_cons in He as [He _].
Qed.

Lemma reset_joining c : client_inv c -> cl_connected c <= 2 -> joining c (reset_session_keys c).
Proof.
  intros I Hc. constructor; [constructor; [apply reset_ok; [apply I|lia]|..]| |].
  - exact (ci_sae c I).
  - exact (ci_cache c I).
  - exact Logic.I.
  - exact Logic.I.
  - reflexivity.
  - exact Hc.
Qed.

Lemma send_open_joins hole bssid c0 c out : joining c0 c -> joins hole c0 (Val (send_open_auth bssid c out)).
Proof. intros J. unfold send_open_auth, client_next_sc. apply joins_val. by apply joining_sc. Qed.

Lemma start_join_joins fuel now frame c out : client_inv c -> cl_connected c <= 2 -> dot11_ok frame ->
  (12 <= length (body frame))%nat -> entropy_yields fuel ->
  joins (unusable_with (addr2 frame) c) c (start_join fuel now frame c out).
Proof.
  intros I Hc Hd Hl Hy. unfold start_join. rust_steps. rewrite has_wmm_spec. cbn [rbind].
  assert (J1 : joining c (expire_cached_pmksa now c)).
  { unfold expire_cached_pmksa, set_cached_pmksa.
    assert (J0 : joining c c) by (constructor; done). repeat case_match; try done. by apply joining_cache. }
  assert (Ha : arr 6 (addr2 frame)) by apply Hd. assert (Hw : wf_bytes (body frame)) by apply Hd.
  set (c1 := (reset_session_keys (expire_cached_pmksa now c)) <| cl_bssid := Some (addr2 frame) |>).
  assert (J2 : joining c c1).
  { apply joining_bssid; [|done]. destruct (reset_joining (expire_cached_pmksa now c)) as [R1 R2 R3]; [apply J1..|].
    constructor; [done|rewrite R2; apply J1|done]. }
  set (c2 := note_ap_activity now _).
  assert (J3 : joining c c2) by (apply joining_note, joining_state; [by apply joining_wmm|lia]).
  destruct (learn_channel_joining frame c c2 J3 Hw) as (c3 & -> & J4). cbn [rbind].
  assert (Hgo : joins (unusable_with (addr2 frame) c) c (if cl_sae_enabled c3 then start_sae fuel (addr2 frame) c3 out
    else Val (send_open_auth (addr2 frame) c3 out))).
  { destruct (cl_sae_enabled c3); [by apply start_sae_joins|by apply send_open_joins]. }
  pose proof (ci_cache c3 (jn_inv _ _ J4)) as Hk. destruct (cl_cached_pmksa c3) as [[[b i] k]|]; [|done]. cbn in Hk.
  destruct (beq b (addr2 frame)); [|done]. apply send_open_joins, joining_reconnect, joining_pmk; [done|apply Hk].
Qed.

(** ** Authentication and association *)

Lemma send_assoc_req_joins hole fuel bssid c0 c out : joining c0 c -> entropy_yields fuel ->
  joins hole c0 (send_assoc_req fuel bssid c out).
Proof.
  intros J Hy. unfold send_assoc_req. destruct (client_next_sc c) as [q c1] eqn:E.
  assert (J1 : joining c0 c1) by (unfold client_next_sc in E; injection E as _ <-; by apply joining_sc).
  destruct (if cl_pmksa_reconnect c1 then cl_cached_pmksa c1 else None) as [[[? i] ?]|]; [by apply joins_val|].
  destruct (cl_owe c1).
  - destruct (owe_private_found fuel (cl_draws c1) (Hy _)) as (k & d & -> & Hk & Hka). cbn [rbind].
    destruct (owe_public_ok k Hk Hka) as (x & -> & Hx). cbn [rbind]. apply joins_val. destruct Hx as [_ Hx].
    apply joining_owe; [by apply joining_draws|done..].
  - destruct (cl_mld_mac c1) as [mld|]; [|by apply joins_val]. destruct (cl_link1_mac c1) as [l1|]; [|by apply joins_val].
    destruct (build_assoc_req_mld_total bssid (cl_mac c1) mld l1 (cl_ssid c1) q) as (f & ->). by apply joins_val.
Qed.

Lemma handle_auth_joins fuel now frame c out : client_inv c -> cl_connected c <= 2 -> dot11_ok frame ->
  entropy_yields fuel ->
  joins ((exists b, cl_bssid c = Some b /\ unusable_with b c) \/ unkeyed_confirm c) c (handle_auth_frame fuel now frame c out).
Proof.
  intros I Hc Hd Hy. assert (J : joining c c) by (constructor; done). unfold handle_auth_frame.
  destruct (_ || _); [by apply joins_val|]. assert (Hw : wf_bytes (body frame)) by apply Hd.
  destruct (parse_auth_total (body frame) Hw) as (o & -> & _ & Ho). cbn [rbind]. destruct o as [a|]; [|by apply joins_val].
  destruct (auth_algo a =? AUTH_ALG_SAE).
  - destruct (negb (cl_sae_enabled c)); [by apply joins_val|].
    assert (Hp : wf_bytes (auth_payload a)).
    { rewrite (Ho a eq_refl) in Hw. by apply wf_bytes_app_iff in Hw as [_ [_ [_ Hw]%wf_bytes_app_iff]%wf_bytes_app_iff]. }
    destruct (client_sae_joins fuel now (auth_seq a) (auth_status a) (auth_payload a) c c out J Hp Hy)
      as [[-> Hh]|(c' & out' & -> & J')]; [left; by split|]. cbn [rbind]. apply joins_val.
    destruct (_ =? _)%nat; [done|by apply joining_note].
  - destruct (_ || _); [by apply joins_val|]. apply send_assoc_req_joins; [|done].
    apply joining_bssid; [by apply joining_note|apply Hd].
Qed.

Lemma associated_joining now ies c0 c : joining c0 c -> exists c', associated_state now ies c = Val c' /\ joining c0 c'.
Proof.
  intros J. unfold associated_state. destruct (_ && _); [by exists c|]. rewrite has_wmm_spec.
  assert (exists w, (if cl_wmm c then if is_some (cl_mld_mac c) then Val true else Val (existsb is_wmm (elements ies))
    else Val false) = Val w) as (w & ->) by (repeat case_match; by eexists).
  cbn [rbind]. eexists. split; [done|]. apply joining_note, joining_state; [|lia]. by apply joining_negotiated.
Qed.

Lemma assoc_resp_joining now frame c : client_inv c -> cl_connected c <= 2 -> dot11_ok frame ->
  exists c', client_handle_assoc_resp now frame c = Val c' /\ joining c c'.
Proof.
  intros I Hc Hd. assert (J : joining c c) by (constructor; done). unfold client_handle_assoc_resp.
  destruct (negb (beq _ _)); [by exists c|]. destruct (negb (is_from_selected_ap _ _)); [by exists c|]. cbn [orb].
  destruct (Nat.ltb_spec (length (body frame)) 6); [by exists c|]. rust_steps.
  assert (Hw : wf_bytes (drop 6 (body frame))) by (apply wf_bytes_drop, Hd).
  destruct (negb (_ =? STATUS_SUCCESS)).
  - eexists. split; [done|]. destruct (_ && _); [|done].
    apply joining_disconnect; [by apply (joining_cache c c)|done].
  - destruct (cl_owe c); [|by apply associated_joining].
    assert (Ho : exists o, owe_response_pmk c (drop 6 (body frame)) = Val o /\ opt_ok (arr 32) o).
    { unfold owe_response_pmk. pose proof (ci_owe_priv c I) as Hk. pose proof (ci_owe_pub c I) as Hp.
      destruct (cl_owe_priv c) as [k|]; [|by exists None]. destruct (cl_owe_pub c) as [b|]; [|by exists None]. cbn in Hk, Hp.
      rewrite parse_dh_param_spec. cbn [rbind]. destruct (first_some _ _) as [[g pub]|] eqn:Ed; [|by exists None].
      assert (Hpub : wf_bytes pub) by (eapply (parse_dh_param_wf _ g pub Hw); by rewrite parse_dh_param_spec, Ed).
      destruct Hk as [Hk Hka]. destruct (owe_derive_total k pub b pub g Hk Hka Hp Hpub) as (o & -> & Hd').
      eexists. split; [done|]. destruct o as [[pmk id]|]; [|done]. by destruct (Hd' pmk id eq_refl). }
    destruct Ho as (o & -> & Hpmk). cbn [rbind]. destruct o as [pmk|]; [|by exists c].
    apply associated_joining. by apply joining_pmk.
Qed.

(** * An associated station *)

(** The installed keys and what has been authenticated. *)
Definition keys_of (c : Client) :=
  (cl_ptk_installed c, cl_eapol_replay c,
   (cl_anonce c, cl_snonce c, cl_kck c, cl_kek c, cl_tk c, cl_pairwise_tk c),
   (cl_gtk c, cl_gtk_set c, cl_gtk_key_id c, cl_igtk c, cl_igtk_key_id c, cl_bigtk c)).

(** The frame that ends a session is believed: it comes from the selected AP,
    and with management frame protection it is fresh and authenticated under the
    IGTK or the installed pairwise key. *)
Definition farewell_believed (frame : Dot11) (c : Client) : Prop :=
  is_from_selected_ap c frame = true /\
  (cl_sae_pmk c = None \/
   (exists igtk ipn, is_group_addr (addr1 frame) = true /\ cl_igtk c = Some igtk /\
      bip_verify igtk (fc0 frame) (fc1 frame) (addr1 frame) (addr2 frame) (addr3 frame) (body frame) = Val true /\
      bip_ipn (body frame) = Val (Some ipn) /\ cl_last_rx_igtk_ipn c < ipn) \/
   (exists plain pn, cl_ptk_installed c = true /\ protected frame = true /\ open_mgmt c frame = Val (Some plain) /\
      ccmp_pn frame = Val (Some pn) /\ cl_last_rx_mgmt_pn c < pn)).

(** The EAPOL-Key message a frame carries, in clear or under the pairwise key. *)
Definition carries_key (frame : Dot11) (c : Client) (eapol : bytes) (ek : EapolKey) : Prop :=
  (eapol_frame frame = Val (Some eapol) /\
   exists b, eapol_key_body frame = Val (Some b) /\ parse_eapol_key b = Val (Some ek)) \/
  (exists eth, open_downlink false frame c = Val (Some eth) /\ ethernet_eapol_key eth = Val (Some (eapol, ek))).

Definition key_vouched (frame : Dot11) (c : Client) : Prop :=
  exists eapol ek, carries_key frame c eapol ek /\ vouched c eapol ek.

(** What a frame does to an associated station. *)
Record link_effect (frame : Dot11) (c c' : Client) : Prop := {
  le_inv : client_inv c';
  le_config : config_of c' = config_of c;
  le_link : (cl_connected c' = 0 /\ farewell_believed frame c) \/
    (no_rollback c c' /\ (keys_of c' = keys_of c \/ key_vouched frame c) /\
     (cl_connected c' = cl_connected c \/ cl_connected c' = 4))
}.

Definition keeps_link (frame : Dot11) (c : Client) (r : res (Client * ClientOut)) : Prop :=
  exists c' out', r = Val (c', out') /\ link_effect frame c c'.

Lemma effect_same frame c : client_inv c -> link_effect frame c c.
Proof. intros I. constructor; [done..|]. right. split; [apply forward_no_rollback, forward_refl|]. split; by left. Qed.

Lemma keeps_val frame c out : client_inv c -> keeps_link frame c (Val (c, out)).
Proof. intros I. exists c, out. split; [done|by apply effect_same]. Qed.

(** A change that moves counters forward and keeps everything else. *)
Lemma effect_forward frame c c' : client_inv c' -> config_of c' = config_of c -> forward c c' -> keys_of c' = keys_of c ->
  cl_connected c' = cl_connected c -> link_effect frame c c'.
Proof.
  intros I Hc F Hk Hn. constructor; [done..|]. right. split; [by apply forward_no_rollback|]. split; by left.
Qed.

Lemma effect_farewell frame c c1 : client_inv c1 -> config_of c1 = config_of c -> farewell_believed frame c ->
  link_effect frame c (client_disconnect c1).
Proof.
  intros I Hc Hf. destruct (joining_disconnect c c1 I Hc) as [J1 J2 _]. constructor; [done..|]. by left.
Qed.

(** An update of the fields the invariant says nothing of, or for which the
    context has what it says. *)
Ltac keep_inv I := let Ok := fresh in pose proof (ci_ok _ I) as Ok; constructor; [keep_client_ok Ok|exact (ci_sae _ I)|
  exact (ci_cache _ I)|exact (ci_owe_priv _ I)|exact (ci_owe_pub _ I)].

Lemma inv_igtk_seen c ipn : client_inv c -> pn_ok ipn -> client_inv (c <| cl_last_rx_igtk_ipn := ipn |>).
Proof. intros I Hp. keep_inv I. Qed.
Lemma inv_mgmt_seen c pn : client_inv c -> pn_ok pn -> client_inv (c <| cl_last_rx_mgmt_pn := pn |>).
Proof. intros I Hp. keep_inv I. Qed.
Lemma inv_counted c pn sc : client_inv c -> 1 <= pn <= MAX_PACKET_NUMBER + 1 -> client_inv (counted c pn sc).
Proof. intros I Hp. unfold counted. keep_inv I. Qed.
Lemma inv_note c now : client_inv c -> client_inv (note_ap_activity now c).
Proof. intros I. unfold note_ap_activity. keep_inv I. Qed.

Lemma mgmt_sec_ok c : client_ok c -> sec_addrs_ok (client_mld_mgmt_rx_sec_addrs c).
Proof.
  intros Hok. pose proof (co_config c Hok) as Hc. pose proof (cc_mld c Hc). pose proof (cc_ap_mld c Hc).
  unfold client_mld_mgmt_rx_sec_addrs. destruct (cl_mld_mac c); [|done]. by destruct (cl_ap_mld_mac c).
Qed.

Lemma open_mgmt_total c frame : client_ok c -> dot11_ok frame -> exists o, open_mgmt c frame = Val o /\ opt_ok wf_bytes o.
Proof.
  intros Hok Hd. unfold open_mgmt. destruct (client_tk_ok c Hok) as [-> [_ Htk]]. cbn [rbind].
  unfold decrypt_protected_mgmt_sec.
  destruct (open_payload_total (cl_pairwise_cipher c) frame _ (client_mld_mgmt_rx_sec_addrs c) Hd Htk (mgmt_sec_ok c Hok))
    as (o & -> & Ho). exists o. split; [done|]. destruct o as [plain|]; [|done].
  destruct (Ho plain eq_refl) as (? & ? & ? & ? & ? & ? & ? & ? & ? & ? & ? & ? & ? & _). done.
Qed.

(** A fresh packet number, and the station that has seen it. *)
Lemma fresh_mgmt_total frame c : client_inv c -> dot11_ok frame ->
  exists o, fresh_mgmt_pn frame c = Val o /\ forall c1, o = Some c1 ->
    exists pn, ccmp_pn frame = Val (Some pn) /\ cl_last_rx_mgmt_pn c < pn /\ pn_ok pn /\
      c1 = c <| cl_last_rx_mgmt_pn := pn |>.
Proof.
  intros I Hd. unfold fresh_mgmt_pn. assert (Hw : wf_bytes (body frame)) by apply Hd.
  destruct (ccmp_pn_total frame Hw) as (o & E & _ & Hr). rewrite E. cbn [rbind]. eexists. split; [done|].
  destruct o as [pn|]; [|done]. destruct (Z.ltb_spec (cl_last_rx_mgmt_pn c) pn); [|done]. intros c1 [= <-].
  exists pn. split; [done|]. split; [done|]. split; [|done]. specialize (Hr pn eq_refl).
  unfold pn_ok, MAX_PACKET_NUMBER. lia.
Qed.

Lemma answer_sa_query_ok trans_id c out : client_ok c ->
  exists pn sc out', answer_sa_query trans_id c out = Val (counted c pn sc, out') /\
    cl_client_pn c <= pn <= MAX_PACKET_NUMBER + 1.
Proof.
  intros Hok. pose proof (co_client_pn c Hok). unfold answer_sa_query. pose proof (co_bssid c Hok) as Hb.
  assert (Hsame : exists pn sc out', Val (c, out) = Val (counted c pn sc, out') /\
    cl_client_pn c <= pn <= MAX_PACKET_NUMBER + 1).
  { exists (cl_client_pn c), (cl_sc c), out. rewrite counted_same. split; [done|lia]. }
  destruct (cl_bssid c) as [bssid|]; [|done]. cbn in Hb. unfold client_next_pn.
  destruct (Z.ltb_spec MAX_PACKET_NUMBER (cl_client_pn c)); [done|].
  set (q := (cl_sc c + 1) mod 4096).
  change (client_next_sc (c <| cl_client_pn := cl_client_pn c + 1 |>)) with (u16 (q * 16), counted c (cl_client_pn c + 1) q).
  cbv beta iota zeta. set (c1 := counted c (cl_client_pn c + 1) q).
  assert (H1 : client_ok c1) by (apply counted_ok; [done|lia]).
  destruct (client_tk_ok c1 H1) as [-> Htk]. cbn [rbind].
  pose proof (co_config c1 H1) as Hc. pose proof (cc_mac c1 Hc). pose proof (cc_mld c1 Hc) as Hm. pose proof (cc_ap_mld c1 Hc) as Ha.
  unfold build_protected_sa_query_for_cipher_sec. cbn iota.
  destruct (default (bssid, cl_mac c1, bssid) (client_mld_mgmt_tx_sec_addrs c1)) as [[s1 s2] s3] eqn:Es.
  assert (Hs : arr 6 s1 /\ arr 6 s2 /\ arr 6 s3).
  { unfold client_mld_mgmt_tx_sec_addrs in Es. destruct (cl_mld_mac c1), (cl_ap_mld_mac c1); cbn in Es, Hm, Ha;
      by injection Es as <- <- <-. }
  destruct Hs as (Hs1 & Hs2 & Hs3).
  destruct (protected_mgmt_roundtrip (cl_pairwise_cipher c1) SUBTYPE_ACTION bssid (cl_mac c1) bssid s1 s2 s3
    (client_mld_mgmt_tx_sec_addrs c1) FC_TODS (u16 (q * 16)) (cl_client_pn c) 0
    (take (key_len (cl_pairwise_cipher c1)) (cl_pairwise_tk c1)) (sa_query_body true trans_id))
    as (f & d & E & _); try done; auto.
  { unfold u16. apply Z.mod_pos_bound. lia. }
  { unfold sa_query_body. apply wf_bytes_app; [by apply (bool_decide_unpack _)|auto with bytes]. }
  rewrite E. cbn [rbind]. eexists _, _, _. split; [reflexivity|]. lia.
Qed.

Lemma handle_action_keeps frame c out : client_inv c -> dot11_ok frame -> is_from_selected_ap c frame = true ->
  keeps_link frame c (client_handle_action frame c out).
Proof.
  intros I Hd Hap. pose proof (ci_ok c I) as Hok. unfold client_handle_action.
  destruct (negb (is_some (cl_sae_pmk c))); [by apply keeps_val|].
  destruct (protected frame) eqn:Ep; cbn [negb orb]; [|by apply keeps_val].
  destruct (cl_ptk_installed c) eqn:Ei; cbn [negb orb]; [|by apply keeps_val].
  destruct (open_mgmt_total c frame Hok Hd) as (o & Eo & Hw). rewrite Eo. cbn [rbind].
  destruct o as [plain|]; [|by apply keeps_val].
  destruct (fresh_mgmt_total frame c I Hd) as (o & -> & Ho). cbn [rbind]. destruct o as [c1|]; [|by apply keeps_val].
  destruct (Ho c1 eq_refl) as (pn & Epn & Hlt & Hpn & ->). clear Ho. set (c1 := c <| cl_last_rx_mgmt_pn := pn |>).
  assert (I1 : client_inv c1) by (by apply inv_mgmt_seen).
  assert (F1 : forward c c1).
  { unfold c1. constructor; try (by split); try apply windows_refl; try reflexivity.
    change (cl_last_rx_mgmt_pn c <= pn). lia. }
  assert (Hgo : keeps_link frame c (Val (c1, out))).
  { exists c1, out. split; [done|]. by apply effect_forward. }
  destruct (_ && _ && _).
  - destruct (negb _); [|exact Hgo]. exists (client_disconnect c1), out. split; [done|].
    apply effect_farewell; [done..|]. split; [done|]. right. right. exists plain, pn. done.
  - destruct (parse_sa_query_total plain) as (o & ->). cbn [rbind]. destruct o as [[action tid]|]; [|exact Hgo].
    destruct (action =? SA_QUERY_REQUEST); [|exact Hgo].
    destruct (answer_sa_query_ok tid c1 out (ci_ok _ I1)) as (pn' & sc & out' & -> & Hr).
    pose proof (co_client_pn c1 (ci_ok _ I1)).
    exists (counted c1 pn' sc), out'. split; [done|]. apply effect_forward; [apply inv_counted; [done|lia]|reflexivity| |reflexivity..].
    destruct F1 as [K1 K2 K3 K4 K5 K6 K7 K8]. constructor; try assumption. change (cl_client_pn c <= pn'). apply Hr.
Qed.

Lemma bip_ipn_total p : wf_bytes p -> exists o, bip_ipn p = Val o /\ opt_ok pn_ok o.
Proof.
  intros Hw. unfold bip_ipn. destruct (Nat.ltb_spec (length p) 18); [by exists None|].
  rust_steps. destruct (negb _); [by exists None|]. rust_steps. eexists. split; [done|].
  apply (packet_number_ok (sub p _ _)). apply arr_sub; [done|lia|lia].
Qed.

Lemma robust_keeps frame c out : client_inv c -> dot11_ok frame -> is_from_selected_ap c frame = true ->
  keeps_link frame c (client_handle_robust_mgmt frame c out).
Proof.
  intros I Hd Hap. pose proof (ci_ok c I) as Hok. unfold client_handle_robust_mgmt.
  destruct (subtype frame =? SUBTYPE_ACTION); [by apply handle_action_keeps|].
  assert (Hx : exists o, accept_farewell frame c = Val o /\ forall c1, o = Some c1 ->
    client_inv c1 /\ config_of c1 = config_of c /\ farewell_believed frame c).
  { unfold accept_farewell. destruct (cl_sae_pmk c) as [k|] eqn:Ek; cbn [is_some negb].
    2: { exists (Some c). split; [done|]. intros c1 [= <-]. split; [done|]. split; [done|]. split; [done|]. by left. }
    destruct (is_group_addr (addr1 frame)) eqn:Eg.
    - pose proof (co_igtk c Hok) as Hi. destruct (cl_igtk c) as [igtk|] eqn:Ei; [|by exists None]. cbn in Hi.
      destruct Hd as (D0 & D1 & D2 & D3 & D4 & _ & Hb & _).
      destruct (bip_verify_sound igtk (fc0 frame) (fc1 frame) (addr1 frame) (addr2 frame) (addr3 frame) (body frame))
        as (v & Ev & _); try done. rewrite Ev. cbn [rbind]. destruct v; cbn [negb]; [|by exists None].
      destruct (bip_ipn_total (body frame) Hb) as (o & Eo & Hpn). rewrite Eo. cbn [rbind]. eexists. split; [done|].
      destruct o as [ipn|]; [|done]. destruct (Z.ltb_spec (cl_last_rx_igtk_ipn c) ipn); [|done]. intros c1 [= <-].
      split; [by apply inv_igtk_seen|]. split; [done|]. split; [done|]. right. left. by exists igtk, ipn.
    - destruct (cl_ptk_installed c) eqn:Epi; cbn [andb]; [|by exists None].
      destruct (protected frame) eqn:Ep; [|by exists None].
      destruct (open_mgmt_total c frame Hok Hd) as (o & Eo & _). rewrite Eo. cbn [rbind]. destruct o as [plain|]; [|by exists None].
      destruct (fresh_mgmt_total frame c I Hd) as (o & -> & Ho). eexists. split; [done|]. intros c1 ->.
      destruct (Ho c1 eq_refl) as (pn & Epn & Hlt & Hpn & ->). split; [by apply inv_mgmt_seen|]. split; [done|].
      split; [done|]. right. right. exists plain, pn. done. }
  destruct Hx as (o & -> & Ho). cbn [rbind]. destruct o as [c1|]; [|by apply keeps_val].
  destruct (Ho c1 eq_refl) as (I1 & Hc1 & Hf). exists (client_disconnect c1), out. split; [done|]. by apply effect_farewell.
Qed.

(** ** EAPOL and data *)

Lemma association_fields c c' : association_of c' = association_of c ->
  config_of c' = config_of c /\ cl_sae c' = cl_sae c /\ cl_cached_pmksa c' = cl_cached_pmksa c /\
  cl_owe_priv c' = cl_owe_priv c /\ cl_owe_pub c' = cl_owe_pub c.
Proof. unfold association_of, config_of. intros E. injection E. intros. split_and!; congruence. Qed.

Lemma session_keys c c' : session_of c' = session_of c -> keys_of c' = keys_of c.
Proof. unfold session_of, keys_of. intros E. injection E. intros. congruence. Qed.

(** An EAPOL message on a station the frame has already moved forward. *)
Lemma eapol_link frame c c1 eapol ek c' : client_inv c1 -> config_of c1 = config_of c -> forward c c1 ->
  keys_of c1 = keys_of c -> cl_connected c1 = cl_connected c -> (vouched c1 eapol ek -> vouched c eapol ek) ->
  carries_key frame c eapol ek -> eapol_effect eapol ek c1 c' -> link_effect frame c c'.
Proof.
  intros I Hc F Hk Hn Hv Hcar [E1 E2 E3 E4 E5]. destruct (association_fields c1 c' E2) as (A1 & A2 & A3 & A4 & A5).
  constructor; [|congruence|].
  - constructor; [done|rewrite A2|rewrite A3|rewrite A4|rewrite A5]; apply I.
  - right. split; [by eapply forward_then|]. split; [|destruct E5 as [E5|[_ E5]]; [left; congruence|by right]].
    destruct E4 as [E4|E4]; [left; apply session_keys in E4; congruence|]. right. exists eapol, ek. split; [done|auto].
Qed.

Lemma handle_eapol_keeps now frame c out : client_inv c -> dot11_ok frame -> cl_pause_m3 c = false ->
  2 <= cl_connected c -> keeps_link frame c (handle_eapol_frame now frame c out).
Proof.
  intros I Hd Hpa Hn. unfold handle_eapol_frame. destruct (_ || _); [by apply keeps_val|].
  assert (Hw : wf_bytes (body frame)) by apply Hd.
  destruct (eapol_frame_total frame Hw) as (o & Ef & Ho). rewrite Ef. cbn [rbind].
  destruct (eapol_key_body_total frame Hw) as (ob & Eb & Hob). rewrite Eb. cbn [obind rbind].
  destruct ob as [b|]; cbn [obind rbind]; [|destruct o; by apply keeps_val].
  destruct (Hob b eq_refl) as (Hbw & _). destruct (parse_eapol_key_total b Hbw) as (oe & Ee & Hoe). rewrite Ee. cbn [rbind].
  destruct o as [eapol|]; [|by apply keeps_val]. destruct oe as [ek|]; [|by apply keeps_val].
  destruct (Ho eapol eq_refl) as (_ & _ & Hew & _). destruct (Hoe ek eq_refl) as (Hek & _).
  destruct (handle_eapol_key_ok now eapol ek false c out (ci_ok c I) Hew Hek Hpa Hn) as (c' & out' & -> & _ & Hf).
  exists c', out'. split; [done|]. apply (eapol_link frame c c eapol ek c'); auto using forward_refl.
  left. split; [done|]. by exists b.
Qed.

Lemma ethernet_eapol_total eth : wf_bytes eth ->
  exists o, ethernet_eapol_key eth = Val o /\ opt_ok (fun '(f, ek) => wf_bytes f /\ eapol_key_ok ek) o.
Proof.
  intros Hw. unfold ethernet_eapol_key. destruct (Nat.ltb_spec (length eth) 18); [by exists None|]. rust_steps.
  destruct (negb _); [by exists None|]. rust_steps. set (e := drop 14 eth). assert (He : wf_bytes e) by (by apply wf_bytes_drop).
  assert (Hn : exists o : option (bytes * EapolKey), Val None = Val o /\ opt_ok (fun '(f, ek) => wf_bytes f /\ eapol_key_ok ek) o)
    by (by exists None).
  destruct (get e 1) as [k|]; [|done]. destruct (get e 2) as [h|]; [|destruct k as [|[[]|[]|]|]; done].
  destruct (get e 3) as [l|]; [|destruct k as [|[[]|[]|]|]; done].
  assert (Hgo : exists o, (let stop := (4 + Z.to_nat (be_val [h; l]))%nat in
      if (length e <? stop)%nat then Val None
      else let! eapol := slice e 0 stop in let! b := slice_from eapol 4 in
           let? key := parse_eapol_key b in Val (Some (eapol, key))) = Val o /\
      opt_ok (fun '(f, ek) => wf_bytes f /\ eapol_key_ok ek) o).
  { cbv zeta. set (n := (4 + Z.to_nat (be_val [h; l]))%nat). assert (4 <= n)%nat by lia.
    destruct (Nat.ltb_spec (length e) n); [done|]. rewrite slice_prefix by lia. cbn [rbind].
    rewrite slice_from_ok by (rewrite length_take; lia). cbn [rbind].
    assert (Hd : wf_bytes (drop 4 (take n e))) by auto with bytes.
    destruct (parse_eapol_key_total _ Hd) as (o & -> & Ho). cbn [obind rbind]. destruct o as [ek|]; [|done].
    eexists. split; [done|]. destruct (Ho ek eq_refl) as [Hek _]. split; [auto with bytes|done]. }
  destruct k as [|[[]|[]|]|]; done.
Qed.

Lemma downlink_sec_ok use_group frame c : client_ok c -> dot11_ok frame -> sec_addrs_ok (downlink_sec_addrs use_group frame c).
Proof.
  intros Hok Hd. pose proof (co_config c Hok) as Hc. pose proof (cc_mld c Hc). pose proof (cc_ap_mld c Hc).
  unfold downlink_sec_addrs. destruct (cl_mld_mac c); [|done]. destruct (cl_ap_mld_mac c); [|done].
  destruct (cl_bssid c); [|done]. destruct use_group; [done|]. split; [done|]. split; [done|].
  destruct (beq _ _); [done|]. by destruct Hd as (_ & _ & _ & _ & H3 & _).
Qed.

Lemma open_downlink_total use_group frame c : client_ok c -> dot11_ok frame ->
  exists o, open_downlink use_group frame c = Val o /\ opt_ok wf_bytes o.
Proof.
  intros Hok Hd. pose proof (downlink_sec_ok use_group frame c Hok Hd) as Hs.
  assert (Hdec : forall cipher tk, wf_bytes tk -> exists o,
    decrypt_protected_data_sec cipher frame tk true (downlink_sec_addrs use_group frame c) = Val o /\ opt_ok wf_bytes o).
  { intros cipher tk Htk.
    destruct (decrypt_protected_data_sound cipher frame tk true _ Hd Htk Hs) as (o & E & Ho). exists o. split; [done|].
    destruct o as [eth|]; [|done].
    destruct (Ho eth eq_refl) as (? & ? & ? & ? & ? & ? & ? & ? & ? & ? & ? & ? & ? & ? & ? & Hw & _). exact Hw. }
  unfold open_downlink. destruct use_group; [apply Hdec, (co_gtk c Hok)|].
  destruct (client_tk_ok c Hok) as [-> [_ Htk]]. cbn [rbind]. by apply Hdec.
Qed.

Lemma window_insert (l : list Z) i pn x : l !! i = Some x -> x <= pn -> Forall2 Z.le l (<[i := pn]> l).
Proof.
  revert i. induction l as [|y l IH]; intros [|i] E Hle; try done.
  - injection E as ->. constructor; [done|apply windows_refl].
  - constructor; [lia|]. by apply IH.
Qed.

Lemma window_insert_ok w i pn : window_ok w -> pn_ok pn -> window_ok (<[i := pn]> w).
Proof. intros [Hl Hw] Hp. split; [by rewrite length_insert|by apply Forall_insert]. Qed.

(** The station that has seen packet [pn] in window [i]. *)
Lemma downlink_seen_forward use_group i pn now c x : client_inv c -> pn_ok pn ->
  downlink_window use_group c !! i = Some x -> x < pn ->
  let c1 := note_ap_activity now (downlink_seen use_group i pn c) in
  client_inv c1 /\ config_of c1 = config_of c /\ forward c c1 /\ keys_of c1 = keys_of c /\
  cl_connected c1 = cl_connected c /\ cl_pending_ptk c1 = cl_pending_ptk c /\ association_of c1 = association_of c.
Proof.
  intros I Hp Hx Hlt. pose proof (ci_ok c I) as Hok. cbv zeta. unfold downlink_seen, note_ap_activity.
  assert (Hf : Forall2 Z.le (downlink_window use_group c) (<[i := pn]> (downlink_window use_group c)))
    by (eapply window_insert; [exact Hx|lia]).
  destruct use_group; cbn [downlink_window] in *.
  - assert (window_ok (<[i := pn]> (cl_last_rx_gpn c))) by (apply window_insert_ok; [apply Hok|done]).
    split; [keep_inv I|]. split; [reflexivity|]. split; [|by split_and!].
    constructor; [by split_and!|by split|reflexivity|apply windows_refl|exact Hf|reflexivity..].
  - assert (window_ok (<[i := pn]> (cl_last_rx_pn c))) by (apply window_insert_ok; [apply Hok|done]).
    split; [keep_inv I|]. split; [reflexivity|]. split; [|by split_and!].
    constructor; [by split_and!|by split|reflexivity|exact Hf|apply windows_refl|reflexivity..].
Qed.

Lemma vouched_same c c1 eapol ek : keys_of c1 = keys_of c -> cl_pending_ptk c1 = cl_pending_ptk c ->
  association_of c1 = association_of c -> vouched c1 eapol ek -> vouched c eapol ek.
Proof.
  intros Hk Hp Ha. unfold vouched, client_key_mic.
  assert (E : cl_psk_sha256 c1 = cl_psk_sha256 c /\ cl_sae_pmk c1 = cl_sae_pmk c /\ cl_owe c1 = cl_owe c)
    by (unfold association_of in Ha; injection Ha; intros; done).
  assert (E' : cl_ptk_installed c1 = cl_ptk_installed c /\ cl_eapol_replay c1 = cl_eapol_replay c /\ cl_kck c1 = cl_kck c)
    by (unfold keys_of in Hk; injection Hk; intros; done).
  destruct E as (-> & -> & ->), E' as (-> & -> & ->). by rewrite Hp.
Qed.

Lemma handle_downlink_keeps now frame c out : client_inv c -> dot11_ok frame -> cl_pause_m3 c = false ->
  2 <= cl_connected c -> keeps_link frame c (handle_downlink now frame c out).
Proof.
  intros I Hd Hpa Hn. pose proof (ci_ok c I) as Hok. assert (Hw : wf_bytes (body frame)) by apply Hd.
  unfold handle_downlink. destruct (_ || _); [by apply keeps_val|].
  destruct (ccmp_key_id_total frame Hw) as (kid & -> & _). cbn [rbind].
  destruct (negb _ && _); [by apply keeps_val|]. set (ug := (kid =? cl_gtk_key_id c) && negb (kid =? 0)).
  destruct (ug && _); [by apply keeps_val|]. destruct (negb ug && _); [by apply keeps_val|].
  destruct (ccmp_pn_total frame Hw) as (o & -> & _ & Hr). cbn [rbind]. destruct o as [pn|]; [|by apply keeps_val].
  assert (Hpn : pn_ok pn) by (specialize (Hr pn eq_refl); unfold pn_ok, MAX_PACKET_NUMBER; lia).
  set (i := replay_index frame).
  assert (Hi : (i < length (downlink_window ug c))%nat).
  { assert (length (downlink_window ug c) = 17%nat) as -> by (destruct ug; apply Hok). by apply replay_index_bound. }
  destruct (lookup_lt_is_Some_2 _ _ Hi) as [x Hx]. unfold idx at 1. rewrite Hx. cbn [rbind].
  destruct (Z.leb_spec pn x); [by apply keeps_val|].
  destruct (open_downlink_total ug frame c Hok Hd) as (o & Eo & Heth). rewrite Eo. cbn [rbind].
  destruct o as [eth|]; [|by apply keeps_val]. cbn in Heth.
  destruct (downlink_seen_forward ug i pn now c x I Hpn Hx ltac:(lia)) as (I1 & C1 & F1 & K1 & N1 & P1 & A1).
  set (c1 := note_ap_activity now (downlink_seen ug i pn c)) in *.
  assert (Hgo : forall out', keeps_link frame c (Val (c1, out'))).
  { intros out'. exists c1, out'. split; [done|]. by apply effect_forward. }
  unfold deliver_downlink. case_bool_decide; [|apply Hgo]. destruct ug; [apply Hgo|].
  destruct (ethernet_eapol_total eth Heth) as (o & Ee & Ho). rewrite Ee. cbn [rbind].
  destruct o as [[eapol ek]|]; [|apply Hgo]. destruct Ho as [Hew Hek].
  assert (Hpa1 : cl_pause_m3 c1 = false) by (rewrite <- Hpa; exact (f_equal (fun a => a.2.2) A1)).
  destruct (handle_eapol_key_ok now eapol ek true c1 out (ci_ok c1 I1) Hew Hek Hpa1 ltac:(lia)) as (c' & out' & -> & _ & Hf).
  exists c', out'. split; [done|]. apply (eapol_link frame c c1 eapol ek c' I1 C1 F1 K1 N1); [by apply vouched_same| |done].
  right. by exists eth.
Qed.

End Sae.
