(* ===== verification/Station.v ===== *)
(** The station as a whole: runs of received octet strings, uplink packets and
    ticks, what such a run keeps, and what it takes to end or to change a
    session. *)
From S2P Require Import Prelude Elements Crypto Security Frames Channels DataProt Kde Rsn Advert Mlo Eapol Sae Failures Roaming Ap ApConfig ApEapol Demo Handshake FourWay ApData ApMgmt ApKeys ApBeacon ApRates ApAdmit ApSae ApExchange ApSystem Client ClientKeys ClientRx ClientOk ClientSafe ClientRun.

(** A packet handed to the station fits the length field of its frame. *)
Definition event_ok (e : client_event) : Prop :=
  match e with
  | Heard _ _ octets => wf_bytes octets
  | Uplink eth => wf_bytes eth /\ Z.of_nat (length eth) < 2 ^ 16
  | Tick _ => True
  end.

(** The 802.11 frame an event delivers. *)
Definition hears (e : client_event) (frame : Dot11) : Prop :=
  match e with
  | Heard _ _ octets => exists f, strip_radiotap octets = Val (Some f) /\ parse f = Val (Some frame)
  | _ => False
  end.

(** A run of events, and what each of them sends. *)
Fixpoint client_run `{Entropy} `{Primitives} `{P256} (fuel : nat) (es : list client_event) (c : Client) :
    res (Client * list ClientOut) :=
  match es with
  | [] => Val (c, [])
  | e :: es =>
      let! '(c, out) := client_step fuel e c in
      let! '(c, outs) := client_run fuel es c in
      Val (c, out :: outs)
  end.

Section Station.
Context {E0 : Entropy} {E0ok : EntropyOk E0} {P : Primitives} {Pok : PrimitivesOk P} {C : P256} {Cok : P256Ok C}.

(** What an event does to an associated station: what the frame it delivers
    does, a move of counters, or the timeout. *)
Definition step_link (e : client_event) (c c' : Client) : Prop :=
  (exists frame, hears e frame /\ link_effect frame c c') \/
  (forward c c' /\ keys_of c' = keys_of c /\ cl_connected c' = cl_connected c) \/
  (exists now, e = Tick now /\ client_timed_out now c = true /\ c' = client_disconnect c).

(** The two holes, which only a station that is not associated yet can fall
    into: the password element it shares with the access point it turns to (the
    one whose beacon it has heard, or the one it is exchanging commits with) is
    unusable, or it holds a commit without a key. *)
Definition station_hole (e : client_event) (c : Client) : Prop :=
  exists frame, hears e frame /\
    ((cl_connected c = 0 /\ unusable_with (addr2 frame) c) \/
     (cl_connected c = 1 /\ ((exists b, cl_bssid c = Some b /\ unusable_with b c) \/ unkeyed_confirm c))).

Definition steps_well (e : client_event) (c : Client) (r : res (Client * ClientOut)) : Prop :=
  (r = Panic /\ station_hole e c) \/
  exists c' out', r = Val (c', out') /\ client_inv c' /\ config_of c' = config_of c /\
    (2 <= cl_connected c -> step_link e c c').

Lemma steps_joining hole e c r : cl_connected c <= 1 -> (hole -> station_hole e c) -> joins hole c r -> steps_well e c r.
Proof.
  intros Hc Hole [[-> Hh]|(c' & out' & -> & J)]; [left; auto|right]. exists c', out'. split; [done|].
  split; [apply J|]. split; [apply J|lia].
Qed.

Lemma steps_linked e frame c r : hears e frame -> keeps_link frame c r -> steps_well e c r.
Proof.
  intros Hh (c' & out' & -> & L). right. exists c', out'. split; [done|]. split; [apply L|]. split; [apply L|].
  intros _. left. by exists frame.
Qed.

Lemma steps_same e c out : client_inv c -> steps_well e c (Val (c, out)).
Proof.
  intros I. right. exists c, out. split; [done|]. split; [done|]. split; [done|]. intros _. right. left.
  split; [apply forward_refl|done].
Qed.

Lemma note_forward now c : forward c (note_ap_activity now c).
Proof. constructor; try (by split); try apply windows_refl; reflexivity. Qed.

Lemma dispatch_well fuel now e frame c out : client_inv c -> cl_pause_m3 c = false -> dot11_ok frame ->
  entropy_yields fuel -> hears e frame -> steps_well e c (client_dispatch fuel now frame c out).
Proof.
  intros I Hpa Hd Hy He. unfold client_dispatch. pose proof (co_connected c (ci_ok c I)) as Hr.
  assert (J : cl_connected c <= 1 -> joining c c) by (intros; constructor; [done..|lia]).
  assert (Hm : exists v, (if (frame_type frame =? TYPE_MGMT) && (subtype frame =? SUBTYPE_BEACON)
      then beacon_matches c frame else Val false) = Val v /\ (v = true -> (12 <= length (body frame))%nat)).
  { destruct (_ && _); [apply beacon_matches_total|by exists false]. }
  destruct Hm as (v & -> & Hv). cbn [rbind].
  destruct (_ && is_robust frame) eqn:Erob.
  { destruct (is_from_selected_ap c frame) eqn:Eap; cbn [negb]; [|by apply steps_same].
    eapply steps_linked; [exact He|]. by apply robust_keeps. }
  destruct (Z.eqb_spec (cl_connected c) 0) as [H0|H0].
  { destruct v; cbn [andb].
    - eapply steps_joining; [lia| |apply start_join_joins; try done; [lia|by apply Hv]].
      intros Hu. exists frame. split; [done|]. by left.
    - rewrite H0. cbn [Z.eqb Z.ltb Z.compare andb].
      destruct (is_eapol_total frame) as (b & -> & _). cbn [rbind]. by apply steps_same. }
  cbn [andb]. destruct (Z.eqb_spec (cl_connected c) 1) as [H1|H1]; cbn [andb].
  { destruct (_ && (subtype frame =? SUBTYPE_AUTH)).
    { eapply steps_joining; [lia| |apply handle_auth_joins; try done; lia].
      intros Hu. exists frame. split; [done|]. by right. }
    destruct (_ && (subtype frame =? SUBTYPE_ASSOC_RESP)).
    { apply (steps_joining False); [lia|done|]. destruct (assoc_resp_joining now frame c I ltac:(lia) Hd) as (c' & -> & J').
      by apply joins_val. }
    destruct (_ && v); [apply (steps_joining False); [lia|done|]; by apply joins_val, joining_note, J; lia|].
    rewrite H1. destruct (is_eapol_total frame) as (b & -> & _). cbn. by apply steps_same. }
  destruct (_ && v).
  { eapply steps_linked; [exact He|]. exists (note_ap_activity now c), out. split; [done|].
    apply effect_forward; [by apply inv_note|done|by apply note_forward|done..]. }
  destruct (is_eapol_total frame) as (b & -> & _). cbn [rbind].
  destruct (_ && b); [eapply steps_linked; [exact He|]; apply handle_eapol_keeps; try done; lia|].
  destruct (_ && from_ds frame); [|by apply steps_same].
  eapply steps_linked; [exact He|]. apply handle_downlink_keeps; try done; lia.
Qed.

Lemma incoming_well fuel ignore now octets c : client_inv c -> cl_pause_m3 c = false -> wf_bytes octets ->
  entropy_yields fuel ->
  steps_well (Heard now ignore octets) c (client_handle_incoming fuel ignore now octets c).
Proof.
  intros I Hpa Hw Hy. unfold client_handle_incoming. destruct (radiotap_bad_fcs_total octets) as (b & ->). cbn [rbind].
  destruct (strip_radiotap_total octets) as (s & Es & Hs). rewrite Es. cbn [rbind].
  destruct (b && _); [by apply steps_same|]. destruct s as [f|]; [|by apply steps_same].
  destruct (Hs f eq_refl) as (h & Eo). assert (Hf : wf_bytes f) by (rewrite Eo in Hw; by apply wf_bytes_app_iff in Hw as [_ Hw]).
  destruct (parse_sound f Hf) as (o & Ep & Ho). rewrite Ep. cbn [rbind]. destruct o as [frame|]; [|by apply steps_same].
  destruct (beq _ _); [by apply steps_same|]. apply dispatch_well; try done.
  - by destruct (Ho frame eq_refl) as (? & ? & Hd & _).
  - by exists f.
Qed.

Lemma step_well fuel e c : client_inv c -> cl_pause_m3 c = false -> event_ok e -> entropy_yields fuel ->
  steps_well e c (client_step fuel e c).
Proof.
  intros I Hpa He Hy. destruct e as [now ignore octets|eth|now]; cbn [client_step].
  - by apply incoming_well.
  - destruct He as [Hw Hl]. destruct (encrypt_uplink_ok eth c (ci_ok c I) Hw Hl) as (o & pn & sc & -> & Hpn & _).
    cbn [rbind]. right. pose proof (co_client_pn c (ci_ok c I)). do 2 eexists. split; [done|].
    split; [apply inv_counted; [done|lia]|]. split; [done|]. intros _. right. left.
    split; [apply counted_forward; lia|done].
  - unfold client_maintenance. cbn [fst]. destruct (client_timed_out now c) eqn:Et; [|by apply steps_same].
    destruct (joining_disconnect c c I eq_refl) as [J1 J2 _]. right. do 2 eexists. split; [done|]. split; [done|].
    split; [done|]. intros _. right. right. by exists now.
Qed.

(** A new station, whatever its name and password. *)
Lemma client_new_inv now ssid psk mac : arr 6 mac -> wf_bytes ssid -> wf_bytes psk -> client_inv (client_new now ssid psk mac).
Proof. intros. constructor; [by apply client_new_ok|done..]. Qed.

(** A step that returns keeps the invariant and the configuration, and so does a run. *)
Lemma step_keeps fuel e c c' out : client_inv c -> cl_pause_m3 c = false -> event_ok e -> entropy_yields fuel ->
  client_step fuel e c = Val (c', out) -> client_inv c' /\ config_of c' = config_of c.
Proof.
  intros I Hpa He Hy E. destruct (step_well fuel e c I Hpa He Hy) as [[E' _]|(c1 & o1 & E' & I1 & C1 & _)]; [congruence|].
  rewrite E in E'. by injection E' as <- <-.
Qed.

Lemma same_pause c c' : config_of c' = config_of c -> cl_pause_m3 c = false -> cl_pause_m3 c' = false.
Proof. intros E <-. exact (f_equal (fun a => a.2.2) E). Qed.

Lemma run_keeps fuel es c c' outs : client_inv c -> cl_pause_m3 c = false -> Forall event_ok es -> entropy_yields fuel ->
  client_run fuel es c = Val (c', outs) -> client_inv c' /\ config_of c' = config_of c.
Proof.
  intros I Hpa Hes Hy. revert c outs I Hpa. induction Hes as [|e es He Hes IH]; intros c outs I Hpa E; cbn [client_run] in E.
  { by injection E as <- <-. }
  apply rbind_val_inv in E as ([c1 out] & E1 & E). apply rbind_val_inv in E as ([c2 outs'] & E2 & [= <- <-]).
  destruct (step_keeps fuel e c c1 out I Hpa He Hy E1) as [I1 C1].
  destruct (IH c1 outs' I1 (same_pause c c1 C1 Hpa) E2) as [I2 C2]. split; [done|congruence].
Qed.

(** * Every run *)

(** C11: nothing a station receives, sends or waits for stops it, but for two holes. (Here and in the
    claims that follow the test hook [pause_m3], which keeps message 4 back, is off.) A run of received octet
    strings (any content, any radiotap header), of uplink packets and of ticks returns, and keeps the station
    well-formed and its configuration as it was: keys have their lengths, the pairwise key is installed exactly when
    the station is associated, packet numbers stay within 48 bits, the replay windows have their seventeen counters,
    and the SAE exchange it holds is one with a usable commit. If it panics instead, it is at a frame that found the
    station, as the events before had left it, not yet associated: either the password element the station shares with
    the access point whose beacon it hears, or with the one it is exchanging SAE messages with, is the point at infinity,
    or the station held the peer's commit without having derived a key from it. *)
Theorem station_run_safe fuel es c : client_inv c -> cl_pause_m3 c = false -> Forall event_ok es -> entropy_yields fuel ->
  (client_run fuel es c = Panic /\ exists before e after c1 outs, es = before ++ e :: after /\
     client_run fuel before c = Val (c1, outs) /\ client_step fuel e c1 = Panic /\ station_hole e c1) \/
  exists c' outs, client_run fuel es c = Val (c', outs) /\ length outs = length es /\ client_inv c' /\
    config_of c' = config_of c.
Proof.
  intros I Hpa Hes Hy. revert c I Hpa. induction Hes as [|e es He Hes IH]; intros c I Hpa; cbn [client_run].
  { right. by exists c, []. }
  destruct (step_well fuel e c I Hpa He Hy) as [[E Hh]|(c1 & out & E & I1 & C1 & _)]; rewrite E; cbn [rbind].
  { left. split; [done|]. exists [], e, es, c, []. done. }
  destruct (IH c1 I1) as [[E2 (pre & e2 & post & c2 & outs & -> & Er & Es & Hh)]|(c2 & outs & E2 & Hl & I2 & C2)].
  - by apply (same_pause c).
  - left. rewrite E2. split; [done|]. exists (e :: pre), e2, post, c2, (out :: outs). split; [done|].
    split; [|done]. cbn [client_run]. rewrite E. cbn [rbind]. by rewrite Er.
  - right. rewrite E2. cbn [rbind]. exists c2, (out :: outs). split; [done|]. cbn [length]. split; [lia|]. split; [done|congruence].
Qed.

(** * What a session can lose *)

(** C8: the station cannot be made to reuse a nonce. Whatever happens to an associated station that stays associated
    (a frame, replayed or forged, a packet to send, the passing of time), as long as the pairwise key is the installed
    one, the packet number it sends under and the packet numbers it has seen do not go back; the same holds of the
    group key and of the integrity group key; and the replay counter of EAPOL-Key messages never goes back. *)
Theorem station_never_rolls_back fuel e c c' out : client_inv c -> cl_pause_m3 c = false -> event_ok e ->
  entropy_yields fuel -> client_step fuel e c = Val (c', out) -> cl_connected c = 4 -> cl_connected c' = 4 ->
  no_rollback c c'.
Proof.
  intros I Hpa He Hy E H4 H4'. destruct (step_well fuel e c I Hpa He Hy) as [[E' _]|(c1 & o1 & E' & _ & _ & L)];
    [congruence|]. rewrite E in E'. injection E' as <- <-.
  destruct (L ltac:(lia)) as [(frame & _ & K)|[(F & _)|(now & _ & _ & ->)]]; [|by apply forward_no_rollback|done].
  destruct (le_link _ _ _ K) as [[H0 _]|[H _]]; [lia|done].
Qed.

(** C9: the keys of a session are changed by authenticated messages only. If an event changes any of the keys of an
    associated station that stays associated (the nonces, the pairwise key, a group or integrity key or its index) or
    the replay counter, the event is a frame that carries an EAPOL-Key message, in clear or inside a frame that opens
    under the installed pairwise key, whose MIC is valid under the installed key or under the candidate derived from
    the station's own nonce, and whose replay counter is not older than the last authenticated one. *)
Theorem station_keys_authenticated fuel e c c' out : client_inv c -> cl_pause_m3 c = false -> event_ok e ->
  entropy_yields fuel -> client_step fuel e c = Val (c', out) -> cl_connected c = 4 -> cl_connected c' = 4 ->
  keys_of c' <> keys_of c -> exists frame, hears e frame /\ key_vouched frame c.
Proof.
  intros I Hpa He Hy E H4 H4' Hk. destruct (step_well fuel e c I Hpa He Hy) as [[E' _]|(c1 & o1 & E' & _ & _ & L)];
    [congruence|]. rewrite E in E'. injection E' as <- <-.
  destruct (L ltac:(lia)) as [(frame & Hh & K)|[(_ & F & _)|(now & _ & _ & ->)]]; [|done|done].
  exists frame. split; [done|]. destruct (le_link _ _ _ K) as [[H0 _]|(_ & [Hk'|Hv] & _)]; [lia|done|done].
Qed.

(** C10: a session ends for a reason. If an event takes an associated station out of its session, it is either a tick
    after the AP has been silent for longer than the limit, or a frame from the selected AP that is believed: under
    management-frame protection one that is fresh and authenticated, a group-addressed one by the MIC of the integrity
    group key and any other by opening under the installed pairwise key. *)
Theorem session_end_authenticated fuel e c c' out : client_inv c -> cl_pause_m3 c = false -> event_ok e ->
  entropy_yields fuel -> client_step fuel e c = Val (c', out) -> cl_connected c = 4 -> cl_connected c' <> 4 ->
  (exists now, e = Tick now /\ client_timed_out now c = true /\ c' = client_disconnect c) \/
  (exists frame, hears e frame /\ farewell_believed frame c /\ cl_connected c' = 0).
Proof.
  intros I Hpa He Hy E H4 H4'. destruct (step_well fuel e c I Hpa He Hy) as [[E' _]|(c1 & o1 & E' & _ & _ & L)];
    [congruence|]. rewrite E in E'. injection E' as <- <-.
  destruct (L ltac:(lia)) as [(frame & Hh & K)|[(_ & _ & F)|H]]; [|congruence|by left].
  right. exists frame. split; [done|]. destruct (le_link _ _ _ K) as [[H0 Hf]|(_ & _ & [H|H])]; [done|congruence|done].
Qed.

(** * What reaches the network *)

(** The key a downlink frame is opened under. *)
Definition key_in_use (use_group : bool) (c : Client) : option bytes :=
  if use_group then if cl_gtk_set c then Some (cl_gtk c) else None
  else if cl_ptk_installed c then Some (cl_pairwise_tk c) else None.

(** What an associated station goes through without losing its session or that
    key: any events, installations of the same key included. *)
Inductive session_run (fuel : nat) (use_group : bool) : Client -> list client_event -> Client -> Prop :=
| session_here c : session_run fuel use_group c [] c
| session_event c e es c1 out c2 :
    event_ok e -> client_step fuel e c = Val (c1, out) -> cl_connected c1 = 4 ->
    key_in_use use_group c1 = key_in_use use_group c -> session_run fuel use_group c1 es c2 ->
    session_run fuel use_group c (e :: es) c2.

Lemma rollback_window ug c c' : no_rollback c c' -> key_in_use ug c <> None -> key_in_use ug c' = key_in_use ug c ->
  Forall2 Z.le (downlink_window ug c) (downlink_window ug c').
Proof.
  intros R Hk E. destruct ug; cbn [key_in_use downlink_window] in *.
  - destruct (cl_gtk_set c) eqn:G; [|done]. destruct (cl_gtk_set c'); [|done]. injection E as E. by apply (nr_gtk _ _ R).
  - destruct (cl_ptk_installed c) eqn:G; [|done]. destruct (cl_ptk_installed c'); [|done]. injection E as E.
    by apply (nr_pairwise _ _ R).
Qed.

Lemma session_run_windows fuel ug c es c2 : entropy_yields fuel -> session_run fuel ug c es c2 ->
  client_inv c -> cl_pause_m3 c = false -> cl_connected c = 4 -> key_in_use ug c <> None ->
  Forall2 Z.le (downlink_window ug c) (downlink_window ug c2) /\ config_of c2 = config_of c.
Proof.
  intros Hy R. induction R as [c|c e es c1 out c2 He E H4' Hk R IH]; intros I Hpa H4 Hset; [split; [apply windows_refl|done]|].
  destruct (step_well fuel e c I Hpa He Hy) as [[E' _]|(c1' & o1 & E' & I1 & C1 & L)]; [congruence|].
  rewrite E in E'. injection E' as <- <-.
  assert (Rb : no_rollback c c1).
  { destruct (L ltac:(lia)) as [(frame & _ & K)|[(F & _)|(now & _ & _ & ->)]]; [|by apply forward_no_rollback|done].
    destruct (le_link _ _ _ K) as [[H0 _]|[H _]]; [lia|done]. }
  destruct IH as [W C2]; [done|by apply (same_pause c)|done|by rewrite Hk|].
  split; [|congruence]. eapply windows_trans; [by apply rollback_window|done].
Qed.

(** C13: a downlink frame reaches the network once, and only as what its sender sealed. If the handler hands a packet
    to the network, it is one packet, what the frame opens to under the installed pairwise key or, for a group
    address, the group key; its packet number is above the last one seen in its window. And, if the station is
    associated and that key is installed, the same frame is not delivered again while the session and that key last: after any further events of the station (frames of any
    content, handshakes that install the same key again, packets sent, time passing) at each of which it stays
    associated and the key the frame was opened under stays the one in use, the handler drops the frame and changes
    nothing. *)
Theorem downlink_no_replay now frame c c' out out' : client_inv c -> cl_pause_m3 c = false -> dot11_ok frame ->
  2 <= cl_connected c -> handle_downlink now frame c out = Val (c', out') -> co_to_network out' <> co_to_network out ->
  exists eth use_group pn, co_to_network out' = co_to_network out ++ [eth] /\ co_frames out' = co_frames out /\
    open_downlink use_group frame c = Val (Some eth) /\ ccmp_pn frame = Val (Some pn) /\
    (exists last, downlink_window use_group c !! replay_index frame = Some last /\ last < pn) /\
    (use_group = true -> is_group_addr (addr1 frame) = true) /\
    (use_group = false -> addr1 frame = cl_mac c) /\
    forall fuel es now2 c2 out2, cl_connected c = 4 -> key_in_use use_group c <> None -> entropy_yields fuel ->
      session_run fuel use_group c' es c2 -> handle_downlink now2 frame c2 out2 = Val (c2, out2).
Proof.
  intros I Hpa Hd Hn. pose proof (ci_ok c I) as Hok. assert (Hw : wf_bytes (body frame)) by apply Hd.
  unfold handle_downlink. destruct (_ || _) eqn:Efr; [by intros [= <- <-]|].
  destruct (ccmp_key_id_total frame Hw) as (kid & Ek & _). rewrite Ek. cbn [rbind].
  destruct (negb _ && _) eqn:Era; [by intros [= <- <-]|].
  set (ug := (kid =? cl_gtk_key_id c) && negb (kid =? 0)).
  destruct (ug && _) eqn:Eg1; [by intros [= <- <-]|]. destruct (negb ug && _) eqn:Eg2; [by intros [= <- <-]|].
  destruct (ccmp_pn_total frame Hw) as (o & Epn & _ & Hr). rewrite Epn. cbn [rbind].
  destruct o as [pn|]; [|by intros [= <- <-]].
  assert (Hpn : pn_ok pn) by (specialize (Hr pn eq_refl); unfold pn_ok, MAX_PACKET_NUMBER; lia).
  set (i := replay_index frame).
  assert (Hi : forall w, window_ok w -> (i < length w)%nat) by (intros w [-> _]; by apply replay_index_bound).
  assert (Hwin : forall u k, client_ok k -> window_ok (downlink_window u k)) by (intros [] k Hk; apply Hk).
  destruct (lookup_lt_is_Some_2 _ _ (Hi _ (Hwin ug c Hok))) as [x Hx]. unfold idx at 1. rewrite Hx. cbn [rbind].
  destruct (Z.leb_spec pn x) as [|Hlt]; [by intros [= <- <-]|].
  destruct (open_downlink_total ug frame c Hok Hd) as (o & Eo & Heth). rewrite Eo. cbn [rbind].
  destruct o as [eth|]; [|by intros [= <- <-]]. cbn in Heth.
  destruct (downlink_seen_forward ug i pn now c x I Hpn Hx ltac:(lia)) as (I1 & C1 & F1 & K1 & N1 & P1 & A1).
  assert (Hseen : downlink_window ug (downlink_seen ug i pn c) !! i = Some pn).
  { unfold downlink_seen. destruct ug; cbn [downlink_window]; apply list_lookup_insert_eq, Hi, Hok. }
  assert (Hid : cl_gtk_key_id (downlink_seen ug i pn c) = cl_gtk_key_id c) by (by destruct ug).
  set (c1 := note_ap_activity now (downlink_seen ug i pn c)) in *.
  unfold deliver_downlink. case_bool_decide as Ht.
  { destruct ug; [by intros [= <- <-]|]. destruct (ethernet_eapol_total eth Heth) as (o & Ee & Ho). rewrite Ee. cbn [rbind].
    destruct o as [[eapol ek]|]; [|by intros [= <- <-]]. destruct Ho as [Hew Hek].
    assert (Hpa1 : cl_pause_m3 c1 = false) by (rewrite <- Hpa; exact (f_equal (fun a => a.2.2) A1)).
    destruct (handle_eapol_key_ok now eapol ek true c1 out (ci_ok c1 I1) Hew Hek Hpa1 ltac:(lia)) as (c2 & out2 & -> & Hnet & _).
    by intros [= <- <-]. }
  intros [= <- <-] _. exists eth, ug, pn. split; [done|]. split; [done|]. split; [done|]. split; [done|].
  split; [by exists x|]. split; [destruct ug; [|done]; by destruct (is_group_addr (addr1 frame))|].
  split.
  { intros ->. cbn in Eg2. apply orb_false_iff in Eg2 as [Eg2 _]. rewrite Eg2 in Era. cbn in Era.
    apply negb_false_iff in Era. by apply beq_true. }
  intros fuel es now2 c2 out2 H4 Hset Hy R. cbn in Ek.
  assert (Hk1 : key_in_use ug c1 = key_in_use ug c) by (by destruct ug).
  destruct (session_run_windows fuel ug c1 es c2 Hy R) as [Hle C2]; [done| | |by rewrite Hk1|].
  { rewrite <- Hpa. exact (f_equal (fun a => a.2.2) A1). }
  { rewrite <- H4. by destruct ug. }
  assert (Hm : cl_mac c2 = cl_mac c).
  { transitivity (cl_mac c1); [|by destruct ug]. exact (f_equal (fun a => a.1.1.1.1.1.1.1.1) C2). }
  rewrite Hm, Era. cbn zeta.
  assert (Hs1 : downlink_window ug c1 !! i = Some pn) by (rewrite <- Hseen; by destruct ug).
  destruct (Forall2_lookup_l _ _ _ _ _ Hle Hs1) as (y & Hy' & Hpy).
  destruct ((kid =? cl_gtk_key_id c2) && negb (kid =? 0)) eqn:Eug; fold i.
  - destruct (is_group_addr (addr1 frame)) eqn:Egr; cbn [negb andb]; [|done].
    destruct ug; [|done]. unfold idx. rewrite Hy'. cbn [rbind]. destruct (Z.leb_spec pn y); [done|lia].
  - cbn [negb andb]. destruct ug.
    + destruct (is_group_addr (addr1 frame)); [done|]. done.
    + cbn [negb andb] in Eg2. rewrite Eg2. unfold idx. rewrite Hy'. cbn [rbind]. destruct (Z.leb_spec pn y); [done|lia].
Qed.

(** * A commit sent back *)

Lemma inv_sae c s : client_inv c -> sae_held s -> client_inv (c <| cl_sae := Some s |>).
Proof.
  intros I Hs. pose proof (ci_ok c I) as Ok.
  constructor; [keep_client_ok Ok|done|exact (ci_cache _ I)|exact (ci_owe_priv _ I)|exact (ci_owe_pub _ I)].
Qed.

Definition sae_frame (c : Client) (frame : Dot11) (seq status : Z) (payload : bytes) : Prop :=
  addr1 frame = cl_mac c /\ is_from_selected_ap c frame = true /\
  parse_auth (body frame) = Val (Some {| auth_algo := AUTH_ALG_SAE; auth_seq := seq; auth_status := status;
                                         auth_payload := payload |}).

(** What the commit says of its sender, but for the group. *)
Lemma commit_values s commit : sae_held s -> write_commit s = Val commit ->
  exists xy, point_to_bin (commit_element s) = Some xy /\ arr 64 xy /\ sub commit 2 98 = scalar_to_bin (commit_scalar s) ++ xy.
Proof.
  intros [(p & r & m & _ & _ & _ & He) Hf Ho _ _ _ _] Hw.
  destruct (point_bin_roundtrip _ _ He Hf) as (xy & Hbin & Ha & _). destruct (commit_core s xy Hbin Ha) as [Ew _].
  exists xy. split; [done|]. split; [done|]. rewrite Ew in Hw. injection Hw as <-. rewrite Ho.
  unfold rejected_groups_element. rewrite app_nil_r, <- (app_nil_r (scalar_to_bin _ ++ xy)) at 1.
  apply sub_exact; [done|]. rewrite length_app, (arr_length _ _ Ha). unfold scalar_to_bin, scalar_pad.
  by rewrite length_be_bytes.
Qed.

(** With its own values as the peer's and no key, an exchange accepts a confirm
    that anyone can compute. *)
Lemma empty_key_confirm s commit : sae_held s -> write_commit s = Val commit -> sae_kck s = [] ->
  last_peer_send_confirm s = None ->
  exists s2, check_confirm (store_commit s (commit_scalar s) (commit_element s) None)
      ([1; 0] ++ hmac_sha256 [] ([1; 0] ++ sub commit 2 98 ++ sub commit 2 98)) = Val (Ok tt, s2) /\
    sae_pmk s2 = sae_pmk s.
Proof.
  intros Hh Hw Hkck Hlast. destruct (commit_values s commit Hh Hw) as (xy & Hbin & Ha & Ec).
  assert (wf_bytes [1; 0]) by by apply (bool_decide_unpack _). assert (wf_bytes xy) by apply Ha.
  destruct (hmac_sha256_arr [] ([1; 0] ++ sub commit 2 98 ++ sub commit 2 98)) as [Hml Hmw]; [constructor| |].
  { rewrite Ec. unfold scalar_to_bin, scalar_pad. auto 12 with bytes. }
  rewrite Ec in *. set (mac := hmac_sha256 [] _) in *. unfold check_confirm.
  rewrite (proj2 (Nat.ltb_ge _ _)) by (rewrite length_app, Hml; cbn; lia). rewrite slice_prefix by (cbn; lia).
  cbn [rbind]. unfold store_commit. fields. unfold cn_confirm. rewrite Hbin. cbn [expect rbind]. fields.
  change (take 2 ([1; 0] ++ mac)) with [1; 0]. change (le_bytes 2 (le_val [1; 0])) with [1; 0].
  rewrite Hkck, <- ?app_assoc. change (hmac_sha256 [] _) with mac.
  rewrite slice_ok by (rewrite ?length_app, ?Hml; cbn; lia). cbn [rbind].
  assert (sub ([1; 0] ++ mac) 2 (2 + 32) = mac) as ->
    by (rewrite <- (app_nil_r mac) at 1; apply (sub_exact [1; 0]); [done|by rewrite Hml]).
  rewrite constant_time_eq_spec, beq_refl by done. cbn [negb]. rewrite Hlast. eexists. split; [done|]. by fields.
Qed.

(** A reflected commit is refused with its values stored. *)
Lemma reflection_stored fuel now c s commit out : cl_sae c = Some s -> sae_held s -> 1 < commit_scalar s < curve_n ->
  write_commit s = Val commit ->
  client_handle_sae_auth fuel now 1 (commit_status c) commit c out =
    Val (c <| cl_sae := Some (store_commit s (commit_scalar s) (commit_element s) None) |>, out).
Proof.
  intros Hs [(p & r & m & _ & _ & _ & He) Hf Ho _ _ _ _] Hsc Hw. unfold client_handle_sae_auth.
  change (1 =? 1) with true. cbn [andb].
  rewrite (proj2 (Z.eqb_neq (commit_status c) STATUS_ANTI_CLOGGING_TOKEN_REQ)) by (unfold commit_status; by destruct (cl_sae_h2e c)).
  rewrite Z.eqb_refl. cbn [negb]. unfold answer_commit. rewrite Hs.
  rewrite (parse_write_commit s s _ commit He Hf Hsc); [|by rewrite Ho|done]. rewrite Ho. cbn [rbind].
  set (s1 := store_commit s _ _ _).
  assert (is_reflection s1 = true) as -> by (unfold is_reflection, s1, store_commit; fields; by rewrite !bool_decide_true).
  done.
Qed.

(** C12: a station in an SAE exchange is stopped by two forged frames. Whoever sends a station its own commit back, and
    then a confirm computed with an empty key over what stood in that commit, makes it panic: the reflected commit is
    refused only after its scalar and element have been stored, so that the confirm is checked under the confirmation
    key the exchange does not have yet (the empty one), is found valid, and the empty PMK is copied into an array of 32
    octets. Neither frame needs the password. *)
Theorem reflected_commit_panics fuel t1 t2 f1 f2 c s commit out1 out2 :
  client_inv c -> cl_sae_enabled c = true -> cl_sae c = Some s -> sae_kck s = [] -> sae_pmk s = [] ->
  last_peer_send_confirm s = None -> 1 < commit_scalar s < curve_n -> write_commit s = Val commit -> sae_frame c f1 1 (commit_status c) commit ->
  sae_frame c f2 2 STATUS_SUCCESS ([1; 0] ++ hmac_sha256 [] ([1; 0] ++ sub commit 2 98 ++ sub commit 2 98)) ->
  exists c1, handle_auth_frame fuel t1 f1 c out1 = Val (c1, out1) /\ client_inv c1 /\ unkeyed_confirm c1 /\
    handle_auth_frame fuel t2 f2 c1 out2 = Panic.
Proof.
  intros I Hen Hs Hkck Hempty Hlast Hsc Hw (M1 & A1 & P1) (M2 & A2 & P2).
  pose proof (ci_sae c I) as Hh. rewrite Hs in Hh. cbn in Hh.
  destruct (empty_key_confirm s commit Hh Hw Hkck Hlast) as (s2 & Hchk & Hpmk).
  pose proof (reflection_stored fuel t1 c s commit out1 Hs Hh Hsc Hw) as Hsaid.
  set (s1 := store_commit s (commit_scalar s) (commit_element s) None) in *.
  assert (H1 : sae_held s1).
  { pose proof Hh as [(p & r & m & _ & _ & _ & He) Hf _ _ _ _ _]. apply held_stored; try done; [by eexists|constructor]. }
  set (c0 := c <| cl_sae := Some s1 |>) in *.
  assert (Hany : forall b, exists c1, (if b : bool then c0 else note_ap_activity t1 c0) = c1 /\ client_inv c1 /\
    cl_sae c1 = Some s1 /\ cl_mac c1 = cl_mac c /\ cl_bssid c1 = cl_bssid c /\ cl_sae_enabled c1 = true).
  { assert (J0 : client_inv c0) by by apply inv_sae.
    intros []; eexists; (split; [done|]); [done|]. split; [by apply inv_note|done]. }
  destruct (Hany (length (co_frames out1) =? 0)%nat) as (c1 & Ec1 & I1 & S1 & Mc & Bc & En).
  exists c1. unfold handle_auth_frame.
  rewrite M1, A1, P1, beq_refl. cbn [negb orb rbind auth_algo auth_seq auth_status auth_payload].
  rewrite Z.eqb_refl, Hen. cbn [negb]. rewrite Hsaid. cbn [rbind]. rewrite Ec1. split; [done|]. split; [done|].
  split; [exists s1; split; [done|]; unfold s1, store_commit; by fields|].
  rewrite M2, Mc, beq_refl. unfold is_from_selected_ap in *. rewrite Bc, A2, P2.
  cbn [negb orb rbind auth_algo auth_seq auth_status auth_payload].
  rewrite Z.eqb_refl, En. cbn [negb]. unfold client_handle_sae_auth, accept_confirm. rewrite S1.
  change (2 =? 1) with false. change (2 =? 2) with true. cbn [andb]. rewrite Z.eqb_refl. cbn [negb].
  rewrite Hchk. cbn [rbind]. by rewrite Hpmk, Hempty.
Qed.

End Station.

(** * Witnesses

    A station joins the demo access point: it hears the beacon and the frames the
    access point answers its own with. *)
Definition demo_client : Client := Eval vm_compute in client_new 0 demo_ssid demo_psk demo_sta.
Definition demo_ap_beacon : bytes := Eval vm_compute in (returned (beacon_frame_unprotected 5 demo_empty)).1.

(** The access point and the station in turn, each hearing what the other sent;
    and what the station heard. *)
Fixpoint demo_converse (n : nat) (now : Z) (frames : list bytes) (ap : Ap) (c : Client) :
    res (Ap * Client * list client_event) :=
  match n with
  | O => Val (ap, c, [])
  | S n =>
      let heard := map (Heard now false) frames in
      let! '(c, up) := client_run 1 heard c in
      let answers := map (fun f => (now, Received Userspace f)) (concat (map co_frames up)) in
      let! '(ap, down) := ap_run 1 answers ap in
      let! '(ap, c, more) := demo_converse n (now + secs 1) (concat (map out_frames down)) ap c in
      Val (ap, c, heard ++ more)
  end.

Definition demo_talk := Eval vm_compute in returned (demo_converse 4 (secs 1) [demo_ap_beacon] demo_empty demo_client).
Definition demo_linked_ap : Ap := Eval vm_compute in demo_talk.1.1.
Definition demo_linked : Client := Eval vm_compute in demo_talk.1.2.
Definition demo_heard : list client_event := Eval vm_compute in demo_talk.2.

(** Both ends are associated under the same key. *)
Example demo_link :
  (cl_connected demo_linked, cl_pairwise_tk demo_linked,
   option_map (fun s => (st_associated s, st_pairwise_tk s)) (ap_stations demo_linked_ap !! demo_sta))
  = (4, cl_pairwise_tk demo_linked, Some (true, cl_pairwise_tk demo_linked)).
Proof. vm_compute. reflexivity. Qed.

Lemma demo_client_inv : client_inv demo_client.
Proof.
  assert (demo_client = client_new 0 demo_ssid demo_psk demo_sta) as -> by (vm_compute; reflexivity).
  apply client_new_inv; by apply (bool_decide_unpack _).
Qed.

Lemma demo_heard_ok : Forall event_ok demo_heard.
Proof.
  unfold demo_heard.
  repeat (apply Forall_cons; split; [cbn [event_ok]; by apply (bool_decide_unpack _)|]).
  constructor.
Qed.

Definition demo_ran := Eval vm_compute in returned (client_run 1 demo_heard demo_client).
Definition demo_sent : list ClientOut := Eval vm_compute in demo_ran.2.
Lemma demo_heard_run : client_run 1 demo_heard demo_client = Val (demo_linked, demo_sent).
Proof. vm_compute. reflexivity. Qed.

Lemma demo_linked_inv : client_inv demo_linked.
Proof. exact (proj1 (run_keeps 1 _ _ _ _ demo_client_inv eq_refl demo_heard_ok toy_entropy_yields demo_heard_run)). Qed.

Lemma station_run_safe_witness :
  exists c' outs, client_run 1 demo_heard demo_client = Val (c', outs) /\ length outs = 5%nat /\ client_inv c' /\
    config_of c' = config_of demo_client.
Proof.
  destruct (station_run_safe 1 demo_heard demo_client) as [[E _]|(c' & outs & E & Hl & I & F)].
  - exact demo_client_inv.
  - reflexivity.
  - exact demo_heard_ok.
  - exact toy_entropy_yields.
  - rewrite demo_heard_run in E. discriminate E.
  - exists c', outs. split; [exact E|]. split; [exact Hl|]. split; [exact I|exact F].
Defined.

(** The access point changes its group keys, and the station follows. *)
Definition demo_rekey := Eval vm_compute in returned (rekey_gtk (secs 9) [demo_sta] demo_linked_ap).
Definition demo_group_message : client_event := Eval vm_compute in Heard (secs 9) false (hd [] demo_rekey.1).
Definition demo_rekeyed := Eval vm_compute in returned (client_step 1 demo_group_message demo_linked).

Lemma station_never_rolls_back_witness :
  cl_connected demo_rekeyed.1 = 4 /\ no_rollback demo_linked demo_rekeyed.1.
Proof.
  split; [reflexivity|].
  apply (station_never_rolls_back 1 demo_group_message demo_linked demo_rekeyed.1 demo_rekeyed.2).
  - exact demo_linked_inv.
  - reflexivity.
  - cbv beta iota delta [event_ok demo_group_message]. by apply (bool_decide_unpack _).
  - exact toy_entropy_yields.
  - vm_compute. reflexivity.
  - reflexivity.
  - reflexivity.
Defined.

Lemma station_keys_authenticated_witness :
  cl_gtk demo_rekeyed.1 <> cl_gtk demo_linked /\ exists frame, hears demo_group_message frame /\ key_vouched frame demo_linked.
Proof.
  split; [vm_compute; discriminate|].
  apply (station_keys_authenticated 1 demo_group_message demo_linked demo_rekeyed.1 demo_rekeyed.2).
  - exact demo_linked_inv.
  - reflexivity.
  - cbv beta iota delta [event_ok demo_group_message]. by apply (bool_decide_unpack _).
  - exact toy_entropy_yields.
  - vm_compute. reflexivity.
  - reflexivity.
  - reflexivity.
  - vm_compute. discriminate.
Defined.

Definition demo_farewell : client_event := Eval vm_compute in Heard (secs 9) false (RADIOTAP_TX ++ build_deauth demo_mac demo_sta 3).
Definition demo_gone := Eval vm_compute in returned (client_step 1 demo_farewell demo_linked).

Lemma session_end_authenticated_witness :
  exists frame, hears demo_farewell frame /\ farewell_believed frame demo_linked.
Proof.
  destruct (session_end_authenticated 1 demo_farewell demo_linked demo_gone.1 demo_gone.2) as [(t & E & _)|(f & H1 & H2 & _)].
  - exact demo_linked_inv.
  - reflexivity.
  - cbv beta iota delta [event_ok demo_farewell]. by apply (bool_decide_unpack _).
  - exact toy_entropy_yields.
  - vm_compute. reflexivity.
  - reflexivity.
  - vm_compute. discriminate.
  - discriminate E.
  - exists f. split; [exact H1|exact H2].
Defined.

(** A packet for the station, delivered once. *)
Definition demo_down : Dot11 := Eval vm_compute in
  received_frame (let! '(_, outs) := ap_run 1 [(secs 9, Delivered (demo_sta ++ demo_other ++ demo_packet))] demo_linked_ap in
                  Val (drop 8 (hd [] (concat (map out_frames outs))))).
Definition demo_received := Eval vm_compute in
  returned (handle_downlink (secs 9) demo_down demo_linked client_silent).

(** All that the station has heard, heard again, and a change of the group key. *)
Definition demo_again : list client_event := Eval vm_compute in demo_heard ++ [demo_group_message].
Definition demo_relived := Eval vm_compute in returned (client_run 1 demo_again demo_received.1).
Definition demo_later : Client := Eval vm_compute in demo_relived.1.

Lemma demo_again_run : session_run 1 false demo_received.1 demo_again demo_later.
Proof.
  unfold demo_again. repeat (eapply session_event; [cbn [event_ok]; by apply (bool_decide_unpack _)|vm_compute; reflexivity|reflexivity|reflexivity|]).
  apply session_here.
Qed.

Lemma downlink_no_replay_witness :
  co_to_network demo_received.2 = [demo_sta ++ demo_other ++ demo_packet] /\
  handle_downlink (secs 10) demo_down demo_later client_silent = Val (demo_later, client_silent).
Proof.
  split; [vm_compute; reflexivity|].
  destruct (downlink_no_replay (secs 9) demo_down demo_linked demo_received.1 client_silent demo_received.2)
    as (eth & ug & pn & _ & _ & _ & _ & _ & Hg & _ & H).
  - exact demo_linked_inv.
  - reflexivity.
  - cbv beta iota delta [event_ok demo_farewell]. by apply (bool_decide_unpack _).
  - vm_compute. discriminate.
  - vm_compute. reflexivity.
  - vm_compute. discriminate.
  - destruct ug; [discriminate (Hg eq_refl)|].
    apply (H 1%nat demo_again); [reflexivity|vm_compute; discriminate|exact toy_entropy_yields|exact demo_again_run].
Defined.

(** A station that has sent its commit. *)
Definition demo_starting : Client :=
  (set_connected_state 0 1 (demo_client <| cl_sae_enabled := true |>)) <| cl_bssid := Some demo_mac |>.

Lemma demo_starting_joining : joining demo_starting demo_starting.
Proof.
  assert (I : client_inv (demo_client <| cl_sae_enabled := true |>)).
  { pose proof demo_client_inv as I. revert I. generalize demo_client. intros c I. pose proof (ci_ok c I) as Ok.
    constructor; [keep_client_ok Ok|exact (ci_sae _ I)|exact (ci_cache _ I)|exact (ci_owe_priv _ I)|exact (ci_owe_pub _ I)]. }
  assert (J : joining (demo_client <| cl_sae_enabled := true |>) (demo_client <| cl_sae_enabled := true |>))
    by (constructor; [done|done|vm_compute; discriminate]).
  assert (J1 : joining (demo_client <| cl_sae_enabled := true |>) demo_starting).
  { unfold demo_starting. apply joining_bssid; [apply joining_state; [done|lia]|by apply (bool_decide_unpack _)]. }
  constructor; [apply J1|done|apply J1].
Qed.

Definition demo_start := Eval vm_compute in returned (start_sae 1 demo_mac demo_starting client_silent).
Definition demo_committing : Client := Eval vm_compute in demo_start.1.
Definition demo_own_commit : bytes := Eval vm_compute in returned (write_commit (default demo_sae_sta (cl_sae demo_committing))).

Lemma demo_committing_inv : client_inv demo_committing.
Proof.
  destruct (start_sae_joins 1 demo_mac demo_starting demo_starting client_silent demo_starting_joining)
    as [[E _]|(c & out & E & J)]; [by apply (bool_decide_unpack _)|exact toy_entropy_yields|vm_compute in E; discriminate E|].
  assert (E' : start_sae 1 demo_mac demo_starting client_silent = Val demo_start) by (vm_compute; reflexivity).
  rewrite E in E'. assert (Ec : c = demo_committing) by exact (f_equal (fun r => match r with Val x => x.1 | _ => c end) E').
  rewrite <- Ec. apply J.
Qed.

(** An Authentication frame in the name of the access point. *)
Definition forged_auth (seq status : Z) (payload : bytes) : Dot11 :=
  received_frame (Val (build_sae_auth demo_sta demo_mac demo_mac 0 16 seq status payload)).

Lemma reflected_commit_panics_witness :
  exists c1 tag, handle_auth_frame 1 1 (forged_auth 1 STATUS_SAE_H2E demo_own_commit) demo_committing client_silent
      = Val (c1, client_silent) /\
    handle_auth_frame 1 2 (forged_auth 2 STATUS_SUCCESS ([1; 0] ++ tag)) c1 client_silent = Panic.
Proof.
  destruct (reflected_commit_panics 1 1 2 (forged_auth 1 STATUS_SAE_H2E demo_own_commit)
    (forged_auth 2 STATUS_SUCCESS ([1; 0] ++ hmac_sha256 [] ([1; 0] ++ sub demo_own_commit 2 98 ++ sub demo_own_commit 2 98)))
    demo_committing (default demo_sae_sta (cl_sae demo_committing)) demo_own_commit client_silent client_silent)
    as (c1 & H1 & _ & _ & H2).
  - exact demo_committing_inv.
  - reflexivity.
  - reflexivity.
  - reflexivity.
  - reflexivity.
  - reflexivity.
  - vm_compute. split; reflexivity.
  - vm_compute. reflexivity.
  - split; [vm_compute; reflexivity|]. split; vm_compute; reflexivity.
  - split; [vm_compute; reflexivity|]. split; vm_compute; reflexivity.
  - exists c1, (hmac_sha256 [] ([1; 0] ++ sub demo_own_commit 2 98 ++ sub demo_own_commit 2 98)). split; [exact H1|exact H2].
Defined.
