(* ===== verification/Bss.v ===== *)
(** A station and an access point: the two models composed through the frames
    they send each other. *)
From S2P Require Import Prelude Elements Crypto Security Frames Channels DataProt Kde Rsn Advert Mlo Eapol Sae Failures Roaming Ap ApConfig ApEapol Demo Handshake FourWay ApData ApMgmt ApKeys ApBeacon ApRates ApAdmit ApSae ApExchange ApSystem Client ClientKeys ClientRx ClientOk ClientSafe ClientRun Station.

Section Bss.
Context {E0 : Entropy} {E0ok : EntropyOk E0} {P : Primitives} {Pok : PrimitivesOk P} {C : P256} {Cok : P256Ok C}.

(** * An EAPOL-Key frame on its way to the supplicant *)

Lemma transmitted_heard fuel now ignore f d c : parse f = Val (Some d) -> addr2 d <> cl_mac c ->
  client_step fuel (Heard now ignore (RADIOTAP_TX ++ f)) c = client_dispatch fuel now d c client_silent.
Proof.
  intros Hp Ha. cbn [client_step]. unfold client_handle_incoming.
  rewrite transmitted_fcs, (strip_prepended _ f (or_introl eq_refl)). cbn [rbind andb]. rewrite Hp. cbn [rbind].
  destruct (beq _ _) eqn:E; [by apply beq_true in E|done].
Qed.

Lemma dispatch_eapol fuel now f d ek fr c out : 2 <= cl_connected c -> eapol_rx f d ek fr ->
  addr1 d = cl_mac c -> is_from_selected_ap c d = true -> from_ds d = true ->
  client_dispatch fuel now d c out = handle_eapol_key now fr ek false c out.
Proof.
  intros Hc (_ & _ & He & b & Hb & Hk) H1 H2 H3. unfold client_dispatch.
  assert (Hf : frame_type d = TYPE_DATA /\ is_eapol d = Val true).
  { unfold eapol_frame in He. destruct (is_eapol_total d) as (v & Ev & Hv). rewrite Ev in *. cbn [rbind] in He.
    destruct v; [|done]. split; [by apply Hv|done]. }
  destruct Hf as [Hf Ht]. rewrite Hf, Ht. change (TYPE_DATA =? TYPE_MGMT) with false. cbn [andb rbind].
  rewrite (proj2 (Z.eqb_neq (cl_connected c) 0)), (proj2 (Z.ltb_lt 1 (cl_connected c))), !andb_false_r by lia. cbn [andb].
  unfold handle_eapol_frame. rewrite H3, H1, H2, beq_refl, He, Hb. cbn [negb orb rbind obind]. by rewrite Hk.
Qed.

Lemma eapol_rx_ok f d ek fr : eapol_rx f d ek fr -> eapol_key_ok ek /\ wf_bytes fr.
Proof.
  intros (_ & Hw & He & Hb). destruct (key_frame_ok d fr ek Hw (conj He Hb)) as (H1 & H2 & _). done.
Qed.

(** * The station's side of the handshake *)

(** The station has just been accepted and holds no key of this session. *)
Record waiting (c : Client) : Prop := {
  wt_ok : client_ok c;
  wt_connected : 2 <= cl_connected c < 4;
  wt_state : cl_eapol_state c = 0;
  wt_gtk : cl_gtk_set c = false;
  wt_plain : cl_mld_mac c = None /\ cl_ap_mld_mac c = None /\ cl_ocv c = false;
  wt_pause : cl_pause_m3 c = false
}.

Lemma not_installed c : client_ok c -> cl_connected c < 4 -> cl_ptk_installed c = false.
Proof. intros Hok Hc. apply not_true_iff_false. intros E. apply (co_installed c Hok) in E. lia. Qed.

Lemma answer_message_1 now c bssid ek fr : waiting c -> cl_bssid c = Some bssid -> valid_m1 c ek = true -> eapol_key_ok ek ->
  exists p draws sc f2,
    handle_eapol_key now fr ek false c client_silent
      = Val (note_ap_activity now (m2_sent p draws (cl_client_pn c) sc c), client_tx f2 client_silent) /\
    pending_ok p /\ derive_pending c bssid (ek_nonce ek) (pp_snonce p) (ek_replay_counter ek) = Val p /\
    build_eapol_m2 bssid (cl_mac c) (pp_snonce p) (pp_kck p) (message_2_rsn c) (ek_replay_counter ek)
      (u16 (sc * 16)) (client_key_mic c) None = Val f2.
Proof.
  intros W Hb Hv Hek. pose proof (wt_ok c W) as Hok. pose proof (wt_connected c W) as Hc.
  destruct (wt_plain c W) as (_ & _ & Hocv).
  destruct (send_eapol2_ok ek false c client_silent Hok Hek)
    as [[E _]|(b & p & draws & pn & sc & out' & Eb & E & Hpo & _ & _ & _ & Hd & Hun)]; [congruence|].
  assert (b = bssid) as -> by congruence. destruct (Hun eq_refl) as (-> & f2 & -> & Hf2).
  exists p, draws, sc, f2. split; [|split; [done|]; split; [done|]].
  - unfold handle_eapol_key, refused_in_clear. rewrite (not_installed c Hok), andb_false_r by lia. cbn [andb].
    rewrite (proj2 (Z.leb_gt 4 _)) by lia. cbn [andb]. unfold pairwise_message.
    rewrite (proj2 (Z.leb_gt 4 _)), (wt_state c W), Hv by lia. cbn [andb Z.eqb]. rewrite E. reflexivity.
  - unfold client_oci in Hf2. by rewrite Hocv in Hf2.
Qed.

(** The group keys of a message 3, on a station that has none. *)
Lemma install_first_keys kd rsc c i g igtk : client_ok c -> wf_bytes kd -> pn_ok rsc -> cl_gtk_set c = false ->
  parse_gtk_kde_full kd = Val (Some (i, g)) -> arr 16 g -> parse_igtk_kde kd = Val igtk ->
  (is_some (cl_sae_pmk c) = true -> igtk <> None) ->
  exists c', install_group_keys kd rsc c = Val (true, c') /\ cl_gtk c' = g /\ cl_gtk_key_id c' = i /\
    cl_last_rx_gpn c' = replicate 17 rsc /\
    (forall id ipn key, igtk = Some (id, ipn, key) -> cl_igtk c' = Some key).
Proof.
  intros Hok Hw Hr Hset Hg [Hgl _] Hi Hpmf. unfold install_group_keys.
  rewrite (proj2 (Z.ltb_ge _ _)) by (unfold pn_ok, MAX_PACKET_NUMBER in Hr; lia).
  unfold delivered_gtk. rewrite Hg. cbn [rbind mbind option_bind]. unfold gtk_of_16 at 1. rewrite Hgl. cbn [Nat.eqb rbind].
  assert (Hdi : exists oi, delivered_igtk kd = Val oi /\ forall k, igtk = Some k -> oi = Some k).
  { destruct (delivered_igtk_total kd Hw) as (oi & E & _). exists oi. split; [done|]. intros k ->.
    unfold delivered_igtk in E. rewrite Hi in E. cbn [rbind] in E. by injection E as <-. }
  destruct Hdi as (oi & -> & Hoi). cbn [rbind].
  assert (is_some (cl_sae_pmk c) && negb (is_some oi) = false) as ->.
  { destruct (is_some (cl_sae_pmk c)); [|done]. destruct igtk as [k|]; [|by destruct (Hpmf eq_refl)].
    by rewrite (Hoi k eq_refl). }
  destruct (delivered_bigtk_total kd Hw) as (b & -> & _). cbn [rbind]. eexists. split; [reflexivity|].
  unfold install_gtk. rewrite Hset. cbn [andb]. set (c1 := c <| cl_gtk := g |> <| cl_gtk_set := true |>
    <| cl_gtk_key_id := i |> <| cl_last_rx_gpn := replicate 17 rsc |>).
  assert (Hb : forall c2, cl_gtk (install_bigtk b c2) = cl_gtk c2 /\ cl_gtk_key_id (install_bigtk b c2) = cl_gtk_key_id c2 /\
    cl_last_rx_gpn (install_bigtk b c2) = cl_last_rx_gpn c2 /\ cl_igtk (install_bigtk b c2) = cl_igtk c2).
  { intros c2. unfold install_bigtk. destruct b; [|done]. by case_bool_decide. }
  destruct (Hb (install_igtk oi c1)) as (-> & -> & -> & ->).
  assert (Hkeep : cl_gtk (install_igtk oi c1) = g /\ cl_gtk_key_id (install_igtk oi c1) = i /\
    cl_last_rx_gpn (install_igtk oi c1) = replicate 17 rsc).
  { unfold install_igtk. destruct oi as [[[? ?] ?]|]; [case_bool_decide|]; done. }
  destruct Hkeep as (K1 & K2 & K3). split; [done|]. split; [done|]. split; [done|].
  intros id ipn key Ek. rewrite (Hoi _ Ek). unfold install_igtk. by case_bool_decide.
Qed.

Lemma inv_note_ok now c : client_ok c -> client_ok (note_ap_activity now c).
Proof. intros Hok. unfold note_ap_activity. keep_client_ok Hok. Qed.

(** What the station holds once message 3 has been accepted. *)
Record keyed_by (p : PendingPtk) (i : Z) (g : bytes) (igtk : option (Z * bytes * bytes)) (r rsc : Z) (c : Client) : Prop := {
  kb_ok : client_ok c;
  kb_keys : cl_kck c = pp_kck p /\ cl_kek c = pp_kek p /\ cl_pairwise_tk c = pp_pairwise_tk p;
  kb_counters : cl_client_pn c = 1 /\ cl_last_rx_pn c = replicate 17 0 /\ cl_last_rx_mgmt_pn c = 0;
  kb_group : cl_gtk c = g /\ cl_gtk_key_id c = i /\ cl_last_rx_gpn c = replicate 17 rsc;
  kb_igtk : forall id ipn key, igtk = Some (id, ipn, key) -> cl_igtk c = Some key;
  kb_replay : cl_eapol_replay c = r
}.

Lemma message_3_installs ek c p padded i g igtk :
  client_ok c -> eapol_key_ok ek -> cl_pending_ptk c = Some p -> cl_ptk_installed c = false -> cl_gtk_set c = false ->
  cl_ocv c = false -> pn_ok (ek_rsc ek) -> cl_eapol_replay c <= ek_replay_counter ek ->
  aes_unwrap (pp_kek p) (ek_key_data ek) = Val (Some padded) -> parse_gtk_kde_full padded = Val (Some (i, g)) ->
  arr 16 g -> parse_igtk_kde padded = Val igtk -> (is_some (cl_sae_pmk c) = true -> igtk <> None) ->
  exists c', m3_install ek c = Val (Some c') /\ association_of c' = association_of c /\
    keyed_by p i g igtk (ek_replay_counter ek) (ek_rsc ek) c'.
Proof.
  intros Hok Hek Hp Hni Hset Hocv Hrsc Hle Hu Hg Hgl Hi Hpmf.
  destruct (m3_install_ok ek c p Hok Hek Hp Hle) as (o & Eo & Ho).
  pose proof (co_pending c Hok) as Hpo. rewrite Hp in Hpo. cbn in Hpo.
  assert (Hpw : wf_bytes padded).
  { destruct (aes_unwrap_total (pp_kek p) (ek_key_data ek) (po_kek p Hpo)) as (o' & E & Hw'); [apply Hek|].
    rewrite Hu in E. injection E as <-. by destruct (Hw' padded eq_refl). }
  destruct (install_first_keys padded (ek_rsc ek) c i g igtk Hok Hpw Hrsc Hset Hg Hgl Hi Hpmf)
    as (c1 & Ei & K1 & K2 & K3 & K4).
  destruct (install_group_keys_ok padded (ek_rsc ek) c Hok Hpw (pn_u64 _ Hrsc)) as (b & c1' & Ei' & G & _).
  rewrite Ei in Ei'. injection Ei' as <- <-.
  destruct (group_moved_forward c c1 G) as (_ & _ & F3 & F4 & _).
  set (c2 := c1 <| cl_eapol_replay := ek_replay_counter ek |>).
  assert (Hp2 : cl_pending_ptk c2 = Some p) by (unfold c2; fields; congruence).
  assert (Ec : m3_install ek c = Val (Some (commit_pending_ptk c2))).
  { unfold m3_install. rewrite Hp, Hu. cbn [obind rbind]. unfold m3_oci_accepted. rewrite Hocv. cbn [rbind negb].
    rewrite Ei. reflexivity. }
  rewrite Ec in Eo. injection Eo as <-. destruct (Ho _ eq_refl) as (Hok' & Ha & _ & _ & _ & Hr & Hk1 & Hk2 & Hk3).
  exists (commit_pending_ptk c2). split; [done|]. split; [done|].
  assert (Es : same_pending_key c2 p = false).
  { unfold same_pending_key. assert (cl_ptk_installed c2 = false) as -> by (unfold c2; fields; congruence). done. }
  constructor; try done; rewrite (commit_spec c2 p Hp2), Es; [by split_and!|by split_and!|exact K4].
Qed.

Lemma answer_message_3 now c bssid p r rsc m wrapped padded fr i g igtk :
  let ek := built_key (ki_m3 (client_key_mic c)) (Z.of_nat (key_len (cl_pairwise_cipher c))) r (pp_anonce p) rsc m wrapped in
  client_ok c -> 2 <= cl_connected c < 4 -> cl_pause_m3 c = false -> cl_eapol_state c = 1 -> cl_bssid c = Some bssid ->
  cl_pending_ptk c = Some p -> cl_gtk_set c = false -> cl_ocv c = false -> cl_mld_mac c = None ->
  eapol_key_ok ek -> wf_bytes fr -> pn_ok rsc -> pp_replay p <= r -> cl_eapol_replay c < r ->
  eapol_mic_valid (client_key_mic c) (pp_kck p) fr ek = Val true ->
  aes_unwrap (pp_kek p) wrapped = Val (Some padded) -> parse_gtk_kde_full padded = Val (Some (i, g)) -> arr 16 g ->
  parse_igtk_kde padded = Val igtk -> (is_some (cl_sae_pmk c) = true -> igtk <> None) ->
  exists c' sc f4, handle_eapol_key now fr ek false c client_silent = Val (c', client_tx f4 client_silent) /\
    cl_connected c' = 4 /\ cl_ptk_installed c' = true /\ keyed_by p i g igtk r rsc c' /\
    build_eapol_m4_mld bssid (cl_mac c) (pp_kck p) r (u16 (sc * 16)) (client_key_mic c) None = Val f4.
Proof.
  intros ek Hok Hc Hpa Hst Hb Hp Hset Hocv Hmld Hek Hfr Hrsc Hpr Hr Hv Hu Hg Hgl Hi Hpmf.
  pose proof (not_installed c Hok ltac:(lia)) as Hni.
  assert (Hv3 : valid_m3 c ek = true).
  { unfold valid_m3, m3_nonce_matches. rewrite Hp. change (ek_nonce ek) with (pp_anonce p).
    change (ek_key_data ek) with wrapped. change (ek_key_length ek) with (Z.of_nat (key_len (cl_pairwise_cipher c))).
    rewrite beq_refl, Z.eqb_refl. cbn [orb]. destruct wrapped as [|w ws]; [done|].
    unfold ek. destruct (client_key_mic c); reflexivity. }
  destruct (message_3_installs ek c p padded i g igtk) as (c1 & Ec1 & Ha & K); try done; [cbn; lia|].
  change (ek_replay_counter ek) with r in K. change (ek_rsc ek) with rsc in K.
  pose proof (co_bssid c Hok) as Hbb. rewrite Hb in Hbb. cbn in Hbb.
  destruct (send_message_4_ok now bssid false c1 client_silent (kb_ok _ _ _ _ _ _ _ K) Hbb)
    as (pn & sc & out' & E & _ & _ & Hun). destruct (Hun eq_refl) as (-> & f4 & -> & Hf4).
  assert (Hpa1 : cl_pause_m3 c1 = false) by (rewrite <- Hpa; exact (f_equal (fun a => a.2.2) Ha)).
  assert (Ha' : cl_mac c1 = cl_mac c /\ client_key_mic c1 = client_key_mic c /\ cl_mld_mac c1 = None).
  { assert (E' : cl_mac c1 = cl_mac c /\ cl_psk_sha256 c1 = cl_psk_sha256 c /\ cl_sae_pmk c1 = cl_sae_pmk c /\
      cl_owe c1 = cl_owe c /\ cl_mld_mac c1 = cl_mld_mac c) by (unfold association_of in Ha; by injection Ha).
    destruct E' as (-> & E1 & E2 & E3 & ->). unfold client_key_mic. by rewrite E1, E2, E3. }
  destruct Ha' as (Hmac & Hmic & Hmld1).
  destruct K as [K1 (K2a & K2b & K2c) (K3a & K3b & K3c) K4 K5 K6].
  exists (note_ap_activity now (m4_sent now (cl_client_pn c1) sc c1)), sc, f4. split; [|split; [done|split; [done|split]]].
  - unfold handle_eapol_key, refused_in_clear. rewrite Hni, andb_false_r. cbn [andb].
    rewrite (proj2 (Z.leb_gt 4 _)) by lia. cbn [andb]. unfold pairwise_message. rewrite (proj2 (Z.leb_gt 4 _)), Hst, Hv3 by lia.
    cbn [andb Z.eqb Pos.eqb]. unfold send_eapol4, m3_kck. rewrite Hb, Hpa, Hp.
    assert (retry_m3 c ek = false) as -> by (unfold retry_m3; by rewrite Hni, andb_false_r).
    assert (fresh_m3 c ek = true) as ->.
    { unfold fresh_m3. rewrite Hp, Hpa. change (ek_replay_counter ek) with r.
      by rewrite (proj2 (Z.leb_le _ _)), (proj2 (Z.ltb_lt _ _)) by lia. }
    cbn [negb andb option_map]. rewrite Hv. cbn [rbind negb]. rewrite Ec1. cbn [rbind]. rewrite Hpa1, E. reflexivity.
  - constructor; try done. apply (inv_note_ok now), m4_sent_ok; [done|done|]. apply K1.
  - by rewrite Hmac, Hmic, Hmld1, K2a, K6 in Hf4.
Qed.

(** * The four-way handshake between the two *)

(** The station and the access point's record of it are about the same session. *)
Record same_session (c : Client) (ap : Ap) (sta : bytes) (s : Station) (pmk : bytes) : Prop := {
  ss_mac : cl_mac c = sta;
  ss_bssid : cl_bssid c = Some (ap_mac ap);
  ss_other : ap_mac ap <> sta;
  ss_pmk : client_pmk c = pmk;
  ss_suite : client_sha256 c = st_sha256 s /\ cl_pairwise_cipher c = st_pairwise_cipher s /\ client_key_mic c = key_mic s;
  ss_rsn : exists kd, trim_key_data_padding (message_2_rsn c) = Val kd /\ message_2_security_matches (st_assoc_ies s) kd = Val true;
  ss_pmf : is_some (cl_sae_pmk c) = true -> st_pmf s = true;
  ss_replay : cl_eapol_replay c < (next_eapol_replay ap).1 /\ st_m1_replay s <= (next_eapol_replay ap).1
}.

(** The first message 1 of the access point: the station answers with message 2. *)
Lemma message_1_answered fuel now c ap sta s anonce pmk sc1 :
  waiting c -> ap_ok ap -> same_session c ap sta s pmk -> arr 6 sta -> arr 32 anonce -> anonce <> replicate 32 0 ->
  u64_ok (st_m1_replay s) -> 0 <= sc1 < 2 ^ 16 ->
  exists p draws sc f2 k,
    client_step fuel (Heard now false (RADIOTAP_TX ++ build_eapol_m1_for_key_length (ap_mac ap) sta anonce (st_m1_replay s)
        sc1 (key_mic s) (Z.of_nat (key_len (st_pairwise_cipher s))))) c
      = Val (note_ap_activity now (m2_sent p draws (cl_client_pn c) sc c), client_tx f2 client_silent) /\
    pending_ok p /\ pp_anonce p = anonce /\ pp_replay p = st_m1_replay s /\
    derive_ptk (st_sha256 s) (key_len (st_pairwise_cipher s)) pmk (ap_mac ap) sta anonce (pp_snonce p) = Val k /\
    pp_kck p = ptk_kck k /\ pp_kek p = ptk_kek k /\ pp_pairwise_tk p = ptk_tk k /\
    build_eapol_m2 (ap_mac ap) sta (pp_snonce p) (pp_kck p) (message_2_rsn c) (st_m1_replay s) (u16 (sc * 16)) (key_mic s) None
      = Val f2.
Proof.
  intros W H S Hsta Han Hnz Hrc Hsc. destruct S as [Sm Sb So Sp (Ss1 & Ss2 & Ss3) _ _ _].
  pose proof (wt_ok c W) as Hok. destruct (wt_plain c W) as (Pl1 & Pl2 & _).
  destruct (eapol_m1_rx (ap_mac ap) sta anonce (st_m1_replay s) sc1 (key_mic s) (Z.of_nat (key_len (st_pairwise_cipher s))) [])
    as (d & fr & Hrx & A1 & A2 & A3 & Hds); try done; try apply H; [destruct (st_pairwise_cipher s); cbn; lia|constructor|].
  unfold build_eapol_m1_for_key_length. set (m1 := build_eapol_m1_with_key_data _ _ _ _ _ _ _ _) in *.
  set (ek := built_key _ _ _ _ _ _ _) in Hrx. destruct (eapol_rx_ok _ _ _ _ Hrx) as [Hek _].
  assert (Hv : valid_m1 c ek = true).
  { unfold valid_m1. rewrite Ss2, Ss3. change (ek_nonce ek) with anonce.
    change (ek_key_length ek) with (Z.of_nat (key_len (st_pairwise_cipher s))). rewrite Z.eqb_refl.
    destruct (beq anonce (replicate 32 0)) eqn:E; [by apply beq_true in E|]. unfold ek. by destruct (key_mic s). }
  destruct (answer_message_1 now c (ap_mac ap) ek fr W Sb Hv Hek) as (p & draws & sc & f2 & E & Hpo & Hd & Hf2).
  change (ek_nonce ek) with anonce in Hd. change (ek_replay_counter ek) with (st_m1_replay s) in Hd, Hf2.
  destruct (derive_pending_ok c (ap_mac ap) anonce (pp_snonce p) (st_m1_replay s) Hok (ao_mac ap H) Han (po_snonce p Hpo) Hrc)
    as (p' & k & Ep & _ & Hk & E1 & _ & E3 & E4 & E5 & E6).
  rewrite Hd in Ep. injection Ep as <-.
  exists p, draws, sc, f2, k. split; [|split; [done|split; [done|split; [done|split]]]].
  - rewrite (transmitted_heard fuel now false m1 d c (proj1 Hrx)) by congruence.
    rewrite (dispatch_eapol fuel now m1 d ek fr c client_silent); [exact E| |exact Hrx|congruence| |exact Hds].
    + apply W.
    + unfold is_from_selected_ap. rewrite Sb, A2, A3, beq_refl. done.
  - unfold client_aa, client_spa in Hk. rewrite Pl1, Pl2, Sm, Ss1, Ss2, Sp in Hk. exact Hk.
  - do 3 (split; [done|]). by rewrite Sm, Ss3 in Hf2.
Qed.

(** Message 3 in answer to it: the station installs its keys and answers with message 4. *)
Lemma message_3_answered fuel now1 now c ap sta s pmk p draws sc k r m3 :
  waiting c -> ap_ok ap -> same_session c ap sta s pmk -> pending_ok p -> pp_kck p = ptk_kck k -> pp_kek p = ptk_kek k ->
  pp_replay p = st_m1_replay s -> r = (next_eapol_replay ap).1 -> supplicant_gets_keys ap sta s (pp_anonce p) k r m3 ->
  exists c2 rsc sc4 f4,
    client_step fuel (Heard now false (RADIOTAP_TX ++ m3)) (note_ap_activity now1 (m2_sent p draws (cl_client_pn c) sc c))
      = Val (c2, client_tx f4 client_silent) /\
    cl_connected c2 = 4 /\ cl_ptk_installed c2 = true /\
    keyed_by p (station_gtk_key_id ap sta) (station_gtk ap sta)
      (if st_pmf s then Some (station_igtk_key_id ap sta, station_igtk_ipn ap sta, station_igtk ap sta) else None) r rsc c2 /\
    build_eapol_m4_mld (ap_mac ap) sta (ptk_kck k) r (u16 (sc4 * 16)) (key_mic s) None = Val f4.
Proof.
  intros W H S Hpo Kck Kek Hpr -> (d & fr & m & wrapped & padded & rsc & Hrsc & Hrx & A1 & A2 & A3 & Hds & Hv & Hu & Hg & Hi).
  destruct S as [Sm Sb So Sp (Ss1 & Ss2 & Ss3) _ Spmf [Sr1 Sr2]]. destruct (wt_plain c W) as (Pl1 & _ & Pl3).
  pose proof (wt_ok c W) as Hok. pose proof (wt_connected c W) as Hc.
  set (c1 := note_ap_activity now1 (m2_sent p draws (cl_client_pn c) sc c)).
  assert (Hok1 : client_ok c1) by (apply inv_note_ok, m2_sent_ok; [done|done|apply Hok]).
  destruct (eapol_rx_ok _ _ _ _ Hrx) as [Hek Hfr]. rewrite <- Ss3, <- Ss2 in *.
  set (ek := built_key _ _ _ _ _ _ _) in Hrx, Hv, Hek.
  destruct (answer_message_3 now c1 (ap_mac ap) p (next_eapol_replay ap).1 rsc m wrapped padded fr
    (station_gtk_key_id ap sta) (station_gtk ap sta)
    (if st_pmf s then Some (station_igtk_key_id ap sta, station_igtk_ipn ap sta, station_igtk ap sta) else None))
    as (c2 & sc4 & f4 & E & E4 & Ei & K & Hf4); try assumption; try reflexivity.
  - exact (wt_pause c W).
  - exact (wt_gtk c W).
  - by rewrite Hpr.
  - by rewrite Kck.
  - by rewrite Kek.
  - apply (station_group_keys_ok ap sta H).
  - change (cl_sae_pmk c1) with (cl_sae_pmk c). intros Ep. by rewrite (Spmf Ep).
  - exists c2, rsc, sc4, f4. split; [|do 3 (split; [assumption|]); rewrite <- Kck, <- Sm; exact Hf4].
    rewrite (transmitted_heard fuel now false m3 d c1 (proj1 Hrx)) by (change (cl_mac c1) with (cl_mac c); congruence).
    rewrite (dispatch_eapol fuel now m3 d ek fr c1 client_silent); [exact E| |exact Hrx|by rewrite A1| |exact Hds].
    + apply W.
    + unfold is_from_selected_ap. change (cl_bssid c1) with (cl_bssid c). by rewrite Sb, A2, A3, beq_refl.
Qed.

(** The access point's half: message 2 is answered with message 3, and message 4 completes the handshake. *)
Lemma message_2_answered now ap out sta s anonce snonce pmk rsn kd k sc2 f2 :
  ap_ok ap -> awaits_m2 ap sta s anonce pmk -> st_associated s = false -> arr 32 snonce -> ptk_ok k ->
  derive_ptk (st_sha256 s) (key_len (st_pairwise_cipher s)) pmk (ap_mac ap) sta anonce snonce = Val k ->
  wf_bytes rsn -> Z.of_nat (length rsn) < 2 ^ 15 -> trim_key_data_padding rsn = Val kd ->
  message_2_security_matches (st_assoc_ies s) kd = Val true -> 0 <= sc2 < 2 ^ 16 ->
  build_eapol_m2 (ap_mac ap) sta snonce (ptk_kck k) rsn (st_m1_replay s) sc2 (key_mic s) None = Val f2 ->
  exists d2 ap1 out1 m3 tail s1, parse f2 = Val (Some d2) /\ handle_eapol now d2 ap out = Val (ap1, out1) /\ ap_ok ap1 /\
    out_frames out1 = out_frames out ++ (RADIOTAP_TX ++ m3) :: tail /\
    supplicant_gets_keys ap sta s anonce k (next_eapol_replay ap).1 m3 /\
    u64_ok (next_eapol_replay ap).1 /\ ap_mac ap1 = ap_mac ap /\ ap_mld ap1 = false /\ ap_stations ap1 !! sta = Some s1 /\
    st_group_rekeying s1 = false /\ st_awaiting_m4 s1 = true /\ key_mic s1 = key_mic s /\
    st_ptk_candidates s1 = [candidate_of (next_eapol_replay ap).1 k] /\ st_associated s1 = false.
Proof.
  intros H W Has Hsn Hkok Hk Hrw Hrl Htrim Hmatch Hsc2 Hf2.
  pose proof (aw_station _ _ _ _ _ W) as Hs. pose proof (ap_ok_station ap _ s H Hs) as Hok.
  destruct (ao_stations ap H _ _ Hs) as [Hsta _].
  assert (Han : arr 32 anonce)
    by (pose proof (so_anonce s Hok) as Ho; by rewrite (aw_anonce _ _ _ _ _ W) in Ho).
  destruct (eapol_m2_rx (ap_mac ap) sta snonce (ptk_kck k) rsn (st_m1_replay s) sc2 (key_mic s) None)
    as (f & d2 & fr2 & m2 & kd2 & Ef & -> & Hrx2 & A1 & A2 & _ & Hv2);
    try done; try apply H; try apply Hkok; try apply Hok.
  rewrite Hf2 in Ef. injection Ef as <-. subst sta. rewrite app_nil_r in Hrx2, Hv2. set (sta := addr2 d2) in *.
  destruct (first_message_2 now d2 ap out s fr2 (built_key (ki_m2 (key_mic s)) 0 (st_m1_replay s) snonce 0 m2 rsn)
    anonce pmk k kd H (proj1 (proj2 Hrx2)) W (rx_received _ _ _ _ _ _ Hrx2 A1 Hs)
    eq_refl (ki_m2_matches _) eq_refl Hk Hv2 Htrim Hmatch)
    as (ap1 & out1 & r & m3 & tail & ap0 & apx & Hh1 & H1 & Hr & Er & Hof & Hmv & S1 & S2 & S3 & Hm3 & T1 & T2 & Hs1).
  destruct (aw_idle _ _ _ _ _ W) as (Hg & _ & _ & Hcs). destruct (aw_plain _ _ _ _ _ W) as (Hmld & _).
  rewrite <- Er. exists d2, ap1, out1, m3, tail, (m3_sent now r pmk k m3 s).
  split; [apply Hrx2|]. split; [exact Hh1|]. split; [done|]. split; [exact Hof|].
  split; [apply (message_3_delivers sta s anonce pmk k r ap ap0 m3 apx); try done; congruence|].
  do 4 (split; [done|]). unfold m3_sent, timer_armed, m3_pending, m2_kept, m2_pinned, key_mic. fields.
  by rewrite Hg, Hcs, Has.
Qed.

Lemma message_4_completes now ap out sta s k r sc4 f4 :
  ap_ok ap -> ap_stations ap !! sta = Some s -> ap_mld ap = false -> st_group_rekeying s = false ->
  st_awaiting_m4 s = true -> st_ptk_candidates s = [candidate_of r k] -> st_associated s = false -> ptk_ok k -> u64_ok r ->
  0 <= sc4 < 2 ^ 16 -> build_eapol_m4_mld (ap_mac ap) sta (ptk_kck k) r sc4 (key_mic s) None = Val f4 ->
  exists d4 ap2 s2, parse f4 = Val (Some d4) /\ handle_eapol now d4 ap out = Val (ap2, out) /\
    ap_stations ap2 !! sta = Some s2 /\ st_associated s2 = true /\ st_kck s2 = ptk_kck k /\ st_kek s2 = ptk_kek k /\
    st_pairwise_tk s2 = ptk_tk k /\ st_client_pn s2 = 1 /\ st_last_rx_pn s2 = replicate 17 0 /\
    sta ∈ ap_key_ready_stations ap2.
Proof.
  intros H Hs Hmld Hg Haw Hcs Has Hkok Hr Hsc Hf4. destruct (ao_stations ap H _ _ Hs) as [Hsta _].
  destruct (eapol_m4_rx (ap_mac ap) sta (ptk_kck k) r sc4 (key_mic s) None)
    as (f & d4 & fr4 & m4 & kd4 & Ef & -> & Hrx4 & B1 & B2 & _ & Hv4); try done; try apply H; try apply Hkok.
  rewrite Hf4 in Ef. injection Ef as <-. rewrite <- B2 in Hs.
  pose proof (only_candidate_installed now d4 ap out s fr4 _ (candidate_of r k) H (proj1 (proj2 Hrx4))
    (rx_received _ _ _ _ _ _ Hrx4 B1 Hs) Hmld Hg Haw (built_m4 _ _ _) Hcs eq_refl Hv4) as Hh.
  rewrite B2 in Hh, Hs.
  assert (Hst : same_temporal_key s (candidate_of r k) = false) by (unfold same_temporal_key; by rewrite Has).
  pose proof (install_ptk_windows s (candidate_of r k)) as Hw. rewrite Hst in Hw.
  destruct (install_ptk_keys s (candidate_of r k)) as (K1 & K2 & K3 & K4 & _).
  exists d4, (m4_accepted sta s (candidate_of r k) ap), (install_ptk (candidate_of r k) s).
  split; [apply Hrx4|]. split; [exact Hh|]. split.
  { destruct (m4_accepted_moves sta s (candidate_of r k) ap H Hs) as (_ & _ & ->); [split; [done|apply Hkok]|].
    by rewrite lookup_insert_eq. }
  do 4 (split; [done|]). split; [apply Hw|]. split; [apply Hw|].
  unfold m4_accepted. fields. apply elem_of_app. right. by apply elem_of_cons; left.
Qed.

(** C1: the access point and the station complete the four-way handshake with each other, in the plain setting: neither
    end is multi-link and neither validates the operating channel (with OCV on at one end only, message 2 or message 3
    is dropped). Take an access point that has sent its first message 1 to a station that is not associated, waits for
    message 2 (no candidate keys yet, not waiting for message 4, no group rekey pending) and expects exactly one PMK,
    which the record itself holds when the mode is WPA3-SAE or OWE. And take a station that has just been accepted by
    that access point, holds no group key and no installed key, is not holding message 3 back (the pause of the test
    interface), and is in the same session: it derives from the same PMK with the same hierarchy, cipher and MIC, its
    message 2 names the security its association request named, a SAE station has PMF, and it has seen no replay
    counter as high as the next one of the access point. Then, through the real frames and
    whatever the ANonce (other than zero) and the times, the station answers message 1 with message 2, the access
    point accepts it and sends message 3, the station verifies it, installs the keys and answers with message 4, and
    the access point accepts that. At the end both are associated under the same KCK, KEK and temporal key, with packet
    numbers at 1 and empty replay windows; and the station holds the group key of the access point under its index
    (and, if management frames are protected, the integrity group key). *)
Theorem station_and_ap_complete fuel t1 t2 t3 t4 c ap out sta s anonce pmk sc1 :
  waiting c -> ap_ok ap -> awaits_m2 ap sta s anonce pmk -> st_associated s = false -> same_session c ap sta s pmk ->
  anonce <> replicate 32 0 -> 0 <= sc1 < 2 ^ 16 ->
  exists c1 f2 d2 ap1 out1 m3 tail c2 f4 d4 ap2 s2,
    client_step fuel (Heard t1 false (RADIOTAP_TX ++ build_eapol_m1_for_key_length (ap_mac ap) sta anonce (st_m1_replay s)
        sc1 (key_mic s) (Z.of_nat (key_len (st_pairwise_cipher s))))) c = Val (c1, client_tx f2 client_silent) /\
    parse f2 = Val (Some d2) /\ handle_eapol t2 d2 ap out = Val (ap1, out1) /\
    out_frames out1 = out_frames out ++ (RADIOTAP_TX ++ m3) :: tail /\
    client_step fuel (Heard t3 false (RADIOTAP_TX ++ m3)) c1 = Val (c2, client_tx f4 client_silent) /\
    parse f4 = Val (Some d4) /\ handle_eapol t4 d4 ap1 out1 = Val (ap2, out1) /\
    ap_stations ap2 !! sta = Some s2 /\ sta ∈ ap_key_ready_stations ap2 /\
    st_associated s2 = true /\ cl_connected c2 = 4 /\ cl_ptk_installed c2 = true /\
    cl_kck c2 = st_kck s2 /\ cl_kek c2 = st_kek s2 /\ cl_pairwise_tk c2 = st_pairwise_tk s2 /\
    (st_client_pn s2 = 1 /\ st_last_rx_pn s2 = replicate 17 0) /\
    (cl_client_pn c2 = 1 /\ cl_last_rx_pn c2 = replicate 17 0) /\
    cl_gtk c2 = station_gtk ap sta /\ cl_gtk_key_id c2 = station_gtk_key_id ap sta /\
    (st_pmf s = true -> cl_igtk c2 = Some (station_igtk ap sta)).
Proof.
  intros Wt H W Has S Hnz Hsc1. pose proof (wt_ok c Wt) as Hok.
  pose proof (aw_station _ _ _ _ _ W) as Hs. pose proof (ap_ok_station ap _ s H Hs) as Hsok.
  destruct (ao_stations ap H _ _ Hs) as [Hsta _].
  assert (Han : arr 32 anonce) by (pose proof (so_anonce s Hsok) as Ho; by rewrite (aw_anonce _ _ _ _ _ W) in Ho).
  assert (Hp : arr 32 pmk).
  { pose proof (pmk_candidates_ok ap sta s H Hsok) as Ho. rewrite (aw_pmk _ _ _ _ _ W) in Ho. by apply Forall_cons in Ho as [Ho _]. }
  destruct (message_1_answered fuel t1 c ap sta s anonce pmk sc1 Wt H S Hsta Han Hnz (so_m1_replay s Hsok) Hsc1)
    as (p & draws & sc & f2 & k & E1 & Hpo & Pa & Pr & Hk & Kck & Kek & Ktk & Hf2).
  assert (Hkok : ptk_ok k).
  { destruct (derive_ptk_ok (st_sha256 s) (st_pairwise_cipher s) pmk (ap_mac ap) sta anonce (pp_snonce p))
      as (k' & Hk' & Hkok & _); try apply Hp; try apply Hsta; try apply Han; try apply H; try apply Hpo.
    rewrite Hk in Hk'. by injection Hk' as <-. }
  destruct (message_2_rsn_ok c Hok) as [Hrw Hrl]. destruct (ss_rsn _ _ _ _ _ S) as (kd & Htrim & Hmatch).
  rewrite Kck in Hf2.
  assert (Hu : forall z, 0 <= u16 z < 2 ^ 16) by (intros; unfold u16; apply Z.mod_pos_bound; lia).
  destruct (message_2_answered t2 ap out sta s anonce (pp_snonce p) pmk (message_2_rsn c) kd k (u16 (sc * 16)) f2)
    as (d2 & ap1 & out1 & m3 & tail & s1 & P2 & E2 & H1 & Hof & Hkeys & Hr & T1 & T2 & Hs1 & Q1 & Q2 & Q3 & Q4 & Q5);
    try done; [apply Hpo|lia|].
  rewrite <- Pa in Hkeys.
  destruct (message_3_answered fuel t1 t3 c ap sta s pmk p draws sc k (next_eapol_replay ap).1 m3)
    as (c2 & rsc & sc4 & f4 & E3 & N4 & Ni & K & Hf4); try done.
  rewrite <- T1, <- Q3 in Hf4.
  destruct (message_4_completes t4 ap1 out1 sta s1 k (next_eapol_replay ap).1 (u16 (sc4 * 16)) f4)
    as (d4 & ap2 & s2 & P4 & E4 & Hs2 & B1 & B2 & B3 & B4 & B5 & B6 & B7); try done.
  destruct K as [_ (K1 & K2 & K3) (K4 & K5 & _) (K6 & K7 & _) K8 _].
  exists (note_ap_activity t1 (m2_sent p draws (cl_client_pn c) sc c)), f2, d2, ap1, out1, m3, tail, c2, f4, d4, ap2, s2.
  do 12 (split; [done|]). split; [congruence|]. split; [congruence|]. split; [congruence|].
  do 2 (split; [done|]). do 2 (split; [done|]). intros Ep. rewrite Ep in K8. by eapply K8.
Qed.

End Bss.

(** * Witness

    The station after the association response, and the access point that has
    sent it message 1. *)
Definition demo_accepted := Eval vm_compute in returned (client_run 1 (take 3 demo_heard) demo_client).
Definition demo_accepted_client : Client := Eval vm_compute in demo_accepted.1.
Definition demo_said : list (Z * ap_event) := Eval vm_compute in
  zip_with (fun t f => (t, Received Userspace f)) [secs 1; secs 2] (concat (map co_frames demo_accepted.2)).
Definition demo_asking := Eval vm_compute in returned (ap_run 1 demo_said demo_empty).
Definition demo_asking_ap : Ap := Eval vm_compute in demo_asking.1.
Definition demo_asked_station : Station := Eval vm_compute in demo_lookup demo_asking_ap.

Lemma demo_accepted_ok : client_inv demo_accepted_client.
Proof.
  apply (run_keeps 1 (take 3 demo_heard) demo_client demo_accepted_client demo_accepted.2 demo_client_inv).
  - reflexivity.
  - apply Forall_take, demo_heard_ok.
  - exact toy_entropy_yields.
  - vm_compute. reflexivity.
Qed.

Lemma demo_asking_ok : ap_ok demo_asking_ap.
Proof.
  assert (Hev : Forall (fun e => ap_event_ok e.2) demo_said).
  { unfold demo_said. repeat (apply Forall_cons; split; [cbn [snd ap_event_ok]; by apply (bool_decide_unpack _)|]). constructor. }
  assert (E : ap_run 1 demo_said demo_empty = Val (demo_asking_ap, demo_asking.2)) by (vm_compute; reflexivity).
  destruct (ap_run_moves 1 demo_said demo_empty demo_sae_inv demo_passwords_wf Hev toy_entropy_yields)
    as [[E' _]|(ap' & outs & E' & _ & M)]; rewrite E in E'; [discriminate E'|].
  assert (ap' = demo_asking_ap) as <- by exact (f_equal (fun r => match r with Val x => x.1 | _ => ap' end) (eq_sym E')).
  apply (sm_inv _ _ M).
Qed.

Lemma demo_same_session : same_session demo_accepted_client demo_asking_ap demo_sta demo_asked_station (ap_pmk demo_empty).
Proof.
  constructor; try (vm_compute; reflexivity).
  - discriminate.
  - split; [vm_compute; reflexivity|]. split; vm_compute; reflexivity.
  - eexists. split; vm_compute; reflexivity.
  - discriminate.
  - split; vm_compute; [reflexivity|discriminate].
Qed.

Lemma station_and_ap_complete_witness :
  exists c1 f2 d2 ap1 out1 m3 tail c2 f4 d4 ap2 s2,
    client_step 1 (Heard 1 false (RADIOTAP_TX ++ build_eapol_m1_for_key_length demo_mac demo_sta
      (default [] (st_anonce demo_asked_station)) (st_m1_replay demo_asked_station) 48 HmacSha1 16)) demo_accepted_client
      = Val (c1, client_tx f2 client_silent) /\
    parse f2 = Val (Some d2) /\ handle_eapol 2 d2 demo_asking_ap no_output = Val (ap1, out1) /\
    out_frames out1 = (RADIOTAP_TX ++ m3) :: tail /\
    client_step 1 (Heard 3 false (RADIOTAP_TX ++ m3)) c1 = Val (c2, client_tx f4 client_silent) /\
    parse f4 = Val (Some d4) /\ handle_eapol 4 d4 ap1 out1 = Val (ap2, out1) /\
    ap_stations ap2 !! demo_sta = Some s2 /\ st_associated s2 = true /\ cl_connected c2 = 4 /\
    cl_pairwise_tk c2 = st_pairwise_tk s2.
Proof.
  destruct (station_and_ap_complete 1 1 2 3 4 demo_accepted_client demo_asking_ap no_output demo_sta demo_asked_station
    (default [] (st_anonce demo_asked_station)) (ap_pmk demo_empty) 48)
    as (c1 & f2 & d2 & ap1 & out1 & m3 & tail & c2 & f4 & d4 & ap2 & s2 & H1 & H2 & H3 & H4 & H5 & H6 & H7 & H8 & _ & H10
        & H11 & _ & _ & _ & H15 & _).
  - constructor; [apply demo_accepted_ok|split; [discriminate|reflexivity]|reflexivity|reflexivity|by split_and!|reflexivity].
  - exact demo_asking_ok.
  - constructor; [vm_compute; reflexivity|by split_and!|by split_and!|reflexivity|reflexivity|].
    intros [E|E]; vm_compute in E; discriminate E.
  - reflexivity.
  - exact demo_same_session.
  - vm_compute. discriminate.
  - lia.
  - exists c1, f2, d2, ap1, out1, m3, tail, c2, f4, d4, ap2, s2.
    split; [exact H1|]. split; [exact H2|]. split; [exact H3|]. split; [exact H4|]. split; [exact H5|]. split; [exact H6|].
    split; [exact H7|]. split; [exact H8|]. split; [exact H10|]. split; [exact H11|exact H15].
Defined.
